(* ===== verification/_CoqProject ===== *)
-Q . S2P
Prelude.v
CString.v
Spinlock.v
ProcState.v
Queue.v
Proc.v
ProcLemmas.v
NiceKill.v
Alloc.v
Sched.v
Switching.v
ExitWait.v
Sinv.v
SinvOps.v
NoLost.v
Kalloc.v
Pipe.v
Bytes.v
Bio.v
BioSpec.v
Log.v
LogSpec.v
LogCrash.v
LogWrite.v
Fs.v
FsSpec.v
FsBlocks.v
FsInode.v
FsFile.v
FsExample.v
FsPath.v
File.v
Syscall.v
Sysfile.v
SysfileInv.v
SysfileCalls.v
Vm.v
VmSpec.v
VmUser.v
VmKernel.v
VmCopy.v
Exec.v
ExecSpec.v
Trap.v
TrapSpec.v
Grep.v
Ulib.v
Umalloc.v
UmallocSpec.v
UmallocUse.v
Sh.v
ShParse.v
ShPrint.v
ShRun.v
Kbd.v
Cga.v
Console.v
ConsoleSpec.v
ConsolePrint.v
Ide.v
IdeSpec.v
Programs.v
Mkfs.v
MkfsSpec.v
MkfsImage.v
MkfsMain.v
FsDir.v
Mp.v
Lapic.v
Cmos.v
Boot.v
Irqchips.v
Ls.v
Startup.v
Main.v
Uprog.v
Usertests.v
UsertestsSpec.v
Tests.v
