(* ===== verification/Prelude.v ===== *)
(** * The xv6 kernel with priorities, and its user programs

    This library models src/xv6-public, a small Unix-like kernel for x86
    processors to which a system call [nice] and a scheduler with priority
    queues have been added, together with its boot loader, its user programs and
    the program that builds its disk image, and proves what they do.

    ** The program and how the files follow it

    Every C function is a definition of the same name, in the monad of this
    file: a computation takes the state of a component and returns a value and a
    state ([Ret]), panics ([Panic]), does what C leaves undefined ([Undef], such
    as an index out of range or a null pointer), spins for ever ([Spin]) or
    gives up the processor ([Switch], with the rest of the computation as a
    function of the state in which it is resumed).  Structs are records, enums
    and tagged unions are inductive types, pointers into a table are indices and
    other pointers 32-bit addresses; [u32], [s32] and [u8] keep integers at their
    width.

    - Machine and memory: [CString] (string.c), [Spinlock] (spinlock.c),
      [Kalloc] (kalloc.c), [Vm], [VmSpec], [VmUser], [VmKernel], [VmCopy]
      (vm.c, mmu.h).
    - Processes: [ProcState] (the state of proc.c, proc.h), [Queue] (the priority
      queues of proc.c), [Proc] (all of proc.c), [ProcLemmas], [NiceKill],
      [Alloc], [Sched], [Switching], [ExitWait] (its functions one by one),
      [Sinv], [SinvOps], [NoLost] (the scheduling invariant).
    - Disk and files: [Bytes] (integers in blocks), [Bio], [BioSpec] (bio.c,
      memide.c, sleeplock.c), [Ide], [IdeSpec] (ide.c), [Log], [LogSpec],
      [LogCrash], [LogWrite] (log.c), [Fs], [FsSpec], [FsBlocks], [FsInode],
      [FsFile], [FsExample], [FsPath], [FsDir] (fs.c), [Pipe] (pipe.c), [File]
      (file.c).
    - System calls: [Syscall] (syscall.c), [Sysfile], [SysfileInv],
      [SysfileCalls] (sysfile.c), [Exec], [ExecSpec] (exec.c), [Trap],
      [TrapSpec] (trap.c, sysproc.c).
    - Devices: [Kbd] (kbd.c), [Cga], [Console], [ConsoleSpec], [ConsolePrint]
      (console.c, uart.c), [Mp] (mp.c), [Lapic], [Cmos] (lapic.c),
      [Irqchips] (picirq.c, ioapic.c, timer.c).
    - Start: [Boot] (bootmain.c), [Startup] (startothers of main.c), [Main] (main, mpenter and mpmain of main.c, on one state).
    - User programs: [Ulib] (ulib.c, printf.c), [Umalloc], [UmallocSpec],
      [UmallocUse] (umalloc.c), [Sh], [ShParse], [ShPrint], [ShRun]
      (sh.c), [Grep] (grep.c), [Ls] (ls.c, and stat of ulib.c), [Programs] (wc,
      cat, echo, kill, ln, mkdir, rm, nice, ps, init, zombie).
    - Test programs: [Uprog] (programs as trees of system calls, and an interface
      for the kernel that answers them), [Usertests]
      (usertests.c), [UsertestsSpec] (what its tests accept), [Tests] (forktest,
      stressfs, test1, test2, test3 and the three tests of nice).
    - The disk image: [Mkfs], [MkfsSpec], [MkfsImage], [MkfsMain] (mkfs.c).

    ** How the components meet

    A component that calls another has its state inside its own ([zoom]) or
    reaches it through a class that says where it is: [Proc] uses memory and
    files through two classes, [Console] and [Ide] find their data through
    [ConsHeap] and [IdeHeap], [File] has the pipe operations as a class.  The
    file system stands on the log, the log on the cache, and the cache on the
    disk in memory of memide.c; [IdeSpec] shows that a request to the IDE driver
    does the same.  Hardware is behind classes with laws, each with an instance
    in the examples: what the code relies on of a disk ([AtaLaws],
    [BootDiskLaws]: a command is taken and data can be had only once a poll of
    the status has said ready; the data of a write are taken without a further
    poll, as ide.c sends them), of a local APIC ([ApicLaws]) and of the clock
    ([clock_laws]: its registers hold anything during an update, of which the
    status tells).  [Main] has the allocator, the page tables, the tables of the
    firmware and the code of the other processors in one memory, and so shows
    that no part disturbs another.  [Mkfs] builds the image that the theorems of fs.c are about,
    and its theorem is stated with the readers of [Fs].

    ** What the theorems show

    - Scheduling ([NoLost], [Queue], [Switching], [ExitWait], [Alloc],
      [NiceKill]): with the priority queues no process that is ready to run is
      ever missing from the queues, in every state that a system of one CPU
      reaches; fork, exit, wait, sleep, nice and the scheduler do what their
      callers expect.  Where nice and kill do not, theorems say what they do
      instead.
    - Locks ([Spinlock], [Startup]): mutual exclusion of acquire and release on
      any number of CPUs, one memory access at a time; each processor that is
      started gets a stack of its own.
    - Memory ([Kalloc], [VmUser], [VmKernel], [VmCopy], [ExecSpec],
      [UmallocUse]): the allocators refine a stack of pages and a set of blocks
      apart from each other; address spaces grow, are copied and freed without
      losing or sharing a page; exec changes the process wholly or not at all,
      and what it changes it to is given by the file, the path and the arguments.
    - Files ([LogCrash], [LogWrite], [FsBlocks], [FsInode], [FsFile], [FsDir],
      [SysfileCalls], [IdeSpec], [MkfsMain]): transactions are atomic whatever
      crashes happen; what is written, to files, inodes and directories, is read
      back; descriptors are counted; requests to the disk are served in order;
      the image is a file system with the files given.
    - Console, shell and programs ([ConsoleSpec], [ConsolePrint], [Cga], [ShParse],
      [ShPrint], [ShRun], [Grep], [Ls], [Programs]): line editing,
      printing, parsing and the pipes of a command line against specifications
      that are independent of the code.
    - Start and devices ([Boot], [Main], [Lapic], [Cmos], [Mp], [Irqchips],
      [Kbd]): the kernel is loaded where its headers say; main leaves
      every page of memory in exactly one place, the kernel's page table in use
      and the other processors started; the processors are found and numbered;
      the clock is read without tearing and not during an update; the keyboard
      types what its keys say, whatever is pressed and released.
    - Test programs ([UsertestsSpec], [Tests]): the test of pipes accepts exactly the stream its child writes; where a test accepts
      more than it means to, theorems give a kernel that shows it; trial division
      counts the primes.

    ** Bounds and fuel

    A loop over a range recurses on its length.  A loop that ends when memory or
    a device says so takes fuel, and its theorems say how much is enough: the
    length of the string and one, the number of pages to the end of the range
    ([mappages], [allocuvm]), the number of entries of a table, the number of
    free blocks ([malloc]), the length of a command line ([parsecmd_ends] gives
    the depth), the polls a device may need ([delay] and [patience] of the laws).
    [OutOfFuel] is an outcome of its own, so that a theorem that a function
    returns is one about its termination.  A loop that need not end is [Spin], or
    is proved to run out of every fuel ([Mp.unknown_entry_never_ends]).  The
    kernel's page table takes 65 pages at most, which is why the 745 pages kinit1
    frees are enough for main ([Main]).

    ** Not modelled

    - Assembly (entry.S, bootasm.S, entryother.S, swtch.S, trapasm.S, vectors.S,
      initcode.S, usys.S), except the three words a processor reads when it
      starts; [Switch] stands for swtch.
    - The composition of main with userinit and the scheduler: [Main] ends where
      userinit begins, and [Proc] has userinit and the scheduler on a state of
      its own.
    - The programs of usertests.c composed with the kernel: they are programs
      over the interface of [Uprog], and the theorems on them hold for any kernel
      with the laws they name.
    - Children of the shell that run at the same time ([ShRun]): a child runs to
      its end before its parent goes on.
    - Prototypes and inline assembly (defs.h, user.h, most of x86.h).
    - Interleaving inside the file system: a call of the layers from [Bio] to
      [Sysfile] runs alone; the locks that make it so are in [Spinlock], and the
      process layer is where calls are interleaved.
    - Time, and what a person sees (delays, the call stacks that panic prints). *)

(** ** This file

    C integers, arrays with bounds, the outcome monad in which the kernel
    functions are written, and the rely/invariant calculus used to reason about
    functions that give up the processor. *)
From stdpp Require Export base tactics list gmap strings.
From Stdlib Require Export ZArith Lia.

#[export] Set Default Goal Selector "!".
Open Scope Z_scope.

(** * Machine integers *)

Module CInt.
Definition INT_MIN : Z := -2147483648.
Definition INT_MAX : Z := 2147483647.

(** [uint] arithmetic is modulo 2^32. *)
Definition u32 (z : Z) : Z := z mod 4294967296.

(** The [int] with the same 32 bits as [z]. *)
Definition s32 (z : Z) : Z :=
  let u := u32 z in if u <? 2147483648 then u else u - 4294967296.

Definition u8 (z : Z) : Z := z mod 256.

(** Is [z] representable as a 32-bit [int]? *)
Definition int_ok (z : Z) : bool := (INT_MIN <=? z) && (z <=? INT_MAX).

Lemma u32_range z : 0 <= u32 z < 4294967296.
Proof. apply Z.mod_pos_bound. lia. Qed.

Lemma u32_sub_l a b : u32 (u32 a - b) = u32 (a - b).
Proof. unfold u32. apply Zminus_mod_idemp_l. Qed.

Lemma u32_small z : 0 <= z < 4294967296 -> u32 z = z.
Proof. apply Z.mod_small. Qed.

Lemma s32_range z : INT_MIN <= s32 z <= INT_MAX.
Proof.
  pose proof (u32_range z). unfold s32, INT_MIN, INT_MAX.
  destruct (Z.ltb_spec (u32 z) 2147483648); lia.
Qed.

Lemma s32_id z : INT_MIN <= z <= INT_MAX -> s32 z = z.
Proof.
  unfold s32, u32, INT_MIN, INT_MAX. intros Hz.
  destruct (Z.leb_spec 0 z).
  - rewrite Z.mod_small by lia. destruct (Z.ltb_spec z 2147483648); lia.
  - replace (z mod 4294967296) with (z + 4294967296).
    + destruct (Z.ltb_spec (z + 4294967296) 2147483648); lia.
    + symmetry. rewrite <- (Z_mod_plus_full z 1 4294967296).
      apply Z.mod_small. lia.
Qed.

Lemma u32_s32 z : u32 (s32 z) = u32 z.
Proof.
  unfold s32. pose proof (u32_range z). case_match; [by apply u32_small|]. unfold u32 at 1.
  replace (u32 z - 4294967296) with (u32 z + (-1) * 4294967296) by lia. rewrite Z.mod_add by lia. by apply u32_small.
Qed.

Lemma int_ok_iff z : int_ok z = true <-> INT_MIN <= z <= INT_MAX.
Proof. unfold int_ok. rewrite andb_true_iff, !Z.leb_le. done. Qed.
End CInt.
Export CInt.

(** * C arrays: a read or a write outside the array is not defined *)

Definition arr_get {A} (l : list A) (i : Z) : option A :=
  if 0 <=? i then l !! Z.to_nat i else None.

Definition arr_set {A} (l : list A) (i : Z) (x : A) : option (list A) :=
  if (0 <=? i) && (i <? Z.of_nat (length l)) then Some (<[Z.to_nat i := x]> l) else None.

Lemma arr_get_nat {A} (l : list A) (i : nat) : arr_get l (Z.of_nat i) = l !! i.
Proof.
  unfold arr_get. destruct (Z.leb_spec 0 (Z.of_nat i)); [|lia].
  by rewrite Nat2Z.id.
Qed.

Lemma arr_get_Some {A} (l : list A) i :
  0 <= i < Z.of_nat (length l) -> exists x, arr_get l i = Some x.
Proof.
  intros Hi. unfold arr_get. destruct (Z.leb_spec 0 i); [|lia].
  apply lookup_lt_is_Some_2. lia.
Qed.

Lemma arr_get_bounds {A} (l : list A) i x :
  arr_get l i = Some x -> 0 <= i < Z.of_nat (length l).
Proof.
  unfold arr_get. destruct (Z.leb_spec 0 i); [|done].
  intros ?%lookup_lt_Some. lia.
Qed.

Lemma arr_set_nat {A} (l : list A) (i : nat) x :
  (i < length l)%nat -> arr_set l (Z.of_nat i) x = Some (<[i := x]> l).
Proof.
  intros Hi. unfold arr_set.
  destruct (Z.leb_spec 0 (Z.of_nat i)); [|lia].
  destruct (Z.ltb_spec (Z.of_nat i) (Z.of_nat (length l))); [|lia].
  simpl. by rewrite Nat2Z.id.
Qed.

Lemma arr_set_Some {A} (l l' : list A) i x :
  arr_set l i x = Some l' ->
  0 <= i < Z.of_nat (length l) /\ l' = <[Z.to_nat i := x]> l.
Proof.
  unfold arr_set. destruct ((0 <=? i) && (i <? Z.of_nat (length l))) eqn:E; [|done].
  intros [= <-]. apply andb_true_iff in E as [?%Z.leb_le ?%Z.ltb_lt]. done.
Qed.

Lemma arr_set_ok {A} (l : list A) i x :
  0 <= i < Z.of_nat (length l) -> arr_set l i x = Some (<[Z.to_nat i := x]> l).
Proof.
  intros Hi. unfold arr_set. destruct (Z.leb_spec 0 i); [|lia].
  by destruct (Z.ltb_spec i (Z.of_nat (length l))); [|lia].
Qed.

Lemma arr_get_set {A} (l : list A) i j x :
  0 <= i < Z.of_nat (length l) ->
  arr_get (<[Z.to_nat i := x]> l) j = if decide (j = i) then Some x else arr_get l j.
Proof.
  intros Hi. unfold arr_get. destruct (decide (j = i)) as [->|Hne].
  - destruct (Z.leb_spec 0 i); [|lia]. apply list_lookup_insert_eq. lia.
  - destruct (Z.leb_spec 0 j); [|done]. apply list_lookup_insert_ne. lia.
Qed.

Lemma arr_set_None {A} (l : list A) i x :
  ~ (0 <= i < Z.of_nat (length l)) -> arr_set l i x = None.
Proof.
  intros Hi. unfold arr_set.
  destruct (Z.leb_spec 0 i), (Z.ltb_spec i (Z.of_nat (length l))); simpl; done || lia.
Qed.

(** * Outcomes of kernel code

    A kernel function started in state [s] returns a value, panics, has
    undefined behaviour (an access outside an array, a null dereference, a
    signed overflow), spins on a lock held elsewhere, runs out of the fuel a
    bounded model of an unbounded loop was given, or gives the processor to
    the scheduler and continues later, with [k], in whatever state it is
    resumed in. *)
Inductive outcome (S A : Type) : Type :=
| Ret (a : A) (s : S)
| Panic (msg : string) (s : S)
| Undef (why : string)
| Spin (s : S)
| OutOfFuel (s : S)
| Switch (s : S) (k : S -> outcome S A).
Arguments Ret {S A} a s.
Arguments Panic {S A} msg s.
Arguments Undef {S A} why.
Arguments Spin {S A} s.
Arguments OutOfFuel {S A} s.
Arguments Switch {S A} s k.

Definition M (S A : Type) : Type := S -> outcome S A.

Fixpoint obind {S A B} (o : outcome S A) (f : A -> M S B) : outcome S B :=
  match o with
  | Ret a s => f a s
  | Panic m s => Panic m s
  | Undef w => Undef w
  | Spin s => Spin s
  | OutOfFuel s => OutOfFuel s
  | Switch s k => Switch s (fun s' => obind (k s') f)
  end.

Definition ret {S A} (a : A) : M S A := fun s => Ret a s.
Definition bind {S A B} (c : M S A) (f : A -> M S B) : M S B := fun s => obind (c s) f.

Declare Scope kernel_scope.
Delimit Scope kernel_scope with kernel.
Notation "x <- c ;; k" := (bind c (fun x => k))
  (at level 100, c at next level, right associativity) : kernel_scope.
Notation "c ;; k" := (bind c (fun _ => k))
  (at level 100, right associativity) : kernel_scope.
Open Scope kernel_scope.

Definition panic {S A} (msg : string) : M S A := fun s => Panic msg s.
Definition undef {S A} (why : string) : M S A := fun _ => Undef why.
Definition gets {S A} (f : S -> A) : M S A := fun s => Ret (f s) s.
Definition modify {S} (f : S -> S) : M S unit := fun s => Ret tt (f s).

(** [o] has a value, or the access is undefined. *)
Definition get_opt {S A} (why : string) (o : option A) : M S A :=
  match o with Some a => ret a | None => undef why end.

(** The result of a signed expression: overflow is undefined. *)
Definition checked {S} (z : Z) : M S Z :=
  if int_ok z then ret z else undef "signed overflow".

(** [for(i = lo; i < lo + n; i++) body]: [Some] leaves the loop early. *)
Fixpoint for_loop {S A} (n : nat) (i : Z) (body : Z -> M S (option A)) : M S (option A) :=
  match n with
  | O => ret None
  | Datatypes.S n' =>
      r <- body i ;;
      match r with
      | Some a => ret (Some a)
      | None => for_loop n' (i + 1) body
      end
  end.

Definition for_range {S A} (lo hi : Z) (body : Z -> M S (option A)) : M S (option A) :=
  for_loop (Z.to_nat (hi - lo)) lo body.

(** A loop with no early exit. *)
Definition for_each {S} (lo hi : Z) (body : Z -> M S unit) : M S unit :=
  _ <- for_range (A := unit) lo hi (fun i => body i ;; ret None) ;; ret tt.

(** A loop with local variables [b]: [inl] leaves the loop early. *)
Fixpoint for_acc {S R B} (n : nat) (i : Z) (b : B) (body : Z -> B -> M S (R + B)) : M S (R + B) :=
  match n with
  | O => ret (inr b)
  | Datatypes.S n' =>
      r <- body i b ;;
      match r with
      | inl a => ret (inl a)
      | inr b' => for_acc n' (i + 1) b' body
      end
  end.

(** Run code of a component whose state [T] is a part of [S]. *)
Fixpoint ozoom {S T A} (get : S -> T) (set : T -> S -> S) (s : S)
    (o : outcome T A) : outcome S A :=
  match o with
  | Ret a t => Ret a (set t s)
  | Panic m t => Panic m (set t s)
  | Undef w => Undef w
  | Spin t => Spin (set t s)
  | OutOfFuel t => OutOfFuel (set t s)
  | Switch t k => Switch (set t s) (fun s' => ozoom get set s' (k (get s')))
  end.

Definition zoom {S T A} (get : S -> T) (set : T -> S -> S) (c : M T A) : M S A :=
  fun s => ozoom get set s (c (get s)).

(** ** Equations *)

Lemma bind_Ret {S A B} (c : M S A) (f : A -> M S B) s a s' :
  c s = Ret a s' -> bind c f s = f a s'.
Proof. intros H. unfold bind. by rewrite H. Qed.

Lemma gets_bind {S A B} (f : S -> A) (k : A -> M S B) s : bind (gets f) k s = k (f s) s.
Proof. done. Qed.

Lemma modify_bind {S B} (f : S -> S) (k : unit -> M S B) s : bind (modify f) k s = k tt (f s).
Proof. done. Qed.

Lemma ret_bind {S A B} (a : A) (k : A -> M S B) s : bind (ret a) k s = k a s.
Proof. done. Qed.

(** Regrouping, after a first statement that returns. *)
Lemma bind_seq {S A B C} (c : M S A) (f : A -> M S B) (g : B -> M S C) s b s' :
  bind c f s = Ret b s' -> bind c (fun a => bind (f a) g) s = g b s'.
Proof.
  unfold bind. intros H. destruct (c s) as [a t| | | | |]; simpl in *; try done. by rewrite H.
Qed.

(** What a statement that returned had done. *)
Lemma bind_Ret_inv {S A B} (c : M S A) (f : A -> M S B) s b s' :
  bind c f s = Ret b s' -> exists a s1, c s = Ret a s1 /\ f a s1 = Ret b s'.
Proof. unfold bind. destruct (c s); simpl; try done. eauto. Qed.

Lemma zoom_Ret {S T A} (get : S -> T) set (c : M T A) s a t : c (get s) = Ret a t -> zoom get set c s = Ret a (set t s).
Proof. intros H. unfold zoom. by rewrite H. Qed.

Lemma zoom_Ret_inv {S T A} (get : S -> T) set (c : M T A) s a s' :
  zoom get set c s = Ret a s' -> exists t, c (get s) = Ret a t /\ s' = set t s.
Proof. unfold zoom. destruct (c (get s)); simpl; try done. intros [= <- <-]. eauto. Qed.

Lemma for_loop_0 {S A} i (body : Z -> M S (option A)) s : for_loop 0 i body s = Ret None s.
Proof. done. Qed.

Lemma for_range_empty {S A} lo hi (body : Z -> M S (option A)) s :
  hi <= lo -> for_range lo hi body s = Ret None s.
Proof. intros H. unfold for_range. replace (Z.to_nat (hi - lo)) with O by lia. done. Qed.

(** A loop whose body never leaves early nor changes the state. *)
Lemma for_loop_skip {S A} (body : Z -> M S (option A)) s n i :
  (forall j, i <= j < i + Z.of_nat n -> body j s = Ret None s) ->
  for_loop n i body s = Ret None s.
Proof.
  revert i. induction n as [|n IH]; intros i H; [done|].
  simpl. unfold bind. rewrite H by lia. simpl. apply IH.
  intros j Hj. apply H. lia.
Qed.

(** A loop that leaves at index [j] after iterations that do nothing. *)
Lemma for_loop_exit {S A} (body : Z -> M S (option A)) s n i j a s' :
  i <= j < i + Z.of_nat n ->
  (forall m, i <= m < j -> body m s = Ret None s) ->
  body j s = Ret (Some a) s' ->
  for_loop n i body s = Ret (Some a) s'.
Proof.
  revert i. induction n as [|n IH]; intros i Hj Hskip Hexit; [lia|].
  simpl. unfold bind. destruct (Z.eq_dec i j) as [->|Hne].
  - rewrite Hexit. done.
  - rewrite Hskip by lia. simpl. apply IH; [lia| |done].
    intros m Hm. apply Hskip. lia.
Qed.

(** A loop that always runs to its end, by an invariant. *)
Lemma for_loop_inv {S A} (body : Z -> M S (option A)) (Inv : Z -> S -> Prop) n i s :
  Inv i s ->
  (forall j s, i <= j < i + Z.of_nat n -> Inv j s ->
     exists s', body j s = Ret None s' /\ Inv (j + 1) s') ->
  exists s', for_loop n i body s = Ret None s' /\ Inv (i + Z.of_nat n) s'.
Proof.
  revert i s. induction n as [|n IH]; intros i s Hi Hbody.
  - exists s. split; [done|]. by replace (i + Z.of_nat 0) with i by lia.
  - destruct (Hbody i s) as (s1 & Hb & H1); [lia|done|].
    destruct (IH (i + 1) s1 H1) as (s2 & Hl & H2).
    { intros j t Hj. apply Hbody. lia. }
    exists s2. split; [simpl; by rewrite (bind_Ret _ _ _ _ _ Hb)|].
    by replace (i + Z.of_nat (Datatypes.S n)) with (i + 1 + Z.of_nat n) by lia.
Qed.

(** A loop that leaves at index [j], by an invariant. *)
Lemma for_loop_find {S A} (body : Z -> M S (option A)) (Inv : Z -> S -> Prop) (P : S -> Prop) n i j a s :
  i <= j < i + Z.of_nat n -> Inv i s ->
  (forall m s, i <= m < j -> Inv m s -> exists s', body m s = Ret None s' /\ Inv (m + 1) s') ->
  (forall s, Inv j s -> exists s', body j s = Ret (Some a) s' /\ P s') ->
  exists s', for_loop n i body s = Ret (Some a) s' /\ P s'.
Proof.
  revert i s. induction n as [|n IH]; intros i s Hj Hi Hbody Hexit; [lia|]. simpl.
  destruct (Z.eq_dec i j) as [->|Hne].
  - destruct (Hexit s Hi) as (s' & Hb & HP). exists s'. by rewrite (bind_Ret _ _ _ _ _ Hb).
  - destruct (Hbody i s) as (s1 & Hb & H1); [lia|done|].
    destruct (IH (i + 1) s1) as (s2 & Hl & HP); [lia|done| |done|].
    + intros m t Hm. apply Hbody. lia.
    + exists s2. by rewrite (bind_Ret _ _ _ _ _ Hb).
Qed.

Lemma for_each_inv {S} (body : Z -> M S unit) (Inv : Z -> S -> Prop) lo hi s :
  lo <= hi -> Inv lo s ->
  (forall j s, lo <= j < hi -> Inv j s -> exists s', body j s = Ret tt s' /\ Inv (j + 1) s') ->
  exists s', for_each lo hi body s = Ret tt s' /\ Inv hi s'.
Proof.
  intros Hle Hlo Hbody. unfold for_each, for_range.
  destruct (for_loop_inv (fun i => body i ;; ret (@None unit)) Inv (Z.to_nat (hi - lo)) lo s Hlo)
    as (s' & Hl & H').
  { intros j t Hj Ht. destruct (Hbody j t) as (t' & Hb & H'); [lia|done|].
    exists t'. split; [|done]. by rewrite (bind_Ret _ _ _ _ _ Hb). }
  exists s'. rewrite (bind_Ret _ _ _ _ _ Hl). split; [done|].
  by replace hi with (lo + Z.of_nat (Z.to_nat (hi - lo))) by lia.
Qed.

(** The same for a loop with local variables. *)
Lemma for_acc_inv {S R B} (body : Z -> B -> M S (R + B)) (Inv : Z -> B -> S -> Prop) n : forall i b s,
  Inv i b s ->
  (forall j b s, i <= j < i + Z.of_nat n -> Inv j b s ->
     exists b' s', body j b s = Ret (inr b') s' /\ Inv (j + 1) b' s') ->
  exists b' s', for_acc n i b body s = Ret (inr b') s' /\ Inv (i + Z.of_nat n) b' s'.
Proof.
  induction n as [|n IH]; intros i b s Hi Hbody.
  - exists b, s. split; [done|]. by replace (i + Z.of_nat 0) with i by lia.
  - destruct (Hbody i b s) as (b1 & s1 & Hb & H1); [lia|done|].
    destruct (IH (i + 1) b1 s1 H1) as (b2 & s2 & Hl & H2).
    { intros j b' t Hj. apply Hbody. lia. }
    exists b2, s2. split; [simpl; by rewrite (bind_Ret _ _ _ _ _ Hb)|].
    by replace (i + Z.of_nat (Datatypes.S n)) with (i + 1 + Z.of_nat n) by lia.
Qed.

Lemma for_acc_app {S R B} (body : Z -> B -> M S (R + B)) n m : forall i b s b1 s1,
  for_acc n i b body s = Ret (inr b1) s1 ->
  for_acc (n + m) i b body s = for_acc m (i + Z.of_nat n) b1 body s1.
Proof.
  induction n as [|n IH]; intros i b s b1 s1 H.
  - simpl in H. unfold ret in H. injection H as -> ->. simpl. by rewrite Z.add_0_r.
  - simpl in H |- *. unfold bind in *. destruct (body i b s) as [[r|b2] s2| | | | |]; try done.
    simpl in *. rewrite (IH _ _ _ _ _ H). f_equal. lia.
Qed.

(** ** Invariants at switches, rely on resumption

    [wp I R o Q]: the execution [o] never panics, spins or has undefined
    behaviour, establishes [I] whenever it gives up the processor, and, if it
    is resumed in a state related by [R] to the one it left, it finally
    returns with [Q]. *)
Fixpoint wp {S A} (I : S -> Prop) (R : S -> S -> Prop) (o : outcome S A)
    (Q : A -> S -> Prop) : Prop :=
  match o with
  | Ret a s => Q a s
  | Switch s k => I s /\ forall s', R s s' -> wp I R (k s') Q
  | OutOfFuel _ => True
  | Panic _ _ | Undef _ | Spin _ => False
  end.

Lemma wp_obind {S A B} I R (o : outcome S A) (f : A -> M S B) Q :
  wp I R o (fun a s => wp I R (f a s) Q) -> wp I R (obind o f) Q.
Proof.
  induction o as [| | | | |s k IH]; simpl; try done.
  intros [HI Hk]. split; [done|]. intros s' HR. apply IH. auto.
Qed.

Lemma wp_bind {S A B} I R (c : M S A) (f : A -> M S B) s Q :
  wp I R (c s) (fun a s' => wp I R (f a s') Q) -> wp I R (bind c f s) Q.
Proof. apply wp_obind. Qed.

Lemma wp_mono {S A} I R (o : outcome S A) (Q Q' : A -> S -> Prop) :
  (forall a s, Q a s -> Q' a s) -> wp I R o Q -> wp I R o Q'.
Proof.
  intros HQ. induction o as [| | | | |s k IH]; simpl; try done.
  - apply HQ.
  - intros [HI Hk]. split; [done|]. intros s' HR. apply IH. auto.
Qed.

Lemma wp_for_loop {S A} I R (body : Z -> M S (option A)) (Inv : Z -> S -> Prop)
    (Q : option A -> S -> Prop) n i s :
  Inv i s ->
  (forall j s, i <= j < i + Z.of_nat n -> Inv j s ->
     wp I R (body j s) (fun r s' =>
       match r with Some a => Q (Some a) s' | None => Inv (j + 1) s' end)) ->
  (forall s, Inv (i + Z.of_nat n) s -> Q None s) ->
  wp I R (for_loop n i body s) Q.
Proof.
  revert i s. induction n as [|n IH]; intros i s Hi Hbody Hend.
  - simpl. apply Hend. replace (i + Z.of_nat 0) with i by lia. done.
  - simpl. apply wp_bind. eapply wp_mono; [|apply Hbody; [lia|done]].
    intros [a|] s' H; [done|]. apply IH; [done| |].
    + intros j s2 Hj HI. apply Hbody; [lia|done].
    + intros s2 HI. apply Hend. replace (i + Z.of_nat (Datatypes.S n)) with (i + 1 + Z.of_nat n) by lia. done.
Qed.

(** ** Rely and guarantee, partially

    [pres G R o Q]: whenever [o] gives the processor away, [G] holds; resumed
    in any state of [R] it goes on in the same way; if it returns, [Q] holds. *)
Fixpoint pres {S A} (G R : S -> Prop) (o : outcome S A) (Q : A -> S -> Prop) : Prop :=
  match o with
  | Ret a s => Q a s
  | Switch s k => G s /\ forall s', R s' -> pres G R (k s') Q
  | _ => True
  end.

Lemma pres_obind {S A B} G R (o : outcome S A) (f : A -> M S B) Q :
  pres G R o (fun a s => pres G R (f a s) Q) -> pres G R (obind o f) Q.
Proof.
  induction o as [| | | | |s k IH]; simpl; try done.
  intros [HG Hk]. split; [done|]. intros s' HR. apply IH. auto.
Qed.

Lemma pres_bind {S A B} G R (c : M S A) (f : A -> M S B) s Q :
  pres G R (c s) (fun a s' => pres G R (f a s') Q) -> pres G R (bind c f s) Q.
Proof. apply pres_obind. Qed.

Lemma pres_mono {S A} G R (o : outcome S A) (Q Q' : A -> S -> Prop) :
  pres G R o Q -> (forall a s, Q a s -> Q' a s) -> pres G R o Q'.
Proof.
  intros Ho HQ. induction o as [| | | | |s k IH]; simpl in *; try done; auto.
  destruct Ho as [HG Hk]. split; [done|]. intros s' HR. apply IH. auto.
Qed.

Lemma pres_seq {S A B} G R (c : M S A) (f : A -> M S B) s (P : A -> S -> Prop) Q :
  pres G R (c s) P -> (forall a s', P a s' -> pres G R (f a s') Q) -> pres G R (bind c f s) Q.
Proof. intros Hc Hf. apply pres_bind. eapply pres_mono; eauto. Qed.

Lemma pres_for_loop {S A} G R (body : Z -> M S (option A)) (Inv : S -> Prop) (Q : A -> S -> Prop) n : forall i s,
  Inv s ->
  (forall j s, Inv s -> pres G R (body j s) (fun r s' => match r with Some a => Q a s' | None => Inv s' end)) ->
  pres G R (for_loop n i body s) (fun r s' => match r with Some a => Q a s' | None => Inv s' end).
Proof.
  induction n as [|n IH]; intros i s Hs Hbody; [done|]. simpl. eapply pres_seq; [by apply Hbody|].
  intros [a|] s' H'; [done|]. by apply IH.
Qed.

Lemma pres_for_each {S} G R (body : Z -> M S unit) (Inv : S -> Prop) lo hi s :
  Inv s -> (forall j s, Inv s -> pres G R (body j s) (fun _ s' => Inv s')) ->
  pres G R (for_each lo hi body s) (fun _ s' => Inv s').
Proof.
  intros Hs Hbody. unfold for_each, for_range.
  eapply pres_seq; [apply (pres_for_loop _ _ _ Inv (fun _ _ => False)); [done|]|].
  - intros j t Ht. eapply pres_seq; [by apply Hbody|]. done.
  - intros [a|] s'; done.
Qed.

Lemma pres_for_acc {S T B} G R (body : Z -> B -> M S (T + B)) (Inv : S -> Prop) (Q : T -> S -> Prop) n :
  forall i b s, Inv s ->
  (forall j b s, Inv s -> pres G R (body j b s) (fun r s' => match r with inl a => Q a s' | inr _ => Inv s' end)) ->
  pres G R (for_acc n i b body s) (fun r s' => match r with inl a => Q a s' | inr _ => Inv s' end).
Proof.
  induction n as [|n IH]; intros i b s Hs Hbody; [done|]. simpl. eapply pres_seq; [by apply Hbody|].
  intros [a|b'] s' H'; [done|]. by apply IH.
Qed.

(** * Automation *)

Create HintDb kernel discriminated.

(** Unfold the monad around the head of a computation. *)
Ltac munfold := unfold bind, ret, gets, modify, panic, undef, get_opt, checked in *.

(** Boolean comparisons in the context become propositions. *)
Ltac bool_props :=
  repeat match goal with
  | H : (_ && _) = true |- _ => apply andb_true_iff in H as [? ?]
  | H : (_ || _) = false |- _ => apply orb_false_iff in H as [? ?]
  | H : negb _ = true |- _ => apply negb_true_iff in H
  | H : negb _ = false |- _ => apply negb_false_iff in H
  | H : (_ <=? _) = true |- _ => apply Z.leb_le in H
  | H : (_ <=? _) = false |- _ => apply Z.leb_gt in H
  | H : (_ <? _) = true |- _ => apply Z.ltb_lt in H
  | H : (_ <? _) = false |- _ => apply Z.ltb_ge in H
  | H : (_ =? _) = true |- _ => apply Z.eqb_eq in H
  | H : (_ =? _) = false |- _ => apply Z.eqb_neq in H
  end.

(** * Lists *)

(** A list without duplicates of indices below [n] has at most [n] elements. *)
Lemma NoDup_bounded_length (l : list nat) n :
  NoDup l -> (forall x, x ∈ l -> (x < n)%nat) -> (length l <= n)%nat.
Proof.
  intros Hnd Hb. replace n with (length (seq 0 n)) by apply length_seq.
  apply submseteq_length, NoDup_submseteq; [done|].
  intros x Hx. apply elem_of_seq. specialize (Hb x Hx). lia.
Qed.

Lemma NoDup_bounded_lt (l : list nat) n x :
  NoDup l -> (forall y, y ∈ l -> (y < n)%nat) -> (x < n)%nat -> x ∉ l -> (length l < n)%nat.
Proof.
  intros Hnd Hb Hx Hnin.
  assert (length (x :: l) <= n)%nat as Hle; [|simpl in Hle; lia].
  apply NoDup_bounded_length.
  - by constructor.
  - intros y [->|Hy]%elem_of_cons; auto.
Qed.
