(* ===== verification/CString.v ===== *)
(** Memory and string routines (src/xv6-public/string.c) and words
    of memory, over a flat memory of bytes.

    An address is a 32-bit [Z], a byte is a [Z] in 0..255, and a memory maps
    every address to its byte.  A loop bounded by a count recurses on the
    count; a loop that runs to a NUL takes fuel, and its lemmas say how much
    is enough. *)
From S2P Require Import Prelude.

Definition mem : Type := Z -> Z.

Definition store (m : mem) (a v : Z) : mem := fun x => if x =? a then v else m x.

(** * string.c *)

(** The [rep stosb] and [rep stosl] loops of x86.h. *)
Fixpoint stosb (m : mem) (addr data : Z) (cnt : nat) : mem :=
  match cnt with
  | O => m
  | S n => stosb (store m addr (u8 data)) (addr + 1) data n
  end.

Definition store32 (m : mem) (a v : Z) : mem :=
  store (store (store (store m a (u8 v)) (a + 1) (u8 (Z.shiftr v 8)))
    (a + 2) (u8 (Z.shiftr v 16))) (a + 3) (u8 (Z.shiftr v 24)).

(** A 32-bit word in memory, little endian. *)
Definition load32 (m : mem) (a : Z) : Z :=
  m a + 256 * m (a + 1) + 65536 * m (a + 2) + 16777216 * m (a + 3).

Fixpoint stosl (m : mem) (addr data : Z) (cnt : nat) : mem :=
  match cnt with
  | O => m
  | S n => stosl (store32 m addr data) (addr + 4) data n
  end.

Definition memset (m : mem) (dst c : Z) (n : Z) : mem :=
  if (Z.rem (s32 dst) 4 =? 0) && (n mod 4 =? 0) then
    let c := Z.land c 0xFF in
    stosl m dst (Z.lor (Z.lor (Z.lor (Z.shiftl c 24) (Z.shiftl c 16)) (Z.shiftl c 8)) c)
      (Z.to_nat (n / 4))
  else stosb m dst c (Z.to_nat n).

Fixpoint memcmp (m : mem) (s1 s2 : Z) (n : nat) : Z :=
  match n with
  | O => 0
  | S n' =>
      if negb (m s1 =? m s2) then m s1 - m s2 else memcmp m (s1 + 1) (s2 + 1) n'
  end.

(** The loop that copies upwards. *)
Fixpoint copy_up (m : mem) (d s : Z) (n : nat) : mem :=
  match n with
  | O => m
  | S n' => copy_up (store m d (m s)) (d + 1) (s + 1) n'
  end.

(** The loop that copies downwards, from one past the end. *)
Fixpoint copy_down (m : mem) (d s : Z) (n : nat) : mem :=
  match n with
  | O => m
  | S n' => copy_down (store m (d - 1) (m (s - 1))) (d - 1) (s - 1) n'
  end.

Definition memmove (m : mem) (dst src n : Z) : mem :=
  let s := src in
  let d := dst in
  if (s <? d) && (s + n >? d) then copy_down m (d + n) (s + n) (Z.to_nat n)
  else copy_up m d s (Z.to_nat n).

Fixpoint strncmp (m : mem) (p q : Z) (n : nat) : Z :=
  match n with
  | O => 0
  | S n' =>
      if negb (m p =? 0) && (m p =? m q) then strncmp m (p + 1) (q + 1) n'
      else m p - m q
  end.

(** The second loop of strncpy: NUL padding. *)
Fixpoint zero_up (m : mem) (s : Z) (n : nat) : mem :=
  match n with
  | O => m
  | S n' => zero_up (store m s 0) (s + 1) n'
  end.

(** The first loop of strncpy stops after copying a NUL; the second pads. *)
Fixpoint strncpy (m : mem) (s t : Z) (n : nat) : mem :=
  match n with
  | O => m
  | S n' =>
      let m' := store m s (m t) in
      if negb (m t =? 0) then strncpy m' (s + 1) (t + 1) n' else zero_up m' (s + 1) n'
  end.

(** [n] is the number of bytes the loop may still copy; the final store of a
    NUL is at wherever [s] has advanced to, one past a copied NUL. *)
Fixpoint safestrcpy_loop (m : mem) (s t : Z) (n : nat) : mem :=
  match n with
  | O => store m s 0
  | S n' =>
      let m' := store m s (m t) in
      if negb (m t =? 0) then safestrcpy_loop m' (s + 1) (t + 1) n'
      else store m' (s + 1) 0
  end.

Definition safestrcpy (m : mem) (s t n : Z) : mem :=
  if n <=? 0 then m else safestrcpy_loop m s t (Z.to_nat (n - 1)).

(** [for(n = 0; s[n]; n++) ;] with [fuel] iterations at most. *)
Fixpoint strlen_loop (m : mem) (s n : Z) (fuel : nat) : option Z :=
  match fuel with
  | O => None
  | S f => if negb (m (s + n) =? 0) then strlen_loop m s (n + 1) f else Some n
  end.

Definition strlen (fuel : nat) (m : mem) (s : Z) : option Z := strlen_loop m s 0 fuel.

(** * Correctness *)

Lemma store_eq m a v : store m a v a = v.
Proof. unfold store. by rewrite Z.eqb_refl. Qed.

Lemma store_ne m a v x : x <> a -> store m a v x = m x.
Proof. intros H. unfold store. by destruct (Z.eqb_spec x a). Qed.

Ltac store_cases :=
  unfold store; repeat match goal with
  | |- context [?x =? ?y] => destruct (Z.eqb_spec x y); try lia
  end.

Lemma copy_up_spec n : forall m d s x,
  d <= s \/ s + Z.of_nat n <= d ->
  copy_up m d s n x = if (d <=? x) && (x <? d + Z.of_nat n) then m (x - d + s) else m x.
Proof.
  induction n as [|n IH]; intros m d s x Hsep; simpl copy_up.
  - destruct (Z.leb_spec d x), (Z.ltb_spec x (d + Z.of_nat 0)); simpl; done || lia.
  - rewrite IH by lia. unfold store.
    destruct (Z.leb_spec d x), (Z.leb_spec (d + 1) x), (Z.ltb_spec x (d + 1 + Z.of_nat n)),
      (Z.ltb_spec x (d + Z.of_nat (S n))); simpl; try lia;
    repeat match goal with |- context [?a =? ?b] => destruct (Z.eqb_spec a b) end;
    try lia; f_equal; lia.
Qed.

Lemma copy_down_spec n : forall m d s x,
  s <= d ->
  copy_down m d s n x = if (d - Z.of_nat n <=? x) && (x <? d) then m (x - d + s) else m x.
Proof.
  induction n as [|n IH]; intros m d s x Hsep; simpl copy_down.
  - destruct (Z.leb_spec (d - Z.of_nat 0) x), (Z.ltb_spec x d); simpl; done || lia.
  - rewrite IH by lia. unfold store.
    destruct (Z.leb_spec (d - Z.of_nat (S n)) x), (Z.leb_spec (d - 1 - Z.of_nat n) x),
      (Z.ltb_spec x (d - 1)), (Z.ltb_spec x d); simpl; try lia;
    repeat match goal with |- context [?a =? ?b] => destruct (Z.eqb_spec a b) end;
    try lia; f_equal; lia.
Qed.

Lemma memmove_spec m dst src n x :
  0 <= n ->
  memmove m dst src n x
    = if (dst <=? x) && (x <? dst + n) then m (x - dst + src) else m x.
Proof.
  intros Hn. unfold memmove.
  destruct (Z.ltb_spec src dst); simpl.
  - destruct (Z.gtb_spec (src + n) dst).
    + rewrite copy_down_spec by lia.
      replace (dst + n - Z.of_nat (Z.to_nat n)) with dst by lia.
      replace (x - (dst + n) + (src + n)) with (x - dst + src) by lia. done.
    + rewrite copy_up_spec by lia. by replace (Z.of_nat (Z.to_nat n)) with n by lia.
  - rewrite copy_up_spec by lia. by replace (Z.of_nat (Z.to_nat n)) with n by lia.
Qed.

(** [memmove] copies the bytes the source range held before the call,
    for every overlap of the two ranges, and changes nothing else. *)
Theorem memmove_correct m dst src n x :
  0 <= n ->
  memmove m dst src n x
    = if (dst <=? x) && (x <? dst + n) then m (x - dst + src) else m x.
Proof. apply memmove_spec. Qed.

Lemma memmove_correct_witness :
  memmove (fun a => a) 12 10 5 14 = 12.
Proof. exact (memmove_correct (fun a => a) 12 10 5 14 ltac:(lia)). Defined.

Lemma stosb_spec n : forall m a c x,
  stosb m a c n x = if (a <=? x) && (x <? a + Z.of_nat n) then u8 c else m x.
Proof.
  induction n as [|n IH]; intros m a c x; simpl stosb.
  - destruct (Z.leb_spec a x), (Z.ltb_spec x (a + Z.of_nat 0)); simpl; done || lia.
  - rewrite IH. unfold store.
    destruct (Z.leb_spec a x), (Z.leb_spec (a + 1) x), (Z.ltb_spec x (a + 1 + Z.of_nat n)),
      (Z.ltb_spec x (a + Z.of_nat (S n))); simpl; try lia;
    repeat match goal with |- context [?p =? ?q] => destruct (Z.eqb_spec p q) end; lia || done.
Qed.

Lemma store32_rep m a v b x :
  u8 v = b -> u8 (Z.shiftr v 8) = b -> u8 (Z.shiftr v 16) = b -> u8 (Z.shiftr v 24) = b ->
  store32 m a v x = if (a <=? x) && (x <? a + 4) then b else m x.
Proof.
  intros H0 H1 H2 H3. unfold store32, store. rewrite H0, H1, H2, H3.
  destruct (Z.leb_spec a x), (Z.ltb_spec x (a + 4)); simpl;
    repeat match goal with |- context [?p =? ?q] => destruct (Z.eqb_spec p q) end; lia || done.
Qed.

Lemma stosl_spec n : forall m a v b x,
  u8 v = b -> u8 (Z.shiftr v 8) = b -> u8 (Z.shiftr v 16) = b -> u8 (Z.shiftr v 24) = b ->
  stosl m a v n x = if (a <=? x) && (x <? a + 4 * Z.of_nat n) then b else m x.
Proof.
  induction n as [|n IH]; intros m a v b x H0 H1 H2 H3; simpl stosl.
  - destruct (Z.leb_spec a x), (Z.ltb_spec x (a + 4 * Z.of_nat 0)); simpl; done || lia.
  - rewrite (IH _ _ _ b) by done. rewrite (store32_rep _ _ _ b) by done.
    destruct (Z.leb_spec a x), (Z.leb_spec (a + 4) x), (Z.ltb_spec x (a + 4 + 4 * Z.of_nat n)),
      (Z.ltb_spec x (a + 4)), (Z.ltb_spec x (a + 4 * Z.of_nat (S n))); simpl; lia || done.
Qed.

(** Four copies of a byte, as a word. *)
Definition rep4 (c : Z) : Z :=
  Z.lor (Z.lor (Z.lor (Z.shiftl c 24) (Z.shiftl c 16)) (Z.shiftl c 8)) c.

Lemma rep4_byte c i :
  0 <= c < 256 -> 0 <= i < 4 -> u8 (Z.shiftr (rep4 c) (8 * i)) = c.
Proof.
  intros Hc Hi. unfold u8. change 256 with (2 ^ 8). apply Z.bits_inj'. intros n Hn.
  assert (forall k, 8 <= k -> Z.testbit c k = false) as Hhi.
  { intros k Hk. destruct (Z.eq_dec c 0) as [->|]; [apply Z.testbit_0_l|].
    apply Z.bits_above_log2; [lia|]. apply Z.log2_lt_pow2; [lia|].
    apply Z.lt_le_trans with (2 ^ 8); [lia|]. apply Z.pow_le_mono_r; lia. }
  destruct (Z.ltb_spec n 8).
  - rewrite Z.mod_pow2_bits_low by lia. rewrite Z.shiftr_spec by lia. unfold rep4.
    rewrite !Z.lor_spec, !Z.shiftl_spec by lia.
    assert (forall k, k < 0 -> Z.testbit c k = false) as Hlo
      by (intros k Hk; by apply Z.testbit_neg_r).
    assert (i = 0 \/ i = 1 \/ i = 2 \/ i = 3) as [-> | [-> | [-> | ->]]] by lia;
    [ rewrite !(Hlo (_ - _)) by lia; simpl; f_equal; lia
    | rewrite (Hlo (n + 8 * 1 - 24)), (Hlo (n + 8 * 1 - 16)), (Hhi (n + 8 * 1)) by lia;
      rewrite orb_false_r; simpl; f_equal; lia
    | rewrite (Hlo (n + 8 * 2 - 24)), (Hhi (n + 8 * 2 - 8)), (Hhi (n + 8 * 2)) by lia;
      rewrite !orb_false_r; simpl; f_equal; lia
    | rewrite (Hhi (n + 8 * 3 - 16)), (Hhi (n + 8 * 3 - 8)), (Hhi (n + 8 * 3)) by lia;
      rewrite !orb_false_r; f_equal; lia ].
  - rewrite Z.mod_pow2_bits_high by lia. symmetry. apply Hhi. lia.
Qed.

Lemma memset_spec m dst c n x :
  0 <= n ->
  memset m dst c n x = if (dst <=? x) && (x <? dst + n) then c mod 256 else m x.
Proof.
  intros Hn. unfold memset.
  destruct ((Z.rem (s32 dst) 4 =? 0) && (n mod 4 =? 0)) eqn:Hal.
  - bool_props. assert (Z.land c 0xFF = c mod 256) as ->.
    { change 0xFF with (Z.ones 8). rewrite Z.land_ones by lia. done. }
    assert (0 <= c mod 256 < 256) as Hb by (apply Z.mod_pos_bound; lia).
    change (Z.lor _ (c mod 256)) with (rep4 (c mod 256)).
    pose proof (rep4_byte (c mod 256) 0 Hb ltac:(lia)) as Hw0. rewrite Z.shiftr_0_r in Hw0.
    rewrite (stosl_spec _ _ _ _ (c mod 256) x Hw0 (rep4_byte _ 1 Hb ltac:(lia))
               (rep4_byte _ 2 Hb ltac:(lia)) (rep4_byte _ 3 Hb ltac:(lia))).
    replace (4 * Z.of_nat (Z.to_nat (n / 4))) with n; [done|].
    pose proof (Z.div_mod n 4 ltac:(lia)).
    assert (0 <= n / 4) by (apply Z.div_pos; lia). lia.
  - rewrite stosb_spec. by replace (Z.of_nat (Z.to_nat n)) with n by lia.
Qed.

(** [memset] fills exactly the [n] bytes with the low byte of [c],
    whether it takes the word-at-a-time or the byte-at-a-time path. *)
Theorem memset_correct m dst c n x :
  0 <= n ->
  memset m dst c n x = if (dst <=? x) && (x <? dst + n) then c mod 256 else m x.
Proof. apply memset_spec. Qed.

Lemma memset_correct_witness :
  memset (fun a => a) 8 (-1) 8 15 = 255 /\ memset (fun a => a) 7 (-1) 8 15 = 15.
Proof.
  split; [exact (memset_correct (fun a => a) 8 (-1) 8 15 ltac:(lia))
         |exact (memset_correct (fun a => a) 7 (-1) 8 15 ltac:(lia))].
Defined.

(** ** Strings *)

(** The bytes at [p] before the first NUL, at most [n] of them. *)
Fixpoint cstr (m : mem) (p : Z) (n : nat) : list Z :=
  match n with
  | O => []
  | S n' => if m p =? 0 then [] else m p :: cstr m (p + 1) n'
  end.

(** [strncmp] returns 0 exactly for strings that agree up to their NUL or
    up to [n] bytes. *)
Theorem strncmp_zero_iff m p q n : strncmp m p q n = 0 <-> cstr m p n = cstr m q n.
Proof.
  revert p q. induction n as [|n IH]; intros p q; simpl; [done|].
  destruct (Z.eqb_spec (m p) 0) as [Hp|Hp]; simpl.
  - rewrite Hp. destruct (Z.eqb_spec (m q) 0) as [Hq|Hq]; split; intros; lia || done.
  - destruct (Z.eqb_spec (m p) (m q)) as [Hpq|Hpq].
    + rewrite <- Hpq. destruct (Z.eqb_spec (m p) 0); [done|]. rewrite IH.
      split; [congruence|]. by intros [= ?].
    + destruct (Z.eqb_spec (m q) 0); split; intros; try lia; simplify_eq.
Qed.

Lemma cstr_ext m m' p n :
  (forall x, p <= x < p + Z.of_nat n -> m x = m' x) -> cstr m p n = cstr m' p n.
Proof.
  revert p. induction n as [|n IH]; intros p H; simpl; [done|].
  rewrite <- (H p) by lia. destruct (m p =? 0); [done|]. f_equal. apply IH.
  intros x Hx. apply H. lia.
Qed.

Lemma length_cstr m p n : (length (cstr m p n) <= n)%nat.
Proof. revert p. induction n as [|n IH]; intros p; simpl; [lia|]. destruct (m p =? 0); simpl; [lia|]. specialize (IH (p + 1)). lia. Qed.

Lemma zero_up_spec n : forall m s x,
  zero_up m s n x = if (s <=? x) && (x <? s + Z.of_nat n) then 0 else m x.
Proof.
  induction n as [|n IH]; intros m s x; simpl zero_up.
  - destruct (Z.leb_spec s x), (Z.ltb_spec x (s + Z.of_nat 0)); simpl; done || lia.
  - rewrite IH. unfold store.
    destruct (Z.leb_spec s x), (Z.leb_spec (s + 1) x), (Z.ltb_spec x (s + 1 + Z.of_nat n)),
      (Z.ltb_spec x (s + Z.of_nat (S n))); simpl; try lia;
    repeat match goal with |- context [?p =? ?q] => destruct (Z.eqb_spec p q) end; lia || done.
Qed.

(** The two ranges of [n] bytes do not meet. *)
Definition apart (s t n : Z) : Prop := s + n <= t \/ t + n <= s.

Lemma strncpy_spec n : forall m s t x,
  apart s t (Z.of_nat n) ->
  strncpy m s t n x
    = if (s <=? x) && (x <? s + Z.of_nat n) then nth (Z.to_nat (x - s)) (cstr m t n) 0 else m x.
Proof.
  unfold apart. induction n as [|n IH]; intros m s t x Hap; simpl strncpy.
  - destruct (Z.leb_spec s x), (Z.ltb_spec x (s + Z.of_nat 0)); simpl; done || lia.
  - simpl cstr. destruct (Z.eqb_spec (m t) 0) as [Ht|Ht]; cbn [negb].
    + rewrite zero_up_spec. rewrite Ht. unfold store.
      assert (forall i, nth i (@nil Z) 0 = 0) as Hnil by (by intros []).
      destruct (Z.leb_spec s x), (Z.leb_spec (s + 1) x), (Z.ltb_spec x (s + 1 + Z.of_nat n)),
        (Z.ltb_spec x (s + Z.of_nat (S n))); cbn [andb]; try lia; rewrite ?Hnil;
      repeat match goal with |- context [?p =? ?q] => destruct (Z.eqb_spec p q) end; lia || done.
    + rewrite IH by lia.
      rewrite (cstr_ext (store m s (m t)) m) by (intros y Hy; apply store_ne; lia).
      unfold store.
      destruct (Z.leb_spec s x), (Z.leb_spec (s + 1) x), (Z.ltb_spec x (s + 1 + Z.of_nat n)),
        (Z.ltb_spec x (s + Z.of_nat (S n))); simpl; try lia;
      repeat match goal with |- context [?p =? ?q] => destruct (Z.eqb_spec p q) end; try lia; try done.
      * replace (Z.to_nat (x - s)) with (S (Z.to_nat (x - (s + 1)))) by lia. done.
      * replace (Z.to_nat (x - s)) with O by lia. done.
Qed.

Lemma cstr_of_nth m s l n :
  (length l <= n)%nat -> Forall (fun b => b <> 0) l ->
  (forall i, (i < n)%nat -> m (s + Z.of_nat i) = nth i l 0) -> cstr m s n = l.
Proof.
  revert s n. induction l as [|b l IH]; intros s n Hlen Hnz H.
  - destruct n as [|n]; [done|]. simpl. specialize (H O ltac:(lia)). simpl in H.
    rewrite Z.add_0_r in H. by rewrite H.
  - destruct n as [|n]; [simpl in Hlen; lia|]. simpl. inv Hnz.
    pose proof (H O ltac:(lia)) as H0. simpl in H0. rewrite Z.add_0_r in H0. rewrite H0.
    destruct (Z.eqb_spec b 0); [done|]. f_equal. apply IH; simpl in *; [lia|done|].
    intros i Hi. rewrite <- (H (S i)) by lia. f_equal. lia.
Qed.

Lemma cstr_nonzero m p n : Forall (fun b => b <> 0) (cstr m p n).
Proof. revert p. induction n as [|n IH]; intros p; simpl; [done|]. destruct (Z.eqb_spec (m p) 0); [done|]. by constructor. Qed.

(** A name stored with [strncpy] in a field of [n] bytes compares equal,
    with [strncmp] on [n] bytes, to the name it was stored from: what dirlink
    writes dirlookup finds, also for names of [n] bytes or more. *)
Theorem strncpy_strncmp m s t n :
  apart s t (Z.of_nat n) ->
  strncmp (strncpy m s t n) t s n = 0 /\
  (forall x, ~ (s <= x < s + Z.of_nat n) -> strncpy m s t n x = m x).
Proof.
  intros Hap. split.
  - apply strncmp_zero_iff.
    rewrite (cstr_ext _ m t) by
      (intros x Hx; rewrite strncpy_spec by done; unfold apart in Hap;
       destruct (Z.leb_spec s x), (Z.ltb_spec x (s + Z.of_nat n)); simpl; done || lia).
    symmetry. apply cstr_of_nth; [apply length_cstr|apply cstr_nonzero|].
    intros i Hi. rewrite strncpy_spec by done.
    destruct (Z.leb_spec s (s + Z.of_nat i)), (Z.ltb_spec (s + Z.of_nat i) (s + Z.of_nat n));
      simpl; try lia. f_equal. lia.
  - intros x Hx. rewrite strncpy_spec by done.
    destruct (Z.leb_spec s x), (Z.ltb_spec x (s + Z.of_nat n)); simpl; done || lia.
Qed.

(** A memory of two byte arrays. *)
Definition place (l : list Z) (a : Z) (m : mem) : mem :=
  fun x => if (a <=? x) && (x <? a + Z.of_nat (length l)) then nth (Z.to_nat (x - a)) l 0 else m x.

Definition region (m : mem) (a : Z) (n : nat) : list Z :=
  map (fun i => m (a + Z.of_nat i)) (seq 0 n).

Definition mem0 : mem := fun _ => 0.

(** The bytes of a C string literal, without its NUL. *)
Definition bytes (s : string) : list Z :=
  map (fun c => Z.of_N (Ascii.N_of_ascii c)) (String.list_ascii_of_string s).

Lemma strncpy_strncmp_witness :
  let m := place [104; 105; 0; 9] 100 mem0 in
  strncmp (strncpy m 0 100 14) 100 0 14 = 0.
Proof.
  intros m. apply (strncpy_strncmp m 0 100 14). left. simpl. lia.
Defined.

Lemma safestrcpy_loop_spec n : forall m s t,
  apart s t (Z.of_nat n + 1) ->
  (forall x, ~ (s <= x < s + Z.of_nat n + 1) -> safestrcpy_loop m s t n x = m x) /\
  cstr (safestrcpy_loop m s t n) s (n + 1) = cstr m t n.
Proof.
  unfold apart. induction n as [|n IH]; intros m s t Hap; simpl.
  - split.
    + intros x Hx. rewrite store_ne; [done|lia].
    + by rewrite store_eq.
  - destruct (Z.eqb_spec (m t) 0) as [Ht|Ht]; simpl.
    + split.
      * intros x Hx. rewrite !store_ne by lia. done.
      * rewrite store_ne, store_eq, Ht by lia. done.
    + destruct (IH (store m s (m t)) (s + 1) (t + 1)) as [IH1 IH2]; [lia|]. split.
      * intros x Hx. rewrite IH1 by lia. apply store_ne. lia.
      * rewrite IH1, store_eq by lia. destruct (Z.eqb_spec (m t) 0); [done|]. f_equal.
        rewrite IH2. apply cstr_ext. intros x Hx. apply store_ne. lia.
Qed.

(** [safestrcpy] into a field of [n >= 1] bytes always leaves a
    NUL-terminated string there, the source string cut to [n - 1] bytes, and
    writes nothing outside the field. *)
Theorem safestrcpy_correct m s t n :
  1 <= n -> apart s t n ->
  cstr (safestrcpy m s t n) s (Z.to_nat n) = cstr m t (Z.to_nat (n - 1)) /\
  (forall x, ~ (s <= x < s + n) -> safestrcpy m s t n x = m x).
Proof.
  intros Hn Hap. unfold safestrcpy. destruct (Z.leb_spec n 0); [lia|].
  destruct (safestrcpy_loop_spec (Z.to_nat (n - 1)) m s t) as [H1 H2].
  - unfold apart in *. lia.
  - split.
    + rewrite <- H2. f_equal. lia.
    + intros x Hx. apply H1. lia.
Qed.

Lemma safestrcpy_correct_witness :
  let m := place [97; 98; 99; 100; 0] 100 mem0 in
  cstr (safestrcpy m 0 100 4) 0 4 = [97; 98; 99].
Proof.
  intros m. apply (safestrcpy_correct m 0 100 4); [lia|left; lia].
Defined.

Lemma strlen_loop_spec m s k : forall n fuel,
  (forall j, 0 <= j < n + Z.of_nat k -> m (s + j) <> 0) -> m (s + (n + Z.of_nat k)) = 0 -> 0 <= n ->
  (k < fuel)%nat -> strlen_loop m s n fuel = Some (n + Z.of_nat k).
Proof.
  induction k as [|k IH]; intros n fuel Hnz Hz Hn Hf; (destruct fuel as [|fuel]; [lia|]); simpl.
  - replace (n + Z.of_nat 0) with n in Hz by lia. rewrite Hz. simpl. f_equal. lia.
  - destruct (Z.eqb_spec (m (s + n)) 0) as [E|E]; simpl.
    + destruct (Hnz n); [lia|done].
    + replace (n + Z.of_nat (S k)) with (n + 1 + Z.of_nat k) in * by lia.
      apply IH; [|done|lia|lia].
      intros j Hj. apply Hnz. lia.
Qed.

(** [strlen] finds the NUL, given as much fuel as the string has bytes. *)
Lemma strlen_correct m s k fuel :
  (forall j, 0 <= j < Z.of_nat k -> m (s + j) <> 0) -> m (s + Z.of_nat k) = 0 ->
  (k < fuel)%nat -> strlen fuel m s = Some (Z.of_nat k).
Proof.
  intros Hnz Hz Hf. unfold strlen. by rewrite (strlen_loop_spec m s k).
Qed.

(** * Words in memory *)

Lemma load32_store32 m a v : 0 <= v < 4294967296 -> load32 (store32 m a v) a = v.
Proof.
  intros Hv. unfold load32, store32.
  rewrite !(store_ne _ _ _ a), !(store_ne _ _ _ (a + 1)), !(store_ne _ _ _ (a + 2)) by lia.
  rewrite !store_eq. unfold u8. rewrite !Z.shiftr_div_pow2 by lia.
  change (2 ^ 8) with 256. change (2 ^ 16) with 65536. change (2 ^ 24) with 16777216.
  assert (v / 65536 = v / 256 / 256) as -> by (by rewrite Z.div_div by lia).
  assert (v / 16777216 = v / 256 / 256 / 256) as -> by (by rewrite !Z.div_div by lia).
  rewrite (Z.mod_small (v / 256 / 256 / 256)).
  - pose proof (Z.div_mod v 256). pose proof (Z.div_mod (v / 256) 256).
    pose proof (Z.div_mod (v / 256 / 256) 256). lia.
  - split; [repeat apply Z.div_pos; lia|]. repeat apply Z.div_lt_upper_bound; lia.
Qed.

Lemma store32_ne m a v x : x < a \/ a + 4 <= x -> store32 m a v x = m x.
Proof. intros H. unfold store32. by rewrite !store_ne by lia. Qed.

Lemma load32_ext m m' a : (forall x, a <= x < a + 4 -> m' x = m x) -> load32 m' a = load32 m a.
Proof. intros H. unfold load32. by rewrite !H by lia. Qed.
