(* ===== verification/Spinlock.v ===== *)
(** Spin locks and interrupt nesting (src/xv6-public/spinlock.c, spinlock.h).

    [machine] is the part of the kernel state spinlock.c works on: the
    per-CPU records, which CPU is executing, and the spin locks by address.
    The [pcs] array of a lock, written for debugging and read only by a
    person, is not kept.  [Protocol] models the same acquire and release one
    memory access at a time, on any number of CPUs. *)
From S2P Require Import Prelude.

(** * Data *)

Definition FL_IF : Z := 512.

(** struct cpu of proc.h, the fields the C code computes with. *)
Record cpu := Cpu {
  apicid : Z;
  lapic_id : Z;   (* what its local APIC's ID register holds *)
  ncli : Z;
  intena : Z;
  eflags : Z;
  cpu_proc : option nat
}.

Definition set_ncli v c := Cpu (apicid c) (lapic_id c) v (intena c) (eflags c) (cpu_proc c).
Definition set_intena v c := Cpu (apicid c) (lapic_id c) (ncli c) v (eflags c) (cpu_proc c).
Definition set_eflags v c := Cpu (apicid c) (lapic_id c) (ncli c) (intena c) v (cpu_proc c).
Definition set_cpu_proc v c := Cpu (apicid c) (lapic_id c) (ncli c) (intena c) (eflags c) v.

Record spinlock := Spinlock {
  locked : Z;
  lname : string;
  lcpu : option nat
}.

Record machine := Machine {
  cpus : list cpu;
  this : nat;
  locks : gmap Z spinlock
}.

Definition set_cpus v m := Machine v (this m) (locks m).
Definition set_locks v m := Machine (cpus m) (this m) v.

(** * Operations *)

(** The per-CPU variable [cpu]. *)
Definition cpu_ : M machine cpu :=
  m <- gets (fun m => m) ;; get_opt "cpu" (cpus m !! this m).

Definition upd_cpu (f : cpu -> cpu) : M machine unit :=
  c <- cpu_ ;; modify (fun m => set_cpus (<[this m := f c]> (cpus m)) m).

Definition readeflags : M machine Z := c <- cpu_ ;; ret (eflags c).
Definition cli : M machine unit := upd_cpu (fun c => set_eflags (Z.land (eflags c) (Z.lnot FL_IF)) c).
Definition sti : M machine unit := upd_cpu (fun c => set_eflags (Z.lor (eflags c) FL_IF) c).

Definition lock_ (lk : Z) : M machine spinlock :=
  m <- gets (fun m => m) ;; get_opt "not a lock" (locks m !! lk).

Definition put_lock (lk : Z) (l : spinlock) : M machine unit :=
  modify (fun m => set_locks (<[lk := l]> (locks m)) m).

Definition initlock (lk : Z) (name : string) : M machine unit :=
  put_lock lk (Spinlock 0 name None).

Definition pushcli : M machine unit :=
  fl <- readeflags ;;
  cli ;;
  c <- cpu_ ;;
  (if ncli c =? 0 then upd_cpu (set_intena (Z.land fl FL_IF)) else ret tt) ;;
  c <- cpu_ ;;
  n <- checked (ncli c + 1) ;;
  upd_cpu (set_ncli n).

Definition popcli : M machine unit :=
  fl <- readeflags ;;
  if negb (Z.land fl FL_IF =? 0) then panic "popcli - interruptible" else
  c <- cpu_ ;;
  upd_cpu (set_ncli (ncli c - 1)) ;;
  if ncli c - 1 <? 0 then panic "popcli" else
  if (ncli c - 1 =? 0) && negb (intena c =? 0) then sti else ret tt.

Definition holding (lk : Z) : M machine bool :=
  l <- lock_ lk ;;
  m <- gets this ;;
  ret (negb (locked l =? 0) && bool_decide (lcpu l = Some m)).

(** [xchg(&lk->locked, 1)]; the loop ends at the first 0 it returns. *)
Definition acquire (lk : Z) : M machine unit :=
  pushcli ;;
  h <- holding lk ;;
  if h : bool then panic "acquire" else
  l <- lock_ lk ;;
  if negb (locked l =? 0) then (fun m => Spin m) else
  me <- gets this ;;
  put_lock lk (Spinlock 1 (lname l) (Some me)).

Definition release (lk : Z) : M machine unit :=
  h <- holding lk ;;
  if negb h then panic "release" else
  l <- lock_ lk ;;
  put_lock lk (Spinlock 0 (lname l) None) ;;
  popcli.

(** * Functional behaviour *)

(** Is the interrupt flag of a CPU set? *)
Definition irq_on (c : cpu) : bool := negb (Z.land (eflags c) FL_IF =? 0).

Lemma land_cli e : Z.land (Z.land e (Z.lnot FL_IF)) FL_IF = 0.
Proof.
  rewrite <- Z.land_assoc, (Z.land_comm (Z.lnot _)), Z.land_lnot_diag.
  apply Z.land_0_r.
Qed.

Lemma land_sti e : Z.land (Z.lor e FL_IF) FL_IF = FL_IF.
Proof.
  apply Z.bits_inj'. intros n Hn.
  rewrite Z.land_spec, Z.lor_spec. destruct (Z.testbit e n), (Z.testbit FL_IF n); done.
Qed.

(** The machine with the record of the executing CPU replaced. *)
Definition with_cpu (c : cpu) (m : machine) : machine :=
  set_cpus (<[this m := c]> (cpus m)) m.

Lemma cpu_eq m c : cpus m !! this m = Some c -> cpu_ m = Ret c m.
Proof. intros H. munfold. unfold cpu_. simpl. unfold bind, gets, get_opt. simpl. by rewrite H. Qed.

Lemma lookup_with_cpu m c c0 :
  cpus m !! this m = Some c0 -> cpus (with_cpu c m) !! this (with_cpu c m) = Some c.
Proof. intros H. simpl. apply list_lookup_insert_eq. by eapply lookup_lt_Some. Qed.

Lemma with_cpu_twice m c c' : with_cpu c (with_cpu c' m) = with_cpu c m.
Proof. unfold with_cpu, set_cpus. simpl. by rewrite list_insert_insert_eq. Qed.

Lemma upd_cpu_eq m c f :
  cpus m !! this m = Some c -> upd_cpu f m = Ret tt (with_cpu (f c) m).
Proof. intros H. unfold upd_cpu. rewrite (bind_Ret _ _ _ _ _ (cpu_eq _ _ H)). done. Qed.

(** What [pushcli] leaves in the CPU record. *)
Definition pushed (c : cpu) : cpu :=
  Cpu (apicid c) (lapic_id c) (ncli c + 1)
      (if ncli c =? 0 then Z.land (eflags c) FL_IF else intena c)
      (Z.land (eflags c) (Z.lnot FL_IF)) (cpu_proc c).

Lemma pushcli_eq m c :
  cpus m !! this m = Some c -> int_ok (ncli c + 1) = true ->
  pushcli m = Ret tt (with_cpu (pushed c) m).
Proof.
  intros H Hn. unfold pushcli, readeflags, cli.
  unfold bind at 1 2. rewrite (cpu_eq _ _ H). simpl.
  rewrite (bind_Ret _ _ _ _ _ (upd_cpu_eq _ _ _ H)).
  set (c1 := set_eflags _ c). set (m1 := with_cpu c1 m).
  assert (cpus m1 !! this m1 = Some c1) as H1 by (eapply lookup_with_cpu; eauto).
  rewrite (bind_Ret _ _ _ _ _ (cpu_eq _ _ H1)).
  unfold pushed. change (ncli c1) with (ncli c).
  destruct (ncli c =? 0).
  - rewrite (bind_Ret _ _ _ _ _ (upd_cpu_eq _ _ _ H1)).
    set (c2 := set_intena _ c1). set (m2 := with_cpu c2 m1).
    assert (cpus m2 !! this m2 = Some c2) as H2 by (eapply lookup_with_cpu; eauto).
    rewrite (bind_Ret _ _ _ _ _ (cpu_eq _ _ H2)).
    unfold bind, checked. change (ncli c2) with (ncli c). rewrite Hn.
    simpl. rewrite (upd_cpu_eq _ _ _ H2). unfold m2, m1. by rewrite !with_cpu_twice.
  - rewrite (bind_Ret (ret tt) _ m1 tt m1 eq_refl).
    rewrite (bind_Ret _ _ _ _ _ (cpu_eq _ _ H1)).
    unfold bind, checked. change (ncli c1) with (ncli c). rewrite Hn.
    simpl. rewrite (upd_cpu_eq _ _ _ H1). unfold m1. by rewrite !with_cpu_twice.
Qed.

(** What [popcli] leaves in the CPU record. *)
Definition popped (c : cpu) : cpu :=
  Cpu (apicid c) (lapic_id c) (ncli c - 1) (intena c)
      (if (ncli c - 1 =? 0) && negb (intena c =? 0) then Z.lor (eflags c) FL_IF else eflags c)
      (cpu_proc c).

Lemma popcli_eq m c :
  cpus m !! this m = Some c -> irq_on c = false -> 1 <= ncli c ->
  popcli m = Ret tt (with_cpu (popped c) m).
Proof.
  intros H Hoff Hn. unfold popcli, readeflags.
  unfold bind at 1 2. rewrite (cpu_eq _ _ H). simpl.
  unfold irq_on in Hoff. rewrite Hoff.
  rewrite (bind_Ret _ _ _ _ _ (cpu_eq _ _ H)).
  rewrite (bind_Ret _ _ _ _ _ (upd_cpu_eq _ _ _ H)).
  destruct (Z.ltb_spec (ncli c - 1) 0); [lia|].
  unfold popped. destruct ((ncli c - 1 =? 0) && negb (intena c =? 0)); [|done].
  unfold sti. erewrite upd_cpu_eq by (eapply lookup_with_cpu; eauto).
  by rewrite with_cpu_twice.
Qed.

Lemma irq_on_pushed c : irq_on (pushed c) = false.
Proof. unfold irq_on, pushed. simpl. by rewrite land_cli. Qed.

Lemma acquire_eq m c lk l :
  cpus m !! this m = Some c -> int_ok (ncli c + 1) = true ->
  locks m !! lk = Some l -> locked l = 0 ->
  acquire lk m =
    Ret tt (set_locks (<[lk := Spinlock 1 (lname l) (Some (this m))]> (locks m))
              (with_cpu (pushed c) m)).
Proof.
  intros Hc Hn Hl H0. unfold acquire.
  rewrite (bind_Ret _ _ _ _ _ (pushcli_eq _ _ Hc Hn)).
  unfold holding, lock_, bind, gets, get_opt, ret. simpl. rewrite Hl. simpl.
  rewrite H0. simpl. rewrite Hl. simpl. rewrite H0. done.
Qed.

Lemma release_eq m c lk l :
  cpus m !! this m = Some c -> irq_on c = false -> 1 <= ncli c ->
  locks m !! lk = Some l -> locked l <> 0 -> lcpu l = Some (this m) ->
  release lk m =
    Ret tt (with_cpu (popped c)
              (set_locks (<[lk := Spinlock 0 (lname l) None]> (locks m)) m)).
Proof.
  intros Hc Hoff Hn Hl H1 Hown. unfold release.
  unfold holding, lock_, bind, gets, get_opt, ret. simpl. rewrite Hl. simpl.
  destruct (Z.eqb_spec (locked l) 0); [done|]. simpl.
  rewrite bool_decide_eq_true_2 by done. simpl. rewrite Hl. simpl.
  by apply popcli_eq.
Qed.

(** Re-acquiring a lock this CPU holds is caught. *)
Lemma acquire_held m c lk l :
  cpus m !! this m = Some c -> int_ok (ncli c + 1) = true ->
  locks m !! lk = Some l -> locked l <> 0 -> lcpu l = Some (this m) ->
  acquire lk m = Panic "acquire" (with_cpu (pushed c) m).
Proof.
  intros Hc Hn Hl H1 Hown. unfold acquire.
  rewrite (bind_Ret _ _ _ _ _ (pushcli_eq _ _ Hc Hn)).
  unfold holding, lock_, bind, gets, get_opt, ret. simpl. rewrite Hl. simpl.
  destruct (Z.eqb_spec (locked l) 0); [done|].
  rewrite bool_decide_eq_true_2 by done. done.
Qed.

(** [n] nested critical sections. *)
Fixpoint nest (n : nat) : M machine unit :=
  match n with
  | O => ret tt
  | S n' => pushcli ;; nest n' ;; popcli
  end.

(** CPU records that differ at most in the saved [intena]. *)
Definition same_cpu (c c' : cpu) : Prop :=
  apicid c' = apicid c /\ lapic_id c' = lapic_id c /\ ncli c' = ncli c /\ eflags c' = eflags c /\ cpu_proc c' = cpu_proc c
  /\ (0 < ncli c -> intena c' = intena c).

Lemma cli_noop e : Z.land e FL_IF = 0 -> Z.land e (Z.lnot FL_IF) = e.
Proof.
  intros He. apply Z.bits_inj'. intros n Hn.
  assert (Z.testbit (Z.land e FL_IF) n = false) as Hb by (rewrite He; apply Z.testbit_0_l).
  rewrite Z.land_spec in Hb. rewrite Z.land_spec, Z.lnot_spec by lia.
  destruct (Z.testbit e n), (Z.testbit FL_IF n); done.
Qed.

Lemma sti_cli e : Z.land e FL_IF <> 0 -> Z.lor (Z.land e (Z.lnot FL_IF)) FL_IF = e.
Proof.
  intros He. change FL_IF with (2 ^ 9) in *.
  assert (Z.testbit e 9 = true) as H9.
  { destruct (Z.testbit e 9) eqn:E9; [done|]. exfalso. apply He, Z.bits_inj'.
    intros k Hk. rewrite Z.land_spec, Z.testbit_0_l, Z.pow2_bits_eqb by lia.
    destruct (Z.eqb_spec 9 k) as [<-|]; [by rewrite E9|by rewrite andb_false_r]. }
  apply Z.bits_inj'. intros n Hn.
  rewrite Z.lor_spec, Z.land_spec, Z.lnot_spec, Z.pow2_bits_eqb by lia.
  destruct (Z.eqb_spec 9 n) as [<-|]; [by rewrite H9|].
  by rewrite andb_true_r, orb_false_r.
Qed.

Lemma popped_pushed c c1 :
  0 <= ncli c -> (0 < ncli c -> irq_on c = false) ->
  same_cpu (pushed c) c1 -> same_cpu c (popped c1).
Proof.
  intros H0 Hoff (Ha & Hla & Hn & He & Hp & Hi). unfold same_cpu, popped. simpl in *.
  specialize (Hi ltac:(lia)). rewrite Ha, Hla, Hn, He, Hp, Hi.
  replace (ncli c + 1 - 1) with (ncli c) by lia.
  split_and!; try done; destruct (Z.eqb_spec (ncli c) 0) as [E|E]; simpl; try done; try lia.
  - destruct (Z.eqb_spec (Z.land (eflags c) FL_IF) 0); simpl; auto using cli_noop, sti_cli.
  - apply cli_noop. specialize (Hoff ltac:(lia)). unfold irq_on in Hoff. by bool_props.
Qed.

Lemma nest_eq n : forall m c,
  cpus m !! this m = Some c -> 0 <= ncli c -> ncli c + Z.of_nat n <= INT_MAX ->
  (0 < ncli c -> irq_on c = false) ->
  exists c', nest n m = Ret tt (with_cpu c' m) /\ same_cpu c c'.
Proof.
  induction n as [|n IH]; intros m c Hc H0 Hn Hoff.
  - exists c. split; [|done]. simpl. unfold ret, with_cpu, set_cpus.
    rewrite list_insert_id by done. by destruct m.
  - assert (int_ok (ncli c + 1) = true) as Hok by (apply int_ok_iff; unfold INT_MIN; lia).
    simpl. rewrite (bind_Ret _ _ _ _ _ (pushcli_eq _ _ Hc Hok)).
    destruct (IH (with_cpu (pushed c) m) (pushed c)) as (c1 & Hrun & Hsame).
    + by eapply lookup_with_cpu.
    + simpl. lia.
    + simpl. lia.
    + intros _. apply irq_on_pushed.
    + rewrite (bind_Ret _ _ _ _ _ Hrun), with_cpu_twice.
      exists (popped c1). split; [|by eapply popped_pushed].
      rewrite (popcli_eq _ c1).
      * by rewrite with_cpu_twice.
      * by eapply lookup_with_cpu.
      * pose proof (irq_on_pushed c) as Hp. unfold irq_on in *.
        destruct Hsame as (_ & _ & _ & -> & _). done.
      * destruct Hsame as (_ & _ & -> & _). simpl. lia.
Qed.

(** [pushcli]/[popcli] match: after any number of nested pairs the CPU
    has its nesting depth and its whole eflags register back (so interrupts
    are on again exactly when they were on before), nothing panics, and no
    other CPU and no lock has changed. *)
Theorem pushcli_popcli_nested n m c :
  cpus m !! this m = Some c -> 0 <= ncli c -> ncli c + Z.of_nat n <= INT_MAX ->
  (0 < ncli c -> irq_on c = false) ->
  exists c', nest n m = Ret tt (with_cpu c' m)
    /\ ncli c' = ncli c /\ eflags c' = eflags c /\ cpu_proc c' = cpu_proc c.
Proof.
  intros Hc H0 Hn Hoff. destruct (nest_eq n m c) as (c' & Hrun & _ & _ & ? & ? & ? & _); eauto 10.
Qed.

Lemma pushcli_popcli_nested_witness :
  let c := Cpu 0 0 0 0 (FL_IF + 2) None in
  exists c', nest 3 (Machine [c] 0 ∅) = Ret tt (with_cpu c' (Machine [c] 0 ∅))
    /\ ncli c' = 0 /\ eflags c' = FL_IF + 2 /\ cpu_proc c' = None.
Proof.
  intros c. apply (pushcli_popcli_nested 3 (Machine [c] 0 ∅) c);
    [reflexivity | simpl; lia | unfold INT_MAX; simpl; lia | simpl; lia].
Defined.

(** * Critical sections on one lock *)

(** Lock [lk] is free and the executing CPU in order. *)
Record idle_at (lk : Z) (m : machine) (c : cpu) (l : spinlock) : Prop := {
  idle_cpu : cpus m !! this m = Some c;
  idle_ncli : 0 <= ncli c < INT_MAX;
  idle_irq : 0 < ncli c -> irq_on c = false;
  idle_lk : locks m !! lk = Some l;
  idle_free : locked l = 0;
  idle_owner : lcpu l = None
}.
Arguments idle_cpu {lk} m c l _.
Arguments idle_ncli {lk} m c l _.
Arguments idle_irq {lk} m c l _.
Arguments idle_lk {lk} m c l _.
Arguments idle_free {lk} m c l _.
Arguments idle_owner {lk} m c l _.

(** The machine inside the critical section, and after it. *)
Definition locked_at (lk : Z) (m : machine) (c : cpu) (l : spinlock) : machine :=
  set_locks (<[lk := Spinlock 1 (lname l) (Some (this m))]> (locks m))
    (with_cpu (pushed c) m).

Definition unlocked_mach (m : machine) (c : cpu) : machine := with_cpu (popped (pushed c)) m.

Lemma idle_same lk m c l : idle_at lk m c l -> same_cpu c (popped (pushed c)).
Proof.
  intros Hi. apply (popped_pushed c (pushed c)); try apply Hi.
  unfold same_cpu. by split_and!.
Qed.

Lemma acquire_idle lk m c l : idle_at lk m c l -> acquire lk m = Ret tt (locked_at lk m c l).
Proof.
  intros Hi. rewrite (acquire_eq _ c _ l); try apply Hi; [done|].
  apply int_ok_iff. pose proof (idle_ncli _ _ _ Hi). unfold INT_MIN. lia.
Qed.

Lemma release_idle lk m c l : idle_at lk m c l -> release lk (locked_at lk m c l) = Ret tt (unlocked_mach m c).
Proof.
  intros Hi. pose proof (idle_cpu _ _ _ Hi) as Hc. pose proof (idle_ncli _ _ _ Hi) as Hn.
  unfold locked_at.
  rewrite (release_eq _ (pushed c) _ (Spinlock 1 (lname l) (Some (this m)))).
  - f_equal. unfold unlocked_mach, with_cpu, set_locks, set_cpus. simpl.
    rewrite insert_insert_eq, list_insert_insert_eq. f_equal.
    pose proof (idle_lk _ _ _ Hi) as Hl. pose proof (idle_free _ _ _ Hi).
    pose proof (idle_owner _ _ _ Hi). destruct l as [lk0 nm ow]; simpl in *; subst.
    by rewrite insert_id.
  - by eapply lookup_with_cpu.
  - apply irq_on_pushed.
  - simpl. lia.
  - apply lookup_insert_eq.
  - done.
  - done.
Qed.

(** * The protocol, one memory access at a time

    Every CPU runs acquire and release of one lock over and over.  A program
    point is the C statement about to execute. *)
Module Protocol.

Inductive pc :=
| Idle            (* outside the lock *)
| HoldLocked      (* acquire, in holding(): about to read lk->locked *)
| HoldCpu         (* acquire, in holding(): about to read lk->cpu *)
| Xchg            (* acquire: about to execute xchg *)
| SetCpu          (* acquire: about to set lk->cpu *)
| Crit            (* holds the lock *)
| RelLocked       (* release, in holding(): about to read lk->locked *)
| RelCpu          (* release, in holding(): about to read lk->cpu *)
| ClearCpu        (* release: about to clear lk->cpu *)
| ClearLocked     (* release: about to execute movl $0 *)
| Panicked.

Record st := St { pcs : nat -> pc; lk_locked : Z; lk_cpu : option nat }.

Definition goto (c : nat) (p : pc) (s : st) : nat -> pc :=
  fun c' => if decide (c' = c) then p else pcs s c'.

(** One access by CPU [c]. *)
Inductive step : st -> st -> Prop :=
| st_enter c s : pcs s c = Idle ->
    step s (St (goto c HoldLocked s) (lk_locked s) (lk_cpu s))
| st_hold_locked c s : pcs s c = HoldLocked ->
    step s (St (goto c (if lk_locked s =? 0 then Xchg else HoldCpu) s) (lk_locked s) (lk_cpu s))
| st_hold_cpu c s : pcs s c = HoldCpu ->
    step s (St (goto c (if decide (lk_cpu s = Some c) then Panicked else Xchg) s)
               (lk_locked s) (lk_cpu s))
| st_xchg c s : pcs s c = Xchg ->
    step s (St (goto c (if lk_locked s =? 0 then SetCpu else Xchg) s) 1 (lk_cpu s))
| st_set_cpu c s : pcs s c = SetCpu ->
    step s (St (goto c Crit s) (lk_locked s) (Some c))
| st_leave c s : pcs s c = Crit ->
    step s (St (goto c RelLocked s) (lk_locked s) (lk_cpu s))
| st_rel_locked c s : pcs s c = RelLocked ->
    step s (St (goto c (if lk_locked s =? 0 then Panicked else RelCpu) s) (lk_locked s) (lk_cpu s))
| st_rel_cpu c s : pcs s c = RelCpu ->
    step s (St (goto c (if decide (lk_cpu s = Some c) then ClearCpu else Panicked) s)
               (lk_locked s) (lk_cpu s))
| st_clear_cpu c s : pcs s c = ClearCpu ->
    step s (St (goto c ClearLocked s) (lk_locked s) None)
| st_clear_locked c s : pcs s c = ClearLocked ->
    step s (St (goto c Idle s) 0 (lk_cpu s)).

Definition init : st := St (fun _ => Idle) 0 None.

(** Program points between a successful xchg and the store that undoes it. *)
Definition owns (p : pc) : bool :=
  match p with
  | SetCpu | Crit | RelLocked | RelCpu | ClearCpu | ClearLocked => true
  | _ => false
  end.

(** Program points at which lk->cpu names this CPU. *)
Definition named (p : pc) : bool :=
  match p with Crit | RelLocked | RelCpu | ClearCpu => true | _ => false end.

Record inv (s : st) : Prop := {
  inv_panic : forall c, pcs s c <> Panicked;
  inv_excl : forall c c', owns (pcs s c) = true -> owns (pcs s c') = true -> c = c';
  inv_locked : forall c, owns (pcs s c) = true -> lk_locked s = 1;
  inv_free : lk_locked s <> 0 -> exists c, owns (pcs s c) = true;
  inv_cpu : forall c, named (pcs s c) = true <-> lk_cpu s = Some c
}.

Lemma named_owns p : named p = true -> owns p = true.
Proof. by destruct p. Qed.

Lemma inv_init : inv init.
Proof. by split. Qed.

(** A step of [c] to a point [p], with new values of the two fields, keeps
    the invariant if it does for [c] and nobody else is concerned. *)
Lemma inv_goto s c p l o :
  inv s -> p <> Panicked ->
  (owns p = true -> l = 1 /\ forall c', c' <> c -> owns (pcs s c') = false) ->
  (owns p = false -> l <> 0 -> exists c', c' <> c /\ owns (pcs s c') = true) ->
  (forall c', c' <> c -> owns (pcs s c') = true -> l = 1) ->
  (named p = true <-> o = Some c) ->
  (forall c', c' <> c -> named (pcs s c') = true <-> o = Some c') ->
  inv (St (goto c p s) l o).
Proof.
  intros Hi Hp Hown Hfree Hl Hn Hn'. split; simpl; unfold goto.
  - intros c1. case_decide; [done|]. apply Hi.
  - intros c1 c2. do 2 case_decide; subst; try done.
    + intros H1%Hown H2. destruct H1 as [_ H1]. rewrite H1 in H2; done.
    + intros H1 H2%Hown. destruct H2 as [_ H2]. rewrite H2 in H1; done.
    + apply Hi.
  - intros c1. case_decide; [by intros [? _]%Hown|]. by apply Hl.
  - intros Hne. destruct (owns p) eqn:E.
    + exists c. by rewrite decide_True.
    + destruct (Hfree eq_refl Hne) as (c' & Hc & Ho). exists c'. by rewrite decide_False.
  - intros c1. case_decide; subst; [done|]. by apply Hn'.
Qed.

(** Steps that touch neither field and stay on the same side of both. *)
Lemma inv_silent s c p :
  inv s -> p <> Panicked -> owns p = owns (pcs s c) -> named p = named (pcs s c) ->
  inv (St (goto c p s) (lk_locked s) (lk_cpu s)).
Proof.
  intros Hi Hp Ho Hn. apply inv_goto; try done.
  - rewrite Ho. intros H. split; [by eapply inv_locked|].
    intros c' Hne. destruct (owns (pcs s c')) eqn:E; [|done].
    destruct Hne. by eapply inv_excl.
  - rewrite Ho. intros H Hl. destruct (inv_free s Hi Hl) as [c' Hc'].
    exists c'. split; congruence.
  - intros c' _. by apply inv_locked.
  - rewrite Hn. apply Hi.
  - intros c' _. apply Hi.
Qed.

Lemma inv_others s c : inv s -> owns (pcs s c) = true ->
  forall c', c' <> c -> owns (pcs s c') = false.
Proof.
  intros Hi Ho c' Hne. destruct (owns (pcs s c')) eqn:E; [|done].
  destruct Hne. by eapply inv_excl.
Qed.

Lemma inv_unlocked s : inv s -> lk_locked s = 0 -> forall c, owns (pcs s c) = false.
Proof.
  intros Hi H0 c. destruct (owns (pcs s c)) eqn:E; [|done].
  eapply inv_locked in E; [lia|done].
Qed.

Lemma not_owns_named s c : owns (pcs s c) = false -> named (pcs s c) = false.
Proof. by destruct (pcs s c). Qed.

Lemma inv_xchg s c : inv s -> pcs s c = Xchg -> lk_locked s = 0 ->
  inv (St (goto c SetCpu s) 1 (lk_cpu s)).
Proof.
  intros Hi Hpc H0. pose proof (inv_unlocked s Hi H0) as Hun.
  apply inv_goto; simpl; try done.
  - split; [|intros E; apply Hi in E]; [done|]. by rewrite Hpc in E.
  - intros c' _. apply Hi.
Qed.

Lemma inv_set_cpu s c : inv s -> pcs s c = SetCpu -> inv (St (goto c Crit s) (lk_locked s) (Some c)).
Proof.
  intros Hi Hpc. assert (owns (pcs s c) = true) as Ho by by rewrite Hpc.
  apply inv_goto; simpl; try done.
  - intros _. split; [by eapply inv_locked|by apply inv_others].
  - intros c' _. by apply inv_locked.
  - intros c' Hne. split; [|congruence]. intros Hn%named_owns.
    destruct Hne. by eapply inv_excl.
Qed.

Lemma inv_clear_cpu s c : inv s -> pcs s c = ClearCpu -> inv (St (goto c ClearLocked s) (lk_locked s) None).
Proof.
  intros Hi Hpc. assert (owns (pcs s c) = true) as Ho by by rewrite Hpc.
  apply inv_goto; simpl; try done.
  - intros _. split; [by eapply inv_locked|by apply inv_others].
  - intros c' _. by apply inv_locked.
  - intros c' Hne. split; [|done]. intros Hn%named_owns.
    destruct Hne. by eapply inv_excl.
Qed.

Lemma inv_clear_locked s c : inv s -> pcs s c = ClearLocked -> inv (St (goto c Idle s) 0 (lk_cpu s)).
Proof.
  intros Hi Hpc. assert (owns (pcs s c) = true) as Ho by by rewrite Hpc.
  apply inv_goto; simpl; try done.
  - intros c' Hne H. rewrite (inv_others s c) in H; done.
  - split; [done|]. intros E. apply Hi in E. by rewrite Hpc in E.
  - intros c' _. apply Hi.
Qed.

Lemma inv_step s s' : inv s -> step s s' -> inv s'.
Proof.
  intros Hi. destruct 1 as [c s Hpc|c s Hpc|c s Hpc|c s Hpc|c s Hpc|c s Hpc|c s Hpc|c s Hpc|c s Hpc|c s Hpc];
    pose proof (inv_cpu s Hi c) as Hcpu; rewrite Hpc in Hcpu.
  - apply inv_silent; by rewrite ?Hpc.
  - destruct (lk_locked s =? 0); apply inv_silent; by rewrite ?Hpc.
  - case_decide as E; [by apply Hcpu in E|]. apply inv_silent; by rewrite ?Hpc.
  - destruct (Z.eqb_spec (lk_locked s) 0) as [E|E]; [by apply inv_xchg|].
    destruct (inv_free s Hi E) as [c' Hc'].
    rewrite <- (inv_locked s Hi c' Hc'). apply inv_silent; by rewrite ?Hpc.
  - by apply inv_set_cpu.
  - apply inv_silent; by rewrite ?Hpc.
  - destruct (Z.eqb_spec (lk_locked s) 0) as [E|E].
    + rewrite (inv_locked s Hi c) in E by by rewrite Hpc. done.
    + apply inv_silent; by rewrite ?Hpc.
  - case_decide as E; [|by destruct E; apply Hcpu]. apply inv_silent; by rewrite ?Hpc.
  - by apply inv_clear_cpu.
  - by apply inv_clear_locked.
Qed.

Lemma inv_reachable s : rtc step init s -> inv s.
Proof.
  assert (forall a, rtc step a s -> inv a -> inv s) as H.
  { induction 1; eauto using inv_step. }
  eauto using inv_init.
Qed.

(** C8: on any number of CPUs, interleaved at every memory access, two CPUs
    are never both between a successful xchg and the store that releases the
    lock, and neither the [holding] test of acquire nor that of release,
    which read lk->locked and lk->cpu separately and without the lock, ever
    panics. *)
Theorem spinlock_mutual_exclusion s :
  rtc step init s ->
  (forall c c', owns (pcs s c) = true -> owns (pcs s c') = true -> c = c')
  /\ (forall c, pcs s c <> Panicked)
  /\ (forall c, pcs s c = Crit -> lk_locked s = 1 /\ lk_cpu s = Some c).
Proof.
  intros Hi%inv_reachable. split; [|split].
  - intros c c'. by apply inv_excl.
  - apply Hi.
  - intros c Hpc. split; [apply (inv_locked s Hi c)|apply (inv_cpu s Hi c)]; by rewrite Hpc.
Qed.

(** CPU 0 has taken the lock, CPU 1 has read lk->locked = 1 in [holding]. *)
Definition contended : st :=
  let s1 := St (goto 0 HoldLocked init) 0 None in
  let s2 := St (goto 0 Xchg s1) 0 None in
  let s3 := St (goto 0 SetCpu s2) 1 None in
  let s4 := St (goto 0 Crit s3) 1 (Some 0%nat) in
  let s5 := St (goto 1 HoldLocked s4) 1 (Some 0%nat) in
  St (goto 1 HoldCpu s5) 1 (Some 0%nat).

Lemma contended_reachable : rtc step init contended.
Proof.
  eapply rtc_l; [by apply (st_enter 0)|].
  eapply rtc_l; [by apply (st_hold_locked 0)|].
  eapply rtc_l; [by apply (st_xchg 0)|].
  eapply rtc_l; [by apply (st_set_cpu 0)|].
  eapply rtc_l; [by apply (st_enter 1)|].
  apply rtc_once. by apply (st_hold_locked 1).
Qed.

Lemma spinlock_mutual_exclusion_witness :
  pcs contended 0 = Crit /\ (forall c, pcs contended c <> Panicked)
  /\ (lk_locked contended = 1 /\ lk_cpu contended = Some 0%nat).
Proof.
  destruct (spinlock_mutual_exclusion contended contended_reachable) as (_ & Hp & Hc).
  split; [reflexivity|]. split; [exact Hp|]. exact (Hc 0%nat eq_refl).
Defined.
End Protocol.
