(* ===== verification/ProcState.v ===== *)
(** The state of the process layer (src/xv6-public/proc.h, x86.h, param.h and
    the variables of proc.c): the process table, the priority queues, the
    per-CPU data and locks of [Spinlock], the objects kept on kernel stacks,
    and the console output so far.  [E] is the state of the components the
    process layer calls (memory, files, disk).

    A [struct proc *] is an index into the process table, [None] when null.
    Sleep channels, locks and kernel addresses are 32-bit addresses; the
    addresses of the kernel's own variables are those of kernel.sym. *)
From S2P Require Import Prelude Spinlock.

(** * Constants of param.h *)
Definition NPROC : Z := 64.
Definition KSTACKSIZE : Z := 4096.
Definition NOFILE : Z := 16.
Definition ROOTDEV : Z := 1.
Definition PLEVELS : Z := 5.
Definition MOD : Z := 65.
Definition PGSIZE : Z := 4096.

(** Addresses of kernel variables and code. *)
Definition ptable_lock : Z := 0x80113ca0.
Definition ptable_proc : Z := 0x80113cd4.
Definition tickslock : Z := 0x80115ce0.
Definition ticks_chan : Z := 0x80116520.
Definition forkret_addr : Z := 0x80103720.
Definition trapret_addr : Z := 0x8010592d.

Definition sizeof_proc : Z := 128.
Definition sizeof_trapframe : Z := 76.
Definition sizeof_context : Z := 20.

(** The address of a slot of the table, used as a sleep channel by wait. *)
Definition proc_addr (i : nat) : Z := ptable_proc + sizeof_proc * Z.of_nat i.

(** * Data *)

Inductive procstate := UNUSED | EMBRYO | SLEEPING | RUNNABLE | RUNNING | ZOMBIE.

#[export] Instance procstate_eq_dec : EqDecision procstate.
Proof. solve_decision. Defined.

(** struct trapframe of x86.h, without the padding. *)
Record trapframe := Trapframe {
  tf_edi : Z;
  tf_esi : Z;
  tf_ebp : Z;
  tf_oesp : Z;
  tf_ebx : Z;
  tf_edx : Z;
  tf_ecx : Z;
  tf_eax : Z;
  tf_gs : Z;
  tf_fs : Z;
  tf_es : Z;
  tf_ds : Z;
  tf_trapno : Z;
  tf_err : Z;
  tf_eip : Z;
  tf_cs : Z;
  tf_eflags : Z;
  tf_esp : Z;
  tf_ss : Z
}.
Definition set_tf_eax v t := Trapframe (tf_edi t) (tf_esi t) (tf_ebp t) (tf_oesp t) (tf_ebx t) (tf_edx t) (tf_ecx t) v (tf_gs t) (tf_fs t) (tf_es t) (tf_ds t) (tf_trapno t) (tf_err t) (tf_eip t) (tf_cs t) (tf_eflags t) (tf_esp t) (tf_ss t).

Definition trapframe0 : trapframe := Trapframe 0 0 0 0 0 0 0 0 0 0 0 0 0 0 0 0 0 0 0.

(** struct context of proc.h. *)
Record context := Context {
  cx_edi : Z;
  cx_esi : Z;
  cx_ebx : Z;
  cx_ebp : Z;
  cx_eip : Z
}.

(** struct proc of proc.h. *)
Record proc := Proc {
  p_sz : Z;
  p_pgdir : Z;
  p_kstack : Z;
  p_state : procstate;
  p_pid : Z;
  p_parent : option nat;
  p_tf : Z;
  p_context : Z;
  p_chan : Z;
  p_killed : Z;
  p_ofile : list Z;
  p_cwd : Z;
  p_name : list Z;
  p_priority : Z
}.
Definition set_p_sz v p := Proc v (p_pgdir p) (p_kstack p) (p_state p) (p_pid p) (p_parent p) (p_tf p) (p_context p) (p_chan p) (p_killed p) (p_ofile p) (p_cwd p) (p_name p) (p_priority p).
Definition set_p_pgdir v p := Proc (p_sz p) v (p_kstack p) (p_state p) (p_pid p) (p_parent p) (p_tf p) (p_context p) (p_chan p) (p_killed p) (p_ofile p) (p_cwd p) (p_name p) (p_priority p).
Definition set_p_kstack v p := Proc (p_sz p) (p_pgdir p) v (p_state p) (p_pid p) (p_parent p) (p_tf p) (p_context p) (p_chan p) (p_killed p) (p_ofile p) (p_cwd p) (p_name p) (p_priority p).
Definition set_p_state v p := Proc (p_sz p) (p_pgdir p) (p_kstack p) v (p_pid p) (p_parent p) (p_tf p) (p_context p) (p_chan p) (p_killed p) (p_ofile p) (p_cwd p) (p_name p) (p_priority p).
Definition set_p_pid v p := Proc (p_sz p) (p_pgdir p) (p_kstack p) (p_state p) v (p_parent p) (p_tf p) (p_context p) (p_chan p) (p_killed p) (p_ofile p) (p_cwd p) (p_name p) (p_priority p).
Definition set_p_parent v p := Proc (p_sz p) (p_pgdir p) (p_kstack p) (p_state p) (p_pid p) v (p_tf p) (p_context p) (p_chan p) (p_killed p) (p_ofile p) (p_cwd p) (p_name p) (p_priority p).
Definition set_p_tf v p := Proc (p_sz p) (p_pgdir p) (p_kstack p) (p_state p) (p_pid p) (p_parent p) v (p_context p) (p_chan p) (p_killed p) (p_ofile p) (p_cwd p) (p_name p) (p_priority p).
Definition set_p_context v p := Proc (p_sz p) (p_pgdir p) (p_kstack p) (p_state p) (p_pid p) (p_parent p) (p_tf p) v (p_chan p) (p_killed p) (p_ofile p) (p_cwd p) (p_name p) (p_priority p).
Definition set_p_chan v p := Proc (p_sz p) (p_pgdir p) (p_kstack p) (p_state p) (p_pid p) (p_parent p) (p_tf p) (p_context p) v (p_killed p) (p_ofile p) (p_cwd p) (p_name p) (p_priority p).
Definition set_p_killed v p := Proc (p_sz p) (p_pgdir p) (p_kstack p) (p_state p) (p_pid p) (p_parent p) (p_tf p) (p_context p) (p_chan p) v (p_ofile p) (p_cwd p) (p_name p) (p_priority p).
Definition set_p_ofile v p := Proc (p_sz p) (p_pgdir p) (p_kstack p) (p_state p) (p_pid p) (p_parent p) (p_tf p) (p_context p) (p_chan p) (p_killed p) v (p_cwd p) (p_name p) (p_priority p).
Definition set_p_cwd v p := Proc (p_sz p) (p_pgdir p) (p_kstack p) (p_state p) (p_pid p) (p_parent p) (p_tf p) (p_context p) (p_chan p) (p_killed p) (p_ofile p) v (p_name p) (p_priority p).
Definition set_p_name v p := Proc (p_sz p) (p_pgdir p) (p_kstack p) (p_state p) (p_pid p) (p_parent p) (p_tf p) (p_context p) (p_chan p) (p_killed p) (p_ofile p) (p_cwd p) v (p_priority p).
Definition set_p_priority v p := Proc (p_sz p) (p_pgdir p) (p_kstack p) (p_state p) (p_pid p) (p_parent p) (p_tf p) (p_context p) (p_chan p) (p_killed p) (p_ofile p) (p_cwd p) (p_name p) v.

(** An argument of cprintf, and a call of it. *)
Inductive carg := CInt (z : Z) | CStr (s : list Z).
Record event := Cprintf { fmt : string; args : list carg }.

Section State.
Context {E : Type}.

(** The kernel state seen by proc.c. *)
Record kst := Kst {
  mach : machine;
  ptable : list proc;
  priority_q : list (list (option nat));
  marker : list Z;
  initproc : option nat;
  nextpid : Z;
  tfs : gmap Z trapframe;
  ctxs : gmap Z context;
  words : gmap Z Z;
  forkret_first : bool;
  ticks : Z;
  out : list event;
  ext : E
}.
End State.
Arguments kst E : clear implicits.

Definition set_mach {E} v (k : kst E) := Kst v (ptable k) (priority_q k) (marker k) (initproc k) (nextpid k) (tfs k) (ctxs k) (words k) (forkret_first k) (ticks k) (out k) (ext k).
Definition set_ptable {E} v (k : kst E) := Kst (mach k) v (priority_q k) (marker k) (initproc k) (nextpid k) (tfs k) (ctxs k) (words k) (forkret_first k) (ticks k) (out k) (ext k).
Definition set_priority_q {E} v (k : kst E) := Kst (mach k) (ptable k) v (marker k) (initproc k) (nextpid k) (tfs k) (ctxs k) (words k) (forkret_first k) (ticks k) (out k) (ext k).
Definition set_marker {E} v (k : kst E) := Kst (mach k) (ptable k) (priority_q k) v (initproc k) (nextpid k) (tfs k) (ctxs k) (words k) (forkret_first k) (ticks k) (out k) (ext k).
Definition set_initproc {E} v (k : kst E) := Kst (mach k) (ptable k) (priority_q k) (marker k) v (nextpid k) (tfs k) (ctxs k) (words k) (forkret_first k) (ticks k) (out k) (ext k).
Definition set_nextpid {E} v (k : kst E) := Kst (mach k) (ptable k) (priority_q k) (marker k) (initproc k) v (tfs k) (ctxs k) (words k) (forkret_first k) (ticks k) (out k) (ext k).
Definition set_tfs {E} v (k : kst E) := Kst (mach k) (ptable k) (priority_q k) (marker k) (initproc k) (nextpid k) v (ctxs k) (words k) (forkret_first k) (ticks k) (out k) (ext k).
Definition set_ctxs {E} v (k : kst E) := Kst (mach k) (ptable k) (priority_q k) (marker k) (initproc k) (nextpid k) (tfs k) v (words k) (forkret_first k) (ticks k) (out k) (ext k).
Definition set_words {E} v (k : kst E) := Kst (mach k) (ptable k) (priority_q k) (marker k) (initproc k) (nextpid k) (tfs k) (ctxs k) v (forkret_first k) (ticks k) (out k) (ext k).
Definition set_forkret_first {E} v (k : kst E) := Kst (mach k) (ptable k) (priority_q k) (marker k) (initproc k) (nextpid k) (tfs k) (ctxs k) (words k) v (ticks k) (out k) (ext k).
Definition set_ticks {E} v (k : kst E) := Kst (mach k) (ptable k) (priority_q k) (marker k) (initproc k) (nextpid k) (tfs k) (ctxs k) (words k) (forkret_first k) v (out k) (ext k).
Definition set_out {E} v (k : kst E) := Kst (mach k) (ptable k) (priority_q k) (marker k) (initproc k) (nextpid k) (tfs k) (ctxs k) (words k) (forkret_first k) (ticks k) v (ext k).
Definition set_ext {E} (v : E) (k : kst E) : kst E := Kst (mach k) (ptable k) (priority_q k) (marker k) (initproc k) (nextpid k) (tfs k) (ctxs k) (words k) (forkret_first k) (ticks k) (out k) v.

(** States are compared field by field. *)
Lemma kst_ext {E} (k k' : kst E) :
  mach k = mach k' -> ptable k = ptable k' -> priority_q k = priority_q k' ->
  marker k = marker k' -> initproc k = initproc k' -> nextpid k = nextpid k' ->
  tfs k = tfs k' -> ctxs k = ctxs k' -> words k = words k' ->
  forkret_first k = forkret_first k' -> ticks k = ticks k' -> out k = out k' ->
  ext k = ext k' -> k = k'.
Proof. destruct k, k'; simpl. by intros; subst. Qed.

Ltac kst_eq := apply kst_ext; simpl; try reflexivity.
