(* ===== verification/Queue.v ===== *)
(** The priority queues of src/xv6-public/proc.c: [priority_q], an array of
    PLEVELS rows of NPROC nodes, and [marker], the number of nodes in use in
    each row.  The [prev] and [next] fields of a node are never used by the
    code, so a node is its process pointer.

    The abstract queue of a level is a list of slots; [rep] says when the
    arrays represent such queues, and the two refinement lemmas say what the
    array code does to them. *)
From S2P Require Import Prelude Spinlock ProcState.

Section Queue.
Context {E : Type}.
Notation K := (M (kst E)).

(** * Operations *)

(** Dereference of a process pointer, and an assignment to one of its fields. *)
Definition proc_at (i : nat) : K proc :=
  t <- gets ptable ;; get_opt "proc" (t !! i).

Definition upd_proc (i : nat) (f : proc -> proc) : K unit :=
  p <- proc_at i ;; modify (fun k => set_ptable (<[i := f p]> (ptable k)) k).

Definition marker_at (pr : Z) : K Z :=
  m <- gets marker ;; get_opt "marker" (arr_get m pr).

Definition set_marker_at (pr v : Z) : K unit :=
  m <- gets marker ;;
  m' <- get_opt "marker" (arr_set m pr v) ;;
  modify (set_marker m').

Definition node_at (pr i : Z) : K (option nat) :=
  q <- gets priority_q ;;
  row <- get_opt "priority_q" (arr_get q pr) ;;
  get_opt "priority_q" (arr_get row i).

Definition set_node_at (pr i : Z) (n : option nat) : K unit :=
  q <- gets priority_q ;;
  row <- get_opt "priority_q" (arr_get q pr) ;;
  row' <- get_opt "priority_q" (arr_set row i n) ;;
  q' <- get_opt "priority_q" (arr_set q pr row') ;;
  modify (set_priority_q q').

(** [priority_q[pr][i].p->pid] *)
Definition node_pid (pr i : Z) : K Z :=
  n <- node_at pr i ;;
  q <- get_opt "null node" n ;;
  b <- proc_at q ;;
  ret (p_pid b).

(** Bodies of the two searches. *)
Definition add_search (p : nat) (pr i : Z) : K (option Z) :=
  a <- proc_at p ;;
  b <- node_pid pr i ;;
  ret (if p_pid a =? b then Some (-1) else None).

Definition remove_search (p : nat) (pr i : Z) : K (option Z) :=
  b <- node_pid pr i ;;
  a <- proc_at p ;;
  ret (if b =? p_pid a then Some i else None).

Definition add_process_to_queue (p : nat) (pr : Z) : K Z :=
  m <- marker_at pr ;;
  r <- for_range 0 m (add_search p pr) ;;
  match r with
  | Some v => ret v
  | None =>
      m <- marker_at pr ;;
      set_node_at pr m (Some p) ;;
      set_marker_at pr (m + 1) ;;
      ret 1
  end.

Definition remove_process_from_queue (p : nat) (pr : Z) : K Z :=
  m <- marker_at pr ;;
  found <- for_range 0 m (remove_search p pr) ;;
  match found with
  | None => ret (-1)
  | Some i =>
      m <- marker_at pr ;;
      for_each i (m - 1) (fun j => x <- node_at pr (j + 1) ;; set_node_at pr j x) ;;
      m <- marker_at pr ;;
      set_marker_at pr (m - 1) ;;
      ret 1
  end.

(** * Representation of abstract queues *)

Definition pid_of (k : kst E) (i : nat) : Z :=
  match ptable k !! i with Some p => p_pid p | None => 0 end.

(** Row [row] with mark [m] holds the queue [q]. *)
Definition rep_row (n : nat) (row : list (option nat)) (m : Z) (q : list nat) : Prop :=
  length row = Z.to_nat NPROC /\ m = Z.of_nat (length q)
  /\ (exists tl, row = map Some q ++ tl) /\ Forall (fun i => (i < n)%nat) q.

Definition rep (k : kst E) (Q : list (list nat)) : Prop :=
  length Q = Z.to_nat PLEVELS /\ length (priority_q k) = Z.to_nat PLEVELS
  /\ length (marker k) = Z.to_nat PLEVELS
  /\ forall pr q row m, Q !! pr = Some q -> priority_q k !! pr = Some row ->
       marker k !! pr = Some m -> rep_row (length (ptable k)) row m q.

(** The slots of [q] whose process has pid [x]; the first one is dropped. *)
Fixpoint remove_pid (k : kst E) (x : Z) (q : list nat) : list nat :=
  match q with
  | [] => []
  | i :: q' => if pid_of k i =? x then q' else i :: remove_pid k x q'
  end.

Definition has_pid (k : kst E) (x : Z) (q : list nat) : bool :=
  existsb (fun i => pid_of k i =? x) q.

(** [k'] is [k] but for the queues. *)
Definition only_queues (k k' : kst E) : Prop :=
  exists q m, k' = set_marker m (set_priority_q q k).

(** * Reading and writing the arrays *)

Lemma proc_at_eq (k : kst E) i p : ptable k !! i = Some p -> proc_at i k = Ret p k.
Proof. intros H. unfold proc_at, bind, gets, get_opt. simpl. by rewrite H. Qed.

Lemma upd_proc_eq (k : kst E) i p f :
  ptable k !! i = Some p -> upd_proc i f k = Ret tt (set_ptable (<[i := f p]> (ptable k)) k).
Proof. intros H. unfold upd_proc. by rewrite (bind_Ret _ _ _ _ _ (proc_at_eq _ _ _ H)). Qed.

Lemma pid_of_eq (k : kst E) i p : ptable k !! i = Some p -> pid_of k i = p_pid p.
Proof. intros H. unfold pid_of. by rewrite H. Qed.

Lemma marker_at_eq (k : kst E) (pr : nat) m :
  marker k !! pr = Some m -> marker_at (Z.of_nat pr) k = Ret m k.
Proof.
  intros H. unfold marker_at, bind, gets. simpl. by rewrite arr_get_nat, H.
Qed.

Lemma set_marker_at_eq (k : kst E) (pr : nat) m v :
  marker k !! pr = Some m ->
  set_marker_at (Z.of_nat pr) v k = Ret tt (set_marker (<[pr := v]> (marker k)) k).
Proof.
  intros H%lookup_lt_Some. unfold set_marker_at, bind, gets. simpl.
  by rewrite arr_set_nat.
Qed.

Lemma node_at_eq (k : kst E) (pr i : nat) row n :
  priority_q k !! pr = Some row -> row !! i = Some n ->
  node_at (Z.of_nat pr) (Z.of_nat i) k = Ret n k.
Proof.
  intros H1 H2. unfold node_at, bind, gets. simpl.
  rewrite arr_get_nat, H1. simpl. by rewrite arr_get_nat, H2.
Qed.

Lemma set_node_at_eq (k : kst E) (pr i : nat) row n :
  priority_q k !! pr = Some row -> (i < length row)%nat ->
  set_node_at (Z.of_nat pr) (Z.of_nat i) n k
    = Ret tt (set_priority_q (<[pr := <[i := n]> row]> (priority_q k)) k).
Proof.
  intros H1 H2. unfold set_node_at, bind, gets. simpl.
  rewrite arr_get_nat, H1. simpl. rewrite arr_set_nat by done. simpl.
  rewrite arr_set_nat by (by eapply lookup_lt_Some). done.
Qed.

(** * Lookups under a representation *)

Lemma rep_lookup k Q pr q :
  rep k Q -> Q !! pr = Some q ->
  exists row, priority_q k !! pr = Some row /\ marker k !! pr = Some (Z.of_nat (length q))
    /\ rep_row (length (ptable k)) row (Z.of_nat (length q)) q.
Proof.
  intros (HQ & Hp & Hm & H) Hq.
  assert (pr < Z.to_nat PLEVELS)%nat as Hlt by (rewrite <- HQ; by eapply lookup_lt_Some).
  destruct (lookup_lt_is_Some_2 (priority_q k) pr) as [row Hrow]; [lia|].
  destruct (lookup_lt_is_Some_2 (marker k) pr) as [m Hmk]; [lia|].
  pose proof (H _ _ _ _ Hq Hrow Hmk) as Hr. destruct Hr as (? & -> & ?). eauto 10.
Qed.

Lemma rep_level k Q pr : rep k Q -> 0 <= pr < PLEVELS -> exists q, Q !! Z.to_nat pr = Some q.
Proof.
  intros (HQ & _) Hpr. apply lookup_lt_is_Some_2. rewrite HQ. unfold PLEVELS in *. lia.
Qed.

Lemma rep_node_pid k Q pr q (i : nat) x :
  rep k Q -> Q !! pr = Some q -> q !! i = Some x ->
  node_pid (Z.of_nat pr) (Z.of_nat i) k = Ret (pid_of k x) k.
Proof.
  intros Hrep Hq Hi. destruct (rep_lookup _ _ _ _ Hrep Hq) as (row & Hrow & _ & Hr).
  destruct Hr as (_ & _ & (tl & Htl) & Hb).
  rewrite Forall_lookup in Hb. specialize (Hb _ _ Hi).
  destruct (lookup_lt_is_Some_2 (ptable k) x Hb) as [p Hp].
  unfold node_pid. rewrite (bind_Ret _ _ _ (Some x) k); [|eapply node_at_eq; [done|]].
  - unfold bind, get_opt, ret. simpl. rewrite (proc_at_eq _ _ _ Hp). simpl.
    unfold pid_of. by rewrite Hp.
  - rewrite Htl, lookup_app_l; [|rewrite length_map; by eapply lookup_lt_Some].
    by rewrite list_lookup_fmap, Hi.
Qed.

(** First position at which a test holds. *)
Lemma existsb_first {A} (f : A -> bool) (q : list A) :
  existsb f q = true ->
  exists j x, q !! j = Some x /\ f x = true
    /\ forall m y, (m < j)%nat -> q !! m = Some y -> f y = false.
Proof.
  induction q as [|a q IH]; simpl; [done|]. destruct (f a) eqn:Ea.
  - intros _. exists O, a. split_and!; try done. intros m y Hm. lia.
  - simpl. intros (j & x & H1 & H2 & H3)%IH. exists (S j), x. split_and!; try done.
    intros [|m] y Hm Hy; simpl in Hy; [congruence|]. eapply H3; [|done]. lia.
Qed.

Lemma existsb_none {A} (f : A -> bool) (q : list A) i x :
  existsb f q = false -> q !! i = Some x -> f x = false.
Proof.
  intros H Hi. destruct (f x) eqn:Ex; [|done]. exfalso.
  apply not_true_iff_false in H. apply H, existsb_exists. exists x.
  split; [|done]. apply list_elem_of_In. by eapply list_elem_of_lookup_2.
Qed.

(** The scan of a row for a pid, whichever way the comparison is written. *)
Lemma scan_found {A} k Q pr q p (body : Z -> K (option A)) (g : nat -> A) :
  rep k Q -> Q !! pr = Some q -> has_pid k (pid_of k p) q = true ->
  (forall i x, q !! i = Some x -> body (Z.of_nat i) k
     = Ret (if pid_of k x =? pid_of k p then Some (g i) else None) k) ->
  exists j x, q !! j = Some x /\ pid_of k x = pid_of k p
    /\ (forall m y, (m < j)%nat -> q !! m = Some y -> pid_of k y <> pid_of k p)
    /\ for_range 0 (Z.of_nat (length q)) body k = Ret (Some (g j)) k.
Proof.
  intros Hrep Hq Hhas Hbody. apply existsb_first in Hhas as (j & x & Hj & Hx & Hfirst).
  exists j, x. split_and!; try done.
  - by apply Z.eqb_eq.
  - intros m y Hm Hy. apply Z.eqb_neq. by eapply Hfirst.
  - pose proof (lookup_lt_Some _ _ _ Hj) as Hlt. unfold for_range.
    eapply for_loop_exit with (j := Z.of_nat j); [lia| |].
    + intros m Hm. destruct (lookup_lt_is_Some_2 q (Z.to_nat m)) as [y Hy]; [lia|].
      replace m with (Z.of_nat (Z.to_nat m)) by lia.
      rewrite (Hbody _ _ Hy). rewrite (Hfirst (Z.to_nat m) y); [done|lia|done].
    + rewrite (Hbody _ _ Hj). by rewrite Hx.
Qed.

Lemma scan_none {A} k Q pr q p (body : Z -> K (option A)) (g : nat -> A) :
  rep k Q -> Q !! pr = Some q -> has_pid k (pid_of k p) q = false ->
  (forall i x, q !! i = Some x -> body (Z.of_nat i) k
     = Ret (if pid_of k x =? pid_of k p then Some (g i) else None) k) ->
  for_range 0 (Z.of_nat (length q)) body k = Ret None k.
Proof.
  intros Hrep Hq Hhas Hbody. unfold for_range. apply for_loop_skip. intros j Hj.
  destruct (lookup_lt_is_Some_2 q (Z.to_nat j)) as [y Hy]; [lia|].
  replace j with (Z.of_nat (Z.to_nat j)) by lia.
  rewrite (Hbody _ _ Hy). by rewrite (existsb_none _ _ _ _ Hhas Hy).
Qed.

Lemma rep_update k Q pr q q' row' :
  rep k Q -> Q !! pr = Some q ->
  rep_row (length (ptable k)) row' (Z.of_nat (length q')) q' ->
  rep (set_marker (<[pr := Z.of_nat (length q')]> (marker k))
        (set_priority_q (<[pr := row']> (priority_q k)) k)) (<[pr := q']> Q).
Proof.
  intros (HQ & Hp & Hm & H) Hq Hrow. apply lookup_lt_Some in Hq.
  split_and!; simpl; rewrite ?length_insert; try done.
  intros pr' q1 row m H1 H2 H3. destruct (decide (pr = pr')) as [<-|Hne].
  - rewrite list_lookup_insert_eq in H1 by lia. rewrite list_lookup_insert_eq in H2 by lia.
    rewrite list_lookup_insert_eq in H3 by lia. by simplify_eq.
  - rewrite list_lookup_insert_ne in H1 by done. rewrite list_lookup_insert_ne in H2 by done.
    rewrite list_lookup_insert_ne in H3 by done. eauto.
Qed.

(** * Refinement of the two operations *)

Lemma add_body k Q pr q p i x :
  rep k Q -> Q !! pr = Some q -> (p < length (ptable k))%nat -> q !! i = Some x ->
  add_search p (Z.of_nat pr) (Z.of_nat i) k
  = Ret (if pid_of k x =? pid_of k p then Some (-1) else None) k.
Proof.
  intros Hrep Hq Hp Hi. destruct (lookup_lt_is_Some_2 _ _ Hp) as [a Ha].
  unfold add_search, remove_search. rewrite (bind_Ret _ _ _ _ _ (proc_at_eq _ _ _ Ha)).
  rewrite (bind_Ret _ _ _ _ _ (rep_node_pid _ _ _ _ _ _ Hrep Hq Hi)).
  unfold ret. rewrite (pid_of_eq _ _ _ Ha). by rewrite Z.eqb_sym.
Qed.

Lemma add_found k Q pr q p :
  rep k Q -> Q !! pr = Some q -> (p < length (ptable k))%nat ->
  has_pid k (pid_of k p) q = true ->
  add_process_to_queue p (Z.of_nat pr) k = Ret (-1) k.
Proof.
  intros Hrep Hq Hp Hhas. destruct (rep_lookup _ _ _ _ Hrep Hq) as (row & Hrow & Hm & _).
  unfold add_process_to_queue. rewrite (bind_Ret _ _ _ _ _ (marker_at_eq _ _ _ Hm)).
  destruct (scan_found k Q pr q p (add_search p (Z.of_nat pr)) (fun _ => -1) Hrep Hq Hhas
              (fun i x Hi => add_body k Q pr q p i x Hrep Hq Hp Hi))
    as (j & x & _ & _ & _ & Hscan).
  by rewrite (bind_Ret _ _ _ _ _ Hscan).
Qed.

Lemma add_new k Q pr q p :
  rep k Q -> Q !! pr = Some q -> (p < length (ptable k))%nat ->
  has_pid k (pid_of k p) q = false -> (length q < Z.to_nat NPROC)%nat ->
  exists k', add_process_to_queue p (Z.of_nat pr) k = Ret 1 k'
    /\ only_queues k k' /\ rep k' (<[pr := q ++ [p]]> Q).
Proof.
  intros Hrep Hq Hp Hhas Hlen.
  destruct (rep_lookup _ _ _ _ Hrep Hq) as (row & Hrow & Hm & Hr).
  pose proof Hr as (Hl & _ & (tl & Htl) & Hb).
  unfold add_process_to_queue. rewrite (bind_Ret _ _ _ _ _ (marker_at_eq _ _ _ Hm)).
  pose proof (scan_none k Q pr q p (add_search p (Z.of_nat pr)) (fun _ => -1) Hrep Hq Hhas
                (fun i x Hi => add_body k Q pr q p i x Hrep Hq Hp Hi)) as Hscan.
  rewrite (bind_Ret _ _ _ _ _ Hscan).
  rewrite (bind_Ret _ _ _ _ _ (marker_at_eq _ _ _ Hm)).
  rewrite (bind_Ret _ _ _ _ _ (set_node_at_eq k pr (length q) row (Some p) Hrow ltac:(lia))).
  erewrite bind_Ret; [|apply (set_marker_at_eq _ pr (Z.of_nat (length q))); done].
  eexists. split; [done|]. split.
  - unfold only_queues. eexists _, _. done.
  - replace (Z.of_nat (length q) + 1) with (Z.of_nat (length (q ++ [p])))
      by (rewrite length_app; simpl; lia).
    apply (rep_update k Q pr q (q ++ [p])); [done..|]. split_and!.
    + by rewrite length_insert.
    + done.
    + destruct tl as [|t tl].
      { rewrite Htl, length_app, length_map in Hl. simpl in Hl. lia. }
      exists tl. rewrite Htl. rewrite insert_app_r_alt by (rewrite length_map; lia).
      rewrite length_map, Nat.sub_diag. simpl. rewrite map_app. simpl. by rewrite <- app_assoc.
    + apply Forall_app. split; [done|]. by constructor.
Qed.

(** The shifting loop: [y] is overwritten and its successors move down. *)
Lemma shift_loop (pr : nat) tl : forall (l2 l1 : list (option nat)) y k,
  priority_q k !! pr = Some (l1 ++ y :: l2 ++ tl) ->
  exists z, for_loop (length l2) (Z.of_nat (length l1)) (fun j =>
      (x <- node_at (Z.of_nat pr) (j + 1) ;; set_node_at (Z.of_nat pr) j x) ;;
      ret (@None unit)) k
    = Ret None (set_priority_q (<[pr := l1 ++ l2 ++ z :: tl]> (priority_q k)) k).
Proof.
  induction l2 as [|x l2 IH]; intros l1 y k Hrow.
  - exists y. simpl. unfold ret. f_equal. simpl in Hrow. rewrite list_insert_id by done.
    by destruct k.
  - simpl. unfold bind.
    replace (Z.of_nat (length l1) + 1) with (Z.of_nat (length l1 + 1)) by lia.
    rewrite (node_at_eq k pr (length l1 + 1) _ x Hrow)
      by (rewrite lookup_app_r by lia; by replace (length l1 + 1 - length l1)%nat with 1%nat by lia).
    simpl. rewrite (set_node_at_eq k pr (length l1) _ x Hrow)
      by (rewrite length_app; simpl; lia). simpl.
    set (k1 := set_priority_q _ k).
    destruct (IH (l1 ++ [x]) x k1) as [z Hz].
    { unfold k1. simpl. rewrite list_lookup_insert_eq by (by eapply lookup_lt_Some).
      f_equal. rewrite insert_app_r_alt by lia. rewrite Nat.sub_diag. simpl.
      by rewrite <- app_assoc. }
    exists z. rewrite length_app in Hz. simpl in Hz. unfold bind in Hz. rewrite Hz.
    f_equal. unfold k1, set_priority_q. simpl. rewrite list_insert_insert_eq.
    by rewrite <- app_assoc.
Qed.

Lemma remove_pid_split k x q j y :
  q !! j = Some y -> pid_of k y = x ->
  (forall m z, (m < j)%nat -> q !! m = Some z -> pid_of k z <> x) ->
  remove_pid k x q = take j q ++ drop (S j) q.
Proof.
  revert j. induction q as [|a q IH]; intros j Hj Hy Hfirst; [done|].
  destruct j as [|j]; simpl in *.
  - simplify_eq. by rewrite Z.eqb_refl, drop_0.
  - destruct (Z.eqb_spec (pid_of k a) x) as [Heq|Heq].
    { by destruct (Hfirst O a ltac:(lia) eq_refl). }
    f_equal. apply IH; try done. intros m z Hm Hz. apply (Hfirst (S m) z); [lia|done].
Qed.

Lemma remove_pid_none k x q : has_pid k x q = false -> remove_pid k x q = q.
Proof.
  induction q as [|a q IH]; simpl; [done|]. intros [Ha H]%orb_false_iff.
  rewrite Ha. f_equal. auto.
Qed.

Lemma remove_body k Q pr q p i x :
  rep k Q -> Q !! pr = Some q -> (p < length (ptable k))%nat -> q !! i = Some x ->
  remove_search p (Z.of_nat pr) (Z.of_nat i) k
  = Ret (if pid_of k x =? pid_of k p then Some (Z.of_nat i) else None) k.
Proof.
  intros Hrep Hq Hp Hi. destruct (lookup_lt_is_Some_2 _ _ Hp) as [a Ha].
  unfold add_search, remove_search. rewrite (bind_Ret _ _ _ _ _ (rep_node_pid _ _ _ _ _ _ Hrep Hq Hi)).
  rewrite (bind_Ret _ _ _ _ _ (proc_at_eq _ _ _ Ha)).
  unfold ret. by rewrite (pid_of_eq _ _ _ Ha).
Qed.

Lemma remove_found k Q pr q p :
  rep k Q -> Q !! pr = Some q -> (p < length (ptable k))%nat ->
  has_pid k (pid_of k p) q = true ->
  exists k', remove_process_from_queue p (Z.of_nat pr) k = Ret 1 k'
    /\ only_queues k k' /\ rep k' (<[pr := remove_pid k (pid_of k p) q]> Q).
Proof.
  intros Hrep Hq Hp Hhas.
  destruct (rep_lookup _ _ _ _ Hrep Hq) as (row & Hrow & Hm & Hl & _ & (tl & ->) & Hb).
  destruct (scan_found k Q pr q p (remove_search p (Z.of_nat pr)) Z.of_nat Hrep Hq Hhas
              (fun i x Hi => remove_body k Q pr q p i x Hrep Hq Hp Hi))
    as (j & x & Hj & Hx & Hfirst & Hscan).
  pose proof (lookup_lt_Some _ _ _ Hj) as Hlt.
  rewrite (remove_pid_split k _ q j x) by done.
  assert (q = take j q ++ x :: drop (S j) q) as Hsplit by (symmetry; by apply take_drop_middle).
  assert (length (drop (S j) q) = length q - S j)%nat as Hd by apply length_drop.
  unfold remove_process_from_queue. rewrite (bind_Ret _ _ _ _ _ (marker_at_eq _ _ _ Hm)).
  rewrite (bind_Ret _ _ _ _ _ Hscan), (bind_Ret _ _ _ _ _ (marker_at_eq _ _ _ Hm)).
  destruct (shift_loop pr tl (map Some (drop (S j) q)) (map Some (take j q)) (Some x) k)
    as [z Hz].
  { rewrite Hrow. f_equal. rewrite Hsplit at 1. rewrite map_app. simpl. by rewrite <- app_assoc. }
  rewrite !length_map, Hd, length_take_le in Hz by lia.
  set (row' := map Some (take j q) ++ map Some (drop (S j) q) ++ z :: tl) in *.
  set (k1 := set_priority_q (<[pr := row']> (priority_q k)) k) in *.
  rewrite (bind_Ret _ _ _ tt k1).
  2:{ unfold for_each, for_range.
      replace (Z.to_nat (Z.of_nat (length q) - 1 - Z.of_nat j)) with (length q - S j)%nat by lia.
      by rewrite (bind_Ret _ _ _ _ _ Hz). }
  rewrite (bind_Ret _ _ _ _ _ (marker_at_eq k1 pr _ Hm)).
  rewrite (bind_Ret _ _ _ _ _ (set_marker_at_eq k1 pr _ _ Hm)).
  eexists. split; [done|]. split; [by eexists _, _|].
  replace (Z.of_nat (length q) - 1) with (Z.of_nat (length (take j q ++ drop (S j) q)))
    by (rewrite length_app, Hd, length_take_le; lia).
  apply (rep_update k Q pr q); [done..|]. split_and!; [|done| |].
  - rewrite length_app, length_map in Hl. unfold row'.
    rewrite !length_app, !length_map, Hd, length_take_le by lia. simpl. lia.
  - exists (z :: tl). unfold row'. by rewrite map_app, <- app_assoc.
  - rewrite Hsplit in Hb. apply Forall_app in Hb as [? Hb]. inv Hb. by apply Forall_app.
Qed.

Lemma remove_none k Q pr q p :
  rep k Q -> Q !! pr = Some q -> (p < length (ptable k))%nat ->
  has_pid k (pid_of k p) q = false ->
  remove_process_from_queue p (Z.of_nat pr) k = Ret (-1) k.
Proof.
  intros Hrep Hq Hp Hhas. destruct (rep_lookup _ _ _ _ Hrep Hq) as (row & Hrow & Hm & _).
  unfold remove_process_from_queue. rewrite (bind_Ret _ _ _ _ _ (marker_at_eq _ _ _ Hm)).
  pose proof (scan_none k Q pr q p (remove_search p (Z.of_nat pr)) Z.of_nat Hrep Hq Hhas
                (fun i x Hi => remove_body k Q pr q p i x Hrep Hq Hp Hi)) as Hscan.
  by rewrite (bind_Ret _ _ _ _ _ Hscan).
Qed.

(** * The specification of the queues

    What the code promises its callers: each level is a list of distinct
    slots; adding appends unless the pid is there; removing drops the first
    slot with the pid. *)
Definition qinv (k : kst E) (Q : list (list nat)) : Prop :=
  length (ptable k) = Z.to_nat NPROC /\ rep k Q /\ Forall (@NoDup nat) Q.

Definition level (Q : list (list nat)) (pr : Z) : list nat := default [] (Q !! Z.to_nat pr).

Definition add_spec (k : kst E) (p : nat) (pr : Z) (Q : list (list nat)) : Z * list (list nat) :=
  if has_pid k (pid_of k p) (level Q pr) then (-1, Q)
  else (1, <[Z.to_nat pr := level Q pr ++ [p]]> Q).

Definition remove_spec (k : kst E) (p : nat) (pr : Z) (Q : list (list nat)) : Z * list (list nat) :=
  if has_pid k (pid_of k p) (level Q pr)
  then (1, <[Z.to_nat pr := remove_pid k (pid_of k p) (level Q pr)]> Q)
  else (-1, Q).

Lemma has_pid_elem k p q : p ∈ q -> has_pid k (pid_of k p) q = true.
Proof.
  intros Hp%list_elem_of_In. apply existsb_exists. exists p. split; [done|]. apply Z.eqb_refl.
Qed.

Lemma remove_pid_sublist k x q : remove_pid k x q `sublist_of` q.
Proof.
  induction q as [|a q IH]; simpl; [done|].
  destruct (pid_of k a =? x); [by apply sublist_cons|by apply sublist_skip].
Qed.

Lemma remove_pid_snoc k p q :
  has_pid k (pid_of k p) q = false -> remove_pid k (pid_of k p) (q ++ [p]) = q.
Proof.
  induction q as [|a q IH]; simpl.
  - by rewrite Z.eqb_refl.
  - intros [Ha H]%orb_false_iff. rewrite Ha. f_equal. auto.
Qed.

Lemma level_lookup Q k pr : rep k Q -> 0 <= pr < PLEVELS -> Q !! Z.to_nat pr = Some (level Q pr).
Proof. intros Hrep Hpr. destruct (rep_level _ _ _ Hrep Hpr) as [q Hq]. unfold level. by rewrite Hq. Qed.

Lemma only_queues_pids k k' : only_queues k k' -> pid_of k' = pid_of k.
Proof. by intros (q & m & ->). Qed.

Lemma only_queues_has k k' x q : only_queues k k' -> has_pid k' x q = has_pid k x q.
Proof. intros H. unfold has_pid. by rewrite (only_queues_pids _ _ H). Qed.

Lemma only_queues_refl k : only_queues k k.
Proof. exists (priority_q k), (marker k). by destruct k. Qed.

Lemma add_ok k Q p pr :
  qinv k Q -> (p < Z.to_nat NPROC)%nat -> 0 <= pr < PLEVELS ->
  exists k', add_process_to_queue p pr k = Ret (add_spec k p pr Q).1 k'
    /\ only_queues k k' /\ qinv k' (add_spec k p pr Q).2.
Proof.
  intros (Hlen & Hrep & Hnd) Hp Hpr. pose proof (level_lookup _ _ _ Hrep Hpr) as Hq.
  assert (Z.of_nat (Z.to_nat pr) = pr) as Hz by lia.
  pose proof (proj1 (Forall_lookup _ _) Hnd _ _ Hq) as Hndq.
  unfold add_spec. destruct (has_pid k (pid_of k p) (level Q pr)) eqn:Hhas; simpl.
  - exists k. split; [rewrite <- Hz; eapply add_found; eauto; lia|]. split; [apply only_queues_refl|done].
  - assert (p ∉ level Q pr) as Hnin by (intros Hin%(has_pid_elem k); congruence).
    destruct (add_new k Q (Z.to_nat pr) (level Q pr) p) as (k' & Hadd & Hoq & Hrep');
      [done|done|lia|done| |].
    { destruct (rep_lookup _ _ _ _ Hrep Hq) as (_ & _ & _ & _ & _ & _ & Hb).
      eapply NoDup_bounded_lt; eauto. intros y Hy. rewrite Forall_forall in Hb.
      rewrite <- Hlen. by apply Hb. }
    rewrite Hz in *. exists k'. split; [done|]. split; [done|].
    split; [by destruct Hoq as (? & ? & ->)|]. split; [done|].
    apply Forall_insert; [done|]. apply NoDup_app. split_and!; [done| |apply NoDup_singleton].
    intros x Hx ->%list_elem_of_singleton. done.
Qed.

Lemma remove_ok k Q p pr :
  qinv k Q -> (p < Z.to_nat NPROC)%nat -> 0 <= pr < PLEVELS ->
  exists k', remove_process_from_queue p pr k = Ret (remove_spec k p pr Q).1 k'
    /\ only_queues k k' /\ qinv k' (remove_spec k p pr Q).2.
Proof.
  intros (Hlen & Hrep & Hnd) Hp Hpr. pose proof (level_lookup _ _ _ Hrep Hpr) as Hq.
  assert (Z.of_nat (Z.to_nat pr) = pr) as Hz by lia.
  pose proof (proj1 (Forall_lookup _ _) Hnd _ _ Hq) as Hndq.
  unfold remove_spec. destruct (has_pid k (pid_of k p) (level Q pr)) eqn:Hhas; simpl.
  - destruct (remove_found k Q (Z.to_nat pr) (level Q pr) p) as (k' & Hrm & Hoq & Hrep');
      [done|done|lia|done|].
    rewrite Hz in *. exists k'. split; [done|]. split; [done|].
    split; [by destruct Hoq as (? & ? & ->)|]. split; [done|].
    apply Forall_insert; [done|]. eapply sublist_NoDup; [done|apply remove_pid_sublist].
  - exists k. split; [rewrite <- Hz; eapply remove_none; eauto; lia|]. split; [apply only_queues_refl|done].
Qed.

End Queue.

(** A kernel state with an empty process table, for the examples. *)
Definition proc0 : proc :=
  Proc 0 0 0 UNUSED 0 None 0 0 0 0 (replicate 16 0) 0 (replicate 16 0) 0.

Definition mach0 : machine :=
  Machine [Cpu 0 0 0 0 FL_IF None] 0 {[ptable_lock := Spinlock 0 "ptable" None]}.

Definition kst0 : kst unit :=
  Kst mach0 (replicate 64 proc0) (replicate 5 (replicate 64 None)) (replicate 5 0)
    None 1 ∅ ∅ ∅ true 0 [] tt.

Lemma qinv0 : qinv kst0 (replicate 5 []).
Proof.
  split; [done|]. split; [split_and!; try done|].
  - intros pr q row m Hq Hrow Hm. apply lookup_replicate_1 in Hq as [-> _].
    apply lookup_replicate_1 in Hrow as [-> _]. apply lookup_replicate_1 in Hm as [-> _].
    split_and!; try done. by exists (replicate 64 None).
  - apply Forall_replicate, NoDup_nil_2.
Qed.

(** C31: on queues of distinct slots, [add_process_to_queue] is the
    specification: it reports -1 and changes nothing when a queued process
    has the pid, otherwise appends the slot; it never reads or writes outside
    the row (no level can ever hold more than NPROC entries, because a slot
    is never queued twice at one level), changes nothing but the queues, and
    keeps the entries distinct. *)
Theorem add_process_to_queue_refines {E} (k : kst E) Q p pr :
  qinv k Q -> (p < Z.to_nat NPROC)%nat -> 0 <= pr < PLEVELS ->
  exists k', add_process_to_queue p pr k = Ret (add_spec k p pr Q).1 k'
    /\ only_queues k k' /\ qinv k' (add_spec k p pr Q).2.
Proof. apply add_ok. Qed.

Lemma add_process_to_queue_refines_witness :
  exists k', add_process_to_queue 3 2 kst0 = Ret 1 k' /\ only_queues kst0 k'
    /\ qinv k' [[]; []; [3%nat]; []; []].
Proof.
  exact (add_process_to_queue_refines kst0 (replicate 5 []) 3 2 qinv0
           ltac:(vm_compute; lia) ltac:(vm_compute; split; done || lia)).
Defined.

(** Removing a process just added restores every queue, whatever the
    level, and reports success; in between the process is last in its level. *)
Theorem remove_after_add {E} (k : kst E) Q p pr :
  qinv k Q -> (p < Z.to_nat NPROC)%nat -> 0 <= pr < PLEVELS ->
  has_pid k (pid_of k p) (level Q pr) = false ->
  exists k1 k2,
    add_process_to_queue p pr k = Ret 1 k1 /\ qinv k1 (<[Z.to_nat pr := level Q pr ++ [p]]> Q)
    /\ remove_process_from_queue p pr k1 = Ret 1 k2 /\ qinv k2 Q /\ only_queues k k2.
Proof.
  intros Hi Hp Hpr Hhas. pose proof Hi as (_ & Hrep & _).
  pose proof (level_lookup _ _ _ Hrep Hpr) as Hq.
  destruct (add_ok k Q p pr Hi Hp Hpr) as (k1 & Hadd & Hoq1 & Hi1).
  unfold add_spec in *. rewrite Hhas in *. simpl in *. exists k1.
  destruct (remove_ok k1 _ p pr Hi1 Hp Hpr) as (k2 & Hrm & Hoq2 & Hi2).
  assert (level (<[Z.to_nat pr := level Q pr ++ [p]]> Q) pr = level Q pr ++ [p]) as Hl.
  { unfold level at 1. by rewrite list_lookup_insert_eq by (by eapply lookup_lt_Some). }
  unfold remove_spec in *. rewrite Hl in *. rewrite has_pid_elem in * by set_solver.
  simpl in *. exists k2. split_and!; try done.
  - rewrite list_insert_insert_eq in Hi2.
    rewrite remove_pid_snoc in Hi2
      by (rewrite (only_queues_has k k1), (only_queues_pids k k1) by done; done).
    by rewrite list_insert_id in Hi2.
  - destruct Hoq1 as (q1 & m1 & ->), Hoq2 as (q2 & m2 & ->). by exists q2, m2.
Qed.

Lemma remove_after_add_witness :
  exists k1 k2,
    add_process_to_queue 7 4 kst0 = Ret 1 k1 /\ qinv k1 [[]; []; []; []; [7%nat]]
    /\ remove_process_from_queue 7 4 k1 = Ret 1 k2 /\ qinv k2 (replicate 5 [])
    /\ only_queues kst0 k2.
Proof.
  exact (remove_after_add kst0 (replicate 5 []) 7 4 qinv0 ltac:(vm_compute; lia)
           ltac:(vm_compute; split; done || lia) eq_refl).
Defined.

(** The queues do not depend on the rest of the state. *)
Lemma qinv_frame {E E'} (k : kst E) (k' : kst E') Q :
  length (ptable k') = length (ptable k) -> priority_q k' = priority_q k ->
  marker k' = marker k -> qinv k Q -> qinv k' Q.
Proof.
  intros Ht Hp Hm (Hlen & Hrep & Hnd). unfold qinv, rep in *.
  by rewrite Ht, Hp, Hm.
Qed.
#[export] Hint Resolve qinv_frame : kernel.

(** Levels after an update of one of them. *)
Lemma level_insert {E} (k : kst E) Q pr pr' q :
  rep k Q -> 0 <= pr < PLEVELS -> 0 <= pr' < PLEVELS ->
  level (<[Z.to_nat pr := q]> Q) pr' = if pr' =? pr then q else level Q pr'.
Proof.
  intros (HQ & _) Hpr Hpr'. unfold level. unfold PLEVELS in *.
  destruct (Z.eqb_spec pr' pr) as [->|Hne].
  - rewrite list_lookup_insert_eq; [done|]. rewrite HQ. lia.
  - rewrite list_lookup_insert_ne; [done|lia].
Qed.

Lemma level_add {E} (k : kst E) Q p pr pr' :
  rep k Q -> 0 <= pr < PLEVELS -> 0 <= pr' < PLEVELS ->
  level (add_spec k p pr Q).2 pr'
    = if (pr' =? pr) && negb (has_pid k (pid_of k p) (level Q pr)) then level Q pr ++ [p]
      else level Q pr'.
Proof.
  intros Hrep Hpr Hpr'. unfold add_spec.
  destruct (has_pid k (pid_of k p) (level Q pr)); simpl; [by rewrite andb_false_r|].
  by rewrite (level_insert k), andb_true_r.
Qed.

Lemma level_remove {E} (k : kst E) Q p pr pr' :
  rep k Q -> 0 <= pr < PLEVELS -> 0 <= pr' < PLEVELS ->
  level (remove_spec k p pr Q).2 pr'
    = if pr' =? pr then remove_pid k (pid_of k p) (level Q pr) else level Q pr'.
Proof.
  intros Hrep Hpr Hpr'. unfold remove_spec.
  destruct (has_pid k (pid_of k p) (level Q pr)) eqn:Hh; simpl.
  - by rewrite (level_insert k).
  - rewrite remove_pid_none by done. by destruct (Z.eqb_spec pr' pr) as [->|].
Qed.

(** The queue specifications depend on the state through the pids only. *)
Section Pids.
Context {E : Type} (k k' : kst E).
Hypothesis same_pids : forall i, pid_of k' i = pid_of k i.

Lemma has_pid_ext x q : has_pid k' x q = has_pid k x q.
Proof.
  unfold has_pid. induction q as [|i q IH]; simpl; [done|]. by rewrite same_pids, IH.
Qed.

Lemma remove_pid_ext x q : remove_pid k' x q = remove_pid k x q.
Proof. induction q as [|i q IH]; simpl; [done|]. by rewrite same_pids, IH. Qed.

Lemma add_spec_ext p pr Q : add_spec k' p pr Q = add_spec k p pr Q.
Proof. unfold add_spec. by rewrite same_pids, has_pid_ext. Qed.

Lemma remove_spec_ext p pr Q : remove_spec k' p pr Q = remove_spec k p pr Q.
Proof. unfold remove_spec. by rewrite same_pids, has_pid_ext, remove_pid_ext. Qed.
End Pids.

(** An update of a slot that keeps its pid. *)
Lemma pid_of_update {E} (k : kst E) i p p' j :
  ptable k !! i = Some p -> p_pid p' = p_pid p ->
  pid_of (set_ptable (<[i := p']> (ptable k)) k) j = pid_of k j.
Proof.
  intros Hi Hp. unfold pid_of. simpl. destruct (decide (i = j)) as [->|Hne].
  - rewrite list_lookup_insert_eq, Hi; [done|]. by eapply lookup_lt_Some.
  - by rewrite list_lookup_insert_ne.
Qed.

Lemma has_pid_ext_in {E} (k k' : kst E) x q :
  (forall j, j ∈ q -> pid_of k' j = pid_of k j) -> has_pid k' x q = has_pid k x q.
Proof.
  unfold has_pid. induction q as [|i q IH]; simpl; intros Heq; [done|].
  rewrite Heq by set_solver. f_equal. apply IH. set_solver.
Qed.
