(* ===== verification/Proc.v ===== *)
(** The process layer (src/xv6-public/proc.c): allocation, fork, exit, wait,
    the two schedulers, sleep and wakeup, kill, nice and the listings.

    Every function of proc.c is a definition of the same name in the monad of
    [Prelude] over [kst].  [custom] says whether the macro CUSTOM_SCHEDULER is
    defined: the priority queues and the priority scheduler are compiled when
    it is not.  Components the process layer calls are used through the two
    classes below; [swtch] gives the processor away and is resumed later.
    What runs between, and on the other CPUs, is whatever the resumption state
    says; interleaving inside the sections that hold ptable.lock is excluded
    by the lock, and preemption between two such sections of one function is
    not modelled. *)
From S2P Require Import Prelude Spinlock ProcState Queue CString.

(** The memory management the process layer calls (kalloc.c, vm.c). *)
Class MemOps (E : Type) := {
  kalloc : M E Z;
  kfree : Z -> M E unit;
  setupkvm : M E Z;
  inituvm : Z -> M E unit;
  copyuvm : Z -> Z -> M E Z;
  allocuvm : Z -> Z -> Z -> M E Z;
  deallocuvm : Z -> Z -> Z -> M E Z;
  freevm : Z -> M E unit;
  switchuvm : nat -> M (kst E) unit;
  switchkvm : M (kst E) unit
}.

(** The file system it calls (file.c, fs.c, log.c).  These may sleep and wake
    other processes, so they act on the whole kernel state. *)
Class FileOps (E : Type) := {
  filedup : Z -> M (kst E) Z;
  fileclose : Z -> M (kst E) unit;
  idup : Z -> M (kst E) Z;
  iput : Z -> M (kst E) unit;
  begin_op : M (kst E) unit;
  end_op : M (kst E) unit;
  namei : list Z -> M (kst E) Z;
  iinit : Z -> M (kst E) unit;
  initlog : Z -> M (kst E) unit
}.

Section Proc.
Context {E : Type} `{!MemOps E, !FileOps E}.
Variable custom : bool.
Notation K := (M (kst E)).

Definition machM {A} (c : M machine A) : K A := zoom mach set_mach c.
Definition extM {A} (c : M E A) : K A := zoom ext set_ext c.

Definition cprintf (f : string) (l : list carg) : K unit :=
  modify (fun k => set_out (out k ++ [Cprintf f l]) k).

(** The per-CPU variable [proc]. *)
Definition proc_ : K nat :=
  c <- machM cpu_ ;; get_opt "proc" (cpu_proc c).

Definition tf_at (a : Z) : K trapframe :=
  t <- gets tfs ;; get_opt "trapframe" (t !! a).

Definition put_tf (a : Z) (t : trapframe) : K unit :=
  modify (fun k => set_tfs (<[a := t]> (tfs k)) k).

Definition put_ctx (a : Z) (c : context) : K unit :=
  modify (fun k => set_ctxs (<[a := c]> (ctxs k)) k).

Definition put_word (a v : Z) : K unit :=
  modify (fun k => set_words (<[a := v]> (words k)) k).

(** The queue updates are compiled only without CUSTOM_SCHEDULER. *)
Definition ifndef_custom (c : K unit) : K unit := if custom then ret tt else c.

Definition acquire_ptable : K unit := machM (acquire ptable_lock).
Definition release_ptable : K unit := machM (release ptable_lock).

(** First slot of the table satisfying a test. *)
Definition find_proc (f : proc -> bool) : K (option nat) :=
  for_range 0 NPROC (fun i =>
    p <- proc_at (Z.to_nat i) ;;
    ret (if f p then Some (Z.to_nat i) else None)).

Definition pinit : K unit := machM (initlock ptable_lock "ptable").

Definition allocproc : K (option nat) :=
  acquire_ptable ;;
  r <- find_proc (fun p => bool_decide (p_state p = UNUSED)) ;;
  match r with
  | None => release_ptable ;; ret None
  | Some p =>
      upd_proc p (set_p_state EMBRYO) ;;
      n <- gets nextpid ;;
      n' <- checked (n + 1) ;;
      modify (set_nextpid n') ;;
      upd_proc p (set_p_pid n) ;;
      upd_proc p (set_p_priority 3) ;;
      release_ptable ;;
      ks <- extM kalloc ;;
      upd_proc p (set_p_kstack ks) ;;
      if ks =? 0 then upd_proc p (set_p_state UNUSED) ;; ret None else
      let sp := ks + KSTACKSIZE in
      let sp := sp - sizeof_trapframe in
      upd_proc p (set_p_tf sp) ;;
      let sp := sp - 4 in
      put_word sp trapret_addr ;;
      let sp := sp - sizeof_context in
      upd_proc p (set_p_context sp) ;;
      put_ctx sp (Context 0 0 0 0 0) ;;
      put_ctx sp (Context 0 0 0 0 forkret_addr) ;;
      ret (Some p)
  end.

(** [myproc] of the executing CPU, found through its local APIC id. *)
Definition mycpu : M machine nat :=
  fl <- readeflags ;;
  if negb (Z.land fl FL_IF =? 0) then panic "mycpu called with interrupts enabled\n" else
  me <- cpu_ ;;
  cs <- gets cpus ;;
  r <- for_range 0 (Z.of_nat (length cs)) (fun i =>
         c <- get_opt "cpus" (arr_get cs i) ;;
         ret (if apicid c =? lapic_id me then Some (Z.to_nat i) else None)) ;;
  match r with Some i => ret i | None => panic "unknown apicid\n" end.

Definition myproc : K (option nat) :=
  machM (
    pushcli ;;
    i <- mycpu ;;
    cs <- gets cpus ;;
    c <- get_opt "cpus" (cs !! i) ;;
    popcli ;;
    ret (cpu_proc c)).

(** Give the processor to the scheduler; resumed by a later swtch back. *)
Definition swtch : K unit := fun k => Switch k (fun k' => Ret tt k').

Definition sched : K unit :=
  h <- machM (holding ptable_lock) ;;
  if negb h then panic "sched ptable.lock" else
  c <- machM cpu_ ;;
  if negb (ncli c =? 1) then panic "sched locks" else
  me <- proc_ ;;
  p <- proc_at me ;;
  if bool_decide (p_state p = RUNNING) then panic "sched running" else
  fl <- machM readeflags ;;
  if negb (Z.land fl FL_IF =? 0) then panic "sched interruptible" else
  c <- machM cpu_ ;;
  let intena := intena c in
  swtch ;;
  machM (upd_cpu (set_intena intena)).

Definition unable (p : nat) : K unit :=
  x <- proc_at p ;; cprintf "Unable to create process with pid=%d\n" [CInt (p_pid x)].

(** Body of the loop of wakeup1 for slot [i]. *)
Definition wakeup1_body (chan : Z) (i : Z) : K unit :=
  let p := Z.to_nat i in
  x <- proc_at p ;;
  if bool_decide (p_state x = SLEEPING) && (p_chan x =? chan) then
    upd_proc p (set_p_state RUNNABLE) ;;
    ifndef_custom (
      x <- proc_at p ;;
      res <- add_process_to_queue p (p_priority x - 1) ;;
      if res =? -1 then unable p else ret tt)
  else ret tt.

Definition wakeup1 (chan : Z) : K unit := for_each 0 NPROC (wakeup1_body chan).

Definition wakeup (chan : Z) : K unit :=
  acquire_ptable ;; wakeup1 chan ;; release_ptable.

(** The address wakeup1 is given for a process pointer. *)
Definition chan_of (p : option nat) : Z :=
  match p with Some i => proc_addr i | None => 0 end.

Definition exit_reparent (me : nat) (i : Z) : K unit :=
  let p := Z.to_nat i in
  x <- proc_at p ;;
  if bool_decide (p_parent x = Some me) then
    ip <- gets initproc ;;
    upd_proc p (set_p_parent ip) ;;
    if bool_decide (p_state x = ZOMBIE) then wakeup1 (chan_of ip) else ret tt
  else ret tt.

Definition exit_close (me : nat) (fd : Z) : K unit :=
  x <- proc_at me ;;
  f <- get_opt "ofile" (arr_get (p_ofile x) fd) ;;
  if f =? 0 then ret tt else
  fileclose f ;;
  x <- proc_at me ;;
  l <- get_opt "ofile" (arr_set (p_ofile x) fd 0) ;;
  upd_proc me (set_p_ofile l).

(** exit from the point where it takes ptable.lock. *)
Definition exit_tail {A} (me : nat) : K A :=
  acquire_ptable ;;
  x <- proc_at me ;;
  wakeup1 (chan_of (p_parent x)) ;;
  for_each 0 NPROC (exit_reparent me) ;;
  upd_proc me (set_p_state ZOMBIE) ;;
  sched ;;
  panic "zombie exit".

Definition exit {A} : K A :=
  me <- proc_ ;;
  ip <- gets initproc ;;
  if bool_decide (ip = Some me) then panic "init exiting" else
  for_each 0 NOFILE (exit_close me) ;;
  begin_op ;;
  x <- proc_at me ;;
  iput (p_cwd x) ;;
  end_op ;;
  upd_proc me (set_p_cwd 0) ;;
  exit_tail me.

(** Put a process made RUNNABLE on its queue; the caller exits if it cannot. *)
Definition enqueue_or_exit (p : nat) : K unit :=
  ifndef_custom (
    x <- proc_at p ;;
    res <- add_process_to_queue p (p_priority x - 1) ;;
    if res =? -1 then unable p ;; release_ptable ;; exit else ret tt).

(** safestrcpy between two name arrays. *)
Definition copy_name (dst src : list Z) : list Z :=
  region (safestrcpy (place dst 0x100 (place src 0x1000 mem0)) 0x100 0x1000 16) 0x100 16.

Definition SEG_UCODE : Z := 4.
Definition SEG_UDATA : Z := 5.
Definition DPL_USER : Z := 3.

Definition userinit : K unit :=
  r <- allocproc ;;
  modify (set_initproc r) ;;
  p <- get_opt "null proc" r ;;
  pg <- extM setupkvm ;;
  upd_proc p (set_p_pgdir pg) ;;
  if pg =? 0 then panic "userinit: out of memory?" else
  extM (inituvm pg) ;;
  upd_proc p (set_p_sz PGSIZE) ;;
  x <- proc_at p ;;
  let ucode := Z.lor (Z.shiftl SEG_UCODE 3) DPL_USER in
  let udata := Z.lor (Z.shiftl SEG_UDATA 3) DPL_USER in
  put_tf (p_tf x) (Trapframe 0 0 0 0 0 0 0 0 0 0 udata udata 0 0 0 ucode FL_IF PGSIZE udata) ;;
  upd_proc p (fun x => set_p_name (copy_name (p_name x) (bytes "initcode")) x) ;;
  d <- namei (bytes "/") ;;
  upd_proc p (set_p_cwd d) ;;
  acquire_ptable ;;
  upd_proc p (set_p_state RUNNABLE) ;;
  enqueue_or_exit p ;;
  release_ptable.

Definition growproc (n : Z) : K Z :=
  me <- proc_ ;;
  x <- proc_at me ;;
  let sz := p_sz x in
  r <- (if n >? 0 then
          s <- extM (allocuvm (p_pgdir x) sz (u32 (sz + n))) ;;
          ret (if s =? 0 then None else Some s)
        else if n <? 0 then
          s <- extM (deallocuvm (p_pgdir x) sz (u32 (sz + n))) ;;
          ret (if s =? 0 then None else Some s)
        else ret (Some sz)) ;;
  match r with
  | None => ret (-1)
  | Some s =>
      upd_proc me (set_p_sz s) ;;
      switchuvm me ;;
      ret 0
  end.

(** [np->ofile[i] = filedup(proc->ofile[i])] when there is a file. *)
Definition fork_dup (me np : nat) (i : Z) : K unit :=
  x <- proc_at me ;;
  f <- get_opt "ofile" (arr_get (p_ofile x) i) ;;
  if f =? 0 then ret tt else
  g <- filedup f ;;
  y <- proc_at np ;;
  l <- get_opt "ofile" (arr_set (p_ofile y) i g) ;;
  upd_proc np (set_p_ofile l).

Definition fork : K Z :=
  r <- allocproc ;;
  match r with
  | None => ret (-1)
  | Some np =>
      me <- proc_ ;;
      x <- proc_at me ;;
      pg <- extM (copyuvm (p_pgdir x) (p_sz x)) ;;
      upd_proc np (set_p_pgdir pg) ;;
      if pg =? 0 then
        y <- proc_at np ;;
        extM (kfree (p_kstack y)) ;;
        upd_proc np (set_p_kstack 0) ;;
        upd_proc np (set_p_state UNUSED) ;;
        ret (-1)
      else
      x <- proc_at me ;;
      upd_proc np (set_p_sz (p_sz x)) ;;
      upd_proc np (set_p_parent (Some me)) ;;
      y <- proc_at np ;;
      t <- tf_at (p_tf x) ;;
      put_tf (p_tf y) t ;;
      put_tf (p_tf y) (set_tf_eax 0 t) ;;
      for_each 0 NOFILE (fork_dup me np) ;;
      x <- proc_at me ;;
      d <- idup (p_cwd x) ;;
      upd_proc np (set_p_cwd d) ;;
      x <- proc_at me ;;
      upd_proc np (fun y => set_p_name (copy_name (p_name y) (p_name x)) y) ;;
      y <- proc_at np ;;
      let pid := p_pid y in
      acquire_ptable ;;
      upd_proc np (set_p_state RUNNABLE) ;;
      enqueue_or_exit np ;;
      release_ptable ;;
      ret pid
  end.

Definition sleep (chan lk : Z) : K unit :=
  c <- machM cpu_ ;;
  match cpu_proc c with
  | None => panic "sleep"
  | Some me =>
      if lk =? 0 then panic "sleep without lk" else
      (if negb (lk =? ptable_lock) then
         acquire_ptable ;; machM (release lk)
       else ret tt) ;;
      upd_proc me (set_p_chan chan) ;;
      upd_proc me (set_p_state SLEEPING) ;;
      sched ;;
      me' <- proc_ ;;
      upd_proc me' (set_p_chan 0) ;;
      if negb (lk =? ptable_lock) then
        release_ptable ;; machM (acquire lk)
      else ret tt
  end.

(** A zombie child is freed; the slot's pid is 0 when its queue is searched. *)
Definition reap (p : nat) : K Z :=
  x <- proc_at p ;;
  let pid := p_pid x in
  extM (kfree (p_kstack x)) ;;
  upd_proc p (set_p_kstack 0) ;;
  x <- proc_at p ;;
  extM (freevm (p_pgdir x)) ;;
  upd_proc p (set_p_pid 0) ;;
  upd_proc p (set_p_parent None) ;;
  upd_proc p (fun x => set_p_name (<[O := 0]> (p_name x)) x) ;;
  upd_proc p (set_p_killed 0) ;;
  upd_proc p (set_p_state UNUSED) ;;
  ifndef_custom (
    x <- proc_at p ;;
    _ <- remove_process_from_queue p (p_priority x - 1) ;; ret tt) ;;
  release_ptable ;;
  ret pid.

(** The table scan of one round of wait, with the local variable havekids. *)
Definition wait_body (me : nat) (i : Z) (havekids : bool) : K (Z + bool) :=
  let p := Z.to_nat i in
  x <- proc_at p ;;
  if negb (bool_decide (p_parent x = Some me)) then ret (inr havekids) else
  if bool_decide (p_state x = ZOMBIE) then pid <- reap p ;; ret (inl pid)
  else ret (inr true).

Definition wait_scan (me : nat) : K (Z + bool) :=
  for_acc (Z.to_nat NPROC) 0 false (wait_body me).

(** [fuel] bounds the number of times wait may sleep. *)
Fixpoint wait_loop (fuel : nat) : K Z :=
  match fuel with
  | O => fun k => OutOfFuel k
  | S f =>
      me <- proc_ ;;
      r <- wait_scan me ;;
      match r with
      | inl pid => ret pid
      | inr havekids =>
          x <- proc_at me ;;
          if negb havekids || negb (p_killed x =? 0) then release_ptable ;; ret (-1)
          else sleep (proc_addr me) ptable_lock ;; wait_loop f
      end
  end.

Definition wait (fuel : nat) : K Z := acquire_ptable ;; wait_loop fuel.

(** * Schedulers *)

(** [cpus[c].proc = v] *)
Definition set_proc_of (c : nat) (v : option nat) : M machine unit :=
  cs <- gets cpus ;;
  x <- get_opt "cpus" (cs !! c) ;;
  modify (fun m => set_cpus (<[c := set_cpu_proc v x]> (cpus m)) m).

(** Run process [q] on CPU [c] until it comes back. *)
Definition run_proc (c q : nat) : K unit :=
  machM (set_proc_of c (Some q)) ;;
  switchuvm q ;;
  upd_proc q (set_p_state RUNNING) ;;
  swtch ;;
  switchkvm ;;
  machM (set_proc_of c None).

(** What both schedulers do before their loop. *)
Definition scheduler_start : K nat :=
  c <- machM mycpu ;; machM (set_proc_of c None) ;; ret c.

(** The search for the first level in use; its first entry is taken off. *)
Definition pick_level (i : Z) : K (option nat) :=
  m <- marker_at i ;;
  if m >? 0 then
    n <- node_at i 0 ;;
    p <- get_opt "null node" n ;;
    _ <- remove_process_from_queue p i ;;
    ret (Some p)
  else ret None.

Definition pick : K (option nat) := for_range 0 PLEVELS pick_level.

(** One round of the priority scheduler; the local variable [p] keeps the
    process of an earlier round when every level is empty. *)
Definition scheduler_priority (c : nat) (p : option nat) : K (option nat) :=
  machM sti ;;
  acquire_ptable ;;
  r <- pick ;;
  let p := match r with Some q => Some q | None => p end in
  match p with
  | None => ret tt
  | Some q =>
      x <- proc_at q ;;
      if bool_decide (p_state x = RUNNABLE) then run_proc c q else ret tt
  end ;;
  release_ptable ;;
  ret p.

(** One round of the round-robin scheduler: a sweep of the table. *)
Definition scheduler_rr (c : nat) : K unit :=
  machM sti ;;
  acquire_ptable ;;
  for_each 0 NPROC (fun i =>
    let q := Z.to_nat i in
    x <- proc_at q ;;
    if negb (bool_decide (p_state x = RUNNABLE)) then ret tt else run_proc c q) ;;
  release_ptable.

(** [rounds] rounds of the scheduler compiled in. *)
Fixpoint scheduler_rounds (rounds : nat) (c : nat) (p : option nat) : K unit :=
  match rounds with
  | O => fun k => OutOfFuel k
  | S r =>
      if custom then scheduler_rr c ;; scheduler_rounds r c p
      else p <- scheduler_priority c p ;; scheduler_rounds r c p
  end.

Definition scheduler (rounds : nat) : K unit :=
  c <- scheduler_start ;; scheduler_rounds rounds c None.

Definition yield : K unit :=
  acquire_ptable ;;
  me <- proc_ ;;
  upd_proc me (set_p_state RUNNABLE) ;;
  ifndef_custom (
    q <- myproc ;;
    q <- get_opt "myproc" q ;;
    q' <- myproc ;;
    q' <- get_opt "myproc" q' ;;
    x <- proc_at q' ;;
    res <- add_process_to_queue q (p_priority x - 1) ;;
    if res =? -1 then
      q <- myproc ;; q <- get_opt "myproc" q ;; unable q
    else ret tt) ;;
  sched ;;
  release_ptable.

Definition forkret : K unit :=
  release_ptable ;;
  f <- gets forkret_first ;;
  if f : bool then
    modify (set_forkret_first false) ;;
    iinit ROOTDEV ;;
    initlog ROOTDEV
  else ret tt.

(** * kill, nice, listings *)

Definition kill (pid : Z) : K Z :=
  acquire_ptable ;;
  r <- find_proc (fun x => p_pid x =? pid) ;;
  match r with
  | Some p =>
      upd_proc p (set_p_killed 1) ;;
      x <- proc_at p ;;
      (if bool_decide (p_state x = SLEEPING) then upd_proc p (set_p_state RUNNABLE) else ret tt) ;;
      enqueue_or_exit p ;;
      release_ptable ;;
      ret 0
  | None => release_ptable ;; ret (-1)
  end.

Definition nice (pid priority : Z) : K Z :=
  (if (priority <? 1) || (priority >? 5) then
     cprintf "Error: Priority not within range(1-5)\n" [] ;; exit
   else ret tt) ;;
  acquire_ptable ;;
  r <- find_proc (fun x => p_pid x =? pid) ;;
  match r with
  | None =>
      release_ptable ;;
      cprintf "No process with Pid=%d\n" [CInt pid] ;;
      exit
  | Some p =>
      release_ptable ;;
      x <- proc_at p ;;
      let old_priority := p_priority x in
      upd_proc p (set_p_priority priority) ;;
      _ <- remove_process_from_queue p old_priority ;;
      _ <- add_process_to_queue p priority ;;
      m <- checked (pid * MOD) ;;
      checked (m + old_priority)
  end.

Definition cps_line (i : Z) : K unit :=
  x <- proc_at (Z.to_nat i) ;;
  let l := [CStr (p_name x); CInt (p_pid x); CInt (p_priority x)] in
  match p_state x with
  | SLEEPING => cprintf "%s \t %d \t SLEEPING \t %d \n " l
  | RUNNING => cprintf "%s \t %d \t RUNNING \t %d \n " l
  | RUNNABLE => cprintf "%s \t %d \t RUNNABLE \t %d \n " l
  | _ => ret tt
  end.

Definition cps : K Z :=
  machM sti ;;
  acquire_ptable ;;
  cprintf "name \t pid \t state \t priority \n" [] ;;
  for_each 0 NPROC cps_line ;;
  release_ptable ;;
  ret 22.

Definition KERNBASE : Z := 0x80000000.

(** The %ebp chain from the saved frame pointer [ebp], at most [n] frames. *)
Fixpoint callerpcs (n : nat) (ebp : Z) : K (list Z) :=
  match n with
  | O => ret []
  | S n' =>
      if (ebp =? 0) || (ebp <? KERNBASE) || (ebp =? 0xffffffff) then ret (replicate n 0) else
      w <- gets words ;;
      pc <- get_opt "stack" (w !! (ebp + 4)) ;;
      nxt <- get_opt "stack" (w !! ebp) ;;
      l <- callerpcs n' nxt ;;
      ret (pc :: l)
  end.

Definition getcallerpcs (v : Z) : K (list Z) := callerpcs 10 (v - 8).

Definition state_name (s : procstate) : string :=
  match s with
  | UNUSED => "unused" | EMBRYO => "embryo" | SLEEPING => "sleep "
  | RUNNABLE => "runble" | RUNNING => "run   " | ZOMBIE => "zombie"
  end.

(** [for(i=0; i<10 && pc[i] != 0; i++) cprintf(" %p", pc[i]);] *)
Fixpoint print_pcs (l : list Z) : K unit :=
  match l with
  | [] => ret tt
  | pc :: l' => if pc =? 0 then ret tt else cprintf " %p" [CInt pc] ;; print_pcs l'
  end.

Definition procdump_line (i : Z) : K unit :=
  x <- proc_at (Z.to_nat i) ;;
  if bool_decide (p_state x = UNUSED) then ret tt else
  cprintf "%d %s %s" [CInt (p_pid x); CStr (bytes (state_name (p_state x))); CStr (p_name x)] ;;
  (if bool_decide (p_state x = SLEEPING) then
     cs <- gets ctxs ;;
     c <- get_opt "context" (cs !! p_context x) ;;
     pc <- getcallerpcs (cx_ebp c + 8) ;;
     print_pcs pc
   else ret tt) ;;
  cprintf "\n" [].

Definition procdump : K unit := for_each 0 NPROC procdump_line.
End Proc.
