(* ===== verification/ProcLemmas.v ===== *)
(** Lemmas shared by the theorems about proc.c: critical sections on
    ptable.lock, the table scans, functions that do not return, and a concrete
    instance of the classes of [Proc] for the examples. *)
From S2P Require Import Prelude Spinlock ProcState Queue CString Proc.

(** * Critical sections on ptable.lock *)

Notation idle_lock := (idle_at ptable_lock).
Notation locked_mach := (locked_at ptable_lock).

(** [step H] runs the first statement by its equation [H]. *)
Ltac step H := rewrite (bind_Ret _ _ _ _ _ H).

(** Look a slot up in an updated table. *)
Ltac tbl :=
  simpl; repeat (first
    [ eassumption
    | rewrite list_lookup_insert_eq by (rewrite ?length_insert; assumption || lia); reflexivity
    | rewrite list_lookup_insert_ne by (assumption || lia || congruence) ]).

(** Run a read or an update of the table, a [gets], a [modify]. *)
Ltac rd := erewrite bind_Ret; [|eapply proc_at_eq; tbl].
Ltac upd := erewrite bind_Ret; [|eapply upd_proc_eq; tbl].
Ltac pure_step := erewrite bind_Ret; [|reflexivity].

Section Lemmas.
Context {E : Type}.
Notation K := (M (kst E)).

Lemma machM_Ret {A} (c : M machine A) (k : kst E) a m :
  c (mach k) = Ret a m -> machM c k = Ret a (set_mach m k).
Proof. intros H. unfold machM, zoom. by rewrite H. Qed.

Lemma extM_Ret {A} (c : M E A) (k : kst E) a e :
  c (ext k) = Ret a e -> extM c k = Ret a (set_ext e k).
Proof. intros H. unfold extM, zoom. by rewrite H. Qed.

Lemma acquire_ptable_eq (k : kst E) c l :
  idle_lock (mach k) c l ->
  acquire_ptable k = Ret tt (set_mach (locked_mach (mach k) c l) k).
Proof. intros Hi. apply machM_Ret. by apply acquire_idle. Qed.

Lemma release_ptable_eq (k : kst E) m c l :
  idle_lock m c l -> mach k = locked_mach m c l ->
  release_ptable k = Ret tt (set_mach (unlocked_mach m c) k).
Proof. intros Hi Hm. apply machM_Ret. rewrite Hm. by apply release_idle. Qed.

(** Reading fields of a locked machine. *)
Lemma locked_cpu m c l : idle_lock m c l -> cpus (locked_mach m c l) !! this m = Some (pushed c).
Proof. intros Hi. eapply (lookup_with_cpu m); apply Hi. Qed.

(** * What the memory and file calls may change

    [quiet] relates two machines that differ at most in the [intena] of the
    executing CPU: the effect of balanced critical sections. *)
Definition quiet (m m' : machine) : Prop :=
  exists c c', cpus m !! this m = Some c /\ m' = with_cpu c' m /\ same_cpu c c'.

Lemma quiet_refl m c : cpus m !! this m = Some c -> quiet m m.
Proof.
  intros Hc. exists c, c. split_and!; try done.
  unfold with_cpu, set_cpus. rewrite list_insert_id by done. by destruct m.
Qed.

Lemma same_cpu_trans c1 c2 c3 : same_cpu c1 c2 -> same_cpu c2 c3 -> same_cpu c1 c3.
Proof.
  intros (? & ? & H & ? & ? & Hi) (? & ? & ? & ? & ? & Hi'). unfold same_cpu.
  split_and!; try congruence. intros Hn. rewrite Hi' by lia. auto.
Qed.

Lemma quiet_trans m1 m2 m3 : quiet m1 m2 -> quiet m2 m3 -> quiet m1 m3.
Proof.
  intros (c1 & c2 & Hc1 & -> & H12) (c3 & c4 & Hc3 & -> & H34).
  rewrite (lookup_with_cpu _ c2 c1 Hc1) in Hc3. simplify_eq.
  exists c1, c4. split_and!; [done|by rewrite with_cpu_twice|by eapply same_cpu_trans].
Qed.

Lemma quiet_idle m m' c l : quiet m m' -> idle_lock m c l -> exists c', idle_lock m' c' l /\ same_cpu c c'.
Proof.
  intros (c0 & c' & Hc & -> & Hs) Hi. exists c'. pose proof (idle_cpu _ _ _ Hi). simplify_eq.
  split; [|done]. pose proof Hs as (_ & _ & Hn & He & _). constructor; try apply Hi.
  - by eapply lookup_with_cpu.
  - rewrite Hn. apply Hi.
  - rewrite Hn. intros H. unfold irq_on. rewrite He. by apply Hi.
Qed.

Lemma quiet_section m c l : idle_lock m c l -> quiet m (unlocked_mach m c).
Proof. intros Hi. exists c, (popped (pushed c)). split_and!; [apply Hi|done|by eapply idle_same]. Qed.

(** * Stepping through straight-line code *)

(** Two updates of one slot in a row. *)
Lemma upd_proc_again (k : kst E) i p f :
  (i < length (ptable k))%nat ->
  upd_proc i f (set_ptable (<[i := p]> (ptable k)) k)
  = Ret tt (set_ptable (<[i := f p]> (ptable k)) k).
Proof.
  intros Hi. rewrite (upd_proc_eq _ i p); simpl.
  - by rewrite list_insert_insert_eq.
  - by apply list_lookup_insert_eq.
Qed.

Lemma proc_eq (k : kst E) c me :
  cpus (mach k) !! this (mach k) = Some c -> cpu_proc c = Some me -> proc_ k = Ret me k.
Proof.
  intros Hc Hp. unfold proc_. rewrite (bind_Ret _ _ _ c k).
  - by rewrite Hp.
  - rewrite (machM_Ret _ _ c (mach k)); [by destruct k|]. by apply cpu_eq.
Qed.

Lemma tf_at_eq (k : kst E) a t : tfs k !! a = Some t -> tf_at a k = Ret t k.
Proof. intros Ht. unfold tf_at. erewrite bind_Ret; [|reflexivity]. by rewrite Ht. Qed.

(** The queues see a slot only through its pid. *)
Lemma slot_queues (k : kst E) Q i y y' :
  ptable k !! i = Some y -> p_pid y' = p_pid y -> qinv k Q ->
  qinv (set_ptable (<[i := y']> (ptable k)) k) Q
  /\ forall z q, has_pid (set_ptable (<[i := y']> (ptable k)) k) z q = has_pid k z q.
Proof.
  intros Hy Hp Hq. split.
  - eapply qinv_frame; [| | |exact Hq]; simpl; by rewrite ?length_insert.
  - intros z q. apply has_pid_ext. intros j. exact (pid_of_update k i y y' j Hy Hp).
Qed.

(** * Functions that do not return *)

Fixpoint noret {S A} (o : outcome S A) : Prop :=
  match o with
  | Ret _ _ => False
  | Switch _ k => forall s, noret (k s)
  | _ => True
  end.

Lemma noret_obind_l {S A B} (o : outcome S A) (f : A -> M S B) : noret o -> noret (obind o f).
Proof. induction o; simpl; auto. done. Qed.

Lemma noret_obind_r {S A B} (o : outcome S A) (f : A -> M S B) :
  (forall a s, noret (f a s)) -> noret (obind o f).
Proof. induction o; simpl; auto. Qed.

Lemma noret_bind_l {S A B} (c : M S A) (f : A -> M S B) s : noret (c s) -> noret (bind c f s).
Proof. apply noret_obind_l. Qed.

Lemma noret_bind_r {S A B} (c : M S A) (f : A -> M S B) s :
  (forall a s, noret (f a s)) -> noret (bind c f s).
Proof. apply noret_obind_r. Qed.

(** Whatever happens while it sleeps in the file system, and however it is
    resumed, exit never returns to its caller. *)
Lemma exit_noret `{!MemOps E, !FileOps E} custom {A} (k : kst E) : noret (exit (A := A) custom k).
Proof.
  unfold exit. apply noret_bind_r. intros me s. apply noret_bind_r. intros ip s1.
  case_bool_decide; [done|].
  repeat (apply noret_bind_r; intros ? ?). done.
Qed.

(** * Scans of the table *)

(** [i] is the first slot whose process passes the test. *)
Definition first_slot (f : proc -> bool) (t : list proc) (i : nat) : Prop :=
  (exists p, t !! i = Some p /\ f p = true) /\
  forall j p, (j < i)%nat -> t !! j = Some p -> f p = false.

Lemma find_proc_found f (k : kst E) i :
  length (ptable k) = Z.to_nat NPROC -> first_slot f (ptable k) i ->
  find_proc f k = Ret (Some i) k.
Proof.
  intros Hlen [(p & Hi & Hf) Hfirst]. unfold find_proc, for_range.
  pose proof (lookup_lt_Some _ _ _ Hi) as Hlt. rewrite Hlen in Hlt. unfold NPROC in *.
  apply for_loop_exit with (j := Z.of_nat i); [lia| |].
  - intros m Hm. destruct (lookup_lt_is_Some_2 (ptable k) (Z.to_nat m)) as [q Hq]; [lia|].
    rewrite (bind_Ret _ _ _ _ _ (proc_at_eq _ _ _ Hq)).
    rewrite (Hfirst (Z.to_nat m) q); [done|lia|done].
  - rewrite Nat2Z.id. rewrite (bind_Ret _ _ _ _ _ (proc_at_eq _ _ _ Hi)). by rewrite Hf.
Qed.

Lemma find_proc_none f (k : kst E) :
  length (ptable k) = Z.to_nat NPROC -> Forall (fun p => f p = false) (ptable k) ->
  find_proc f k = Ret None k.
Proof.
  intros Hlen Hall. unfold find_proc, for_range. apply for_loop_skip. intros j Hj.
  unfold NPROC in *.
  destruct (lookup_lt_is_Some_2 (ptable k) (Z.to_nat j)) as [q Hq]; [lia|].
  rewrite (bind_Ret _ _ _ _ _ (proc_at_eq _ _ _ Hq)).
  rewrite Forall_lookup in Hall. by rewrite (Hall _ _ Hq).
Qed.

(** Either no slot passes the test or there is a first one. *)
Lemma first_slot_dec f (t : list proc) :
  Forall (fun p => f p = false) t \/ exists i, first_slot f t i.
Proof.
  induction t as [|p t IH]; [by left|]. destruct (f p) eqn:Hp.
  - right. exists O. split; [by exists p|]. intros j q Hj. lia.
  - destruct IH as [H|[i [(q & Hi & Hq) Hfirst]]].
    + left. by constructor.
    + right. exists (S i). split; [by exists q|].
      intros [|j] r Hj Hr; simpl in Hr; [congruence|]. eapply Hfirst; [|done]. lia.
Qed.
End Lemmas.

(** * What the process layer expects of the file layer

    [opens fs d e m]: the files [fs] and the directory [d] are in use, and the
    locks of the file layer are free. *)
Class FileLaws (E : Type) `{!MemOps E, !FileOps E} := {
  opens : list Z -> Z -> E -> machine -> Prop;
  opens_quiet fs d e m m' : opens fs d e m -> quiet m m' -> opens fs d e m';
  opens_kalloc fs d e m a e' : opens fs d e m -> kalloc e = Ret a e' -> opens fs d e' m;
  opens_copyuvm fs d e m g n a e' : opens fs d e m -> copyuvm g n e = Ret a e' -> opens fs d e' m;
  filedup_law fs d f (k : kst E) : opens fs d (ext k) (mach k) -> f ∈ fs ->
    exists e m, filedup f k = Ret f (set_ext e (set_mach m k)) /\ quiet (mach k) m /\ opens fs d e m;
  idup_law fs d (k : kst E) : opens fs d (ext k) (mach k) ->
    exists e m, idup d k = Ret d (set_ext e (set_mach m k)) /\ quiet (mach k) m /\ opens fs d e m
}.

(** * A concrete environment

    Memory is a list of free pages, address spaces and files are opaque
    addresses that are never reclaimed, and the file system never sleeps. *)
#[export] Instance mem_list : MemOps (list Z) := {|
  kalloc := fun e => match e with [] => Ret 0 [] | a :: e' => Ret a e' end;
  kfree := fun a e => Ret tt (a :: e);
  setupkvm := fun e => match e with [] => Ret 0 [] | a :: e' => Ret a e' end;
  inituvm := fun _ e => Ret tt e;
  copyuvm := fun _ _ e => match e with [] => Ret 0 [] | a :: e' => Ret a e' end;
  allocuvm := fun _ _ n e => Ret n e;
  deallocuvm := fun _ _ n e => Ret n e;
  freevm := fun a e => Ret tt (a :: e);
  switchuvm := fun _ k => Ret tt k;
  switchkvm := fun k => Ret tt k
|}.

#[export] Instance file_none : FileOps (list Z) := {|
  filedup := fun f k => Ret f k;
  fileclose := fun _ k => Ret tt k;
  idup := fun i k => Ret i k;
  iput := fun _ k => Ret tt k;
  begin_op := fun k => Ret tt k;
  end_op := fun k => Ret tt k;
  namei := fun _ k => Ret 1 k;
  iinit := fun _ k => Ret tt k;
  initlog := fun _ k => Ret tt k
|}.

#[export] Program Instance file_none_laws : FileLaws (list Z) := {|
  opens := fun _ _ _ m => exists c, cpus m !! this m = Some c
|}.
Next Obligation. intros _ _ _ m m' _ (c & c' & Hc & -> & _). exists c'. by eapply lookup_with_cpu. Qed.
Next Obligation. done. Qed.
Next Obligation. done. Qed.
Next Obligation.
  intros _ _ f k [c Hc] _. exists (ext k), (mach k).
  split_and!; [by destruct k|by eapply quiet_refl|by exists c].
Qed.
Next Obligation.
  intros _ d k [c Hc]. exists (ext k), (mach k).
  split_and!; [by destruct k|by eapply quiet_refl|by exists c].
Qed.

(** A running system: init asleep, the shell running on the only CPU and a
    third process waiting in the queue of priority 3. *)
Definition init1 : proc :=
  Proc 4096 0x1000 0x2000 SLEEPING 1 None 0x2fb4 0x2f9c (proc_addr 0) 0 (replicate 16 0) 7 (replicate 16 0) 3.
Definition shell1 : proc :=
  Proc 4096 0x3000 0x4000 RUNNING 2 (Some 0%nat) 0x4fb4 0x4f9c 0 0 (<[O := 5]> (replicate 16 0)) 7 (replicate 16 0) 3.
Definition ready1 : proc :=
  Proc 4096 0x5000 0x6000 RUNNABLE 3 (Some 1%nat) 0x6fb4 0x6f9c 0 0 (replicate 16 0) 7 (replicate 16 0) 3.

Definition cpu1 : cpu := Cpu 0 0 0 0 FL_IF (Some 1%nat).
Definition lock1 : spinlock := Spinlock 0 "ptable" None.
Definition kst1 : kst (list Z) :=
  Kst (Machine [cpu1] 0 {[ptable_lock := lock1]})
    (init1 :: shell1 :: ready1 :: replicate 61 proc0)
    (<[2%nat := Some 2%nat :: replicate 63 None]> (replicate 5 (replicate 64 None)))
    [0; 0; 1; 0; 0] (Some 0%nat) 4 {[0x4fb4 := set_tf_eax 1 trapframe0]} ∅ ∅ false 0 []
    [0x7000; 0x8000; 0x9000].

Definition Q1 : list (list nat) := [[]; []; [2%nat]; []; []].

Lemma idle1 : idle_lock (mach kst1) cpu1 lock1.
Proof. constructor; done || (vm_compute; lia) || (split; vm_compute; done). Qed.

Lemma qinv1 : qinv kst1 Q1.
Proof.
  split; [done|]. split; [split_and!; try done|].
  - intros pr q row m Hq Hrow Hm. unfold rep_row.
    do 5 (destruct pr as [|pr]; [simpl in *; simplify_eq; split_and!;
      [done|done|by eexists|repeat constructor; simpl; lia]|]). done.
  - repeat constructor; set_solver.
Qed.

Lemma kst1_procs i p : ptable kst1 !! i = Some p -> p = init1 \/ p = shell1 \/ p = ready1 \/ p = proc0.
Proof.
  change (ptable kst1) with (init1 :: shell1 :: ready1 :: replicate 61 proc0).
  intros H%list_elem_of_lookup_2. rewrite !elem_of_cons, elem_of_replicate in H. tauto.
Qed.
