(* ===== verification/NiceKill.v ===== *)
(** nice and kill (src/xv6-public/proc.c), with and without the priority
    queues. *)
From S2P Require Import Prelude Spinlock ProcState Queue CString Proc ProcLemmas.

Section NiceKill.
Context {E : Type} `{!MemOps E, !FileOps E}.

(** [i] is the slot a search for [pid] finds. *)
Definition slot_of (k : kst E) (pid : Z) (i : nat) : Prop :=
  first_slot (fun x => p_pid x =? pid) (ptable k) i.

Definition no_slot (k : kst E) (pid : Z) : Prop :=
  Forall (fun x => (p_pid x =? pid) = false) (ptable k).

(** The state after an empty critical section on ptable.lock. *)
Definition section_done (c : cpu) (k : kst E) : kst E :=
  set_mach (unlocked_mach (mach k) c) k.

(** * nice *)

(** The priority of slot [i] set to [v]. *)
Definition with_priority (i : nat) (v : Z) (p : proc) (k : kst E) : kst E :=
  set_ptable (<[i := set_p_priority v p]> (ptable k)) k.

(** nice up to the queue updates. *)
Lemma nice_found custom k c l pid pr i p :
  1 <= pr <= 5 -> idle_lock (mach k) c l -> length (ptable k) = Z.to_nat NPROC ->
  slot_of k pid i -> ptable k !! i = Some p ->
  nice custom pid pr k
  = (_ <- remove_process_from_queue i (p_priority p) ;;
     _ <- add_process_to_queue i pr ;;
     m <- checked (pid * MOD) ;; checked (m + p_priority p))
    (with_priority i pr p (section_done c k)).
Proof.
  intros Hpr Hidle Hlen Hslot Hi. unfold nice.
  destruct (Z.ltb_spec pr 1), (Z.gtb_spec pr 5); try lia. simpl.
  rewrite (bind_Ret (ret tt) _ k tt k eq_refl).
  step (acquire_ptable_eq k c l Hidle).
  step (find_proc_found _ (set_mach (locked_mach (mach k) c l) k) i Hlen Hslot).
  step (release_ptable_eq (set_mach (locked_mach (mach k) c l) k) _ c l Hidle eq_refl).
  rewrite (bind_Ret _ _ _ _ _ (proc_at_eq (section_done c k) i p Hi)).
  by rewrite (bind_Ret _ _ _ _ _ (upd_proc_eq (section_done c k) i p _ Hi)).
Qed.

Lemma with_priority_pids i v p c k j :
  ptable k !! i = Some p -> pid_of (with_priority i v p (section_done c k)) j = pid_of k j.
Proof. intros Hi. exact (pid_of_update (section_done c k) i p (set_p_priority v p) j Hi eq_refl). Qed.

(** The queues after nice has moved slot [i]. *)
Definition nice_queues (k : kst E) (i : nat) (old pr : Z) (Q : list (list nat)) : list (list nat) :=
  (add_spec k i pr (remove_spec k i old Q).2).2.

Lemma nice_ok custom k c l Q pid pr i p :
  1 <= pr <= 4 -> 1 <= p_priority p <= 4 -> 0 <= pid -> pid * MOD + p_priority p <= INT_MAX ->
  idle_lock (mach k) c l -> qinv k Q -> slot_of k pid i -> ptable k !! i = Some p ->
  exists k', nice custom pid pr k = Ret (pid * MOD + p_priority p) k'
    /\ only_queues (with_priority i pr p (section_done c k)) k'
    /\ qinv k' (nice_queues k i (p_priority p) pr Q).
Proof.
  intros Hpr Hold Hpid Hmax Hidle Hq Hslot Hi.
  rewrite (nice_found custom k c l pid pr i p) by (try done; try lia; apply Hq).
  set (k1 := with_priority i pr p (section_done c k)).
  assert (forall j, pid_of k1 j = pid_of k j) as Hpids by (intros j; by apply with_priority_pids).
  assert (qinv k1 Q) as Hq1 by (eapply qinv_frame; [| | |done]; simpl; by rewrite ?length_insert).
  assert (i < Z.to_nat NPROC)%nat as Hlt
    by (rewrite <- (proj1 Hq); by eapply lookup_lt_Some).
  destruct (remove_ok k1 Q i (p_priority p) Hq1 Hlt) as (k2 & Hrm & Hoq2 & Hq2);
    [unfold PLEVELS; lia|].
  step Hrm. rewrite (remove_spec_ext k k1 Hpids) in Hq2.
  assert (forall j, pid_of k2 j = pid_of k j) as Hpids2
    by (intros j; rewrite (only_queues_pids _ _ Hoq2); apply Hpids).
  destruct (add_ok k2 _ i pr Hq2 Hlt) as (k3 & Hadd & Hoq3 & Hq3); [unfold PLEVELS; lia|].
  step Hadd. rewrite (add_spec_ext k k2 Hpids2) in Hq3.
  exists k3. split_and!; [|by destruct Hoq2 as (? & ? & ->), Hoq3 as (? & ? & ->); eexists _, _|done].
  unfold MOD in *. unfold bind, checked, ret.
  assert (int_ok (pid * 65) = true) as -> by (apply int_ok_iff; unfold INT_MIN; lia).
  simpl. assert (int_ok (pid * 65 + p_priority p) = true) as ->
    by (apply int_ok_iff; unfold INT_MIN; lia).
  done.
Qed.

(** C39: nice on an existing process, for the priorities 1 to 4, returns one
    integer from which the caller's division and remainder by MOD recover the
    pid and the old priority; it sets the priority of that slot, leaves every
    other slot, the locks and the interrupt state as they were, and runs
    within the bounds of the queue arrays. *)
Theorem nice_returns_pid_and_old_priority custom k c l Q pid pr i p :
  1 <= pr <= 4 -> 1 <= p_priority p <= 4 -> 0 <= pid -> pid * MOD + p_priority p <= INT_MAX ->
  idle_lock (mach k) c l -> qinv k Q -> slot_of k pid i -> ptable k !! i = Some p ->
  exists r k', nice custom pid pr k = Ret r k'
    /\ Z.quot r MOD = pid /\ Z.rem r MOD = p_priority p
    /\ ptable k' = <[i := set_p_priority pr p]> (ptable k)
    /\ locks (mach k') = locks (mach k)
    /\ (exists c', mach k' = with_cpu c' (mach k) /\ same_cpu c c')
    /\ exists Q', qinv k' Q'.
Proof.
  intros Hpr Hold Hpid Hmax Hidle Hq Hslot Hi.
  destruct (nice_ok custom k c l Q pid pr i p) as (k' & Hn & Hoq & Hq'); [done..|].
  exists (pid * MOD + p_priority p), k'.
  destruct Hoq as (q & m & ->). unfold MOD in *. split_and!; try done.
  - rewrite Z.add_comm, Z.quot_add by lia. rewrite (Z.quot_small (p_priority p)); lia.
  - rewrite Z.add_comm, Z.rem_add by nia. apply Z.rem_small. lia.
  - exists (popped (pushed c)). split; [done|]. by eapply idle_same.
  - by eexists.
Qed.

(** Where a waiting process is after nice. *)
Lemma nice_queues_levels k Q i old pr :
  1 <= pr <= 4 -> 1 <= old <= 4 -> qinv k Q -> (i < Z.to_nat NPROC)%nat ->
  i ∈ level Q (old - 1) ->
  i ∈ level (nice_queues k i old pr Q) (old - 1)
  /\ has_pid k (pid_of k i) (level (nice_queues k i old pr Q) pr) = true.
Proof.
  intros Hpr Hold Hq Hlt Hin. pose proof (proj1 (proj2 Hq)) as Hrep. unfold nice_queues.
  assert (exists k2 : kst E, rep k2 (remove_spec k i old Q).2 /\ pid_of k2 = pid_of k) as (k2 & Hrep2 & Hp2).
  { destruct (remove_ok k Q i old Hq Hlt) as (k2 & _ & Hoq & Hq2); [unfold PLEVELS; lia|].
    exists k2. split; [apply Hq2|by apply only_queues_pids]. }
  assert (forall x q, has_pid k2 x q = has_pid k x q) as Hh2 by (intros; apply has_pid_ext; by rewrite Hp2).
  assert (add_spec k i pr (remove_spec k i old Q).2 = add_spec k2 i pr (remove_spec k i old Q).2) as ->
    by (symmetry; apply add_spec_ext; by rewrite Hp2).
  rewrite !(level_add k2) by (done || unfold PLEVELS; lia). rewrite Z.eqb_refl, Hp2, !Hh2.
  rewrite (level_remove k Q i old (old - 1)) by (done || unfold PLEVELS; lia).
  destruct (Z.eqb_spec (old - 1) old); [lia|]. simpl. split.
  - destruct (Z.eqb_spec (old - 1) pr) as [<-|]; simpl; [|done].
    rewrite (level_remove k Q i old (old - 1)) by (done || unfold PLEVELS; lia).
    destruct (Z.eqb_spec (old - 1) old); [lia|]. by rewrite (has_pid_elem k i _ Hin).
  - destruct (has_pid k (pid_of k i) (level (remove_spec k i old Q).2 pr)) eqn:Hh; simpl; [done|].
    apply has_pid_elem. apply elem_of_app. right. by apply list_elem_of_singleton.
Qed.

(** The index nice gives the queue functions is the priority itself, not
    the priority minus one as everywhere else: a process waiting at its level
    [old - 1] is still queued there afterwards, and is queued a second time
    at level [pr], one below the level [pr - 1] of its new priority. *)
Theorem nice_queues_one_level_off custom k c l Q pid pr i p :
  1 <= pr <= 4 -> 1 <= p_priority p <= 4 -> 0 <= pid -> pid * MOD + p_priority p <= INT_MAX ->
  idle_lock (mach k) c l -> qinv k Q -> slot_of k pid i -> ptable k !! i = Some p ->
  i ∈ level Q (p_priority p - 1) ->
  exists r k' Q', nice custom pid pr k = Ret r k' /\ qinv k' Q'
    /\ i ∈ level Q' (p_priority p - 1)
    /\ exists j, j ∈ level Q' pr /\ pid_of k j = pid.
Proof.
  intros Hpr Hold Hpid Hmax Hidle Hq Hslot Hi Hin.
  destruct (nice_ok custom k c l Q pid pr i p) as (k' & Hn & Hoq & Hq'); [done..|].
  exists (pid * MOD + p_priority p), k', (nice_queues k i (p_priority p) pr Q).
  split; [done|]. split; [done|].
  assert (pid_of k i = pid) as Hpid_i.
  { rewrite (pid_of_eq _ _ _ Hi). destruct Hslot as [(p' & Hp' & Heq) _]. simplify_eq. by apply Z.eqb_eq. }
  destruct (nice_queues_levels k Q i (p_priority p) pr) as [Hl Hh]; try done.
  - rewrite <- (proj1 Hq). by eapply lookup_lt_Some.
  - split; [done|]. apply existsb_exists in Hh as (j & Hj & Heq). exists j.
    split; [by apply list_elem_of_In|]. apply Z.eqb_eq in Heq. congruence.
Qed.

(** Nice with priority 5, which its range check accepts, indexes the
    arrays of the queues at level 5, one past their end. *)
Theorem nice_priority_5_out_of_bounds custom k c l Q pid i p :
  1 <= p_priority p <= 4 -> idle_lock (mach k) c l -> qinv k Q ->
  slot_of k pid i -> ptable k !! i = Some p ->
  nice custom pid 5 k = Undef "marker".
Proof.
  intros Hold Hidle Hq Hslot Hi.
  rewrite (nice_found custom k c l pid 5 i p) by (try done; try lia; apply Hq).
  set (k1 := with_priority i 5 p (section_done c k)).
  assert (qinv k1 Q) as Hq1 by (eapply qinv_frame; [| | |done]; simpl; by rewrite ?length_insert).
  assert (i < Z.to_nat NPROC)%nat as Hlt
    by (rewrite <- (proj1 Hq); by eapply lookup_lt_Some).
  destruct (remove_ok k1 Q i (p_priority p) Hq1 Hlt) as (k2 & Hrm & Hoq2 & Hq2);
    [unfold PLEVELS; lia|].
  step Hrm. unfold bind at 1, add_process_to_queue, bind at 1, marker_at, bind at 1, gets. simpl.
  destruct Hq2 as (_ & (_ & _ & Hm & _) & _). unfold arr_get. simpl.
  rewrite lookup_ge_None_2; [done|]. rewrite Hm. by vm_compute.
Qed.

(** With a priority outside 1 to 5 nice never returns: its caller exits. *)
Theorem nice_bad_priority_exits custom k pid pr :
  ~ (1 <= pr <= 5) -> noret (nice custom pid pr k).
Proof.
  intros Hpr. unfold nice. apply noret_bind_l.
  assert ((pr <? 1) || (pr >? 5) = true) as ->.
  { destruct (Z.ltb_spec pr 1), (Z.gtb_spec pr 5); done || lia. }
  apply noret_bind_r. intros. apply exit_noret.
Qed.

(** * kill *)

(** The process kill leaves in the slot it finds. *)
Definition killed_proc (p : proc) : proc :=
  let p := set_p_killed 1 p in
  if bool_decide (p_state p = SLEEPING) then set_p_state RUNNABLE p else p.

Definition with_killed (i : nat) (p : proc) (k : kst E) : kst E :=
  set_ptable (<[i := killed_proc p]> (ptable k)) k.

(** kill up to the queue update. *)
Lemma kill_found custom k c l pid i p :
  idle_lock (mach k) c l -> length (ptable k) = Z.to_nat NPROC ->
  slot_of k pid i -> ptable k !! i = Some p ->
  kill custom pid k
  = (enqueue_or_exit custom i ;; release_ptable ;; ret 0)
      (with_killed i p (set_mach (locked_mach (mach k) c l) k)).
Proof.
  intros Hidle Hlen Hslot Hi. unfold kill. pose proof (lookup_lt_Some _ _ _ Hi) as Hlt.
  step (acquire_ptable_eq k c l Hidle). set (k1 := set_mach (locked_mach (mach k) c l) k).
  step (find_proc_found _ k1 i Hlen Hslot). cbv beta iota.
  step (upd_proc_eq k1 i p (set_p_killed 1) Hi).
  set (k2 := set_ptable _ k1).
  assert (ptable k2 !! i = Some (set_p_killed 1 p)) as Hi2 by by apply list_lookup_insert_eq.
  step (proc_at_eq k2 i _ Hi2).
  unfold with_killed, killed_proc. case_bool_decide as Hs.
  - step (upd_proc_eq k2 i _ (set_p_state RUNNABLE) Hi2). f_equal.
    unfold k2. simpl. by rewrite list_insert_insert_eq.
  - by step (eq_refl : ret tt k2 = Ret tt k2).
Qed.

(** In the round-robin build kill finds the first slot with the pid, marks
    it killed, makes it RUNNABLE when it was SLEEPING, changes nothing else
    and returns 0; without such a slot it changes nothing and returns -1.
    ptable.lock and the interrupt state are back as they were. *)
Theorem kill_round_robin k c l pid :
  idle_lock (mach k) c l -> length (ptable k) = Z.to_nat NPROC ->
  (no_slot k pid /\ kill true pid k = Ret (-1) (section_done c k)) \/
  (exists i p, slot_of k pid i /\ ptable k !! i = Some p
     /\ kill true pid k = Ret 0 (with_killed i p (section_done c k))).
Proof.
  intros Hidle Hlen.
  destruct (first_slot_dec (fun x => p_pid x =? pid) (ptable k)) as [Hno|[i Hslot]].
  - left. split; [done|]. unfold kill. step (acquire_ptable_eq k c l Hidle).
    step (find_proc_none _ (set_mach (locked_mach (mach k) c l) k) Hlen Hno).
    by step (release_ptable_eq (set_mach (locked_mach (mach k) c l) k) _ c l Hidle eq_refl).
  - right. destruct Hslot as [(p & Hi & Hp) Hfirst]. exists i, p.
    assert (slot_of k pid i) as Hslot by (split; eauto). split_and!; try done.
    rewrite (kill_found true k c l pid i p) by done.
    rewrite (bind_Ret (enqueue_or_exit true i) _ _ _ _ eq_refl).
    by step (release_ptable_eq (with_killed i p (set_mach (locked_mach (mach k) c l) k)) _ c l Hidle eq_refl).
Qed.

(** In the build with priority queues, killing a process that waits in its
    queue makes the caller of kill exit instead of returning. *)
Theorem kill_of_queued_exits_the_caller k c l Q pid i p :
  idle_lock (mach k) c l -> qinv k Q -> slot_of k pid i -> ptable k !! i = Some p ->
  1 <= p_priority p <= 5 -> i ∈ level Q (p_priority p - 1) ->
  noret (kill false pid k).
Proof.
  intros Hidle Hq Hslot Hi Hpr Hin.
  rewrite (kill_found false k c l pid i p) by (try done; apply Hq).
  set (k1 := with_killed i p _).
  assert (Hpid : forall j, pid_of k1 j = pid_of k j).
  { intros j. apply (pid_of_update (set_mach (locked_mach (mach k) c l) k) i p); [done|].
    unfold killed_proc. by case_bool_decide. }
  assert (qinv k1 Q) as Hq1 by (eapply qinv_frame; [| | |exact Hq]; simpl; by rewrite ?length_insert).
  pose proof (lookup_lt_Some _ _ _ Hi) as Hlt.
  assert (ptable k1 !! i = Some (killed_proc p)) as Hi1 by by apply list_lookup_insert_eq.
  assert (p_priority (killed_proc p) = p_priority p) as Hp by (unfold killed_proc; by case_bool_decide).
  destruct (add_ok k1 Q i (p_priority p - 1) Hq1) as (k2 & Hadd & _ & _);
    [rewrite <- (proj1 Hq); done|unfold PLEVELS; lia|].
  apply noret_bind_l. unfold enqueue_or_exit, ifndef_custom.
  step (proc_at_eq k1 i _ Hi1). rewrite Hp. step Hadd.
  unfold add_spec. rewrite has_pid_elem by done. simpl.
  apply noret_bind_r. intros. apply noret_bind_r. intros. apply exit_noret.
Qed.
End NiceKill.

(** * Examples *)

Lemma slot_of_1 : slot_of kst1 3 2.
Proof.
  split; [by exists ready1|]. intros [|[|j]] p Hj Hp; [by simplify_eq/=..|lia].
Qed.

Lemma nice_returns_pid_and_old_priority_witness :
  exists r k', nice false 3 1 kst1 = Ret r k'
    /\ Z.quot r MOD = 3 /\ Z.rem r MOD = 3
    /\ ptable k' = <[2%nat := set_p_priority 1 ready1]> (ptable kst1)
    /\ locks (mach k') = locks (mach kst1)
    /\ (exists c', mach k' = with_cpu c' (mach kst1) /\ same_cpu cpu1 c')
    /\ exists Q', qinv k' Q'.
Proof.
  apply (nice_returns_pid_and_old_priority false kst1 cpu1 lock1 Q1 3 1 2 ready1);
    [lia|simpl; lia|lia|by vm_compute|apply idle1|apply qinv1|apply slot_of_1|done].
Defined.

Lemma nice_queues_one_level_off_witness :
  exists r k' Q', nice false 3 1 kst1 = Ret r k' /\ qinv k' Q'
    /\ 2%nat ∈ level Q' 2 /\ exists j, j ∈ level Q' 1 /\ pid_of kst1 j = 3.
Proof.
  apply (nice_queues_one_level_off false kst1 cpu1 lock1 Q1 3 1 2 ready1);
    [lia|simpl; lia|lia|by vm_compute|apply idle1|apply qinv1|apply slot_of_1|done|].
  by apply list_elem_of_singleton.
Defined.

Lemma nice_priority_5_out_of_bounds_witness : nice true 3 5 kst1 = Undef "marker".
Proof.
  apply (nice_priority_5_out_of_bounds true kst1 cpu1 lock1 Q1 3 2 ready1);
    [simpl; lia|apply idle1|apply qinv1|apply slot_of_1|done].
Defined.

Lemma nice_bad_priority_exits_witness : noret (nice true 3 0 kst1).
Proof. apply (nice_bad_priority_exits true kst1 3 0). lia. Defined.

Lemma kill_round_robin_witness :
  (no_slot kst1 1 /\ kill true 1 kst1 = Ret (-1) (section_done cpu1 kst1)) \/
  (exists i p, slot_of kst1 1 i /\ ptable kst1 !! i = Some p
     /\ kill true 1 kst1 = Ret 0 (with_killed i p (section_done cpu1 kst1))).
Proof. apply (kill_round_robin kst1 cpu1 lock1 1); [apply idle1|done]. Defined.

Lemma kill_of_queued_exits_the_caller_witness : noret (kill false 3 kst1).
Proof.
  apply (kill_of_queued_exits_the_caller kst1 cpu1 lock1 Q1 3 2 ready1);
    [apply idle1|apply qinv1|apply slot_of_1|done|simpl; lia|].
  by apply list_elem_of_singleton.
Defined.
