(* ===== verification/Alloc.v ===== *)
(** Process creation (src/xv6-public/proc.c): allocproc and fork. *)
From S2P Require Import Prelude Spinlock ProcState Queue CString Proc ProcLemmas NiceKill.

Section Alloc.
Context {E : Type} `{!MemOps E, !FileOps E}.

(** [i] is the slot the search for an unused one finds. *)
Definition unused_slot (k : kst E) (i : nat) : Prop :=
  first_slot (fun p => bool_decide (p_state p = UNUSED)) (ptable k) i.

Definition table_full (k : kst E) : Prop :=
  Forall (fun p => bool_decide (p_state p = UNUSED) = false) (ptable k).

(** Where allocproc puts the objects of a kernel stack at [ks]. *)
Definition tf_of (ks : Z) : Z := ks + KSTACKSIZE - sizeof_trapframe.
Definition ra_of (ks : Z) : Z := tf_of ks - 4.
Definition ctx_of (ks : Z) : Z := ra_of ks - sizeof_context.

(** The slot after a failed and after a successful allocation. *)
Definition stale_proc (n : Z) (p : proc) : proc :=
  set_p_state UNUSED (set_p_kstack 0 (set_p_priority 3 (set_p_pid n (set_p_state EMBRYO p)))).

Definition embryo_proc (n ks : Z) (p : proc) : proc :=
  set_p_context (ctx_of ks) (set_p_tf (tf_of ks) (set_p_kstack ks
    (set_p_priority 3 (set_p_pid n (set_p_state EMBRYO p))))).

(** The state after a successful allocation of slot [i]. *)
Definition allocated (c : cpu) (i : nat) (p : proc) (ks : Z) (e : E) (k : kst E) : kst E :=
  set_ctxs (<[ctx_of ks := Context 0 0 0 0 forkret_addr]> (ctxs k))
    (set_words (<[ra_of ks := trapret_addr]> (words k))
      (set_ext e
        (set_nextpid (nextpid k + 1)
          (set_ptable (<[i := embryo_proc (nextpid k) ks p]> (ptable k)) (section_done c k))))).

Lemma allocproc_full k c l :
  idle_lock (mach k) c l -> length (ptable k) = Z.to_nat NPROC -> table_full k ->
  allocproc k = Ret None (section_done c k).
Proof.
  intros Hidle Hlen Hfull. unfold allocproc. step (acquire_ptable_eq k c l Hidle).
  step (find_proc_none _ (set_mach (locked_mach (mach k) c l) k) Hlen Hfull).
  by step (release_ptable_eq (set_mach (locked_mach (mach k) c l) k) _ c l Hidle eq_refl).
Qed.

Section Found.
Context (k : kst E) (c : cpu) (l : spinlock) (i : nat) (p : proc) (ks : Z) (e : E).
Hypothesis Hidle : idle_lock (mach k) c l.
Hypothesis Hlen : length (ptable k) = Z.to_nat NPROC.
Hypothesis Hpid : 0 <= nextpid k < INT_MAX.
Hypothesis Hslot : unused_slot k i.
Hypothesis Hi : ptable k !! i = Some p.
Hypothesis Hkalloc : kalloc (ext k) = Ret ks e.

Lemma allocproc_found :
  allocproc k = if ks =? 0
    then Ret None (set_ext e (set_nextpid (nextpid k + 1)
           (set_ptable (<[i := stale_proc (nextpid k) p]> (ptable k)) (section_done c k))))
    else Ret (Some i) (allocated c i p ks e k).
Proof.
  unfold allocproc. step (acquire_ptable_eq k c l Hidle).
  step (find_proc_found _ (set_mach (locked_mach (mach k) c l) k) i Hlen Hslot).
  pose proof (lookup_lt_Some _ _ _ Hi) as Hlt.
  upd. pure_step. simpl. unfold checked at 1.
  assert (int_ok (nextpid k + 1) = true) as -> by (apply int_ok_iff; unfold INT_MIN; lia).
  pure_step. pure_step. upd. upd.
  erewrite bind_Ret; [|by apply (release_ptable_eq _ _ c l Hidle)].
  erewrite bind_Ret; [|by apply extM_Ret].
  upd. destruct (Z.eqb_spec ks 0) as [->|Hks].
  - upd. unfold ret. f_equal. kst_eq. by rewrite !list_insert_insert_eq.
  - upd. pure_step. upd. do 2 pure_step. unfold ret. f_equal. kst_eq.
    + by rewrite !list_insert_insert_eq.
    + by rewrite insert_insert_eq.
Qed.
End Found.

(** Allocproc on every branch.  A full table gives no slot and changes
    nothing; without memory the slot found stays UNUSED; otherwise the slot is
    an EMBRYO with the next pid and priority 3, and its trap frame, the return
    address trapret and the context that starts at forkret lie in this order
    inside its kernel stack, the trap frame at the very top. *)
Theorem allocproc_spec k c l :
  idle_lock (mach k) c l -> length (ptable k) = Z.to_nat NPROC -> 0 <= nextpid k < INT_MAX ->
  (table_full k /\ allocproc k = Ret None (section_done c k)) \/
  (exists i p, unused_slot k i /\ ptable k !! i = Some p /\ forall ks e, kalloc (ext k) = Ret ks e ->
     (ks = 0 /\ exists k', allocproc k = Ret None k' /\ ptable k' = <[i := stale_proc (nextpid k) p]> (ptable k)) \/
     (ks <> 0 /\ allocproc k = Ret (Some i) (allocated c i p ks e k)
      /\ ks <= ctx_of ks /\ ctx_of ks + sizeof_context = ra_of ks
      /\ ra_of ks + 4 = tf_of ks /\ tf_of ks + sizeof_trapframe = ks + KSTACKSIZE)).
Proof.
  intros Hidle Hlen Hpid.
  destruct (first_slot_dec (fun p => bool_decide (p_state p = UNUSED)) (ptable k)) as [Hfull|[i Hslot]].
  - left. split; [done|]. by eapply allocproc_full.
  - right. pose proof Hslot as [(p & Hi & _) _]. exists i, p. split_and!; try done. intros ks e Hka.
    rewrite (allocproc_found k c l i p ks e) by done.
    unfold ctx_of, ra_of, tf_of, sizeof_context, sizeof_trapframe, KSTACKSIZE.
    destruct (Z.eqb_spec ks 0); [left|right]; split_and!; try done; try lia. eauto.
Qed.

(** A process made RUNNABLE goes to the end of the queue of its priority, in
    the build that has queues. *)
Definition enqueued (custom : bool) (i : nat) (pr : Z) (Q : list (list nat)) : list (list nat) :=
  if custom then Q else <[Z.to_nat (pr - 1) := level Q (pr - 1) ++ [i]]> Q.

Lemma enqueue_ok custom (k : kst E) Q i p :
  qinv k Q -> ptable k !! i = Some p -> 1 <= p_priority p <= 5 ->
  has_pid k (p_pid p) (level Q (p_priority p - 1)) = false ->
  exists k', enqueue_or_exit custom i k = Ret tt k' /\ only_queues k k'
    /\ qinv k' (enqueued custom i (p_priority p) Q).
Proof.
  intros Hq Hi Hpr Hnew. unfold enqueue_or_exit, ifndef_custom, enqueued. destruct custom.
  { exists k. split_and!; try apply Hq; [done|apply only_queues_refl]. }
  destruct (add_ok k Q i (p_priority p - 1) Hq) as (k' & Hadd & Hoq & Hq');
    [rewrite <- (proj1 Hq); by eapply lookup_lt_Some|unfold PLEVELS; lia|].
  exists k'. rd. step Hadd. unfold add_spec in *. rewrite (pid_of_eq _ _ _ Hi), Hnew in *.
  by split_and!.
Qed.

(** * fork *)

(** The open files of the child: those of the parent, from descriptor [j] on. *)
Definition dup_files (j : nat) (parent child : list Z) : list Z :=
  take j child ++ zip_with (fun a b => if a =? 0 then b else a) (drop j parent) (drop j child).

Lemma dup_files_step j parent child a b :
  parent !! j = Some a -> child !! j = Some b ->
  dup_files (S j) parent (<[j := if a =? 0 then b else a]> child) = dup_files j parent child.
Proof.
  intros Ha Hb. unfold dup_files. pose proof (lookup_lt_Some _ _ _ Hb) as Hlt.
  rewrite (drop_S parent a j Ha), (drop_S child b j Hb). simpl.
  rewrite drop_insert_lt by lia. rewrite (take_S_r _ _ (if a =? 0 then b else a)).
  - rewrite take_insert_ge by lia. by rewrite <- app_assoc.
  - by apply list_lookup_insert_eq.
Qed.

(** [k'] is [k] but for slot [i] and what file and memory calls change. *)
Definition only_slot (i : nat) (y : proc) (k k' : kst E) : Prop :=
  exists e m, quiet (mach k) m
    /\ k' = set_ext e (set_mach m (set_ptable (<[i := y]> (ptable k)) k)).

Section Fork.
Context `{!FileLaws E}.

Lemma only_slot_same i y k c :
  cpus (mach k) !! this (mach k) = Some c -> ptable k !! i = Some y -> only_slot i y k k.
Proof.
  intros Hc Hy. exists (ext k), (mach k). split; [by eapply quiet_refl|].
  kst_eq. by rewrite list_insert_id.
Qed.

Lemma only_slot_trans i y1 y2 k1 k2 k3 :
  only_slot i y1 k1 k2 -> only_slot i y2 k2 k3 -> only_slot i y2 k1 k3.
Proof.
  intros (e1 & m1 & Hq1 & ->) (e2 & m2 & Hq2 & ->). exists e2, m2.
  split; [by eapply quiet_trans|]. kst_eq. by rewrite list_insert_insert_eq.
Qed.

Lemma only_slot_facts i y y0 me x k k' :
  only_slot i y k k' -> me <> i -> ptable k !! me = Some x -> ptable k !! i = Some y0 ->
  ptable k' !! me = Some x /\ ptable k' !! i = Some y
  /\ exists c, cpus (mach k') !! this (mach k') = Some c.
Proof.
  intros (e & m & (c0 & c1 & Hc0 & -> & _) & ->) Hne Hx Hy.
  pose proof (lookup_lt_Some _ _ _ Hy). split_and!; [tbl|tbl|].
  exists c1. by eapply lookup_with_cpu.
Qed.

Lemma fork_dup_step fs d me i x y j a b (k : kst E) :
  me <> i -> ptable k !! me = Some x -> ptable k !! i = Some y ->
  p_ofile x !! j = Some a -> p_ofile y !! j = Some b ->
  (a <> 0 -> a ∈ fs) -> opens fs d (ext k) (mach k) ->
  (exists c, cpus (mach k) !! this (mach k) = Some c) ->
  exists k', fork_dup me i (Z.of_nat j) k = Ret tt k'
    /\ only_slot i (set_p_ofile (<[j := if a =? 0 then b else a]> (p_ofile y)) y) k k'
    /\ opens fs d (ext k') (mach k').
Proof.
  intros Hne Hx Hy Ha Hb Hfs Hop [c Hc]. unfold fork_dup. rd. rewrite arr_get_nat, Ha. pure_step.
  destruct (Z.eqb_spec a 0) as [->|Ha0].
  { exists k. split_and!; [done| |done]. eapply only_slot_same; [done|].
    rewrite Hy. f_equal. rewrite list_insert_id by done. by destruct y. }
  destruct (filedup_law fs d a k Hop (Hfs Ha0)) as (e & m & Hdup & Hq & Hop').
  step Hdup. rd. rewrite arr_set_nat by (by eapply lookup_lt_Some). pure_step.
  erewrite upd_proc_eq by (simpl; done). eexists. split_and!; [done| |done].
  exists e, m. split; [done|]. by kst_eq.
Qed.

Lemma fork_dup_loop fs d me i x n : forall j y (k : kst E),
  me <> i -> ptable k !! me = Some x -> ptable k !! i = Some y ->
  (length (p_ofile x) = j + n)%nat -> (length (p_ofile y) = j + n)%nat ->
  Forall (fun f => f <> 0 -> f ∈ fs) (p_ofile x) -> opens fs d (ext k) (mach k) ->
  (exists c, cpus (mach k) !! this (mach k) = Some c) ->
  exists k', for_loop n (Z.of_nat j) (fun fd => fork_dup me i fd ;; ret (@None unit)) k = Ret None k'
    /\ only_slot i (set_p_ofile (dup_files j (p_ofile x) (p_ofile y)) y) k k'
    /\ opens fs d (ext k') (mach k').
Proof.
  induction n as [|n IH]; intros j y k Hne Hx Hy Hlx Hly Hfs Hop [c Hc].
  - exists k. split_and!; [done| |done]. eapply only_slot_same; [done|].
    rewrite Hy. f_equal. unfold dup_files. rewrite !drop_ge, take_ge by lia. simpl.
    rewrite app_nil_r. by destruct y.
  - destruct (lookup_lt_is_Some_2 (p_ofile x) j) as [a Ha]; [lia|].
    destruct (lookup_lt_is_Some_2 (p_ofile y) j) as [b Hb]; [lia|].
    destruct (fork_dup_step fs d me i x y j a b k) as (k1 & Hrun & Hslot & Hop1); try done.
    { rewrite Forall_lookup in Hfs. eauto. }
    { by exists c. }
    destruct (only_slot_facts _ _ y me x _ _ Hslot) as (Hx1 & Hy1 & Hc1); try done.
    destruct (IH (S j) _ k1 Hne Hx1 Hy1) as (k2 & Hrun2 & Hslot2 & Hop2); simpl;
      rewrite ?length_insert; try done; try lia.
    exists k2. split_and!; [| |done].
    + simpl. rewrite (bind_Ret _ _ _ None _ (bind_Ret _ _ _ _ _ Hrun)).
      replace (Z.of_nat j + 1) with (Z.of_nat (S j)) by lia. done.
    + eapply only_slot_trans; [done|]. simpl in Hslot2. by rewrite dup_files_step in Hslot2.
Qed.
(** The child while its files, directory and name are copied. *)
Definition dressed (x y : proc) : proc :=
  set_p_state RUNNABLE (set_p_name (copy_name (p_name y) (p_name x)) (set_p_cwd (p_cwd x)
    (set_p_ofile (dup_files 0 (p_ofile x) (p_ofile y)) y))).

(** The queues see a slot only through its pid. *)
Lemma only_slot_queues (k : kst E) Q i y y' e m :
  ptable k !! i = Some y -> p_pid y' = p_pid y -> qinv k Q ->
  qinv (set_ext e (set_mach m (set_ptable (<[i := y']> (ptable k)) k))) Q
  /\ forall z q, has_pid (set_ext e (set_mach m (set_ptable (<[i := y']> (ptable k)) k))) z q
       = has_pid k z q.
Proof.
  intros Hy Hp Hq. split.
  - eapply qinv_frame; [| | |exact Hq]; simpl; by rewrite ?length_insert.
  - intros z q. apply has_pid_ext. intros j. exact (pid_of_update k i y y' j Hy Hp).
Qed.

(** fork from the copy of the open files to its return. *)
Lemma fork_finish custom fs me i x y c l (k : kst E) Q :
  me <> i -> ptable k !! me = Some x -> ptable k !! i = Some y ->
  length (p_ofile x) = 16%nat -> length (p_ofile y) = 16%nat ->
  Forall (fun f => f <> 0 -> f ∈ fs) (p_ofile x) -> opens fs (p_cwd x) (ext k) (mach k) ->
  idle_lock (mach k) c l -> qinv k Q -> 1 <= p_priority y <= 5 ->
  has_pid k (p_pid y) (level Q (p_priority y - 1)) = false ->
  exists k' k2, (for_each 0 NOFILE (fork_dup me i) ;;
      x <- proc_at me ;;
      d <- idup (p_cwd x) ;;
      upd_proc i (set_p_cwd d) ;;
      x <- proc_at me ;;
      upd_proc i (fun y => set_p_name (copy_name (p_name y) (p_name x)) y) ;;
      y <- proc_at i ;;
      acquire_ptable ;;
      upd_proc i (set_p_state RUNNABLE) ;;
      enqueue_or_exit custom i ;;
      release_ptable ;;
      ret (p_pid y)) k = Ret (p_pid y) k'
    /\ only_slot i (dressed x y) k k2 /\ only_queues k2 k'
    /\ qinv k' (enqueued custom i (p_priority y) Q).
Proof.
  intros Hne Hx Hy Hlx Hly Hfs Hop Hidle Hq Hpr Hnew.
  destruct (fork_dup_loop fs (p_cwd x) me i x 16 0 y k) as (k1 & Hrun & Hslot & Hop1); try done.
  { exists c. apply Hidle. }
  destruct (only_slot_facts _ _ y me x _ _ Hslot) as (Hx1 & Hy1 & Hc1); try done.
  pose proof (lookup_lt_Some _ _ _ Hy1) as Hlt.
  rewrite (bind_Ret (for_each 0 NOFILE (fork_dup me i)) _ k tt k1) by (exact (bind_Ret _ _ _ _ _ Hrun)).
  rd. destruct (idup_law fs (p_cwd x) k1 Hop1) as (e & m & Hdup & Hqm & _). step Hdup.
  set (k2 := set_ext e (set_mach m k1)). upd. rd. upd. rd.
  assert (quiet (mach k) m) as Hqm0.
  { destruct Hslot as (e0 & m0 & Hq0 & ->). simpl in Hqm. by eapply quiet_trans. }
  destruct (quiet_idle _ _ _ _ Hqm0 Hidle) as (c2 & Hidle2 & _).
  erewrite bind_Ret; [|by eapply acquire_ptable_eq]. upd.
  destruct Hslot as (e0 & m0 & Hq0 & ->).
  match goal with |- context [bind (enqueue_or_exit _ _) _ ?s] => set (k3 := s) end.
  assert (k3 = set_ext e (set_mach (locked_mach m c2 l)
                 (set_ptable (<[i := dressed x y]> (ptable k)) k))) as Hk3.
  { kst_eq. by rewrite !list_insert_insert_eq. }
  destruct (only_slot_queues k Q i y (dressed x y) e (locked_mach m c2 l) Hy eq_refl Hq) as [Hq3 Hh].
  rewrite <- Hk3 in Hq3, Hh. rewrite <- Hh in Hnew.
  assert (ptable k3 !! i = Some (dressed x y)) as Hi3.
  { rewrite Hk3. simpl. apply list_lookup_insert_eq. by eapply lookup_lt_Some. }
  destruct (enqueue_ok custom k3 Q i (dressed x y) Hq3 Hi3 Hpr Hnew) as (k4 & Henq & Hoq & Hq4).
  step Henq. destruct Hoq as (q4 & mk4 & ->).
  erewrite bind_Ret; [|eapply (release_ptable_eq _ m c2 l Hidle2); by rewrite Hk3].
  eexists _, (set_ext e (set_mach (unlocked_mach m c2) (set_ptable (<[i := dressed x y]> (ptable k)) k))).
  split_and!; [done| | |eapply qinv_frame; [..|exact Hq4]; by rewrite ?Hk3].
  - exists e, (unlocked_mach m c2). split; [|done].
    eapply quiet_trans; [done|by eapply quiet_section].
  - exists q4, mk4. rewrite Hk3. by kst_eq.
Qed.
(** A process [x] in slot [me] about to fork into the free slot [i]: a kernel
    stack [ks] is available, its files are open, and no queue entry of the
    default priority is stale for the new process. *)
Record can_fork (k : kst E) (c : cpu) (l : spinlock) (Q : list (list nat)) (me : nat) (x : proc)
    (i : nat) (p : proc) (t : trapframe) (ks : Z) (e1 : E) (fs : list Z) : Prop := {
  cf_idle : idle_lock (mach k) c l;
  cf_cpu : cpu_proc c = Some me;
  cf_me : ptable k !! me = Some x;
  cf_ne : me <> i;
  cf_slot : unused_slot k i;
  cf_i : ptable k !! i = Some p;
  cf_ofx : length (p_ofile x) = 16%nat;
  cf_ofp : length (p_ofile p) = 16%nat;
  cf_pid : 0 <= nextpid k < INT_MAX;
  cf_q : qinv k Q;
  cf_stale : i ∉ level Q 2;
  cf_new : has_pid k (nextpid k) (level Q 2) = false;
  cf_kalloc : kalloc (ext k) = Ret ks e1;
  cf_ks : ks <> 0;
  cf_tf : tfs k !! p_tf x = Some t;
  cf_files : Forall (fun f => f <> 0 -> f ∈ fs) (p_ofile x);
  cf_open : opens fs (p_cwd x) (ext k) (mach k)
}.

(** The child of [x]. *)
Definition child_of (me : nat) (x p : proc) (n ks pg : Z) : proc :=
  dressed x (set_p_parent (Some me) (set_p_sz (p_sz x) (set_p_pgdir pg (embryo_proc n ks p)))).

Section Pre.
Context k c l Q me x i p t ks e1 fs (H : can_fork k c l Q me x i p t ks e1 fs).

Lemma fork_alloc : allocproc k = Ret (Some i) (allocated c i p ks e1 k).
Proof.
  rewrite (allocproc_found k c l i p ks e1); try apply H.
  pose proof (cf_ks _ _ _ _ _ _ _ _ _ _ _ _ H). by destruct (Z.eqb_spec ks 0).
Qed.

(** What holds when allocproc has returned to fork. *)
Lemma fork_allocated :
  let k1 := allocated c i p ks e1 k in
  let y := embryo_proc (nextpid k) ks p in
  quiet (mach k) (mach k1) /\ ptable k1 !! me = Some x /\ ptable k1 !! i = Some y
  /\ qinv k1 Q /\ has_pid k1 (nextpid k) (level Q 2) = false
  /\ opens fs (p_cwd x) (ext k1) (mach k1)
  /\ exists c1, idle_lock (mach k1) c1 l /\ cpu_proc c1 = Some me.
Proof.
  destruct H as [Hidle Hcpu Hme Hne Hslot Hi _ _ _ Hq Hst Hnew Hka _ _ _ Hop]. simpl.
  pose proof (lookup_lt_Some _ _ _ Hi) as Hlt.
  assert (quiet (mach k) (unlocked_mach (mach k) c)) as Hqm by by eapply quiet_section.
  split; [done|]. split; [tbl|]. split; [tbl|]. split_and!.
  - eapply qinv_frame; [..|exact Hq]; simpl; by rewrite ?length_insert.
  - rewrite <- Hnew. apply has_pid_ext_in. intros j Hj.
    unfold pid_of. simpl. rewrite list_lookup_insert_ne; [done|]. by intros ->.
  - eapply opens_kalloc; [|done]. by eapply opens_quiet.
  - destruct (quiet_idle _ _ _ _ Hqm Hidle) as (c1 & Hi1 & Hs). exists c1. split; [done|].
    destruct Hs as (_ & _ & _ & _ & -> & _). done.
Qed.

(** C7: fork with memory available returns the fresh pid to the parent and
    leaves in the free slot a RUNNABLE child with that pid: same size, name,
    directory and open files, its own page table and kernel stack, the
    parent's trap frame except that eax is 0, a context that starts at
    forkret, and a place at the end of the queue of the default priority when
    there are queues.  No other slot changes. *)
Theorem fork_creates_child custom pg e2 :
  copyuvm (p_pgdir x) (p_sz x) e1 = Ret pg e2 -> pg <> 0 ->
  exists k', fork custom k = Ret (nextpid k) k'
    /\ ptable k' = <[i := child_of me x p (nextpid k) ks pg]> (ptable k)
    /\ nextpid k' = nextpid k + 1
    /\ tfs k' = <[tf_of ks := set_tf_eax 0 t]> (tfs k)
    /\ ctxs k' !! ctx_of ks = Some (Context 0 0 0 0 forkret_addr)
    /\ words k' !! ra_of ks = Some trapret_addr
    /\ quiet (mach k) (mach k') /\ qinv k' (enqueued custom i 3 Q).
Proof.
  intros Hcopy Hpg. destruct fork_allocated as (Hqm & Hx1 & Hy1 & Hq1 & Hnew1 & Hop1 & c1 & Hidle1 & Hcpu1).
  pose proof (lookup_lt_Some _ _ _ Hy1) as Hlt. pose proof (cf_ne _ _ _ _ _ _ _ _ _ _ _ _ H) as Hne.
  unfold fork. step fork_alloc. remember (allocated c i p ks e1 k) as k1 eqn:Hk1.
  erewrite bind_Ret; [|by eapply proc_eq; [apply Hidle1|]]. rd.
  erewrite bind_Ret; [|apply extM_Ret; rewrite Hk1; exact Hcopy]. upd. destruct (Z.eqb_spec pg 0); [done|].
  rd. upd. upd. rd.
  assert (tfs k1 !! p_tf x = Some t) as Htf by (rewrite Hk1; apply H).
  erewrite bind_Ret; [|by apply tf_at_eq]. do 2 pure_step.
  match goal with |- context [bind (for_each _ _ _) _ ?s] => remember s as k2 eqn:Hk2 end.
  set (y := set_p_parent (Some me) (set_p_sz (p_sz x) (set_p_pgdir pg (embryo_proc (nextpid k) ks p)))) in *.
  set (k1' := set_tfs (<[tf_of ks := set_tf_eax 0 t]> (tfs k1)) k1).
  assert (k2 = set_ext e2 (set_mach (mach k1) (set_ptable (<[i := y]> (ptable k1')) k1'))) as Hk2'.
  { rewrite Hk2. kst_eq; [by rewrite !list_insert_insert_eq|by rewrite insert_insert_eq]. }
  destruct (only_slot_queues k1' Q i _ y e2 (mach k1) Hy1 eq_refl Hq1) as [Hq2 Hh2].
  rewrite <- Hk2' in Hq2, Hh2. clear Hk2.
  destruct (fork_finish custom fs me i x y c1 l k2 Q) as (k' & k3 & Hrun & Hslot & Hoq & Hq');
    rewrite ?Hk2'; simpl; rewrite ?Hh2; try done; try apply H; [tbl|tbl| | | |].
  { eapply opens_copyuvm; [exact Hop1|]. rewrite Hk1. exact Hcopy. }
  { rewrite Hk2' in Hq2. exact Hq2. }
  { rewrite Hk2' in Hh2. simpl in Hh2. by rewrite Hh2. }
  exists k'. split; [rewrite Hk2' in Hrun; exact Hrun|]. destruct Hslot as (e3 & m3 & Hq3 & ->), Hoq as (q4 & mk4 & ->).
  rewrite Hk2' in *. subst k1. simpl in *. split_and!; try done.
  - by rewrite !list_insert_insert_eq.
  - by rewrite lookup_insert_eq.
  - by rewrite lookup_insert_eq.
  - by eapply quiet_trans.
Qed.

(** Fork that cannot copy the address space returns -1, frees the kernel
    stack and makes the slot UNUSED again: no process state and no queue has
    changed, although the slot keeps the pid it was given. *)
Theorem fork_without_memory custom e2 e3 :
  copyuvm (p_pgdir x) (p_sz x) e1 = Ret 0 e2 -> kfree ks e2 = Ret tt e3 ->
  exists k', fork custom k = Ret (-1) k'
    /\ map p_state (ptable k') = map p_state (ptable k)
    /\ priority_q k' = priority_q k /\ marker k' = marker k
    /\ ext k' = e3 /\ quiet (mach k) (mach k') /\ pid_of k' i = nextpid k.
Proof.
  intros Hcopy Hfree. destruct fork_allocated as (Hqm & Hx1 & Hy1 & _ & _ & _ & c1 & Hidle1 & Hcpu1).
  pose proof (lookup_lt_Some _ _ _ Hy1) as Hlt. pose proof (cf_ne _ _ _ _ _ _ _ _ _ _ _ _ H) as Hne.
  unfold fork. step fork_alloc. remember (allocated c i p ks e1 k) as k1 eqn:Hk1.
  erewrite bind_Ret; [|by eapply proc_eq; [apply Hidle1|]]. rd.
  erewrite bind_Ret; [|apply extM_Ret; rewrite Hk1; exact Hcopy]. upd. cbn [Z.eqb]. rd.
  erewrite bind_Ret; [|apply extM_Ret; exact Hfree]. upd. upd. eexists. split; [done|]. simpl.
  subst k1. simpl in *. rewrite !list_insert_insert_eq. split_and!; try done.
  - rewrite list_fmap_insert. apply list_insert_id.
    destruct (cf_slot _ _ _ _ _ _ _ _ _ _ _ _ H) as [(q & Hq & Hu) _].
    rewrite list_lookup_fmap, Hq. by apply bool_decide_eq_true in Hu as <-.
  - unfold pid_of. simpl. by rewrite list_lookup_insert_eq by (by rewrite length_insert in Hlt).
Qed.
End Pre.
End Fork.

(** * A kill of pid 0 *)

(** Kill(0) matches the pid of a slot that has never been used, and the
    mark it leaves is not cleared by allocproc: the next process created in
    that slot is born killed. *)
Theorem kill_zero_marks_next_process k c l i p ks e :
  idle_lock (mach k) c l -> length (ptable k) = Z.to_nat NPROC -> 0 <= nextpid k < INT_MAX ->
  slot_of k 0 i -> unused_slot k i -> ptable k !! i = Some p ->
  kalloc (ext k) = Ret ks e -> ks <> 0 ->
  exists k1 k2 p2, kill true 0 k = Ret 0 k1 /\ allocproc k1 = Ret (Some i) k2
    /\ ptable k2 !! i = Some p2 /\ p_state p2 = EMBRYO /\ p_pid p2 = nextpid k /\ p_killed p2 = 1.
Proof.
  intros Hidle Hlen Hpid Hslot Hun Hi Hka Hks.
  pose proof (lookup_lt_Some _ _ _ Hi) as Hlt. pose proof Hun as [(q & Hq & Hu) Hfirst]. simplify_eq.
  apply bool_decide_eq_true in Hu.
  assert (killed_proc p = set_p_killed 1 p) as Hk by (unfold killed_proc; rewrite bool_decide_eq_false_2; simpl; congruence).
  exists (with_killed i p (section_done c k)). rewrite (kill_found true k c l 0 i p) by done.
  rewrite (bind_Ret (enqueue_or_exit true i) _ _ _ _ eq_refl).
  step (release_ptable_eq (with_killed i p (set_mach (locked_mach (mach k) c l) k)) _ c l Hidle eq_refl).
  destruct (quiet_idle _ _ _ _ (quiet_section _ _ _ Hidle) Hidle) as (c1 & Hidle1 & _).
  eexists _, (embryo_proc (nextpid k) ks (killed_proc p)). split; [done|].
  rewrite (allocproc_found (with_killed i p (section_done c k)) c1 l i (killed_proc p) ks e); simpl; rewrite ?length_insert; try done.
  - destruct (Z.eqb_spec ks 0); [done|]. split; [done|]. rewrite Hk. split; [|done]. simpl.
    by rewrite list_lookup_insert_eq by (rewrite ?length_insert; done).
  - split.
    + exists (killed_proc p). split; [tbl|]. rewrite Hk. by apply bool_decide_eq_true.
    + intros j r Hj Hr. simpl in Hr. rewrite list_lookup_insert_ne in Hr by lia. eauto.
  - tbl.
Qed.
End Alloc.

(** * Examples *)

Lemma unused1 : unused_slot kst1 3.
Proof.
  split; [by exists proc0|]. intros [|[|[|j]]] p Hj Hp; [by simplify_eq/=..|lia].
Qed.

Lemma slot_of_zero : slot_of kst1 0 3.
Proof.
  split; [by exists proc0|]. intros [|[|[|j]]] p Hj Hp; [by simplify_eq/=..|lia].
Qed.

Lemma can_fork1 :
  can_fork kst1 cpu1 lock1 Q1 1 shell1 3 proc0 (set_tf_eax 1 trapframe0) 0x7000 [0x8000; 0x9000] [5].
Proof.
  constructor; try done; try apply idle1; try apply unused1; try apply qinv1.
  - vm_compute. set_solver.
  - repeat constructor; simpl; set_solver.
  - by exists cpu1.
Qed.

Lemma allocproc_spec_witness :
  (table_full kst1 /\ allocproc kst1 = Ret None (section_done cpu1 kst1)) \/
  (exists i p, unused_slot kst1 i /\ ptable kst1 !! i = Some p /\ forall ks e, kalloc (ext kst1) = Ret ks e ->
     (ks = 0 /\ exists k', allocproc kst1 = Ret None k' /\ ptable k' = <[i := stale_proc (nextpid kst1) p]> (ptable kst1)) \/
     (ks <> 0 /\ allocproc kst1 = Ret (Some i) (allocated cpu1 i p ks e kst1)
      /\ ks <= ctx_of ks /\ ctx_of ks + sizeof_context = ra_of ks
      /\ ra_of ks + 4 = tf_of ks /\ tf_of ks + sizeof_trapframe = ks + KSTACKSIZE)).
Proof. apply (allocproc_spec kst1 cpu1 lock1); [apply idle1|done|by vm_compute]. Defined.

Lemma fork_creates_child_witness :
  exists k', fork false kst1 = Ret 4 k'
    /\ ptable k' = <[3%nat := child_of 1 shell1 proc0 4 0x7000 0x8000]> (ptable kst1)
    /\ nextpid k' = 5
    /\ tfs k' = <[tf_of 0x7000 := set_tf_eax 0 (set_tf_eax 1 trapframe0)]> (tfs kst1)
    /\ ctxs k' !! ctx_of 0x7000 = Some (Context 0 0 0 0 forkret_addr)
    /\ words k' !! ra_of 0x7000 = Some trapret_addr
    /\ quiet (mach kst1) (mach k') /\ qinv k' [[]; []; [2%nat; 3%nat]; []; []].
Proof.
  exact (fork_creates_child kst1 cpu1 lock1 Q1 1 shell1 3 proc0 (set_tf_eax 1 trapframe0) 0x7000
    [0x8000; 0x9000] [5] can_fork1 false 0x8000 [0x9000] eq_refl ltac:(done)).
Defined.

(** The same system with one free page left. *)
Definition kst1_low : kst (list Z) := set_ext [0x7000] kst1.

Lemma can_fork1_low :
  can_fork kst1_low cpu1 lock1 Q1 1 shell1 3 proc0 (set_tf_eax 1 trapframe0) 0x7000 [] [5].
Proof. destruct can_fork1. by constructor. Qed.

Lemma fork_without_memory_witness :
  exists k', fork false kst1_low = Ret (-1) k'
    /\ map p_state (ptable k') = map p_state (ptable kst1)
    /\ priority_q k' = priority_q kst1 /\ marker k' = marker kst1
    /\ ext k' = [0x7000] /\ quiet (mach kst1) (mach k') /\ pid_of k' 3 = 4.
Proof.
  exact (fork_without_memory kst1_low cpu1 lock1 Q1 1 shell1 3 proc0 (set_tf_eax 1 trapframe0) 0x7000
    [] [5] can_fork1_low false [] [0x7000] eq_refl eq_refl).
Defined.

Lemma kill_zero_marks_next_process_witness :
  exists k1 k2 p2, kill true 0 kst1 = Ret 0 k1 /\ allocproc k1 = Ret (Some 3%nat) k2
    /\ ptable k2 !! 3%nat = Some p2 /\ p_state p2 = EMBRYO /\ p_pid p2 = 4 /\ p_killed p2 = 1.
Proof.
  apply (kill_zero_marks_next_process kst1 cpu1 lock1 3 proc0 0x7000 [0x8000; 0x9000]);
    [apply idle1|done|by vm_compute|apply slot_of_zero|apply unused1|done|done|done].
Defined.
