(* ===== verification/Sched.v ===== *)
(** The scheduler's choice and wakeup (src/xv6-public/proc.c). *)
From S2P Require Import Prelude Spinlock ProcState Queue CString Proc ProcLemmas.

(** * The choice of the priority scheduler *)

(** The first process of the first level in use, taken off its queue. *)
Fixpoint pick_spec (Q : list (list nat)) : option nat * list (list nat) :=
  match Q with
  | [] => (None, [])
  | [] :: Q' => let r := pick_spec Q' in (r.1, [] :: r.2)
  | (p :: q) :: Q' => (Some p, q :: Q')
  end.

Lemma pick_spec_cases Q :
  (pick_spec Q = (None, Q) /\ forall j q, Q !! j = Some q -> q = []) \/
  (exists i p q, Q !! i = Some (p :: q) /\ (forall j r, (j < i)%nat -> Q !! j = Some r -> r = [])
     /\ pick_spec Q = (Some p, <[i := q]> Q)).
Proof.
  induction Q as [|[|p q] Q IH]; simpl.
  - left. split; [done|]. by intros j q.
  - destruct IH as [[-> Hall]|(i & p & q & Hi & Hfirst & ->)].
    + left. split; [done|]. intros [|j] q Hq; simpl in Hq; [by simplify_eq|eauto].
    + right. exists (S i), p, q. split_and!; [done| |done].
      intros [|j] r Hj Hr; simpl in Hr; [by simplify_eq|]. eapply Hfirst; [|done]. lia.
  - right. exists O, p, q. split_and!; [done| |done]. intros j r Hj. lia.
Qed.

Section Pick.
Context {E : Type}.

Lemma pick_level_empty (k : kst E) Q i :
  rep k Q -> 0 <= i < PLEVELS -> level Q i = [] -> pick_level i k = Ret None k.
Proof.
  intros Hrep Hi He. pose proof (level_lookup Q k i Hrep Hi) as HQ. rewrite He in HQ.
  destruct (rep_lookup _ _ _ _ Hrep HQ) as (row & _ & Hm & _).
  unfold pick_level. replace i with (Z.of_nat (Z.to_nat i)) by lia.
  by rewrite (bind_Ret _ _ _ _ _ (marker_at_eq _ _ _ Hm)).
Qed.

Lemma pick_level_head (k : kst E) Q i p q :
  qinv k Q -> 0 <= i < PLEVELS -> level Q i = p :: q ->
  exists k', pick_level i k = Ret (Some p) k' /\ only_queues k k' /\ qinv k' (<[Z.to_nat i := q]> Q).
Proof.
  intros Hq Hi He. pose proof (proj1 (proj2 Hq)) as Hrep.
  pose proof (level_lookup Q k i Hrep Hi) as HQ. rewrite He in HQ.
  destruct (rep_lookup _ _ _ _ Hrep HQ) as (row & Hrow & Hm & Hr).
  destruct Hr as (_ & _ & (tl & Htl) & Hb). apply Forall_cons in Hb as [Hp _].
  destruct (remove_ok k Q p i Hq) as (k' & Hrm & Hoq & Hq'); [by rewrite <- (proj1 Hq)|done|].
  exists k'. unfold remove_spec in Hrm, Hq'. rewrite He in Hrm, Hq'.
  rewrite (has_pid_elem k p (p :: q)) in Hrm, Hq' by set_solver.
  simpl in Hq'. rewrite Z.eqb_refl in Hq'. split_and!; try done.
  unfold pick_level. assert (Z.of_nat (Z.to_nat i) = i) as Hz by lia.
  rewrite <- Hz at 1. rewrite (bind_Ret _ _ _ _ _ (marker_at_eq _ _ _ Hm)).
  destruct (Z.gtb_spec (Z.of_nat (length (p :: q))) 0); [|simpl in *; lia].
  rewrite (bind_Ret (node_at i 0) _ _ (Some p) k).
  - pure_step. by step Hrm.
  - pose proof (node_at_eq k (Z.to_nat i) 0 row (Some p) Hrow) as Hn. rewrite Hz in Hn.
    apply Hn. by rewrite Htl.
Qed.

Lemma pick_ok (k : kst E) Q :
  qinv k Q -> exists k', pick k = Ret (pick_spec Q).1 k' /\ only_queues k k' /\ qinv k' (pick_spec Q).2.
Proof.
  intros Hq. pose proof (proj1 (proj2 Hq)) as Hrep.
  assert (forall j, 0 <= j < PLEVELS -> (forall r, Q !! Z.to_nat j = Some r -> r = []) ->
            pick_level j k = Ret None k) as Hskip.
  { intros j Hj Hr. apply (pick_level_empty k Q); [done..|]. apply Hr. by eapply level_lookup. }
  unfold pick, for_range.
  destruct (pick_spec_cases Q) as [[-> Hall]|(i & p & q & Hi & Hfirst & ->)]; cbn [fst snd].
  - exists k. split_and!; try apply Hq; [|apply only_queues_refl].
    apply for_loop_skip. intros j Hj. apply Hskip; [unfold PLEVELS in *; lia|]. intros r. apply Hall.
  - pose proof (lookup_lt_Some _ _ _ Hi) as Hlt. rewrite (proj1 Hrep) in Hlt.
    destruct (pick_level_head k Q (Z.of_nat i) p q Hq) as (k' & Hrun & Hoq & Hq').
    { unfold PLEVELS in *. lia. }
    { unfold level. by rewrite Nat2Z.id, Hi. }
    rewrite Nat2Z.id in Hq'. exists k'. split_and!; try done.
    apply for_loop_exit with (j := Z.of_nat i); [unfold PLEVELS in *; lia| |done].
    intros m Hm. apply Hskip; [unfold PLEVELS in *; lia|]. intros r. apply Hfirst. lia.
Qed.
End Pick.

(** * wakeup1 *)

Definition woken (chan : Z) (p : proc) : proc :=
  if bool_decide (p_state p = SLEEPING) && (p_chan p =? chan) then set_p_state RUNNABLE p else p.

Section Wakeup.
Context {E : Type}.

Lemma woken_pid chan p : p_pid (woken chan p) = p_pid p.
Proof. unfold woken. by destruct (_ && _). Qed.

(** Every level of [Q'] starts with that of [Q]. *)
Definition grown (Q Q' : list (list nat)) : Prop := forall pr, 0 <= pr < PLEVELS -> level Q pr `prefix_of` level Q' pr.

Lemma grown_refl Q : grown Q Q.
Proof. by intros pr _. Qed.

Lemma grown_trans Q1 Q2 Q3 : grown Q1 Q2 -> grown Q2 Q3 -> grown Q1 Q3.
Proof. intros H12 H23 pr Hpr. etrans; [by apply H12|by apply H23]. Qed.

Lemma add_spec_grown (k : kst E) Q p pr : rep k Q -> 0 <= pr < PLEVELS -> grown Q (add_spec k p pr Q).2.
Proof.
  intros Hrep Hpr pr' Hpr'. rewrite (level_add k) by done.
  destruct (Z.eqb_spec pr' pr) as [->|]; [|done]. simpl.
  destruct (negb _); [by apply prefix_app_r|done].
Qed.

Lemma has_pid_grown (k : kst E) x Q Q' pr :
  0 <= pr < PLEVELS -> grown Q Q' -> has_pid k x (level Q pr) = true -> has_pid k x (level Q' pr) = true.
Proof.
  intros Hpr Hg (j & Hj & Heq)%existsb_exists. apply existsb_exists. exists j. split; [|done].
  destruct (Hg pr Hpr) as [t Ht]. rewrite Ht. apply in_or_app. by left.
Qed.

Lemma add_spec_has (k : kst E) Q p pr :
  rep k Q -> 0 <= pr < PLEVELS -> has_pid k (pid_of k p) (level (add_spec k p pr Q).2 pr) = true.
Proof.
  intros Hrep Hpr. rewrite (level_add k) by done. rewrite Z.eqb_refl. simpl.
  destruct (has_pid k (pid_of k p) (level Q pr)) eqn:Hh; simpl; [done|].
  apply has_pid_elem, elem_of_app. right. by apply list_elem_of_singleton.
Qed.

(** [k'] is [k] but for the table, the queues and the console. *)
Definition tables_only (k k' : kst E) : Prop :=
  exists t q m o, k' = set_out o (set_marker m (set_priority_q q (set_ptable t k))).

Lemma unable_if_ok i r (k : kst E) p :
  ptable k !! i = Some p ->
  exists o, (if r =? -1 then unable i else ret tt) k = Ret tt (set_out o k).
Proof.
  intros Hi. destruct (r =? -1).
  - unfold unable. rd. by eexists.
  - exists (out k). by destruct k.
Qed.

(** One slot of the scan. *)
Lemma wakeup1_body_ok custom chan (k : kst E) Q i p :
  qinv k Q -> ptable k !! i = Some p ->
  (p_state p = SLEEPING -> p_chan p = chan -> 1 <= p_priority p <= 5) ->
  exists k' Q', wakeup1_body custom chan (Z.of_nat i) k = Ret tt k'
    /\ ptable k' = <[i := woken chan p]> (ptable k) /\ tables_only k k' /\ qinv k' Q' /\ grown Q Q'
    /\ (custom = false -> p_state p = SLEEPING -> p_chan p = chan ->
        has_pid k (p_pid p) (level Q' (p_priority p - 1)) = true).
Proof.
  intros Hq Hi Hpr. unfold wakeup1_body. rewrite Nat2Z.id. rd. unfold woken.
  pose proof (lookup_lt_Some _ _ _ Hi) as Hlt.
  destruct (bool_decide (p_state p = SLEEPING) && (p_chan p =? chan)) eqn:Hb; bool_props.
  2:{ exists k, Q. split_and!; try done; [by rewrite list_insert_id| | |].
      - exists (ptable k), (priority_q k), (marker k), (out k). by destruct k.
      - apply grown_refl.
      - intros _ Hs Hc. rewrite (bool_decide_eq_true_2 _ Hs) in Hb. simpl in Hb. bool_props. done. }
  apply bool_decide_eq_true in H. subst chan. specialize (Hpr H eq_refl).
  upd. set (k1 := set_ptable _ k).
  destruct (slot_queues k Q i p (set_p_state RUNNABLE p) Hi eq_refl Hq) as [Hq1 Hh].
  destruct custom; simpl.
  { exists k1, Q. split_and!; try done; [|apply grown_refl].
    by exists (ptable k1), (priority_q k), (marker k), (out k). }
  destruct (add_ok k1 Q i (p_priority p - 1) Hq1) as (k2 & Hadd & Hoq & Hq2);
    [by rewrite <- (proj1 Hq)|unfold PLEVELS; lia|].
  assert (ptable k1 !! i = Some (set_p_state RUNNABLE p)) as Hi1 by (by apply list_lookup_insert_eq).
  step (proc_at_eq k1 i _ Hi1). step Hadd.
  destruct (unable_if_ok i (add_spec k1 i (p_priority p - 1) Q).1 k2 (set_p_state RUNNABLE p)) as (o & Ho).
  { by destruct Hoq as (q2 & m2 & ->). }
  pose proof (proj1 (proj2 Hq1)) as Hrep1.
  exists (set_out o k2), (add_spec k1 i (p_priority p - 1) Q).2.
  split; [exact Ho|]. split; [by destruct Hoq as (q2 & m2 & ->)|]. split_and!; try apply Hq2.
  - destruct Hoq as (q2 & m2 & ->). exists (ptable k1), q2, m2, o. by kst_eq.
  - apply add_spec_grown; [done|unfold PLEVELS; lia].
  - intros _ _ _. rewrite <- Hh. pose proof (add_spec_has k1 Q i (p_priority p - 1) Hrep1) as Hhas.
    rewrite (pid_of_eq _ _ _ Hi1) in Hhas. apply Hhas. unfold PLEVELS. lia.
Qed.

(** The table after the scan of the first [j] slots. *)
Definition woken_upto (chan : Z) (j : nat) (t : list proc) : list proc :=
  map (woken chan) (take j t) ++ drop j t.

Lemma woken_upto_lookup chan j t : woken_upto chan j t !! j = t !! j.
Proof.
  unfold woken_upto. destruct (decide (j < length t)%nat).
  - rewrite lookup_app_r; rewrite length_map, length_take; [|lia].
    rewrite lookup_drop. f_equal. lia.
  - rewrite (lookup_ge_None_2 t) by lia. apply lookup_ge_None_2.
    rewrite length_app, length_map, length_take, length_drop. lia.
Qed.

Lemma woken_upto_S chan j t p :
  t !! j = Some p -> <[j := woken chan p]> (woken_upto chan j t) = woken_upto chan (S j) t.
Proof.
  intros Hj. pose proof (lookup_lt_Some _ _ _ Hj) as Hlt. unfold woken_upto.
  rewrite (take_S_r _ _ _ Hj), (drop_S _ _ _ Hj), map_app, <- app_assoc. simpl.
  replace j with (length (map (woken chan) (take j t)) + 0)%nat at 1
    by (rewrite length_map, length_take; lia).
  by rewrite insert_app_r.
Qed.

Lemma woken_upto_pid chan j (k k' : kst E) i :
  ptable k' = woken_upto chan j (ptable k) -> pid_of k' i = pid_of k i.
Proof.
  intros Ht. unfold pid_of. rewrite Ht. unfold woken_upto.
  destruct (decide (i < length (take j (ptable k)))%nat) as [Hi|Hi]; rewrite length_take in Hi.
  - rewrite lookup_app_l by (rewrite length_map, length_take; lia).
    change (map (woken chan)) with (fmap (M := list) (woken chan)). rewrite list_lookup_fmap.
    rewrite lookup_take_lt by lia. destruct (ptable k !! i); simpl; [apply woken_pid|done].
  - rewrite lookup_app_r by (rewrite length_map, length_take; lia).
    rewrite length_map, length_take, lookup_drop.
    destruct (decide (j <= length (ptable k))%nat).
    + by replace (j + (i - j `min` length (ptable k)))%nat with i by lia.
    + by rewrite !lookup_ge_None_2 by lia.
Qed.

(** The scan of the first [j] slots is done. *)
Definition scanned (custom : bool) (chan : Z) (k : kst E) (Q : list (list nat)) (j : Z) (s : kst E) : Prop :=
  ptable s = woken_upto chan (Z.to_nat j) (ptable k) /\ tables_only k s
  /\ exists Q', qinv s Q' /\ grown Q Q'
     /\ (custom = false -> forall i p, Z.of_nat i < j -> ptable k !! i = Some p ->
           p_state p = SLEEPING -> p_chan p = chan ->
           has_pid k (p_pid p) (level Q' (p_priority p - 1)) = true).

Lemma tables_only_trans (k1 k2 k3 : kst E) : tables_only k1 k2 -> tables_only k2 k3 -> tables_only k1 k3.
Proof.
  intros (t1 & q1 & m1 & o1 & ->) (t2 & q2 & m2 & o2 & ->). exists t2, q2, m2, o2. by kst_eq.
Qed.

Lemma scanned_step custom chan (k : kst E) Q j s :
  length (ptable k) = Z.to_nat NPROC ->
  (forall i p, ptable k !! i = Some p -> p_state p = SLEEPING -> p_chan p = chan -> 1 <= p_priority p <= 5) ->
  0 <= j < NPROC -> scanned custom chan k Q j s ->
  exists s', wakeup1_body custom chan j s = Ret tt s' /\ scanned custom chan k Q (j + 1) s'.
Proof.
  intros Hlen Hpr Hj (Ht & Hto & Q' & Hq & Hg & Hdone).
  destruct (lookup_lt_is_Some_2 (ptable k) (Z.to_nat j)) as [p Hp]; [unfold NPROC in *; lia|].
  assert (ptable s !! Z.to_nat j = Some p) as Hps by (by rewrite Ht, woken_upto_lookup).
  destruct (wakeup1_body_ok custom chan s Q' (Z.to_nat j) p Hq Hps) as (s' & Q'' & Hrun & Ht' & Hto' & Hq' & Hg' & Hnew); [eauto|].
  rewrite Z2Nat.id in Hrun by lia. exists s'. split; [done|].
  assert (forall x q, has_pid s x q = has_pid k x q) as Hh
    by (intros x q; apply has_pid_ext; intros i; by eapply woken_upto_pid).
  split; [|split; [by eapply tables_only_trans|]].
  - rewrite Ht', Ht, (woken_upto_S _ _ _ _ Hp). f_equal. lia.
  - exists Q''. split_and!; [done|by eapply grown_trans|]. intros Hc i q Hi Hq0 Hs Hch.
    destruct (decide (i = Z.to_nat j)) as [->|Hne].
    + simplify_eq. rewrite <- Hh. by apply Hnew.
    + specialize (Hpr _ _ Hq0 Hs Hch). eapply has_pid_grown; [unfold PLEVELS; lia|done|].
      apply (Hdone Hc i q); [lia|done..].
Qed.

Lemma wakeup1_ok custom chan (k : kst E) Q :
  qinv k Q ->
  (forall i p, ptable k !! i = Some p -> p_state p = SLEEPING -> p_chan p = chan -> 1 <= p_priority p <= 5) ->
  exists k' Q', wakeup1 custom chan k = Ret tt k' /\ tables_only k k'
    /\ ptable k' = map (woken chan) (ptable k) /\ qinv k' Q' /\ grown Q Q'
    /\ (custom = false -> forall i p, ptable k !! i = Some p -> p_state p = SLEEPING -> p_chan p = chan ->
         has_pid k (p_pid p) (level Q' (p_priority p - 1)) = true).
Proof.
  intros Hq Hpr. pose proof (proj1 Hq) as Hlen.
  destruct (for_each_inv (wakeup1_body custom chan) (scanned custom chan k Q) 0 NPROC k)
    as (k' & Hrun & Ht & Hto & Q' & Hq' & Hg & Hdone); [done| | |].
  - split; [by unfold woken_upto|]. split.
    + exists (ptable k), (priority_q k), (marker k), (out k). by destruct k.
    + exists Q. split_and!; [done|apply grown_refl|]. lia.
  - intros j s Hj Hs. by eapply scanned_step.
  - exists k', Q'. split_and!; try done.
    + rewrite Ht. unfold woken_upto. rewrite take_ge, drop_ge, app_nil_r by (rewrite Hlen; lia). done.
    + intros Hc i p Hi. eapply Hdone; [done| |done]. pose proof (lookup_lt_Some _ _ _ Hi). unfold NPROC in *. lia.
Qed.

(** Wakeup1 makes RUNNABLE exactly the processes that sleep on the channel,
    in both builds; with the priority queues each of them is then in the queue
    of its priority, and no queue loses an entry or has its order changed. *)
Theorem wakeup1_wakes_all_sleepers custom chan (k : kst E) Q :
  qinv k Q ->
  (forall i p, ptable k !! i = Some p -> p_state p = SLEEPING -> p_chan p = chan -> 1 <= p_priority p <= 5) ->
  exists k' Q', wakeup1 custom chan k = Ret tt k'
    /\ ptable k' = map (woken chan) (ptable k) /\ mach k' = mach k
    /\ qinv k' Q' /\ (forall pr, 0 <= pr < PLEVELS -> level Q pr `prefix_of` level Q' pr)
    /\ (custom = false -> forall i p, ptable k !! i = Some p -> p_state p = SLEEPING -> p_chan p = chan ->
         has_pid k (p_pid p) (level Q' (p_priority p - 1)) = true).
Proof.
  intros Hq Hpr. destruct (wakeup1_ok custom chan k Q Hq Hpr) as (k' & Q' & Hrun & Hto & Ht & Hq' & Hg & Hd).
  exists k', Q'. split_and!; try done. by destruct Hto as (t & q & m & o & ->).
Qed.
End Wakeup.

Lemma wakeup1_wakes_all_sleepers_witness :
  exists k' Q', wakeup1 false (proc_addr 0) kst1 = Ret tt k'
    /\ ptable k' = map (woken (proc_addr 0)) (ptable kst1) /\ mach k' = mach kst1
    /\ qinv k' Q' /\ (forall pr, 0 <= pr < PLEVELS -> level Q1 pr `prefix_of` level Q' pr)
    /\ (false = false -> forall i p, ptable kst1 !! i = Some p -> p_state p = SLEEPING ->
         p_chan p = proc_addr 0 -> has_pid kst1 (p_pid p) (level Q' (p_priority p - 1)) = true).
Proof.
  apply (wakeup1_wakes_all_sleepers false (proc_addr 0) kst1 Q1 qinv1).
  intros i p [->|[->|[->| ->]]]%kst1_procs; done.
Defined.
