(* ===== verification/Switching.v ===== *)
(** Giving the processor away (src/xv6-public/proc.c): sched, sleep and the
    dispatch of the priority scheduler. *)
From S2P Require Import Prelude Spinlock ProcState Queue CString Proc ProcLemmas Sched.

(** * One lock held *)

(** The executing CPU holds [lk] and no other lock. *)
Record holds_only (m : machine) (c : cpu) (lk : Z) (l : spinlock) : Prop := {
  ho_cpu : cpus m !! this m = Some c;
  ho_ncli : ncli c = 1;
  ho_irq : irq_on c = false;
  ho_lk : locks m !! lk = Some l;
  ho_locked : locked l <> 0;
  ho_owner : lcpu l = Some (this m)
}.

Definition free_lock (l : spinlock) : Prop := locked l = 0 /\ lcpu l = None.

(** [l] taken by CPU [i], and given back. *)
Definition take_lock (i : nat) (l : spinlock) : spinlock := Spinlock 1 (lname l) (Some i).
Definition drop_lock (l : spinlock) : spinlock := Spinlock 0 (lname l) None.

Lemma locked_holds m c l :
  idle_lock m c l -> ncli c = 0 -> holds_only (locked_mach m c l) (pushed c) ptable_lock (take_lock (this m) l).
Proof.
  intros Hi Hn. constructor; simpl; try done.
  - eapply (lookup_with_cpu m). apply Hi.
  - rewrite Hn. done.
  - apply irq_on_pushed.
  - apply lookup_insert_eq.
Qed.

Lemma pushed_popped c : ncli c = 1 -> irq_on c = false -> popped (pushed c) = c.
Proof.
  intros Hn Hoff. destruct (popped_pushed c (pushed c)) as (Ha & Hb & Hc & Hd & He & Hf).
  { lia. } { done. } { unfold same_cpu. by split_and!. }
  specialize (Hf ltac:(lia)). destruct c, (popped _). simpl in *. congruence.
Qed.

Lemma with_same_cpu m c : cpus m !! this m = Some c -> with_cpu c m = m.
Proof. intros Hc. unfold with_cpu, set_cpus. rewrite list_insert_id by done. by destruct m. Qed.

(** Taking a second lock and then dropping the first leaves the CPU as it was. *)
Lemma hand_over m c lk l lk' l' :
  holds_only m c lk l -> lk <> lk' -> locks m !! lk' = Some l' -> locked l' = 0 ->
  (acquire lk' ;; release lk) m
  = Ret tt (set_locks (<[lk := drop_lock l]> (<[lk' := take_lock (this m) l']> (locks m))) m).
Proof.
  intros H Hne Hl' H0.
  rewrite (bind_Ret _ _ _ _ _ (acquire_eq m c lk' l' (ho_cpu _ _ _ _ H) ltac:(rewrite (ho_ncli _ _ _ _ H); done) Hl' H0)).
  rewrite (release_eq _ (pushed c) lk l).
  - f_equal. unfold with_cpu, set_locks, set_cpus. simpl. f_equal.
    rewrite pushed_popped by apply H. rewrite list_insert_insert_eq. apply list_insert_id, H.
  - eapply (lookup_with_cpu m); apply H.
  - apply irq_on_pushed.
  - simpl. rewrite (ho_ncli _ _ _ _ H). lia.
  - simpl. rewrite lookup_insert_ne by done. apply H.
  - apply H.
  - apply H.
Qed.

(** Dropping the only lock and taking another. *)
Lemma pass_on m c lk l lk' l' :
  holds_only m c lk l -> lk <> lk' -> locks m !! lk' = Some l' -> locked l' = 0 ->
  exists c', (release lk ;; acquire lk') m
    = Ret tt (with_cpu c' (set_locks (<[lk' := take_lock (this m) l']> (<[lk := drop_lock l]> (locks m))) m))
    /\ holds_only (with_cpu c' (set_locks (<[lk' := take_lock (this m) l']> (<[lk := drop_lock l]> (locks m))) m))
         c' lk' (take_lock (this m) l') /\ cpu_proc c' = cpu_proc c.
Proof.
  intros H Hne Hl' H0. exists (pushed (popped c)).
  rewrite (bind_Ret _ _ _ _ _ (release_eq m c lk l (ho_cpu _ _ _ _ H) (ho_irq _ _ _ _ H)
    ltac:(rewrite (ho_ncli _ _ _ _ H); lia) (ho_lk _ _ _ _ H) (ho_locked _ _ _ _ H) (ho_owner _ _ _ _ H))).
  rewrite (acquire_eq _ (popped c) lk' l').
  - split.
    + f_equal. unfold with_cpu, set_locks, set_cpus. simpl. by rewrite list_insert_insert_eq.
    + split; [|done]. constructor; simpl.
      * rewrite list_lookup_insert_eq; [done|]. eapply lookup_lt_Some, H.
      * rewrite (ho_ncli _ _ _ _ H). lia.
      * apply irq_on_pushed.
      * apply lookup_insert_eq.
      * done.
      * done.
  - eapply (lookup_with_cpu (set_locks _ m)). apply H.
  - simpl. by rewrite (ho_ncli _ _ _ _ H).
  - simpl. by rewrite lookup_insert_ne.
  - done.
Qed.

(** * sched *)

Section Sched.
Context {E : Type}.

Lemma machM_same {A} (c : M machine A) (k : kst E) a : c (mach k) = Ret a (mach k) -> machM c k = Ret a k.
Proof. intros H. rewrite (machM_Ret _ _ _ _ H). by destruct k. Qed.

Lemma machM_seq {A B} (a : M machine A) (b : A -> M machine B) (k : kst E) r m :
  (x <- a ;; b x) (mach k) = Ret r m -> (x <- machM a ;; machM (b x)) k = Ret r (set_mach m k).
Proof.
  unfold bind. intros H. destruct (a (mach k)) as [x m'| | | | |] eqn:Ha; try done. simpl in H.
  rewrite (machM_Ret _ _ _ _ Ha). simpl. by rewrite (machM_Ret _ _ r m).
Qed.

Lemma holding_eq m c lk l : holds_only m c lk l -> holding lk m = Ret true m.
Proof.
  intros H. unfold holding, lock_, bind, gets, get_opt, ret. simpl.
  rewrite (ho_lk _ _ _ _ H). simpl. pose proof (ho_locked _ _ _ _ H).
  destruct (Z.eqb_spec (locked l) 0); [done|]. by rewrite bool_decide_eq_true_2 by apply H.
Qed.

Lemma readeflags_eq m c : cpus m !! this m = Some c -> readeflags m = Ret (eflags c) m.
Proof. intros H. unfold readeflags. by rewrite (bind_Ret _ _ _ _ _ (cpu_eq _ _ H)). Qed.

Lemma sched_eq (k : kst E) c l me p :
  holds_only (mach k) c ptable_lock l -> cpu_proc c = Some me ->
  ptable k !! me = Some p -> p_state p <> RUNNING ->
  sched k = Switch k (machM (upd_cpu (set_intena (intena c)))).
Proof.
  intros H Hme Hp Hs. unfold sched. pose proof (ho_cpu _ _ _ _ H) as Hc.
  erewrite bind_Ret; [|by eapply machM_same, holding_eq]. cbn [negb].
  erewrite bind_Ret; [|by eapply machM_same, cpu_eq]. rewrite (ho_ncli _ _ _ _ H). cbn [negb Z.eqb Pos.eqb].
  erewrite bind_Ret; [|by eapply proc_eq]. rd. rewrite bool_decide_eq_false_2 by done.
  erewrite bind_Ret; [|by eapply machM_same, readeflags_eq].
  pose proof (ho_irq _ _ _ _ H) as Hirq. unfold irq_on in Hirq. rewrite Hirq.
  erewrite bind_Ret; [|by eapply machM_same, cpu_eq]. done.
Qed.

Lemma resume_eq (k : kst E) c v :
  cpus (mach k) !! this (mach k) = Some c ->
  machM (upd_cpu (set_intena v)) k = Ret tt (set_mach (with_cpu (set_intena v c) (mach k)) k).
Proof. intros Hc. apply machM_Ret. by apply upd_cpu_eq. Qed.

Lemma holds_only_intena m c lk l v :
  holds_only m c lk l -> holds_only (with_cpu (set_intena v c) m) (set_intena v c) lk l.
Proof. intros []. constructor; try done. by eapply lookup_with_cpu. Qed.

(** * sleep *)

(** The caller of sleep: process [x] in slot [me], holding only [lk]. *)
Record may_sleep (k : kst E) (c : cpu) (lk : Z) (l : spinlock) (me : nat) (x : proc) : Prop := {
  ms_holds : holds_only (mach k) c lk l;
  ms_proc : cpu_proc c = Some me;
  ms_x : ptable k !! me = Some x;
  ms_lk : lk <> 0
}.

Definition asleep (chan : Z) (x : proc) : proc := set_p_state SLEEPING (set_p_chan chan x).

(** What sleep does until it is resumed, and then. *)
Lemma sleep_switch (k : kst E) c lk l me x chan lp :
  may_sleep k c lk l me x -> lk <> ptable_lock ->
  locks (mach k) !! ptable_lock = Some lp -> locked lp = 0 ->
  exists s kont, sleep chan lk k = Switch s kont
    /\ ptable s = <[me := asleep chan x]> (ptable k)
    /\ locks (mach s) = <[lk := drop_lock l]> (<[ptable_lock := take_lock (this (mach k)) lp]> (locks (mach k)))
    /\ (exists c', holds_only (mach s) c' ptable_lock (take_lock (this (mach k)) lp))
    /\ forall s' c' lp' x' l', may_sleep s' c' ptable_lock lp' me x' ->
         locks (mach s') !! lk = Some l' -> locked l' = 0 ->
         exists s'' c'', kont s' = Ret tt s''
           /\ ptable s'' = <[me := set_p_chan 0 x']> (ptable s')
           /\ holds_only (mach s'') c'' lk (take_lock (this (mach s')) l')
           /\ locks (mach s'') !! ptable_lock = Some (drop_lock lp')
           /\ ticks s'' = ticks s' /\ cpu_proc c'' = Some me.
Proof.
  intros [H Hme Hx Hlk] Hne Hlp H0. pose proof (ho_cpu _ _ _ _ H) as Hc.
  pose proof (lookup_lt_Some _ _ _ Hx) as Hlt.
  assert (holds_only (set_locks (<[lk := drop_lock l]> (<[ptable_lock := take_lock (this (mach k)) lp]> (locks (mach k)))) (mach k))
    c ptable_lock (take_lock (this (mach k)) lp)) as Hs.
  { constructor; simpl; try done; try apply H. by rewrite lookup_insert_ne, lookup_insert_eq. }
  unfold sleep. erewrite bind_Ret; [|by eapply machM_same, cpu_eq]. rewrite Hme.
  destruct (Z.eqb_spec lk 0); [done|]. destruct (Z.eqb_spec lk ptable_lock); [done|]. cbn [negb].
  rewrite (bind_Ret (acquire_ptable ;; machM (release lk)) _ k tt
    (set_mach (set_locks (<[lk := drop_lock l]> (<[ptable_lock := take_lock (this (mach k)) lp]> (locks (mach k)))) (mach k)) k)).
  2:{ apply machM_seq. by eapply hand_over. }
  upd. upd.
  match goal with |- context [bind sched _ ?s] => set (ks := s) end.
  unfold bind at 1. rewrite (sched_eq ks c _ me (asleep chan x) Hs Hme) by (done || tbl).
  eexists ks, _. split; [done|]. split; [simpl; by rewrite list_insert_insert_eq|]. split; [done|]. split; [by exists c|].
  clear -Hne. intros s' c' lp' x' l' [H Hme Hx _] Hl' H0. pose proof (ho_cpu _ _ _ _ H) as Hc.
  rewrite (resume_eq s' c' _ Hc). simpl.
  pose proof (holds_only_intena _ _ _ _ (intena c) H) as Hi.
  erewrite bind_Ret; [|by eapply proc_eq; [apply Hi|]]. upd.
  destruct (pass_on _ _ _ _ lk l' Hi (not_eq_sym Hne) Hl' H0) as (c2 & Hrun & Hh & Hp2).
  eexists _, c2. split; [apply machM_seq; exact Hrun|]. split; [done|]. split; [done|].
  split; [simpl; by rewrite lookup_insert_ne, lookup_insert_eq|]. split; [done|by rewrite Hp2].
Qed.

(** C32: sleep with a lock [lk] other than ptable.lock gives the processor away
    in a state where the process is SLEEPING on the channel, ptable.lock is
    held and [lk] has been given back, in one step for everyone who needs
    ptable.lock to wake it, so no wakeup is lost.  When it is resumed with
    ptable.lock held and [lk] free, it clears the channel and returns holding
    [lk] alone. *)
Theorem sleep_releases_and_reacquires (k : kst E) c lk l me x chan lp :
  may_sleep k c lk l me x -> lk <> ptable_lock ->
  locks (mach k) !! ptable_lock = Some lp -> locked lp = 0 ->
  exists s kont, sleep chan lk k = Switch s kont
    /\ ptable s = <[me := asleep chan x]> (ptable k)
    /\ locks (mach s) = <[lk := drop_lock l]> (<[ptable_lock := take_lock (this (mach k)) lp]> (locks (mach k)))
    /\ (exists c', holds_only (mach s) c' ptable_lock (take_lock (this (mach k)) lp))
    /\ forall s' c' lp' x' l', may_sleep s' c' ptable_lock lp' me x' ->
         locks (mach s') !! lk = Some l' -> locked l' = 0 ->
         exists s'' c'', kont s' = Ret tt s''
           /\ ptable s'' = <[me := set_p_chan 0 x']> (ptable s')
           /\ holds_only (mach s'') c'' lk (take_lock (this (mach s')) l')
           /\ locks (mach s'') !! ptable_lock = Some (drop_lock lp').
Proof.
  intros Hm Hne Hlp H0. destruct (sleep_switch k c lk l me x chan lp Hm Hne Hlp H0) as (s & kont & Hs & Hp & Hl & Hh & Hk).
  exists s, kont. split_and!; try done. intros s' c' lp' x' l' Hm' Hl' H0'.
  destruct (Hk s' c' lp' x' l' Hm' Hl' H0') as (s'' & c'' & ? & ? & ? & ? & _). eauto 10.
Qed.
End Sched.

(** The shell about to sleep on the tick counter. *)
Definition kst_tick : kst (list Z) :=
  set_mach (Machine [Cpu 0 0 1 FL_IF 0 (Some 1%nat)] 0
    {[ptable_lock := lock1; tickslock := Spinlock 1 "time" (Some 0%nat)]}) kst1.

Lemma sleep_releases_and_reacquires_witness :
  exists s kont, sleep ticks_chan tickslock kst_tick = Switch s kont
    /\ ptable s = <[1%nat := asleep ticks_chan shell1]> (ptable kst_tick)
    /\ locks (mach s) = <[tickslock := drop_lock (Spinlock 1 "time" (Some 0%nat))]>
         (<[ptable_lock := take_lock 0 lock1]> (locks (mach kst_tick)))
    /\ (exists c', holds_only (mach s) c' ptable_lock (take_lock 0 lock1))
    /\ forall s' c' lp' x' l', may_sleep s' c' ptable_lock lp' 1 x' ->
         locks (mach s') !! tickslock = Some l' -> locked l' = 0 ->
         exists s'' c'', kont s' = Ret tt s''
           /\ ptable s'' = <[1%nat := set_p_chan 0 x']> (ptable s')
           /\ holds_only (mach s'') c'' tickslock (take_lock (this (mach s')) l')
           /\ locks (mach s'') !! ptable_lock = Some (drop_lock lp').
Proof.
  apply (sleep_releases_and_reacquires kst_tick (Cpu 0 0 1 FL_IF 0 (Some 1%nat)) tickslock
    (Spinlock 1 "time" (Some 0%nat)) 1 shell1 ticks_chan lock1); [|done|by vm_compute|done].
  by constructor.
Defined.

(** * The dispatch of the priority scheduler *)

(** What the scheduler expects of the switch of address spaces: on a CPU in
    order it returns and leaves the process layer alone. *)
Class MemLaws (E : Type) `{!MemOps E} := {
  switchuvm_law q (k : kst E) p c : ptable k !! q = Some p -> p_kstack p <> 0 -> p_pgdir p <> 0 ->
    cpus (mach k) !! this (mach k) = Some c -> ncli c = 1 -> irq_on c = false ->
    exists e m, switchuvm q k = Ret tt (set_ext e (set_mach m k)) /\ quiet (mach k) m;
  switchkvm_law (k : kst E) c :
    cpus (mach k) !! this (mach k) = Some c -> ncli c = 1 -> irq_on c = false ->
    exists e m, switchkvm k = Ret tt (set_ext e (set_mach m k)) /\ quiet (mach k) m
}.

#[export] Program Instance mem_list_laws : MemLaws (list Z).
Next Obligation.
  intros q k p c _ _ _ Hc _ _. exists (ext k), (mach k).
  split; [by destruct k|by eapply quiet_refl].
Qed.
Next Obligation.
  intros k c Hc _ _. exists (ext k), (mach k). split; [by destruct k|by eapply quiet_refl].
Qed.

(** With a lock held, a balanced critical section changes nothing. *)
Lemma quiet_locked m m' c : quiet m m' -> cpus m !! this m = Some c -> 0 < ncli c -> m' = m.
Proof.
  intros (c0 & c' & Hc0 & -> & Ha & Hb & Hn & He & Hp & Hi) Hc Hpos.
  assert (c0 = c) as -> by congruence.
  specialize (Hi Hpos). assert (c' = c) as -> by (destruct c, c'; simpl in *; congruence).
  by apply with_same_cpu.
Qed.

Section Dispatch.
Context {E : Type} `{!MemOps E, !MemLaws E}.

Lemma set_proc_of_eq m c v :
  cpus m !! this m = Some c -> set_proc_of (this m) v m = Ret tt (with_cpu (set_cpu_proc v c) m).
Proof.
  intros Hc. unfold set_proc_of. pure_step. rewrite Hc. by pure_step.
Qed.

Lemma holds_only_proc m c lk l v :
  holds_only m c lk l -> holds_only (with_cpu (set_cpu_proc v c) m) (set_cpu_proc v c) lk l.
Proof. intros []. constructor; try done. by eapply lookup_with_cpu. Qed.

(** run_proc up to the switch, and after it. *)
Lemma run_proc_eq (k : kst E) c l q p :
  holds_only (mach k) c ptable_lock l -> ptable k !! q = Some p -> p_kstack p <> 0 -> p_pgdir p <> 0 ->
  exists e, run_proc (this (mach k)) q k
    = Switch (set_ptable (<[q := set_p_state RUNNING p]> (ptable k))
        (set_ext e (set_mach (with_cpu (set_cpu_proc (Some q) c) (mach k)) k)))
        (switchkvm ;; machM (set_proc_of (this (mach k)) None)).
Proof.
  intros H Hq Hks Hpg. pose proof (holds_only_proc _ _ _ _ (Some q) H) as H1.
  unfold run_proc. rewrite (bind_Ret _ _ _ _ _ (machM_Ret _ _ _ _ (set_proc_of_eq _ _ (Some q) (ho_cpu _ _ _ _ H)))).
  destruct (switchuvm_law q (set_mach (with_cpu (set_cpu_proc (Some q) c) (mach k)) k) p (set_cpu_proc (Some q) c))
    as (e & m & Hsw & Hqm); [done..|apply H1|apply H1|apply H1|].
  assert (m = with_cpu (set_cpu_proc (Some q) c) (mach k)) as ->.
  { eapply quiet_locked; [exact Hqm|apply H1|]. rewrite (ho_ncli _ _ _ _ H1). lia. }
  exists e. step Hsw. by upd.
Qed.

(** The scheduler's part of a round after a process has come back. *)
Lemma run_proc_back {A} (k : kst E) c l (r : A) :
  holds_only (mach k) c ptable_lock l ->
  exists k' c', ((switchkvm ;; machM (set_proc_of (this (mach k)) None)) ;; release_ptable ;; ret r) k = Ret r k'
    /\ ptable k' = ptable k /\ locks (mach k') = <[ptable_lock := drop_lock l]> (locks (mach k))
    /\ cpus (mach k') !! this (mach k) = Some c' /\ cpu_proc c' = None /\ ncli c' = 0.
Proof.
  intros H. destruct (switchkvm_law k c) as (e & m & Hsw & Hqm); try apply H.
  assert (m = mach k) as -> by (eapply quiet_locked; [exact Hqm|apply H|rewrite (ho_ncli _ _ _ _ H); lia]).
  pose proof (holds_only_proc _ _ _ _ None H) as H1. set (c1 := set_cpu_proc None c) in *.
  set (k1 := set_ext e (set_mach (mach k) k)).
  assert ((switchkvm ;; machM (set_proc_of (this (mach k)) None)) k = Ret tt (set_mach (with_cpu c1 (mach k)) k1)) as Hset.
  { step Hsw. apply (machM_Ret _ k1). by apply set_proc_of_eq, H. }
  step Hset. erewrite bind_Ret; [|eapply machM_Ret, (release_eq _ c1 ptable_lock l); try apply H1; rewrite (ho_ncli _ _ _ _ H1); lia].
  eexists _, (popped c1). split; [done|]. split; [done|]. split; [done|]. split_and!; simpl.
  - rewrite list_lookup_insert_eq; [done|]. rewrite length_insert. eapply lookup_lt_Some, H.
  - done.
  - rewrite (ho_ncli _ _ _ _ H). done.
Qed.

Lemma sti_idle m c l :
  idle_lock m c l -> ncli c = 0 ->
  exists c1, sti m = Ret tt (with_cpu c1 m) /\ idle_lock (with_cpu c1 m) c1 l /\ ncli c1 = 0.
Proof.
  intros Hi Hn. exists (set_eflags (Z.lor (eflags c) FL_IF) c). split; [unfold sti; by rewrite (upd_cpu_eq m c) by apply Hi|].
  split; [|done]. destruct Hi. constructor; try done.
  - by eapply lookup_with_cpu.
  - simpl. lia.
Qed.

(** C33: a round of the priority scheduler runs the first process of the first
    level in use: it switches to it marked RUNNING, off its queue, as the
    process of this CPU and with ptable.lock held alone; when the process
    gives the CPU back the round clears the CPU's process and releases the
    lock. *)
Theorem scheduler_dispatches_first_of_first_level (k : kst E) c l Q q x p :
  idle_lock (mach k) c l -> ncli c = 0 -> qinv k Q -> (pick_spec Q).1 = Some q ->
  ptable k !! q = Some x -> p_state x = RUNNABLE -> p_kstack x <> 0 -> p_pgdir x <> 0 ->
  exists s kont c', scheduler_priority (this (mach k)) p k = Switch s kont
    /\ ptable s = <[q := set_p_state RUNNING x]> (ptable k) /\ qinv s (pick_spec Q).2
    /\ holds_only (mach s) c' ptable_lock (take_lock (this (mach k)) l) /\ cpu_proc c' = Some q
    /\ forall s' c1 l1, holds_only (mach s') c1 ptable_lock l1 -> this (mach s') = this (mach k) ->
         exists s'' c2, kont s' = Ret (Some q) s'' /\ ptable s'' = ptable s'
           /\ locks (mach s'') = <[ptable_lock := drop_lock l1]> (locks (mach s'))
           /\ cpus (mach s'') !! this (mach s') = Some c2 /\ cpu_proc c2 = None /\ ncli c2 = 0.
Proof.
  intros Hi Hn Hq Hpick Hx Hrun Hks Hpg. destruct (sti_idle _ _ _ Hi Hn) as (c1 & Hsti & Hi1 & Hn1).
  unfold scheduler_priority. step (machM_Ret _ _ _ _ Hsti).
  step (acquire_ptable_eq (set_mach (with_cpu c1 (mach k)) k) c1 l Hi1).
  match goal with |- context [bind pick _ ?s] => set (k1 := s) end.
  destruct (pick_ok k1 Q) as (k2 & Hp & Hoq & Hq2); [by eapply qinv_frame; [..|exact Hq]|].
  step Hp. rewrite Hpick. destruct Hoq as (qs & ms & ->). set (k2 := set_marker ms _) in *.
  pose proof (locked_holds _ _ _ Hi1 Hn1) as Hh.
  destruct (run_proc_eq k2 (pushed c1) _ q x Hh Hx Hks Hpg) as (e & Hgo).
  assert ((x0 <- proc_at q ;; (if bool_decide (p_state x0 = RUNNABLE) then run_proc (this (mach k)) q else ret tt)) k2
    = run_proc (this (mach k2)) q k2) as Hbody.
  { rd. by rewrite bool_decide_eq_true_2. }
  unfold bind at 1. rewrite Hbody, Hgo.
  eexists _, _, (set_cpu_proc (Some q) (pushed c1)). split; [reflexivity|].
  split; [done|]. split; [|split; [by apply holds_only_proc|split; [done|]]].
  - eapply qinv_frame; [..|exact Hq2]; simpl; by rewrite ?length_insert.
  - intros s' c' l1 H' Hthis. change (this (mach k2)) with (this (mach k)). rewrite <- Hthis.
    by apply (run_proc_back s' c').
Qed.
End Dispatch.

Lemma scheduler_dispatches_first_of_first_level_witness :
  exists s kont c', scheduler_priority 0 None kst1 = Switch s kont
    /\ ptable s = <[2%nat := set_p_state RUNNING ready1]> (ptable kst1) /\ qinv s (replicate 5 [])
    /\ holds_only (mach s) c' ptable_lock (take_lock 0 lock1) /\ cpu_proc c' = Some 2%nat
    /\ forall s' c1 l1, holds_only (mach s') c1 ptable_lock l1 -> this (mach s') = 0%nat ->
         exists s'' c2, kont s' = Ret (Some 2%nat) s'' /\ ptable s'' = ptable s'
           /\ locks (mach s'') = <[ptable_lock := drop_lock l1]> (locks (mach s'))
           /\ cpus (mach s'') !! this (mach s') = Some c2 /\ cpu_proc c2 = None /\ ncli c2 = 0.
Proof.
  apply (scheduler_dispatches_first_of_first_level kst1 cpu1 lock1 Q1 2 ready1 None);
    [apply idle1|done|apply qinv1|done..].
Defined.

(** * wakeup with another lock held *)

Lemma locked_same m c l : idle_lock m c l -> ncli c = 1 -> irq_on c = false -> unlocked_mach m c = m.
Proof.
  intros Hi Hn Hoff. unfold unlocked_mach. rewrite pushed_popped by done. apply with_same_cpu, Hi.
Qed.

Lemma wakeup_ok {E} custom chan (k : kst E) c l :
  idle_lock (mach k) c l -> ncli c = 1 -> irq_on c = false -> (exists Q, qinv k Q) ->
  Forall (fun p => p_state p = SLEEPING -> 1 <= p_priority p <= 5) (ptable k) ->
  exists k', wakeup custom chan k = Ret tt k' /\ tables_only k k'
    /\ ptable k' = map (woken chan) (ptable k) /\ exists Q, qinv k' Q.
Proof.
  intros Hi Hn Hoff [Q Hq] Hpr. unfold wakeup. step (acquire_ptable_eq k c l Hi).
  set (k1 := set_mach (locked_mach (mach k) c l) k).
  destruct (wakeup1_ok custom chan k1 Q) as (k2 & Q2 & Hrun & Hto & Ht & Hq2 & _).
  { by eapply qinv_frame; [..|exact Hq]. }
  { intros i p Hp Hs _. rewrite Forall_lookup in Hpr. eauto. }
  step Hrun. destruct Hto as (t & q & m & o & ->).
  rewrite (release_ptable_eq (set_out o (set_marker m (set_priority_q q (set_ptable t k1)))) (mach k) c l Hi eq_refl).
  rewrite (locked_same _ _ _ Hi Hn Hoff).
  eexists. split; [done|]. split_and!; [|done|].
  - exists t, q, m, o. by kst_eq.
  - exists Q2. by eapply qinv_frame; [..|exact Hq2].
Qed.
