(* ===== verification/ExitWait.v ===== *)
(** exit and wait (src/xv6-public/proc.c). *)
From S2P Require Import Prelude Spinlock ProcState Queue CString Proc ProcLemmas Sched Switching.

Section Exit.
Context {E : Type}.

(** * Passing children to init *)

(** What a scan that hands the children of [me] to [ip] may do to a slot:
    [p'] is [p] with its parent replaced when [seen], and perhaps woken. *)
Record handed (me : nat) (ip : option nat) (seen : bool) (p p' : proc) : Prop := {
  h_pid : p_pid p' = p_pid p;
  h_prio : p_priority p' = p_priority p;
  h_parent : p_parent p' = if seen && bool_decide (p_parent p = Some me) then ip else p_parent p;
  h_state : p_state p' = p_state p \/ (p_state p = SLEEPING /\ p_state p' = RUNNABLE);
  h_rest : p_chan p' = p_chan p /\ p_killed p' = p_killed p /\ p_kstack p' = p_kstack p /\ p_pgdir p' = p_pgdir p
}.

(** Nobody sleeps on [chan]. *)
Definition no_sleeper (chan : Z) (t : list proc) : Prop :=
  Forall (fun p => ~ (p_state p = SLEEPING /\ p_chan p = chan)) t.

Definition prios_ok (t : list proc) : Prop :=
  Forall (fun p => p_state p = SLEEPING -> 1 <= p_priority p <= 5) t.

Lemma woken_handed me ip seen chan p p' : handed me ip seen p p' -> handed me ip seen p (woken chan p').
Proof.
  intros [H1 H2 H3 H4 H5]. unfold woken.
  destruct (bool_decide (p_state p' = SLEEPING) && _) eqn:Hb; [|done].
  bool_props. apply bool_decide_eq_true in H. constructor; simpl; try done.
  right. destruct H4 as [H4|[_ H4]]; [|congruence]. split; congruence.
Qed.

Lemma woken_no_sleeper chan t : no_sleeper chan (map (woken chan) t).
Proof.
  unfold no_sleeper. rewrite Forall_map. apply Forall_true. intros p [Hs Hc]. unfold woken in *.
  destruct (bool_decide (p_state p = SLEEPING) && (p_chan p =? chan)) eqn:Hb; simpl in *; [done|].
  rewrite bool_decide_eq_true_2 in Hb by done. simpl in Hb. by apply Z.eqb_neq in Hb.
Qed.

Lemma no_sleeper_woken chan chan' t : no_sleeper chan t -> no_sleeper chan (map (woken chan') t).
Proof.
  unfold no_sleeper. intros H. rewrite Forall_map. eapply Forall_impl; [exact H|]. intros p Hp [Hs Hc]. unfold woken in *.
  destruct (_ && _); simpl in *; [done|]. by apply Hp.
Qed.

Lemma prios_ok_woken chan t : prios_ok t -> prios_ok (map (woken chan) t).
Proof.
  unfold prios_ok. intros H. rewrite Forall_map. eapply Forall_impl; [exact H|]. intros p Hp Hs. simpl in *. unfold woken in *.
  destruct (_ && _); simpl in *; [done|]. by apply Hp.
Qed.

(** The slots below [j] have been handed over. *)
Record handing (me : nat) (k : kst E) (j : Z) (s : kst E) : Prop := {
  hd_tables : tables_only k s;
  hd_q : exists Q, qinv s Q;
  hd_prio : prios_ok (ptable s);
  hd_slots : forall i p, ptable k !! i = Some p ->
    exists p', ptable s !! i = Some p' /\ handed me (initproc k) (Z.of_nat i <? j) p p'
}.

(** One of the slots below [j] is a zombie child of [me]. *)
Definition zombie_below (me : nat) (k : kst E) (j : Z) : Prop :=
  exists i p, Z.of_nat i < j /\ ptable k !! i = Some p /\ p_parent p = Some me /\ p_state p = ZOMBIE.

Definition reparented (me : nat) (k : kst E) (j : Z) (s : kst E) : Prop :=
  handing me k j s /\ (zombie_below me k j -> no_sleeper (chan_of (initproc k)) (ptable s)).

Lemma wakeup1_tables custom chan (k : kst E) :
  (exists Q, qinv k Q) -> prios_ok (ptable k) ->
  exists k', wakeup1 custom chan k = Ret tt k' /\ tables_only k k'
    /\ ptable k' = map (woken chan) (ptable k) /\ exists Q, qinv k' Q.
Proof.
  intros [Q Hq] Hpr. destruct (wakeup1_ok custom chan k Q Hq) as (k' & Q' & Hrun & Hto & Ht & Hq' & _).
  { intros i p Hi Hs _. unfold prios_ok in Hpr. rewrite Forall_lookup in Hpr. eauto. }
  exists k'. split_and!; try done. by exists Q'.
Qed.

Lemma handing_wakeup custom chan me (k : kst E) j s :
  handing me k j s ->
  exists s', wakeup1 custom chan s = Ret tt s' /\ handing me k j s'
    /\ ptable s' = map (woken chan) (ptable s).
Proof.
  intros [Hto Hq Hpr Hsl].
  destruct (wakeup1_tables custom chan s Hq Hpr) as (s' & Hrun & Hto' & Ht & Hq').
  exists s'. split_and!; try done. constructor; try done.
  - by eapply tables_only_trans.
  - rewrite Ht. by apply prios_ok_woken.
  - intros i p Hi. destruct (Hsl i p Hi) as (p' & Hp' & Hh). exists (woken chan p').
    rewrite Ht. split; [|by apply woken_handed].
    change (map (woken chan)) with (fmap (M := list) (woken chan)).
    by rewrite list_lookup_fmap, Hp'.
Qed.

Lemma handed_other me ip seen p p' :
  p_parent p <> Some me -> handed me ip seen p p' -> handed me ip (negb seen) p p'.
Proof.
  intros Hne [H1 H2 H3 H4 H5]. constructor; try done.
  rewrite bool_decide_eq_false_2 in H3 |- * by done. by rewrite andb_false_r in H3 |- *.
Qed.

Lemma seen_step i j : Z.of_nat i <> j -> (Z.of_nat i <? j + 1) = (Z.of_nat i <? j).
Proof. intros H. destruct (Z.ltb_spec (Z.of_nat i) (j + 1)), (Z.ltb_spec (Z.of_nat i) j); lia. Qed.

(** A slot that is not a child of [me] is passed over. *)
Lemma handing_skip me (k : kst E) j s p :
  0 <= j -> handing me k j s -> ptable k !! Z.to_nat j = Some p -> p_parent p <> Some me ->
  handing me k (j + 1) s.
Proof.
  intros Hj [Hto Hq Hpr Hsl] Hp Hne. constructor; try done. intros i q Hi.
  destruct (Hsl i q Hi) as (q' & Hq' & Hh). exists q'. split; [done|].
  destruct (decide (Z.of_nat i = j)) as [<-|Hij]; [|by rewrite seen_step].
  rewrite Nat2Z.id in Hp. simplify_eq. rewrite Z.ltb_irrefl in Hh.
  replace (Z.of_nat i <? Z.of_nat i + 1) with true by (symmetry; apply Z.ltb_lt; lia).
  by apply (handed_other _ _ false).
Qed.

(** A child of [me] gets its new parent. *)
Lemma handing_child me (k : kst E) j s p p' :
  0 <= j -> handing me k j s -> ptable k !! Z.to_nat j = Some p -> p_parent p = Some me ->
  ptable s !! Z.to_nat j = Some p' -> handed me (initproc k) false p p' ->
  handing me k (j + 1) (set_ptable (<[Z.to_nat j := set_p_parent (initproc k) p']> (ptable s)) s).
Proof.
  intros Hj [Hto [Q Hq] Hpr Hsl] Hp Hme Hp' [H1 H2 H3 H4 H5]. pose proof (lookup_lt_Some _ _ _ Hp') as Hlt.
  constructor; simpl.
  - eapply tables_only_trans; [done|].
    exists (<[Z.to_nat j := set_p_parent (initproc k) p']> (ptable s)), (priority_q s), (marker s), (out s). by kst_eq.
  - exists Q. by eapply slot_queues.
  - apply Forall_insert; [done|]. simpl. unfold prios_ok in Hpr. rewrite Forall_lookup in Hpr. eauto.
  - intros i q Hi. destruct (decide (Z.of_nat i = j)) as [<-|Hij].
    + rewrite Nat2Z.id in *. simplify_eq. eexists. split; [by apply list_lookup_insert_eq|].
      replace (Z.of_nat i <? Z.of_nat i + 1) with true by (symmetry; apply Z.ltb_lt; lia).
      constructor; try done. simpl. by rewrite bool_decide_eq_true_2.
    + rewrite seen_step by done. rewrite list_lookup_insert_ne by lia. by apply Hsl.
Qed.

(** One slot of the scan. *)
Lemma reparented_step custom me (k : kst E) j s :
  length (ptable k) = Z.to_nat NPROC -> 0 <= j < NPROC -> reparented me k j s ->
  exists s', exit_reparent custom me j s = Ret tt s' /\ reparented me k (j + 1) s'.
Proof.
  intros Hlen Hj [Hh Hin].
  destruct (lookup_lt_is_Some_2 (ptable k) (Z.to_nat j)) as [p Hp]; [unfold NPROC in *; lia|].
  destruct (hd_slots _ _ _ _ Hh _ _ Hp) as (p' & Hp' & Hhp). rewrite Z2Nat.id, Z.ltb_irrefl in Hhp by lia.
  assert (p_parent p' = p_parent p) as Hpar by (by rewrite (h_parent _ _ _ _ _ Hhp)).
  assert (p_state p' = ZOMBIE <-> p_state p = ZOMBIE) as Hz
    by (destruct (h_state _ _ _ _ _ Hhp) as [->|[-> ->]]; done).
  pose proof (hd_tables _ _ _ _ Hh) as (t & q & m & o & Hs).
  unfold exit_reparent. rd. rewrite Hpar. case_bool_decide as Hme.
  2:{ exists s. split; [done|]. split; [by eapply handing_skip; [lia|..]|].
      intros (i & r & Hi & Hr & Hrme & Hrz). apply Hin. exists i, r. split_and!; try done.
      destruct (decide (Z.of_nat i = j)) as [<-|]; [|lia]. rewrite Nat2Z.id in Hp. by simplify_eq. }
  pure_step. upd. replace (initproc s) with (initproc k) by (by rewrite Hs).
  pose proof (handing_child me k j s p p' ltac:(lia) Hh Hp Hme Hp' Hhp) as Hh1.
  case_bool_decide as Hzs.
  - destruct (handing_wakeup custom (chan_of (initproc k)) me k _ _ Hh1) as (s2 & Hrun & Hh2 & Ht2).
    exists s2. split; [done|]. split; [done|]. intros _. rewrite Ht2. apply woken_no_sleeper.
  - eexists. split; [done|]. split; [done|]. intros (i & r & Hi & Hr & Hrme & Hrz).
    destruct (decide (Z.of_nat i = j)) as [<-|Hij].
    { rewrite Nat2Z.id in *. simplify_eq. exfalso. apply Hzs, Hz, Hrz. }
    assert (no_sleeper (chan_of (initproc k)) (ptable s)) as Hns by (apply Hin; exists i, r; split_and!; [lia|done..]).
    apply Forall_insert; [exact Hns|]. simpl. unfold no_sleeper in Hns. rewrite Forall_lookup in Hns. eapply Hns. done.
Qed.

Lemma handed_refl me ip p : handed me ip false p p.
Proof. constructor; auto. Qed.

Lemma handed_after_woken me ip seen chan p p' : handed me ip seen (woken chan p) p' -> handed me ip seen p p'.
Proof.
  unfold woken. destruct (bool_decide (p_state p = SLEEPING) && _) eqn:Hb; [|done].
  bool_props. apply bool_decide_eq_true in H. intros [H1 H2 H3 H4 H5]. constructor; simpl in *; try done.
  right. destruct H4 as [H4|[H4 _]]; [|done]. done.
Qed.

Lemma handing_no_sleeper me (k s : kst E) j chan :
  length (ptable k) = Z.to_nat NPROC -> handing me k j s ->
  no_sleeper chan (ptable k) -> no_sleeper chan (ptable s).
Proof.
  intros Hlen [_ [Q Hq] _ Hsl] Hns. unfold no_sleeper in *. rewrite Forall_lookup in Hns |- *.
  intros i p' Hp' [Hs Hc].
  destruct (lookup_lt_is_Some_2 (ptable k) i) as [p Hp].
  { rewrite Hlen, <- (proj1 Hq). by eapply lookup_lt_Some. }
  destruct (Hsl i p Hp) as (p2 & Hp2 & Hh). simplify_eq.
  destruct (h_rest _ _ _ _ _ Hh) as (Hch & _), (h_state _ _ _ _ _ Hh) as [Hst|[_ Hst]]; [|congruence].
  apply (Hns i p Hp). split; congruence.
Qed.

(** The wakeup of the parent and the scan, as exit runs them. *)
Lemma exit_scan custom me chan (k : kst E) :
  (exists Q, qinv k Q) -> prios_ok (ptable k) ->
  exists s, (wakeup1 custom chan ;; for_each 0 NPROC (exit_reparent custom me)) k = Ret tt s
    /\ tables_only k s /\ no_sleeper chan (ptable s)
    /\ (forall i p, ptable k !! i = Some p ->
         exists p', ptable s !! i = Some p' /\ handed me (initproc k) true p p')
    /\ (zombie_below me k NPROC -> no_sleeper (chan_of (initproc k)) (ptable s)).
Proof.
  intros Hq Hpr. destruct (wakeup1_tables custom chan k Hq Hpr) as (k2 & Hrun & Hto & Ht & [Q2 Hq2]).
  pose proof (proj1 Hq2) as Hlen2. step Hrun.
  assert (initproc k2 = initproc k) as Hip by (by destruct Hto as (t & q & m & o & ->)).
  destruct (for_each_inv (exit_reparent custom me) (reparented me k2) 0 NPROC k2) as (s & Hloop & Hh & Hz); [done| | |].
  { split.
    - constructor; [|by exists Q2|by rewrite Ht; apply prios_ok_woken|].
      + exists (ptable k2), (priority_q k2), (marker k2), (out k2). by destruct k2.
      + intros i p Hi. exists p. split; [done|]. destruct (Z.ltb_spec (Z.of_nat i) 0); [lia|apply handed_refl].
    - intros (i & p & Hi & _). lia. }
  { intros j s Hj Hs. by apply reparented_step. }
  assert (forall i p, ptable k !! i = Some p -> ptable k2 !! i = Some (woken chan p)) as Hlk.
  { intros i p Hi. rewrite Ht. change (map (woken chan)) with (fmap (M := list) (woken chan)).
    by rewrite list_lookup_fmap, Hi. }
  exists s. split; [done|]. rewrite Hip in *. split_and!.
  - eapply tables_only_trans; [done|apply Hh].
  - eapply handing_no_sleeper; [done..|]. rewrite Ht. apply woken_no_sleeper.
  - intros i p Hi. destruct (hd_slots _ _ _ _ Hh i _ (Hlk i p Hi)) as (p' & Hp' & Hhp).
    exists p'. split; [done|]. rewrite Hip in Hhp. eapply handed_after_woken.
    replace (Z.of_nat i <? NPROC) with true in Hhp; [done|]. symmetry. apply Z.ltb_lt.
    pose proof (lookup_lt_Some _ _ _ (Hlk i p Hi)) as Hl. rewrite Hlen2 in Hl. unfold NPROC in *. lia.
  - intros (i & p & Hi & Hp & Hme & Hzo). apply Hz. exists i, (woken chan p).
    split_and!; [done|by apply Hlk|..]; unfold woken; by rewrite Hzo.
Qed.

(** C34: exit, from taking ptable.lock on, gives the processor away as a ZOMBIE
    holding ptable.lock alone and is never continued; by then every child has
    been handed to init, its parent no longer sleeps in wait, and neither does
    init when one of the children it inherits is already a zombie.  No other
    process changes, except that sleepers may have been woken. *)
Theorem exit_hands_over custom (k : kst E) c l me x :
  idle_lock (mach k) c l -> ncli c = 0 -> cpu_proc c = Some me -> ptable k !! me = Some x ->
  (exists Q, qinv k Q) -> prios_ok (ptable k) ->
  exists s kont x', exit_tail (A := unit) custom me k = Switch s kont
    /\ ptable s !! me = Some x' /\ p_state x' = ZOMBIE /\ p_pid x' = p_pid x
    /\ (forall i p, i <> me -> ptable k !! i = Some p ->
         exists p', ptable s !! i = Some p' /\ handed me (initproc k) true p p')
    /\ no_sleeper (chan_of (p_parent x)) (ptable s)
    /\ (zombie_below me k NPROC -> no_sleeper (chan_of (initproc k)) (ptable s))
    /\ (exists c', holds_only (mach s) c' ptable_lock (take_lock (this (mach k)) l))
    /\ forall s', noret (kont s').
Proof.
  intros Hidle Hn Hme Hx Hq Hpr. unfold exit_tail. step (acquire_ptable_eq k c l Hidle).
  set (k1 := set_mach (locked_mach (mach k) c l) k). rd.
  destruct (exit_scan custom me (chan_of (p_parent x)) k1) as (s & Hscan & Hto & Hns & Hsl & Hz); [|done|].
  { destruct Hq as [Q Hq]. exists Q. by eapply qinv_frame; [..|exact Hq]. }
  destruct (Hsl me x Hx) as (x' & Hx' & Hhx).
  assert (mach s = locked_mach (mach k) c l) as Hm by (by destruct Hto as (t & q & m & o & ->)).
  rewrite (bind_seq _ _ _ _ _ _ Hscan). upd.
  pose proof (lookup_lt_Some _ _ _ Hx') as Hlt.
  match goal with |- context [bind sched _ ?s] => set (ks := s) end.
  pose proof (locked_holds _ _ _ Hidle Hn) as Hh. rewrite <- Hm in Hh.
  unfold bind at 1. rewrite (sched_eq ks (pushed c) _ me (set_p_state ZOMBIE x') Hh Hme) by (done || tbl).
  eexists ks, _, (set_p_state ZOMBIE x'). split; [done|]. simpl. split_and!.
  - tbl.
  - done.
  - apply Hhx.
  - intros i p Hne Hi. destruct (Hsl i p Hi) as (p' & Hp' & Hhp). exists p'. split; [|done]. tbl.
  - by apply Forall_insert; [exact Hns|intros [? _]].
  - intros Hzz. apply Forall_insert; [exact (Hz Hzz)|by intros [? _]].
  - by exists (pushed c).
  - intros s'. by apply noret_obind_r.
Qed.
End Exit.

(** * wait *)

Section Wait.
Context {E : Type} `{!MemOps E}.

Definition child (me : nat) (p : proc) : bool := bool_decide (p_parent p = Some me).
Definition zombie_child (me : nat) (p : proc) : bool := child me p && bool_decide (p_state p = ZOMBIE).

(** The freed slot. *)
Definition reaped (p : proc) : proc :=
  set_p_state UNUSED (set_p_killed 0 (set_p_name (<[O := 0]> (p_name p)) (set_p_parent None
    (set_p_pid 0 (set_p_kstack 0 p))))).

(** The scan of slots that are not zombie children. *)
Lemma wait_scan_skip custom me (k : kst E) n :
  (n <= length (ptable k))%nat ->
  (forall j p, (j < n)%nat -> ptable k !! j = Some p -> zombie_child me p = false) ->
  for_acc n 0 false (wait_body custom me) k = Ret (inr (existsb (child me) (take n (ptable k)))) k.
Proof.
  intros Hn Hno.
  destruct (for_acc_inv (wait_body custom me)
    (fun j b s => s = k /\ b = existsb (child me) (take (Z.to_nat j) (ptable k))) n 0 false k)
    as (b' & s' & Hrun & -> & ->); [done| |by rewrite Z.add_0_l, Nat2Z.id in Hrun].
  intros j b s Hj [-> ->].
  destruct (lookup_lt_is_Some_2 (ptable k) (Z.to_nat j)) as [p Hp]; [lia|].
  specialize (Hno (Z.to_nat j) p ltac:(lia) Hp). unfold zombie_child, child in Hno.
  assert (existsb (child me) (take (Z.to_nat (j + 1)) (ptable k))
    = existsb (child me) (take (Z.to_nat j) (ptable k)) || child me p) as Hs.
  { replace (Z.to_nat (j + 1)) with (S (Z.to_nat j)) by lia.
    rewrite (take_S_r _ _ _ Hp), existsb_app. simpl. by rewrite orb_false_r. }
  eexists _, k. split; [|split; [done|exact (eq_sym Hs)]].
  unfold wait_body. rd. unfold child. case_bool_decide; simpl in Hno |- *.
  - by rewrite Hno, orb_true_r.
  - by rewrite orb_false_r.
Qed.

(** A zombie child is freed. *)
Lemma reap_ok custom (k : kst E) Q i p m c l e1 e2 :
  qinv k Q -> ptable k !! i = Some p -> 1 <= p_priority p <= 5 ->
  idle_lock m c l -> mach k = locked_mach m c l ->
  kfree (p_kstack p) (ext k) = Ret tt e1 -> freevm (p_pgdir p) e1 = Ret tt e2 ->
  exists k', reap custom i k = Ret (p_pid p) k'
    /\ ptable k' = <[i := reaped p]> (ptable k) /\ ext k' = e2
    /\ mach k' = unlocked_mach m c /\ exists Q', qinv k' Q'.
Proof.
  intros Hq Hi Hpr Hidle Hm Hfree Hvm. pose proof (lookup_lt_Some _ _ _ Hi) as Hlt.
  unfold reap. rd. erewrite bind_Ret; [|apply extM_Ret; exact Hfree]. upd. rd.
  erewrite bind_Ret; [|apply extM_Ret; exact Hvm]. do 5 upd.
  match goal with |- context [bind (ifndef_custom _ _) _ ?s] => remember s as k1 eqn:Hk1 end.
  assert (ptable k1 = <[i := reaped p]> (ptable k)) as Ht1.
  { rewrite Hk1. simpl. by rewrite !list_insert_insert_eq. }
  assert (qinv k1 Q) as Hq1.
  { eapply qinv_frame; [..|exact Hq]; [by rewrite Ht1, length_insert|by rewrite Hk1..]. }
  assert (ptable k1 !! i = Some (reaped p)) as Hi1 by (rewrite Ht1; by apply list_lookup_insert_eq).
  assert (exists k2, ifndef_custom custom (x <- proc_at i ;;
      _ <- remove_process_from_queue i (p_priority x - 1) ;; ret tt) k1 = Ret tt k2
    /\ only_queues k1 k2 /\ exists Q', qinv k2 Q') as (k2 & Hrun & Hoq & [Q2 Hq2]).
  { unfold ifndef_custom. destruct custom.
    - exists k1. split_and!; [done|apply only_queues_refl|by exists Q].
    - rd. destruct (remove_ok k1 Q i (p_priority p - 1) Hq1) as (k2 & Hrm & Hoq & Hq2);
        [rewrite <- (proj1 Hq); done|unfold PLEVELS; lia|].
      exists k2. split_and!; [by step Hrm|done|by eexists]. }
  step Hrun. destruct Hoq as (q2 & m2 & ->).
  erewrite bind_Ret; [|eapply (release_ptable_eq _ m c l Hidle); by rewrite Hk1].
  eexists. split; [done|]. split_and!; [by rewrite <- Ht1|by rewrite Hk1|done|].
  exists Q2. by eapply qinv_frame; [..|exact Hq2].
Qed.

(** The caller of wait: process [x] in slot [me]. *)
Record may_wait (k : kst E) (c : cpu) (l : spinlock) (me : nat) (x : proc) (Q : list (list nat)) : Prop := {
  mw_idle : idle_lock (mach k) c l;
  mw_ncli : ncli c = 0;
  mw_proc : cpu_proc c = Some me;
  mw_x : ptable k !! me = Some x;
  mw_q : qinv k Q
}.

(** wait up to the end of its first scan. *)
Lemma wait_first custom fuel k c l me x Q :
  may_wait k c l me x Q ->
  let k1 := set_mach (locked_mach (mach k) c l) k in
  wait custom (S fuel) k =
    (r <- wait_scan custom me ;;
     match r with
     | inl pid => ret pid
     | inr havekids =>
         x <- proc_at me ;;
         if negb havekids || negb (p_killed x =? 0) then release_ptable ;; ret (-1)
         else sleep (proc_addr me) ptable_lock ;; wait_loop custom fuel
     end) k1.
Proof.
  intros [Hidle _ Hme _ _] k1. unfold wait. step (acquire_ptable_eq k c l Hidle).
  simpl. erewrite bind_Ret; [done|]. exact (proc_eq k1 (pushed c) me (locked_cpu _ _ _ Hidle) Hme).
Qed.

(** C35: wait with a zombie child frees the first one: it returns its pid, gives
    its kernel stack and its address space back, leaves its slot UNUSED with
    pid 0 and no parent, changes no other slot and releases ptable.lock. *)
Theorem wait_reaps_first_zombie custom fuel k c l me x Q i p e1 e2 :
  may_wait k c l me x Q -> first_slot (zombie_child me) (ptable k) i -> ptable k !! i = Some p ->
  1 <= p_priority p <= 5 ->
  kfree (p_kstack p) (ext k) = Ret tt e1 -> freevm (p_pgdir p) e1 = Ret tt e2 ->
  exists k', wait custom (S fuel) k = Ret (p_pid p) k'
    /\ ptable k' = <[i := reaped p]> (ptable k) /\ ext k' = e2
    /\ mach k' = unlocked_mach (mach k) c /\ exists Q', qinv k' Q'.
Proof.
  intros Hmw Hslot Hi Hpr Hfree Hvm. rewrite (wait_first custom fuel k c l me x Q Hmw).
  destruct Hmw as [Hidle _ _ _ Hq]. set (k1 := set_mach (locked_mach (mach k) c l) k).
  assert (qinv k1 Q) as Hq1 by (by eapply qinv_frame; [..|exact Hq]).
  destruct (reap_ok custom k1 Q i p _ c l e1 e2 Hq1 Hi Hpr Hidle eq_refl Hfree Hvm)
    as (k' & Hrun & Ht & He & Hm & Hq').
  exists k'. split_and!; try done. pose proof (lookup_lt_Some _ _ _ Hi) as Hlt.
  destruct Hslot as [(p0 & Hp0 & Hz) Hfirst]. assert (p0 = p) as -> by congruence.
  pose proof (proj1 Hq) as Hlen.
  unfold wait_scan. replace (Z.to_nat NPROC) with (i + S (Z.to_nat NPROC - S i))%nat by lia.
  assert (forall r, for_acc (S r) (0 + Z.of_nat i) (existsb (child me) (take i (ptable k1))) (wait_body custom me) k1
    = Ret (inl (p_pid p)) k') as Hexit.
  { intros r. simpl. rewrite (bind_Ret (wait_body custom me (Z.of_nat i) _) _ k1 (inl (p_pid p)) k'); [done|].
    unfold wait_body. rewrite Nat2Z.id. rd. unfold zombie_child, child in Hz.
    apply andb_true_iff in Hz as [-> ->]. simpl. by step Hrun. }
  rewrite (bind_Ret _ _ _ (inl (p_pid p)) k'); [done|]. erewrite for_acc_app; [apply Hexit|].
  apply wait_scan_skip; [simpl; lia|]. intros j q Hj Hq0. eapply Hfirst; eauto.
Qed.

(** Wait without a zombie child.  With no child at all, or with the killed
    mark set, it returns -1 and changes nothing; otherwise it gives the
    processor away asleep on its own slot, holding ptable.lock alone: the
    channel exit wakes. *)
Theorem wait_without_zombie custom fuel k c l me x Q :
  may_wait k c l me x Q -> Forall (fun p => zombie_child me p = false) (ptable k) ->
  if negb (existsb (child me) (ptable k)) || negb (p_killed x =? 0)
  then wait custom (S fuel) k = Ret (-1) (set_mach (unlocked_mach (mach k) c) k)
  else exists s kont, wait custom (S fuel) k = Switch s kont
    /\ ptable s = <[me := asleep (proc_addr me) x]> (ptable k)
    /\ holds_only (mach s) (pushed c) ptable_lock (take_lock (this (mach k)) l).
Proof.
  intros Hmw Hno. rewrite (wait_first custom fuel k c l me x Q Hmw).
  destruct Hmw as [Hidle Hn Hme Hx Hq]. set (k1 := set_mach (locked_mach (mach k) c l) k).
  pose proof (proj1 Hq) as Hlen. pose proof (lookup_lt_Some _ _ _ Hx) as Hlt.
  assert (wait_scan custom me k1 = Ret (inr (existsb (child me) (ptable k))) k1) as Hscan.
  { unfold wait_scan. rewrite wait_scan_skip; [|simpl; lia|].
    - by rewrite take_ge by (simpl; lia).
    - intros j p _ Hp. rewrite Forall_lookup in Hno. eauto. }
  step Hscan. rd.
  destruct (negb (existsb (child me) (ptable k)) || negb (p_killed x =? 0)).
  { by step (release_ptable_eq k1 _ c l Hidle eq_refl). }
  pose proof (locked_holds _ _ _ Hidle Hn) as Hh. unfold sleep at 1. unfold bind at 1.
  erewrite bind_Ret; [|eapply machM_same, cpu_eq; apply Hh]. cbn [cpu_proc pushed]. rewrite Hme.
  change (ptable_lock =? 0) with false. rewrite Z.eqb_refl. cbn [negb]. pure_step. upd. upd.
  match goal with |- context [bind sched _ ?s] => set (ks := s) end.
  unfold bind at 1. rewrite (sched_eq ks (pushed c) _ me (asleep (proc_addr me) x) Hh Hme) by (done || tbl).
  eexists ks, _. split; [done|]. split; [|done]. simpl. by rewrite list_insert_insert_eq.
Qed.
End Wait.

Lemma exit_hands_over_witness :
  exists s kont x', exit_tail (A := unit) false 1 kst1 = Switch s kont
    /\ ptable s !! 1%nat = Some x' /\ p_state x' = ZOMBIE /\ p_pid x' = 2
    /\ (forall i p, i <> 1%nat -> ptable kst1 !! i = Some p ->
         exists p', ptable s !! i = Some p' /\ handed 1 (Some 0%nat) true p p')
    /\ no_sleeper (chan_of (Some 0%nat)) (ptable s)
    /\ (zombie_below 1 kst1 NPROC -> no_sleeper (chan_of (Some 0%nat)) (ptable s))
    /\ (exists c', holds_only (mach s) c' ptable_lock (take_lock 0 lock1))
    /\ forall s', noret (kont s').
Proof.
  apply (exit_hands_over false kst1 cpu1 lock1 1 shell1); [apply idle1|done|done|done|exists Q1; apply qinv1|].
  apply Forall_lookup_2. intros i p [->|[->|[->| ->]]]%kst1_procs; done.
Defined.

(** The shell with a zombie child. *)
Definition zombie1 : proc := set_p_state ZOMBIE ready1.
Definition kst_zombie : kst (list Z) := set_ptable (<[2%nat := zombie1]> (ptable kst1)) kst1.

Lemma may_wait1 : may_wait kst1 cpu1 lock1 1 shell1 Q1.
Proof. constructor; try done. apply qinv1. Qed.

Lemma may_wait_zombie : may_wait kst_zombie cpu1 lock1 1 shell1 Q1.
Proof. constructor; try done. by apply (slot_queues kst1 Q1 2 ready1 zombie1 eq_refl eq_refl qinv1). Qed.

Lemma wait_reaps_first_zombie_witness :
  exists k', wait false 1 kst_zombie = Ret 3 k'
    /\ ptable k' = <[2%nat := reaped zombie1]> (ptable kst_zombie) /\ ext k' = [0x5000; 0x6000; 0x7000; 0x8000; 0x9000]
    /\ mach k' = unlocked_mach (mach kst_zombie) cpu1 /\ exists Q', qinv k' Q'.
Proof.
  apply (wait_reaps_first_zombie false 0 kst_zombie cpu1 lock1 1 shell1 Q1 2 zombie1
    [0x6000; 0x7000; 0x8000; 0x9000] [0x5000; 0x6000; 0x7000; 0x8000; 0x9000]);
    [apply may_wait_zombie| |done|simpl; lia|done|done].
  split; [by exists zombie1|]. intros [|[|j]] p Hj Hp; [by simplify_eq/=..|lia].
Defined.

Lemma wait_without_zombie_witness :
  exists s kont, wait false 1 kst1 = Switch s kont
    /\ ptable s = <[1%nat := asleep (proc_addr 1) shell1]> (ptable kst1)
    /\ holds_only (mach s) (pushed cpu1) ptable_lock (take_lock 0 lock1).
Proof.
  apply (wait_without_zombie false 0 kst1 cpu1 lock1 1 shell1 Q1 may_wait1).
  apply Forall_lookup_2. intros i p [->|[->|[->| ->]]]%kst1_procs; done.
Defined.
