(* ===== verification/Sinv.v ===== *)
(** The scheduling invariant of the build with priority queues: no process
    that is ready to run is ever missing from the queues.  The invariant, its
    preservation by table and queue updates, and its preservation by every
    entry point of the process layer (src/xv6-public/proc.c).

    Which CPU and which process a kernel function runs on: the functions of
    spinlock.c, mycpu and myproc leave the processors' identities and current
    processes alone. *)
From S2P Require Import Prelude Spinlock ProcState Queue CString Proc ProcLemmas.

(** * Identities *)

Definition ids (m : machine) : list (Z * Z) := map (fun c => (apicid c, lapic_id c)) (cpus m).
Definition procs (m : machine) : list (option nat) := map cpu_proc (cpus m).

(** Every local APIC answers with the id of its own CPU, and ids differ. *)
Definition ids_ok (m : machine) : Prop :=
  (forall i c, cpus m !! i = Some c -> lapic_id c = apicid c) /\
  (forall i j c d, cpus m !! i = Some c -> cpus m !! j = Some d -> apicid c = apicid d -> i = j).

(** [m'] has the identities and the current processes of [m]. *)
Record same_ids (m m' : machine) : Prop := {
  same_ids_ids : ids m' = ids m;
  same_ids_procs : procs m' = procs m;
  same_ids_this : this m' = this m
}.

Lemma same_ids_refl m : same_ids m m.
Proof. done. Qed.

Lemma same_ids_trans m1 m2 m3 : same_ids m1 m2 -> same_ids m2 m3 -> same_ids m1 m3.
Proof. intros [] []. constructor; congruence. Qed.

Lemma ids_ok_ext m m' : ids m' = ids m -> ids_ok m -> ids_ok m'.
Proof.
  intros Hids [Ha Hb].
  assert (forall i c, cpus m' !! i = Some c ->
    exists d, cpus m !! i = Some d /\ apicid d = apicid c /\ lapic_id d = lapic_id c) as H.
  { intros i c Hc. assert (ids m' !! i = Some (apicid c, lapic_id c)) as Hi.
    { unfold ids. change (map ?f ?l) with (f <$> l). by rewrite list_lookup_fmap, Hc. }
    rewrite Hids in Hi. unfold ids in Hi. change (map ?f ?l) with (f <$> l) in Hi.
    rewrite list_lookup_fmap in Hi. destruct (cpus m !! i) as [d|]; simplify_eq/=. by exists d. }
  split.
  - intros i c Hc. destruct (H i c Hc) as (d & Hd & <- & <-). eauto.
  - intros i j c d Hc Hd Heq. destruct (H i c Hc) as (c' & Hc' & ? & _), (H j d Hd) as (d' & Hd' & ? & _).
    apply (Hb i j c' d'); congruence.
Qed.

Lemma same_ids_with m c c' :
  cpus m !! this m = Some c -> apicid c' = apicid c -> lapic_id c' = lapic_id c -> cpu_proc c' = cpu_proc c ->
  same_ids m (with_cpu c' m).
Proof.
  intros Hc Ha Hl Hp. constructor; [| |done]; unfold ids, procs, with_cpu; simpl;
    change (map ?f ?l) with (f <$> l); rewrite list_fmap_insert; apply list_insert_id;
    rewrite list_lookup_fmap, Hc; simpl; congruence.
Qed.

(** * The functions of spinlock.c *)

(** [c] does not give the processor away and keeps the identities. *)
Definition calm {A} (c : M machine A) : Prop :=
  forall m, pres (fun _ => False) (fun _ => True) (c m) (fun _ m' => same_ids m m').

Lemma calm_ret {A} (a : A) : calm (ret a).
Proof. intros m. apply same_ids_refl. Qed.

Lemma calm_gets {A} (f : machine -> A) : calm (gets f).
Proof. intros m. apply same_ids_refl. Qed.

Lemma calm_panic {A} s : calm (panic (A := A) s).
Proof. done. Qed.

Lemma calm_opt {A} w (o : option A) : calm (get_opt w o).
Proof. intros m. destruct o; [apply same_ids_refl|done]. Qed.

Lemma calm_bind {A B} (c : M machine A) (f : A -> M machine B) :
  calm c -> (forall a, calm (f a)) -> calm (bind c f).
Proof.
  intros Hc Hf m. eapply pres_seq; [apply Hc|]. intros a m1 H1. eapply pres_mono; [apply Hf|].
  intros b m2 H2. eapply same_ids_trans; [exact H1|exact H2].
Qed.

Lemma calm_if {A} (b : bool) (c d : M machine A) : calm c -> calm d -> calm (if b then c else d).
Proof. destruct b; auto. Qed.

Lemma calm_upd f :
  (forall c, apicid (f c) = apicid c /\ lapic_id (f c) = lapic_id c /\ cpu_proc (f c) = cpu_proc c) ->
  calm (upd_cpu f).
Proof.
  intros Hf m. unfold upd_cpu, cpu_, bind, gets. simpl.
  destruct (cpus m !! this m) as [c|] eqn:Hc; simpl; [|done].
  destruct (Hf c) as (? & ? & ?). by eapply same_ids_with.
Qed.

Lemma calm_put lk l : calm (put_lock lk l).
Proof. done. Qed.

Lemma calm_checked z : calm (checked z).
Proof. intros m. unfold checked. destruct (int_ok z); [apply same_ids_refl|done]. Qed.

Ltac calm_step :=
  first [ apply calm_upd; intros ?; by split_and! | apply calm_bind; [|intros ?] | apply calm_ret | apply calm_gets | apply calm_panic
        | apply calm_opt | apply calm_put | apply calm_checked | apply calm_if
        | done ].

Lemma calm_pushcli : calm pushcli.
Proof. unfold pushcli, readeflags, cli, cpu_. repeat calm_step. Qed.

Lemma calm_popcli : calm popcli.
Proof. unfold popcli, readeflags, sti, cpu_. repeat calm_step. Qed.

Lemma calm_sti : calm sti.
Proof. unfold sti. repeat calm_step. Qed.

Lemma calm_holding lk : calm (holding lk).
Proof. unfold holding, lock_. repeat calm_step. Qed.

Lemma calm_acquire lk : calm (acquire lk).
Proof. unfold acquire. apply calm_bind; [apply calm_pushcli|intros _]. apply calm_bind; [apply calm_holding|intros h].
  unfold lock_. repeat calm_step. Qed.

Lemma calm_release lk : calm (release lk).
Proof.
  unfold release. apply calm_bind; [apply calm_holding|intros h]. apply calm_if; [apply calm_panic|].
  unfold lock_. apply calm_bind; [repeat calm_step|intros l]. apply calm_bind; [apply calm_put|intros _; apply calm_popcli].
Qed.

Lemma calm_cpu : calm cpu_.
Proof. unfold cpu_. repeat calm_step. Qed.

Lemma calm_mycpu : calm mycpu.
Proof.
  unfold mycpu. apply calm_bind; [unfold readeflags, cpu_; repeat calm_step|intros fl].
  apply calm_if; [apply calm_panic|]. apply calm_bind; [apply calm_cpu|intros me].
  apply calm_bind; [apply calm_gets|intros cs]. apply calm_bind.
  - intros m. unfold for_range. eapply pres_mono; [apply (pres_for_loop _ _ _ (same_ids m) (fun _ => same_ids m))|].
    + apply same_ids_refl.
    + intros j m1 H1. unfold bind, get_opt, ret. destruct (arr_get cs j); simpl; [|done]. by destruct (_ =? _).
    + by intros [i|] m1.
  - intros [i|]; [apply calm_ret|apply calm_panic].
Qed.

(** * Lifted to the kernel state *)

Section Lift.
Context {E : Type} (G R : kst E -> Prop).

Definition only_mach (k k' : kst E) : Prop := exists m, k' = set_mach m k /\ same_ids (mach k) m.

Lemma pres_machM {A} (c : M machine A) (k : kst E) :
  calm c -> pres G R (machM c k) (fun _ k' => only_mach k k').
Proof.
  intros Hc. specialize (Hc (mach k)). unfold machM, zoom. destruct (c (mach k)); simpl in *; try done.
  - by eexists.
  - by destruct Hc.
Qed.

(** The lookups of mycpu find the executing CPU. *)
Lemma mycpu_this m :
  ids_ok m -> pres (fun _ => False) (fun _ => True) (mycpu m) (fun i m' => i = this m /\ same_ids m m').
Proof.
  intros Hok. pose proof (calm_mycpu m) as Hcalm.
  assert (pres (fun _ => False) (fun _ => True) (mycpu m) (fun i _ => i = this m)) as Hi.
  2:{ destruct (mycpu m); simpl in *; try done. by destruct Hi. }
  unfold mycpu, readeflags, cpu_, bind at 1 2 3, gets. simpl.
  destruct (cpus m !! this m) as [c|] eqn:Hc; simpl; [|done]. unfold ret at 1. simpl.
  destruct (negb _); [done|]. unfold bind at 1 2, gets, get_opt. simpl. rewrite Hc. simpl.
  unfold bind at 1, gets. simpl. eapply pres_seq.
  - unfold for_range. apply (pres_for_loop _ _ _ (fun _ => True) (fun i _ => i = this m)); [done|].
    intros j m1 _. unfold bind. destruct (arr_get (cpus m) j) as [d|] eqn:Hd; simpl; [|done].
    destruct (Z.eqb_spec (apicid d) (lapic_id c)) as [Heq|]; simpl; [|done].
    unfold arr_get in Hd. destruct (0 <=? j); [|done]. destruct Hok as [Ha Hb].
    apply (Hb _ _ _ _ Hd Hc). rewrite Heq. eauto.
  - intros [i|] m1 H1; done.
Qed.

Lemma same_ids_proc m m' i c :
  same_ids m m' -> cpus m !! i = Some c -> exists c', cpus m' !! i = Some c' /\ cpu_proc c' = cpu_proc c.
Proof.
  intros [_ Hp _] Hc. assert (procs m' !! i = Some (cpu_proc c)) as Hi.
  { rewrite Hp. unfold procs. change (map ?f ?l) with (f <$> l). by rewrite list_lookup_fmap, Hc. }
  unfold procs in Hi. change (map ?f ?l) with (f <$> l) in Hi. rewrite list_lookup_fmap in Hi.
  destruct (cpus m' !! i) as [c'|]; simplify_eq/=. by exists c'.
Qed.

Lemma myproc_this (k : kst E) c :
  ids_ok (mach k) -> cpus (mach k) !! this (mach k) = Some c ->
  pres G R (myproc k) (fun r k' => r = cpu_proc c /\ only_mach k k').
Proof.
  intros Hok Hc. unfold myproc, machM, zoom. set (m := mach k) in *.
  match goal with |- context [ozoom _ _ _ (?p m)] => set (prog := p) end.
  assert (pres (fun _ => False) (fun _ => True) (prog m) (fun r m' => r = cpu_proc c /\ same_ids m m')) as H.
  2:{ destruct (prog m); simpl in *; try done.
      - destruct H as [-> H]. split; [done|]. by eexists.
      - by destruct H. }
  unfold prog. eapply pres_seq; [apply calm_pushcli|]. intros ? m1 H1.
  eapply pres_seq; [apply mycpu_this; by eapply ids_ok_ext; [apply H1|]|]. intros i m2 [Hi H2]. subst i.
  pose proof (same_ids_trans _ _ _ H1 H2) as H12.
  destruct (same_ids_proc m m2 (this m) c H12 Hc) as (c2 & Hc2 & Hp2).
  unfold bind at 1, gets. simpl. rewrite (same_ids_this _ _ H1), Hc2. unfold bind at 1. simpl.
  eapply pres_seq; [apply calm_popcli|]. intros ? m3 H3. split; [done|]. by eapply same_ids_trans.
Qed.
End Lift.

Section Invariant.
Context {E : Type}.

(** Slot [i] is in one of the queues. *)
Definition queued (Q : list (list nat)) (i : nat) : Prop :=
  exists pr, 0 <= pr < PLEVELS /\ i ∈ level Q pr.

(** The invariant, but for the readiness of the slot [ex]. *)
Record sinv_but (ex : option nat) (k : kst E) (Q : list (list nat)) : Prop := {
  si_q : qinv k Q;
  si_ids : ids_ok (mach k);
  si_prio : forall i p, ptable k !! i = Some p -> p_state p <> UNUSED -> 1 <= p_priority p <= 5;
  si_live : forall i p, ptable k !! i = Some p -> p_state p <> UNUSED -> p_pid p <> 0;
  si_next : 0 < nextpid k /\ forall i, pid_of k i < nextpid k;
  si_pid : forall i j, pid_of k i = pid_of k j -> pid_of k i <> 0 -> i = j;
  si_ready : forall i p, ptable k !! i = Some p -> p_state p = RUNNABLE -> Some i <> ex -> queued Q i
}.

Definition sinv (k : kst E) : Prop := exists Q, sinv_but None k Q.

(** * Updates that keep it *)

Lemma sinv_frame ex (k k' : kst E) Q :
  ptable k' = ptable k -> priority_q k' = priority_q k -> marker k' = marker k ->
  nextpid k' = nextpid k -> ids (mach k') = ids (mach k) -> sinv_but ex k Q -> sinv_but ex k' Q.
Proof.
  intros Ht Hp Hm Hn Hi [H1 H2 H3 H4 H5 H6 H7].
  assert (forall i, pid_of k' i = pid_of k i) as Hpid by (intros i; unfold pid_of; by rewrite Ht).
  constructor.
  - eapply qinv_frame; [by rewrite Ht|done..].
  - by eapply ids_ok_ext.
  - by rewrite Ht.
  - by rewrite Ht.
  - rewrite Hn. split; [apply H5|]. intros i. rewrite Hpid. apply H5.
  - intros i j. rewrite !Hpid. apply H6.
  - rewrite Ht. apply H7.
Qed.

(** A slot gets a new state and other fields, not a new pid. *)
Lemma sinv_upd ex (k : kst E) Q i p p' :
  sinv_but ex k Q -> ptable k !! i = Some p -> p_pid p' = p_pid p ->
  (p_state p' <> UNUSED -> 1 <= p_priority p' <= 5) ->
  (p_state p' <> UNUSED -> p_pid p <> 0) ->
  (p_state p' = RUNNABLE -> Some i <> ex -> p_state p = RUNNABLE) ->
  sinv_but ex (set_ptable (<[i := p']> (ptable k)) k) Q.
Proof.
  intros [H1 H2 H3 H4 H5 H6 H7] Hi Hp Hpr Hlive Hrun.
  assert (forall j, pid_of (set_ptable (<[i := p']> (ptable k)) k) j = pid_of k j) as Hpid
    by (intros j; by eapply pid_of_update).
  assert (forall j q, <[i := p']> (ptable k) !! j = Some q ->
    (j = i /\ q = p') \/ (j <> i /\ ptable k !! j = Some q)) as Hl.
  { intros j q. destruct (decide (i = j)) as [<-|Hne].
    - rewrite list_lookup_insert_eq by (by eapply lookup_lt_Some). intros [= <-]. by left.
    - rewrite list_lookup_insert_ne by done. right. by split. }
  constructor; try done.
  - by eapply slot_queues.
  - intros j q [[-> ->]|[_ Hq]]%Hl; eauto.
  - intros j q [[-> ->]|[_ Hq]]%Hl; [|eauto]. rewrite Hp. auto.
  - split; [apply H5|]. intros j. rewrite Hpid. apply H5.
  - intros j j'. rewrite !Hpid. apply H6.
  - intros j q [[-> ->]|[_ Hq]]%Hl Hr Hex; [|eauto]. eapply H7; [exact Hi| |done]. auto.
Qed.

(** An update of a field other than pid, state and priority. *)
Lemma sinv_upd_same ex (k : kst E) Q i p p' :
  sinv_but ex k Q -> ptable k !! i = Some p ->
  p_pid p' = p_pid p -> p_state p' = p_state p -> p_priority p' = p_priority p ->
  sinv_but ex (set_ptable (<[i := p']> (ptable k)) k) Q.
Proof.
  intros H Hi Hp Hs Hpr. eapply sinv_upd; try done; rewrite ?Hs, ?Hpr; try done.
  - intros Hu. by eapply (si_prio _ _ _ H).
  - intros Hu. by eapply (si_live _ _ _ H).
Qed.

(** A slot is freed, and a free slot gets the next pid. *)
Lemma table_insert_cases (k : kst E) i p' : (i < length (ptable k))%nat ->
  forall j q, <[i := p']> (ptable k) !! j = Some q -> (j = i /\ q = p') \/ (j <> i /\ ptable k !! j = Some q).
Proof.
  intros Hi j q. destruct (decide (i = j)) as [<-|Hne].
  - rewrite list_lookup_insert_eq by done. intros [= <-]. by left.
  - rewrite list_lookup_insert_ne by done. right. by split.
Qed.

Lemma pid_of_insert (k : kst E) i p' n j : (i < length (ptable k))%nat ->
  pid_of (set_nextpid n (set_ptable (<[i := p']> (ptable k)) k)) j = if decide (j = i) then p_pid p' else pid_of k j.
Proof.
  intros Hi. unfold pid_of. simpl. case_decide as Hj.
  - subst j. by rewrite list_lookup_insert_eq.
  - by rewrite list_lookup_insert_ne.
Qed.

Lemma sinv_repid ex (k : kst E) Q i p p' n :
  sinv_but ex k Q -> ptable k !! i = Some p ->
  (p_state p' = UNUSED /\ p_pid p' = 0 /\ n = nextpid k) \/
  (p_state p' <> RUNNABLE /\ 1 <= p_priority p' <= 5 /\ p_pid p' = nextpid k /\ n = nextpid k + 1) ->
  sinv_but ex (set_nextpid n (set_ptable (<[i := p']> (ptable k)) k)) Q.
Proof.
  intros [H1 H2 H3 H4 [H5a H5b] H6 H7] Hi Hp'. pose proof (lookup_lt_Some _ _ _ Hi) as Hlt.
  constructor; simpl; try done.
  - eapply qinv_frame; [..|exact H1]; simpl; by rewrite ?length_insert.
  - intros j q [[-> ->]|[_ Hq]]%table_insert_cases; [|eauto|done]. destruct Hp' as [(? & _)|(_ & ? & _)]; done.
  - intros j q [[-> ->]|[_ Hq]]%table_insert_cases; [|eauto|done]. destruct Hp' as [(? & _)|(_ & _ & ? & _)]; [done|]. lia.
  - split; [lia|]. intros j. rewrite pid_of_insert by done. specialize (H5b j). case_decide; lia.
  - intros j j'. rewrite !pid_of_insert by done. pose proof (H5b j). pose proof (H5b j').
    repeat case_decide; subst; try done; try lia. by apply H6.
  - intros j q [[-> ->]|[_ Hq]]%table_insert_cases Hr Hex; [|eauto|done].
    destruct Hp' as [(? & _)|(? & _)]; congruence.
Qed.

(** Leaving the ready state needs no queue, whatever the exception was. *)
Lemma sinv_weaken ex (k : kst E) Q : sinv_but None k Q -> sinv_but ex k Q.
Proof. intros [H1 H2 H3 H4 H5 H6 H7]. constructor; try done. intros i p Hi Hr _. by eapply H7. Qed.

Lemma sinv_close i (k : kst E) Q :
  sinv_but (Some i) k Q -> (forall p, ptable k !! i = Some p -> p_state p = RUNNABLE -> queued Q i) ->
  sinv_but None k Q.
Proof.
  intros [H1 H2 H3 H4 H5 H6 H7] Hi. constructor; try done. intros j p Hj Hr _.
  destruct (decide (j = i)) as [->|Hne]; [by eapply Hi|]. eapply H7; [done..|congruence].
Qed.

(** * Queue updates *)

Lemma sinv_queues ex (k k' : kst E) Q Q' :
  only_queues k k' -> qinv k' Q' -> sinv_but ex k Q ->
  (forall i, queued Q i -> queued Q' i) -> sinv_but ex k' Q'.
Proof.
  intros (q & m & ->) Hq [H1 H2 H3 H4 H5 H6 H7] Hin. constructor; try done.
  intros i p Hi Hr Hex. eapply Hin, H7; done.
Qed.

(** Appending never loses an entry, and queues a process with a pid. *)
Lemma sinv_add ex (k : kst E) Q i pr :
  sinv_but ex k Q -> (i < Z.to_nat NPROC)%nat -> 0 <= pr < PLEVELS ->
  exists r k' Q', add_process_to_queue i pr k = Ret r k' /\ only_queues k k'
    /\ sinv_but ex k' Q' /\ (pid_of k i <> 0 -> queued Q' i).
Proof.
  intros H Hi Hpr. destruct (add_ok k Q i pr (si_q _ _ _ H) Hi Hpr) as (k' & Hrun & Hoq & Hq').
  pose proof (proj1 (proj2 (si_q _ _ _ H))) as Hrep.
  exists (add_spec k i pr Q).1, k', (add_spec k i pr Q).2. split_and!; try done.
  - eapply sinv_queues; [done..|]. intros j (pr' & Hpr' & Hj). exists pr'. split; [done|].
    rewrite (level_add k) by done. destruct (Z.eqb_spec pr' pr) as [->|]; simpl; [|done].
    destruct (negb _); [|done]. apply elem_of_app. by left.
  - intros Hpid. exists pr. split; [done|]. rewrite (level_add k) by done. rewrite Z.eqb_refl. simpl.
    destruct (has_pid k (pid_of k i) (level Q pr)) eqn:Hh; simpl.
    + apply existsb_exists in Hh as (j & Hj & Heq%Z.eqb_eq). apply list_elem_of_In in Hj.
      rewrite (si_pid _ _ _ H i j); done.
    + apply elem_of_app. right. by apply list_elem_of_singleton.
Qed.

Lemma remove_pid_other (k : kst E) x q j : j ∈ q -> pid_of k j <> x -> j ∈ remove_pid k x q.
Proof.
  induction q as [|a q IH]; simpl; [done|]. intros [->|Hj]%elem_of_cons Hne.
  - destruct (Z.eqb_spec (pid_of k a) x); [done|]. set_solver.
  - destruct (pid_of k a =? x); [done|]. apply elem_of_cons. right. auto.
Qed.

(** Removing a process from a level can only unqueue that process. *)
Lemma sinv_remove (k : kst E) Q i pr :
  sinv_but (Some i) k Q -> (i < Z.to_nat NPROC)%nat -> 0 <= pr < PLEVELS ->
  exists r k' Q', remove_process_from_queue i pr k = Ret r k' /\ only_queues k k' /\ sinv_but (Some i) k' Q'.
Proof.
  intros H Hi Hpr. destruct (remove_ok k Q i pr (si_q _ _ _ H) Hi Hpr) as (k' & Hrun & Hoq & Hq').
  pose proof (proj1 (proj2 (si_q _ _ _ H))) as Hrep.
  assert (forall j p, ptable k !! j = Some p -> p_state p = RUNNABLE -> pid_of k j <> 0) as Hlive.
  { intros j p Hj Hr. rewrite (pid_of_eq _ _ _ Hj). eapply (si_live _ _ _ H); [done|]. by rewrite Hr. }
  exists (remove_spec k i pr Q).1, k', (remove_spec k i pr Q).2. split_and!; try done.
  destruct Hoq as (q & m & ->). destruct H as [H1 H2 H3 H4 H5 H6 H7]. constructor; try done.
  intros j p Hj Hr Hex. destruct (H7 j p Hj Hr Hex) as (pr' & Hpr' & Hin). exists pr'. split; [done|].
  rewrite (level_remove k) by done. destruct (Z.eqb_spec pr' pr) as [->|]; [|done].
  apply remove_pid_other; [done|]. intros Heq. apply Hex. f_equal. apply H6; [done|]. by eapply Hlive.
Qed.

(** Outside the levels the arrays are not defined. *)
Lemma add_oob (k : kst E) Q i pr : qinv k Q -> ~ (0 <= pr < PLEVELS) -> add_process_to_queue i pr k = Undef "marker".
Proof.
  intros (_ & (_ & _ & Hm & _) & _) Hpr. unfold add_process_to_queue, marker_at, bind, gets, get_opt. simpl.
  unfold arr_get. destruct (Z.leb_spec 0 pr); [|done].
  rewrite lookup_ge_None_2; [done|]. rewrite Hm. unfold PLEVELS in *. lia.
Qed.

Lemma remove_oob (k : kst E) Q i pr : qinv k Q -> ~ (0 <= pr < PLEVELS) -> remove_process_from_queue i pr k = Undef "marker".
Proof.
  intros (_ & (_ & _ & Hm & _) & _) Hpr. unfold remove_process_from_queue, marker_at, bind, gets, get_opt. simpl.
  unfold arr_get. destruct (Z.leb_spec 0 pr); [|done].
  rewrite lookup_ge_None_2; [done|]. rewrite Hm. unfold PLEVELS in *. lia.
Qed.
End Invariant.
