(* ===== verification/SinvOps.v ===== *)
(** Every entry point of the process layer (src/xv6-public/proc.c), built with
    the priority queues, keeps the scheduling invariant of [Sinv] at every
    point where it gives the processor away, provided it is resumed as the
    running process of its CPU in a state that has the invariant. *)
From S2P Require Import Prelude Spinlock ProcState Queue CString Proc ProcLemmas Sinv Sched.

(** * The running process *)

Section Cur.
Context {E : Type}.

(** Slot [me] is the RUNNING process of the executing CPU. *)
Definition cur (k : kst E) (me : nat) : Prop :=
  exists c p, cpus (mach k) !! this (mach k) = Some c /\ cpu_proc c = Some me
    /\ ptable k !! me = Some p /\ p_state p = RUNNING.

Definition thread (me : nat) (k : kst E) : Prop := sinv k /\ cur k me.

(** [k'] has the process table, the queues and the identities of [k]. *)
Record kept (k k' : kst E) : Prop := {
  kp_table : ptable k' = ptable k;
  kp_queues : priority_q k' = priority_q k;
  kp_marker : marker k' = marker k;
  kp_next : nextpid k' = nextpid k;
  kp_mach : same_ids (mach k) (mach k')
}.

Lemma kept_mach k k' : only_mach k k' -> kept k k'.
Proof. intros (m & -> & H). by constructor. Qed.

Lemma kept_refl k : kept k k.
Proof. constructor; try done. Qed.

Lemma kept_sinv ex k k' Q : kept k k' -> sinv_but ex k Q -> sinv_but ex k' Q.
Proof. intros [H1 H2 H3 H4 H5]. apply sinv_frame; try done. apply H5. Qed.

Lemma kept_cur k k' me : kept k k' -> cur k me -> cur k' me.
Proof.
  intros [H1 _ _ _ H5] (c & p & Hc & Hme & Hp & Hr).
  destruct (same_ids_proc _ _ _ _ H5 Hc) as (c' & Hc' & Hp').
  exists c', p. rewrite (same_ids_this _ _ H5), H1. split_and!; congruence.
Qed.

Lemma kept_thread k k' me : kept k k' -> thread me k -> thread me k'.
Proof. intros Hk [[Q HQ] Hc]. split; [exists Q; by eapply kept_sinv|by eapply kept_cur]. Qed.

(** The current process survives table updates that leave it RUNNING. *)
Lemma cur_upd (k : kst E) me i p p' :
  cur k me -> ptable k !! i = Some p -> (i = me -> p_state p' = RUNNING) ->
  cur (set_ptable (<[i := p']> (ptable k)) k) me.
Proof.
  intros (c & x & Hc & Hme & Hx & Hr) Hi Hp. destruct (decide (i = me)) as [->|Hne].
  - exists c, p'. split_and!; try done; [|by apply Hp]. simpl.
    apply list_lookup_insert_eq. by eapply lookup_lt_Some.
  - exists c, x. split_and!; try done. simpl. by rewrite list_lookup_insert_ne.
Qed.

Lemma cur_queues (k k' : kst E) me : only_queues k k' -> cur k me -> cur k' me.
Proof. by intros (q & m & ->). Qed.

(** * Rules *)

Context (G R : kst E -> Prop).

Lemma pres_read i (k : kst E) Q : (forall p, ptable k !! i = Some p -> Q p k) -> pres G R (proc_at i k) Q.
Proof. intros H. unfold proc_at, bind, gets. simpl. destruct (ptable k !! i); simpl; auto. Qed.

Lemma pres_upd i f (k : kst E) Q :
  (forall p, ptable k !! i = Some p -> Q tt (set_ptable (<[i := f p]> (ptable k)) k)) ->
  pres G R (upd_proc i f k) Q.
Proof. intros H. unfold upd_proc. apply pres_bind, pres_read. intros p Hp. by apply H. Qed.

Lemma pres_calm {A} (c : M machine A) k : calm c -> pres G R (machM c k) (fun _ k' => kept k k').
Proof. intros Hc. eapply pres_mono; [by apply pres_machM|]. intros a s. apply kept_mach. Qed.

Lemma pres_unable i (k : kst E) : pres G R (unable i k) (fun _ k' => kept k k').
Proof. unfold unable. apply pres_bind, pres_read. intros p _. by constructor. Qed.

Lemma pres_proc me (k : kst E) : cur k me -> pres G R (proc_ k) (fun r k' => r = me /\ k' = k).
Proof. intros (c & p & Hc & Hme & _). by rewrite (proc_eq k c me Hc Hme). Qed.

Lemma pres_add (k : kst E) Q i pr :
  sinv_but (Some i) k Q -> (i < Z.to_nat NPROC)%nat ->
  pres G R (add_process_to_queue i pr k) (fun _ k' => only_queues k k' /\ sinv k').
Proof.
  intros H Hi. destruct (decide (0 <= pr < PLEVELS)) as [Hpr|Hpr].
  - destruct (sinv_add _ k Q i pr H Hi Hpr) as (r & k' & Q' & -> & Hoq & H' & Hin). simpl. split; [done|].
    exists Q'. apply (sinv_close i); [done|]. intros p Hp Hr. apply Hin.
    assert (pid_of k i = pid_of k' i) as -> by (by destruct Hoq as (? & ? & ->)).
    rewrite (pid_of_eq _ _ _ Hp). eapply (si_live _ _ _ H'); [done|]. by rewrite Hr.
  - by rewrite (add_oob k Q) by (done || apply (si_q _ _ _ H)).
Qed.

Lemma pres_remove (k : kst E) Q i pr :
  sinv_but (Some i) k Q -> (i < Z.to_nat NPROC)%nat ->
  pres G R (remove_process_from_queue i pr k)
    (fun _ k' => only_queues k k' /\ exists Q', sinv_but (Some i) k' Q').
Proof.
  intros H Hi. destruct (decide (0 <= pr < PLEVELS)) as [Hpr|Hpr].
  - destruct (sinv_remove k Q i pr H Hi Hpr) as (r & k' & Q' & -> & Hoq & H'). simpl. eauto.
  - by rewrite (remove_oob k Q) by (done || apply (si_q _ _ _ H)).
Qed.

Lemma sinv_slot ex (k : kst E) Q i p : sinv_but ex k Q -> ptable k !! i = Some p -> (i < Z.to_nat NPROC)%nat.
Proof. intros H Hi. rewrite <- (proj1 (si_q _ _ _ H)). by eapply lookup_lt_Some. Qed.
End Cur.

(** Run the next statement by a rule, naming the state it leaves. *)
Tactic Notation "pstep" uconstr(H) := eapply pres_seq; [apply H|cbv beta].

(** The same for the last statement. *)
Tactic Notation "pend" uconstr(H) := eapply pres_mono; [apply H|cbv beta].

(** * wakeup1 *)

Section Wakeup.
Context {E : Type} (G R : kst E -> Prop).

(** [k'] has the invariant and the running processes of [k]. *)
Definition goes_on (k k' : kst E) : Prop := sinv k' /\ forall me, cur k me -> cur k' me.

Lemma goes_on_trans k1 k2 k3 : goes_on k1 k2 -> goes_on k2 k3 -> goes_on k1 k3.
Proof. intros [_ H1] [H2 H3]. split; auto. Qed.

Lemma kept_goes_on k k' : sinv k -> kept k k' -> goes_on k k'.
Proof. intros [Q HQ] Hk. split; [exists Q; by eapply kept_sinv|]. intros me. by apply kept_cur. Qed.

Lemma pres_wakeup1_body chan j (k : kst E) :
  sinv k -> pres G R (wakeup1_body false chan j k) (fun _ k' => goes_on k k').
Proof.
  intros [Q HQ]. unfold wakeup1_body. apply pres_bind, pres_read. intros p Hp.
  destruct (bool_decide (p_state p = SLEEPING) && (p_chan p =? chan)) eqn:Hb.
  2:{ split; [by exists Q|done]. }
  bool_props. apply bool_decide_eq_true in H. apply pres_bind, pres_upd. intros q Hq. simplify_eq.
  assert (sinv_but (Some (Z.to_nat j)) (set_ptable (<[Z.to_nat j := set_p_state RUNNABLE p]> (ptable k)) k) Q) as H1.
  { eapply sinv_upd; [by apply sinv_weaken|done|done|..]; simpl.
    - intros _. eapply (si_prio _ _ _ HQ); [done|]. by rewrite H.
    - intros _. eapply (si_live _ _ _ HQ); [done|]. by rewrite H.
    - done. }
  apply pres_bind, pres_read. intros q Hq.
  pstep (pres_add G R _ Q (Z.to_nat j) (p_priority q - 1) H1 ltac:(by eapply (sinv_slot _ _ _ _ _ HQ))).
  intros r k2 [Hoq H2].
  assert (goes_on k k2) as Hgo.
  { split; [done|]. intros me Hc. eapply cur_queues; [done|]. eapply cur_upd; [done..|].
    intros <-. destruct Hc as (c & x & _ & _ & Hx & Hr). rewrite Hx in Hp. simplify_eq. congruence. }
  destruct (r =? -1); [|done].
  eapply pres_mono; [apply pres_unable|]. intros ? k3 Hk. eapply goes_on_trans; [done|]. by apply kept_goes_on.
Qed.

Lemma pres_wakeup1 chan (k : kst E) : sinv k -> pres G R (wakeup1 false chan k) (fun _ k' => goes_on k k').
Proof.
  intros Hk. unfold wakeup1. apply pres_for_each; [by split|].
  intros j s [Hs Hc]. eapply pres_mono; [by apply pres_wakeup1_body|].
  intros ? s' Hs'. by eapply goes_on_trans.
Qed.

Lemma pres_wakeup chan (k : kst E) : sinv k -> pres G R (wakeup false chan k) (fun _ k' => goes_on k k').
Proof.
  intros Hk. unfold wakeup. pstep (pres_calm G R (acquire ptable_lock) k (calm_acquire _)). intros ? k1 H1.
  apply kept_goes_on in H1; [|done]. pstep (pres_wakeup1 chan k1 (proj1 H1)). intros ? k2 H2.
  eapply pres_mono; [apply pres_calm, calm_release|cbv beta]. intros ? k3 H3. apply kept_goes_on in H3; [|apply H2].
  eapply goes_on_trans; [exact H1|]. eapply goes_on_trans; [exact H2|exact H3].
Qed.
End Wakeup.

(** * sched, sleep and yield *)

Section Process.
Context {E : Type} (me : nat).
Notation G := (@sinv E).
Notation R := (@thread E me).

Lemma thread_kept (k k' : kst E) : thread me k -> kept k k' -> thread me k'.
Proof. intros. by eapply kept_thread. Qed.

Lemma thread_on (k k' : kst E) : thread me k -> goes_on k k' -> thread me k'.
Proof. intros [_ Hc] [H1 H2]. split; auto. Qed.

Lemma pres_sched (k : kst E) : sinv k -> pres G R (sched k) (fun _ k' => thread me k').
Proof.
  intros Hk. unfold sched. pstep (pres_calm G R _ k (calm_holding ptable_lock)). intros h k1 H1.
  apply kept_goes_on in H1 as [H1 _]; [|done]. destruct (negb h); [done|].
  pstep (pres_calm G R _ k1 calm_cpu). intros c k2 H2. apply kept_goes_on in H2 as [H2 _]; [|done].
  destruct (negb _); [done|]. unfold proc_. apply pres_bind.
  pstep (pres_calm G R _ k2 calm_cpu). intros c' k3 H3. apply kept_goes_on in H3 as [H3 _]; [|done].
  destruct (cpu_proc c') as [q|]; simpl; [|done]. apply pres_bind, pres_read. intros p _.
  case_bool_decide; [done|].
  assert (calm readeflags) as Hfl by (unfold readeflags; apply calm_bind; [apply calm_cpu|intros; apply calm_ret]).
  pstep (pres_calm G R _ k3 Hfl). intros fl k4 H4. apply kept_goes_on in H4 as [H4 _]; [|done].
  destruct (negb _); [done|].
  pstep (pres_calm G R _ k4 calm_cpu). intros c5 k5 H5. apply kept_goes_on in H5 as [H5 _]; [|done].
  apply pres_bind. simpl. split; [done|]. intros s' Hs'.
  assert (calm (upd_cpu (set_intena (intena c5)))) as Hi by (apply calm_upd; intros; by split_and!).
  eapply pres_mono; [by apply pres_calm|]. intros ? k6 H6. by eapply thread_kept.
Qed.

(** The running process changes its own state. *)
Lemma thread_leave (k : kst E) p p' :
  thread me k -> ptable k !! me = Some p -> p_pid p' = p_pid p -> p_priority p' = p_priority p ->
  p_state p' <> RUNNABLE ->
  sinv (set_ptable (<[me := p']> (ptable k)) k).
Proof.
  intros [[Q HQ] (c & x & _ & _ & Hx & Hr)] Hp Hpid Hprio Hs. simplify_eq. exists Q.
  eapply sinv_upd; [done..| | |done]; intros _; rewrite ?Hprio; [eapply (si_prio _ _ _ HQ)|eapply (si_live _ _ _ HQ)]; done || by rewrite Hr.
Qed.

(** A field of a slot other than pid, state and priority. *)
Lemma thread_upd (k : kst E) i p p' :
  thread me k -> ptable k !! i = Some p ->
  p_pid p' = p_pid p -> p_state p' = p_state p -> p_priority p' = p_priority p ->
  thread me (set_ptable (<[i := p']> (ptable k)) k).
Proof.
  intros [[Q HQ] Hc] Hi H1 H2 H3. split; [exists Q; by eapply sinv_upd_same|]. eapply cur_upd; [done..|].
  intros ->. destruct Hc as (c & x & _ & _ & Hx & Hr). rewrite Hx in Hi. simplify_eq. congruence.
Qed.

Lemma pres_cpu (k : kst E) :
  cur k me -> pres G R (machM cpu_ k) (fun c k' => cpu_proc c = Some me /\ k' = k).
Proof.
  intros (c & p & Hc & Hme & _). rewrite (machM_Ret cpu_ k c (mach k)) by (by apply cpu_eq).
  simpl. split; [done|]. by destruct k.
Qed.

Lemma pres_sleep chan lk (k : kst E) : thread me k -> pres G R (sleep chan lk k) (fun _ k' => thread me k').
Proof.
  intros Hk. unfold sleep. pstep (pres_cpu k (proj2 Hk)). intros c k1 [Hc ->]. rewrite Hc.
  destruct (lk =? 0); [done|].
  eapply (pres_seq _ _ _ _ _ (fun _ k' => thread me k')).
  { destruct (negb (lk =? ptable_lock)); [|done].
    pstep (pres_calm G R _ k (calm_acquire ptable_lock)). intros ? k1 H1.
    eapply pres_mono; [apply pres_calm, calm_release|cbv beta]. intros ? k2 H2.
    eapply thread_kept; [|eassumption]. eapply thread_kept; eassumption. }
  intros ? k1 H1. apply pres_bind, pres_upd. intros p Hp. apply pres_bind, pres_upd. intros p1 Hp1.
  pose proof (thread_upd k1 me p (set_p_chan chan p) H1 Hp eq_refl eq_refl eq_refl) as H2.
  pstep (pres_sched _ (thread_leave _ p1 (set_p_state SLEEPING p1) H2 Hp1 eq_refl eq_refl ltac:(done))).
  intros ? k3 H3. pstep (pres_proc G R me k3 (proj2 H3)). intros q k4 [-> ->].
  apply pres_bind, pres_upd. intros p3 Hp3.
  pose proof (thread_upd k3 me p3 (set_p_chan 0 p3) H3 Hp3 eq_refl eq_refl eq_refl) as H4.
  destruct (negb (lk =? ptable_lock)); [|done].
  pstep (pres_calm G R _ _ (calm_release ptable_lock)). intros ? k5 H5.
  eapply pres_mono; [apply pres_calm, calm_acquire|cbv beta]. intros ? k6 H6.
  eapply thread_kept; [|eassumption]. eapply thread_kept; eassumption.
Qed.
End Process.

(** * What is asked of the memory and file layers

    Memory management never sleeps and leaves the process layer alone; the
    calls of the file layer that may sleep keep the invariant as the entry
    points of the process layer do. *)

Definition still {S A} (c : M S A) : Prop :=
  forall s, match c s with Switch _ _ => False | _ => True end.

Class MemSafe (E : Type) `{!MemOps E} := {
  kalloc_still : still (S := E) kalloc;
  kfree_still a : still (S := E) (kfree a);
  copyuvm_still g n : still (S := E) (copyuvm g n);
  allocuvm_still g a b : still (S := E) (allocuvm g a b);
  deallocuvm_still g a b : still (S := E) (deallocuvm g a b);
  freevm_still g : still (S := E) (freevm g);
  switchuvm_kept q (k : kst E) G R : pres G R (switchuvm q k) (fun _ k' => kept k k');
  switchkvm_kept (k : kst E) G R : pres G R (switchkvm k) (fun _ k' => kept k k')
}.

Class FileSafe (E : Type) `{!FileOps E} := {
  filedup_kept f (k : kst E) G R : pres G R (filedup f k) (fun _ k' => kept k k');
  idup_kept d (k : kst E) G R : pres G R (idup d k) (fun _ k' => kept k k');
  fileclose_safe f me (k : kst E) :
    thread me k -> pres sinv (thread me) (fileclose f k) (fun _ k' => thread me k');
  iput_safe d me (k : kst E) :
    thread me k -> pres sinv (thread me) (iput d k) (fun _ k' => thread me k');
  begin_op_safe me (k : kst E) :
    thread me k -> pres sinv (thread me) (begin_op k) (fun _ k' => thread me k');
  end_op_safe me (k : kst E) :
    thread me k -> pres sinv (thread me) (end_op k) (fun _ k' => thread me k');
  iinit_safe d me (k : kst E) :
    thread me k -> pres sinv (thread me) (iinit d k) (fun _ k' => thread me k');
  initlog_safe d me (k : kst E) :
    thread me k -> pres sinv (thread me) (initlog d k) (fun _ k' => thread me k')
}.

#[export] Program Instance mem_list_safe : MemSafe (list Z).
Next Obligation. by intros []. Qed.
Next Obligation. done. Qed.
Next Obligation. by intros ? ? []. Qed.
Next Obligation. done. Qed.
Next Obligation. done. Qed.
Next Obligation. done. Qed.
Next Obligation. intros. apply kept_refl. Qed.
Next Obligation. intros. apply kept_refl. Qed.

#[export] Program Instance file_none_safe : FileSafe (list Z).
Next Obligation. intros. apply kept_refl. Qed.
Next Obligation. intros. apply kept_refl. Qed.
Next Obligation. done. Qed.
Next Obligation. done. Qed.
Next Obligation. done. Qed.
Next Obligation. done. Qed.
Next Obligation. done. Qed.
Next Obligation. done. Qed.

Section Entry.
Context {E : Type} `{!MemOps E, !FileOps E, !MemSafe E, !FileSafe E} (me : nat).
Notation G := (@sinv E).
Notation R := (@thread E me).

Lemma pres_still {A} (c : M E A) (k : kst E) (G' R' : kst E -> Prop) :
  still c -> pres G' R' (extM c k) (fun _ k' => exists e, k' = set_ext e k).
Proof.
  intros Hc. specialize (Hc (ext k)). unfold extM, zoom. destruct (c (ext k)); simpl in *; try done. by eexists.
Qed.

Lemma kept_ext (k : kst E) e : kept k (set_ext e k).
Proof. by constructor. Qed.

Lemma pres_myproc (k : kst E) : pres G R (myproc k) (fun _ k' => kept k k').
Proof.
  apply pres_calm. apply calm_bind; [apply calm_pushcli|intros _].
  apply calm_bind; [apply calm_mycpu|intros i]. apply calm_bind; [apply calm_gets|intros cs].
  apply calm_bind; [apply calm_opt|intros c]. apply calm_bind; [apply calm_popcli|intros _]. apply calm_ret.
Qed.

Lemma kept_out (k : kst E) o : kept k (set_out o k).
Proof. by constructor. Qed.

(** ** yield *)

Lemma pres_yield (k : kst E) : thread me k -> pres G R (yield false k) (fun _ k' => thread me k').
Proof.
  intros Hk. unfold yield. pstep (pres_calm G R _ k (calm_acquire ptable_lock)). intros ? k1 H1.
  apply (thread_kept me k) in H1; [|done]. clear a.
  pstep (pres_proc G R me k1 (proj2 H1)). intros q k2 [-> ->].
  apply pres_bind, pres_upd. intros p Hp. set (k2 := set_ptable _ k1).
  destruct H1 as [[Q HQ] (c & x & Hc & Hme & Hx & Hr)]. assert (x = p) as -> by congruence.
  assert (sinv_but (Some me) k2 Q) as H2.
  { eapply sinv_upd; [by apply sinv_weaken|done|done|..]; simpl; intros _; [..|done].
    - eapply (si_prio _ _ _ HQ); [done|]. by rewrite Hr.
    - eapply (si_live _ _ _ HQ); [done|]. by rewrite Hr. }
  assert (cpus (mach k2) !! this (mach k2) = Some c) as Hc2 by done.
  eapply (pres_seq _ _ _ _ _ (fun _ k' => sinv k')).
  2:{ intros ? k3 H3. pstep (pres_sched me k3 H3). intros ? k4 H4.
      eapply pres_mono; [apply pres_calm, calm_release|cbv beta]. intros ? k5 H5. by eapply thread_kept. }
  unfold ifndef_custom. pstep (myproc_this G R k2 c (si_ids _ _ _ H2) Hc2). intros ? k3 [-> H3].
  rewrite Hme. simpl. apply pres_bind. simpl.
  destruct H3 as (m3 & -> & Hm3). destruct (same_ids_proc _ _ _ _ Hm3 Hc2) as (c3 & Hc3 & Hp3).
  rewrite <- (same_ids_this _ _ Hm3) in Hc3.
  assert (sinv_but (Some me) (set_mach m3 k2) Q) as H3 by (eapply sinv_frame; [..|exact H2]; try done; apply Hm3).
  pstep (myproc_this G R (set_mach m3 k2) c3 (si_ids _ _ _ H3) Hc3). intros ? k4 [-> H4].
  rewrite Hp3, Hme. apply pres_bind. simpl. apply kept_mach in H4.
  pose proof (kept_sinv _ _ _ _ H4 H3) as H4'. clear H3. apply pres_bind, pres_read. intros y Hy.
  pstep (pres_add G R k4 Q me (p_priority y - 1) H4' ltac:(by eapply (sinv_slot _ _ _ _ _ H4'))).
  intros r k5 [_ H5]. destruct (r =? -1); [|done].
  pstep (pres_myproc k5). intros q k6 H6. apply kept_goes_on in H6 as [H6 _]; [|done].
  destruct q as [q|]; [|done]. apply pres_bind. simpl.
  pend (pres_unable G R q k6). intros ? k7 H7. by apply kept_goes_on in H7 as [H7 _].
Qed.

(** ** exit *)

Lemma pres_exit_reparent j (k : kst E) :
  thread me k -> pres G R (exit_reparent false me j k) (fun _ k' => thread me k').
Proof.
  intros Hk. unfold exit_reparent. apply pres_bind, pres_read. intros x Hx.
  case_bool_decide; [|done]. apply pres_bind. simpl. apply pres_bind, pres_upd. intros y Hy. simplify_eq.
  pose proof (thread_upd me k _ x (set_p_parent (initproc k) x) Hk Hx eq_refl eq_refl eq_refl) as H1.
  case_bool_decide; [|done]. pend (pres_wakeup1 G R _ _ (proj1 H1)). intros ? k' H'. by eapply thread_on.
Qed.

Lemma pres_exit_tail {A} (k : kst E) Q : thread me k -> pres G R (exit_tail (A := A) false me k) Q.
Proof.
  intros Hk. unfold exit_tail. pstep (pres_calm G R _ k (calm_acquire ptable_lock)). intros ? k1 H1.
  apply (thread_kept me k) in H1; [|done]. apply pres_bind, pres_read. intros x Hx.
  pstep (pres_wakeup1 G R _ _ (proj1 H1)). intros ? k2 H2. apply (thread_on me k1) in H2; [|done].
  pstep (pres_for_each G R _ (thread me) 0 NPROC k2 H2 (fun j s => pres_exit_reparent j s)). intros ? k3 H3.
  apply pres_bind, pres_upd. intros p Hp.
  pstep (pres_sched me _ (thread_leave me k3 p (set_p_state ZOMBIE p) H3 Hp eq_refl eq_refl ltac:(done))). done.
Qed.

Lemma pres_exit_close fd (k : kst E) :
  thread me k -> pres G R (exit_close me fd k) (fun _ k' => thread me k').
Proof.
  intros Hk. unfold exit_close. apply pres_bind, pres_read. intros x Hx.
  destruct (arr_get (p_ofile x) fd) as [f|]; simpl; [|done]. apply pres_bind. simpl.
  destruct (f =? 0); [done|]. pstep (fileclose_safe f me k Hk). intros ? k1 H1.
  apply pres_bind, pres_read. intros y Hy. destruct (arr_set (p_ofile y) fd 0) as [l|]; simpl; [|done].
  apply pres_bind. simpl. apply pres_upd. intros z Hz. by eapply thread_upd.
Qed.

Lemma pres_exit {A} (k : kst E) Q : thread me k -> pres G R (exit (A := A) false k) Q.
Proof.
  intros Hk. unfold exit. pstep (pres_proc G R me k (proj2 Hk)). intros q k0 [-> ->]. apply pres_bind. simpl.
  case_bool_decide; [done|].
  pstep (pres_for_each G R _ (thread me) 0 NOFILE k Hk (fun j s => pres_exit_close j s)). intros ? k1 H1.
  pstep (begin_op_safe me k1 H1). intros ? k2 H2. apply pres_bind, pres_read. intros x Hx.
  pstep (iput_safe _ me k2 H2). intros ? k3 H3. pstep (end_op_safe me k3 H3). intros ? k4 H4.
  apply pres_bind, pres_upd. intros p Hp. apply pres_exit_tail. by eapply thread_upd.
Qed.

(** ** kill and nice *)

Lemma pres_enqueue i (k : kst E) Q :
  sinv_but (Some i) k Q -> cur k me -> (i < Z.to_nat NPROC)%nat ->
  pres G R (enqueue_or_exit false i k) (fun _ k' => thread me k').
Proof.
  intros HQ Hc Hi. unfold enqueue_or_exit, ifndef_custom. apply pres_bind, pres_read. intros x Hx.
  pstep (pres_add G R k Q i (p_priority x - 1) HQ Hi). intros r k1 [Hoq H1].
  assert (thread me k1) as Ht by (split; [done|by eapply cur_queues]).
  destruct (r =? -1); [|done]. pstep (pres_unable G R i k1). intros ? k2 H2.
  apply (thread_kept me k1) in H2; [|done].
  pstep (pres_calm G R _ k2 (calm_release ptable_lock)). intros ? k3 H3.
  apply pres_exit. by eapply thread_kept.
Qed.

Lemma pres_find f (k : kst E) (G' R' : kst E -> Prop) :
  pres G' R' (find_proc f k) (fun r k' => k' = k /\
    match r with Some i => exists p, ptable k !! i = Some p /\ f p = true | None => True end).
Proof.
  unfold find_proc, for_range. eapply pres_mono.
  - apply (pres_for_loop _ _ _ (fun s => s = k)
      (fun i s => s = k /\ exists p, ptable k !! i = Some p /\ f p = true)); [done|].
    intros j s ->. apply pres_bind, pres_read. intros p Hp. simpl. destruct (f p) eqn:Hf; eauto.
  - intros [i|] s; naive_solver.
Qed.

Lemma cur_state (k : kst E) p : cur k me -> ptable k !! me = Some p -> p_state p = RUNNING.
Proof. intros (c & x & _ & _ & Hx & Hr) Hp. congruence. Qed.

Lemma pres_kill pid (k : kst E) : thread me k -> pres G R (kill false pid k) (fun _ k' => thread me k').
Proof.
  intros Hk. unfold kill. pstep (pres_calm G R _ k (calm_acquire ptable_lock)). intros ? k1 H1.
  apply (thread_kept me k) in H1; [|done]. clear a Hk.
  pstep (pres_find (fun x => p_pid x =? pid) k1 G R). intros [i|] k2 [-> Hi].
  2:{ pstep (pres_calm G R _ k1 (calm_release ptable_lock)). intros ? k3 H3. by eapply (thread_kept me k1). }
  destruct Hi as (p & Hp & _). apply pres_bind, pres_upd. intros p' Hp'. simplify_eq.
  pose proof (thread_upd me k1 i p (set_p_killed 1 p) H1 Hp eq_refl eq_refl eq_refl) as H2.
  set (k2 := set_ptable _ k1) in *. apply pres_bind, pres_read. intros x Hx.
  pose proof H2 as [[Q HQ] Hc]. pose proof (sinv_slot _ _ _ _ _ HQ Hx) as Hlt.
  eapply (pres_seq _ _ _ _ _ (fun _ k' => sinv_but (Some i) k' Q /\ cur k' me)).
  { case_bool_decide as Hs; [|split; [by apply sinv_weaken|done]].
    apply pres_upd. intros y Hy. simplify_eq. split.
    - eapply sinv_upd; [by apply sinv_weaken|done|done|..]; simpl; [| |done]; intros _;
        [eapply (si_prio _ _ _ HQ)|eapply (si_live _ _ _ HQ)]; done || by rewrite Hs.
    - eapply cur_upd; [done..|]. intros ->. pose proof (cur_state _ _ Hc Hx). congruence. }
  intros ? k3 [H3 Hc3]. pstep (pres_enqueue i k3 Q H3 Hc3 Hlt). intros ? k4 H4.
  pstep (pres_calm G R _ k4 (calm_release ptable_lock)). intros ? k5 H5. by eapply (thread_kept me k4).
Qed.

Lemma pres_nice pid pr (k : kst E) : thread me k -> pres G R (nice false pid pr k) (fun _ k' => thread me k').
Proof.
  intros Hk. unfold nice. destruct ((pr <? 1) || (pr >? 5)) eqn:Hpr.
  { apply pres_bind, pres_bind. simpl. apply pres_exit. by eapply thread_kept; [|apply kept_out]. }
  apply pres_bind. simpl. pstep (pres_calm G R _ k (calm_acquire ptable_lock)). intros ? k1 H1.
  apply (thread_kept me k) in H1; [|done]. clear a Hk.
  pstep (pres_find (fun x => p_pid x =? pid) k1 G R). intros [i|] k2 [-> Hi].
  2:{ pstep (pres_calm G R _ k1 (calm_release ptable_lock)). intros ? k3 H3.
      apply pres_bind. simpl. apply pres_exit. eapply thread_kept; [|apply kept_out]. by eapply (thread_kept me k1). }
  pstep (pres_calm G R _ k1 (calm_release ptable_lock)). intros ? k2 H2.
  apply (thread_kept me k1) in H2; [|done]. clear Hi H1. destruct H2 as [[Q HQ] Hc].
  apply pres_bind, pres_read. intros x Hx. apply pres_bind, pres_upd. intros y Hy. simplify_eq.
  pose proof (sinv_slot _ _ _ _ _ HQ Hx) as Hlt.
  assert (sinv_but (Some i) (set_ptable (<[i := set_p_priority pr x]> (ptable k2)) k2) Q) as H3.
  { apply sinv_weaken. eapply sinv_upd; [done..| | |]; simpl.
    - intros _. apply orb_false_iff in Hpr as [Hlo Hhi]. apply Z.ltb_ge in Hlo.
      destruct (Z.gtb_spec pr 5); [done|lia].
    - intros Hu. by eapply (si_live _ _ _ HQ).
    - done. }
  assert (cur (set_ptable (<[i := set_p_priority pr x]> (ptable k2)) k2) me) as Hc3.
  { eapply cur_upd; [done..|]. intros ->. exact (cur_state k2 x Hc Hx). }
  pstep (pres_remove G R _ Q i (p_priority x) H3 Hlt). intros ? k3 [Hoq3 [Q3 HQ3]].
  pstep (pres_add G R k3 Q3 i pr HQ3 Hlt). intros ? k4 [Hoq4 H4].
  assert (thread me k4) as Ht by (split; [done|]; eapply cur_queues; [done|]; by eapply cur_queues).
  unfold bind, checked. destruct (int_ok (pid * MOD)); simpl; [|done]. by destruct (int_ok _).
Qed.

(** ** wait *)

Lemma pres_reap i x (k : kst E) :
  thread me k -> ptable k !! i = Some x -> p_state x = ZOMBIE ->
  pres G R (reap false i k) (fun _ k' => thread me k').
Proof.
  intros [[Q HQ] Hc] Hx Hz. pose proof (sinv_slot _ _ _ _ _ HQ Hx) as Hlt.
  assert (me <> i) as Hne by (intros <-; pose proof (cur_state k x Hc Hx); congruence).
  pose proof (lookup_lt_Some _ _ _ Hx) as Hlen. unfold reap. rd.
  pstep (pres_still _ k G R (kfree_still (p_kstack x))). intros ? k1 [e1 ->]. upd. rd. cbn [p_pgdir set_p_kstack].
  pstep (pres_still _ _ G R (freevm_still (p_pgdir x))). intros ? k2 [e2 ->]. do 5 upd.
  match goal with |- pres _ _ (bind _ _ ?s) _ => remember s as k3 eqn:Hk3 end.
  set (y := set_p_state UNUSED (set_p_killed 0 (set_p_name (<[O := 0]> (p_name x)) (set_p_parent None
    (set_p_pid 0 (set_p_kstack 0 x)))))).
  assert (k3 = set_ext e2 (set_nextpid (nextpid k) (set_ptable (<[i := y]> (ptable k)) k))) as Hk3'.
  { rewrite Hk3. kst_eq. by rewrite !list_insert_insert_eq. }
  clear Hk3. assert (sinv_but (Some i) k3 Q) as H3.
  { rewrite Hk3'. eapply kept_sinv; [apply kept_ext|].
    apply (sinv_repid _ k Q i x); [by apply sinv_weaken|done|]. left. by split_and!. }
  assert (cur k3 me) as Hc3 by (rewrite Hk3'; by apply (cur_upd k me i x)).
  assert (ptable k3 !! i = Some y) as Hy by (rewrite Hk3'; tbl).
  eapply (pres_seq _ _ _ _ _ (fun _ k' => thread me k')).
  2:{ intros ? k4 H4. pstep (pres_calm G R _ k4 (calm_release ptable_lock)). intros ? k5 H5.
      by eapply (thread_kept me k4). }
  unfold ifndef_custom. rd. pstep (pres_remove G R k3 Q i (p_priority y - 1) H3 Hlt).
  intros ? k4 [Hoq4 [Q4 HQ4]]. split; [|by eapply cur_queues]. exists Q4. apply (sinv_close i); [done|].
  intros p Hp Hr. exfalso. assert (ptable k4 = ptable k3) as Ht by (by destruct Hoq4 as (? & ? & ->)).
  rewrite Ht, Hy in Hp. by simplify_eq.
Qed.

Lemma pres_wait_loop fuel (k : kst E) :
  thread me k -> pres G R (wait_loop false fuel k) (fun _ k' => thread me k').
Proof.
  revert k. induction fuel as [|fuel IH]; intros k Hk; [done|]. simpl.
  pstep (pres_proc G R me k (proj2 Hk)). intros q k0 [-> ->].
  eapply pres_seq.
  - apply (pres_for_acc G R _ (thread me) (fun _ s => thread me s)); [exact Hk|].
    intros j b s Hs. unfold wait_body. apply pres_bind, pres_read. intros x Hx.
    case_bool_decide; [simpl|done]. case_bool_decide; [|done].
    pstep (pres_reap _ x s Hs Hx ltac:(done)). by intros pid s' Hs'.
  - intros [pid|kids] k1 H1; [done|]. apply pres_bind, pres_read. intros x Hx.
    destruct (negb kids || negb (p_killed x =? 0)).
    + pstep (pres_calm G R _ k1 (calm_release ptable_lock)). intros ? k2 H2. by eapply (thread_kept me k1).
    + pstep (pres_sleep me (proc_addr me) ptable_lock k1 H1). intros ? k2 H2. by apply IH.
Qed.

Lemma pres_wait fuel (k : kst E) : thread me k -> pres G R (wait false fuel k) (fun _ k' => thread me k').
Proof.
  intros Hk. unfold wait. pstep (pres_calm G R _ k (calm_acquire ptable_lock)). intros ? k1 H1.
  apply pres_wait_loop. by eapply thread_kept.
Qed.

(** ** allocproc and fork *)

(** Slot [i] is being made. *)
Definition emb (i : nat) (k : kst E) : Prop := exists p, ptable k !! i = Some p /\ p_state p = EMBRYO.

Lemma kept_emb i (k k' : kst E) : kept k k' -> emb i k -> emb i k'.
Proof. intros [H _ _ _ _]. unfold emb. by rewrite H. Qed.

(** A field of the slot being made, other than pid, state and priority. *)
Lemma emb_upd i f (k : kst E) Q :
  (forall p, p_pid (f p) = p_pid p) -> (forall p, p_state (f p) = p_state p) ->
  (forall p, p_priority (f p) = p_priority p) ->
  thread me k -> emb i k ->
  (forall k', thread me k' -> emb i k' -> Q tt k') -> pres G R (upd_proc i f k) Q.
Proof.
  intros H1 H2 H3 Hk (p & Hp & Hs) HQ. apply pres_upd. intros q Hq. simplify_eq. apply HQ.
  - by eapply thread_upd.
  - exists (f p). simpl. rewrite H2. split; [|done]. apply list_lookup_insert_eq. by eapply lookup_lt_Some.
Qed.

Lemma pres_allocproc (k : kst E) :
  thread me k -> pres G R (allocproc k)
    (fun r k' => thread me k' /\ match r with Some i => emb i k' | None => True end).
Proof.
  intros Hk. unfold allocproc. pstep (pres_calm G R _ k (calm_acquire ptable_lock)). intros ? k1 H1.
  apply (thread_kept me k) in H1; [|done]. clear a Hk.
  pstep (pres_find (fun p => bool_decide (p_state p = UNUSED)) k1 G R). intros [i|] k2 [-> Hi].
  2:{ pstep (pres_calm G R _ k1 (calm_release ptable_lock)). intros ? k3 H3. split; [|done].
      by eapply (thread_kept me k1). }
  destruct Hi as (p & Hp & Hu%bool_decide_eq_true). pose proof (lookup_lt_Some _ _ _ Hp) as Hlt. upd.
  apply pres_bind. simpl. unfold checked at 1. destruct (int_ok (nextpid k1 + 1)); [|done].
  pure_step. pure_step. upd. upd.
  set (y := set_p_priority 3 (set_p_pid (nextpid k1) (set_p_state EMBRYO p))).
  match goal with |- pres _ _ (bind _ _ ?s) _ => assert (s =
    set_nextpid (nextpid k1 + 1) (set_ptable (<[i := y]> (ptable k1)) k1)) as -> end.
  { kst_eq. by rewrite !list_insert_insert_eq. }
  destruct H1 as [[Q HQ] Hc].
  assert (me <> i) as Hne by (intros <-; pose proof (cur_state k1 p Hc Hp); congruence).
  assert (thread me (set_nextpid (nextpid k1 + 1) (set_ptable (<[i := y]> (ptable k1)) k1))) as H2.
  { split; [exists Q; eapply sinv_repid; [done..|]; right; by split_and!|]. by apply (cur_upd k1 me i p). }
  assert (emb i (set_nextpid (nextpid k1 + 1) (set_ptable (<[i := y]> (ptable k1)) k1))) as He.
  { exists y. split; [tbl|done]. }
  pstep (pres_calm G R _ _ (calm_release ptable_lock)). intros ? k3 H3.
  pose proof (thread_kept me _ _ H2 H3) as Ht3. pose proof (kept_emb i _ _ H3 He) as He3. clear H2 H3 He HQ Hc Hp Hlt.
  pstep (pres_still _ k3 G R kalloc_still). intros ks k4 [e ->].
  apply pres_bind. apply (emb_upd i); [done..| | |]; [by eapply thread_kept; [|apply kept_ext]|done|]. intros k5 Ht5 He5.
  destruct (ks =? 0).
  - apply pres_bind, pres_upd. intros q Hq. split; [|done]. destruct He5 as (r & Hr & Hs). assert (r = q) as -> by congruence.
    destruct Ht5 as [[Q5 HQ5] Hc5]. split.
    + exists Q5. eapply sinv_upd; [done..| | |]; done.
    + eapply cur_upd; [done..|]. intros ->. pose proof (cur_state k5 q Hc5 Hq). congruence.
  - apply pres_bind. apply (emb_upd i); [done..|]. intros k6 Ht6 He6. apply pres_bind. simpl.
    assert (kept k6 (set_words (<[ks + KSTACKSIZE - sizeof_trapframe - 4 := trapret_addr]> (words k6)) k6)) as Hw by (by constructor).
    apply pres_bind. apply (emb_upd i); [done..|by eapply thread_kept|by eapply kept_emb|]. intros k7 Ht7 He7.
    simpl. split; [eapply thread_kept; [exact Ht7|]; by constructor|eapply kept_emb; [|exact He7]; by constructor].
Qed.

Lemma pres_fork_dup np fd (k : kst E) :
  thread me k /\ emb np k -> pres G R (fork_dup me np fd k) (fun _ k' => thread me k' /\ emb np k').
Proof.
  intros [Hk He]. unfold fork_dup. apply pres_bind, pres_read. intros x Hx.
  destruct (arr_get (p_ofile x) fd) as [f|]; simpl; [|done]. apply pres_bind. simpl.
  destruct (f =? 0); [done|]. pstep (filedup_kept f k G R). intros g k1 H1.
  apply pres_bind, pres_read. intros y Hy. destruct (arr_set (p_ofile y) fd g) as [l|]; simpl; [|done].
  apply pres_bind. simpl. apply (emb_upd np); [done..|by eapply thread_kept|by eapply kept_emb|done].
Qed.

Lemma emb_free np (k : kst E) :
  thread me k -> emb np k -> pres G R (upd_proc np (set_p_state UNUSED) k) (fun _ k' => thread me k').
Proof.
  intros [[Q HQ] Hc] (p & Hp & Hs). apply pres_upd. intros q Hq. assert (q = p) as -> by congruence. split.
  - exists Q. eapply sinv_upd; [done..| | |]; done.
  - eapply cur_upd; [done..|]. intros ->. pose proof (cur_state k p Hc Hp). congruence.
Qed.

(** The child becomes RUNNABLE. *)
Lemma emb_ready np (k : kst E) :
  thread me k -> emb np k ->
  pres G R ((upd_proc np (set_p_state RUNNABLE) ;; enqueue_or_exit false np) k) (fun _ k' => thread me k').
Proof.
  intros [[Q HQ] Hc] (p & Hp & Hs). apply pres_bind, pres_upd. intros q Hq. assert (q = p) as -> by congruence.
  eapply (pres_enqueue np _ Q); [..|by eapply (sinv_slot _ _ _ _ _ HQ)].
  - eapply sinv_upd; [by apply sinv_weaken|done|done|..]; simpl; [| |done]; intros _;
      [eapply (si_prio _ _ _ HQ)|eapply (si_live _ _ _ HQ)]; done || by rewrite Hs.
  - eapply cur_upd; [done..|]. intros ->. pose proof (cur_state k p Hc Hp). congruence.
Qed.

Lemma pres_bind_assoc {S A B C} (G' R' : S -> Prop) (c : M S A) (f : A -> M S B) (g : B -> M S C) s Q :
  pres G' R' ((y <- (x <- c ;; f x) ;; g y) s) Q -> pres G' R' ((x <- c ;; y <- f x ;; g y) s) Q.
Proof.
  unfold bind. generalize (c s). intros o. induction o as [| | | | |t k IH]; simpl; try done.
  intros [HG Hk]. split; [done|]. auto.
Qed.

(** fork from the copied trap frame on. *)
Lemma pres_fork_finish np (k : kst E) :
  thread me k -> emb np k ->
  pres G R ((for_each 0 NOFILE (fork_dup me np) ;;
      x <- proc_at me ;;
      d <- idup (p_cwd x) ;;
      upd_proc np (set_p_cwd d) ;;
      x <- proc_at me ;;
      upd_proc np (fun y => set_p_name (copy_name (p_name y) (p_name x)) y) ;;
      y <- proc_at np ;;
      acquire_ptable ;;
      upd_proc np (set_p_state RUNNABLE) ;;
      enqueue_or_exit false np ;;
      release_ptable ;;
      ret (p_pid y)) k) (fun _ k' => thread me k').
Proof.
  intros Hk He.
  pstep (pres_for_each G R _ (fun s => thread me s /\ emb np s) 0 NOFILE k (conj Hk He) (fun j s => pres_fork_dup np j s)).
  intros ? k1 [H1 He1]. apply pres_bind, pres_read. intros x _. pstep (idup_kept (p_cwd x) k1 G R). intros d k2 H2.
  apply pres_bind. apply (emb_upd np); [done..|by eapply thread_kept|by eapply kept_emb|]. intros k3 H3 He3.
  apply pres_bind, pres_read. intros x' _. apply pres_bind. apply (emb_upd np); [done..|]. intros k4 H4 He4.
  apply pres_bind, pres_read. intros y _. pstep (pres_calm G R _ k4 (calm_acquire ptable_lock)). intros ? k5 H5.
  apply pres_bind_assoc. pstep (emb_ready np k5 (thread_kept me _ _ H4 H5) (kept_emb np _ _ H5 He4)). intros ? k6 H6.
  pstep (pres_calm G R _ k6 (calm_release ptable_lock)). intros ? k7 H7. by eapply (thread_kept me k6).
Qed.

Lemma pres_fork (k : kst E) : thread me k -> pres G R (fork false k) (fun _ k' => thread me k').
Proof.
  intros Hk. unfold fork. pstep (pres_allocproc k Hk). intros [np|] k1 [H1 He1]; [|done].
  pstep (pres_proc G R me k1 (proj2 H1)). intros q k0 [-> ->]. apply pres_bind, pres_read. intros x Hx.
  pstep (pres_still _ k1 G R (copyuvm_still (p_pgdir x) (p_sz x))). intros pg k2 [e ->].
  apply pres_bind. apply (emb_upd np); [done..|by eapply thread_kept; [|apply kept_ext]|done|]. intros k2 H2 He2.
  destruct (pg =? 0).
  { apply pres_bind, pres_read. intros y Hy. pstep (pres_still _ k2 G R (kfree_still (p_kstack y))). intros ? k3 [e3 ->].
    apply pres_bind. apply (emb_upd np); [done..|by eapply thread_kept; [|apply kept_ext]|done|]. intros k4 H4 He4.
    pstep (emb_free np k4 H4 He4). by intros ? k5 H5. }
  apply pres_bind, pres_read. intros x1 _. apply pres_bind. apply (emb_upd np); [done..|]. intros k3 H3 He3.
  apply pres_bind. apply (emb_upd np); [done..|]. intros k4 H4 He4. apply pres_bind, pres_read. intros y Hy.
  unfold tf_at. apply pres_bind. unfold bind at 1, gets. simpl. destruct (tfs k4 !! p_tf x1) as [t|]; [|done]. simpl.
  do 2 (apply pres_bind; simpl). apply pres_fork_finish.
  - eapply thread_kept; [exact H4|]. by constructor.
  - eapply kept_emb; [|exact He4]. by constructor.
Qed.

(** ** growproc and forkret *)

Lemma pres_growproc n (k : kst E) : thread me k -> pres G R (growproc n k) (fun _ k' => thread me k').
Proof.
  intros Hk. unfold growproc. pstep (pres_proc G R me k (proj2 Hk)). intros q k0 [-> ->].
  apply pres_bind, pres_read. intros x _.
  eapply (pres_seq _ _ _ _ _ (fun _ k' => thread me k')).
  { destruct (n >? 0); [|destruct (n <? 0); [|done]].
    - pstep (pres_still _ k G R (allocuvm_still _ _ _)). intros s k1 [e ->]. by eapply thread_kept; [|apply kept_ext].
    - pstep (pres_still _ k G R (deallocuvm_still _ _ _)). intros s k1 [e ->]. by eapply thread_kept; [|apply kept_ext]. }
  intros [s|] k1 H1; [|done]. apply pres_bind, pres_upd. intros y Hy.
  pstep (switchuvm_kept me (set_ptable (<[me := set_p_sz s y]> (ptable k1)) k1) G R). intros ? k2 H2.
  eapply thread_kept; [|exact H2]. by eapply thread_upd.
Qed.

Lemma pres_forkret (k : kst E) : thread me k -> pres G R (forkret k) (fun _ k' => thread me k').
Proof.
  intros Hk. unfold forkret. pstep (pres_calm G R _ k (calm_release ptable_lock)). intros ? k1 H1.
  apply (thread_kept me k) in H1; [|done]. apply pres_bind. simpl. destruct (forkret_first k1); [|done].
  apply pres_bind. simpl. pstep (iinit_safe ROOTDEV me (set_forkret_first false k1) ltac:(by eapply thread_kept; [exact H1|])).
  intros ? k2 H2. by apply initlog_safe.
Qed.
End Entry.

(** * The scheduler *)

Section Scheduler.
Context {E : Type} `{!MemOps E, !MemSafe E} (c : nat).

(** What the scheduler promises the process it runs, and what it relies on
    when the processor comes back to it. *)
Definition sched_gives (s : kst E) : Prop := exists q, thread q s.
Definition sched_relies (s : kst E) : Prop := sinv s /\ this (mach s) = c.

Lemma pres_set_proc v (k : kst E) (G R : kst E -> Prop) :
  pres G R (machM (set_proc_of c v) k) (fun _ k' => exists m x, k' = set_mach m k /\ ids m = ids (mach k)
    /\ this m = this (mach k) /\ cpus m !! c = Some (set_cpu_proc v x)).
Proof.
  unfold set_proc_of, machM, zoom, bind, gets, modify. simpl.
  destruct (cpus (mach k) !! c) as [x|] eqn:Hx; simpl; [|done].
  eexists _, x. split; [done|]. split_and!; [|done|].
  - unfold ids. simpl. change (map ?f ?l) with (f <$> l). rewrite list_fmap_insert. apply list_insert_id.
    by rewrite list_lookup_fmap, Hx.
  - simpl. apply list_lookup_insert_eq. by eapply lookup_lt_Some.
Qed.

(** Running slot [q], which may be missing from the queues. *)
Lemma pres_run_proc q x (k : kst E) Q :
  this (mach k) = c -> sinv_but (Some q) k Q -> ptable k !! q = Some x -> p_state x = RUNNABLE ->
  pres sched_gives sched_relies (run_proc c q k) (fun _ k' => sinv k' /\ this (mach k') = c).
Proof.
  intros Hthis HQ Hx Hr. unfold run_proc. pstep (pres_set_proc (Some q) k _ _). intros ? k1 (m & y & -> & Hid & Hth & Hy).
  pstep (switchuvm_kept q (set_mach m k) _ _). intros ? k2 H2.
  assert (sinv_but (Some q) k2 Q) as HQ2.
  { eapply kept_sinv; [exact H2|]. by eapply sinv_frame; [..|exact HQ]. }
  apply pres_bind, pres_upd. intros x' Hx'. rewrite (kp_table _ _ H2) in Hx'. assert (x' = x) as -> by (simpl in Hx'; congruence).
  assert (ptable k2 !! q = Some x) as Hx2 by (by rewrite (kp_table _ _ H2)).
  apply pres_bind. simpl. split.
  - exists q. split.
    + exists Q. apply (sinv_close q).
      * eapply sinv_upd; [done..| | |]; simpl; intros; [eapply (si_prio _ _ _ HQ)|eapply (si_live _ _ _ HQ)|]; done || by rewrite Hr.
      * simpl. rewrite list_lookup_insert_eq by (by eapply lookup_lt_Some). by intros p [= <-].
    + destruct (same_ids_proc _ _ c _ (kp_mach _ _ H2) Hy) as (c2 & Hc2 & Hp2).
      exists c2, (set_p_state RUNNING x). split_and!; [|done| |done]; simpl.
      * rewrite (same_ids_this _ _ (kp_mach _ _ H2)). simpl. by rewrite Hth, Hthis.
      * apply list_lookup_insert_eq. by eapply lookup_lt_Some.
  - intros s' [[Q' HQ'] Hc']. pstep (switchkvm_kept s' _ _). intros ? s2 Hs2.
    pend (pres_set_proc None s2 _ _). intros ? s3 (m3 & y3 & -> & Hid3 & Hth3 & _). simpl.
    rewrite Hth3, (same_ids_this _ _ (kp_mach _ _ Hs2)). split; [|done]. exists Q'.
    eapply sinv_frame; [..|eapply kept_sinv; [exact Hs2|exact HQ']]; done.
Qed.
End Scheduler.
