(* ===== verification/NoLost.v ===== *)
(** No process that is ready to run is ever lost: the scheduling invariant of
    [Sinv] holds in every state a one-CPU system reaches, whatever its
    processes call and however their calls are interleaved (build of
    src/xv6-public/proc.c with the priority queues). *)
From S2P Require Import Prelude Spinlock ProcState Queue CString Proc ProcLemmas Sinv Sched SinvOps.

Section NoLost.
Context {E : Type} `{!MemOps E, !FileOps E, !MemSafe E, !FileSafe E}.

(** * A round of the scheduler *)

Lemma pick_sinv (k : kst E) Q :
  sinv_but None k Q ->
  exists k', pick k = Ret (pick_spec Q).1 k' /\ only_queues k k'
    /\ match (pick_spec Q).1 with
       | Some q => exists Q', sinv_but (Some q) k' Q'
       | None => sinv k' /\ forall i p, ptable k !! i = Some p -> p_state p <> RUNNABLE
       end.
Proof.
  intros HQ. destruct (pick_ok k Q (si_q _ _ _ HQ)) as (k' & Hrun & Hoq & Hq').
  exists k'. split; [done|]. split; [done|].
  pose proof (proj1 (proj2 (si_q _ _ _ HQ))) as Hrep.
  destruct (pick_spec_cases Q) as [[Heq Hall]|(i & q & r & Hi & _ & Heq)]; rewrite Heq in *; simpl in *.
  - split.
    + exists Q. by eapply sinv_queues.
    + intros i p Hp Hr. destruct (si_ready _ _ _ HQ i p Hp Hr ltac:(done)) as (pr & Hpr & Hin).
      rewrite (Hall _ _ (level_lookup Q k pr Hrep Hpr)) in Hin. set_solver.
  - exists (<[i := r]> Q). destruct Hoq as (qs & ms & ->). destruct HQ as [H1 H2 H3 H4 H5 H6 H7].
    constructor; try done. intros j p Hj Hr Hne. destruct (H7 j p Hj Hr ltac:(done)) as (pr & Hpr & Hin).
    exists pr. split; [done|]. pose proof (lookup_lt_Some _ _ _ Hi) as Hlt.
    unfold level in *. destruct (decide (i = Z.to_nat pr)) as [->|Hne2].
    + rewrite list_lookup_insert_eq by done. rewrite Hi in Hin. simpl in *.
      apply elem_of_cons in Hin as [->|]; [congruence|done].
    + by rewrite list_lookup_insert_ne.
Qed.

Lemma pres_scheduler_priority c p (k : kst E) :
  sinv k -> this (mach k) = c ->
  pres sched_gives (sched_relies c) (scheduler_priority c p k) (fun _ k' => sinv k' /\ this (mach k') = c).
Proof.
  intros Hk Hc. unfold scheduler_priority. pstep (pres_calm _ _ _ k calm_sti). intros ? k1 H1.
  pstep (pres_calm _ _ _ k1 (calm_acquire ptable_lock)). intros ? k2 H2.
  assert (sinv k2) as [Q HQ] by (destruct Hk as [Q HQ]; exists Q; eapply kept_sinv; [exact H2|]; by eapply kept_sinv).
  assert (this (mach k2) = c) as Hc2
    by (rewrite (same_ids_this _ _ (kp_mach _ _ H2)), (same_ids_this _ _ (kp_mach _ _ H1)); done).
  clear Hk H1 H2. destruct (pick_sinv k2 Q HQ) as (k3 & Hp & Hoq & Hsp). step Hp.
  assert (this (mach k3) = c) as Hc3 by (by destruct Hoq as (? & ? & ->)).
  eapply (pres_seq _ _ _ _ _ (fun _ k' => sinv k' /\ this (mach k') = c)).
  2:{ intros ? k4 [H4 Hc4]. pstep (pres_calm _ _ _ k4 (calm_release ptable_lock)). intros ? k5 H5.
      split; [by apply kept_goes_on in H5 as [? _]|]. by rewrite (same_ids_this _ _ (kp_mach _ _ H5)). }
  assert (forall q Q', sinv_but (Some q) k3 Q' ->
    pres sched_gives (sched_relies c)
      ((x <- proc_at q ;; if bool_decide (p_state x = RUNNABLE) then run_proc c q else ret tt) k3)
      (fun _ k' => sinv k' /\ this (mach k') = c)) as Hrun.
  { intros q Q' H'. apply pres_bind, pres_read. intros x Hx. case_bool_decide as Hr.
    - by eapply pres_run_proc.
    - split; [|done]. exists Q'. apply (sinv_close q); [done|]. intros y Hy. congruence. }
  destruct (pick_spec Q).1 as [q|].
  - destruct Hsp as [Q' H']. by eapply Hrun.
  - destruct Hsp as [[Q' H'] _]. destruct p as [q|].
    + eapply Hrun. by apply sinv_weaken.
    + split; [by exists Q'|done].
Qed.

(** * Processes *)

(** The entry points a process calls, and the sequence of calls it makes. *)
Inductive entry :=
| EForkret | EFork | EExit | EWait (fuel : nat) | EKill (pid : Z) | ENice (pid pr : Z)
| EYield | ESleep (chan lk : Z) | EWakeup (chan : Z) | EGrow (n : Z).

Definition run_entry (e : entry) : M (kst E) unit :=
  match e with
  | EForkret => forkret
  | EFork => _ <- fork false ;; ret tt
  | EExit => exit false
  | EWait fuel => _ <- wait false fuel ;; ret tt
  | EKill pid => _ <- kill false pid ;; ret tt
  | ENice pid pr => _ <- nice false pid pr ;; ret tt
  | EYield => yield false
  | ESleep chan lk => sleep chan lk
  | EWakeup chan => wakeup false chan
  | EGrow n => _ <- growproc n ;; ret tt
  end.

Fixpoint run_entries (l : list entry) : M (kst E) unit :=
  match l with
  | [] => ret tt
  | e :: l' => run_entry e ;; run_entries l'
  end.

Lemma pres_entry me e (k : kst E) :
  thread me k -> pres sinv (thread me) (run_entry e k) (fun _ k' => thread me k').
Proof.
  intros Hk. destruct e; simpl.
  - by apply pres_forkret.
  - pstep (pres_fork me k Hk). done.
  - by apply pres_exit.
  - pstep (pres_wait me fuel k Hk). done.
  - pstep (pres_kill me pid k Hk). done.
  - pstep (pres_nice me pid pr k Hk). done.
  - by apply pres_yield.
  - by apply pres_sleep.
  - pend (pres_wakeup sinv (thread me) chan k (proj1 Hk)). intros ? k' H'. by eapply thread_on.
  - pstep (pres_growproc me n k Hk). done.
Qed.

Lemma pres_entries me l (k : kst E) :
  thread me k -> pres sinv (thread me) (run_entries l k) (fun _ k' => thread me k').
Proof.
  revert k. induction l as [|e l IH]; intros k Hk; simpl; [done|].
  pstep (pres_entry me e k Hk). intros ? k' H'. by apply IH.
Qed.

(** * A system of one CPU *)

(** The kernel state between two rounds of the scheduler, the suspended
    processes with what they go on with, and the scheduler's variable p. *)
Record sys := Sys { sk : kst E; pool : list (nat * (kst E -> outcome (kst E) unit)); last : option nat }.

Inductive sys_step (c : nat) : sys -> sys -> Prop :=
| sys_spawn σ q l :
    (** a process exists that will make the calls [l] *)
    sys_step c σ (Sys (sk σ) ((q, run_entries l) :: pool σ) (last σ))
| sys_intr σ chan k' :
    (** an interrupt handler wakes the sleepers of a channel *)
    wakeup false chan (sk σ) = Ret tt k' -> this (mach k') = c ->
    sys_step c σ (Sys k' (pool σ) (last σ))
| sys_idle σ p k' :
    (** a round that runs nothing *)
    scheduler_priority c (last σ) (sk σ) = Ret p k' ->
    sys_step c σ (Sys k' (pool σ) p)
| sys_run σ s kont x q l1 f l2 s' f' p k' :
    (** a round that runs process [q] until it gives the CPU back *)
    scheduler_priority c (last σ) (sk σ) = Switch s kont ->
    cpus (mach s) !! this (mach s) = Some x -> cpu_proc x = Some q ->
    pool σ = l1 ++ (q, f) :: l2 -> f s = Switch s' f' ->
    this (mach s') = c -> kont s' = Ret p k' ->
    sys_step c σ (Sys k' (l1 ++ (q, f') :: l2) p).

(** One round, run as a function. *)
Fixpoint pool_take (q : nat) (l : list (nat * (kst E -> outcome (kst E) unit))) :
    option (list (nat * (kst E -> outcome (kst E) unit)) * (kst E -> outcome (kst E) unit)
            * list (nat * (kst E -> outcome (kst E) unit))) :=
  match l with
  | [] => None
  | (q', f) :: l' =>
      if decide (q' = q) then Some ([], f, l') else
      match pool_take q l' with Some (l1, g, l2) => Some ((q', f) :: l1, g, l2) | None => None end
  end.

Definition sys_round (c : nat) (σ : sys) : option sys :=
  match scheduler_priority c (last σ) (sk σ) with
  | Ret p k' => Some (Sys k' (pool σ) p)
  | Switch s kont =>
      q ← (x ← cpus (mach s) !! this (mach s); cpu_proc x);
      '(l1, f, l2) ← pool_take q (pool σ);
      match f s with
      | Switch s' f' =>
          if decide (this (mach s') = c) then
            match kont s' with Ret p k' => Some (Sys k' (l1 ++ (q, f') :: l2) p) | _ => None end
          else None
      | _ => None
      end
  | _ => None
  end.

Lemma pool_take_sound q l l1 f l2 : pool_take q l = Some (l1, f, l2) -> l = l1 ++ (q, f) :: l2.
Proof.
  revert l1. induction l as [|[q' g] l IH]; intros l1; simpl; [done|]. case_decide as Hq.
  - intros [= <- -> ->]. by rewrite Hq.
  - destruct (pool_take q l) as [[[a b] d]|]; [|done]. intros [= <- -> ->]. simpl. f_equal. by apply IH.
Qed.

Lemma sys_round_sound c σ σ' : sys_round c σ = Some σ' -> sys_step c σ σ'.
Proof.
  unfold sys_round. destruct (scheduler_priority c (last σ) (sk σ)) as [p k'| | | | |s kont] eqn:Hs; try done.
  - intros [= <-]. by apply sys_idle.
  - intros (q & (x & Hx & Hq)%bind_Some & H)%bind_Some.
    apply bind_Some in H as ([[l1 f] l2] & Hl%pool_take_sound & H).
    destruct (f s) as [| | | | |s' f'] eqn:Hf; try done. case_decide as Hc; [|done].
    destruct (kont s') as [p k'| | | | |] eqn:Hk; try done. injection H as <-. by eapply sys_run.
Qed.

(** What the suspended processes will do keeps the invariant. *)
Definition pool_ok (l : list (nat * (kst E -> outcome (kst E) unit))) : Prop :=
  Forall (fun qf => forall s, thread qf.1 s -> pres sinv (thread qf.1) (qf.2 s) (fun _ s' => thread qf.1 s')) l.

Definition sys_ok (c : nat) (σ : sys) : Prop := sinv (sk σ) /\ this (mach (sk σ)) = c /\ pool_ok (pool σ).

Lemma sys_step_ok c σ σ' : sys_ok c σ -> sys_step c σ σ' -> sys_ok c σ'.
Proof.
  intros (Hk & Hc & Hp) Hstep. destruct Hstep as [σ q l|σ chan k' Hw Hc'|σ p k' Hs|σ s kont x q l1 f l2 s' f' p k' Hs Hx Hq Hpool Hf Hc' Hk'];
    unfold sys_ok; simpl.
  - split_and!; try done. constructor; [|done]. intros s Hs. by apply pres_entries.
  - pose proof (pres_wakeup sinv sinv chan (sk σ) Hk) as H. rewrite Hw in H. split_and!; try done. apply H.
  - pose proof (pres_scheduler_priority c (last σ) (sk σ) Hk Hc) as H. rewrite Hs in H. simpl in H. by destruct H.
  - pose proof (pres_scheduler_priority c (last σ) (sk σ) Hk Hc) as H. rewrite Hs in H. destruct H as [(q' & Hq') Hkont].
    assert (q' = q) as -> by (destruct Hq' as [_ (x' & ? & Hx' & Hq' & _)]; congruence).
    unfold pool_ok in Hp. rewrite Hpool, Forall_app, Forall_cons in Hp. destruct Hp as (Hp1 & Hpf & Hp2).
    specialize (Hpf s Hq'). simpl in Hpf. rewrite Hf in Hpf. destruct Hpf as [Hs' Hf'].
    specialize (Hkont s' (conj Hs' Hc')). rewrite Hk' in Hkont. destruct Hkont as [Hk1 Hk2].
    split_and!; try done. unfold pool_ok. rewrite Forall_app, Forall_cons. by split_and!.
Qed.

Lemma sys_reach_ok c σ σ' : sys_ok c σ -> rtc (sys_step c) σ σ' -> sys_ok c σ'.
Proof. intros Hσ Hr. induction Hr; [done|]. eauto using sys_step_ok. Qed.

(** C1: no ready process is lost.  From a state with the invariant and no
    suspended process, a one-CPU system whose processes make any calls, with
    the scheduler and wakeups of interrupt handlers in between, only reaches
    states in which every RUNNABLE process is in one of the priority queues,
    no two processes share a pid, and pids in use are below the next one. *)
Theorem no_ready_process_is_lost c (k : kst E) σ :
  sinv k -> this (mach k) = c -> rtc (sys_step c) (Sys k [] None) σ ->
  exists Q, qinv (sk σ) Q
    /\ (forall i p, ptable (sk σ) !! i = Some p -> p_state p = RUNNABLE ->
          exists pr, 0 <= pr < PLEVELS /\ i ∈ level Q pr)
    /\ (forall i j, pid_of (sk σ) i = pid_of (sk σ) j -> pid_of (sk σ) i <> 0 -> i = j)
    /\ (forall i, pid_of (sk σ) i < nextpid (sk σ)).
Proof.
  intros Hk Hc Hr. destruct (sys_reach_ok c (Sys k [] None) σ) as ([Q HQ] & _ & _); [by split_and!; [..|constructor]|done|].
  exists Q. split_and!; try apply HQ. intros i p Hi Hrun. by eapply (si_ready _ _ _ HQ).
Qed.

(** With the invariant the scheduler is never idle while a process is
    ready: if some process is RUNNABLE the choice finds a queued process. *)
Theorem ready_process_means_choice (k : kst E) i p :
  sinv k -> ptable k !! i = Some p -> p_state p = RUNNABLE ->
  exists q k', pick k = Ret (Some q) k'.
Proof.
  intros [Q HQ] Hi Hr. destruct (pick_sinv k Q HQ) as (k' & Hp & _ & Hsp).
  destruct (pick_spec Q).1 as [q|]; [eauto|]. destruct Hsp as [_ Hno]. by destruct (Hno i p Hi Hr).
Qed.
End NoLost.

(** * Examples *)

Lemma sinv1 : sinv_but None kst1 Q1.
Proof.
  assert (forall i p, ptable kst1 !! i = Some p -> p_state p <> UNUSED ->
    (i = 0%nat /\ p = init1) \/ (i = 1%nat /\ p = shell1) \/ (i = 2%nat /\ p = ready1)) as Hlive.
  { intros [|[|[|i]]] p Hp Hu; [by left; simplify_eq/=|by right; left; simplify_eq/=|by right; right; simplify_eq/=|].
    change (ptable kst1) with (init1 :: shell1 :: ready1 :: replicate 61 proc0) in Hp.
    cbn [lookup list_lookup] in Hp. apply lookup_replicate_1 in Hp as [-> _]. done. }
  assert (forall i, (i < 3)%nat /\ pid_of kst1 i = Z.of_nat (S i) \/ pid_of kst1 i = 0) as Hpid.
  { intros [|[|[|i]]]; [left; split; [lia|done]..|]. right. unfold pid_of.
    change (ptable kst1) with (init1 :: shell1 :: ready1 :: replicate 61 proc0). cbn [lookup list_lookup].
    destruct (replicate 61 proc0 !! i) eqn:Hr; [|done]. by apply lookup_replicate_1 in Hr as [-> _]. }
  constructor.
  - apply qinv1.
  - split; [by intros [|i] c Hc; simplify_eq/=|]. by intros [|i] [|j] c d Hc Hd; simplify_eq/=.
  - intros i p Hi Hu. destruct (Hlive i p Hi Hu) as [[_ ->]|[[_ ->]|[_ ->]]]; simpl; lia.
  - intros i p Hi Hu. by destruct (Hlive i p Hi Hu) as [[_ ->]|[[_ ->]|[_ ->]]].
  - split; [done|]. intros i. change (nextpid kst1) with 4. destruct (Hpid i) as [[? ->]| ->]; lia.
  - intros i j. destruct (Hpid i) as [[? ->]| ->], (Hpid j) as [[? ->]| ->]; lia.
  - intros i p Hi Hr _. destruct (Hlive i p Hi ltac:(congruence)) as [[_ ->]|[[_ ->]|[-> ->]]]; try done.
    exists 2. split; [done|]. by apply list_elem_of_singleton.
Qed.

(** A process that returns from its fork and then yields is run and queued
    again. *)
Definition sys1 : sys := Sys kst1 [(2%nat, run_entries [EForkret; EYield])] None.

Lemma example_run :
  exists σ, rtc (sys_step 0) (Sys kst1 [] None) σ /\ fst <$> pool σ = [2%nat] /\ last σ = Some 2%nat.
Proof.
  assert (match sys_round 0 sys1 with
          | Some σ => bool_decide (fst <$> pool σ = [2%nat] /\ last σ = Some 2%nat) | None => false end = true) as H
    by (vm_compute; reflexivity).
  destruct (sys_round 0 sys1) as [σ|] eqn:Hr; [|done]. apply bool_decide_eq_true in H.
  exists σ. split; [|done]. eapply rtc_l; [apply (sys_spawn 0 _ 2 [EForkret; EYield])|].
  apply rtc_once. by apply sys_round_sound.
Qed.

Lemma no_ready_process_is_lost_witness :
  exists σ, rtc (sys_step 0) (Sys kst1 [] None) σ /\ last σ = Some 2%nat /\
  exists Q, qinv (sk σ) Q
    /\ (forall i p, ptable (sk σ) !! i = Some p -> p_state p = RUNNABLE ->
          exists pr, 0 <= pr < PLEVELS /\ i ∈ level Q pr)
    /\ (forall i j, pid_of (sk σ) i = pid_of (sk σ) j -> pid_of (sk σ) i <> 0 -> i = j)
    /\ (forall i, pid_of (sk σ) i < nextpid (sk σ)).
Proof.
  destruct example_run as (σ & Hr & _ & Hl). exists σ. split; [done|]. split; [done|].
  apply (no_ready_process_is_lost 0 kst1 σ); [exists Q1; apply sinv1|done|done].
Defined.

Lemma ready_process_means_choice_witness : exists q k', pick kst1 = Ret (Some q) k'.
Proof. apply (ready_process_means_choice kst1 2 ready1); [exists Q1; apply sinv1|done|done]. Defined.
