(* ===== verification/Kalloc.v ===== *)
(** The physical page allocator (src/xv6-public/kalloc.c): a free list threaded
    through the first words of the free pages.

    The state is the machine with its locks, the use_lock flag, the head of
    the list and the memory.  [end] is the first address after the kernel, as
    kernel.sym has it. *)
From S2P Require Import Prelude CString Spinlock ProcState Queue Proc.

Definition PHYSTOP : Z := 0xE000000.
Definition kmem_lock : Z := 0x80112660.
Definition end_ : Z := 0x80116528.

Definition V2P (a : Z) : Z := u32 (a - KERNBASE).
Definition P2V (a : Z) : Z := u32 (a + KERNBASE).
Definition PGROUNDUP (a : Z) : Z := Z.land (u32 (a + PGSIZE - 1)) (Z.lnot (PGSIZE - 1)).

Record kmem := Kmem { km_mach : machine; use_lock : Z; freelist : Z; ram : mem }.
Definition set_km_mach v k := Kmem v (use_lock k) (freelist k) (ram k).
Definition set_use_lock v k := Kmem (km_mach k) v (freelist k) (ram k).
Definition set_freelist v k := Kmem (km_mach k) (use_lock k) v (ram k).
Definition set_ram v k := Kmem (km_mach k) (use_lock k) (freelist k) v.

Definition kmachM {A} (c : M machine A) : M kmem A := zoom km_mach set_km_mach c.

(** [if(kmem.use_lock) f(&kmem.lock);] *)
Definition if_lock (c : M machine unit) : M kmem unit :=
  u <- gets use_lock ;; if negb (u =? 0) then kmachM c else ret tt.

Definition kfree (v : Z) : M kmem unit :=
  if negb (v mod PGSIZE =? 0) || (v <? end_) || (V2P v >=? PHYSTOP) then panic "kfree" else
  modify (fun k => set_ram (memset (ram k) v 1 PGSIZE) k) ;;
  if_lock (acquire kmem_lock) ;;
  modify (fun k => set_ram (store32 (ram k) v (freelist k)) k) ;;
  modify (set_freelist v) ;;
  if_lock (release kmem_lock).

Definition kalloc : M kmem Z :=
  if_lock (acquire kmem_lock) ;;
  r <- gets freelist ;;
  (if negb (r =? 0) then modify (fun k => set_freelist (load32 (ram k) r) k) else ret tt) ;;
  if_lock (release kmem_lock) ;;
  ret r.

(** [for(; p + PGSIZE <= vend; p += PGSIZE) kfree(p);], [n] times. *)
Fixpoint freerange_loop (n : nat) (p vend : Z) : M kmem unit :=
  match n with
  | O => fun k => OutOfFuel k
  | S n' =>
      if p + PGSIZE <=? vend then kfree p ;; freerange_loop n' (p + PGSIZE) vend else ret tt
  end.

Definition freerange (vstart vend : Z) : M kmem unit :=
  let p := PGROUNDUP vstart in
  freerange_loop (S (Z.to_nat ((vend - p) / PGSIZE))) p vend.

Definition kinit1 (vstart vend : Z) : M kmem unit :=
  kmachM (initlock kmem_lock "kmem") ;;
  modify (set_use_lock 0) ;;
  freerange vstart vend.

Definition kinit2 (vstart vend : Z) : M kmem unit :=
  freerange vstart vend ;;
  modify (set_use_lock 1).

(** * The free list *)

(** A page the allocator deals with. *)
Definition page_ok (a : Z) : Prop := a mod PGSIZE = 0 /\ end_ <= a < KERNBASE + PHYSTOP.

(** [h] is the head of a list through the pages [l]. *)
Fixpoint chain (m : mem) (h : Z) (l : list Z) : Prop :=
  match l with
  | [] => h = 0
  | a :: l' => h = a /\ chain m (load32 m a) l'
  end.

Record kmem_ok (k : kmem) (l : list Z) : Prop := {
  ko_chain : chain (ram k) (freelist k) l;
  ko_pages : Forall page_ok l;
  ko_nodup : NoDup l
}.

(** The lock is not used yet, or it is free. *)
Definition kmem_ready (k : kmem) : Prop :=
  use_lock k = 0 \/ exists c l, idle_at kmem_lock (km_mach k) c l.

(** The locks of [k'] are those of [k]; only the CPU's saved interrupt flag
    may differ, and that only when the lock is in use. *)
Definition kmem_after (k k' : kmem) : Prop :=
  use_lock k' = use_lock k /\ (locks (km_mach k') = locks (km_mach k) /\ (use_lock k = 0 -> km_mach k' = km_mach k)) /\ kmem_ready k'.

Lemma chain_ext m m' l : forall h,
  chain m h l -> (forall a x, a ∈ l -> a <= x < a + 4 -> m' x = m x) -> chain m' h l.
Proof.
  induction l as [|a l IH]; intros h; simpl; [done|]. intros [-> Hc] Heq. split; [done|].
  rewrite (load32_ext m m'); [|intros; apply (Heq a); set_solver]. apply IH; [done|]. intros b x Hb. apply Heq. set_solver.
Qed.

(** Different pages do not overlap. *)
Lemma pages_apart a b x y :
  page_ok a -> page_ok b -> a <> b -> a <= x < a + PGSIZE -> b <= y < b + PGSIZE -> x <> y.
Proof.
  intros [Ha _] [Hb _] Hne Hx Hy. unfold PGSIZE in *.
  pose proof (Z.div_mod a 4096). pose proof (Z.div_mod b 4096). nia.
Qed.

(** A critical section on kmem.lock, or none. *)
Lemma if_lock_section (k : kmem) :
  kmem_ready k ->
  exists m1 m2, (forall r h, if_lock (acquire kmem_lock) (Kmem (km_mach k) (use_lock k) h r) = Ret tt (Kmem m1 (use_lock k) h r))
    /\ (forall r h, if_lock (release kmem_lock) (Kmem m1 (use_lock k) h r) = Ret tt (Kmem m2 (use_lock k) h r))
    /\ forall r h, kmem_after k (Kmem m2 (use_lock k) h r).
Proof.
  intros [H0|(c & l & Hi)].
  - exists (km_mach k), (km_mach k). unfold if_lock, bind, gets. simpl. rewrite H0. split_and!; try done.
    intros r h. unfold kmem_after, kmem_ready. simpl. by split_and!; [..|left].
  - destruct (Z.eq_dec (use_lock k) 0) as [H0|H0].
    + exists (km_mach k), (km_mach k). unfold if_lock, bind, gets. simpl. rewrite H0. split_and!; try done.
      intros r h. unfold kmem_after, kmem_ready. simpl. by split_and!; [..|left].
    + exists (locked_at kmem_lock (km_mach k) c l), (unlocked_mach (km_mach k) c).
      unfold if_lock, bind, gets, kmachM, zoom. simpl. destruct (Z.eqb_spec (use_lock k) 0); [done|]. simpl.
      split_and!.
      * intros r h. by rewrite (acquire_idle _ _ _ _ Hi).
      * intros r h. by rewrite (release_idle _ _ _ _ Hi).
      * intros r h. unfold kmem_after, kmem_ready. simpl. split_and!; try done. right.
        exists (popped (pushed c)), l. pose proof (idle_same _ _ _ _ Hi) as (_ & _ & Hn & He & _).
        constructor; try apply Hi.
        -- simpl. rewrite list_lookup_insert_eq; [done|]. eapply lookup_lt_Some, Hi.
        -- rewrite Hn. apply Hi.
        -- rewrite Hn. unfold irq_on. rewrite He. apply Hi.
Qed.

(** * kfree and kalloc *)

Lemma page_test v : page_ok v -> negb (v mod PGSIZE =? 0) || (v <? end_) || (V2P v >=? PHYSTOP) = false.
Proof.
  intros [Ha Hb]. rewrite Ha. simpl. unfold V2P, PHYSTOP, KERNBASE, end_ in *.
  destruct (Z.ltb_spec v 0x80116528); [lia|]. simpl. rewrite u32_small by lia.
  destruct (Z.geb_spec (v - 0x80000000) 0xE000000); [lia|done].
Qed.

Lemma kfree_ok k l v :
  kmem_ok k l -> kmem_ready k -> page_ok v -> v ∉ l ->
  exists k', kfree v k = Ret tt k' /\ kmem_ok k' (v :: l) /\ kmem_after k k'
    /\ (forall x, x < v \/ v + PGSIZE <= x -> ram k' x = ram k x)
    /\ (forall x, v + 4 <= x < v + PGSIZE -> ram k' x = 1).
Proof.
  intros [Hch Hpg Hnd] Hr Hv Hnin. destruct (if_lock_section k Hr) as (m1 & m2 & Ha & Hrel & Haft).
  destruct k as [m u h r]. simpl in *. set (r1 := memset r v 1 PGSIZE).
  assert (forall x, x < v \/ v + PGSIZE <= x -> store32 r1 v h x = r x) as Hout.
  { intros x Hx. rewrite store32_ne by (unfold PGSIZE in *; lia). unfold r1. rewrite memset_spec by done.
    unfold PGSIZE in *. destruct (Z.leb_spec v x), (Z.ltb_spec x (v + 4096)); simpl; done || lia. }
  exists (Kmem m2 u v (store32 r1 v h)). split_and!; simpl; try done.
  - unfold kfree. rewrite page_test by done. unfold bind at 1, modify. simpl. fold r1.
    rewrite (bind_Ret _ _ _ _ _ (Ha r1 h)). unfold bind at 1. simpl. unfold bind at 1. simpl. apply Hrel.
  - assert (0 <= h < 4294967296) as Hh.
    { destruct l as [|a l']; simpl in Hch; [lia|]. destruct Hch as [-> _]. apply Forall_cons in Hpg as [[_ ?] _].
      unfold end_, KERNBASE, PHYSTOP in *. lia. }
    constructor; simpl; [split; [done|]| |].
    + rewrite load32_store32 by done. eapply chain_ext; [exact Hch|]. intros a x Ha' Hx. apply Hout.
      rewrite Forall_forall in Hpg. specialize (Hpg a Ha').
      destruct (decide (x < v \/ v + PGSIZE <= x)); [done|]. exfalso.
      apply (pages_apart a v x x Hpg Hv); [by intros ->|unfold PGSIZE in *; lia..|done].
    + by constructor.
    + by constructor.
  - intros x Hx. rewrite store32_ne by lia. unfold r1. rewrite memset_spec by done.
    destruct (Z.leb_spec v x), (Z.ltb_spec x (v + PGSIZE)); simpl; done || lia.
Qed.

Lemma kalloc_ok k l :
  kmem_ok k l -> kmem_ready k ->
  exists k', kalloc k = Ret (hd 0 l) k' /\ kmem_ok k' (tl l) /\ kmem_after k k' /\ ram k' = ram k.
Proof.
  intros [Hch Hpg Hnd] Hr. destruct (if_lock_section k Hr) as (m1 & m2 & Ha & Hrel & Haft).
  destruct k as [m u h r]. simpl in *. unfold kalloc. rewrite (bind_Ret _ _ _ _ _ (Ha r h)).
  unfold bind at 1, gets. simpl. destruct l as [|a l]; simpl in *.
  - subst h. unfold bind at 1. simpl. rewrite (bind_Ret _ _ _ _ _ (Hrel r 0)). eexists. split; [done|].
    by split_and!.
  - destruct Hch as [-> Hch]. apply Forall_cons in Hpg as [Hpa Hpg]. apply NoDup_cons in Hnd as [Hnin Hnd].
    assert (a <> 0) as Ha0 by (destruct Hpa as [_ ?]; unfold end_ in *; lia).
    destruct (Z.eqb_spec a 0); [done|]. unfold bind at 1. simpl.
    rewrite (bind_Ret _ _ _ _ _ (Hrel r (load32 r a))). eexists. split; [done|]. by split_and!.
Qed.

(** * Sequences of calls *)

Inductive kop := Alloc | Free (v : Z).

Definition run_kop (o : kop) : M kmem Z :=
  match o with Alloc => kalloc | Free v => kfree v ;; ret 0 end.

Fixpoint run_kops (l : list kop) : M kmem (list Z) :=
  match l with
  | [] => ret []
  | o :: l' => r <- run_kop o ;; rs <- run_kops l' ;; ret (r :: rs)
  end.

(** The promise: a stack of free pages; only pages that are not free may be
    freed. *)
Definition spec_kop (o : kop) (free : list Z) : option (Z * list Z) :=
  match o with
  | Alloc => Some (hd 0 free, tl free)
  | Free v => if decide (page_ok v /\ v ∉ free) then Some (0, v :: free) else None
  end.

Fixpoint spec_kops (l : list kop) (free : list Z) : option (list Z * list Z) :=
  match l with
  | [] => Some ([], free)
  | o :: l' =>
      '(r, free) ← spec_kop o free;
      '(rs, free) ← spec_kops l' free;
      Some (r :: rs, free)
  end.

Lemma kmem_after_trans k1 k2 k3 : kmem_after k1 k2 -> kmem_after k2 k3 -> kmem_after k1 k3.
Proof.
  intros (U1 & [? H1] & _) (U2 & [? H2] & ?). unfold kmem_after. split_and!; try congruence. intros Hu. rewrite H2, H1; congruence.
Qed.

Lemma run_kops_ok l : forall k free rs free',
  kmem_ok k free -> kmem_ready k -> spec_kops l free = Some (rs, free') ->
  exists k', run_kops l k = Ret rs k' /\ kmem_ok k' free' /\ kmem_ready k'.
Proof.
  induction l as [|o l IH]; intros k free rs free' Hok Hr; simpl.
  - intros [= <- <-]. by exists k.
  - intros ([r f1] & Ho & Hrest)%bind_Some. apply bind_Some in Hrest as ([rs1 f2] & Hl & [= <- <-]).
    assert (exists k1, run_kop o k = Ret r k1 /\ kmem_ok k1 f1 /\ kmem_ready k1) as (k1 & Hrun & Hok1 & Hr1).
    { destruct o as [|v]; simpl in *.
      - injection Ho as <- <-. destruct (kalloc_ok k free Hok Hr) as (k1 & Hk & Hok1 & Haft & _). by exists k1; split_and!; [..|apply Haft].
      - case_decide as Hd; [|done]. injection Ho as <- <-. destruct Hd as [Hv Hnin].
        destruct (kfree_ok k free v Hok Hr Hv Hnin) as (k1 & Hk & Hok1 & Haft & _).
        exists k1. rewrite (bind_Ret _ _ _ _ _ Hk). by split_and!; [..|apply Haft]. }
    rewrite (bind_Ret _ _ _ _ _ Hrun). destruct (IH k1 f1 rs1 f2 Hok1 Hr1 Hl) as (k2 & Hrun2 & Hok2 & Hr2).
    exists k2. by rewrite (bind_Ret _ _ _ _ _ Hrun2).
Qed.

(** C11: the allocator implements a stack of free pages: any sequence of
    allocations and of frees of pages not already free gives the results of
    the stack, although its links live in the freed pages themselves, which
    are overwritten with junk; with the lock in use, the lock is free again
    after each call. *)
Theorem kalloc_refines_page_stack k free ops rs free' :
  kmem_ok k free -> kmem_ready k -> spec_kops ops free = Some (rs, free') ->
  exists k', run_kops ops k = Ret rs k' /\ kmem_ok k' free' /\ kmem_ready k'.
Proof. apply run_kops_ok. Qed.

(** Freeing a page touches no byte outside the page, fills all but its
    first word with junk, and is refused with a panic for an address that is
    not a page of the allocator. *)
Theorem kfree_stays_in_page k free v :
  kmem_ok k free -> kmem_ready k -> v ∉ free -> 0 <= v < 4294967296 ->
  (page_ok v /\ exists k', kfree v k = Ret tt k'
     /\ (forall x, x < v \/ v + PGSIZE <= x -> ram k' x = ram k x)
     /\ (forall x, v + 4 <= x < v + PGSIZE -> ram k' x = 1)
     /\ load32 (ram k') v = freelist k)
  \/ (~ page_ok v /\ kfree v k = Panic "kfree" k).
Proof.
  intros Hok Hr Hnin H32. destruct (decide (page_ok v)) as [Hv|Hv]; [left|right].
  - split; [done|]. destruct (kfree_ok k free v Hok Hr Hv Hnin) as (k' & Hrun & Hok' & _ & Hout & Hin).
    exists k'. split_and!; try done. destruct Hok' as [[_ Hch] _ _].
    destruct Hok as [Hch0 _ _]. destruct free as [|a free]; simpl in *; [congruence|].
    destruct Hch as [-> _], Hch0 as [-> _]. done.
  - split; [done|]. unfold kfree.
    destruct (negb (v mod PGSIZE =? 0) || (v <? end_) || (V2P v >=? PHYSTOP)) eqn:Ht; [done|].
    exfalso. apply Hv. bool_props. unfold V2P in *. unfold page_ok, end_, PHYSTOP, KERNBASE in *.
    destruct (Z.geb_spec (u32 (v - 0x80000000)) 0xE000000); [done|]. rewrite u32_small in * by lia. lia.
Qed.

(** * freerange *)

(** [n] pages from [p] on. *)
Fixpoint pages (p : Z) (n : nat) : list Z :=
  match n with O => [] | S n' => p :: pages (p + PGSIZE) n' end.

Lemma elem_of_pages n : forall p a, a ∈ pages p n -> p <= a.
Proof.
  induction n as [|n IH]; intros p a; simpl; [set_solver|]. unfold PGSIZE.
  intros [->|Ha]%elem_of_cons; [lia|]. specialize (IH _ _ Ha). unfold PGSIZE in *. lia.
Qed.

Lemma freerange_loop_ok n : forall p vend k free,
  kmem_ok k free -> kmem_ready k -> Forall page_ok (pages p n) -> (forall a, a ∈ pages p n -> a ∉ free) ->
  p + PGSIZE * Z.of_nat n <= vend < p + PGSIZE * Z.of_nat n + PGSIZE ->
  exists k', freerange_loop (S n) p vend k = Ret tt k' /\ kmem_ok k' (rev (pages p n) ++ free) /\ kmem_after k k' /\
    forall x, x < p \/ p + PGSIZE * Z.of_nat n <= x -> ram k' x = ram k x.
Proof.
  induction n as [|n IH]; intros p vend k free Hok Hr Hpg Hnew Hend.
  - exists k. cbn [freerange_loop]. destruct (Z.leb_spec (p + PGSIZE) vend); [lia|]. by split_and!.
  - cbn [freerange_loop]. destruct (Z.leb_spec (p + PGSIZE) vend); [|unfold PGSIZE in *; lia].
    simpl in Hpg. apply Forall_cons in Hpg as [Hp Hpg].
    destruct (kfree_ok k free p Hok Hr Hp) as (k1 & Hrun & Hok1 & Haft & Hm1 & _); [apply Hnew; set_solver|].
    rewrite (bind_Ret _ _ _ _ _ Hrun).
    destruct (IH (p + PGSIZE) vend k1 (p :: free)) as (k2 & Hrun2 & Hok2 & Haft2 & Hm2); try done.
    + apply Haft.
    + intros a Ha [->|Hin]%elem_of_cons; [|by apply (Hnew a); [set_solver|]].
      pose proof (elem_of_pages _ _ _ Ha). unfold PGSIZE in *. lia.
    + unfold PGSIZE in *. lia.
    + exists k2. split_and!; [done| |by eapply kmem_after_trans|]; [simpl; by rewrite <- app_assoc|].
      intros x Hx. rewrite Hm2, Hm1; [done|unfold PGSIZE in *; lia..].
Qed.

Lemma PGROUNDUP_eq a : 0 <= a < 4294963200 -> PGROUNDUP a = (a + 4095) / 4096 * 4096.
Proof.
  intros Ha. unfold PGROUNDUP, PGSIZE. replace (a + 4096 - 1) with (a + 4095) by lia.
  rewrite u32_small by lia. change (4096 - 1) with (Z.ones 12).
  change (Z.lnot (Z.ones 12)) with (Z.shiftl (-1) 12).
  change 4096 with (2 ^ 12). rewrite <- Z.shiftl_mul_pow2, <- Z.shiftr_div_pow2 by lia.
  apply Z.bits_inj'. intros n Hn. rewrite Z.land_spec, !Z.shiftl_spec by lia.
  destruct (Z.ltb_spec n 12).
  - rewrite (Z.testbit_neg_r (-1)), (Z.testbit_neg_r (Z.shiftr _ _)) by lia. by rewrite andb_false_r.
  - rewrite Z.bits_m1, andb_true_r, Z.shiftr_spec by lia. f_equal. lia.
Qed.

Lemma pages_ok_range n : forall p, p mod PGSIZE = 0 -> end_ <= p -> p + PGSIZE * Z.of_nat n <= KERNBASE + PHYSTOP ->
  Forall page_ok (pages p n).
Proof.
  induction n as [|n IH]; intros p Hp He Hend; simpl; [done|]. unfold PGSIZE in *. constructor.
  - split; [done|]. lia.
  - apply IH; [|lia|lia]. rewrite Z.add_mod, Hp by lia. done.
Qed.

Lemma elem_of_pages_hi n : forall p a, a ∈ pages p n -> a + PGSIZE <= p + PGSIZE * Z.of_nat n.
Proof.
  induction n as [|n IH]; intros p a; simpl; [set_solver|]. unfold PGSIZE in *.
  intros [->|Ha]%elem_of_cons; [lia|]. specialize (IH _ _ Ha). lia.
Qed.

Lemma freerange_ok k free vstart vend :
  kmem_ok k free -> kmem_ready k -> end_ <= vstart <= KERNBASE + PHYSTOP ->
  PGROUNDUP vstart <= vend <= KERNBASE + PHYSTOP ->
  let p := PGROUNDUP vstart in
  let n := Z.to_nat ((vend - p) / PGSIZE) in
  (forall a, a ∈ pages p n -> a ∉ free) ->
  exists k', freerange vstart vend k = Ret tt k' /\ kmem_ok k' (rev (pages p n) ++ free) /\ kmem_after k k' /\
    forall x, x < p \/ vend <= x -> ram k' x = ram k x.
Proof.
  intros Hok Hr Hs Hend p n Hnew. unfold freerange. fold p n.
  assert (p = (vstart + 4095) / 4096 * 4096) as Hp.
  { apply PGROUNDUP_eq. unfold end_, KERNBASE, PHYSTOP in *. lia. }
  pose proof (Z.div_mod (vend - p) 4096). pose proof (Z.mod_pos_bound (vend - p) 4096).
  pose proof (Z.div_pos (vend - p) 4096). pose proof (Z.div_mod (vstart + 4095) 4096).
  pose proof (Z.mod_pos_bound (vstart + 4095) 4096).
  assert (Z.of_nat n = (vend - p) / 4096) as Hn by (unfold n, PGSIZE; fold p in Hend; lia).
  fold p in Hend. destruct (freerange_loop_ok n p vend k free) as (k' & Hrun & Hk & Ha & Hm); try done; [|unfold PGSIZE; lia|].
  - apply pages_ok_range; [rewrite Hp; apply Z.mod_mul; done|lia|unfold PGSIZE; lia].
  - exists k'. split_and!; try done. intros x Hx. apply Hm. unfold PGSIZE. lia.
Qed.

(** Kinit1 and kinit2 hand every whole page between the rounded-up start
    and the end to the allocator, each exactly once, and switch the lock on
    only at the end; the loops over the ranges terminate. *)
Theorem kinit_frees_every_page k vstart vmid vend :
  freelist k = 0 -> end_ <= vstart -> vstart <= vmid <= vend -> vend <= KERNBASE + PHYSTOP ->
  vmid mod PGSIZE = 0 ->
  let p := PGROUNDUP vstart in
  exists k', (kinit1 vstart vmid ;; kinit2 vmid vend) k = Ret tt k'
    /\ kmem_ok k' (rev (pages vmid (Z.to_nat ((vend - vmid) / PGSIZE))) ++ rev (pages p (Z.to_nat ((vmid - p) / PGSIZE))))
    /\ use_lock k' = 1.
Proof.
  intros H0 Hstart Hmid Hend Hal p.
  assert (p = (vstart + 4095) / 4096 * 4096) as Hp by (apply PGROUNDUP_eq; unfold end_, KERNBASE, PHYSTOP in *; lia).
  assert (PGROUNDUP vmid = vmid) as Hm.
  { rewrite PGROUNDUP_eq by (unfold end_, KERNBASE, PHYSTOP in *; lia). unfold PGSIZE in *.
    pose proof (Z.div_mod vmid 4096). replace (vmid + 4095) with (4095 + vmid / 4096 * 4096) by lia.
    rewrite Z.div_add by lia. change (4095 / 4096) with 0. lia. }
  assert (p <= vmid) as Hpm.
  { rewrite Hp. unfold PGSIZE in *. pose proof (Z.div_mod vmid 4096). pose proof (Z.div_mod (vstart + 4095) 4096).
    pose proof (Z.mod_pos_bound (vstart + 4095) 4096). nia. }
  set (k0 := Kmem (set_locks (<[kmem_lock := Spinlock 0 "kmem" None]> (locks (km_mach k))) (km_mach k)) 0 (freelist k) (ram k)).
  destruct (freerange_ok k0 [] vstart vmid) as (k1 & Hrun1 & Hok1 & [Hu1 _] & _); fold p; try done.
  { constructor; simpl; [by rewrite H0|done|apply NoDup_nil_2]. }
  { by left. }
  { lia. }
  { lia. }
  { set_solver. }
  fold p in Hok1. rewrite app_nil_r in Hok1.
  set (n := Z.to_nat ((vmid - p) / PGSIZE)) in *.
  destruct (freerange_ok k1 (rev (pages p n)) vmid vend) as (k2 & Hrun2 & Hok2 & _); rewrite ?Hm; try done.
  { left. by rewrite Hu1. }
  { lia. }
  { lia. }
  { intros a Ha Hin. apply elem_of_pages in Ha. apply list_elem_of_In in Hin. apply in_rev in Hin.
    apply list_elem_of_In, elem_of_pages_hi in Hin. pose proof (Z.div_mod (vmid - p) 4096).
    pose proof (Z.mod_pos_bound (vmid - p) 4096). unfold n, PGSIZE in *. pose proof (Z.div_pos (vmid - p) 4096). lia. }
  rewrite Hm in Hok2. exists (set_use_lock 1 k2). split_and!; [|destruct Hok2; by constructor|done].
  rewrite (bind_Ret (kinit1 vstart vmid) _ k tt k1); [|exact Hrun1].
  unfold kinit2. by rewrite (bind_Ret _ _ _ _ _ Hrun2).
Qed.

(** * Examples *)

Definition kmem0 : kmem := Kmem mach0 0 0 mem0.
Definition page0 : Z := 0x80117000.

Lemma kmem_ok0 : kmem_ok kmem0 [].
Proof. constructor; [done|done|apply NoDup_nil_2]. Qed.

Lemma kalloc_refines_page_stack_witness :
  exists k', run_kops [Alloc; Free page0; Free (page0 + 4096); Alloc; Alloc; Alloc] kmem0
             = Ret [0; 0; 0; page0 + 4096; page0; 0] k' /\ kmem_ok k' [] /\ kmem_ready k'.
Proof.
  apply (kalloc_refines_page_stack kmem0 []); [apply kmem_ok0|by left|].
  cbn [spec_kops spec_kop mbind option_bind hd tl].
  rewrite decide_True by (split; [vm_compute; split; done|set_solver]). cbn [mbind option_bind].
  rewrite decide_True by (split; [vm_compute; split; done|]; intros ?%list_elem_of_singleton; done). done.
Defined.

Lemma kfree_stays_in_page_witness :
  (page_ok page0 /\ exists k', kfree page0 kmem0 = Ret tt k'
     /\ (forall x, x < page0 \/ page0 + PGSIZE <= x -> ram k' x = ram kmem0 x)
     /\ (forall x, page0 + 4 <= x < page0 + PGSIZE -> ram k' x = 1)
     /\ load32 (ram k') page0 = freelist kmem0)
  \/ (~ page_ok page0 /\ kfree page0 kmem0 = Panic "kfree" kmem0).
Proof.
  apply (kfree_stays_in_page kmem0 []); [apply kmem_ok0|by left|set_solver|vm_compute; split; done].
Defined.

Lemma kinit_frees_every_page_witness :
  let p := PGROUNDUP end_ in
  exists k', (kinit1 end_ 0x80400000 ;; kinit2 0x80400000 0x8E000000) kmem0 = Ret tt k'
    /\ kmem_ok k' (rev (pages 0x80400000 (Z.to_nat ((0x8E000000 - 0x80400000) / PGSIZE)))
                    ++ rev (pages p (Z.to_nat ((0x80400000 - p) / PGSIZE))))
    /\ use_lock k' = 1.
Proof.
  apply (kinit_frees_every_page kmem0 end_ 0x80400000 0x8E000000); [done|done|vm_compute; split; done|done|done].
Defined.
