(* ===== verification/Pipe.v ===== *)
(** Pipes (src/xv6-public/pipe.c): a ring buffer of PIPESIZE bytes with two
    free-running 32-bit counters, a lock, and sleeping readers and writers.

    A pipe lives in a page of its own; the kernel state of the components
    beside the process layer holds the pipes by their address.  A writer's
    bytes come from a function of the index, a reader's bytes are returned. *)
From S2P Require Import Prelude Spinlock ProcState Queue CString Proc ProcLemmas Sched Switching.

Definition PIPESIZE : Z := 512.

Record pipe := Pipe {
  data : list Z;
  nread : Z;
  nwrite : Z;
  readopen : Z;
  writeopen : Z
}.
Definition set_data v p := Pipe v (nread p) (nwrite p) (readopen p) (writeopen p).
Definition set_nread v p := Pipe (data p) v (nwrite p) (readopen p) (writeopen p).
Definition set_nwrite v p := Pipe (data p) (nread p) v (readopen p) (writeopen p).
Definition set_readopen v p := Pipe (data p) (nread p) (nwrite p) v (writeopen p).
Definition set_writeopen v p := Pipe (data p) (nread p) (nwrite p) (readopen p) v.

(** Where the pipes are in the state of the other components. *)
Class PipeHeap (E : Type) := {
  pipes : E -> gmap Z pipe;
  set_pipes : gmap Z pipe -> E -> E;
  pipes_set h e : pipes (set_pipes h e) = h;
  set_pipes_set h h' e : set_pipes h (set_pipes h' e) = set_pipes h e;
  set_pipes_id e : set_pipes (pipes e) e = e
}.

(** The page of a pipe starts with its lock; the sleep channels are the
    addresses of the two counters. *)
Definition nread_chan (pa : Z) : Z := pa + 564.
Definition nwrite_chan (pa : Z) : Z := pa + 568.

(** [p->data[p->nwrite++ % PIPESIZE] = b], and the read with [nread]. *)
Definition pipe_put (b : Z) (p : pipe) : option pipe :=
  d ← arr_set (data p) (nwrite p mod PIPESIZE) b;
  Some (set_nwrite (u32 (nwrite p + 1)) (set_data d p)).

Definition pipe_get (p : pipe) : option (Z * pipe) :=
  b ← arr_get (data p) (nread p mod PIPESIZE);
  Some (b, set_nread (u32 (nread p + 1)) p).

Definition pipe_full (p : pipe) : bool := nwrite p =? u32 (nread p + PIPESIZE).
Definition pipe_empty (p : pipe) : bool := nread p =? nwrite p.

Section Ops.
Context {E : Type} `{!PipeHeap E, !MemOps E}.
Variable custom : bool.
Notation K := (M (kst E)).

Definition pipe_at (pa : Z) : K pipe :=
  k <- gets (fun k => k) ;; get_opt "pipe" (pipes (ext k) !! pa).

Definition put_pipe (pa : Z) (p : pipe) : K unit :=
  modify (fun k => set_ext (set_pipes (<[pa := p]> (pipes (ext k))) (ext k)) k).

(** The initialisation in pipealloc. *)
Definition pipeinit (pa : Z) : K unit :=
  k <- gets (fun k => k) ;;
  let old := default (Pipe (replicate 512 1) 0 0 0 0) (pipes (ext k) !! pa) in
  put_pipe pa (set_nread 0 (set_nwrite 0 (set_writeopen 1 (set_readopen 1 old)))) ;;
  machM (initlock pa "pipe").

Definition pipeclose (pa writable : Z) : K unit :=
  machM (acquire pa) ;;
  p <- pipe_at pa ;;
  (if negb (writable =? 0) then
     put_pipe pa (set_writeopen 0 p) ;; wakeup custom (nread_chan pa)
   else
     put_pipe pa (set_readopen 0 p) ;; wakeup custom (nwrite_chan pa)) ;;
  p <- pipe_at pa ;;
  if (readopen p =? 0) && (writeopen p =? 0) then
    machM (release pa) ;; extM (kfree pa)
  else machM (release pa).

(** [proc->killed] *)
Definition killed_ : K bool :=
  me <- proc_ ;; x <- proc_at me ;; ret (negb (p_killed x =? 0)).

(** Wait until there is room; [false] when the reader is gone or the writer
    has been killed.  At most [fuel] rounds. *)
Fixpoint pipe_room (fuel : nat) (pa : Z) : K bool :=
  match fuel with
  | O => fun k => OutOfFuel k
  | S f =>
      p <- pipe_at pa ;;
      if pipe_full p then
        stop <- (if readopen p =? 0 then ret true else killed_) ;;
        if stop : bool then ret false else
        wakeup custom (nread_chan pa) ;;
        sleep (nwrite_chan pa) pa ;;
        pipe_room f pa
      else ret true
  end.

Definition pipewrite_body (fuel : nat) (pa : Z) (addr : Z -> Z) (i : Z) : K (option Z) :=
  room <- pipe_room fuel pa ;;
  if negb room then machM (release pa) ;; ret (Some (-1)) else
  p <- pipe_at pa ;;
  p' <- get_opt "data" (pipe_put (addr i) p) ;;
  put_pipe pa p' ;;
  ret None.

Definition pipewrite (fuel : nat) (pa : Z) (addr : Z -> Z) (n : Z) : K Z :=
  machM (acquire pa) ;;
  r <- for_range 0 n (pipewrite_body fuel pa addr) ;;
  match r with
  | Some v => ret v
  | None =>
      wakeup custom (nread_chan pa) ;;
      machM (release pa) ;;
      ret n
  end.

(** Wait for a byte or for the last writer to go; [false] when killed. *)
Fixpoint pipe_some (fuel : nat) (pa : Z) : K bool :=
  match fuel with
  | O => fun k => OutOfFuel k
  | S f =>
      p <- pipe_at pa ;;
      if pipe_empty p && negb (writeopen p =? 0) then
        killed <- killed_ ;;
        if killed : bool then ret false else
        sleep (nread_chan pa) pa ;;
        pipe_some f pa
      else ret true
  end.

(** The copy loop: the bytes read so far, until the pipe is empty. *)
Definition piperead_body (pa : Z) (i : Z) (acc : list Z) : K (list Z + list Z) :=
  p <- pipe_at pa ;;
  if pipe_empty p then ret (inl acc) else
  r <- get_opt "data" (pipe_get p) ;;
  put_pipe pa (snd r) ;;
  ret (inr (acc ++ [fst r])).

(** The result is the value returned and the bytes stored at addr. *)
Definition piperead (fuel : nat) (pa : Z) (n : Z) : K (Z * list Z) :=
  machM (acquire pa) ;;
  ok <- pipe_some fuel pa ;;
  if negb ok then machM (release pa) ;; ret (-1, []) else
  r <- for_acc (Z.to_nat n) 0 [] (piperead_body pa) ;;
  let bytes := match r with inl l => l | inr l => l end in
  wakeup custom (nwrite_chan pa) ;;
  machM (release pa) ;;
  ret (Z.of_nat (length bytes), bytes).
End Ops.

(** * The ring buffer is a queue *)

Definition used (p : pipe) : Z := u32 (nwrite p - nread p).

(** The bytes in the pipe, oldest first. *)
Definition content (p : pipe) : list Z :=
  map (fun i => default 0 (data p !! Z.to_nat ((nread p + i) mod PIPESIZE))) (seqZ 0 (used p)).

Record pipe_ok (p : pipe) : Prop := {
  po_len : length (data p) = Z.to_nat PIPESIZE;
  po_nread : 0 <= nread p < 4294967296;
  po_nwrite : 0 <= nwrite p < 4294967296;
  po_used : used p <= PIPESIZE
}.

Lemma u32_add_l a b : u32 (u32 a + b) = u32 (a + b).
Proof. unfold u32. apply Zplus_mod_idemp_l. Qed.

Lemma u32_sub_r a b : u32 (a - u32 b) = u32 (a - b).
Proof. unfold u32. apply Zminus_mod_idemp_r. Qed.

Lemma u32_mod512 a b : (u32 a + b) mod PIPESIZE = (a + b) mod PIPESIZE.
Proof.
  unfold u32, PIPESIZE. rewrite <- (Zplus_mod_idemp_l (a mod 4294967296)), <- (Zplus_mod_idemp_l a).
  rewrite Z.mod_mod_divide; [done|]. by exists 8388608.
Qed.

Lemma length_content p : length (content p) = Z.to_nat (used p).
Proof. unfold content. rewrite length_map, length_seqZ. done. Qed.

Lemma used_range p : 0 <= used p.
Proof. apply u32_range. Qed.

Lemma pipe_full_iff p : pipe_ok p -> pipe_full p = (used p =? PIPESIZE).
Proof.
  intros [_ Hr Hw Hu]. unfold pipe_full, used, PIPESIZE in *. apply eq_true_iff_eq. rewrite !Z.eqb_eq. split.
  - intros ->. rewrite u32_sub_l. replace (nread p + 512 - nread p) with 512 by lia. done.
  - intros H. rewrite <- H. unfold u32 at 2. rewrite <- (u32_small (nwrite p)) at 1 by done. unfold u32.
    rewrite Zplus_mod_idemp_r. f_equal. lia.
Qed.

Lemma pipe_empty_iff p : pipe_ok p -> pipe_empty p = (used p =? 0).
Proof.
  intros [_ Hr Hw Hu]. unfold pipe_empty, used in *. apply eq_true_iff_eq. rewrite !Z.eqb_eq. split.
  - intros ->. by rewrite Z.sub_diag.
  - intros H. unfold u32 in H. apply Z.mod_divide in H as [q Hq]; [|lia].
    assert (q = 0) as -> by lia. lia.
Qed.

(** The next byte written goes right behind the last one. *)
Lemma nwrite_index p : (nread p + used p) mod PIPESIZE = nwrite p mod PIPESIZE.
Proof. unfold used. rewrite Z.add_comm, u32_mod512. f_equal. lia. Qed.

(** Bytes less than PIPESIZE apart have different places. *)
Lemma ring_apart a i j : (a + i) mod 512 = (a + j) mod 512 -> 0 <= j < 512 -> j < i < j + 512 -> False.
Proof.
  intros Heq Hj Hi. assert ((i - j) mod 512 = 0) as H0.
  { replace (i - j) with ((a + i) - (a + j)) by lia. rewrite Zminus_mod, Heq, Z.sub_diag. done. }
  rewrite Z.mod_small in H0; lia.
Qed.

(** Writing a byte that fits appends it. *)
Lemma pipe_put_ok p b :
  pipe_ok p -> used p < PIPESIZE ->
  exists p', pipe_put b p = Some p' /\ pipe_ok p' /\ content p' = content p ++ [b]
    /\ readopen p' = readopen p /\ writeopen p' = writeopen p.
Proof.
  intros [Hl Hr Hw Hu] Hroom. pose proof (Z.mod_pos_bound (nwrite p) PIPESIZE ltac:(done)) as Hi.
  unfold pipe_put. unfold arr_set. rewrite Hl.
  destruct (Z.leb_spec 0 (nwrite p mod PIPESIZE)); [|lia].
  destruct (Z.ltb_spec (nwrite p mod PIPESIZE) (Z.of_nat (Z.to_nat PIPESIZE))); [|unfold PIPESIZE in *; lia].
  simpl. eexists. split; [done|].
  set (p' := set_nwrite _ _). pose proof (used_range p) as Hu0.
  assert (used p' = used p + 1) as Hused.
  { unfold used, p'. simpl. rewrite u32_sub_l. replace (nwrite p + 1 - nread p) with (nwrite p - nread p + 1) by lia.
    rewrite <- u32_add_l. apply u32_small. unfold used, PIPESIZE in *. lia. }
  split_and!; try done.
  - constructor; simpl; [by rewrite length_insert|done|apply u32_range|]. rewrite Hused. lia.
  - unfold content. rewrite Hused, seqZ_app by lia. rewrite map_app. simpl. f_equal.
    + apply map_ext_in. intros i Hin%list_elem_of_In%elem_of_seqZ. simpl. rewrite list_lookup_insert_ne; [done|].
      rewrite <- nwrite_index. unfold PIPESIZE in *. intros Heq. apply Z2Nat.inj in Heq; try (apply Z.mod_pos_bound; lia).
      apply ring_apart in Heq; [done|lia|lia].
    + f_equal. rewrite nwrite_index. rewrite list_lookup_insert_eq; [done|]. rewrite Hl. unfold PIPESIZE in *. lia.
Qed.

(** Reading a byte takes the oldest. *)
Lemma pipe_get_ok p :
  pipe_ok p -> 0 < used p ->
  exists b p', pipe_get p = Some (b, p') /\ pipe_ok p' /\ content p = b :: content p'
    /\ readopen p' = readopen p /\ writeopen p' = writeopen p.
Proof.
  intros [Hl Hr Hw Hu] Hsome. pose proof (Z.mod_pos_bound (nread p) PIPESIZE ltac:(done)) as Hi.
  destruct (arr_get_Some (data p) (nread p mod PIPESIZE)) as [b Hb]; [rewrite Hl; unfold PIPESIZE in *; lia|].
  unfold pipe_get. rewrite Hb. simpl. eexists b, _. split; [done|].
  set (p' := set_nread _ p).
  assert (used p' = used p - 1) as Hused.
  { unfold used, p'. simpl. rewrite u32_sub_r. replace (nwrite p - (nread p + 1)) with (nwrite p - nread p - 1) by lia.
    rewrite <- u32_sub_l. apply u32_small. pose proof (used_range p). unfold used, PIPESIZE in *. lia. }
  split_and!; try done.
  - constructor; simpl; [done|apply u32_range|done|]. rewrite Hused. lia.
  - unfold content. rewrite Hused, seqZ_cons by done. simpl. f_equal.
    + rewrite Z.add_0_r. unfold arr_get in Hb. destruct (0 <=? nread p mod PIPESIZE); [|done]. by rewrite Hb.
    + rewrite <- (fmap_add_seqZ 1 0). change (?f <$> ?l) with (map f l). rewrite map_map.
      replace (Z.pred (used p)) with (used p - 1) by lia. apply map_ext. intros i.
      rewrite u32_mod512. by replace (nread p + 1 + i) with (nread p + (1 + i)) by lia.
Qed.

(** Sequences of guarded puts and gets, as the loops of pipewrite and piperead
    do them, against a queue of at most PIPESIZE bytes. *)
Inductive pop := PPut (b : Z) | PGet.

Definition run_pop (o : pop) (p : pipe) : option (list Z * pipe) :=
  match o with
  | PPut b => if pipe_full p then None else p' ← pipe_put b p; Some ([], p')
  | PGet => if pipe_empty p then None else '(b, p') ← pipe_get p; Some ([b], p')
  end.

Fixpoint run_pops (l : list pop) (p : pipe) : option (list Z * pipe) :=
  match l with
  | [] => Some ([], p)
  | o :: l' => '(r, p') ← run_pop o p; '(rs, p'') ← run_pops l' p'; Some (r ++ rs, p'')
  end.

Definition spec_pop (o : pop) (q : list Z) : option (list Z * list Z) :=
  match o, q with
  | PPut b, _ => if decide (length q = Z.to_nat PIPESIZE) then None else Some ([], q ++ [b])
  | PGet, [] => None
  | PGet, b :: q' => Some ([b], q')
  end.

Fixpoint spec_pops (l : list pop) (q : list Z) : option (list Z * list Z) :=
  match l with
  | [] => Some ([], q)
  | o :: l' => '(r, q') ← spec_pop o q; '(rs, q'') ← spec_pops l' q'; Some (r ++ rs, q'')
  end.

(** What a result of the ring buffer means for the queue. *)
Definition pop_rel (r : option (list Z * pipe)) (s : option (list Z * list Z)) : Prop :=
  match r, s with
  | Some (o, p), Some (o', q) => o = o' /\ pipe_ok p /\ content p = q
  | None, None => True
  | _, _ => False
  end.

Lemma run_pop_ok o p : pipe_ok p -> pop_rel (run_pop o p) (spec_pop o (content p)).
Proof.
  intros Hp. pose proof (length_content p) as Hl. pose proof (used_range p). pose proof (po_used _ Hp).
  destruct o as [b|]; simpl.
  - rewrite pipe_full_iff by done. destruct (Z.eqb_spec (used p) PIPESIZE) as [Hf|Hf].
    + rewrite decide_True; [done|]. by rewrite Hl, Hf.
    + rewrite decide_False by (unfold PIPESIZE in *; lia).
      destruct (pipe_put_ok p b Hp) as (p' & -> & Hp' & Hc & _); [lia|]. done.
  - rewrite pipe_empty_iff by done. destruct (Z.eqb_spec (used p) 0) as [He|He].
    + rewrite He in Hl. by destruct (content p).
    + destruct (pipe_get_ok p Hp) as (b & p' & -> & Hp' & -> & _); [lia|]. done.
Qed.

(** C14: under any sequence of writes and reads of single bytes, each tried with
    the code's own tests for a full and an empty pipe, the ring buffer behaves
    as a first-in first-out queue of at most 512 bytes: it refuses exactly
    when the queue is full or empty, and reads give the written bytes in
    order, also when the free-running counters wrap around at 2^32. *)
Theorem pipe_refines_fifo l p : pipe_ok p -> pop_rel (run_pops l p) (spec_pops l (content p)).
Proof.
  revert p. induction l as [|o l IH]; intros p Hp; simpl; [done|].
  pose proof (run_pop_ok o p Hp) as Ho.
  destruct (run_pop o p) as [[r p']|], (spec_pop o (content p)) as [[r' q']|]; simpl in *; try done.
  destruct Ho as (-> & Hp' & <-). specialize (IH p' Hp').
  destruct (run_pops l p') as [[rs p'']|], (spec_pops l (content p')) as [[rs' q'']|]; simpl in *; try done.
  by destruct IH as (-> & ? & <-).
Qed.

(** A pipe about to wrap around. *)
Definition pipe_wrap : pipe := Pipe (replicate 512 7) 4294967295 4294967295 1 1.

Lemma pipe_refines_fifo_witness :
  pop_rel (run_pops [PPut 1; PPut 2; PGet; PPut 3; PGet; PGet] pipe_wrap) (Some ([1; 2; 3], [])).
Proof. by apply (pipe_refines_fifo [PPut 1; PPut 2; PGet; PPut 3; PGet; PGet] pipe_wrap). Defined.

(** * pipewrite and piperead without waiting *)

Section Calls.
Context {E : Type} `{!PipeHeap E}.

(** The executing CPU holds no lock, ptable.lock and the pipe's lock are free,
    and the pipe [p] is at [pa]. *)
Record pipe_ready (k : kst E) (c : cpu) (lp l : spinlock) (pa : Z) (p : pipe) : Prop := {
  pr_lock : idle_at pa (mach k) c l;
  pr_ptable : idle_lock (mach k) c lp;
  pr_ncli : ncli c = 0;
  pr_ne : pa <> ptable_lock;
  pr_q : exists Q, qinv k Q;
  pr_prio : Forall (fun p => p_state p = SLEEPING -> 1 <= p_priority p <= 5) (ptable k);
  pr_pipe : pipes (ext k) !! pa = Some p;
  pr_ok : pipe_ok p
}.

(** The state with the pipe's lock taken and its contents replaced. *)
Definition in_pipe (k : kst E) (c : cpu) (l : spinlock) (pa : Z) (q : pipe) : kst E :=
  set_ext (set_pipes (<[pa := q]> (pipes (ext k))) (ext k)) (set_mach (locked_at pa (mach k) c l) k).

Lemma in_pipe_at k c l pa q : pipe_at pa (in_pipe k c l pa q) = Ret q (in_pipe k c l pa q).
Proof. unfold pipe_at, bind, gets, get_opt. simpl. by rewrite pipes_set, lookup_insert_eq. Qed.

Lemma in_pipe_put k c l pa q q' : put_pipe pa q' (in_pipe k c l pa q) = Ret tt (in_pipe k c l pa q').
Proof.
  unfold put_pipe, modify. f_equal. kst_eq. by rewrite pipes_set, insert_insert_eq, set_pipes_set.
Qed.

Context (k : kst E) (c : cpu) (lp l : spinlock) (pa : Z) (p : pipe).
Hypothesis H : pipe_ready k c lp l pa p.

Lemma pipe_acquire : machM (acquire pa) k = Ret tt (in_pipe k c l pa p).
Proof.
  rewrite (machM_Ret _ _ _ _ (acquire_idle _ _ _ _ (pr_lock _ _ _ _ _ _ H))). f_equal.
  kst_eq. by rewrite insert_id, set_pipes_id by apply H.
Qed.

(** The wakeup and the release at the end. *)
Lemma pipe_leave {A} custom chan q (r : A) :
  exists k', (wakeup custom chan ;; machM (release pa) ;; ret r) (in_pipe k c l pa q) = Ret r k'
    /\ pipes (ext k') = <[pa := q]> (pipes (ext k)) /\ ptable k' = map (woken chan) (ptable k)
    /\ mach k' = unlocked_mach (mach k) c.
Proof.
  pose proof (pr_lock _ _ _ _ _ _ H) as Hi. pose proof (pr_ptable _ _ _ _ _ _ H) as Hip.
  destruct (wakeup_ok custom chan (in_pipe k c l pa q) (pushed c) lp) as (k2 & Hrun & Hto & Ht & _).
  - pose proof (pr_ncli _ _ _ _ _ _ H) as Hn. constructor; simpl; try apply Hip.
    + rewrite list_lookup_insert_eq; [done|]. eapply lookup_lt_Some, Hi.
    + rewrite Hn. done.
    + intros _. apply irq_on_pushed.
    + rewrite lookup_insert_ne by apply H. apply Hip.
  - simpl. rewrite (pr_ncli _ _ _ _ _ _ H). done.
  - apply irq_on_pushed.
  - destruct (pr_q _ _ _ _ _ _ H) as [Q Hq]. exists Q. by eapply qinv_frame; [..|exact Hq].
  - apply H.
  - step Hrun. destruct Hto as (t & qs & ms & o & ->).
    erewrite bind_Ret; [|apply machM_Ret; apply (release_idle _ _ _ _ Hi)].
    eexists. split; [done|]. simpl. by rewrite pipes_set.
Qed.

(** A byte that fits is written without waiting. *)
Lemma pipewrite_body_ok custom fuel addr i q :
  pipe_ok q -> used q < PIPESIZE ->
  exists q', pipewrite_body custom (S fuel) pa addr i (in_pipe k c l pa q) = Ret None (in_pipe k c l pa q')
    /\ pipe_ok q' /\ content q' = content q ++ [addr i].
Proof.
  intros Hq Hroom. destruct (pipe_put_ok q (addr i) Hq Hroom) as (q' & Hput & Hq' & Hc & _). exists q'.
  split; [|done]. unfold pipewrite_body. erewrite bind_Ret.
  2:{ cbn [pipe_room]. step (in_pipe_at k c l pa q). rewrite pipe_full_iff by done.
      destruct (Z.eqb_spec (used q) PIPESIZE); [lia|]. reflexivity. }
  cbn [negb]. step (in_pipe_at k c l pa q). rewrite Hput. pure_step. by step (in_pipe_put k c l pa q q').
Qed.

(** Pipewrite of [n] bytes into a pipe with room for them returns [n] and
    appends them in order; readers waiting for data are made RUNNABLE, and the
    pipe's lock is free again. *)
Theorem pipewrite_appends custom fuel addr n :
  0 <= n -> used p + n <= PIPESIZE ->
  exists k' p', pipewrite custom (S fuel) pa addr n k = Ret n k'
    /\ pipes (ext k') = <[pa := p']> (pipes (ext k)) /\ pipe_ok p'
    /\ content p' = content p ++ map addr (seqZ 0 n)
    /\ ptable k' = map (woken (nread_chan pa)) (ptable k) /\ mach k' = unlocked_mach (mach k) c.
Proof.
  intros Hn Hroom. unfold pipewrite. step pipe_acquire. unfold for_range.
  destruct (for_loop_inv (pipewrite_body custom (S fuel) pa addr)
    (fun i s => exists q, s = in_pipe k c l pa q /\ pipe_ok q /\ content q = content p ++ map addr (seqZ 0 i))
    (Z.to_nat (n - 0)) 0 (in_pipe k c l pa p)) as (s' & Hloop & q & -> & Hq & Hc).
  - exists p. split_and!; [done|apply H|]. by rewrite app_nil_r.
  - intros j s Hj (q & -> & Hq & Hc). destruct (pipewrite_body_ok custom fuel addr j q Hq) as (q' & Hrun & Hq' & Hc').
    + pose proof (length_content q) as Hl. pose proof (length_content p) as Hlp.
      rewrite Hc, length_app, length_map, length_seqZ, Hlp in Hl.
      pose proof (used_range p). pose proof (used_range q). lia.
    + exists (in_pipe k c l pa q'). split; [done|]. exists q'. split_and!; try done.
      rewrite Hc', Hc. rewrite seqZ_app, map_app, app_assoc by lia. done.
  - step Hloop. destruct (pipe_leave custom (nread_chan pa) q n) as (k' & Hrun & Hp & Ht & Hm).
    exists k', q. split_and!; try done. rewrite Hc. do 3 f_equal. lia.
Qed.

Lemma piperead_loop m : forall i acc q,
  pipe_ok q ->
  exists r q', for_acc m i acc (piperead_body pa) (in_pipe k c l pa q) = Ret r (in_pipe k c l pa q')
    /\ (match r with inl b => b | inr b => b end) = acc ++ take m (content q)
    /\ content q' = drop m (content q) /\ pipe_ok q'.
Proof.
  induction m as [|m IH]; intros i acc q Hq.
  - exists (inr acc), q. split_and!; [done|by rewrite app_nil_r|done|done].
  - cbn [for_acc]. unfold piperead_body at 1. pose proof (length_content q) as Hl. pose proof (used_range q).
    destruct (Z.eqb_spec (used q) 0) as [He|He].
    + exists (inl acc), q. rewrite He in Hl. destruct (content q) as [|? ?]; [|done]. split_and!; try done; [|by rewrite app_nil_r].
      erewrite bind_Ret; [|step (in_pipe_at k c l pa q); rewrite pipe_empty_iff, He by done; reflexivity]. done.
    + destruct (pipe_get_ok q Hq) as (b & q' & Hget & Hq' & Hc & _); [lia|].
      destruct (IH (i + 1) (acc ++ [b]) q' Hq') as (r & q'' & Hrun & Hr & Hc' & Hq'').
      exists r, q''. rewrite Hc. simpl. split_and!; try done; [|by rewrite Hr, <- app_assoc].
      rewrite (bind_Ret _ _ _ (inr (acc ++ [b])) (in_pipe k c l pa q')); [exact Hrun|].
      step (in_pipe_at k c l pa q). rewrite pipe_empty_iff by done.
      destruct (Z.eqb_spec (used q) 0); [done|]. rewrite Hget. pure_step. simpl. by step (in_pipe_put k c l pa q q').
Qed.

(** Piperead from a pipe that holds data, or whose writers are gone, returns
    without waiting: the oldest bytes, at most [n], which leave the pipe; 0
    bytes at the end of the stream; writers waiting for room are made
    RUNNABLE, and the pipe's lock is free again. *)
Theorem piperead_takes_oldest custom fuel n :
  0 <= n -> content p <> [] \/ writeopen p = 0 ->
  exists k' p' bytes, piperead custom (S fuel) pa n k = Ret (Z.of_nat (length bytes), bytes) k'
    /\ bytes = take (Z.to_nat n) (content p)
    /\ pipes (ext k') = <[pa := p']> (pipes (ext k)) /\ pipe_ok p'
    /\ content p' = drop (Z.to_nat n) (content p)
    /\ ptable k' = map (woken (nwrite_chan pa)) (ptable k) /\ mach k' = unlocked_mach (mach k) c.
Proof.
  intros Hn Hsome. unfold piperead. step pipe_acquire. pose proof (pr_ok _ _ _ _ _ _ H) as Hp.
  rewrite (bind_Ret (pipe_some (S fuel) pa) _ _ true (in_pipe k c l pa p)).
  2:{ cbn [pipe_some]. step (in_pipe_at k c l pa p). rewrite pipe_empty_iff by done.
      destruct (Z.eqb_spec (used p) 0) as [He|]; [|done]. destruct Hsome as [Hne| ->]; [|done].
      destruct Hne. apply length_zero_iff_nil. by rewrite length_content, He. }
  cbn [negb]. destruct (piperead_loop (Z.to_nat n) 0 [] p Hp) as (r & q' & Hrun & Hr & Hc & Hq'). step Hrun.
  simpl in Hr. rewrite Hr.
  destruct (pipe_leave custom (nwrite_chan pa) q' (Z.of_nat (length (take (Z.to_nat n) (content p))), take (Z.to_nat n) (content p)))
    as (k' & Hrun' & Hp' & Ht & Hm).
  exists k', q', (take (Z.to_nat n) (content p)). split; [exact Hrun'|]. by split_and!.
Qed.
End Calls.

(** * Examples *)

#[export] Program Instance pipe_map : PipeHeap (gmap Z pipe) := {| pipes := fun e => e; set_pipes := fun h _ => h |}.
Next Obligation. done. Qed.
Next Obligation. done. Qed.
Next Obligation. done. Qed.

Definition pa1 : Z := 0x8dffe000.

(** The shell, with the wrapping pipe in use. *)
Definition kst_pipe (p : pipe) : kst (gmap Z pipe) :=
  Kst (Machine [cpu1] 0 {[ptable_lock := lock1; pa1 := Spinlock 0 "pipe" None]}) (ptable kst1)
    (priority_q kst1) (marker kst1) (Some 0%nat) 4 ∅ ∅ ∅ false 0 [] {[pa1 := p]}.

Lemma pipe_ready1 p : pipe_ok p -> pipe_ready (kst_pipe p) cpu1 lock1 (Spinlock 0 "pipe" None) pa1 p.
Proof.
  intros Hp. constructor; try done.
  - exists Q1. by eapply qinv_frame; [..|apply qinv1].
  - apply Forall_lookup_2. intros i x [->|[->|[->| ->]]]%kst1_procs; done.
Qed.

Lemma pipewrite_appends_witness :
  exists k' p', pipewrite true 1 pa1 (fun i => i + 65) 3 (kst_pipe pipe_wrap) = Ret 3 k'
    /\ pipes (ext k') = <[pa1 := p']> (pipes (ext (kst_pipe pipe_wrap))) /\ pipe_ok p'
    /\ content p' = [65; 66; 67]
    /\ ptable k' = map (woken (nread_chan pa1)) (ptable kst1)
    /\ mach k' = unlocked_mach (mach (kst_pipe pipe_wrap)) cpu1.
Proof.
  by apply (pipewrite_appends (kst_pipe pipe_wrap) cpu1 lock1 (Spinlock 0 "pipe" None) pa1 pipe_wrap
    (pipe_ready1 pipe_wrap ltac:(done)) true 0 (fun i => i + 65) 3).
Defined.

Lemma piperead_takes_oldest_witness :
  exists k' p' bytes, piperead true 1 pa1 2 (kst_pipe (Pipe (replicate 512 9) 510 513 1 1)) = Ret (Z.of_nat (length bytes), bytes) k'
    /\ bytes = [9; 9]
    /\ pipes (ext k') = <[pa1 := p']> (pipes (ext (kst_pipe (Pipe (replicate 512 9) 510 513 1 1)))) /\ pipe_ok p'
    /\ content p' = [9]
    /\ ptable k' = map (woken (nwrite_chan pa1)) (ptable kst1)
    /\ mach k' = unlocked_mach (mach (kst_pipe pipe_wrap)) cpu1.
Proof.
  apply (piperead_takes_oldest (kst_pipe (Pipe (replicate 512 9) 510 513 1 1)) cpu1 lock1 (Spinlock 0 "pipe" None) pa1
    (Pipe (replicate 512 9) 510 513 1 1) (pipe_ready1 (Pipe (replicate 512 9) 510 513 1 1) ltac:(done)) true 0 2); [done|by left].
Defined.
