(* ===== verification/Bytes.v ===== *)
(** Integers in memory: the little endian layout that makes a block of bytes
    a superblock, a log header, an array of inodes or of directory entries
    when the code casts a pointer into it. *)
From S2P Require Import Prelude.

(** The [k] bytes of [d] from offset [o] on as one unsigned integer. *)
Fixpoint le_get (k : nat) (d : list Z) (o : nat) : option Z :=
  match k with
  | O => Some 0
  | S k' => b ← d !! o; r ← le_get k' d (S o); Some (b + 256 * r)
  end.

(** [v] stored in [k] bytes from offset [o] on. *)
Fixpoint le_put (k : nat) (d : list Z) (o : nat) (v : Z) : list Z :=
  match k with
  | O => d
  | S k' => le_put k' (<[o := v mod 256]> d) (S o) (v / 256)
  end.

Lemma length_le_put k : forall d o v, length (le_put k d o v) = length d.
Proof. induction k as [|k IH]; intros d o v; [done|]. simpl. by rewrite IH, length_insert. Qed.

(** Bytes outside the stored range are unchanged. *)
Lemma le_put_other k : forall d o v j, (j < o \/ o + k <= j)%nat -> le_put k d o v !! j = d !! j.
Proof.
  induction k as [|k IH]; intros d o v j Hj; [done|]. simpl. rewrite IH by lia.
  apply list_lookup_insert_ne. lia.
Qed.

Lemma le_get_ext k : forall d d' o,
  (forall j, (o <= j < o + k)%nat -> d' !! j = d !! j) -> le_get k d' o = le_get k d o.
Proof.
  induction k as [|k IH]; intros d d' o H; [done|]. simpl. rewrite (H o) by lia.
  rewrite (IH d d' (S o)); [done|]. intros j Hj. apply H. lia.
Qed.

(** A value is read where it was stored, modulo its width. *)
Lemma le_get_put k : forall d o v,
  (o + k <= length d)%nat -> le_get k (le_put k d o v) o = Some (v mod 256 ^ Z.of_nat k).
Proof.
  induction k as [|k IH]; intros d o v Hl.
  - simpl. by rewrite Z.mod_1_r.
  - simpl. rewrite le_put_other by lia. rewrite list_lookup_insert_eq by lia. simpl.
    rewrite IH by (rewrite length_insert; lia). simpl. f_equal.
    replace (Z.of_nat (S k)) with (1 + Z.of_nat k) by lia. rewrite Z.pow_add_r by lia.
    change (256 ^ 1) with 256. rewrite Z.rem_mul_r by (try apply Z.pow_pos_nonneg; lia). lia.
Qed.

(** Stores elsewhere do not change what is read. *)
Lemma le_get_put_ne k k' d o o' v :
  (o + k <= o' \/ o' + k' <= o)%nat -> le_get k (le_put k' d o' v) o = le_get k d o.
Proof. intros H. apply le_get_ext. intros j Hj. apply le_put_other. lia. Qed.

Lemma le_get_Some k : forall d o, (o + k <= length d)%nat -> exists v, le_get k d o = Some v.
Proof.
  induction k as [|k IH]; intros d o H; [by exists 0|]. simpl.
  destruct (lookup_lt_is_Some_2 d o) as [b ->]; [lia|].
  destruct (IH d (S o)) as [r ->]; [lia|]. simpl. eauto.
Qed.

(** The types of the fields: [uint], [int], [ushort] and [short]. *)
Definition s16 (z : Z) : Z := let u := z mod 65536 in if u <? 32768 then u else u - 65536.
Definition u16 (z : Z) : Z := z mod 65536.

Definition get_uint (d : list Z) (o : nat) : option Z := le_get 4 d o.
Definition get_int (d : list Z) (o : nat) : option Z := s32 <$> le_get 4 d o.
Definition get_ushort (d : list Z) (o : nat) : option Z := le_get 2 d o.
Definition get_short (d : list Z) (o : nat) : option Z := s16 <$> le_get 2 d o.

(** A store past the end is not defined. *)
Definition put_bytes (k : nat) (d : list Z) (o : nat) (v : Z) : option (list Z) :=
  if (o + k <=? length d)%nat then Some (le_put k d o v) else None.
Definition put_int := put_bytes 4.
Definition put_short := put_bytes 2.

Lemma put_bytes_ok k d o v : (o + k <= length d)%nat -> put_bytes k d o v = Some (le_put k d o v).
Proof. intros H. unfold put_bytes. by rewrite (proj2 (Nat.leb_le _ _) H). Qed.

Lemma get_int_put d o v :
  (o + 4 <= length d)%nat -> INT_MIN <= v <= INT_MAX -> get_int (le_put 4 d o v) o = Some v.
Proof.
  intros Hl Hv. unfold get_int. rewrite le_get_put by done. simpl. f_equal.
  transitivity (s32 v); [|by apply s32_id]. unfold s32, u32. by rewrite Zmod_mod.
Qed.

Lemma get_uint_put d o v :
  (o + 4 <= length d)%nat -> 0 <= v < 4294967296 -> get_uint (le_put 4 d o v) o = Some v.
Proof. intros Hl Hv. unfold get_uint. rewrite le_get_put by done. f_equal. by apply Z.mod_small. Qed.

#[global] Arguments le_get : simpl never.
#[global] Arguments le_put : simpl never.
