(* ===== verification/Bio.v ===== *)
(** The buffer cache (src/xv6-public/bio.c) over the disk in memory of
    memide.c, with the sleep locks of sleeplock.c that buffers carry.

    The doubly linked list through the buffers is a list of buffer indices,
    most recently used first.  In this layer and those above it a call runs
    alone: the spin locks, which only keep other processors out, are left to
    [Spinlock], and waiting for a sleep lock that is held has no end.  The
    disk remembers the writes it received, which is what a crash is about. *)
From S2P Require Import Prelude.

Definition BSIZE : Z := 512.
Definition NBUF : Z := 30.
Definition B_VALID : Z := 0x2.
Definition B_DIRTY : Z := 0x4.

Notation block := (list Z).

Record sleeplock := Sleeplock { sl_locked : Z; sl_pid : Z }.

Record buf := Buf {
  b_flags : Z;
  b_dev : Z;
  b_blockno : Z;
  b_lock : sleeplock;
  b_refcnt : Z;
  b_data : block
}.
Definition set_b_flags v b := Buf v (b_dev b) (b_blockno b) (b_lock b) (b_refcnt b) (b_data b).
Definition set_b_dev v b := Buf (b_flags b) v (b_blockno b) (b_lock b) (b_refcnt b) (b_data b).
Definition set_b_blockno v b := Buf (b_flags b) (b_dev b) v (b_lock b) (b_refcnt b) (b_data b).
Definition set_b_lock v b := Buf (b_flags b) (b_dev b) (b_blockno b) v (b_refcnt b) (b_data b).
Definition set_b_refcnt v b := Buf (b_flags b) (b_dev b) (b_blockno b) (b_lock b) v (b_data b).
Definition set_b_data v b := Buf (b_flags b) (b_dev b) (b_blockno b) (b_lock b) (b_refcnt b) v.

(** Buffers, their order of use, the disk and its history, and the pid of the
    calling process. *)
Record bio := Bio {
  bufs : list buf;
  lru : list nat;
  disk : list block;
  history : list (Z * block);
  mypid : Z
}.
Definition set_bufs v s := Bio v (lru s) (disk s) (history s) (mypid s).
Definition set_lru v s := Bio (bufs s) v (disk s) (history s) (mypid s).
Definition set_disk v h s := Bio (bufs s) (lru s) v h (mypid s).

Notation B := (M bio).

Definition buf_at (i : nat) : B buf := l <- gets bufs ;; get_opt "buf" (l !! i).
Definition upd_buf (i : nat) (f : buf -> buf) : B unit :=
  b <- buf_at i ;; modify (fun s => set_bufs (<[i := f b]> (bufs s)) s).

(** * sleeplock.c *)

(** A sleep lock somewhere in a state, with the pid of the caller. *)
Record slref (S : Type) := Slref {
  sl_get : M S sleeplock;
  sl_put : sleeplock -> M S unit;
  sl_me : M S Z
}.
Arguments Slref {S}.
Arguments sl_get {S}.
Arguments sl_put {S}.
Arguments sl_me {S}.

Definition initsleeplock : sleeplock := Sleeplock 0 0.

Definition acquiresleep {S} (lk : slref S) : M S unit :=
  l <- sl_get lk ;;
  if negb (sl_locked l =? 0) then (fun s => Spin s) else
  pid <- sl_me lk ;;
  sl_put lk (Sleeplock 1 pid).

Definition releasesleep {S} (lk : slref S) : M S unit := sl_put lk (Sleeplock 0 0).

Definition holdingsleep {S} (lk : slref S) : M S bool :=
  l <- sl_get lk ;; ret (negb (sl_locked l =? 0)).

Definition buf_lock (i : nat) : slref bio :=
  Slref (b <- buf_at i ;; ret (b_lock b)) (fun l => upd_buf i (set_b_lock l)) (gets mypid).

(** * memide.c *)

Definition disk_at (n : Z) : B block := d <- gets disk ;; get_opt "disk" (arr_get d n).
Definition disk_put (n : Z) (d : block) : B unit :=
  l <- gets disk ;;
  l' <- get_opt "disk" (arr_set l n d) ;;
  modify (fun s => set_disk l' (history s ++ [(n, d)]) s).

Definition iderw (i : nat) : B unit :=
  h <- holdingsleep (buf_lock i) ;;
  if negb h then panic "iderw: buf not locked" else
  b <- buf_at i ;;
  if Z.land (b_flags b) (Z.lor B_VALID B_DIRTY) =? B_VALID then panic "iderw: nothing to do" else
  if negb (b_dev b =? 1) then panic "iderw: request not for disk 1" else
  disksize <- gets (fun s => Z.of_nat (length (disk s))) ;;
  if b_blockno b >=? disksize then panic "iderw: block out of range" else
  (if negb (Z.land (b_flags b) B_DIRTY =? 0) then
     upd_buf i (set_b_flags (Z.land (b_flags b) (Z.lnot B_DIRTY))) ;;
     disk_put (b_blockno b) (b_data b)
   else
     d <- disk_at (b_blockno b) ;; upd_buf i (set_b_data d)) ;;
  upd_buf i (fun b => set_b_flags (Z.lor (b_flags b) B_VALID) b).

(** * bio.c *)

(** The list after the loop of binit: each buffer is put in front. *)
Definition binit : B unit :=
  modify (fun s => set_lru (reverse (seq 0 (Z.to_nat NBUF)))
    (set_bufs (map (set_b_lock initsleeplock) (bufs s)) s)).

(** First buffer of a list that passes a test. *)
Fixpoint find_buf (f : buf -> bool) (l : list nat) : B (option nat) :=
  match l with
  | [] => ret None
  | i :: l' => b <- buf_at i ;; if f b then ret (Some i) else find_buf f l'
  end.

Definition bget (dev blockno : Z) : B nat :=
  l <- gets lru ;;
  r <- find_buf (fun b => (b_dev b =? dev) && (b_blockno b =? blockno)) l ;;
  match r with
  | Some i =>
      upd_buf i (fun b => set_b_refcnt (u32 (b_refcnt b + 1)) b) ;;
      acquiresleep (buf_lock i) ;;
      ret i
  | None =>
      r <- find_buf (fun b => (b_refcnt b =? 0) && (Z.land (b_flags b) B_DIRTY =? 0)) (reverse l) ;;
      match r with
      | Some i =>
          upd_buf i (set_b_dev dev) ;;
          upd_buf i (set_b_blockno blockno) ;;
          upd_buf i (set_b_flags 0) ;;
          upd_buf i (set_b_refcnt 1) ;;
          acquiresleep (buf_lock i) ;;
          ret i
      | None => panic "bget: no buffers"
      end
  end.

Definition bread (dev blockno : Z) : B nat :=
  i <- bget dev blockno ;;
  b <- buf_at i ;;
  (if Z.land (b_flags b) B_VALID =? 0 then iderw i else ret tt) ;;
  ret i.

Definition bwrite (i : nat) : B unit :=
  h <- holdingsleep (buf_lock i) ;;
  if negb h then panic "bwrite" else
  upd_buf i (fun b => set_b_flags (Z.lor (b_flags b) B_DIRTY) b) ;;
  iderw i.

Definition brelse (i : nat) : B unit :=
  h <- holdingsleep (buf_lock i) ;;
  if negb h then panic "brelse" else
  releasesleep (buf_lock i) ;;
  upd_buf i (fun b => set_b_refcnt (u32 (b_refcnt b - 1)) b) ;;
  b <- buf_at i ;;
  if b_refcnt b =? 0 then
    modify (fun s => set_lru (i :: filter (fun j => j <> i) (lru s)) s)
  else ret tt.
