(* ===== verification/BioSpec.v ===== *)
(** What the buffer cache promises to the layers above it.

    The abstract disk has, besides the blocks on the device, the blocks as a
    reader sees them, the blocks that are held (with the buffer they are in)
    and the blocks that are pinned in the cache until the log has written
    them.  [brep] relates a cache to an abstract disk; each operation of bio.c
    is a step of the abstract disk. *)
From S2P Require Import Prelude Bio.

Record vdisk := VDisk {
  v_disk : list block;
  v_view : list block;
  v_held : gmap Z nat;
  v_pinned : gset Z;
  v_hist : list (Z * block)
}.

Definition v_hold (n : Z) (i : nat) (v : vdisk) : vdisk :=
  VDisk (v_disk v) (v_view v) (<[n := i]> (v_held v)) (v_pinned v) (v_hist v).
Definition v_drop (n : Z) (v : vdisk) : vdisk :=
  VDisk (v_disk v) (v_view v) (delete n (v_held v)) (v_pinned v) (v_hist v).
Definition v_set (n : Z) (d : block) (v : vdisk) : vdisk :=
  VDisk (v_disk v) (<[Z.to_nat n := d]> (v_view v)) (v_held v) (v_pinned v) (v_hist v).
Definition v_pin (n : Z) (v : vdisk) : vdisk :=
  VDisk (v_disk v) (v_view v) (v_held v) ({[n]} ∪ v_pinned v) (v_hist v).
Definition v_write (n : Z) (d : block) (v : vdisk) : vdisk :=
  VDisk (<[Z.to_nat n := d]> (v_disk v)) (v_view v) (v_held v) (v_pinned v ∖ {[n]}) (v_hist v ++ [(n, d)]).

(** One buffer against the abstract disk. *)
Record buf_ok (v : vdisk) (i : nat) (b : buf) : Prop := BufOk {
  bo_flags : b_flags b = 0 \/ b_flags b = 2 \/ b_flags b = 6;
  bo_lock : (b_refcnt b = 0 /\ sl_locked (b_lock b) = 0) \/
            (b_refcnt b = 1 /\ sl_locked (b_lock b) = 1 /\ b_flags b <> 0);
  bo_dev : b_dev b <> 1 -> b_flags b = 0 /\ b_refcnt b = 0;
  bo_held : b_dev b = 1 -> (b_refcnt b = 1 <-> v_held v !! b_blockno b = Some i);
  bo_pinned : b_dev b = 1 -> (b_flags b = 6 <-> b_blockno b ∈ v_pinned v);
  bo_data : b_dev b = 1 -> b_flags b <> 0 -> arr_get (v_view v) (b_blockno b) = Some (b_data b)
}.

(** Buffer [i] of [s] is for block [n] of the disk. *)
Definition caches (s : bio) (i : nat) (n : Z) : Prop :=
  exists b, bufs s !! i = Some b /\ b_dev b = 1 /\ b_blockno b = n.

Record brep (s : bio) (v : vdisk) : Prop := Brep {
  br_disk : disk s = v_disk v;
  br_hist : history s = v_hist v;
  br_len : length (v_view v) = length (v_disk v);
  br_nbuf : length (bufs s) = Z.to_nat NBUF;
  br_lru : lru s ≡ₚ seq 0 (length (bufs s));
  br_bufs : forall i b, bufs s !! i = Some b -> buf_ok v i b;
  br_uniq : forall i j n, caches s i n -> caches s j n -> i = j;
  br_held : forall n i, v_held v !! n = Some i -> caches s i n;
  br_pinned : forall n, n ∈ v_pinned v -> exists i, caches s i n;
  br_clean : forall n, v_held v !! n = None -> n ∉ v_pinned v ->
    arr_get (v_view v) n = arr_get (v_disk v) n
}.

(** The abstract disks differ at block [n] only. *)
Record vagree (n : Z) (v v' : vdisk) : Prop := Vagree {
  va_view : forall m, m <> n -> arr_get (v_view v') m = arr_get (v_view v) m;
  va_disk : forall m, m <> n -> arr_get (v_disk v') m = arr_get (v_disk v) m;
  va_held : forall m, m <> n -> v_held v' !! m = v_held v !! m;
  va_pinned : forall m, m <> n -> (m ∈ v_pinned v' <-> m ∈ v_pinned v);
  va_len : length (v_view v') = length (v_disk v')
}.

Lemma buf_ok_agree n v v' i b :
  vagree n v v' -> b_blockno b <> n \/ b_dev b <> 1 -> buf_ok v i b -> buf_ok v' i b.
Proof.
  intros [Hv Hd Hh Hp Hl] Hn [? ? ? H1 H2 H3]. split; try done.
  - intros Hdev. rewrite Hh by naive_solver. auto.
  - intros Hdev. rewrite Hp by naive_solver. auto.
  - intros Hdev. rewrite Hv by naive_solver. auto.
Qed.

(** One buffer changes, and block [n], which it is for now, changes. *)
Lemma brep_change s s' v v' i b b' n :
  brep s v -> bufs s !! i = Some b ->
  bufs s' = <[i := b']> (bufs s) -> lru s' ≡ₚ lru s ->
  disk s' = v_disk v' -> history s' = v_hist v' ->
  b_dev b' = 1 -> b_blockno b' = n -> vagree n v v' ->
  (b_dev b = 1 /\ b_blockno b = n) \/
    (b_refcnt b = 0 /\ b_flags b <> 6 /\ (forall j, ~ caches s j n)) ->
  buf_ok v' i b' ->
  (v_held v' !! n = None -> n ∉ v_pinned v' -> arr_get (v_view v') n = arr_get (v_disk v') n) ->
  (forall j, v_held v' !! n = Some j -> j = i) ->
  brep s' v'.
Proof.
  intros R Hb Hbufs Hlru Hdisk Hhist Hdev Hno Ha Hcase Hok Hclean Hheld.
  pose proof (br_bufs _ _ R i b Hb) as Hbok.
  assert (forall j m, j <> i -> caches s' j m <-> caches s j m) as Hother.
  { intros j m Hj. unfold caches. rewrite Hbufs. by rewrite list_lookup_insert_ne by done. }
  assert (caches s' i n) as Hi.
  { exists b'. rewrite Hbufs. split; [|done]. apply list_lookup_insert_eq. by eapply lookup_lt_Some. }
  assert (forall m, caches s' i m -> m = n) as Hin.
  { intros m (b2 & H1 & _ & <-). destruct Hi as (b1 & H2 & _ & <-). by simplify_eq. }
  assert (forall j, j <> i -> ~ caches s j n) as Hnone.
  { intros j Hj Hc. destruct Hcase as [[H1 H2]|(_ & _ & H)]; [|by eapply H].
    apply Hj. eapply (br_uniq _ _ R); [done|]. by exists b. }
  assert (forall m, m <> n -> caches s i m -> b_refcnt b = 0 /\ b_flags b <> 6) as Hold.
  { intros m Hm (b2 & H1 & H2 & H3). simplify_eq. destruct Hcase as [[? ?]|(? & ? & ?)]; done. }
  split.
  - done.
  - done.
  - apply Ha.
  - rewrite Hbufs, length_insert. apply R.
  - rewrite Hlru, Hbufs, length_insert. apply R.
  - intros j bj. rewrite Hbufs. intros [(<- & <- & ?)|[Hj Hbj]]%list_lookup_insert_Some; [done|].
    eapply buf_ok_agree; [done| |by apply (br_bufs _ _ R)].
    destruct (decide (b_blockno bj = n)) as [E|]; [|by left].
    destruct (decide (b_dev bj = 1)); [|by right]. edestruct (Hnone j); [done|]. by exists bj.
  - intros j k m Hj Hk. destruct (decide (j = i)) as [->|Hji], (decide (k = i)) as [->|Hki]; [done| | |].
    + apply Hin in Hj as ->. edestruct Hnone; [done|]. by apply Hother.
    + apply Hin in Hk as ->. edestruct Hnone; [done|]. by apply Hother.
    + eapply (br_uniq _ _ R); by apply Hother.
  - intros m j Hm. destruct (decide (m = n)) as [->|Hmn]; [by rewrite (Hheld _ Hm)|].
    rewrite (va_held _ _ _ Ha) in Hm by done. pose proof (br_held _ _ R _ _ Hm) as Hc.
    destruct (decide (j = i)) as [->|]; [|by apply Hother].
    destruct (Hold m Hmn Hc) as [H0 _], Hc as (b2 & H1 & H2 & H3). simplify_eq.
    apply (bo_held _ _ _ Hbok) in Hm; [|done]. lia.
  - intros m Hm. destruct (decide (m = n)) as [->|Hmn]; [by exists i|].
    apply (va_pinned _ _ _ Ha) in Hm; [|done]. destruct (br_pinned _ _ R _ Hm) as [j Hc].
    destruct (decide (j = i)) as [->|]; [|exists j; by apply Hother].
    destruct (Hold m Hmn Hc) as [_ H0], Hc as (b2 & H1 & H2 & H3). simplify_eq.
    by apply (bo_pinned _ _ _ Hbok) in Hm.
  - intros m Hm Hp. destruct (decide (m = n)) as [->|Hmn]; [by apply Hclean|].
    rewrite (va_view _ _ _ Ha), (va_disk _ _ _ Ha) by done. apply (br_clean _ _ R).
    + by rewrite <- (va_held _ _ _ Ha).
    + by rewrite <- (va_pinned _ _ _ Ha).
Qed.

(** * Computing with one buffer *)

(** [s] with [b] in buffer [i]. *)
Definition put_buf (i : nat) (b : buf) (s : bio) : bio := set_bufs (<[i := b]> (bufs s)) s.

Lemma put_put i b b' s : put_buf i b' (put_buf i b s) = put_buf i b' s.
Proof. unfold put_buf, set_bufs. simpl. by rewrite list_insert_insert_eq. Qed.

Lemma put_same i b s : bufs s !! i = Some b -> put_buf i b s = s.
Proof. intros H. unfold put_buf, set_bufs. rewrite list_insert_id by done. by destruct s. Qed.

Lemma bufs_put i b s : (i < length (bufs s))%nat -> bufs (put_buf i b s) !! i = Some b.
Proof. intros H. by apply list_lookup_insert_eq. Qed.

Lemma buf_at_eq s i b : bufs s !! i = Some b -> buf_at i s = Ret b s.
Proof. intros H. unfold buf_at. munfold. simpl. by rewrite H. Qed.

Lemma upd_buf_eq s i b f : bufs s !! i = Some b -> upd_buf i f s = Ret tt (put_buf i (f b) s).
Proof. intros H. unfold upd_buf. by rewrite (bind_Ret _ _ _ _ _ (buf_at_eq _ _ _ H)). Qed.

Lemma buf_at_put s i b : (i < length (bufs s))%nat -> buf_at i (put_buf i b s) = Ret b (put_buf i b s).
Proof. intros H. by apply buf_at_eq, bufs_put. Qed.

Lemma upd_buf_put s i b f :
  (i < length (bufs s))%nat -> upd_buf i f (put_buf i b s) = Ret tt (put_buf i (f b) s).
Proof. intros H. rewrite (upd_buf_eq _ _ b) by by apply bufs_put. by rewrite put_put. Qed.

Lemma holdingsleep_put s i b :
  (i < length (bufs s))%nat ->
  holdingsleep (buf_lock i) (put_buf i b s) = Ret (negb (sl_locked (b_lock b) =? 0)) (put_buf i b s).
Proof. intros H. unfold holdingsleep, buf_lock. simpl. munfold. by rewrite buf_at_put. Qed.

Lemma acquiresleep_put s i b :
  (i < length (bufs s))%nat -> sl_locked (b_lock b) = 0 ->
  acquiresleep (buf_lock i) (put_buf i b s) = Ret tt (put_buf i (set_b_lock (Sleeplock 1 (mypid s)) b) s).
Proof.
  intros H Hl. unfold acquiresleep, buf_lock. simpl. munfold. rewrite buf_at_put by done.
  simpl. rewrite Hl. simpl. by rewrite upd_buf_put.
Qed.

Lemma find_buf_ok f s l :
  (forall i, i ∈ l -> (i < length (bufs s))%nat) ->
  exists r, find_buf f l s = Ret r s /\
    match r with
    | Some i => i ∈ l /\ exists b, bufs s !! i = Some b /\ f b = true
    | None => forall i b, i ∈ l -> bufs s !! i = Some b -> f b = false
    end.
Proof.
  induction l as [|i l IH]; intros Hl.
  - exists None. split; [done|]. intros i b Hi. by apply elem_of_nil in Hi.
  - destruct (lookup_lt_is_Some_2 (bufs s) i) as [b Hb]; [apply Hl; set_solver|].
    simpl. rewrite (bind_Ret _ _ _ _ _ (buf_at_eq _ _ _ Hb)). destruct (f b) eqn:Hf.
    + exists (Some i). split; [done|]. split; [set_solver|eauto].
    + destruct IH as (r & Hr & Hspec); [set_solver|]. exists r. split; [done|].
      destruct r as [j|].
      * destruct Hspec as [Hj Hb']. split; [set_solver|done].
      * intros j b' [->|Hj]%elem_of_cons Hb'; [by simplify_eq|eauto].
Qed.

(** iderw on a locked buffer of the disk: a read and a write. *)
Lemma iderw_read s i b d :
  (i < length (bufs s))%nat -> b_flags b = 0 -> sl_locked (b_lock b) = 1 -> b_dev b = 1 ->
  arr_get (disk s) (b_blockno b) = Some d ->
  iderw i (put_buf i b s) = Ret tt (put_buf i (set_b_flags 2 (set_b_data d b)) s).
Proof.
  intros Hi Hf Hl Hd Hget. unfold iderw. rewrite (bind_Ret _ _ _ _ _ (holdingsleep_put _ _ _ Hi)), Hl.
  simpl. rewrite (bind_Ret _ _ _ _ _ (buf_at_put _ _ _ Hi)), Hf, Hd. simpl.
  unfold gets at 1, bind at 1. simpl. pose proof (arr_get_bounds _ _ _ Hget) as Hb.
  destruct (Z.geb_spec (b_blockno b) (Z.of_nat (length (disk s)))); [lia|].
  rewrite (bind_Ret _ _ _ tt (put_buf i (set_b_data d b) s)).
  - rewrite upd_buf_put by done. simpl. by rewrite Hf.
  - unfold disk_at. munfold. simpl. rewrite Hget. simpl. by rewrite upd_buf_put.
Qed.

Lemma iderw_write s i b :
  (i < length (bufs s))%nat -> b_flags b = 6 -> sl_locked (b_lock b) = 1 -> b_dev b = 1 ->
  0 <= b_blockno b < Z.of_nat (length (disk s)) ->
  iderw i (put_buf i b s) = Ret tt
    (set_disk (<[Z.to_nat (b_blockno b) := b_data b]> (disk s)) (history s ++ [(b_blockno b, b_data b)])
      (put_buf i (set_b_flags 2 b) s)).
Proof.
  intros Hi Hf Hl Hd Hb. unfold iderw. rewrite (bind_Ret _ _ _ _ _ (holdingsleep_put _ _ _ Hi)), Hl.
  simpl. rewrite (bind_Ret _ _ _ _ _ (buf_at_put _ _ _ Hi)), Hf, Hd. simpl.
  unfold gets at 1, bind at 1. simpl.
  destruct (Z.geb_spec (b_blockno b) (Z.of_nat (length (disk s)))); [lia|].
  set (t := set_disk _ _ _).
  rewrite (bind_Ret _ _ _ tt t).
  - rewrite (upd_buf_eq _ _ (set_b_flags 2 b)) by by apply list_lookup_insert_eq.
    f_equal. rewrite put_same; [done|]. simpl. by apply list_lookup_insert_eq.
  - rewrite (bind_Ret _ _ _ _ _ (upd_buf_put _ _ _ _ Hi)). unfold disk_put. munfold. simpl.
    by rewrite arr_set_ok.
Qed.

(** * The operations *)

Lemma vagree_hold n i v : length (v_view v) = length (v_disk v) -> vagree n v (v_hold n i v).
Proof. intros H. split; try done. intros m Hm. simpl. by rewrite lookup_insert_ne. Qed.

Lemma vagree_drop n v : length (v_view v) = length (v_disk v) -> vagree n v (v_drop n v).
Proof. intros H. split; try done. intros m Hm. simpl. by rewrite lookup_delete_ne. Qed.

Lemma vagree_pin n v : length (v_view v) = length (v_disk v) -> vagree n v (v_pin n v).
Proof. intros H. split; try done. intros m Hm. set_solver. Qed.

Lemma vagree_set n d v :
  length (v_view v) = length (v_disk v) -> 0 <= n < Z.of_nat (length (v_disk v)) -> vagree n v (v_set n d v).
Proof.
  intros H Hn. split; try done.
  - intros m Hm. simpl. rewrite arr_get_set by lia. by rewrite decide_False.
  - simpl. by rewrite length_insert.
Qed.

Lemma vagree_write n d v :
  length (v_view v) = length (v_disk v) -> 0 <= n < Z.of_nat (length (v_disk v)) -> vagree n v (v_write n d v).
Proof.
  intros H Hn. split; try done.
  - intros m Hm. simpl. rewrite arr_get_set by lia. by rewrite decide_False.
  - intros m Hm. set_solver.
  - simpl. by rewrite length_insert.
Qed.

(** Buffer [i] is taken for block [n], or was already for it. *)
Lemma hold_ok s v i b b' n d :
  brep s v -> bufs s !! i = Some b -> v_held v !! n = None -> arr_get (v_view v) n = Some d ->
  (b_dev b = 1 /\ b_blockno b = n) \/
    (b_refcnt b = 0 /\ b_flags b <> 6 /\ (forall j, ~ caches s j n)) ->
  b_dev b' = 1 -> b_blockno b' = n -> b_refcnt b' = 1 -> sl_locked (b_lock b') = 1 -> b_data b' = d ->
  (b_flags b' = 2 /\ n ∉ v_pinned v) \/ (b_flags b' = 6 /\ n ∈ v_pinned v) ->
  brep (put_buf i b' s) (v_hold n i v).
Proof.
  intros R Hb Hh Hv Hcase Hd Hn Hr Hl Hdata Hf.
  eapply (brep_change s _ v _ i b b' n); try done; try by apply R.
  - apply vagree_hold. apply R.
  - split; simpl.
    + naive_solver.
    + right. repeat split; [done|done|]. naive_solver lia.
    + done.
    + intros _. rewrite Hn, lookup_insert_eq. naive_solver.
    + intros _. rewrite Hn. naive_solver lia.
    + intros _ _. by rewrite Hn, Hdata.
  - simpl. by rewrite lookup_insert_eq.
  - simpl. rewrite lookup_insert_eq. naive_solver.
Qed.

(** Enough buffers: some buffer is neither held nor pinned. *)
Definition room (v : vdisk) : Prop := (size (dom (v_held v) ∪ v_pinned v) < Z.to_nat NBUF)%nat.

Lemma room_free s v :
  brep s v -> room v ->
  exists i b, bufs s !! i = Some b /\ b_refcnt b = 0 /\ b_flags b <> 6.
Proof.
  intros R Hroom.
  destruct (decide (Exists (fun b => b_refcnt b = 0 /\ b_flags b <> 6) (bufs s))) as [He|Hne].
  - apply Exists_exists in He as (b & [i Hi]%list_elem_of_lookup & ?). eauto.
  - apply not_Exists_Forall in Hne; [|intros b; apply _]. exfalso.
    assert (forall i b, bufs s !! i = Some b -> b_dev b = 1 /\
      b_blockno b ∈ dom (v_held v) ∪ v_pinned v) as Hbusy.
    { intros i b Hb. pose proof (Forall_lookup_1 _ _ _ _ Hne Hb) as Hnb. simpl in Hnb.
      destruct (br_bufs _ _ R _ _ Hb) as [Hf Hl Hd Hhe Hp _].
      destruct (decide (b_dev b = 1)) as [Hd1|Hd1].
      - split; [done|]. destruct (decide (b_flags b = 6)) as [H6|H6].
        + apply elem_of_union_r, (Hp Hd1), H6.
        + apply elem_of_union_l, elem_of_dom. exists i. apply (Hhe Hd1). lia.
      - destruct (Hd Hd1). lia. }
    assert (NoDup (b_blockno <$> bufs s)) as Hnd.
    { apply NoDup_alt. intros i j n Hi Hj.
      apply list_lookup_fmap_Some in Hi as (bi & -> & Hi), Hj as (bj & Hn & Hj).
      eapply (br_uniq _ _ R); [exists bi|exists bj]; repeat split; try done; by eapply Hbusy. }
    assert (list_to_set (b_blockno <$> bufs s) ⊆ dom (v_held v) ∪ v_pinned v) as Hsub.
    { intros n Hn. apply elem_of_list_to_set, list_elem_of_fmap in Hn as (b & -> & [i Hi]%list_elem_of_lookup).
      by eapply Hbusy. }
    apply subseteq_size in Hsub. rewrite size_list_to_set, length_fmap, (br_nbuf _ _ R) in Hsub by done.
    unfold room in Hroom. lia.
Qed.

Lemma lru_bound s v i : brep s v -> i ∈ lru s -> (i < length (bufs s))%nat.
Proof. intros R. rewrite (br_lru _ _ R), elem_of_seq. lia. Qed.

Lemma lru_all s v i b : brep s v -> bufs s !! i = Some b -> i ∈ lru s.
Proof. intros R Hb. apply lookup_lt_Some in Hb. rewrite (br_lru _ _ R), elem_of_seq. lia. Qed.

(** What bget returns: a locked buffer for the block, perhaps not yet read. *)
Record got (s : bio) (v : vdisk) (n : Z) (i : nat) (b b1 : buf) : Prop := Got {
  got_buf : bufs s !! i = Some b;
  got_how : (b_dev b = 1 /\ b_blockno b = n) \/
    (b_refcnt b = 0 /\ b_flags b <> 6 /\ (forall j, ~ caches s j n));
  got_dev : b_dev b1 = 1;
  got_no : b_blockno b1 = n;
  got_ref : b_refcnt b1 = 1;
  got_lock : sl_locked (b_lock b1) = 1;
  got_flags : (b_flags b1 = 0 /\ n ∉ v_pinned v) \/
    (arr_get (v_view v) n = Some (b_data b1) /\
     ((b_flags b1 = 2 /\ n ∉ v_pinned v) \/ (b_flags b1 = 6 /\ n ∈ v_pinned v)))
}.

Lemma bget_ok s v n :
  brep s v -> v_held v !! n = None -> n ∈ v_pinned v \/ room v ->
  exists i b b1, bget 1 n s = Ret i (put_buf i b1 s) /\ got s v n i b b1.
Proof.
  intros R Hh Hroom. unfold bget. unfold gets at 1, bind at 1. simpl.
  edestruct (find_buf_ok (fun b => (b_dev b =? 1) && (b_blockno b =? n)) s (lru s)) as (r & Hr & Hspec).
  { intros i. by apply (lru_bound _ _ _ R). }
  rewrite (bind_Ret _ _ _ _ _ Hr). destruct r as [i|].
  - destruct Hspec as (_ & b & Hb & Hm). bool_props. pose proof (lookup_lt_Some _ _ _ Hb) as Hi.
    destruct (br_bufs _ _ R _ _ Hb) as [Hf Hl Hd Hhe Hp Hdata].
    assert (b_refcnt b = 0 /\ sl_locked (b_lock b) = 0) as [Hr0 Hl0].
    { destruct Hl as [|(H1 & _)]; [done|]. apply Hhe in H1; [|done]. congruence. }
    rewrite (bind_Ret _ _ _ _ _ (upd_buf_eq _ _ _ _ Hb)).
    rewrite (bind_Ret _ _ _ _ _ (acquiresleep_put _ _ (set_b_refcnt _ b) Hi Hl0)).
    eexists i, b, _. split; [done|]. split; simpl; try done; try by left.
    + by rewrite Hr0.
    + subst n. rewrite <- (Hp ltac:(done)). destruct Hf as [Hf|Hf]; [left; lia|right].
      split; [apply Hdata; [done|lia]|lia].
  - assert (forall j, ~ caches s j n) as Hnone.
    { intros j (b & Hb & H1 & H2). specialize (Hspec j b (lru_all _ _ _ _ R Hb) Hb). simpl in Hspec.
      by rewrite H1, H2, !Z.eqb_refl in Hspec. }
    assert (n ∉ v_pinned v) as Hnp.
    { intros Hp. destruct (br_pinned _ _ R _ Hp) as [j Hj]. by apply Hnone in Hj. }
    destruct Hroom as [|Hroom]; [done|].
    edestruct (find_buf_ok (fun b => (b_refcnt b =? 0) && (Z.land (b_flags b) B_DIRTY =? 0)) s (reverse (lru s)))
      as (r & Hr2 & Hspec2).
    { intros i. rewrite elem_of_reverse. by apply (lru_bound _ _ _ R). }
    rewrite (bind_Ret _ _ _ _ _ Hr2). destruct r as [i|].
    + destruct Hspec2 as (_ & b & Hb & Hm). bool_props. pose proof (lookup_lt_Some _ _ _ Hb) as Hi.
      destruct (br_bufs _ _ R _ _ Hb) as [Hf Hl _ _ _ _].
      rewrite (bind_Ret _ _ _ _ _ (upd_buf_eq _ _ _ _ Hb)).
      rewrite !(bind_Ret _ _ _ _ _ (upd_buf_put _ _ _ _ Hi)).
      assert (sl_locked (b_lock b) = 0) as Hl0 by lia.
      rewrite (bind_Ret _ _ _ _ _ (acquiresleep_put _ _
        (set_b_refcnt 1 (set_b_flags 0 (set_b_blockno n (set_b_dev 1 b)))) Hi Hl0)).
      eexists i, b, _. split; [done|]. split; simpl; try done; [|by left].
      right. repeat split; try done. intros H6. by rewrite H6 in *.
    + destruct (room_free _ _ R Hroom) as (i & b & Hb & H0 & H6). exfalso.
      specialize (Hspec2 i b). rewrite elem_of_reverse in Hspec2.
      specialize (Hspec2 (lru_all _ _ _ _ R Hb) Hb). simpl in Hspec2.
      destruct (bo_flags _ _ _ (br_bufs _ _ R _ _ Hb)) as [Hf|[Hf|Hf]]; rewrite H0, Hf in Hspec2; done.
Qed.

Lemma bread_ok s v n :
  brep s v -> 0 <= n < Z.of_nat (length (v_disk v)) -> v_held v !! n = None ->
  n ∈ v_pinned v \/ room v ->
  exists i s', bread 1 n s = Ret i s' /\ brep s' (v_hold n i v).
Proof.
  intros R Hn Hh Hroom. destruct (bget_ok s v n R Hh Hroom) as (i & b & b1 & Hget & G).
  pose proof (lookup_lt_Some _ _ _ (got_buf _ _ _ _ _ _ G)) as Hi.
  destruct (arr_get_Some (v_view v) n) as [d Hd]; [rewrite (br_len _ _ R); lia|].
  unfold bread. rewrite (bind_Ret _ _ _ _ _ Hget), (bind_Ret _ _ _ _ _ (buf_at_put _ _ _ Hi)).
  destruct G as [Hb Hhow Hdev Hno Href Hlock Hf]. destruct Hf as [[Hf Hp]|[Hview Hf]].
  - rewrite Hf. simpl. exists i, (put_buf i (set_b_flags 2 (set_b_data d b1)) s). split.
    + rewrite (bind_Ret _ _ _ tt (put_buf i (set_b_flags 2 (set_b_data d b1)) s)); [done|].
      apply iderw_read; try done. rewrite Hno, (br_disk _ _ R), <- (br_clean _ _ R); done.
    + eapply hold_ok; try done. by left.
  - exists i, (put_buf i b1 s). split.
    + destruct Hf as [[-> _]|[-> _]]; done.
    + by apply (hold_ok s v i b b1 n (b_data b1)).
Qed.

(** The buffer a held block is in. *)
Record holds (s : bio) (v : vdisk) (n : Z) (i : nat) (b : buf) : Prop := Holds {
  ho_buf : bufs s !! i = Some b;
  ho_dev : b_dev b = 1;
  ho_no : b_blockno b = n;
  ho_ref : b_refcnt b = 1;
  ho_lock : sl_locked (b_lock b) = 1;
  ho_data : arr_get (v_view v) n = Some (b_data b);
  ho_flags : (b_flags b = 2 /\ n ∉ v_pinned v) \/ (b_flags b = 6 /\ n ∈ v_pinned v)
}.

Lemma held_buf s v n i : brep s v -> v_held v !! n = Some i -> exists b, holds s v n i b.
Proof.
  intros R Hh. destruct (br_held _ _ R _ _ Hh) as (b & Hb & Hd & <-).
  destruct (br_bufs _ _ R _ _ Hb) as [Hf Hl _ Hhe Hp Hdata].
  assert (b_refcnt b = 1) as Hr by by apply Hhe.
  exists b. split; try done; [lia|apply Hdata; [done|lia]|]. rewrite <- (Hp Hd). lia.
Qed.

(** A held block changes in its buffer. *)
Lemma change_held s s' v v' n i b b' :
  brep s v -> v_held v !! n = Some i -> holds s v n i b ->
  bufs s' = <[i := b']> (bufs s) -> lru s' ≡ₚ lru s ->
  disk s' = v_disk v' -> history s' = v_hist v' -> vagree n v v' ->
  b_dev b' = 1 -> b_blockno b' = n ->
  (b_refcnt b' = 0 /\ sl_locked (b_lock b') = 0 /\ v_held v' !! n = None /\
     (n ∉ v_pinned v' -> arr_get (v_view v') n = arr_get (v_disk v') n)) \/
  (b_refcnt b' = 1 /\ sl_locked (b_lock b') = 1 /\ v_held v' !! n = Some i) ->
  arr_get (v_view v') n = Some (b_data b') ->
  (b_flags b' = 2 /\ n ∉ v_pinned v') \/ (b_flags b' = 6 /\ n ∈ v_pinned v') ->
  brep s' v'.
Proof.
  intros R Hh H Hbufs Hlru Hdisk Hhist Ha Hd Hn Href Hdata Hf. destruct H as [Hb Hdb Hnb Hrb _ _ _].
  eapply (brep_change s s' v v' i b b' n); try done.
  - by left.
  - split; try done.
    + lia.
    + destruct Href as [(? & ? & ?)|(? & ? & ?)]; [by left|right]. repeat split; [done|done|lia].
    + intros _. rewrite Hn. destruct Href as [(-> & _ & -> & _)|(-> & _ & ->)]; done.
    + intros _. rewrite Hn. naive_solver lia.
    + by rewrite Hn.
  - destruct Href as [(_ & _ & _ & ?)|(_ & _ & E)]; [auto|]. by rewrite E.
  - intros j Hj. destruct Href as [(_ & _ & E & _)|(_ & _ & E)]; congruence.
Qed.

Lemma held_bound s v n i : brep s v -> v_held v !! n = Some i -> 0 <= n < Z.of_nat (length (v_disk v)).
Proof.
  intros R Hh. destruct (held_buf _ _ _ _ R Hh) as (b & H). apply ho_data in H.
  apply arr_get_bounds in H. rewrite (br_len _ _ R) in H. done.
Qed.

(** Writing into the buffer of a held block. *)
Lemma set_data_ok s v n i f :
  brep s v -> v_held v !! n = Some i ->
  exists b s', holds s v n i b /\
    upd_buf i (fun b => set_b_data (f (b_data b)) b) s = Ret tt s' /\ brep s' (v_set n (f (b_data b)) v).
Proof.
  intros R Hh. destruct (held_buf _ _ _ _ R Hh) as (b & H). pose proof (held_bound _ _ _ _ R Hh) as Hn.
  exists b. eexists. split; [done|]. rewrite (upd_buf_eq _ _ b) by apply H. split; [done|].
  destruct H as [? ? ? ? ? ? Hf].
  eapply (change_held s _ v _ n i b); try done; try by apply R.
  - apply vagree_set; [apply R|done].
  - by right.
  - simpl. rewrite arr_get_set by (rewrite (br_len _ _ R); lia). by rewrite decide_True.
Qed.

(** Marking it dirty, as the log does. *)
Lemma pin_ok s v n i :
  brep s v -> v_held v !! n = Some i ->
  exists s', upd_buf i (fun b => set_b_flags (Z.lor (b_flags b) B_DIRTY) b) s = Ret tt s' /\
    brep s' (v_pin n v).
Proof.
  intros R Hh. destruct (held_buf _ _ _ _ R Hh) as (b & H).
  eexists. rewrite (upd_buf_eq _ _ b) by apply H. split; [done|]. destruct H as [? ? ? ? ? ? Hf].
  eapply (change_held s _ v _ n i b); try done; try by apply R.
  - apply vagree_pin, R.
  - by right.
  - right. split; [destruct Hf as [[-> _]|[-> _]]; done|set_solver].
Qed.

Lemma bwrite_ok s v n i :
  brep s v -> v_held v !! n = Some i ->
  exists d s', arr_get (v_view v) n = Some d /\ bwrite i s = Ret tt s' /\ brep s' (v_write n d v).
Proof.
  intros R Hh. destruct (held_buf _ _ _ _ R Hh) as (b & H). pose proof (held_bound _ _ _ _ R Hh) as Hn.
  destruct H as [Hb Hd Hno Hr Hl Hv Hf]. pose proof (lookup_lt_Some _ _ _ Hb) as Hi.
  exists (b_data b). eexists. split; [done|]. unfold bwrite.
  rewrite <- (put_same _ _ _ Hb) at 1. rewrite (bind_Ret _ _ _ _ _ (holdingsleep_put _ _ _ Hi)), Hl. simpl.
  rewrite (bind_Ret _ _ _ _ _ (upd_buf_put _ _ _ _ Hi)). rewrite iderw_write; simpl; try done.
  2: { destruct Hf as [[-> _]|[-> _]]; done. }
  2: { rewrite Hno, (br_disk _ _ R). done. }
  split; [done|]. eapply (change_held s _ v _ n i b); try done; simpl; try by apply R.
  - by rewrite Hno, (br_disk _ _ R).
  - by rewrite Hno, (br_hist _ _ R).
  - apply vagree_write; [apply R|done].
  - by right.
  - left. set_solver.
Qed.

Lemma brelse_ok s v n i :
  brep s v -> v_held v !! n = Some i ->
  n ∈ v_pinned v \/ arr_get (v_view v) n = arr_get (v_disk v) n ->
  exists s', brelse i s = Ret tt s' /\ brep s' (v_drop n v).
Proof.
  intros R Hh Hsafe. destruct (held_buf _ _ _ _ R Hh) as (b & H).
  pose proof H as [Hb Hd Hno Hr Hl Hv Hf]. pose proof (lookup_lt_Some _ _ _ Hb) as Hi.
  unfold brelse. rewrite <- (put_same _ _ _ Hb).
  rewrite (bind_Ret _ _ _ _ _ (holdingsleep_put _ _ _ Hi)), Hl. simpl.
  unfold releasesleep, buf_lock. simpl. rewrite !(bind_Ret _ _ _ _ _ (upd_buf_put _ _ _ _ Hi)).
  rewrite (bind_Ret _ _ _ _ _ (buf_at_put _ _ _ Hi)). simpl. rewrite Hr. simpl.
  eexists. split; [done|]. eapply (change_held s _ v _ n i b); try done; simpl; try by apply R.
  - trans (seq 0 (length (bufs s))); [|symmetry; apply R]. apply NoDup_Permutation.
    + constructor; [|apply NoDup_filter; rewrite (br_lru _ _ R); apply NoDup_seq].
      rewrite list_elem_of_filter. naive_solver.
    + apply NoDup_seq.
    + intros j. rewrite elem_of_cons, list_elem_of_filter, (br_lru _ _ R), elem_of_seq.
      destruct (decide (j = i)); naive_solver lia.
  - apply vagree_drop, R.
  - left. rewrite lookup_delete_eq. naive_solver.
Qed.
