(* ===== verification/Log.v ===== *)
(** The write-ahead log (src/xv6-public/log.c), over the buffer cache.

    A system call's changes to blocks stay in the cache, pinned, until the
    last outstanding call ends; then they are copied to the log on disk, the
    header is written (the commit), the blocks are copied to their homes and
    the header is cleared.  After a crash recover_from_log copies what was
    committed. *)
From S2P Require Import Prelude Bytes Bio.

Definition MAXOPBLOCKS : Z := 10.
Definition LOGSIZE : Z := MAXOPBLOCKS * 3.

(** struct log, with its struct logheader. *)
Record log := Log {
  l_start : Z;
  l_size : Z;
  l_outstanding : Z;
  l_committing : Z;
  l_dev : Z;
  lh_n : Z;
  lh_block : list Z
}.
Definition set_l_outstanding v l := Log (l_start l) (l_size l) v (l_committing l) (l_dev l) (lh_n l) (lh_block l).
Definition set_l_committing v l := Log (l_start l) (l_size l) (l_outstanding l) v (l_dev l) (lh_n l) (lh_block l).
Definition set_lh_n v l := Log (l_start l) (l_size l) (l_outstanding l) (l_committing l) (l_dev l) v (lh_block l).
Definition set_lh_block v l := Log (l_start l) (l_size l) (l_outstanding l) (l_committing l) (l_dev l) (lh_n l) v.
Definition set_l_where st sz dev l := Log st sz (l_outstanding l) (l_committing l) dev (lh_n l) (lh_block l).

(** The cache and the log. *)
Record lst := Lst { l_bio : bio; l_log : log }.
Definition set_l_bio v s := Lst v (l_log s).
Definition set_l_log v s := Lst (l_bio s) v.

Notation L := (M lst).

(** Code of the buffer cache, here. *)
Definition io {A} (c : B A) : L A := zoom l_bio set_l_bio c.
Definition upd_log (f : log -> log) : L unit := modify (fun s => set_l_log (f (l_log s)) s).
Definition getl {A} (f : log -> A) : L A := gets (fun s => f (l_log s)).

(** Bytes of a buffer. *)
Definition b_get {A} (i : nat) (f : block -> option A) : B A :=
  b <- buf_at i ;; get_opt "buffer access" (f (b_data b)).
Definition b_put (i : nat) (f : block -> option block) : B unit :=
  b <- buf_at i ;; d <- get_opt "buffer access" (f (b_data b)) ;; upd_buf i (set_b_data d).

(** Offsets in struct logheader. *)
Definition off_n : nat := 0.
Definition off_block (i : Z) : nat := (4 + 4 * Z.to_nat i)%nat.

(** ** fs.c: the superblock *)

Record superblock := Superblock {
  sb_size : Z; sb_nblocks : Z; sb_ninodes : Z; sb_nlog : Z;
  sb_logstart : Z; sb_inodestart : Z; sb_bmapstart : Z
}.

Definition decode_sb (d : block) : option superblock :=
  size ← get_uint d 0; nblocks ← get_uint d 4; ninodes ← get_uint d 8; nlog ← get_uint d 12;
  logstart ← get_uint d 16; inodestart ← get_uint d 20; bmapstart ← get_uint d 24;
  Some (Superblock size nblocks ninodes nlog logstart inodestart bmapstart).

Definition readsb (dev : Z) : B superblock :=
  bp <- bread dev 1 ;;
  sb <- b_get bp decode_sb ;;
  brelse bp ;;
  ret sb.

(** ** log.c *)

Definition install_trans_body (tail : Z) : L unit :=
  dev <- getl l_dev ;;
  start <- getl l_start ;;
  n <- checked (start + tail + 1) ;;
  lbuf <- io (bread (u32 dev) (u32 n)) ;;
  bl <- getl lh_block ;;
  h <- get_opt "log.lh.block" (arr_get bl tail) ;;
  dbuf <- io (bread (u32 dev) (u32 h)) ;;
  d <- io (b_get lbuf Some) ;;
  io (upd_buf dbuf (set_b_data d)) ;;
  io (bwrite dbuf) ;;
  io (brelse lbuf) ;;
  io (brelse dbuf).

Definition install_trans : L unit :=
  n <- getl lh_n ;;
  for_each 0 n install_trans_body.

Definition read_head : L unit :=
  dev <- getl l_dev ;;
  start <- getl l_start ;;
  buf <- io (bread (u32 dev) (u32 start)) ;;
  n <- io (b_get buf (fun d => get_int d off_n)) ;;
  upd_log (set_lh_n n) ;;
  for_each 0 n (fun i =>
    x <- io (b_get buf (fun d => get_int d (off_block i))) ;;
    bl <- getl lh_block ;;
    bl' <- get_opt "log.lh.block" (arr_set bl i x) ;;
    upd_log (set_lh_block bl')) ;;
  io (brelse buf).

Definition write_head : L unit :=
  dev <- getl l_dev ;;
  start <- getl l_start ;;
  buf <- io (bread (u32 dev) (u32 start)) ;;
  n <- getl lh_n ;;
  io (b_put buf (fun d => put_int d off_n n)) ;;
  for_each 0 n (fun i =>
    bl <- getl lh_block ;;
    x <- get_opt "log.lh.block" (arr_get bl i) ;;
    io (b_put buf (fun d => put_int d (off_block i) x))) ;;
  io (bwrite buf) ;;
  io (brelse buf).

Definition recover_from_log : L unit :=
  read_head ;;
  install_trans ;;
  upd_log (set_lh_n 0) ;;
  write_head.

Definition sizeof_logheader : Z := 4 + 4 * LOGSIZE.

Definition initlog (dev : Z) : L unit :=
  if sizeof_logheader >=? BSIZE then panic "initlog: too big logheader" else
  sb <- io (readsb (u32 dev)) ;;
  upd_log (set_l_where (s32 (sb_logstart sb)) (s32 (sb_nlog sb)) dev) ;;
  recover_from_log.

Definition begin_op : L unit :=
  l <- getl id ;;
  if negb (l_committing l =? 0) then (fun s => Spin s)
  else if lh_n l + (l_outstanding l + 1) * MAXOPBLOCKS >? LOGSIZE then (fun s => Spin s)
  else upd_log (set_l_outstanding (l_outstanding l + 1)).

Definition write_log_body (tail : Z) : L unit :=
  dev <- getl l_dev ;;
  start <- getl l_start ;;
  n <- checked (start + tail + 1) ;;
  to <- io (bread (u32 dev) (u32 n)) ;;
  bl <- getl lh_block ;;
  h <- get_opt "log.lh.block" (arr_get bl tail) ;;
  from <- io (bread (u32 dev) (u32 h)) ;;
  d <- io (b_get from Some) ;;
  io (upd_buf to (set_b_data d)) ;;
  io (bwrite to) ;;
  io (brelse from) ;;
  io (brelse to).

Definition write_log : L unit :=
  n <- getl lh_n ;;
  for_each 0 n write_log_body.

Definition commit : L unit :=
  n <- getl lh_n ;;
  if n >? 0 then
    write_log ;;
    write_head ;;
    install_trans ;;
    upd_log (set_lh_n 0) ;;
    write_head
  else ret tt.

Definition end_op : L unit :=
  upd_log (fun l => set_l_outstanding (l_outstanding l - 1) l) ;;
  l <- getl id ;;
  if negb (l_committing l =? 0) then panic "log.committing" else
  if l_outstanding l =? 0 then
    upd_log (set_l_committing 1) ;;
    commit ;;
    upd_log (set_l_committing 0)
  else ret tt.

(** The index of the block in the header, or its end. *)
Fixpoint log_index (bl : list Z) (blockno : Z) : nat :=
  match bl with
  | [] => O
  | x :: bl' => if u32 x =? blockno then O else S (log_index bl' blockno)
  end.

Definition log_write (b : nat) : L unit :=
  l <- getl id ;;
  if (lh_n l >=? LOGSIZE) || (lh_n l >=? l_size l - 1) then panic "too big a transaction" else
  if l_outstanding l <? 1 then panic "log_write outside of trans" else
  bb <- io (buf_at b) ;;
  let i := Z.of_nat (log_index (take (Z.to_nat (lh_n l)) (lh_block l)) (b_blockno bb)) in
  bl <- get_opt "log.lh.block" (arr_set (lh_block l) i (s32 (b_blockno bb))) ;;
  upd_log (set_lh_block bl) ;;
  (if i =? lh_n l then upd_log (set_lh_n (lh_n l + 1)) else ret tt) ;;
  io (upd_buf b (fun b => set_b_flags (Z.lor (b_flags b) B_DIRTY) b)).
