(* ===== verification/LogSpec.v ===== *)
(** What the code of log.c does to the abstract disk: every operation is a
    list of block writes, in order. *)
From S2P Require Import Prelude Bytes Bio BioSpec Log.

(** * Bytes of held buffers *)

Lemma io_Ret {A} (c : B A) b l a b' : c b = Ret a b' -> io c (Lst b l) = Ret a (Lst b' l).
Proof. intros H. unfold io, zoom. simpl. by rewrite H. Qed.

Lemma io_bind {A X} (c : B A) b l a b' (k : A -> L X) :
  c b = Ret a b' -> bind (io c) k (Lst b l) = k a (Lst b' l).
Proof. intros H. by apply bind_Ret, io_Ret. Qed.

Lemma getl_bind {A X} (f : log -> A) b l (k : A -> L X) :
  bind (getl f) k (Lst b l) = k (f l) (Lst b l).
Proof. done. Qed.

Lemma upd_log_bind {X} f b l (k : unit -> L X) :
  bind (upd_log f) k (Lst b l) = k tt (Lst b (f l)).
Proof. done. Qed.

Lemma get_opt_bind {S A X} why (o : option A) a (k : A -> M S X) s :
  o = Some a -> bind (get_opt why o) k s = k a s.
Proof. by intros ->. Qed.

Lemma checked_bind {S X} z (k : Z -> M S X) s : INT_MIN <= z <= INT_MAX -> bind (checked z) k s = k z s.
Proof. intros H. unfold checked. by rewrite (proj2 (int_ok_iff z) H). Qed.

Lemma b_get_ok {A} s v n i d (f : block -> option A) a :
  brep s v -> v_held v !! n = Some i -> arr_get (v_view v) n = Some d -> f d = Some a ->
  b_get i f s = Ret a s.
Proof.
  intros R Hh Hd Hf. destruct (held_buf _ _ _ _ R Hh) as (b & H). unfold b_get.
  rewrite (bind_Ret _ _ _ _ _ (buf_at_eq _ _ _ (ho_buf _ _ _ _ _ H))).
  assert (b_data b = d) as -> by (pose proof (ho_data _ _ _ _ _ H); congruence). by rewrite Hf.
Qed.

Lemma set_buf_ok s v n i d :
  brep s v -> v_held v !! n = Some i ->
  exists s', upd_buf i (set_b_data d) s = Ret tt s' /\ brep s' (v_set n d v).
Proof.
  intros R Hh. destruct (set_data_ok s v n i (fun _ => d) R Hh) as (b & s' & _ & H1 & H2). eauto.
Qed.

Lemma b_put_ok s v n i d (f : block -> option block) d' :
  brep s v -> v_held v !! n = Some i -> arr_get (v_view v) n = Some d -> f d = Some d' ->
  exists s', b_put i f s = Ret tt s' /\ brep s' (v_set n d' v).
Proof.
  intros R Hh Hd Hf. destruct (held_buf _ _ _ _ R Hh) as (b & H).
  destruct (set_buf_ok s v n i d' R Hh) as (s' & Hs & R').
  exists s'. split; [|done]. unfold b_put.
  rewrite (bind_Ret _ _ _ _ _ (buf_at_eq _ _ _ (ho_buf _ _ _ _ _ H))).
  assert (b_data b = d) as -> by (pose proof (ho_data _ _ _ _ _ H); congruence).
  by rewrite (get_opt_bind _ _ d').
Qed.

(** * Writes *)

(** Block [n] is written on disk, through the cache. *)
Definition v_store (n : Z) (d : block) (v : vdisk) : vdisk :=
  VDisk (<[Z.to_nat n := d]> (v_disk v)) (<[Z.to_nat n := d]> (v_view v)) (v_held v)
    (v_pinned v ∖ {[n]}) (v_hist v ++ [(n, d)]).

Definition stores (ws : list (Z * block)) (v : vdisk) : vdisk :=
  foldl (fun v w => v_store w.1 w.2 v) v ws.

(** A list of writes on a disk. *)
Definition applyw (ws : list (Z * block)) (d : list block) : list block :=
  foldl (fun d w => <[Z.to_nat w.1 := w.2]> d) d ws.

Lemma stores_app ws ws' v : stores (ws ++ ws') v = stores ws' (stores ws v).
Proof. apply foldl_app. Qed.

Lemma applyw_app ws ws' d : applyw (ws ++ ws') d = applyw ws' (applyw ws d).
Proof. apply foldl_app. Qed.

Lemma length_applyw ws : forall d, length (applyw ws d) = length d.
Proof. induction ws as [|w ws IH]; intros d; [done|]. simpl. by rewrite IH, length_insert. Qed.

Lemma stores_disk ws : forall v, v_disk (stores ws v) = applyw ws (v_disk v).
Proof. induction ws as [|w ws IH]; intros v; [done|]. simpl. by rewrite IH. Qed.

Lemma stores_view ws : forall v, v_view (stores ws v) = applyw ws (v_view v).
Proof. induction ws as [|w ws IH]; intros v; [done|]. simpl. by rewrite IH. Qed.

Lemma stores_hist ws : forall v, v_hist (stores ws v) = v_hist v ++ ws.
Proof.
  induction ws as [|[n d] ws IH]; intros v; [by rewrite app_nil_r|]. simpl. rewrite IH. simpl.
  by rewrite <- app_assoc.
Qed.

Lemma stores_held ws : forall v, v_held (stores ws v) = v_held v.
Proof. induction ws as [|w ws IH]; intros v; [done|]. simpl. by rewrite IH. Qed.

Lemma stores_pinned ws : forall v, v_pinned (stores ws v) = v_pinned v ∖ list_to_set (fst <$> ws).
Proof.
  induction ws as [|w ws IH]; intros v; [simpl; set_solver|]. simpl. rewrite IH. simpl. set_solver.
Qed.

Lemma applyw_other ws : forall d m,
  (forall w, w ∈ ws -> 0 <= w.1 < Z.of_nat (length d)) -> m ∉ fst <$> ws ->
  arr_get (applyw ws d) m = arr_get d m.
Proof.
  induction ws as [|w ws IH]; intros d m Hb Hm; [done|]. simpl. rewrite IH.
  - rewrite arr_get_set by (apply Hb; set_solver). rewrite decide_False; [done|]. set_solver.
  - intros w' Hw'. rewrite length_insert. apply Hb. set_solver.
  - set_solver.
Qed.

Lemma applyw_in ws : forall d i n b,
  (forall w, w ∈ ws -> 0 <= w.1 < Z.of_nat (length d)) -> NoDup (fst <$> ws) ->
  ws !! i = Some (n, b) -> arr_get (applyw ws d) n = Some b.
Proof.
  induction ws as [|w ws IH]; intros d i n b Hb Hnd Hi; [done|]. simpl in Hnd |- *. inversion Hnd as [|? ? Hx Hnd']; subst.
  assert (forall w', w' ∈ ws -> 0 <= w'.1 < Z.of_nat (length (<[Z.to_nat w.1:=w.2]> d))) as Hb'.
  { intros w' Hw'. rewrite length_insert. apply Hb. set_solver. }
  destruct i as [|i]; simpl in Hi.
  - injection Hi as ->. simpl in *. rewrite applyw_other by done.
    rewrite arr_get_set by (apply (Hb (n, b)); set_solver). by rewrite decide_True.
  - by eapply IH.
Qed.

(** * Copying a block: the loop bodies of write_log and install_trans *)

Lemma room_hold n i v : n ∈ v_pinned v -> room v -> room (v_hold n i v).
Proof.
  unfold room. simpl. intros Hp H. rewrite dom_insert_L.
  replace ({[n]} ∪ dom (v_held v) ∪ v_pinned v) with (dom (v_held v) ∪ v_pinned v) by set_solver. done.
Qed.

Lemma bread2_ok b v x y :
  brep b v -> v_held v = ∅ -> x <> y ->
  0 <= x < Z.of_nat (length (v_disk v)) -> 0 <= y < Z.of_nat (length (v_disk v)) ->
  room v -> y ∈ v_pinned v \/ (size (v_pinned v) < 29)%nat ->
  exists i b1 j b2, bread 1 x b = Ret i b1 /\ bread 1 y b1 = Ret j b2 /\ brep b2 (v_hold y j (v_hold x i v)).
Proof.
  intros R He Hxy Hx Hy Hroom Hroom2.
  destruct (bread_ok b v x R Hx) as (i & b1 & H1 & R1); [by rewrite He|by right|].
  destruct (bread_ok b1 _ y R1 Hy) as (j & b2 & H2 & R2).
  - simpl. by rewrite He, lookup_insert_ne.
  - destruct Hroom2 as [|Hs]; [by left|right]. unfold room. simpl. rewrite He, insert_empty, dom_singleton_L.
    rewrite size_union_alt. rewrite size_singleton.
    assert (size (v_pinned v ∖ {[x]}) <= size (v_pinned v))%nat by (apply subseteq_size; set_solver).
    unfold NBUF. lia.
  - by exists i, b1, j, b2.
Qed.

Lemma copy_ok b v src dst i j d :
  brep b v -> src <> dst -> v_held v !! src = Some i -> v_held v !! dst = Some j ->
  arr_get (v_view v) src = Some d ->
  src ∈ v_pinned v \/ arr_get (v_view v) src = arr_get (v_disk v) src ->
  exists b1 b2 b3 b4,
    upd_buf j (set_b_data d) b = Ret tt b1 /\ bwrite j b1 = Ret tt b2 /\
    brelse i b2 = Ret tt b3 /\ brelse j b3 = Ret tt b4 /\
    brep b4 (v_drop dst (v_drop src (v_store dst d v))).
Proof.
  intros R Hne Hi Hj Hd Hsafe. pose proof (held_bound _ _ _ _ R Hj) as Hb. pose proof (br_len _ _ R) as Hlen.
  destruct (set_buf_ok b v dst j d R Hj) as (b1 & H1 & R1).
  destruct (bwrite_ok b1 _ dst j R1 Hj) as (d' & b2 & Hd' & H2 & R2).
  assert (d' = d) as ->.
  { simpl in Hd'. rewrite arr_get_set in Hd' by lia. rewrite decide_True in Hd' by done. congruence. }
  destruct (brelse_ok b2 _ src i R2 Hi) as (b3 & H3 & R3).
  { simpl. destruct Hsafe as [|Hsafe]; [left; set_solver|right].
    rewrite !arr_get_set by lia. by rewrite !decide_False. }
  destruct (brelse_ok b3 _ dst j R3) as (b4 & H4 & R4).
  { simpl. by rewrite lookup_delete_ne. }
  { right. simpl. rewrite !arr_get_set by lia. by rewrite !decide_True. }
  by exists b1, b2, b3, b4.
Qed.

(** With nothing else held, the two holds disappear. *)
Lemma drop_both v n d x y i j :
  v_held v = ∅ -> x <> y ->
  v_drop y (v_drop x (v_store n d (v_hold y j (v_hold x i v)))) = v_store n d v /\
  v_drop x (v_drop y (v_store n d (v_hold y j (v_hold x i v)))) = v_store n d v.
Proof.
  intros He Hxy. unfold v_store, v_drop, v_hold. simpl. rewrite He. split; f_equal; apply map_eq;
    intros m; rewrite !lookup_delete; repeat case_decide; try done; by rewrite !lookup_insert_ne by done.
Qed.

Lemma u32_int z : 0 <= z <= INT_MAX -> u32 z = z.
Proof. unfold INT_MAX. intros H. apply u32_small. lia. Qed.

Section Bodies.
Variables (b : bio) (l : log) (v : vdisk) (tail h : Z).
Hypothesis R : brep b v.
Hypothesis He : v_held v = ∅.
Hypothesis Hdev : l_dev l = 1.
Let lb := l_start l + tail + 1.
Hypothesis Hlb : 0 <= lb < Z.of_nat (length (v_disk v)).
Hypothesis Hh : arr_get (lh_block l) tail = Some h.
Hypothesis Hhb : 0 <= h < Z.of_nat (length (v_disk v)).
Hypothesis Hne : lb <> h.
Hypothesis Hmax : Z.of_nat (length (v_disk v)) <= INT_MAX.
Hypothesis Hlp : lb ∉ v_pinned v.
Hypothesis Hroom : room v.

Lemma write_log_body_ok d :
  h ∈ v_pinned v -> arr_get (v_view v) h = Some d ->
  exists b', write_log_body tail (Lst b l) = Ret tt (Lst b' l) /\ brep b' (v_store lb d v).
Proof.
  intros Hp Hd.
  destruct (bread2_ok b v lb h R He Hne Hlb Hhb Hroom (or_introl Hp)) as (i & b1 & j & b2 & H1 & H2 & R2).
  destruct (copy_ok b2 _ h lb j i d R2) as (b3 & b4 & b5 & b6 & H3 & H4 & H5 & H6 & R6); simpl; try done.
  { by rewrite lookup_insert_eq. }
  { by rewrite lookup_insert_ne, lookup_insert_eq. }
  { by left. }
  exists b6. split.
  - unfold write_log_body. rewrite !getl_bind, Hdev. fold lb.
    rewrite checked_bind by (unfold INT_MIN; lia). change (u32 1) with 1. rewrite (u32_int lb) by lia.
    rewrite (io_bind _ _ _ _ _ _ H1), getl_bind, (get_opt_bind _ _ _ _ _ Hh), (u32_int h) by lia.
    rewrite (io_bind _ _ _ _ _ _ H2).
    rewrite (io_bind (b_get j Some) b2 l d b2 _
      (b_get_ok _ _ h j d Some d R2 ltac:(by simpl; rewrite lookup_insert_eq) Hd eq_refl)).
    rewrite (io_bind _ _ _ _ _ _ H3), (io_bind _ _ _ _ _ _ H4), (io_bind _ _ _ _ _ _ H5). by apply io_Ret.
  - by rewrite (proj2 (drop_both v lb d lb h i j He Hne)) in R6.
Qed.

Lemma install_trans_body_ok d :
  h ∈ v_pinned v \/ (size (v_pinned v) < 29)%nat -> arr_get (v_disk v) lb = Some d ->
  exists b', install_trans_body tail (Lst b l) = Ret tt (Lst b' l) /\ brep b' (v_store h d v).
Proof.
  intros Hp Hd. assert (arr_get (v_view v) lb = arr_get (v_disk v) lb) as Hclean.
  { apply (br_clean _ _ R); [by rewrite He|done]. }
  rewrite <- Hclean in Hd.
  destruct (bread2_ok b v lb h R He Hne Hlb Hhb Hroom Hp) as (i & b1 & j & b2 & H1 & H2 & R2).
  destruct (copy_ok b2 _ lb h i j d R2) as (b3 & b4 & b5 & b6 & H3 & H4 & H5 & H6 & R6); simpl; try done.
  { by rewrite lookup_insert_ne, lookup_insert_eq. }
  { by rewrite lookup_insert_eq. }
  { by right. }
  exists b6. split.
  - unfold install_trans_body. rewrite !getl_bind, Hdev. fold lb.
    rewrite checked_bind by (unfold INT_MIN; lia). change (u32 1) with 1. rewrite (u32_int lb) by lia.
    rewrite (io_bind _ _ _ _ _ _ H1), getl_bind, (get_opt_bind _ _ _ _ _ Hh), (u32_int h) by lia.
    rewrite (io_bind _ _ _ _ _ _ H2).
    rewrite (io_bind (b_get i Some) b2 l d b2 _
      (b_get_ok _ _ lb i d Some d R2
         ltac:(by simpl; rewrite lookup_insert_ne, lookup_insert_eq) Hd eq_refl)).
    rewrite (io_bind _ _ _ _ _ _ H3), (io_bind _ _ _ _ _ _ H4), (io_bind _ _ _ _ _ _ H5). by apply io_Ret.
  - by rewrite (proj1 (drop_both v h d lb h i j He Hne)) in R6.
Qed.
End Bodies.

(** * Loops that write one block per iteration *)

Lemma stores_loop (body : Z -> L unit) ws b l v :
  brep b v ->
  (forall j n d b', ws !! j = Some (n, d) -> brep b' (stores (take j ws) v) ->
     exists b'', body (Z.of_nat j) (Lst b' l) = Ret tt (Lst b'' l) /\
       brep b'' (v_store n d (stores (take j ws) v))) ->
  exists b', for_each 0 (Z.of_nat (length ws)) body (Lst b l) = Ret tt (Lst b' l) /\ brep b' (stores ws v).
Proof.
  intros R Hbody.
  destruct (for_each_inv body (fun j st => exists b', st = Lst b' l /\ brep b' (stores (take (Z.to_nat j) ws) v))
    0 (Z.of_nat (length ws)) (Lst b l)) as (st & Hl & b' & -> & R').
  - lia.
  - by exists b.
  - intros j st Hj (b' & -> & R').
    destruct (lookup_lt_is_Some_2 ws (Z.to_nat j)) as [[n d] Hw]; [lia|].
    destruct (Hbody (Z.to_nat j) n d b' Hw R') as (b'' & Hb & R'').
    exists (Lst b'' l). rewrite Z2Nat.id in Hb by lia. split; [done|]. exists b''. split; [done|].
    replace (Z.to_nat (j + 1)) with (S (Z.to_nat j)) by lia. by rewrite (take_S_r _ _ _ Hw), stores_app.
  - exists b'. rewrite Nat2Z.id, take_ge in R' by done. done.
Qed.

(** * The header *)

(** Stores of the block numbers, from entry [i] on. *)
Fixpoint put_blocks (d : block) (i : Z) (hs : list Z) : block :=
  match hs with
  | [] => d
  | h :: hs' => put_blocks (le_put 4 d (off_block i) h) (i + 1) hs'
  end.

(** The header block for a transaction, over the old contents of the block. *)
Definition header (d : block) (hs : list Z) : block :=
  put_blocks (le_put 4 d off_n (Z.of_nat (length hs))) 0 hs.

Lemma put_blocks_snoc hs : forall d i h,
  put_blocks d i (hs ++ [h]) = le_put 4 (put_blocks d i hs) (off_block (i + Z.of_nat (length hs))) h.
Proof.
  induction hs as [|x hs IH]; intros d i h.
  - simpl. by rewrite Z.add_0_r.
  - simpl. rewrite IH. do 2 f_equal. lia.
Qed.

Lemma length_put_blocks hs : forall d i, length (put_blocks d i hs) = length d.
Proof. induction hs as [|h hs IH]; intros d i; [done|]. simpl. by rewrite IH, length_le_put. Qed.

Lemma length_header d hs : length (header d hs) = length d.
Proof. unfold header. by rewrite length_put_blocks, length_le_put. Qed.

Lemma put_blocks_other hs : forall d i o,
  0 <= i -> (o + 4 <= off_block i)%nat -> get_int (put_blocks d i hs) o = get_int d o.
Proof.
  induction hs as [|h hs IH]; intros d i o Hi Ho; [done|]. simpl. rewrite IH.
  - unfold get_int. rewrite le_get_put_ne by lia. done.
  - lia.
  - unfold off_block in *. lia.
Qed.

Lemma put_blocks_in hs : forall d i j h,
  0 <= i -> (off_block (i + Z.of_nat (length hs)) <= length d)%nat ->
  Forall (fun h => INT_MIN <= h <= INT_MAX) hs -> hs !! j = Some h ->
  get_int (put_blocks d i hs) (off_block (i + Z.of_nat j)) = Some h.
Proof.
  induction hs as [|x hs IH]; intros d i j h Hi Hlen Hok Hj; [done|].
  apply Forall_cons in Hok as [Hx Hok]. simpl in Hlen. destruct j as [|j]; simpl in Hj.
  - injection Hj as ->. simpl. rewrite Z.add_0_r. rewrite put_blocks_other; [|lia|unfold off_block; lia].
    apply get_int_put; [|done]. unfold off_block in *. lia.
  - simpl. replace (i + Z.of_nat (S j)) with (i + 1 + Z.of_nat j) by lia. apply IH; try done; [lia|].
    rewrite length_le_put. unfold off_block in *. lia.
Qed.

(** A header, once written, is read back. *)
Definition reads (d : block) (hs : list Z) : Prop :=
  get_int d off_n = Some (Z.of_nat (length hs)) /\
  forall j h, hs !! j = Some h -> get_int d (off_block (Z.of_nat j)) = Some h.

Lemma header_reads d hs :
  length d = Z.to_nat BSIZE -> (length hs <= Z.to_nat LOGSIZE)%nat ->
  Forall (fun h => INT_MIN <= h <= INT_MAX) hs -> reads (header d hs) hs.
Proof.
  intros Hd Hn Hok. change (Z.to_nat BSIZE) with 512%nat in Hd. change (Z.to_nat LOGSIZE) with 30%nat in Hn.
  split.
  - unfold header. rewrite put_blocks_other; [|lia|done].
    apply get_int_put; [unfold off_n; lia|unfold INT_MIN, INT_MAX; lia].
  - intros j h Hj. unfold header. rewrite <- (Z.add_0_l (Z.of_nat j)) at 1. apply put_blocks_in; try done.
    rewrite length_le_put. unfold off_block. lia.
Qed.

Lemma v_set_set n d d' v : v_set n d' (v_set n d v) = v_set n d' v.
Proof. unfold v_set. simpl. by rewrite list_insert_insert_eq. Qed.

Lemma v_set_same n d v : arr_get (v_view v) n = Some d -> v_set n d v = v.
Proof.
  intros H. pose proof (arr_get_bounds _ _ _ H) as Hb. unfold v_set. rewrite list_insert_id; [by destruct v|].
  unfold arr_get in H. by destruct (Z.leb_spec 0 n); [|lia].
Qed.

(** The entries of the in-memory header. *)
Definition entries (l : log) (hs : list Z) : Prop :=
  lh_n l = Z.of_nat (length hs) /\
  forall j h, hs !! j = Some h -> arr_get (lh_block l) (Z.of_nat j) = Some h.

(** The header's entries go into the held header block. *)
Lemma write_entries_ok b l v i d hs :
  brep b (v_set (l_start l) d v) -> v_held v !! l_start l = Some i -> entries l hs ->
  length d = Z.to_nat BSIZE -> (length hs <= Z.to_nat LOGSIZE)%nat ->
  exists b', for_each 0 (lh_n l) (fun k =>
      bl <- getl lh_block ;;
      x <- get_opt "log.lh.block" (arr_get bl k) ;;
      io (b_put i (fun d => put_int d (off_block k) x))) (Lst b l) = Ret tt (Lst b' l) /\
    brep b' (v_set (l_start l) (put_blocks d 0 hs) v).
Proof.
  intros R Hi [Hn He] Hd Hlen. rewrite Hn. change (Z.to_nat BSIZE) with 512%nat in Hd.
  change (Z.to_nat LOGSIZE) with 30%nat in Hlen.
  edestruct (for_each_inv (fun k => bl <- getl lh_block ;; x <- get_opt "log.lh.block" (arr_get bl k) ;;
      io (b_put i (fun d => put_int d (off_block k) x)))
    (fun j st => exists b', st = Lst b' l /\
       brep b' (v_set (l_start l) (put_blocks d 0 (take (Z.to_nat j) hs)) v))
    0 (Z.of_nat (length hs)) (Lst b l)) as (st & Hl & b' & -> & R').
  - lia.
  - exists b. done.
  - intros j st Hj (b' & -> & R'). destruct (lookup_lt_is_Some_2 hs (Z.to_nat j)) as [h Hh]; [lia|].
    specialize (He _ _ Hh). rewrite Z2Nat.id in He by lia.
    assert (length (take (Z.to_nat j) hs) = Z.to_nat j) as Htl by (apply length_take_le; lia).
    destruct (b_put_ok b' _ (l_start l) i (put_blocks d 0 (take (Z.to_nat j) hs))
      (fun d => put_int d (off_block j) h) (put_blocks d 0 (take (S (Z.to_nat j)) hs)) R') as (b'' & Hb & R'').
    + done.
    + simpl. pose proof (held_bound _ _ _ _ R' Hi). pose proof (br_len _ _ R') as E. simpl in *.
      rewrite length_insert in E. rewrite arr_get_set by lia. by rewrite decide_True.
    + rewrite (take_S_r _ _ _ Hh), put_blocks_snoc, Htl. unfold put_int.
      rewrite put_bytes_ok; [|rewrite length_put_blocks; unfold off_block; lia]. do 3 f_equal. lia.
    + exists (Lst b'' l). rewrite getl_bind, (get_opt_bind _ _ _ _ _ He). split; [by apply io_Ret|].
      exists b''. rewrite v_set_set in R''. replace (Z.to_nat (j + 1)) with (S (Z.to_nat j)) by lia. done.
  - exists b'. rewrite Nat2Z.id, take_ge in R' by done. done.
Qed.

Lemma write_head_ok b l v hd hs :
  brep b v -> v_held v = ∅ -> l_dev l = 1 -> 0 <= l_start l <= INT_MAX ->
  l_start l ∉ v_pinned v -> room v -> entries l hs -> (length hs <= Z.to_nat LOGSIZE)%nat ->
  arr_get (v_view v) (l_start l) = Some hd -> length hd = Z.to_nat BSIZE ->
  exists b', write_head (Lst b l) = Ret tt (Lst b' l) /\ brep b' (v_store (l_start l) (header hd hs) v).
Proof.
  intros R He Hdev Hst Hnp Hroom Hent Hlen Hhd Hbs. set (st := l_start l) in *.
  pose proof (arr_get_bounds _ _ _ Hhd) as Hb. rewrite (br_len _ _ R) in Hb.
  destruct (bread_ok b v st R Hb) as (i & b1 & H1 & R1); [by rewrite He|by right|].
  destruct (b_put_ok b1 _ st i hd (fun d => put_int d off_n (lh_n l)) (le_put 4 hd off_n (lh_n l)) R1)
    as (b2 & H2 & R2); [by simpl; rewrite lookup_insert_eq|done| |].
  { apply put_bytes_ok. rewrite Hbs. change (Z.to_nat BSIZE) with 512%nat. unfold off_n. lia. }
  destruct (write_entries_ok b2 l _ i _ hs R2) as (b3 & H3 & R3); [|done| |done|].
  { simpl. by rewrite lookup_insert_eq. }
  { by rewrite length_le_put. }
  fold st in R3. assert (put_blocks (le_put 4 hd off_n (lh_n l)) 0 hs = header hd hs) as E.
  { unfold header. by rewrite (proj1 Hent). }
  rewrite E in R3.
  destruct (bwrite_ok b3 _ st i R3) as (d' & b4 & Hd' & H4 & R4); [by simpl; rewrite lookup_insert_eq|].
  assert (d' = header hd hs) as ->.
  { simpl in Hd'. rewrite arr_get_set in Hd' by (rewrite (br_len _ _ R); lia).
    rewrite decide_True in Hd' by done. congruence. }
  destruct (brelse_ok b4 _ st i R4) as (b5 & H5 & R5); [by simpl; rewrite lookup_insert_eq| |].
  { right. simpl. pose proof (br_len _ _ R). rewrite !arr_get_set by lia. by rewrite !decide_True. }
  exists b5. split.
  - unfold write_head. rewrite !getl_bind, Hdev. fold st. change (u32 1) with 1. rewrite (u32_int st) by lia.
    rewrite (io_bind _ _ _ _ _ _ H1), getl_bind, (io_bind _ _ _ _ _ _ H2), (bind_Ret _ _ _ _ _ H3).
    rewrite (io_bind _ _ _ _ _ _ H4). by apply io_Ret.
  - revert R5. match goal with |- brep _ ?x -> brep _ ?y => replace x with y; [done|] end.
    unfold v_store, v_drop, v_write, v_set, v_hold. simpl. f_equal. rewrite He. by rewrite delete_insert_id.
Qed.

(** * A transaction

    [hs] are the home blocks of the in-memory header, [vals] their contents
    in the cache; the log area is [start, start + size). *)

Definition in_log (l : log) (n : Z) : Prop := l_start l <= n < l_start l + l_size l.

(** Where the log is, on a disk of [len] blocks. *)
Record area (l : log) (len : Z) : Prop := Area {
  ar_dev : l_dev l = 1;
  ar_start : 0 <= l_start l;
  ar_size : 1 <= l_size l <= LOGSIZE;
  ar_end : l_start l + l_size l <= len;
  ar_max : len <= INT_MAX
}.

(** Home blocks that fit in the log. *)
Record homes (l : log) (len : Z) (hs : list Z) : Prop := Homes {
  ho_len : Z.of_nat (length hs) <= l_size l - 1;
  ho_nodup : NoDup hs;
  ho_home : forall h, h ∈ hs -> 0 <= h < len /\ ~ in_log l h
}.

(** Copies of the blocks in the log; and in their homes. *)
Definition log_writes (l : log) (vals : list block) : list (Z * block) :=
  imap (fun i d => (l_start l + Z.of_nat i + 1, d)) vals.
Definition home_writes (hs : list Z) (vals : list block) : list (Z * block) := zip hs vals.

Lemma log_writes_lookup l vals j n d :
  log_writes l vals !! j = Some (n, d) <-> vals !! j = Some d /\ n = l_start l + Z.of_nat j + 1.
Proof.
  unfold log_writes. rewrite list_lookup_imap. destruct (vals !! j); simpl; naive_solver.
Qed.

Lemma log_writes_in l vals w : w ∈ log_writes l vals -> 
  exists j d, vals !! j = Some d /\ w = (l_start l + Z.of_nat j + 1, d).
Proof.
  intros [j Hj]%list_elem_of_lookup. destruct w as [n d].
  apply log_writes_lookup in Hj as [Hj ->]. eauto.
Qed.

Lemma home_writes_lookup hs vals j n d :
  home_writes hs vals !! j = Some (n, d) <-> hs !! j = Some n /\ vals !! j = Some d.
Proof. unfold home_writes. rewrite lookup_zip_Some. simpl. done. Qed.

Section Writes.
Variables (l : log) (v : vdisk) (hs : list Z) (vals : list block).
Let len := Z.of_nat (length (v_disk v)).
Hypothesis Har : area l len.
Hypothesis Hho : homes l len hs.
Hypothesis Hvl : length vals = length hs.
Hypothesis Hent : entries l hs.
Hypothesis He : v_held v = ∅.

Lemma log_block_bound j : (j < length hs)%nat -> in_log l (l_start l + Z.of_nat j + 1).
Proof. intros Hj. pose proof (ho_len _ _ _ Hho). unfold in_log. destruct Har. lia. Qed.

Lemma log_writes_bound w : w ∈ log_writes l vals -> in_log l w.1 /\ 0 <= w.1 < len.
Proof.
  intros (j & d & Hj & ->)%log_writes_in. apply lookup_lt_Some in Hj. rewrite Hvl in Hj.
  pose proof (log_block_bound j Hj) as Hin. split; [done|]. unfold in_log in Hin. destruct Har. simpl. lia.
Qed.

Lemma home_writes_bound w : w ∈ home_writes hs vals -> w.1 ∈ hs /\ ~ in_log l w.1 /\ 0 <= w.1 < len.
Proof.
  intros Hw. destruct w as [h d]. apply list_elem_of_lookup in Hw as [j [Hj _]%home_writes_lookup].
  apply list_elem_of_lookup_2 in Hj. simpl. destruct (ho_home _ _ _ Hho h Hj). done.
Qed.

Lemma log_writes_nodup : NoDup (fst <$> log_writes l vals).
Proof.
  apply NoDup_alt. intros i j n Hi Hj. apply list_lookup_fmap_Some in Hi as ([ni di] & -> & Hi), Hj as ([nj dj] & E & Hj).
  apply log_writes_lookup in Hi as [_ ->], Hj as [_ ->]. simpl in E. clear -E. lia.
Qed.

Lemma home_writes_fst : fst <$> home_writes hs vals = hs.
Proof. unfold home_writes. apply fst_zip. by rewrite Hvl. Qed.

Lemma write_log_ok b :
  brep b v -> hs ⊆ elements (v_pinned v) -> (forall n, in_log l n -> n ∉ v_pinned v) -> room v ->
  (forall j h d, hs !! j = Some h -> vals !! j = Some d -> arr_get (v_view v) h = Some d) ->
  exists b', write_log (Lst b l) = Ret tt (Lst b' l) /\ brep b' (stores (log_writes l vals) v).
Proof.
  intros R Hpin Hlp Hroom Hv. unfold write_log. rewrite getl_bind, (proj1 Hent).
  replace (length hs) with (length (log_writes l vals)) by (unfold log_writes; by rewrite length_imap).
  apply stores_loop; [done|]. intros j n d b' Hj R'. pose proof Hj as Hj'.
  apply log_writes_lookup in Hj as [Hj ->]. pose proof (lookup_lt_Some _ _ _ Hj) as Hlt. rewrite Hvl in Hlt.
  destruct (lookup_lt_is_Some_2 hs j Hlt) as [h Hh]. pose proof (list_elem_of_lookup_2 _ _ _ Hh) as Hin.
  destruct (ho_home _ _ _ Hho h Hin) as [Hhb Hnl]. pose proof (log_block_bound j Hlt) as Hlb.
  assert (forall w, w ∈ take j (log_writes l vals) -> in_log l w.1 /\ 0 <= w.1 < len) as Hws.
  { intros w Hw. apply log_writes_bound. by eapply subseteq_take. }
  set (v' := stores _ v) in *.
  assert (length (v_disk v') = length (v_disk v)) as Hlen by (unfold v'; by rewrite stores_disk, length_applyw).
  assert (v_pinned v' = v_pinned v) as Hp'.
  { unfold v'. rewrite stores_pinned. apply set_eq. intros x. rewrite elem_of_difference. split; [naive_solver|].
    intros Hx. split; [done|]. intros (w & -> & Hw)%elem_of_list_to_set%list_elem_of_fmap. by eapply Hlp, Hx; apply Hws. }
  assert (v_held v' = ∅) as He' by (unfold v'; by rewrite stores_held).
  unfold in_log in Hlb. destruct Har. unfold len in *.
  apply (write_log_body_ok b' l v' (Z.of_nat j) h); try done; try lia.
  - apply Hent. done.
  - intros E. apply Hnl. rewrite <- E. unfold in_log. lia.
  - unfold room. rewrite He', Hp', <- He. done.
  - rewrite Hp'. by apply elem_of_elements, Hpin.
  - unfold v'. rewrite stores_view, applyw_other; [by eapply Hv| |].
    + intros w Hw. rewrite (br_len _ _ R). by apply Hws.
    + intros (w & -> & Hw)%list_elem_of_fmap. by apply Hnl, Hws.
Qed.

Lemma install_trans_ok b :
  brep b v -> (forall h, h ∈ hs -> h ∈ v_pinned v) \/ v_pinned v = ∅ ->
  (forall n, in_log l n -> n ∉ v_pinned v) -> room v ->
  (forall j d, vals !! j = Some d -> arr_get (v_disk v) (l_start l + Z.of_nat j + 1) = Some d) ->
  exists b', install_trans (Lst b l) = Ret tt (Lst b' l) /\ brep b' (stores (home_writes hs vals) v).
Proof.
  intros R Hpin Hlp Hroom Hv. unfold install_trans. rewrite getl_bind, (proj1 Hent).
  replace (length hs) with (length (home_writes hs vals)) by (unfold home_writes; rewrite length_zip; lia).
  apply stores_loop; [done|]. intros j h d b' Hj R'. pose proof Hj as Hj'.
  apply home_writes_lookup in Hj as [Hh Hj]. pose proof (lookup_lt_Some _ _ _ Hh) as Hlt.
  pose proof (list_elem_of_lookup_2 _ _ _ Hh) as Hin.
  destruct (ho_home _ _ _ Hho h Hin) as [Hhb Hnl]. pose proof (log_block_bound j Hlt) as Hlb.
  assert (forall w, w ∈ take j (home_writes hs vals) -> w.1 ∈ hs /\ ~ in_log l w.1 /\ 0 <= w.1 < len) as Hws.
  { intros w Hw. apply home_writes_bound. by eapply subseteq_take. }
  set (v' := stores _ v) in *.
  assert (length (v_disk v') = length (v_disk v)) as Hlen by (unfold v'; by rewrite stores_disk, length_applyw).
  assert (v_pinned v' ⊆ v_pinned v) as Hp' by (unfold v'; rewrite stores_pinned; set_solver).
  assert (v_held v' = ∅) as He' by (unfold v'; by rewrite stores_held).
  unfold in_log in Hlb. destruct Har. unfold len in *.
  apply (install_trans_body_ok b' l v' (Z.of_nat j) h); try done; try lia.
  - apply Hent. done.
  - intros E. apply Hnl. rewrite <- E. unfold in_log. lia.
  - intros Hx. eapply Hlp; [|by apply Hp']. done.
  - unfold room in *. rewrite He' in *. rewrite He in Hroom. eapply Nat.le_lt_trans; [|done].
    apply subseteq_size. set_solver.
  - destruct Hpin as [Hpin|Hpin]; [left|right].
    + unfold v'. rewrite stores_pinned. apply elem_of_difference. split; [auto|].
      rewrite elem_of_list_to_set. rewrite fmap_take, home_writes_fst.
      intros [k [Hk Hkj]%lookup_take_Some]%list_elem_of_lookup.
      pose proof (NoDup_lookup _ _ _ _ (ho_nodup _ _ _ Hho) Hk Hh). lia.
    + assert (v_pinned v' = ∅) as -> by set_solver. rewrite size_empty. lia.
  - unfold v'. rewrite stores_disk, applyw_other; [by apply Hv| |].
    + intros w Hw. by apply Hws.
    + intros (w & E & Hw)%list_elem_of_fmap. apply Hws in Hw as (_ & Hw & _). apply Hw. rewrite <- E. done.
Qed.
End Writes.
