(* ===== verification/LogCrash.v ===== *)
(** Crash safety of the log.  A commit is a fixed sequence of block writes;
    whatever number of them reached the disk before a crash, and however often
    recovery itself is cut short by another crash, recovery leaves the home
    blocks either all as before the transaction or all as after it. *)
From S2P Require Import Prelude Bytes Bio BioSpec Log LogSpec.

(** * The writes of a commit *)

Record tx (l : log) (v : vdisk) (hs : list Z) (vals : list block) (hd : block) : Prop := Tx {
  tx_area : area l (Z.of_nat (length (v_disk v)));
  tx_homes : homes l (Z.of_nat (length (v_disk v))) hs;
  tx_len : length vals = length hs;
  tx_entries : entries l hs;
  tx_held : v_held v = ∅;
  tx_pinned : v_pinned v = list_to_set hs;
  tx_vals : forall j h d, hs !! j = Some h -> vals !! j = Some d -> arr_get (v_view v) h = Some d;
  tx_hd : arr_get (v_disk v) (l_start l) = Some hd;
  tx_hdlen : length hd = Z.to_nat BSIZE
}.

Definition commit_writes (l : log) (hs : list Z) (vals : list block) (hd : block) : list (Z * block) :=
  log_writes l vals ++ (l_start l, header hd hs) :: home_writes hs vals ++ [(l_start l, header (header hd hs) [])].

Lemma stores_log_pinned l ws v :
  (forall w, w ∈ ws -> in_log l w.1) -> (forall n, in_log l n -> n ∉ v_pinned v) ->
  v_pinned (stores ws v) = v_pinned v.
Proof.
  intros Hws Hp. rewrite stores_pinned. apply set_eq. intros x. rewrite elem_of_difference.
  split; [naive_solver|]. intros Hx. split; [done|].
  intros (w & -> & Hw)%elem_of_list_to_set%list_elem_of_fmap. by eapply Hp, Hx; apply Hws.
Qed.

Lemma in_log_start l len : area l len -> in_log l (l_start l).
Proof. intros [? ? ? ? ?]. unfold in_log. lia. Qed.

Lemma room_small v n : v_held v = ∅ -> (size (v_pinned v) <= n)%nat -> (n < 30)%nat -> room v.
Proof. intros He Hs Hn. unfold room. rewrite He, dom_empty_L, union_empty_l_L. unfold NBUF. lia. Qed.

Section Commit.
Variables (l : log) (v : vdisk) (hs : list Z) (vals : list block) (hd : block).
Hypothesis T : tx l v hs vals hd.
Let len := Z.of_nat (length (v_disk v)).

Lemma tx_log_pinned n : in_log l n -> n ∉ v_pinned v.
Proof.
  intros Hn Hp. rewrite (tx_pinned _ _ _ _ _ T), elem_of_list_to_set in Hp.
  by apply (ho_home _ _ _ (tx_homes _ _ _ _ _ T)) in Hp as [_ ?].
Qed.

Lemma tx_size : (length hs <= 29)%nat.
Proof.
  pose proof (ho_len _ _ _ (tx_homes _ _ _ _ _ T)). pose proof (ar_size _ _ (tx_area _ _ _ _ _ T)) as H1.
  change LOGSIZE with 30 in H1. lia.
Qed.

Lemma tx_room ws : room (stores ws v).
Proof.
  apply (room_small _ 29); [by rewrite stores_held, (tx_held _ _ _ _ _ T)| |lia].
  etrans; [|apply tx_size]. rewrite <- (size_list_to_set (C := gset Z) hs) by apply (tx_homes _ _ _ _ _ T).
  apply subseteq_size. rewrite stores_pinned, (tx_pinned _ _ _ _ _ T). set_solver.
Qed.

Lemma stores_len ws : length (v_disk (stores ws v)) = length (v_disk v).
Proof. by rewrite stores_disk, length_applyw. Qed.

(** The header block before it is written again. *)
Lemma header_view b ws d :
  brep b (stores ws v) -> arr_get (v_disk (stores ws v)) (l_start l) = Some d ->
  arr_get (v_view (stores ws v)) (l_start l) = Some d.
Proof.
  intros R Hd. rewrite (br_clean _ _ R); [done|by rewrite stores_held, (tx_held _ _ _ _ _ T)|].
  intros Hp. rewrite stores_pinned in Hp. apply elem_of_difference in Hp as [Hp _].
  by eapply tx_log_pinned, Hp; eapply in_log_start, (tx_area _ _ _ _ _ T).
Qed.

Lemma write_head_stores b ws l' d es :
  brep b (stores ws v) -> l_start l' = l_start l -> l_dev l' = l_dev l ->
  entries l' es -> (length es <= Z.to_nat LOGSIZE)%nat ->
  arr_get (v_disk (stores ws v)) (l_start l) = Some d -> length d = Z.to_nat BSIZE ->
  exists b', write_head (Lst b l') = Ret tt (Lst b' l') /\
    brep b' (stores (ws ++ [(l_start l, header d es)]) v).
Proof.
  intros R Es Ed Hent Hes Hd Hdl. pose proof (tx_area _ _ _ _ _ T) as [? ? ? ? ?].
  rewrite stores_app. simpl. rewrite <- Es.
  apply write_head_ok; try done; rewrite ?Es; try lia.
  - by rewrite stores_held, (tx_held _ _ _ _ _ T).
  - intros Hp. rewrite stores_pinned in Hp. apply elem_of_difference in Hp as [Hp _].
    by eapply tx_log_pinned, Hp; eapply in_log_start, (tx_area _ _ _ _ _ T).
  - apply tx_room.
  - by eapply header_view.
Qed.

Lemma log_writes_not_start : l_start l ∉ fst <$> log_writes l vals.
Proof. intros (w & E & (j & d & _ & ->)%log_writes_in)%list_elem_of_fmap. simpl in E. clear -E. lia. Qed.

Lemma home_writes_not_start : l_start l ∉ fst <$> home_writes hs vals.
Proof.
  rewrite home_writes_fst by apply T. intros Hin. apply (ho_home _ _ _ (tx_homes _ _ _ _ _ T)) in Hin as [_ Hn].
  eapply Hn, in_log_start, (tx_area _ _ _ _ _ T).
Qed.

Lemma log_writes_range w : w ∈ log_writes l vals -> in_log l w.1 /\ 0 <= w.1 < len.
Proof. apply (log_writes_bound l v hs vals); apply T. Qed.

Lemma home_writes_range w : w ∈ home_writes hs vals -> w.1 ∈ hs /\ ~ in_log l w.1 /\ 0 <= w.1 < len.
Proof. apply (home_writes_bound l v hs vals); apply T. Qed.

Lemma start_range : 0 <= l_start l < len.
Proof. unfold len. pose proof (tx_area _ _ _ _ _ T) as [? ? ? ? ?]. lia. Qed.

(** Commit is these writes, in this order. *)
Lemma commit_ok b :
  brep b v -> hs <> [] ->
  exists b', commit (Lst b l) = Ret tt (Lst b' (set_lh_n 0 l)) /\
    brep b' (stores (commit_writes l hs vals hd) v).
Proof.
  intros R Hne. pose proof T as [Har Hho Hvl Hent He Hp Hv Hhd Hhdl]. pose proof start_range as Hsr.
  destruct (write_log_ok l v hs vals Har Hho Hvl Hent He b R) as (b1 & H1 & R1).
  { intros h Hh. apply elem_of_elements. rewrite Hp. by apply elem_of_list_to_set. }
  { apply tx_log_pinned. }
  { apply (tx_room []). }
  { done. }
  destruct (write_head_stores b1 _ l hd hs R1) as (b2 & H2 & R2); try done.
  { pose proof tx_size. change (Z.to_nat LOGSIZE) with 30%nat. lia. }
  { rewrite stores_disk, applyw_other; [done| |apply log_writes_not_start]. intros w Hw. by apply log_writes_range. }
  set (ws2 := log_writes l vals ++ _) in *.
  assert (v_pinned (stores ws2 v) = v_pinned v) as Hp2.
  { apply (stores_log_pinned l); [|apply tx_log_pinned].
    intros w [Hw| ->%list_elem_of_singleton]%elem_of_app; [by apply log_writes_range|by eapply in_log_start]. }
  destruct (install_trans_ok l (stores ws2 v) hs vals) with (b := b2) as (b3 & H3 & R3); try done.
  { by rewrite stores_len. }
  { by rewrite stores_len. }
  { by rewrite stores_held. }
  { left. intros h Hh. rewrite Hp2, Hp. by apply elem_of_list_to_set. }
  { rewrite Hp2. apply tx_log_pinned. }
  { apply tx_room. }
  { intros j d Hj. rewrite stores_disk. unfold ws2. rewrite applyw_app. simpl. rewrite arr_get_set.
    - rewrite decide_False by lia. eapply applyw_in; [|apply log_writes_nodup|by apply log_writes_lookup].
      intros w Hw. by apply log_writes_range.
    - rewrite length_applyw. done. }
  rewrite <- stores_app in R3.
  destruct (write_head_stores b3 _ (set_lh_n 0 l) (header hd hs) [] R3) as (b4 & H4 & R4); try done.
  { simpl. lia. }
  { rewrite stores_disk. unfold ws2. rewrite !applyw_app, applyw_other.
    - simpl. rewrite arr_get_set by by rewrite length_applyw. by rewrite decide_True.
    - intros w Hw. rewrite !length_applyw. by apply home_writes_range.
    - apply home_writes_not_start. }
  { by rewrite length_header. }
  exists b4. split.
  - unfold commit. rewrite getl_bind. destruct (Z.gtb_spec (lh_n l) 0) as [_|Hn].
    + rewrite (bind_Ret _ _ _ _ _ H1), (bind_Ret _ _ _ _ _ H2), (bind_Ret _ _ _ _ _ H3), upd_log_bind. done.
    + rewrite (proj1 Hent) in Hn. destruct hs; [done|]. simpl in Hn. lia.
  - unfold ws2 in R4. rewrite <- !app_assoc in R4. done.
Qed.
End Commit.

(** * Recovery *)

(** The machine starts: the buffers are zero and binit links them. *)
Definition zero_buf : buf := Buf 0 0 0 (Sleeplock 0 0) 0 (replicate (Z.to_nat BSIZE) 0).
Definition power_on (d : list block) (pid : Z) : bio := Bio (replicate (Z.to_nat NBUF) zero_buf) [] d [] pid.

Lemma binit_ok d pid : exists b, binit (power_on d pid) = Ret tt b /\ brep b (VDisk d d ∅ ∅ []).
Proof.
  eexists. split; [done|]. split; simpl; try done.
  - change (reverse (seq 0 30) ≡ₚ seq 0 30). by rewrite reverse_Permutation.
  - intros i b Hb. change (replicate 30 zero_buf !! i = Some b) in Hb.
    apply lookup_replicate in Hb as [-> _]. split; simpl; try done; by left.
  - intros i j n (b & Hb & Hd & _). change (replicate 30 zero_buf !! i = Some b) in Hb.
    apply lookup_replicate in Hb as [-> _]. done.
Qed.

(** A clean cache: nothing held, nothing pinned. *)
Definition quiet_v (v : vdisk) : Prop := v_held v = ∅ /\ v_pinned v = ∅.

Lemma quiet_room v : quiet_v v -> room v.
Proof. intros [He Hp]. apply (room_small v 0); [done|by rewrite Hp, size_empty|lia]. Qed.

(** Reading a block and giving it back. *)
Lemma read_release b v n d :
  brep b v -> quiet_v v -> arr_get (v_disk v) n = Some d ->
  exists i b1 b2, bread 1 n b = Ret i b1 /\ brelse i b1 = Ret tt b2 /\ brep b2 v /\
    brep b1 (v_hold n i v) /\ arr_get (v_view v) n = Some d.
Proof.
  intros R [He Hp] Hd. pose proof (arr_get_bounds _ _ _ Hd) as Hb.
  assert (arr_get (v_view v) n = arr_get (v_disk v) n) as Hc.
  { apply (br_clean _ _ R); [by rewrite He|by rewrite Hp]. }
  destruct (bread_ok b v n R Hb) as (i & b1 & H1 & R1); [by rewrite He|by right; apply quiet_room|].
  destruct (brelse_ok b1 _ n i R1) as (b2 & H2 & R2); [by simpl; rewrite lookup_insert_eq|by right|].
  exists i, b1, b2. do 2 (split; [done|]). split; [|split; [done|congruence]].
  unfold v_drop, v_hold in R2. simpl in R2. rewrite He, delete_insert_id in R2 by done.
  rewrite <- He in R2. by destruct v.
Qed.

Lemma readsb_ok b v d sb :
  brep b v -> quiet_v v -> arr_get (v_disk v) 1 = Some d -> decode_sb d = Some sb ->
  exists b', readsb 1 b = Ret sb b' /\ brep b' v.
Proof.
  intros R Hq Hd Hsb. destruct (read_release b v 1 d R Hq Hd) as (i & b1 & b2 & H1 & H2 & R2 & R1 & Hv).
  exists b2. split; [|done]. unfold readsb. rewrite (bind_Ret _ _ _ _ _ H1).
  rewrite (bind_Ret _ _ _ sb b1); [by rewrite (bind_Ret _ _ _ _ _ H2)|].
  eapply (b_get_ok _ _ 1); [done|by simpl; rewrite lookup_insert_eq|done|done].
Qed.

Lemma read_head_ok b l v hd hs :
  brep b v -> quiet_v v -> l_dev l = 1 -> 0 <= l_start l <= INT_MAX ->
  arr_get (v_disk v) (l_start l) = Some hd -> reads hd hs ->
  (length hs <= length (lh_block l))%nat ->
  exists b' bl, read_head (Lst b l) = Ret tt (Lst b' (set_lh_block bl (set_lh_n (Z.of_nat (length hs)) l))) /\
    brep b' v /\ entries (set_lh_block bl (set_lh_n (Z.of_nat (length hs)) l)) hs /\
    length bl = length (lh_block l).
Proof.
  intros R Hq Hdev Hst Hhd [Hn Hr] Hlen.
  destruct (read_release b v _ hd R Hq Hhd) as (i & b1 & b2 & H1 & H2 & R2 & R1 & Hv).
  set (l1 := set_lh_n (Z.of_nat (length hs)) l).
  assert (forall A (f : block -> option A) a, f hd = Some a -> b_get i f b1 = Ret a b1) as Hget.
  { intros A f a Hf. eapply (b_get_ok _ _ (l_start l)); [done|by simpl; rewrite lookup_insert_eq|done|done]. }
  edestruct (for_each_inv (fun k => x <- io (b_get i (fun d => get_int d (off_block k))) ;;
      bl <- getl lh_block ;; bl' <- get_opt "log.lh.block" (arr_set bl k x) ;; upd_log (set_lh_block bl'))
    (fun j st => exists bl, st = Lst b1 (set_lh_block bl l1) /\ length bl = length (lh_block l) /\
       forall k h, Z.of_nat k < j -> hs !! k = Some h -> arr_get bl (Z.of_nat k) = Some h)
    0 (Z.of_nat (length hs)) (Lst b1 l1)) as (st & Hl & bl & -> & Hbl & Hall).
  - lia.
  - exists (lh_block l). split; [by destruct l|]. split; [done|]. lia.
  - intros j st Hj (bl & -> & Hbl & Hall). destruct (lookup_lt_is_Some_2 hs (Z.to_nat j)) as [h Hh]; [lia|].
    pose proof (Hr _ _ Hh) as Hx. rewrite Z2Nat.id in Hx by lia.
    eexists. rewrite (io_bind _ _ _ _ _ _ (Hget _ (fun d => get_int d (off_block j)) _ Hx)), getl_bind. simpl.
    rewrite (get_opt_bind _ _ (<[Z.to_nat j := h]> bl)) by (apply arr_set_ok; lia).
    split; [done|]. exists (<[Z.to_nat j := h]> bl). split; [done|]. split; [by rewrite length_insert|].
    intros k h' Hk Hh'. rewrite arr_get_set by lia. case_decide as E; [|apply Hall; [lia|done]].
    rewrite <- E, Nat2Z.id in Hh. congruence.
  - exists b2, bl. split; [|split; [done|]; split; [|done]].
    + unfold read_head. rewrite !getl_bind, Hdev. change (u32 1) with 1. rewrite u32_int by lia.
      rewrite (io_bind _ _ _ _ _ _ H1), (io_bind _ _ _ _ _ _ (Hget _ (fun d => get_int d off_n) _ Hn)).
      rewrite upd_log_bind. fold l1. rewrite (bind_Ret _ _ _ _ _ Hl). by apply io_Ret.
    + split; [done|]. intros k h Hk. apply Hall; [|done]. apply lookup_lt_Some in Hk. lia.
Qed.

(** Only the place of the log matters. *)
Definition same_log (l l' : log) : Prop :=
  l_dev l' = l_dev l /\ l_start l' = l_start l /\ l_size l' = l_size l.

Lemma area_same l l' len : same_log l l' -> area l len -> area l' len.
Proof. intros (E1 & E2 & E3) [? ? ? ? ?]. split; rewrite ?E1, ?E2, ?E3; done. Qed.

Lemma homes_same l l' len hs : same_log l l' -> homes l len hs -> homes l' len hs.
Proof.
  intros (E1 & E2 & E3) [? ? Hh]. split; rewrite ?E1, ?E2, ?E3; try done.
  intros h Hin. unfold in_log. rewrite E2, E3. by apply Hh.
Qed.

(** A disk with a log on it: its superblock, the header [hd] naming the home
    blocks [hs], and the copies [vals]. *)
Record image (l : log) (d : list block) (hs : list Z) (vals : list block) (hd : block) : Prop := Image {
  im_area : area l (Z.of_nat (length d));
  im_homes : homes l (Z.of_nat (length d)) hs;
  im_len : length vals = length hs;
  im_hd : arr_get d (l_start l) = Some hd;
  im_hdlen : length hd = Z.to_nat BSIZE;
  im_reads : reads hd hs;
  im_vals : forall j x, vals !! j = Some x -> arr_get d (l_start l + Z.of_nat j + 1) = Some x;
  im_sb : exists sbd sb, arr_get d 1 = Some sbd /\ decode_sb sbd = Some sb /\
    s32 (sb_logstart sb) = l_start l /\ s32 (sb_nlog sb) = l_size l;
  im_sb_apart : ~ in_log l 1 /\ 1 ∉ hs
}.

Definition recover_writes (l : log) (hs : list Z) (vals : list block) (hd : block) : list (Z * block) :=
  home_writes hs vals ++ [(l_start l, header hd [])].

(** The log in memory before initlog: only the space for the entries counts. *)
Definition zero_log : log := Log 0 0 0 0 0 0 (replicate (Z.to_nat LOGSIZE) 0).

Lemma recover_ok b l d hs vals hd :
  brep b (VDisk d d ∅ ∅ []) -> image l d hs vals hd -> length (lh_block l) = Z.to_nat LOGSIZE ->
  exists b' bl, recover_from_log (Lst b l) = Ret tt (Lst b' (set_lh_n 0 (set_lh_block bl l))) /\
    brep b' (stores (recover_writes l hs vals hd) (VDisk d d ∅ ∅ [])).
Proof.
  intros R [Har Hho Hvl Hhd Hhdl Hr Hv _ _] Hbl. set (v := VDisk d d ∅ ∅ []) in *.
  pose proof Har as [Hdev Hs0 Hsz Hend Hmax]. pose proof (ho_len _ _ _ Hho) as Hn.
  change LOGSIZE with 30 in Hsz, Hbl.
  destruct (read_head_ok b l v hd hs R) as (b1 & bl & H1 & R1 & Hent & Hbl'); try done; try lia.
  set (l1 := set_lh_block bl _) in *.
  destruct (install_trans_ok l1 v hs vals) with (b := b1) as (b2 & H2 & R2); try done.
  { by apply (homes_same l). }
  { by right. }
  { by apply quiet_room. }
  assert (brep b2 (stores (home_writes hs vals) v)) as R2' by done.
  assert (arr_get (v_disk (stores (home_writes hs vals) v)) (l_start l) = Some hd) as Hhd2.
  { rewrite stores_disk, applyw_other; [done| |].
    - intros w Hw. by apply (home_writes_bound l v hs vals).
    - rewrite home_writes_fst by done. intros Hin. apply (ho_home _ _ _ Hho) in Hin as [_ Hnl].
      by eapply Hnl, in_log_start. }
  assert (v_pinned (stores (home_writes hs vals) v) = ∅) as Hp2 by (rewrite stores_pinned; simpl; set_solver).
  destruct (write_head_ok b2 (set_lh_n 0 l1) _ hd [] R2) as (b3 & H3 & R3); simpl; try done; try lia.
  { by rewrite stores_held. }
  { by rewrite Hp2. }
  { apply quiet_room. split; [by rewrite stores_held|done]. }
  { rewrite (br_clean _ _ R2); [done|by rewrite stores_held|by rewrite Hp2]. }
  exists b3, bl. split.
  - unfold recover_from_log. rewrite (bind_Ret _ _ _ _ _ H1), (bind_Ret _ _ _ _ _ H2), upd_log_bind. done.
  - unfold recover_writes. by rewrite stores_app.
Qed.

Lemma initlog_ok b l d hs vals hd :
  brep b (VDisk d d ∅ ∅ []) -> image l d hs vals hd ->
  exists b' l', initlog 1 (Lst b zero_log) = Ret tt (Lst b' l') /\
    l_start l' = l_start l /\ l_size l' = l_size l /\ lh_n l' = 0 /\
    brep b' (stores (recover_writes l hs vals hd) (VDisk d d ∅ ∅ [])).
Proof.
  intros R Him. destruct (im_sb _ _ _ _ _ Him) as (sbd & sb & Hsbd & Hsb & Hst & Hsz).
  destruct (readsb_ok b _ sbd sb R) as (b1 & H1 & R1); [done|done|done|].
  set (l1 := set_l_where (l_start l) (l_size l) 1 zero_log).
  assert (image l1 d hs vals hd) as Him1.
  { assert (same_log l l1) as Hsame by (split; [symmetry; apply Him|done]). destruct Him.
    split; try done; [by apply (area_same l)|by apply (homes_same l)]. }
  destruct (recover_ok b1 l1 d hs vals hd R1 Him1 eq_refl) as (b2 & bl & H2 & R2).
  exists b2. eexists. split.
  - unfold initlog. change (sizeof_logheader >=? BSIZE) with false. cbv iota. change (u32 1) with 1.
    rewrite (io_bind _ _ _ _ _ _ H1), upd_log_bind, Hst, Hsz. apply H2.
  - done.
Qed.

(** * Crashes, on the disk *)

(** What block [m] is after recovery. *)
Definition settled (hs : list Z) (vals : list block) (d : list block) (m : Z) : option block :=
  arr_get (applyw (home_writes hs vals) d) m.

Lemma applyw_ext ws : forall d d' m,
  length d = length d' -> (forall w, w ∈ ws -> 0 <= w.1 < Z.of_nat (length d)) ->
  arr_get d m = arr_get d' m -> arr_get (applyw ws d) m = arr_get (applyw ws d') m.
Proof.
  induction ws as [|w ws IH]; intros d d' m Hl Hb Hm; [done|]. simpl.
  pose proof (Hb w ltac:(set_solver)). apply IH.
  - by rewrite !length_insert.
  - intros w' Hw'. rewrite length_insert. apply Hb. set_solver.
  - rewrite !arr_get_set by lia. by case_decide.
Qed.

Section Image.
Variables (l : log) (d : list block) (hs : list Z) (vals : list block) (hd : block).
Hypothesis Im : image l d hs vals hd.
Let len := Z.of_nat (length d).

Lemma im_home_writes w : w ∈ home_writes hs vals -> w.1 ∈ hs /\ ~ in_log l w.1 /\ 0 <= w.1 < len.
Proof. apply (home_writes_bound l (VDisk d d ∅ ∅ []) hs vals); apply Im. Qed.

(** Writes that leave the superblock, the header and the copies alone. *)
Lemma image_keep ws :
  (forall w, w ∈ ws -> 0 <= w.1 < len /\ w.1 <> l_start l /\ w.1 <> 1 /\
     (forall j, (j < length hs)%nat -> w.1 <> l_start l + Z.of_nat j + 1)) ->
  image l (applyw ws d) hs vals hd.
Proof.
  intros Hws. destruct Im as [Har Hho Hvl Hhd Hhdl Hr Hv Hsb Hap].
  assert (forall m, (forall w, w ∈ ws -> w.1 <> m) -> arr_get (applyw ws d) m = arr_get d m) as Hsame.
  { intros m Hm. apply applyw_other.
    - intros w Hw. by apply Hws.
    - intros (w & E & Hw)%list_elem_of_fmap. by eapply Hm. }
  split; rewrite ?length_applyw; try done.
  - rewrite Hsame; [done|]. intros w Hw. by apply Hws.
  - intros j x Hj. rewrite Hsame; [by apply Hv|]. intros w Hw. apply Hws; [done|].
    apply lookup_lt_Some in Hj. lia.
  - rewrite Hsame; [done|]. intros w Hw. by apply Hws.
Qed.

(** The header is written. *)
Lemma image_head hs' vals' :
  homes l len hs' -> 1 ∉ hs' -> length vals' = length hs' ->
  (forall j x, vals' !! j = Some x -> arr_get d (l_start l + Z.of_nat j + 1) = Some x) ->
  image l (<[Z.to_nat (l_start l) := header hd hs']> d) hs' vals' (header hd hs').
Proof.
  intros Hho' H1 Hvl' Hv'. destruct Im as [Har Hho Hvl Hhd Hhdl Hr Hv Hsb [Hap1 Hap2]].
  pose proof Har as [? ? Hsz ? ?]. change LOGSIZE with 30 in Hsz. pose proof (ho_len _ _ _ Hho').
  split; rewrite ?length_insert; try done.
  - rewrite arr_get_set by lia. by rewrite decide_True.
  - by rewrite length_header.
  - apply header_reads; [done|change (Z.to_nat LOGSIZE) with 30%nat; lia|].
    apply Forall_forall. intros h Hh. destruct (ho_home _ _ _ Hho' h Hh) as [Hb _].
    unfold len, INT_MIN, INT_MAX in *. lia.
  - intros j x Hj. rewrite arr_get_set by lia. rewrite decide_False by lia. by apply Hv'.
  - rewrite arr_get_set by lia. rewrite decide_False; [done|].
    intros E. apply Hap1. rewrite E. by eapply in_log_start.
Qed.

(** Some of the home blocks are written. *)
Lemma partly_installed k :
  image l (applyw (take k (home_writes hs vals)) d) hs vals hd /\
  forall m, settled hs vals (applyw (take k (home_writes hs vals)) d) m = settled hs vals d m.
Proof.
  pose proof Im as [Har Hho Hvl _ _ _ _ _ [_ Hap2]].
  assert (forall w, w ∈ take k (home_writes hs vals) -> w ∈ home_writes hs vals) as Hsub.
  { intros w. apply subseteq_take. }
  split.
  - apply image_keep. intros w Hw. apply Hsub, im_home_writes in Hw as (Hin & Hnl & Hb). split; [done|].
    split; [intros E; rewrite E in Hnl; by eapply Hnl, in_log_start|]. split; [intros E; by rewrite E in Hin|].
    intros j Hj E'. apply Hnl. rewrite E'. pose proof (ho_len _ _ _ Hho). destruct Har. unfold in_log. lia.
  - intros m. unfold settled. destruct (decide (m ∈ fst <$> home_writes hs vals)) as [Hin|Hnin].
    + apply list_elem_of_fmap in Hin as ([h x] & -> & [j Hj]%list_elem_of_lookup). simpl.
      assert (NoDup (fst <$> home_writes hs vals)) as Hnd by (rewrite home_writes_fst by done; apply Hho).
      etrans; [eapply (applyw_in _ _ j); [|done|done]|symmetry; eapply applyw_in; [|done|done]].
      * intros w Hw. rewrite length_applyw. by apply im_home_writes.
      * intros w Hw. by apply im_home_writes.
    + rewrite !applyw_other; try done.
      * intros w Hw. by apply im_home_writes.
      * intros w Hw. by apply im_home_writes, Hsub.
      * intros (w & -> & Hw)%list_elem_of_fmap. apply Hnin, list_elem_of_fmap. eauto.
      * intros w Hw. rewrite length_applyw. by apply im_home_writes.
Qed.
End Image.

Lemma homes_nil l len : area l len -> homes l len [].
Proof. intros [? ? ? ? ?]. split; [simpl; lia|apply NoDup_nil_2|]. intros h Hh. by apply elem_of_nil in Hh. Qed.

Lemma settled_nil d m : settled [] [] d m = arr_get d m.
Proof. done. Qed.

(** Any number of the writes of recovery. *)
Lemma recover_crash l d hs vals hd p q :
  image l d hs vals hd -> recover_writes l hs vals hd = p ++ q ->
  exists hs' vals' hd', image l (applyw p d) hs' vals' hd' /\
    forall m, ~ in_log l m -> settled hs' vals' (applyw p d) m = settled hs vals d m.
Proof.
  intros Im E. symmetry in E. apply app_eq_inv in E as [(k & -> & Ek)|(k & Ep & Ek)].
  - pose proof (partly_installed _ _ _ _ _ Im (length (home_writes hs vals))) as [Im1 Hs1].
    rewrite take_ge in Im1, Hs1 by done. destruct k as [|w k].
    + rewrite app_nil_r. exists hs, vals, hd. split; [done|]. intros m _. apply Hs1.
    + injection Ek as <- Ek. symmetry in Ek. apply app_eq_nil in Ek as [-> ->]. rewrite applyw_app. simpl.
      exists [], [], (header hd []). pose proof (im_area _ _ _ _ _ Im1) as Har. split.
      * eapply image_head; [done|by apply homes_nil|set_solver|done|]. by intros [].
      * intros m Hm. rewrite settled_nil, arr_get_set by (destruct Har; lia).
        rewrite decide_False; [done|]. intros ->. by eapply Hm, in_log_start.
  - exists hs, vals, hd.
    assert (p = take (length p) (home_writes hs vals)) as -> by (rewrite Ep; by rewrite take_app_length).
    split; [by apply partly_installed|]. intros m _. by apply (partly_installed _ _ _ _ _ Im).
Qed.

(** Any number of the writes of a commit. *)
Lemma commit_crash l v hs vals hd p q :
  tx l v hs vals hd -> image l (v_disk v) [] [] hd -> 1 ∉ hs ->
  commit_writes l hs vals hd = p ++ q ->
  exists hs' vals' hd', image l (applyw p (v_disk v)) hs' vals' hd' /\
    ((q <> [] /\ forall m, ~ in_log l m -> settled hs' vals' (applyw p (v_disk v)) m = arr_get (v_disk v) m) \/
     (forall m, ~ in_log l m -> settled hs' vals' (applyw p (v_disk v)) m = settled hs vals (v_disk v) m)).
Proof.
  intros T Im H1 E. set (d := v_disk v) in *.
  assert (forall ws, (forall w, w ∈ ws -> w ∈ log_writes l vals) ->
    image l (applyw ws d) [] [] hd /\ forall m, ~ in_log l m -> arr_get (applyw ws d) m = arr_get d m) as Hlog.
  { intros ws Hws. pose proof (im_sb_apart _ _ _ _ _ Im) as [Hap _]. split.
    - apply image_keep; [done|]. intros w Hw. apply Hws in Hw.
      destruct (log_writes_range _ _ _ _ _ T w Hw) as [Hin Hb].
      split; [done|]. split; [|split; [intros Ew; by rewrite Ew in Hin|intros j Hj; simpl in Hj; lia]].
      intros Ew. apply (log_writes_not_start l vals). rewrite <- Ew. by apply list_elem_of_fmap_2.
    - intros m Hm. apply applyw_other.
      + intros w Hw. apply Hws in Hw. by apply (log_writes_range _ _ _ _ _ T).
      + intros (w & -> & Hw)%list_elem_of_fmap. apply Hm, (log_writes_range _ _ _ _ _ T). auto. }
  symmetry in E. apply app_eq_inv in E as [(k & -> & Ek)|(k & Ep & Ek)].
  - destruct k as [|w k].
    + rewrite app_nil_r. destruct (Hlog (log_writes l vals)) as [Him Hold]; [done|].
      exists [], [], hd. split; [done|]. left. split; [|done]. simpl in Ek. by intros ->.
    + injection Ek as <- Ek. rewrite applyw_app. simpl. set (d1 := applyw (log_writes l vals) d).
      destruct (Hlog (log_writes l vals)) as [Him Hold]; [done|]. fold d1 in Him, Hold.
      assert (length d1 = length d) as Hd1 by apply length_applyw.
      assert (image l (<[Z.to_nat (l_start l) := header hd hs]> d1) hs vals (header hd hs)) as Him2.
      { eapply image_head; [done|rewrite Hd1; apply T|done|apply T|]. intros j x Hj.
        eapply applyw_in; [|apply log_writes_nodup|by apply log_writes_lookup].
        intros w Hw. by apply (log_writes_range _ _ _ _ _ T). }
      destruct (recover_crash _ _ _ _ _ k q Him2 Ek) as (hs' & vals' & hd' & Him3 & Hs).
      exists hs', vals', hd'. split; [done|]. right. intros m Hm. rewrite Hs by done.
      pose proof (start_range _ _ _ _ _ T).
      apply applyw_ext.
      * by rewrite length_insert.
      * intros w Hw. rewrite length_insert, Hd1. by apply (home_writes_range _ _ _ _ _ T).
      * rewrite arr_get_set by by rewrite Hd1. rewrite decide_False; [by apply Hold|].
        intros ->. eapply Hm, in_log_start, (tx_area _ _ _ _ _ T).
  - destruct (Hlog p) as [Him Hold].
    { intros w Hw. rewrite Ep. set_solver. }
    exists [], [], hd. split; [done|]. left. split; [|done]. rewrite Ek. by destruct k.
Qed.

(** * Crash safety *)

(** From disk [d], reboots that crash again during recovery, each after any
    number of the writes of that recovery, leave disk [d']. *)
Inductive reboots : list block -> list block -> Prop :=
| reboots_none d : reboots d d
| reboots_crash d pid b st p q d' :
    binit (power_on d pid) = Ret tt b ->
    initlog 1 (Lst b zero_log) = Ret tt st ->
    history (l_bio st) = p ++ q ->
    reboots (applyw p d) d' ->
    reboots d d'.

(** A boot on a disk with a log. *)
Lemma boot_ok l d hs vals hd pid b st :
  image l d hs vals hd -> binit (power_on d pid) = Ret tt b -> initlog 1 (Lst b zero_log) = Ret tt st ->
  history (l_bio st) = recover_writes l hs vals hd /\
  disk (l_bio st) = applyw (recover_writes l hs vals hd) d.
Proof.
  intros Im Hb Hst. destruct (binit_ok d pid) as (b' & Hb' & R). rewrite Hb in Hb'. injection Hb' as <-.
  destruct (initlog_ok b l d hs vals hd R Im) as (b2 & l2 & H2 & _ & _ & _ & R2).
  rewrite Hst in H2. injection H2 as ->. simpl. split.
  - rewrite (br_hist _ _ R2), stores_hist. done.
  - rewrite (br_disk _ _ R2), stores_disk. done.
Qed.

Lemma reboots_image l d d' :
  reboots d d' -> forall hs vals hd, image l d hs vals hd ->
  exists hs' vals' hd', image l d' hs' vals' hd' /\
    forall m, ~ in_log l m -> settled hs' vals' d' m = settled hs vals d m.
Proof.
  induction 1 as [d|d pid b st p q d' Hb Hst Hh _ IH]; intros hs vals hd Im; [by exists hs, vals, hd|].
  destruct (boot_ok _ _ _ _ _ _ _ _ Im Hb Hst) as [Hist _]. rewrite Hist in Hh.
  destruct (recover_crash _ _ _ _ _ _ _ Im Hh) as (hs1 & vals1 & hd1 & Im1 & Hs1).
  destruct (IH _ _ _ Im1) as (hs2 & vals2 & hd2 & Im2 & Hs2).
  exists hs2, vals2, hd2. split; [done|]. intros m Hm. by rewrite Hs2, Hs1.
Qed.

(** The final recovery. *)
Lemma recovered_settled l d hs vals hd m :
  image l d hs vals hd -> ~ in_log l m ->
  arr_get (applyw (recover_writes l hs vals hd) d) m = settled hs vals d m.
Proof.
  intros Im Hm. pose proof (im_area _ _ _ _ _ Im) as Har. unfold recover_writes. rewrite applyw_app. simpl.
  rewrite arr_get_set by (rewrite length_applyw; destruct Har; lia).
  rewrite decide_False; [done|]. intros ->. by eapply Hm, in_log_start.
Qed.

(** The home blocks after the commit are the blocks as the cache had them. *)
Lemma settled_view l v b hs vals hd m :
  tx l v hs vals hd -> brep b v -> ~ in_log l m -> settled hs vals (v_disk v) m = arr_get (v_view v) m.
Proof.
  intros T R Hm. unfold settled. destruct (decide (m ∈ hs)) as [Hin|Hnin].
  - rewrite <- (home_writes_fst hs vals) in Hin by apply T.
    apply list_elem_of_fmap in Hin as ([h x] & -> & [j Hj]%list_elem_of_lookup). simpl.
    assert (NoDup (fst <$> home_writes hs vals)) as Hnd by (rewrite home_writes_fst by apply T; apply T).
    rewrite (applyw_in _ _ j h x); [|intros w Hw; by apply (home_writes_range _ _ _ _ _ T)|done|done].
    apply home_writes_lookup in Hj as [H1 H2]. symmetry. by apply (tx_vals _ _ _ _ _ T j).
  - rewrite applyw_other.
    + symmetry. apply (br_clean _ _ R); [by rewrite (tx_held _ _ _ _ _ T)|].
      rewrite (tx_pinned _ _ _ _ _ T). by rewrite elem_of_list_to_set.
    + intros w Hw. by apply (home_writes_range _ _ _ _ _ T).
    + by rewrite home_writes_fst by apply T.
Qed.

(** C2: commit of a transaction that is in the cache, with the log on disk
    empty, returns; and if the machine stops after any number of its block
    writes, and again during any number of recoveries, the next boot recovers
    a disk on which the blocks outside the log are all as they were before
    the transaction or all as the cache had them.  Once commit has returned
    they are as the cache had them. *)
Theorem commit_crash_safe l v b hs vals hd :
  brep b v -> tx l v hs vals hd -> hs <> [] -> image l (v_disk v) [] [] hd -> 1 ∉ hs ->
  exists st ws, commit (Lst b l) = Ret tt st /\ history (l_bio st) = history b ++ ws /\
  forall p q d pid, ws = p ++ q -> reboots (applyw p (disk b)) d ->
  exists b0 st', binit (power_on d pid) = Ret tt b0 /\ initlog 1 (Lst b0 zero_log) = Ret tt st' /\
    lh_n (l_log st') = 0 /\
    ((q <> [] /\ forall m, ~ in_log l m -> arr_get (disk (l_bio st')) m = arr_get (disk b) m) \/
     (forall m, ~ in_log l m -> arr_get (disk (l_bio st')) m = arr_get (v_view v) m)).
Proof.
  intros R T Hne Im H1. destruct (commit_ok l v hs vals hd T b R Hne) as (b1 & Hc & R1).
  exists (Lst b1 (set_lh_n 0 l)), (commit_writes l hs vals hd). split; [done|]. split.
  { simpl. by rewrite (br_hist _ _ R1), stores_hist, (br_hist _ _ R). }
  intros p q d pid E Hrb. rewrite (br_disk _ _ R) in *.
  destruct (commit_crash _ _ _ _ _ _ _ T Im H1 E) as (hs1 & vals1 & hd1 & Im1 & Hor).
  destruct (reboots_image l _ _ Hrb _ _ _ Im1) as (hs2 & vals2 & hd2 & Im2 & Hs2).
  destruct (binit_ok d pid) as (b0 & Hb0 & R0).
  destruct (initlog_ok b0 l d hs2 vals2 hd2 R0 Im2) as (b2 & l2 & H2 & _ & _ & Hn & _).
  destruct (boot_ok _ _ _ _ _ _ _ _ Im2 Hb0 H2) as [_ Hd].
  exists b0, (Lst b2 l2). split; [done|]. split; [done|]. split; [done|].
  assert (forall m, ~ in_log l m -> arr_get (disk (l_bio (Lst b2 l2))) m = settled hs1 vals1 (applyw p (v_disk v)) m) as Hfin.
  { intros m Hm. rewrite Hd, (recovered_settled l) by done. by apply Hs2. }
  destruct Hor as [[Hq Hold]|Hnew]; [left; split; [done|]|right]; intros m Hm; rewrite Hfin by done; [by apply Hold|].
  rewrite Hnew by done. by eapply settled_view.
Qed.

(** A disk of six blocks with a log of two, and one changed block. *)
Definition ex_zeros : block := replicate (Z.to_nat BSIZE) 0.
Definition ex_ones : block := replicate (Z.to_nat BSIZE) 1.
Definition ex_sb : block := le_put 4 (le_put 4 ex_zeros 12 2) 16 2.
Definition ex_disk : list block := [ex_zeros; ex_sb; ex_zeros; ex_zeros; ex_zeros; ex_zeros].
Definition ex_log : log := Log 2 2 0 1 1 1 (4 :: replicate 29 0).
Definition ex_view : vdisk := VDisk ex_disk (<[4%nat := ex_ones]> ex_disk) ∅ {[4]} [].
Definition ex_boot : bio :=
  Bio (map (set_b_lock initsleeplock) (replicate (Z.to_nat NBUF) zero_buf))
    (reverse (seq 0 (Z.to_nat NBUF))) ex_disk [] 1.
Definition ex_bio : bio := put_buf 0 (Buf 6 1 4 (Sleeplock 0 0) 0 ex_ones) ex_boot.

Lemma ex_brep : brep ex_bio ex_view.
Proof.
  destruct (binit_ok ex_disk 1) as (b & Hb & R). assert (b = ex_boot) as -> by (injection Hb as <-; done).
  unfold ex_bio. eapply (brep_change ex_boot _ _ _ 0 _ _ 4 R); try done.
  - split; try done.
    + intros m Hm. change (arr_get (<[Z.to_nat 4 := ex_ones]> ex_disk) m = arr_get ex_disk m).
      rewrite arr_get_set by (simpl; lia). by rewrite decide_False.
    + intros m Hm. simpl. set_solver.
  - right. split; [done|]. split; [done|]. intros j (x & Hx & Hd & _).
    change (replicate 30 zero_buf !! j = Some x) in Hx. apply lookup_replicate in Hx as [-> _]. done.
  - split; try done; simpl; [by right; right|by left].
Qed.

Lemma ex_area : area ex_log 6.
Proof. split; vm_compute; intuition congruence. Qed.

Lemma ex_tx : tx ex_log ex_view [4] [ex_ones] ex_zeros.
Proof.
  split.
  - apply ex_area.
  - split; [done|apply NoDup_singleton|]. intros h ->%list_elem_of_singleton. unfold in_log. simpl. lia.
  - reflexivity.
  - split; [reflexivity|]. intros [|j] h Hj; [by injection Hj as <-|done].
  - reflexivity.
  - apply set_eq. intros x. change (x ∈ ({[4]} : gset Z) <-> x ∈ (list_to_set [4] : gset Z)). set_solver.
  - intros [|j] h x Hh Hx; [|done]. injection Hh as <-. injection Hx as <-. reflexivity.
  - reflexivity.
  - reflexivity.
Qed.

Lemma ex_image : image ex_log ex_disk [] [] ex_zeros.
Proof.
  split.
  - apply ex_area.
  - apply homes_nil, ex_area.
  - reflexivity.
  - reflexivity.
  - reflexivity.
  - split; [vm_compute; reflexivity|]. by intros [].
  - by intros [].
  - exists ex_sb, (Superblock 0 0 0 2 2 0 0). repeat split; vm_compute; reflexivity.
  - unfold in_log. split; [simpl; lia|set_solver].
Qed.

Lemma commit_crash_safe_witness :
  exists st ws, commit (Lst ex_bio ex_log) = Ret tt st /\ history (l_bio st) = history ex_bio ++ ws /\
  forall p q d pid, ws = p ++ q -> reboots (applyw p (disk ex_bio)) d ->
  exists b0 st', binit (power_on d pid) = Ret tt b0 /\ initlog 1 (Lst b0 zero_log) = Ret tt st' /\
    lh_n (l_log st') = 0 /\
    ((q <> [] /\ forall m, ~ in_log ex_log m -> arr_get (disk (l_bio st')) m = arr_get (disk ex_bio) m) \/
     (forall m, ~ in_log ex_log m -> arr_get (disk (l_bio st')) m = arr_get (v_view ex_view) m)).
Proof.
  apply (commit_crash_safe ex_log ex_view ex_bio [4] [ex_ones] ex_zeros).
  - exact ex_brep.
  - exact ex_tx.
  - discriminate.
  - exact ex_image.
  - set_solver.
Defined.
