(* ===== verification/LogWrite.v ===== *)
(** Transactions in memory: begin_op, log_write and end_op of log.c, against
    the list of home blocks of the transaction. *)
From S2P Require Import Prelude Bytes Bio BioSpec Log LogSpec LogCrash.

(** The block numbers of the header as a set with an order. *)
Definition add_home (n : Z) (hs : list Z) : list Z := if decide (n ∈ hs) then hs else hs ++ [n].

Lemma elem_of_add_home n m hs : m ∈ add_home n hs <-> m = n \/ m ∈ hs.
Proof. unfold add_home. case_decide; set_solver. Qed.

Lemma NoDup_add_home n hs : NoDup hs -> NoDup (add_home n hs).
Proof.
  intros H. unfold add_home. case_decide; [done|]. apply NoDup_app. split; [done|]. split; [set_solver|].
  apply NoDup_singleton.
Qed.

Lemma length_add_home n hs : (length (add_home n hs) <= S (length hs))%nat.
Proof. unfold add_home. case_decide; [lia|]. rewrite length_app. simpl. lia. Qed.

(** The search of log_write. *)
Lemma log_index_spec hs n :
  Forall (fun h => 0 <= h <= INT_MAX) hs ->
  (n ∈ hs /\ hs !! log_index hs n = Some n) \/ (n ∉ hs /\ log_index hs n = length hs).
Proof.
  induction hs as [|h hs IH]; intros Hok.
  - right. split; [apply not_elem_of_nil|done].
  - apply Forall_cons in Hok as [Hh Hok]. simpl. rewrite (u32_int h Hh).
    destruct (Z.eqb_spec h n) as [->|Hne].
    + left. split; [set_solver|done].
    + destruct (IH Hok) as [[Hin Hl]|[Hnin ->]]; [left|right]; split; try done; set_solver.
Qed.

Record log_ok (l : log) (hs : list Z) : Prop := LogOk {
  lo_block : length (lh_block l) = Z.to_nat LOGSIZE;
  lo_entries : entries l hs;
  lo_hs : Forall (fun h => 0 <= h <= INT_MAX) hs
}.

Lemma log_ok_take l hs : log_ok l hs -> take (Z.to_nat (lh_n l)) (lh_block l) = hs.
Proof.
  intros [Hb [Hn He] Hok]. rewrite Hn, Nat2Z.id. apply list_eq. intros j.
  destruct (decide (j < length hs)%nat) as [Hj|Hj].
  - rewrite lookup_take_lt by done. destruct (lookup_lt_is_Some_2 hs j Hj) as [h Hh]. rewrite Hh.
    specialize (He _ _ Hh). by rewrite arr_get_nat in He.
  - rewrite lookup_take_ge by lia. symmetry. apply lookup_ge_None. lia.
Qed.

(** Log [l'] is [l] but for the entries of its header. *)
Definition same_but_entries (l l' : log) : Prop :=
  l_start l' = l_start l /\ l_size l' = l_size l /\ l_outstanding l' = l_outstanding l /\
  l_committing l' = l_committing l /\ l_dev l' = l_dev l.

(** log_write of a held block: the block is in the header once, and pinned. *)
Lemma log_write_ok b l v hs n i :
  brep b v -> log_ok l hs -> v_held v !! n = Some i -> n <= INT_MAX ->
  lh_n l < LOGSIZE -> lh_n l < l_size l - 1 -> 1 <= l_outstanding l ->
  exists b' l', log_write i (Lst b l) = Ret tt (Lst b' l') /\ brep b' (v_pin n v) /\
    log_ok l' (add_home n hs) /\ same_but_entries l l'.
Proof.
  intros R Hlo Hh Hmax Hn Hsz Hout. pose proof (held_bound _ _ _ _ R Hh) as Hnb.
  pose proof (log_ok_take _ _ Hlo) as Htake. destruct Hlo as [Hbl [Hnl Hent] Hok].
  destruct (held_buf _ _ _ _ R Hh) as (bb & [Hb _ Hno _ _ _ _]).
  destruct (pin_ok b v n i R Hh) as (b' & Hpin & R').
  unfold log_write. rewrite getl_bind. unfold id. change LOGSIZE with 30 in *.
  destruct (Z.geb_spec (lh_n l) 30); [lia|]. destruct (Z.geb_spec (lh_n l) (l_size l - 1)); [lia|].
  destruct (Z.ltb_spec (l_outstanding l) 1); [lia|]. cbn [orb].
  rewrite (io_bind _ _ _ _ _ _ (buf_at_eq _ _ _ Hb)), Htake, Hno.
  assert (s32 n = n) as Hs32 by (apply s32_id; unfold INT_MIN; lia). rewrite Hs32. clear Hs32.
  assert (forall j, (j <= length hs)%nat -> hs !! j = Some n \/ j = length hs /\ n ∉ hs ->
    log_ok (set_lh_n (Z.of_nat (length (add_home n hs)))
      (set_lh_block (<[j := n]> (lh_block l)) l)) (add_home n hs)) as Hfin.
  { intros j Hj Hcase. split; simpl.
    - by rewrite length_insert.
    - split; [done|]. simpl. intros k h Hk. rewrite arr_get_nat.
      destruct (decide (k = j)) as [->|Hkj].
      + rewrite list_lookup_insert_eq by (rewrite Hbl; simpl; lia). f_equal. unfold add_home in Hk.
        case_decide; destruct Hcase as [Hc|[-> Hc]]; try done; [congruence|by apply list_elem_of_lookup_2 in Hc|].
        rewrite lookup_app_r, Nat.sub_diag in Hk by lia. by injection Hk as ->.
      + rewrite list_lookup_insert_ne by done. rewrite <- arr_get_nat. apply Hent. unfold add_home in Hk.
        case_decide; [done|]. destruct Hcase as [Hc|[-> Hc]]; [by apply list_elem_of_lookup_2 in Hc|].
        apply lookup_app_Some in Hk as [|[Hk1 Hk2]]; [done|]. apply lookup_lt_Some in Hk2. simpl in Hk2. lia.
    - unfold add_home. case_decide; [done|]. apply Forall_app. split; [done|]. constructor; [lia|constructor]. }
  destruct (log_index_spec hs n Hok) as [[Hin Hidx]|[Hnin Hidx]].
  - pose proof (lookup_lt_Some _ _ _ Hidx) as Hlt. specialize (Hfin _ (Nat.lt_le_incl _ _ Hlt) (or_introl Hidx)).
    rewrite (get_opt_bind _ _ (<[log_index hs n := n]> (lh_block l))) by (apply arr_set_nat; rewrite Hbl; simpl; lia).
    rewrite upd_log_bind. destruct (Z.eqb_spec (Z.of_nat (log_index hs n)) (lh_n l)); [lia|].
    rewrite (bind_Ret _ _ _ _ _ eq_refl). eexists b', _. split; [by apply io_Ret|]. split; [done|].
    split; [|done]. unfold add_home in *. rewrite decide_True in * by done. rewrite <- Hnl in Hfin. done.
  - specialize (Hfin (length hs) (Nat.le_refl _) (or_intror (conj eq_refl Hnin))). rewrite Hidx.
    rewrite (get_opt_bind _ _ (<[length hs := n]> (lh_block l))) by (apply arr_set_nat; rewrite Hbl; simpl; lia).
    rewrite upd_log_bind, <- Hnl, Z.eqb_refl, upd_log_bind. eexists b', _. split; [by apply io_Ret|].
    split; [done|]. split; [|done]. unfold add_home in *. rewrite decide_False in * by done.
    rewrite length_app in Hfin. simpl in Hfin. rewrite Hnl.
    replace (Z.of_nat (length hs) + 1) with (Z.of_nat (length hs + 1)) by lia. done.
Qed.

(** * Operations that fill the log *)

(** How an operation writes a block, as the comment of log_write says. *)
Definition write_block (n : Z) (d : block) : L unit :=
  bp <- io (bread 1 n) ;;
  io (upd_buf bp (set_b_data d)) ;;
  log_write bp ;;
  io (brelse bp).

Fixpoint write_blocks (ws : list (Z * block)) : L unit :=
  match ws with [] => ret tt | (n, d) :: ws' => write_block n d ;; write_blocks ws' end.

(** Between two writes: the blocks of the header, and no others, are pinned. *)
Record writing (s : lst) (hs : list Z) (len : nat) : Prop := {
  wr_cache : exists v, brep (l_bio s) v /\ v_held v = ∅ /\ v_pinned v = list_to_set hs /\ length (v_disk v) = len;
  wr_log : log_ok (l_log s) hs;
  wr_size : l_size (l_log s) = LOGSIZE;
  wr_out : 1 <= l_outstanding (l_log s)
}.

(** A block of the disk. *)
Definition on_disk (len : nat) (n : Z) : Prop := 0 <= n < Z.of_nat len /\ n <= INT_MAX.

Lemma size_homes hs : (size (list_to_set hs : gset Z) <= length hs)%nat.
Proof.
  induction hs as [|h hs IH]; [done|]. rewrite list_to_set_cons, size_union_alt, size_singleton. simpl.
  assert (size ((list_to_set hs : gset Z) ∖ {[h]}) <= size (list_to_set hs : gset Z))%nat by (apply subseteq_size; set_solver). lia.
Qed.

Lemma writing_room v hs : v_held v = ∅ -> v_pinned v = list_to_set hs -> (length hs < 30)%nat -> room v.
Proof.
  intros He Hp Hl. unfold room. rewrite He, Hp, dom_empty_L, union_empty_l_L. pose proof (size_homes hs). change (Z.to_nat NBUF) with 30%nat. lia.
Qed.

(** Until log_write. *)
Lemma write_block_start s hs len n d : writing s hs len -> on_disk len n -> (length hs < 30)%nat ->
  exists i b v, write_block n d s = (log_write i ;; io (brelse i)) (Lst b (l_log s)) /\
    brep b v /\ v_held v = {[n := i]} /\ v_pinned v = list_to_set hs /\ length (v_disk v) = len.
Proof.
  intros [(v & R & He & Hp & Hl) _ _ _] [Hn Hmax] Hlt. destruct s as [b l]. simpl in *.
  destruct (bread_ok b v n R) as (i & b1 & H1 & R1); [lia|by rewrite He|right; by eapply writing_room|].
  destruct (set_buf_ok b1 _ n i d R1) as (b2 & H2 & R2); [simpl; apply lookup_insert_eq|].
  exists i, b2, (v_set n d (v_hold n i v)). unfold write_block. rewrite (io_bind _ _ _ _ _ _ H1), (io_bind _ _ _ _ _ _ H2).
  split_and!; try done. simpl. by rewrite He.
Qed.

Lemma write_block_ok s hs len n d : writing s hs len -> on_disk len n -> n ∉ hs -> (length hs < 29)%nat ->
  exists s', write_block n d s = Ret tt s' /\ writing s' (hs ++ [n]) len /\ l_outstanding (l_log s') = l_outstanding (l_log s).
Proof.
  intros Hw Hn Hnin Hlt. destruct (write_block_start s hs len n d Hw Hn) as (i & b & v & -> & R & Hh & Hp & Hl); [lia|].
  destruct Hw as [_ Hlo Hsz Hout]. pose proof (lo_entries _ _ Hlo) as [Hent _].
  destruct (log_write_ok b (l_log s) v hs n i R Hlo) as (b' & l' & H1 & R1 & Hlo' & Hsame); [by rewrite Hh, lookup_singleton_eq|apply Hn|rewrite Hent; change LOGSIZE with 30; lia|rewrite Hent, Hsz; change LOGSIZE with 30; lia|done|].
  destruct (brelse_ok b' _ n i R1) as (b2 & H2 & R2); [simpl; by rewrite Hh, lookup_singleton_eq|left; simpl; set_solver|].
  exists (Lst b2 l'). rewrite (bind_Ret _ _ _ _ _ H1), (io_Ret _ _ _ _ _ H2). unfold add_home in Hlo'. rewrite decide_False in Hlo' by done.
  destruct Hsame as (_ & Es & Eo & _). split; [done|]. split; [constructor|done].
  - eexists. split; [exact R2|]. simpl. rewrite Hh, delete_singleton_eq, Hp, list_to_set_app_L, union_comm_L. simpl. by rewrite union_empty_r_L.
  - done.
  - cbn [l_log]. by rewrite Es.
  - cbn [l_log]. by rewrite Eo.
Qed.

Lemma write_blocks_ok ws : forall s hs len, writing s hs len -> Forall (on_disk len) (fst <$> ws) -> NoDup (hs ++ (fst <$> ws)) ->
  (length hs + length ws <= 29)%nat ->
  exists s', write_blocks ws s = Ret tt s' /\ writing s' (hs ++ (fst <$> ws)) len /\ l_outstanding (l_log s') = l_outstanding (l_log s).
Proof.
  induction ws as [|[n d] ws IH]; intros s hs len Hw Hd Hnd Hlen; [exists s; by rewrite app_nil_r|]. simpl in Hlen. cbn [fmap list_fmap fst] in *.
  apply Forall_cons in Hd as [Hn Hd]. assert (n ∉ hs) as Hnin by (apply NoDup_app in Hnd as (_ & Hx & _); intros Hin; apply (Hx n Hin); left).
  destruct (write_block_ok s hs len n d Hw Hn Hnin) as (s1 & H1 & W1 & E1); [lia|]. rewrite cons_middle, app_assoc in Hnd.
  destruct (IH s1 (hs ++ [n]) len W1 Hd Hnd) as (s2 & H2 & W2 & E2); [rewrite length_app; simpl; lia|].
  exists s2. cbn [write_blocks]. rewrite (bind_Ret _ _ _ _ _ H1). by rewrite cons_middle, app_assoc, <- E1.
Qed.

Lemma write_blocks_app ws n d s s1 : write_blocks ws s = Ret tt s1 -> write_blocks (ws ++ [(n, d)]) s = write_blocks [(n, d)] s1.
Proof.
  revert s. induction ws as [|[m e] ws IH]; intros s H; [by injection H as ->|]. cbn [write_blocks app] in *. unfold bind at 1 in H. unfold bind at 1.
  destruct (write_block m e s); try done. by apply IH.
Qed.

(** C40: begin_op lets three operations of [MAXOPBLOCKS] blocks each start on an
    empty log of [LOGSIZE] blocks, which is what mkfs makes; when they write
    [MAXOPBLOCKS] blocks each, all different, all writes but the last return,
    and the last panics in log_write: the reservation counts one block too
    many. *)
Theorem reservation_exceeds_log b l v ws n d :
  brep b v -> v_held v = ∅ -> v_pinned v = ∅ -> log_ok l [] -> l_size l = LOGSIZE -> l_outstanding l = 0 -> l_committing l = 0 ->
  Forall (on_disk (length (v_disk v))) (fst <$> ws ++ [(n, d)]) -> NoDup (fst <$> ws ++ [(n, d)]) ->
  Z.of_nat (length (ws ++ [(n, d)])) = 3 * MAXOPBLOCKS ->
  exists s s', (begin_op ;; begin_op ;; begin_op ;; write_blocks ws) (Lst b l) = Ret tt s /\
    l_outstanding (l_log s) = 3 /\ lh_n (l_log s) = 3 * MAXOPBLOCKS - 1 /\
    (begin_op ;; begin_op ;; begin_op ;; write_blocks (ws ++ [(n, d)])) (Lst b l) = Panic "too big a transaction" s'.
Proof.
  intros R He Hp Hlo Hsz Ho Hc Hd Hnd Hlen. rewrite length_app in Hlen. change (3 * MAXOPBLOCKS) with 30 in *. simpl in Hlen. set (l3 := set_l_outstanding 3 l).
  pose proof (lo_entries _ _ Hlo) as [Hn0 _].
  assert (forall k : L unit, (begin_op ;; begin_op ;; begin_op ;; k) (Lst b l) = k (Lst b l3)) as Hb.
  { intros k. destruct l as [st sz o c dev h bl]. simpl in *. subst. done. }
  assert (writing (Lst b l3) [] (length (v_disk v))) as W by (constructor; [by exists v|by destruct Hlo|done|done]).
  rewrite fmap_app in Hd, Hnd. apply Forall_app in Hd as [Hd Hdn]. pose proof Hnd as (Hnd1 & Hx & _)%NoDup_app.
  destruct (write_blocks_ok ws _ _ _ W Hd Hnd1) as (s & Hrun & Ws & Eo); [simpl; lia|].
  apply Forall_cons in Hdn as [Hdn _].
  destruct (write_block_start s _ _ n d Ws Hdn) as (i & b' & v' & Hlast & _); [rewrite app_nil_l, length_fmap; lia|].
  pose proof (lo_entries _ _ (wr_log _ _ _ Ws)) as [Hn29 _]. rewrite app_nil_l, length_fmap in Hn29. assert (lh_n (l_log s) = 29) as E29 by lia.
  eexists s, _. rewrite !Hb. split; [done|]. split; [by rewrite Eo|]. split; [done|]. rewrite (write_blocks_app ws n d _ s Hrun). cbn [write_blocks].
  unfold bind at 1. rewrite Hlast. unfold bind at 1, log_write. rewrite getl_bind. unfold id. rewrite E29, (wr_size _ _ _ Ws). reflexivity.
Qed.

(** A disk of 64 blocks, with a log that begins at block 2. *)
Definition ex_writes : list (Z * block) := map (fun n => (n, ex_ones)) (seqZ 33 29).

Lemma reservation_exceeds_log_witness :
  exists b s s', (begin_op ;; begin_op ;; begin_op ;; write_blocks ex_writes) (Lst b (Log 2 30 0 0 1 0 (replicate 30 0))) = Ret tt s /\
    l_outstanding (l_log s) = 3 /\ lh_n (l_log s) = 29 /\
    (begin_op ;; begin_op ;; begin_op ;; write_blocks (ex_writes ++ [(62, ex_ones)])) (Lst b (Log 2 30 0 0 1 0 (replicate 30 0)))
    = Panic "too big a transaction" s'.
Proof.
  destruct (binit_ok (replicate 64 ex_zeros) 1) as (b & _ & R). exists b.
  apply (reservation_exceeds_log b (Log 2 30 0 0 1 0 (replicate 30 0)) _ ex_writes 62 ex_ones R).
  - done.
  - done.
  - by constructor.
  - done.
  - done.
  - done.
  - apply (bool_decide_unpack _). vm_compute. exact I.
  - apply (bool_decide_unpack _). vm_compute. exact I.
  - vm_compute. reflexivity.
Defined.
