(* ===== verification/Fs.v ===== *)
(** The file system (src/xv6-public/fs.c): blocks, inodes, directories and
    path names, over the log.

    A pointer to an in-memory inode is its index in the inode cache; bytes
    read into a buffer are returned as a list, and bytes written come from
    one.  The device switch is a table of functions, here a class. *)
From S2P Require Import Prelude CString Bytes Bio Log.

Definition ROOTINO : Z := 1.
Definition ROOTDEV : Z := 1.
Definition NDIRECT : Z := 12.
Definition NINDIRECT : Z := BSIZE / 4.
Definition MAXFILE : Z := NDIRECT + NINDIRECT.
Definition IPB : Z := BSIZE / 64.
Definition BPB : Z := BSIZE * 8.
Definition DIRSIZ : Z := 14.
Definition NINODE : Z := 50.
Definition NDEV : Z := 10.
Definition I_VALID : Z := 0x2.
Definition T_DIR : Z := 1.
Definition T_FILE : Z := 2.
Definition T_DEV : Z := 3.

Definition IBLOCK (i : Z) (sb : superblock) : Z := u32 (i / IPB + sb_inodestart sb).
Definition BBLOCK (b : Z) (sb : superblock) : Z := u32 (b / BPB + sb_bmapstart sb).

(** In-memory copy of an inode. *)
Record inode := Inode {
  i_dev : Z; i_inum : Z; i_ref : Z; i_lock : sleeplock; i_flags : Z;
  i_type : Z; i_major : Z; i_minor : Z; i_nlink : Z; i_size : Z; i_addrs : list Z
}.
Definition set_i_id dev inum i := Inode dev inum (i_ref i) (i_lock i) (i_flags i) (i_type i) (i_major i) (i_minor i) (i_nlink i) (i_size i) (i_addrs i).
Definition set_i_ref v i := Inode (i_dev i) (i_inum i) v (i_lock i) (i_flags i) (i_type i) (i_major i) (i_minor i) (i_nlink i) (i_size i) (i_addrs i).
Definition set_i_lock v i := Inode (i_dev i) (i_inum i) (i_ref i) v (i_flags i) (i_type i) (i_major i) (i_minor i) (i_nlink i) (i_size i) (i_addrs i).
Definition set_i_flags v i := Inode (i_dev i) (i_inum i) (i_ref i) (i_lock i) v (i_type i) (i_major i) (i_minor i) (i_nlink i) (i_size i) (i_addrs i).
Definition set_i_type v i := Inode (i_dev i) (i_inum i) (i_ref i) (i_lock i) (i_flags i) v (i_major i) (i_minor i) (i_nlink i) (i_size i) (i_addrs i).
Definition set_i_devno major minor i := Inode (i_dev i) (i_inum i) (i_ref i) (i_lock i) (i_flags i) (i_type i) major minor (i_nlink i) (i_size i) (i_addrs i).
Definition set_i_nlink v i := Inode (i_dev i) (i_inum i) (i_ref i) (i_lock i) (i_flags i) (i_type i) (i_major i) (i_minor i) v (i_size i) (i_addrs i).
Definition set_i_size v i := Inode (i_dev i) (i_inum i) (i_ref i) (i_lock i) (i_flags i) (i_type i) (i_major i) (i_minor i) (i_nlink i) v (i_addrs i).
Definition set_i_addrs v i := Inode (i_dev i) (i_inum i) (i_ref i) (i_lock i) (i_flags i) (i_type i) (i_major i) (i_minor i) (i_nlink i) (i_size i) v.

(** The log and cache, the superblock in memory, the inode cache and the
    current directory of the calling process. *)
Record fss := Fss {
  f_l : lst;
  f_sb : superblock;
  f_inodes : list inode;
  f_cwd : nat
}.
Definition set_f_l v s := Fss v (f_sb s) (f_inodes s) (f_cwd s).
Definition set_f_sb v s := Fss (f_l s) v (f_inodes s) (f_cwd s).
Definition set_f_inodes v s := Fss (f_l s) (f_sb s) v (f_cwd s).
Definition set_f_cwd v s := Fss (f_l s) (f_sb s) (f_inodes s) v.

Notation F := (M fss).

(** Code of the log, and of the buffer cache, here. *)
Definition lo {A} (c : L A) : F A := zoom f_l set_f_l c.
Definition bo {A} (c : B A) : F A := lo (io c).

Definition inode_at (ip : nat) : F inode := l <- gets f_inodes ;; get_opt "inode" (l !! ip).
Definition upd_inode (ip : nat) (f : inode -> inode) : F unit :=
  i <- inode_at ip ;; modify (fun s => set_f_inodes (<[ip := f i]> (f_inodes s)) s).

Definition inode_lock (ip : nat) : slref fss :=
  Slref (i <- inode_at ip ;; ret (i_lock i)) (fun l => upd_inode ip (set_i_lock l))
    (gets (fun s => mypid (l_bio (f_l s)))).

(** * Blocks *)

Definition bzero (dev bno : Z) : F unit :=
  bp <- bo (bread (u32 dev) (u32 bno)) ;;
  bo (b_put bp (fun _ => Some (replicate (Z.to_nat BSIZE) 0))) ;;
  lo (log_write bp) ;;
  bo (brelse bp).

(** Is bit [bi] of a bitmap block clear?  Set it; clear it. *)
Definition bit_mask (bi : Z) : Z := Z.shiftl 1 (bi mod 8).
Definition bit_free (d : block) (bi : Z) : option bool :=
  x ← arr_get d (bi / 8); Some (Z.land x (bit_mask bi) =? 0).
Definition bit_set (d : block) (bi : Z) : option block :=
  x ← arr_get d (bi / 8); arr_set d (bi / 8) (u8 (Z.lor x (bit_mask bi))).
Definition bit_clear (d : block) (bi : Z) : option block :=
  x ← arr_get d (bi / 8); arr_set d (bi / 8) (u8 (Z.land x (Z.lnot (bit_mask bi)))).

(** The inner loop's body, for the block of bits that starts at [b]. *)
Definition balloc_bit (dev b : Z) (bp : nat) (bi : Z) : F (option Z) :=
  free <- bo (b_get bp (fun d => bit_free d bi)) ;;
  if free : bool then
    bo (b_put bp (fun d => bit_set d bi)) ;;
    lo (log_write bp) ;;
    bo (brelse bp) ;;
    bzero dev (b + bi) ;;
    ret (Some (b + bi))
  else ret None.

Definition balloc_body (dev : Z) (k : Z) : F (option Z) :=
  let b := k * BPB in
  sb <- gets f_sb ;;
  bp <- bo (bread dev (BBLOCK b sb)) ;;
  r <- for_range 0 (Z.min BPB (sb_size sb - b)) (balloc_bit dev b bp) ;;
  match r with
  | Some x => ret (Some x)
  | None => bo (brelse bp) ;; ret None
  end.

Definition balloc (dev : Z) : F Z :=
  sb <- gets f_sb ;;
  r <- for_range 0 ((sb_size sb + BPB - 1) / BPB) (balloc_body dev) ;;
  match r with
  | Some x => ret x
  | None => panic "balloc: out of blocks"
  end.

Definition bfree (dev b : Z) : F unit :=
  sb <- bo (readsb (u32 dev)) ;;
  modify (set_f_sb sb) ;;
  bp <- bo (bread (u32 dev) (BBLOCK b sb)) ;;
  let bi := b mod BPB in
  free <- bo (b_get bp (fun d => bit_free d bi)) ;;
  if free : bool then panic "freeing free block" else
  bo (b_put bp (fun d => bit_clear d bi)) ;;
  lo (log_write bp) ;;
  bo (brelse bp).

(** * Inodes *)

(** struct dinode at offset [o] of a block. *)
Definition sizeof_dinode : nat := 64.
Definition off_dinode (inum : Z) : nat := (sizeof_dinode * Z.to_nat (inum mod IPB))%nat.

Fixpoint get_uints (k : nat) (d : block) (o : nat) : option (list Z) :=
  match k with
  | O => Some []
  | S k' => x ← get_uint d o; xs ← get_uints k' d (o + 4); Some (x :: xs)
  end.
Fixpoint put_uints (d : block) (o : nat) (xs : list Z) : block :=
  match xs with
  | [] => d
  | x :: xs' => put_uints (le_put 4 d o x) (o + 4) xs'
  end.

(** The fields of [i] that are on disk, from the dinode at [o]. *)
Definition get_dinode (d : block) (o : nat) (i : inode) : option inode :=
  type ← get_short d o; major ← get_short d (o + 2); minor ← get_short d (o + 4);
  nlink ← get_short d (o + 6); size ← get_uint d (o + 8);
  addrs ← get_uints 13 d (o + 12);
  Some (Inode (i_dev i) (i_inum i) (i_ref i) (i_lock i) (i_flags i) type major minor nlink size addrs).

Definition put_dinode (d : block) (o : nat) (i : inode) : option block :=
  if (o + sizeof_dinode <=? length d)%nat && (length (i_addrs i) =? 13)%nat then
    let d := le_put 2 d o (i_type i) in
    let d := le_put 2 d (o + 2) (i_major i) in
    let d := le_put 2 d (o + 4) (i_minor i) in
    let d := le_put 2 d (o + 6) (i_nlink i) in
    let d := le_put 4 d (o + 8) (i_size i) in
    Some (put_uints d (o + 12) (i_addrs i))
  else None.

(** memset(dip, 0, sizeof dip), then the type. *)
Definition zero_dinode (d : block) (o : nat) (type : Z) : option block :=
  if (o + sizeof_dinode <=? length d)%nat then
    Some (le_put 2 (take o d ++ replicate sizeof_dinode 0 ++ drop (o + sizeof_dinode) d) o type)
  else None.

Definition iinit (dev : Z) : F unit :=
  modify (fun s => set_f_inodes (map (set_i_lock initsleeplock) (f_inodes s)) s) ;;
  sb <- bo (readsb (u32 dev)) ;;
  modify (set_f_sb sb).

(** The scan of iget: the entry for the inode, and the first empty entry. *)
Fixpoint iget_scan (dev inum : Z) (l : list inode) (ip : nat) (empty : option nat) : option nat * option nat :=
  match l with
  | [] => (None, empty)
  | i :: l' =>
      if (0 <? i_ref i) && (i_dev i =? dev) && (i_inum i =? inum) then (Some ip, empty)
      else iget_scan dev inum l' (S ip)
             (match empty with Some e => Some e | None => if i_ref i =? 0 then Some ip else None end)
  end.

Definition iget (dev inum : Z) : F nat :=
  l <- gets f_inodes ;;
  match iget_scan dev inum l 0 None with
  | (Some ip, _) => upd_inode ip (fun i => set_i_ref (i_ref i + 1) i) ;; ret ip
  | (None, None) => panic "iget: no inodes"
  | (None, Some ip) =>
      upd_inode ip (fun i => set_i_flags 0 (set_i_ref 1 (set_i_id dev inum i))) ;;
      ret ip
  end.

Definition ialloc_body (dev type : Z) (inum : Z) : F (option nat) :=
  sb <- gets f_sb ;;
  bp <- bo (bread dev (IBLOCK inum sb)) ;;
  t <- bo (b_get bp (fun d => get_short d (off_dinode inum))) ;;
  if t =? 0 then
    bo (b_put bp (fun d => zero_dinode d (off_dinode inum) type)) ;;
    lo (log_write bp) ;;
    bo (brelse bp) ;;
    ip <- iget dev inum ;;
    ret (Some ip)
  else
    bo (brelse bp) ;;
    ret None.

Definition ialloc (dev type : Z) : F nat :=
  sb <- gets f_sb ;;
  r <- for_range 1 (sb_ninodes sb) (ialloc_body dev type) ;;
  match r with
  | Some ip => ret ip
  | None => panic "ialloc: no inodes"
  end.

Definition iupdate (ip : nat) : F unit :=
  i <- inode_at ip ;;
  sb <- gets f_sb ;;
  bp <- bo (bread (i_dev i) (IBLOCK (i_inum i) sb)) ;;
  bo (b_put bp (fun d => put_dinode d (off_dinode (i_inum i)) i)) ;;
  lo (log_write bp) ;;
  bo (brelse bp).

Definition idup (ip : nat) : F nat :=
  upd_inode ip (fun i => set_i_ref (i_ref i + 1) i) ;;
  ret ip.

Definition ilock (ip : nat) : F unit :=
  i <- inode_at ip ;;
  if i_ref i <? 1 then panic "ilock" else
  acquiresleep (inode_lock ip) ;;
  i <- inode_at ip ;;
  if Z.land (i_flags i) I_VALID =? 0 then
    sb <- gets f_sb ;;
    bp <- bo (bread (i_dev i) (IBLOCK (i_inum i) sb)) ;;
    i' <- bo (b_get bp (fun d => get_dinode d (off_dinode (i_inum i)) i)) ;;
    upd_inode ip (fun _ => i') ;;
    bo (brelse bp) ;;
    upd_inode ip (fun i => set_i_flags (Z.lor (i_flags i) I_VALID) i) ;;
    i <- inode_at ip ;;
    if i_type i =? 0 then panic "ilock: no type" else ret tt
  else ret tt.

Definition iunlock (ip : nat) : F unit :=
  h <- holdingsleep (inode_lock ip) ;;
  if negb h then panic "iunlock" else
  i <- inode_at ip ;;
  if i_ref i <? 1 then panic "iunlock" else
  releasesleep (inode_lock ip).

(** * Inode content *)

Definition bmap (ip : nat) (bn : Z) : F Z :=
  i <- inode_at ip ;;
  if bn <? NDIRECT then
    addr <- get_opt "addrs" (arr_get (i_addrs i) bn) ;;
    if addr =? 0 then
      addr <- balloc (i_dev i) ;;
      upd_inode ip (fun i => set_i_addrs (<[Z.to_nat bn := addr]> (i_addrs i)) i) ;;
      ret addr
    else ret addr
  else
    let bn := bn - NDIRECT in
    if bn <? NINDIRECT then
      addr <- get_opt "addrs" (arr_get (i_addrs i) NDIRECT) ;;
      addr <- (if addr =? 0 then
                 addr <- balloc (i_dev i) ;;
                 upd_inode ip (fun i => set_i_addrs (<[Z.to_nat NDIRECT := addr]> (i_addrs i)) i) ;;
                 ret addr
               else ret addr) ;;
      bp <- bo (bread (i_dev i) addr) ;;
      addr <- bo (b_get bp (fun d => get_uint d (4 * Z.to_nat bn))) ;;
      addr <- (if addr =? 0 then
                 addr <- balloc (i_dev i) ;;
                 bo (b_put bp (fun d => put_int d (4 * Z.to_nat bn) addr)) ;;
                 lo (log_write bp) ;;
                 ret addr
               else ret addr) ;;
      bo (brelse bp) ;;
      ret addr
    else panic "bmap: out of range".

Definition itrunc_direct (ip : nat) (k : Z) : F unit :=
  i <- inode_at ip ;;
  a <- get_opt "addrs" (arr_get (i_addrs i) k) ;;
  if negb (a =? 0) then
    bfree (i_dev i) a ;;
    upd_inode ip (fun i => set_i_addrs (<[Z.to_nat k := 0]> (i_addrs i)) i)
  else ret tt.

Definition itrunc_indirect (dev : Z) (bp : nat) (j : Z) : F unit :=
  a <- bo (b_get bp (fun d => get_uint d (4 * Z.to_nat j))) ;;
  if negb (a =? 0) then bfree dev a else ret tt.

Definition itrunc (ip : nat) : F unit :=
  for_each 0 NDIRECT (itrunc_direct ip) ;;
  i <- inode_at ip ;;
  a <- get_opt "addrs" (arr_get (i_addrs i) NDIRECT) ;;
  (if negb (a =? 0) then
     bp <- bo (bread (i_dev i) a) ;;
     for_each 0 NINDIRECT (itrunc_indirect (i_dev i) bp) ;;
     bo (brelse bp) ;;
     bfree (i_dev i) a ;;
     upd_inode ip (fun i => set_i_addrs (<[Z.to_nat NDIRECT := 0]> (i_addrs i)) i)
   else ret tt) ;;
  upd_inode ip (set_i_size 0) ;;
  iupdate ip.

Definition iput (ip : nat) : F unit :=
  i <- inode_at ip ;;
  (if (i_ref i =? 1) && negb (Z.land (i_flags i) I_VALID =? 0) && (i_nlink i =? 0) then
     itrunc ip ;;
     upd_inode ip (set_i_type 0) ;;
     iupdate ip ;;
     upd_inode ip (set_i_flags 0)
   else ret tt) ;;
  upd_inode ip (fun i => set_i_ref (i_ref i - 1) i).

Definition iunlockput (ip : nat) : F unit := iunlock ip ;; iput ip.

Record stat := Stat { st_type : Z; st_dev : Z; st_ino : Z; st_nlink : Z; st_size : Z }.

Definition stati (ip : nat) : F stat :=
  i <- inode_at ip ;;
  ret (Stat (i_type i) (i_dev i) (i_inum i) (i_nlink i) (i_size i)).

(** The functions of the devices, by major number. *)
Class Devsw := {
  dev_read : Z -> option (nat -> Z -> F (Z * list Z));
  dev_write : Z -> option (nat -> list Z -> Z -> F Z)
}.

(** * Files and directories *)

Section Dev.
Context {DEV : Devsw}.

(** The loop of readi; each iteration reads at least one byte. *)
Fixpoint readi_loop (fuel : nat) (ip : nat) (off n tot : Z) (dst : list Z) : F (list Z) :=
  match fuel with
  | O => fun s => OutOfFuel s
  | S fuel' =>
      if tot <? n then
        i <- inode_at ip ;;
        a <- bmap ip (off / BSIZE) ;;
        bp <- bo (bread (i_dev i) a) ;;
        let m := Z.min (n - tot) (BSIZE - off mod BSIZE) in
        d <- bo (b_get bp Some) ;;
        bo (brelse bp) ;;
        readi_loop fuel' ip (off + m) n (tot + m)
          (dst ++ take (Z.to_nat m) (drop (Z.to_nat (off mod BSIZE)) d))
      else ret dst
  end.

Definition readi (ip : nat) (off n : Z) : F (Z * list Z) :=
  i <- inode_at ip ;;
  if i_type i =? T_DEV then
    if (i_major i <? 0) || (i_major i >=? NDEV) then ret (-1, []) else
    match dev_read (i_major i) with
    | None => ret (-1, [])
    | Some read => read ip (s32 n)
    end
  else if (off >? i_size i) || (u32 (off + n) <? off) then ret (-1, [])
  else
    let n := if u32 (off + n) >? i_size i then u32 (i_size i - off) else n in
    dst <- readi_loop (S (Z.to_nat n)) ip off n 0 [] ;;
    ret (s32 n, dst).

(** memmove(bp->data + o, src, m). *)
Definition put_slice (d : block) (o : nat) (src : list Z) : option block :=
  if (o + length src <=? length d)%nat then Some (take o d ++ src ++ drop (o + length src) d) else None.

Fixpoint writei_loop (fuel : nat) (ip : nat) (src : list Z) (off n tot : Z) : F Z :=
  match fuel with
  | O => fun s => OutOfFuel s
  | S fuel' =>
      if tot <? n then
        i <- inode_at ip ;;
        a <- bmap ip (off / BSIZE) ;;
        bp <- bo (bread (i_dev i) a) ;;
        let m := Z.min (n - tot) (BSIZE - off mod BSIZE) in
        bo (b_put bp (fun d => put_slice d (Z.to_nat (off mod BSIZE)) (take (Z.to_nat m) src))) ;;
        lo (log_write bp) ;;
        bo (brelse bp) ;;
        writei_loop fuel' ip (drop (Z.to_nat m) src) (off + m) n (tot + m)
      else ret off
  end.

Definition writei (ip : nat) (src : list Z) (off n : Z) : F Z :=
  i <- inode_at ip ;;
  if i_type i =? T_DEV then
    if (i_major i <? 0) || (i_major i >=? NDEV) then ret (-1) else
    match dev_write (i_major i) with
    | None => ret (-1)
    | Some write => write ip src (s32 n)
    end
  else if (off >? i_size i) || (u32 (off + n) <? off) then ret (-1)
  else if u32 (off + n) >? MAXFILE * BSIZE then ret (-1)
  else
    off <- writei_loop (S (Z.to_nat n)) ip src off n 0 ;;
    i <- inode_at ip ;;
    (if (n >? 0) && (off >? i_size i) then
       upd_inode ip (set_i_size off) ;;
       iupdate ip
     else ret tt) ;;
    ret (s32 n).

(** Two names, up to DIRSIZ bytes, in a memory. *)
Definition namecmp (s t : list Z) : Z :=
  strncmp (place s 0 (place t 0x100 mem0)) 0 0x100 (Z.to_nat DIRSIZ).

Definition sizeof_dirent : Z := 16.
Definition de_inum (de : list Z) : option Z := get_ushort de 0.
Definition de_name (de : list Z) : list Z := drop 2 de.

Definition dirlookup_body (dp : nat) (name : list Z) (k : Z) : F (option (Z * Z)) :=
  let off := k * sizeof_dirent in
  r <- readi dp off sizeof_dirent ;;
  if negb (fst r =? sizeof_dirent) then panic "dirlink read" else
  inum <- get_opt "dirent" (de_inum (snd r)) ;;
  if inum =? 0 then ret None
  else if namecmp name (de_name (snd r)) =? 0 then ret (Some (inum, off))
  else ret None.

(** The entry's inode and its offset. *)
Definition dirlookup (dp : nat) (name : list Z) : F (option (nat * Z)) :=
  i <- inode_at dp ;;
  if negb (i_type i =? T_DIR) then panic "dirlookup not DIR" else
  r <- for_range 0 ((i_size i + sizeof_dirent - 1) / sizeof_dirent) (dirlookup_body dp name) ;;
  match r with
  | Some (inum, off) => ip <- iget (i_dev i) inum ;; ret (Some (ip, off))
  | None => ret None
  end.

Definition dirlink_body (dp : nat) (k : Z) : F (option Z) :=
  let off := k * sizeof_dirent in
  r <- readi dp off sizeof_dirent ;;
  if negb (fst r =? sizeof_dirent) then panic "dirlink read" else
  inum <- get_opt "dirent" (de_inum (snd r)) ;;
  if inum =? 0 then ret (Some off) else ret None.

(** A struct dirent with strncpy(de.name, name, DIRSIZ). *)
Definition make_dirent (inum : Z) (name : list Z) : list Z :=
  le_put 2 [0; 0] 0 inum ++
  region (strncpy (place name 0x100 mem0) 0 0x100 (Z.to_nat DIRSIZ)) 0 (Z.to_nat DIRSIZ).

Definition dirlink (dp : nat) (name : list Z) (inum : Z) : F Z :=
  r <- dirlookup dp name ;;
  match r with
  | Some (ip, _) => iput ip ;; ret (-1)
  | None =>
      i <- inode_at dp ;;
      let k := (i_size i + sizeof_dirent - 1) / sizeof_dirent in
      r <- for_range 0 k (dirlink_body dp) ;;
      let off := match r with Some off => off | None => k * sizeof_dirent end in
      w <- writei dp (make_dirent inum name) off sizeof_dirent ;;
      if negb (w =? sizeof_dirent) then panic "dirlink" else ret 0
  end.

(** * Paths *)

Definition SLASH : Z := 47.

(** [while(path[0] == '/') path++]: the path without its leading slashes. *)
Fixpoint skip_slashes (path : list Z) : list Z :=
  match path with
  | c :: path' => if c =? SLASH then skip_slashes path' else path
  | [] => []
  end.

(** The element before the next slash, and what follows it. *)
Fixpoint split_elem (path : list Z) : list Z * list Z :=
  match path with
  | c :: path' =>
      if c =? SLASH then ([], path)
      else let (s, r) := split_elem path' in (c :: s, r)
  | [] => ([], [])
  end.

(** A path is its bytes before the NUL; [name] is the buffer of DIRSIZ bytes. *)
Definition skipelem (path name : list Z) : option (list Z * list Z) :=
  match skip_slashes path with
  | [] => None
  | path =>
      let (s, rest) := split_elem path in
      let len := length s in
      let name := if (Z.to_nat DIRSIZ <=? len)%nat then take (Z.to_nat DIRSIZ) s
                  else s ++ 0 :: drop (S len) name in
      Some (skip_slashes rest, name)
  end.

Fixpoint namex_loop (fuel : nat) (ip : nat) (path name : list Z) (nameiparent : bool)
    : F (option nat * list Z) :=
  match fuel with
  | O => fun s => OutOfFuel s
  | S fuel' =>
      match skipelem path name with
      | None =>
          if nameiparent then iput ip ;; ret (None, name)
          else ret (Some ip, name)
      | Some (path, name) =>
          ilock ip ;;
          i <- inode_at ip ;;
          if negb (i_type i =? T_DIR) then iunlockput ip ;; ret (None, name)
          else if nameiparent && match path with [] => true | _ => false end then
            iunlock ip ;; ret (Some ip, name)
          else
            next <- dirlookup ip name ;;
            match next with
            | None => iunlockput ip ;; ret (None, name)
            | Some (next, _) => iunlockput ip ;; namex_loop fuel' next path name nameiparent
            end
      end
  end.

Definition namex (path : list Z) (nameiparent : bool) (name : list Z) : F (option nat * list Z) :=
  ip <- (if match path with c :: _ => c =? SLASH | [] => false end then iget ROOTDEV ROOTINO
         else cwd <- gets f_cwd ;; idup cwd) ;;
  namex_loop (S (length path)) ip path name nameiparent.

Definition namei (path : list Z) : F (option nat) :=
  r <- namex path false (replicate (Z.to_nat DIRSIZ) 0) ;;
  ret (fst r).

Definition nameiparent (path name : list Z) : F (option nat * list Z) := namex path true name.
End Dev.
