(* ===== verification/FsSpec.v ===== *)
(** Blocks inside a transaction: reading a block and changing a block through
    the cache and the log, and from these balloc, bfree and the inode
    operations of fs.c as changes of the blocks a reader sees. *)
From S2P Require Import Prelude CString Bytes Bio BioSpec Log LogSpec LogCrash LogWrite Fs.

(** A log and cache in the middle of a transaction that has changed [hs]. *)
Record in_tx (s : lst) (v : vdisk) (hs : list Z) : Prop := InTx {
  it_brep : brep (l_bio s) v;
  it_log : log_ok (l_log s) hs;
  it_pinned : v_pinned v = list_to_set hs;
  it_nodup : NoDup hs;
  it_max : Z.of_nat (length (v_disk v)) <= INT_MAX;
  it_size : l_size (l_log s) <= LOGSIZE;
  it_out : 1 <= l_outstanding (l_log s);
  it_clean : forall n, n ∉ hs -> arr_get (v_view v) n = arr_get (v_disk v) n
}.

(** Room in the log for [k] more blocks, and in the cache for [j] more
    buffers than the held ones. *)
Definition budget (s : lst) (v : vdisk) (hs : list Z) (j k : nat) : Prop :=
  (length hs + k < Z.to_nat (l_size (l_log s)))%nat /\
  (size (v_held v) + j + length hs + k <= 30)%nat.

(** Block [n] is changed in the transaction. *)
Definition v_upd (n : Z) (d : block) (v : vdisk) : vdisk :=
  VDisk (v_disk v) (<[Z.to_nat n := d]> (v_view v)) (v_held v) ({[n]} ∪ v_pinned v) (v_hist v).

Lemma tx_has_room s v hs j k : in_tx s v hs -> budget s v hs (S j) k -> room v.
Proof.
  intros [R Hlo Hp Hnd Hmax Hsz Hout Hcl] [H1 H2]. unfold room. change (Z.to_nat NBUF) with 30%nat.
  rewrite size_union_alt. rewrite size_dom.
  assert (size (v_pinned v ∖ dom (v_held v)) <= length hs)%nat; [|lia].
  rewrite <- (size_list_to_set (C := gset Z) hs Hnd), <- Hp. apply subseteq_size. set_solver.
Qed.

Lemma drop_hold n i v : v_held v !! n = None -> v_drop n (v_hold n i v) = v.
Proof. intros H. unfold v_drop, v_hold. simpl. rewrite delete_insert_id by done. by destruct v. Qed.

(** Taking a block, in a transaction. *)
Lemma tx_bread s v hs n j k :
  in_tx s v hs -> budget s v hs (S j) k -> v_held v !! n = None -> 0 <= n < Z.of_nat (length (v_disk v)) ->
  exists i s', io (bread 1 n) s = Ret i s' /\ in_tx s' (v_hold n i v) hs /\ budget s' (v_hold n i v) hs j k /\
    l_log s' = l_log s.
Proof.
  intros T Hb Hh Hn. pose proof (tx_has_room _ _ _ _ _ T Hb) as Hroom. destruct T, s as [b l]. simpl in *.
  destruct (bread_ok b v n it_brep0 Hn Hh (or_intror Hroom)) as (i & b' & H1 & R1).
  exists i, (Lst b' l). split; [by apply io_Ret|]. split; [by split|]. split; [|done].
  destruct Hb as [Hb1 Hb2]. split; [done|]. simpl. rewrite map_size_insert_None by done. lia.
Qed.

Lemma tx_get {A} s v hs n i d (f : block -> option A) a :
  in_tx s v hs -> v_held v !! n = Some i -> arr_get (v_view v) n = Some d -> f d = Some a ->
  io (b_get i f) s = Ret a s.
Proof.
  intros T Hh Hd Hf. destruct s as [b l]. apply io_Ret. eapply b_get_ok; [apply T|done|done|done].
Qed.

(** Changing a held block and recording it in the log. *)
Lemma tx_put s v hs n i d f d' j k :
  in_tx s v hs -> budget s v hs j (S k) -> v_held v !! n = Some i ->
  arr_get (v_view v) n = Some d -> f d = Some d' ->
  exists s1 s2, io (b_put i f) s = Ret tt s1 /\ log_write i s1 = Ret tt s2 /\
    in_tx s2 (v_upd n d' v) (add_home n hs) /\ budget s2 (v_upd n d' v) (add_home n hs) j k.
Proof.
  intros [R Hlo Hp Hnd Hmax Hsz Hout Hcl] [Hb1 Hb2] Hh Hd Hf. destruct s as [b l]. simpl in *.
  destruct (b_put_ok b v n i d f d' R Hh Hd Hf) as (b1 & H1 & R1).
  pose proof (held_bound _ _ _ _ R Hh) as Hn. change LOGSIZE with 30 in Hsz.
  assert (lh_n l = Z.of_nat (length hs)) as Hln by apply Hlo.
  destruct (log_write_ok b1 l _ hs n i R1 Hlo) as (b2 & l2 & H2 & R2 & Hlo2 & Hsame); try done; try lia.
  { change LOGSIZE with 30. lia. }
  destruct Hsame as (_ & Hsz2 & Hout2 & _ & _).
  exists (Lst b1 l), (Lst b2 l2). split; [by apply io_Ret|]. split; [done|]. split.
  - split; simpl; try done.
    + rewrite Hp. apply set_eq. intros x. rewrite elem_of_union, elem_of_singleton, !elem_of_list_to_set.
      rewrite elem_of_add_home. done.
    + by apply NoDup_add_home.
    + change LOGSIZE with 30. lia.
    + lia.
    + intros m Hm. rewrite elem_of_add_home in Hm. rewrite arr_get_set by (rewrite (br_len _ _ R); lia).
      rewrite decide_False by naive_solver. apply Hcl. naive_solver.
  - pose proof (length_add_home n hs). split; simpl; [rewrite Hsz2; lia|lia].
Qed.

(** Giving back a block. *)
Lemma tx_brelse s v hs n i j k :
  in_tx s v hs -> budget s v hs j k -> v_held v !! n = Some i ->
  exists s', io (brelse i) s = Ret tt s' /\ in_tx s' (v_drop n v) hs /\ budget s' (v_drop n v) hs (S j) k /\
    l_log s' = l_log s.
Proof.
  intros [R Hlo Hp Hnd Hmax Hsz Hout Hcl] [Hb1 Hb2] Hh. destruct s as [b l]. simpl in *.
  destruct (brelse_ok b v n i R Hh) as (b' & H1 & R1).
  { destruct (decide (n ∈ hs)); [left|right; by apply Hcl]. rewrite Hp. by apply elem_of_list_to_set. }
  exists (Lst b' l). split; [by apply io_Ret|]. split; [by split|]. split; [|done]. split; [done|]. simpl.
  rewrite map_size_delete, Hh. simpl. enough (size (v_held v) <> 0)%nat by lia.
  apply map_size_non_empty_iff. intros E. by rewrite E in Hh.
Qed.

(** * In the file system's state *)

(** A transaction with [j] buffers and [k] log blocks to spare. *)
Record ftx (s : fss) (v : vdisk) (hs : list Z) (j k : nat) : Prop := Ftx {
  ft_tx : in_tx (f_l s) v hs;
  ft_budget : budget (f_l s) v hs j k
}.

(** What the layers below do not touch. *)
Definition same_top (s s' : fss) : Prop :=
  f_sb s' = f_sb s /\ f_inodes s' = f_inodes s /\ f_cwd s' = f_cwd s.

Lemma same_top_refl s : same_top s s.
Proof. done. Qed.

Lemma same_top_trans s1 s2 s3 : same_top s1 s2 -> same_top s2 s3 -> same_top s1 s3.
Proof. unfold same_top. intros (? & ? & ?) (? & ? & ?). repeat split; congruence. Qed.

Lemma lo_Ret {A} (c : L A) s a l : c (f_l s) = Ret a l -> lo c s = Ret a (set_f_l l s).
Proof. intros H. unfold lo, zoom. by rewrite H. Qed.

(** A sequence of calls of the buffer cache as one call. *)
Lemma bo_seq {A X} (c : B A) (f : A -> B X) s a s1 x s2 :
  bo c s = Ret a s1 -> bo (f a) s1 = Ret x s2 -> bo (bind c f) s = Ret x s2.
Proof.
  unfold bo, lo, zoom, io, zoom, bind. intros H1 H2. destruct s as [[b l] sb ino cwd]. simpl in *.
  destruct (c b) as [a' b'| | | | |]; simplify_eq/=. destruct (f a b') as [x' b''| | | | |]; by simplify_eq/=.
Qed.

Lemma f_bread s v hs n j k :
  ftx s v hs (S j) k -> v_held v !! n = None -> 0 <= n < Z.of_nat (length (v_disk v)) ->
  exists i s', bo (bread 1 n) s = Ret i s' /\ ftx s' (v_hold n i v) hs j k /\ same_top s s'.
Proof.
  intros [T Hb] Hh Hn. destruct (tx_bread _ _ _ n j k T Hb Hh Hn) as (i & l & H1 & T1 & B1 & _).
  exists i, (set_f_l l s). split; [by apply lo_Ret|]. split; [by split|done].
Qed.

Lemma f_get {A} s v hs n i d (f : block -> option A) a j k :
  ftx s v hs j k -> v_held v !! n = Some i -> arr_get (v_view v) n = Some d -> f d = Some a ->
  bo (b_get i f) s = Ret a s.
Proof.
  intros [T _] Hh Hd Hf. unfold bo. rewrite (lo_Ret _ _ _ _ (tx_get _ _ _ _ _ _ _ _ T Hh Hd Hf)).
  by destruct s.
Qed.

Lemma f_put s v hs n i d f d' j k :
  ftx s v hs j (S k) -> v_held v !! n = Some i -> arr_get (v_view v) n = Some d -> f d = Some d' ->
  exists s1 s2, bo (b_put i f) s = Ret tt s1 /\ lo (log_write i) s1 = Ret tt s2 /\
    ftx s2 (v_upd n d' v) (add_home n hs) j k /\ same_top s s2.
Proof.
  intros [T Hb] Hh Hd Hf. destruct (tx_put _ _ _ n i d f d' j k T Hb Hh Hd Hf) as (l1 & l2 & H1 & H2 & T2 & B2).
  exists (set_f_l l1 s), (set_f_l l2 s). split; [by apply lo_Ret|]. split; [exact (lo_Ret _ (set_f_l l1 s) _ _ H2)|]. split; [by split|done].
Qed.

Lemma f_brelse s v hs n i j k :
  ftx s v hs j k -> v_held v !! n = Some i ->
  exists s', bo (brelse i) s = Ret tt s' /\ ftx s' (v_drop n v) hs (S j) k /\ same_top s s'.
Proof.
  intros [T Hb] Hh. destruct (tx_brelse _ _ _ n i j k T Hb Hh) as (l & H1 & T1 & B1 & _).
  exists (set_f_l l s). split; [by apply lo_Ret|]. split; [by split|done].
Qed.

Lemma f_view s v hs j k n : ftx s v hs j k ->
  0 <= n < Z.of_nat (length (v_disk v)) -> exists d, arr_get (v_view v) n = Some d.
Proof. intros [[R _ _ _ _ _ _ _] _] Hn. apply arr_get_Some. by rewrite (br_len _ _ R). Qed.

(** One block is changed, and given back. *)
Lemma f_change s v hs n d f d' j k :
  ftx s v hs (S j) (S k) -> v_held v !! n = None -> arr_get (v_view v) n = Some d -> f d = Some d' ->
  exists i s1 s2 s3 s4, bo (bread 1 n) s = Ret i s1 /\ bo (b_put i f) s1 = Ret tt s2 /\
    lo (log_write i) s2 = Ret tt s3 /\ bo (brelse i) s3 = Ret tt s4 /\
    ftx s4 (v_upd n d' v) (add_home n hs) (S j) k /\ same_top s s4.
Proof.
  intros T Hh Hd Hf. assert (0 <= n < Z.of_nat (length (v_disk v))) as Hn.
  { pose proof (arr_get_bounds _ _ _ Hd) as H. by rewrite (br_len _ _ (it_brep _ _ _ (ft_tx _ _ _ _ _ T))) in H. }
  destruct (f_bread _ _ _ n _ _ T Hh Hn) as (i & s1 & H1 & T1 & E1).
  destruct (f_put _ _ _ n i d f d' _ _ T1) as (s2 & s3 & H2 & H3 & T3 & E3); [by simpl; rewrite lookup_insert_eq|done|done|].
  destruct (f_brelse _ _ _ n i _ _ T3) as (s4 & H4 & T4 & E4); [by simpl; rewrite lookup_insert_eq|].
  exists i, s1, s2, s3, s4. do 4 (split; [done|]). split.
  - unfold v_upd, v_hold, v_drop in *. simpl in *. by rewrite delete_insert_id in T4 by done.
  - by eapply same_top_trans, same_top_trans.
Qed.

(** One block is looked at, and given back. *)
Lemma f_peek s v hs n d j k :
  ftx s v hs (S j) k -> v_held v !! n = None -> arr_get (v_view v) n = Some d ->
  exists i s1 s2, bo (bread 1 n) s = Ret i s1 /\
    (forall A (f : block -> option A) a, f d = Some a -> bo (b_get i f) s1 = Ret a s1) /\
    bo (brelse i) s1 = Ret tt s2 /\ ftx s2 v hs (S j) k /\ same_top s s1 /\ same_top s s2.
Proof.
  intros T Hh Hd. assert (0 <= n < Z.of_nat (length (v_disk v))) as Hn.
  { pose proof (arr_get_bounds _ _ _ Hd) as H. by rewrite (br_len _ _ (it_brep _ _ _ (ft_tx _ _ _ _ _ T))) in H. }
  destruct (f_bread _ _ _ n _ _ T Hh Hn) as (i & s1 & H1 & T1 & E1).
  destruct (f_brelse _ _ _ n i _ _ T1) as (s2 & H2 & T2 & E2); [by simpl; rewrite lookup_insert_eq|].
  exists i, s1, s2. split; [done|]. split; [|split; [done|split; [|split; [done|by eapply same_top_trans]]]].
  - intros A f a Hf. eapply f_get; [done|by simpl; rewrite lookup_insert_eq|done|done].
  - by rewrite drop_hold in T2.
Qed.
