(* ===== verification/FsBlocks.v ===== *)
(** balloc and bfree of fs.c: the bitmap of used blocks. *)
From S2P Require Import Prelude CString Bytes Bio BioSpec Log LogSpec LogCrash LogWrite Fs FsSpec.

Definition zero_block : block := replicate (Z.to_nat BSIZE) 0.

(** The bit of block [b], as a reader of the disk sees it. *)
Definition used (v : vdisk) (sb : superblock) (b : Z) (u : bool) : Prop :=
  exists d, arr_get (v_view v) (BBLOCK b sb) = Some d /\ bit_free d (b mod BPB) = Some (negb u).

(** * Bits *)

Lemma mask_pow bi : 0 <= bi -> bit_mask bi = 2 ^ (bi mod 8).
Proof. intros H. unfold bit_mask. rewrite Z.shiftl_mul_pow2, Z.mul_1_l; [done|]. apply Z.mod_pos_bound. lia. Qed.

Lemma land_mask x bi : 0 <= bi -> (Z.land x (bit_mask bi) =? 0) = negb (Z.testbit x (bi mod 8)).
Proof.
  intros H. rewrite mask_pow by done. pose proof (Z.mod_pos_bound bi 8 ltac:(lia)) as Hb.
  destruct (Z.testbit x (bi mod 8)) eqn:E; simpl.
  - apply Z.eqb_neq. intros E0. assert (Z.testbit (Z.land x (2 ^ (bi mod 8))) (bi mod 8) = false) as E1.
    { by rewrite E0, Z.testbit_0_l. }
    rewrite Z.land_spec, E, Z.pow2_bits_true in E1 by lia. done.
  - apply Z.eqb_eq, Z.bits_inj. intros k. rewrite Z.land_spec, Z.testbit_0_l.
    destruct (Z.eq_dec k (bi mod 8)) as [->|Hne]; [by rewrite E|].
    rewrite Z.pow2_bits_false by lia. apply andb_false_r.
Qed.

(** A bit of a byte array as a boolean. *)
Definition bit_at (d : block) (bi : Z) : option bool :=
  x ← arr_get d (bi / 8); Some (Z.testbit x (bi mod 8)).

Lemma bit_free_at d bi : 0 <= bi -> bit_free d bi = negb <$> bit_at d bi.
Proof.
  intros H. unfold bit_free, bit_at. destruct (arr_get d (bi / 8)) as [x|]; [|done]. simpl.
  by rewrite land_mask.
Qed.

Lemma testbit_u8 x k : 0 <= k < 8 -> Z.testbit (u8 x) k = Z.testbit x k.
Proof. intros H. unfold u8. change 256 with (2 ^ 8). rewrite Z.mod_pow2_bits_low; [done|lia]. Qed.

(** Setting or clearing one bit changes that bit only. *)
Lemma bit_update d bi (x x' : Z) (u : bool) :
  0 <= bi -> arr_get d (bi / 8) = Some x ->
  (forall k, 0 <= k < 8 -> Z.testbit x' k = if k =? bi mod 8 then u else Z.testbit x k) ->
  exists d', arr_set d (bi / 8) (u8 x') = Some d' /\ length d' = length d /\
    forall j, 0 <= j -> bit_at d' j = if decide (j = bi) then Some u else bit_at d j.
Proof.
  intros Hbi Hx Hbits. pose proof (arr_get_bounds _ _ _ Hx) as Hb.
  eexists. split; [by apply arr_set_ok|]. split; [apply length_insert|]. intros j Hj. unfold bit_at.
  rewrite arr_get_set by done. pose proof (Z.mod_pos_bound j 8 ltac:(lia)) as Hj8.
  pose proof (Z.div_mod j 8 ltac:(lia)). pose proof (Z.div_mod bi 8 ltac:(lia)).
  destruct (decide (j / 8 = bi / 8)) as [E|E].
  - simpl. rewrite testbit_u8, Hbits by done. rewrite E, Hx. simpl.
    destruct (Z.eqb_spec (j mod 8) (bi mod 8)), (decide (j = bi)); congruence || lia.
  - rewrite decide_False by congruence. done.
Qed.

Lemma bit_set_ok d bi x :
  0 <= bi -> arr_get d (bi / 8) = Some x ->
  exists d', bit_set d bi = Some d' /\ length d' = length d /\
    forall j, 0 <= j -> bit_at d' j = if decide (j = bi) then Some true else bit_at d j.
Proof.
  intros Hbi Hx. unfold bit_set. rewrite Hx. simpl. apply bit_update with (x := x); [done|done|].
  intros k Hk. rewrite mask_pow, Z.lor_spec, Z.pow2_bits_eqb by (done || apply Z.mod_pos_bound; lia).
  rewrite Z.eqb_sym. destruct (Z.eqb_spec k (bi mod 8)); [apply orb_true_r|apply orb_false_r].
Qed.

Lemma bit_clear_ok d bi x :
  0 <= bi -> arr_get d (bi / 8) = Some x ->
  exists d', bit_clear d bi = Some d' /\ length d' = length d /\
    forall j, 0 <= j -> bit_at d' j = if decide (j = bi) then Some false else bit_at d j.
Proof.
  intros Hbi Hx. unfold bit_clear. rewrite Hx. simpl. apply bit_update with (x := x); [done|done|].
  intros k Hk. rewrite mask_pow, Z.land_spec, Z.lnot_spec, Z.pow2_bits_eqb
    by (done || lia || apply Z.mod_pos_bound; lia).
  rewrite (Z.eqb_sym (bi mod 8)). destruct (Z.eqb_spec k (bi mod 8)); [apply andb_false_r|apply andb_true_r].
Qed.

(** * balloc *)

Lemma bzero_ok s v hs b d j k :
  ftx s v hs (S j) (S k) -> v_held v !! b = None -> arr_get (v_view v) b = Some d -> b <= INT_MAX ->
  exists s', bzero 1 b s = Ret tt s' /\ ftx s' (v_upd b zero_block v) (add_home b hs) (S j) k /\ same_top s s'.
Proof.
  intros T Hh Hd Hmax. pose proof (arr_get_bounds _ _ _ Hd) as Hb.
  destruct (f_change s v hs b d (fun _ => Some zero_block) zero_block j k T Hh Hd eq_refl)
    as (i & s1 & s2 & s3 & s4 & H1 & H2 & H3 & H4 & T4 & E4).
  exists s4. split; [|done]. unfold bzero. change (u32 1) with 1. rewrite u32_int by lia.
  rewrite (bind_Ret _ _ _ _ _ H1), (bind_Ret _ _ _ _ _ H2), (bind_Ret _ _ _ _ _ H3). done.
Qed.

(** A bit that is set is skipped. *)
Lemma balloc_bit_used s v hs n bp d bi j k b :
  ftx s v hs j k -> v_held v !! n = Some bp -> arr_get (v_view v) n = Some d ->
  bit_free d bi = Some false -> balloc_bit 1 b bp bi s = Ret None s.
Proof.
  intros T Hh Hd Hf. unfold balloc_bit. rewrite (bind_Ret _ _ _ false s); [done|].
  exact (f_get s v hs n bp d (fun d => bit_free d bi) false j k T Hh Hd Hf).
Qed.

Lemma balloc_body_full s v hs m d j k :
  ftx s v hs (S j) k -> v_held v !! BBLOCK (m * BPB) (f_sb s) = None ->
  arr_get (v_view v) (BBLOCK (m * BPB) (f_sb s)) = Some d ->
  (forall bi, 0 <= bi < Z.min BPB (sb_size (f_sb s) - m * BPB) -> bit_free d bi = Some false) ->
  exists s', balloc_body 1 m s = Ret None s' /\ ftx s' v hs (S j) k /\ same_top s s'.
Proof.
  intros T Hh Hd Hall. set (n := BBLOCK _ _) in *.
  assert (0 <= n < Z.of_nat (length (v_disk v))) as Hn.
  { pose proof (arr_get_bounds _ _ _ Hd) as H. by rewrite (br_len _ _ (it_brep _ _ _ (ft_tx _ _ _ _ _ T))) in H. }
  destruct (f_bread s v hs n j k T Hh Hn) as (i & s1 & H1 & T1 & E1).
  destruct (f_brelse s1 _ hs n i j k T1) as (s2 & H2 & T2 & E2); [by simpl; rewrite lookup_insert_eq|].
  exists s2. rewrite drop_hold in T2 by done. split; [|split; [done|by eapply same_top_trans]].
  unfold balloc_body. rewrite gets_bind. fold n. rewrite (bind_Ret _ _ _ _ _ H1).
  rewrite (bind_Ret _ _ _ None s1); [by rewrite (bind_Ret _ _ _ _ _ H2)|].
  unfold for_range. apply for_loop_skip. intros bi Hbi.
  eapply balloc_bit_used; [done|by simpl; rewrite lookup_insert_eq|done|]. apply Hall. lia.
Qed.

Lemma balloc_body_found s v hs m bi d d' d0 j k :
  ftx s v hs (S j) (S (S k)) -> v_held v !! BBLOCK (m * BPB) (f_sb s) = None ->
  arr_get (v_view v) (BBLOCK (m * BPB) (f_sb s)) = Some d ->
  0 <= bi < Z.min BPB (sb_size (f_sb s) - m * BPB) ->
  (forall c, 0 <= c < bi -> bit_free d c = Some false) ->
  bit_free d bi = Some true -> bit_set d bi = Some d' ->
  v_held v !! (m * BPB + bi) = None -> m * BPB + bi <> BBLOCK (m * BPB) (f_sb s) ->
  arr_get (v_view v) (m * BPB + bi) = Some d0 -> m * BPB + bi <= INT_MAX ->
  exists s', balloc_body 1 m s = Ret (Some (m * BPB + bi)) s' /\
    ftx s' (v_upd (m * BPB + bi) zero_block (v_upd (BBLOCK (m * BPB) (f_sb s)) d' v))
      (add_home (m * BPB + bi) (add_home (BBLOCK (m * BPB) (f_sb s)) hs)) (S j) k /\ same_top s s'.
Proof.
  intros T Hh Hd Hbi Hall Hfree Hset Hhb Hne Hd0 Hmax. set (n := BBLOCK _ _) in *. set (b := m * BPB + bi) in *.
  assert (0 <= n < Z.of_nat (length (v_view v))) as Hn by apply (arr_get_bounds _ _ _ Hd).
  destruct (f_change s v hs n d (fun d => bit_set d bi) d' j (S k) T Hh Hd Hset)
    as (i & s1 & s2 & s3 & s4 & H1 & H2 & H3 & H4 & T4 & E4).
  destruct (f_bread s v hs n j (S (S k)) T Hh) as (i' & s1' & H1' & T1 & _).
  { rewrite <- (br_len _ _ (it_brep _ _ _ (ft_tx _ _ _ _ _ T))). done. }
  rewrite H1 in H1'. injection H1' as <- <-.
  destruct (bzero_ok s4 _ _ b d0 j k T4) as (s5 & H5 & T5 & E5); [done| |done|].
  { simpl. rewrite arr_get_set by done. by rewrite decide_False. }
  exists s5. split; [|split; [done|by eapply same_top_trans]].
  unfold balloc_body. rewrite gets_bind. fold n. rewrite (bind_Ret _ _ _ _ _ H1).
  rewrite (bind_Ret _ _ _ (Some b) s5); [done|]. unfold for_range.
  apply for_loop_exit with (j := bi); [lia| |].
  - intros c Hc. eapply balloc_bit_used; [done|by simpl; rewrite lookup_insert_eq|done|]. by apply Hall.
  - unfold balloc_bit. rewrite (bind_Ret _ _ _ true s1).
    + rewrite (bind_Ret _ _ _ _ _ H2), (bind_Ret _ _ _ _ _ H3), (bind_Ret _ _ _ _ _ H4).
      fold b. by rewrite (bind_Ret _ _ _ _ _ H5).
    + eapply f_get; [done|by simpl; rewrite lookup_insert_eq|done|done].
Qed.

Lemma BPB_val : BPB = 4096.
Proof. done. Qed.

Lemma BBLOCK_row m bi sb : 0 <= bi < BPB -> BBLOCK (m * BPB + bi) sb = BBLOCK (m * BPB) sb.
Proof.
  intros H. unfold BBLOCK. rewrite BPB_val in *. rewrite Z.div_add_l, (Z.div_small bi), Z.add_0_r, Z.div_mul by lia. done.
Qed.

Lemma mod_row m bi : 0 <= bi < BPB -> (m * BPB + bi) mod BPB = bi.
Proof. intros H. rewrite BPB_val in *. rewrite Z.add_comm, Z.mod_add by lia. by apply Z.mod_small. Qed.

Lemma row_of b : 0 <= b -> b = b / BPB * BPB + b mod BPB /\ 0 <= b mod BPB < BPB /\ 0 <= b / BPB.
Proof.
  intros H. rewrite BPB_val. pose proof (Z.div_mod b 4096 ltac:(lia)). pose proof (Z.mod_pos_bound b 4096 ltac:(lia)).
  pose proof (Z.div_pos b 4096 H ltac:(lia)). lia.
Qed.

(** The bits of [c] in the block that holds them. *)
Lemma used_row v sb m bi u d :
  0 <= bi < BPB -> arr_get (v_view v) (BBLOCK (m * BPB) sb) = Some d ->
  used v sb (m * BPB + bi) u <-> bit_free d bi = Some (negb u).
Proof.
  intros Hbi Hd. unfold used. rewrite BBLOCK_row, mod_row by done. split.
  - intros (d' & Hd' & H). congruence.
  - intros H. eauto.
Qed.

(** The bitmap block that changes when the first free block is taken. *)
Definition allocated (v : vdisk) (sb : superblock) (b : Z) (v' : vdisk) : Prop :=
  exists d d', arr_get (v_view v) (BBLOCK b sb) = Some d /\ bit_set d (b mod BPB) = Some d' /\
    v' = v_upd b zero_block (v_upd (BBLOCK b sb) d' v).

Lemma balloc_ok s v hs b j k :
  let sb := f_sb s in
  ftx s v hs (S j) (S (S k)) ->
  0 <= b < sb_size sb -> sb_size sb <= Z.of_nat (length (v_disk v)) ->
  (forall c, 0 <= c < b -> used v sb c true) -> used v sb b false ->
  (forall c, 0 <= c <= b -> v_held v !! BBLOCK c sb = None) ->
  v_held v !! b = None -> b <> BBLOCK b sb ->
  exists s' v', balloc 1 s = Ret b s' /\ allocated v sb b v' /\
    ftx s' v' (add_home b (add_home (BBLOCK b sb) hs)) (S j) k /\ same_top s s'.
Proof.
  intros sb T Hb Hsz Hused Hfree Hheld Hhb Hne. destruct (row_of b (proj1 Hb)) as (Eb & Hbi & Hm).
  set (m := b / BPB) in *. set (bi := b mod BPB) in *.
  assert (Hrow : forall c, 0 <= c <= m -> v_held v !! BBLOCK (c * BPB) sb = None).
  { intros c Hc. apply Hheld. rewrite BPB_val in *. lia. }
  destruct Hfree as (d & Hd & Hf). rewrite Eb in Hd, Hne at 2. rewrite BBLOCK_row in Hd, Hne by done.
  assert (Hmax : Z.of_nat (length (v_disk v)) <= INT_MAX) by apply T.
  fold bi in Hf. rewrite bit_free_at in Hf by lia. unfold bit_at in Hf.
  destruct (arr_get d (bi / 8)) as [x|] eqn:Hx; [|done].
  destruct (bit_set_ok d bi x ltac:(lia) Hx) as (d' & Hset & _).
  destruct (f_view _ _ _ _ _ b T) as [d0 Hd0]; [lia|].
  assert (exists s', for_range 0 ((sb_size sb + BPB - 1) / BPB) (balloc_body 1) s = Ret (Some b) s' /\
    (ftx s' (v_upd b zero_block (v_upd (BBLOCK (m * BPB) sb) d' v))
      (add_home b (add_home (BBLOCK (m * BPB) sb) hs)) (S j) k /\ same_top s s')) as (s' & Hl & T' & E').
  { unfold for_range. apply (for_loop_find _ (fun _ t => ftx t v hs (S j) (S (S k)) /\ same_top s t)) with (j := m).
    - split; [done|]. rewrite Z.add_0_l, Z2Nat.id, Z.sub_0_r.
      + rewrite BPB_val in *. apply Z.lt_le_trans with (m + 1); [lia|]. apply Z.div_le_lower_bound; lia.
      + rewrite Z.sub_0_r. apply Z.div_pos; rewrite BPB_val; lia.
    - done.
    - intros c t Hc [Tt Et]. destruct (Hused (c * BPB)) as (dc & Hdc & _); [rewrite BPB_val in *; lia|].
      destruct (balloc_body_full t v hs c dc j (S (S k)) Tt) as (t' & Ht' & T1 & E1).
      + rewrite (proj1 Et). apply Hrow. lia.
      + rewrite (proj1 Et). done.
      + rewrite (proj1 Et). intros a Ha. apply (used_row v sb c a true dc); [lia|done|].
        apply Hused. rewrite BPB_val in *. lia.
      + exists t'. split; [done|]. split; [done|by eapply same_top_trans].
    - intros t [Tt Et]. assert (f_sb t = sb) as Esb by apply Et.
      destruct (balloc_body_found t v hs m bi d d' d0 j k Tt) as (t' & Ht' & T1 & E1);
        rewrite ?Esb, <- ?Eb; try done; try lia.
      + by apply Hrow.
      + intros c Hc. apply (used_row v sb m c true d); [lia|done|]. apply Hused. rewrite BPB_val in *. lia.
      + rewrite bit_free_at by lia. unfold bit_at. by rewrite Hx.
      + rewrite Esb, <- Eb in *. exists t'. split; [done|]. split; [done|by eapply same_top_trans]. }
  assert (BBLOCK (m * BPB) sb = BBLOCK b sb) as EB by (rewrite Eb; by rewrite BBLOCK_row).
  rewrite EB in *. exists s'. eexists. split; [|split; [by exists d, d'|done]].
  unfold balloc. rewrite gets_bind. fold sb. by rewrite (bind_Ret _ _ _ _ _ Hl).
Qed.

(** [b] is not one of the blocks of the bitmap. *)
Definition not_bitmap (sb : superblock) (b : Z) : Prop := forall c, 0 <= c < sb_size sb -> BBLOCK c sb <> b.

(** A change of the bit of [b]: that bit, and no other block. *)
Record bit_changed (v v' : vdisk) (sb : superblock) (b : Z) (u : bool) : Prop := BitChanged {
  bc_this : used v' sb b u;
  bc_other : forall c w, 0 <= c < sb_size sb -> c <> b -> used v' sb c w <-> used v sb c w;
  bc_view : forall n, n <> BBLOCK b sb -> n <> b -> arr_get (v_view v') n = arr_get (v_view v) n;
  bc_disk : v_disk v' = v_disk v;
  bc_held : v_held v' = v_held v
}.

(** A superblock whose numbers are those of a disk. *)
Definition sb_ok (sb : superblock) : Prop := 0 <= sb_bmapstart sb <= INT_MAX /\ sb_size sb <= INT_MAX.

Lemma BBLOCK_inj sb b c :
  sb_ok sb -> 0 <= b < sb_size sb -> 0 <= c < sb_size sb ->
  BBLOCK c sb = BBLOCK b sb -> c mod BPB = b mod BPB -> c = b.
Proof.
  intros [H1 H2] Hb Hc E Em. destruct (row_of b (proj1 Hb)) as (Eb & ? & ?), (row_of c (proj1 Hc)) as (Ec & ? & ?).
  unfold BBLOCK in E. unfold INT_MAX in *. rewrite BPB_val in *. rewrite !u32_small in E by lia. lia.
Qed.

(** The bit of [b] is stored in its bitmap block; [b] itself may be rewritten. *)
Lemma bit_changed_intro v sb b d d' u w :
  sb_ok sb -> 0 <= b < sb_size sb -> arr_get (v_view v) (BBLOCK b sb) = Some d ->
  (forall j, 0 <= j -> bit_at d' j = if decide (j = b mod BPB) then Some u else bit_at d j) ->
  w = v_upd (BBLOCK b sb) d' v \/
    (not_bitmap sb b /\ 0 <= b < Z.of_nat (length (v_view v)) /\
     exists z, w = v_upd b z (v_upd (BBLOCK b sb) d' v)) ->
  bit_changed v w sb b u.
Proof.
  intros Hok Hb Hd Hbits Hw. pose proof (arr_get_bounds _ _ _ Hd) as Hn.
  destruct (row_of b (proj1 Hb)) as (Eb & Hbi & _).
  assert (forall n, n <> b \/ not_bitmap sb b /\ (exists c, 0 <= c < sb_size sb /\ n = BBLOCK c sb) \/
      w = v_upd (BBLOCK b sb) d' v ->
    arr_get (v_view w) n = if decide (n = BBLOCK b sb) then Some d' else arr_get (v_view v) n) as Hview.
  { intros n Hnb. destruct Hw as [->|(Hnm & Hlen & z & ->)]; simpl; rewrite !arr_get_set;
      rewrite ?length_insert; try done.
    destruct (decide (n = b)) as [E|]; [|done]. destruct Hnb as [|[(_ & c & Hc & E')|E']]; [done| |].
    - exfalso. by apply (Hnm c Hc); congruence.
    - rewrite decide_False by (intros E2; eapply Hnm; [done|]; congruence).
      injection E' as E' _. apply (f_equal (fun l => arr_get l n)) in E'.
      rewrite !arr_get_set in E' by (rewrite ?length_insert; done). rewrite decide_True in E' by done.
      rewrite decide_False in E' by (intros E2; eapply Hnm; [done|]; congruence). done. }
  assert (forall c, 0 <= c < sb_size sb -> arr_get (v_view w) (BBLOCK c sb) =
    if decide (BBLOCK c sb = BBLOCK b sb) then Some d' else arr_get (v_view v) (BBLOCK c sb)) as Hbm.
  { intros c Hc. apply Hview. destruct Hw as [->|(Hnm & _)]; [by right; right|right; left]. eauto. }
  split.
  - exists d'. rewrite Hbm, decide_True by done. split; [done|]. rewrite bit_free_at, Hbits by lia. by rewrite decide_True.
  - intros c u' Hc Hcb. unfold used. rewrite Hbm by done. case_decide as E; [|done].
    destruct (row_of c (proj1 Hc)) as (Ec & Hci & _). rewrite E, Hd.
    assert (bit_free d' (c mod BPB) = bit_free d (c mod BPB)) as Ebit.
    { rewrite !bit_free_at, Hbits by lia. rewrite decide_False; [done|]. intros Em. by apply Hcb, (BBLOCK_inj sb). }
    split; intros (x & [= <-] & Hx); [exists d|exists d']; split; congruence.
  - intros n H1 H2. rewrite Hview by by left. by rewrite decide_False.
  - destruct Hw as [->|(_ & _ & z & ->)]; done.
  - destruct Hw as [->|(_ & _ & z & ->)]; done.
Qed.

Lemma allocated_changed v sb b v' :
  sb_ok sb -> 0 <= b < sb_size sb -> not_bitmap sb b -> 0 <= b < Z.of_nat (length (v_view v)) ->
  allocated v sb b v' ->
  bit_changed v v' sb b true /\ arr_get (v_view v') b = Some zero_block.
Proof.
  intros Hok Hb Hnm Hlen (d & d' & Hd & Hset & ->). destruct (row_of b (proj1 Hb)) as (_ & Hbi & _).
  destruct (arr_get d (b mod BPB / 8)) as [x|] eqn:Hx; [|unfold bit_set in Hset; by rewrite Hx in Hset].
  destruct (bit_set_ok d (b mod BPB) x ltac:(lia) Hx) as (d2 & Hset2 & _ & Hbits).
  rewrite Hset in Hset2. injection Hset2 as <-. split.
  - eapply bit_changed_intro; [done|done|done|done|]. right. split; [done|]. split; [done|]. by exists zero_block.
  - simpl. rewrite arr_get_set by by rewrite length_insert. by rewrite decide_True.
Qed.

(** Balloc returns the first block whose bit is clear, sets that bit and no
    other, zeroes the block, and changes no other block, all inside the
    transaction. *)
Theorem balloc_takes_first_free s v hs b j k :
  ftx s v hs (S j) (S (S k)) -> sb_ok (f_sb s) ->
  0 <= b < sb_size (f_sb s) -> sb_size (f_sb s) <= Z.of_nat (length (v_disk v)) ->
  (forall c, 0 <= c < b -> used v (f_sb s) c true) -> used v (f_sb s) b false ->
  not_bitmap (f_sb s) b -> v_held v = ∅ ->
  exists s' v' hs', balloc 1 s = Ret b s' /\ ftx s' v' hs' (S j) k /\ same_top s s' /\
    bit_changed v v' (f_sb s) b true /\ arr_get (v_view v') b = Some zero_block.
Proof.
  intros T Hok Hb Hsz Hused Hfree Hnm He.
  destruct (balloc_ok s v hs b j k T Hb Hsz Hused Hfree) as (s' & v' & H1 & Ha & T' & E').
  - intros c _. by rewrite He.
  - by rewrite He.
  - intros E. by eapply Hnm.
  - exists s', v'. eexists. do 3 (split; [done|]). eapply allocated_changed; try done.
    rewrite (br_len _ _ (it_brep _ _ _ (ft_tx _ _ _ _ _ T))). lia.
Qed.

(** bfree of a used block. *)
Lemma bfree_ok s v hs b d1 j k :
  ftx s v hs (S j) (S k) -> sb_ok (f_sb s) -> 0 <= b < sb_size (f_sb s) ->
  v_held v !! 1 = None -> v_held v !! BBLOCK b (f_sb s) = None ->
  arr_get (v_view v) 1 = Some d1 -> decode_sb d1 = Some (f_sb s) ->
  used v (f_sb s) b true ->
  exists s' v' hs', bfree 1 b s = Ret tt s' /\ ftx s' v' hs' (S j) k /\ same_top s s' /\
    bit_changed v v' (f_sb s) b false.
Proof.
  intros T Hok Hb Hh1 Hhn Hd1 Hsb (d & Hd & Hf). destruct (row_of b (proj1 Hb)) as (_ & Hbi & _).
  destruct (f_peek s v hs 1 d1 j (S k) T Hh1 Hd1) as (i & s1 & s2 & H1 & Hget & H2 & T2 & _ & E2).
  pose proof Hf as Hf'. rewrite bit_free_at in Hf by lia. unfold bit_at in Hf.
  destruct (arr_get d (b mod BPB / 8)) as [x|] eqn:Hx; [|done].
  destruct (bit_clear_ok d (b mod BPB) x ltac:(lia) Hx) as (d' & Hclr & _ & Hbits).
  destruct (f_change s2 v hs (BBLOCK b (f_sb s)) d (fun d => bit_clear d (b mod BPB)) d' j k T2 Hhn Hd Hclr)
    as (i3 & s3 & s4 & s5 & s6 & H3 & H4 & H5 & H6 & T6 & E6).
  exists s6. eexists _, _. split; [|split; [done|split; [by eapply same_top_trans|]]].
  - unfold bfree. change (u32 1) with 1.
    assert (bo (readsb 1) s = Ret (f_sb s) s2) as Hr.
    { eapply bo_seq; [done|]. eapply bo_seq; [by apply Hget|]. eapply bo_seq; [done|]. by destruct s2 as [[]]. }
    rewrite (bind_Ret _ _ _ _ _ Hr), modify_bind.
    assert (set_f_sb (f_sb s) s2 = s2) as -> by (rewrite <- (proj1 E2); by destruct s2).
    rewrite (bind_Ret _ _ _ _ _ H3). destruct (f_bread s2 v hs _ j (S k) T2 Hhn) as (i' & t & H3' & T3 & _).
    { rewrite <- (br_len _ _ (it_brep _ _ _ (ft_tx _ _ _ _ _ T))). by apply (arr_get_bounds _ _ _ Hd). }
    rewrite H3 in H3'. injection H3' as <- <-.
    rewrite (bind_Ret _ _ _ false s3).
    + by rewrite (bind_Ret _ _ _ _ _ H4), (bind_Ret _ _ _ _ _ H5).
    + eapply f_get; [done|by simpl; rewrite lookup_insert_eq|done|done].
  - eapply bit_changed_intro; try done. by left.
Qed.

(** Bfree of a block whose bit is set clears that bit and changes nothing
    else; so freeing the block that balloc returned leaves every bit as it
    was before. *)
Theorem bfree_undoes_balloc s v hs b d1 j k :
  ftx s v hs (S j) (S (S (S k))) -> sb_ok (f_sb s) ->
  0 <= b < sb_size (f_sb s) -> sb_size (f_sb s) <= Z.of_nat (length (v_disk v)) ->
  (forall c, 0 <= c < b -> used v (f_sb s) c true) -> used v (f_sb s) b false ->
  not_bitmap (f_sb s) b -> v_held v = ∅ ->
  arr_get (v_view v) 1 = Some d1 -> decode_sb d1 = Some (f_sb s) ->
  b <> 1 -> BBLOCK b (f_sb s) <> 1 ->
  exists s' v' hs', (x <- balloc 1 ;; bfree 1 x) s = Ret tt s' /\ ftx s' v' hs' (S j) k /\ same_top s s' /\ forall c u, 0 <= c < sb_size (f_sb s) -> used v' (f_sb s) c u <-> used v (f_sb s) c u.
Proof.
  intros T Hok Hb Hsz Hused Hfree Hnm He Hd1 Hsb Hb1 HB1.
  destruct (balloc_ok s v hs b j (S k) T Hb Hsz Hused Hfree) as (s1 & v1 & H1 & Ha & T1 & E1).
  { intros c _. by rewrite He. }
  { by rewrite He. }
  { intros E. by eapply Hnm. }
  destruct (allocated_changed v (f_sb s) b v1 Hok Hb Hnm) as [Hc _]; [|done|].
  { rewrite (br_len _ _ (it_brep _ _ _ (ft_tx _ _ _ _ _ T))). lia. }
  pose proof Hc as [Hthis Hother Hview _ Hheld].
  destruct (bfree_ok s1 v1 _ b d1 j k T1) as (s2 & v2 & hs2 & H2 & T2 & E2 & Hc2);
    rewrite ?(proj1 E1); rewrite ?Hheld, ?He; try done.
  { by rewrite Hview. }
  exists s2, v2, hs2. split; [by rewrite (bind_Ret _ _ _ _ _ H1)|]. split; [done|].
  split; [by eapply same_top_trans|]. rewrite (proj1 E1) in Hc2. destruct Hc2 as [Hthis2 Hother2 _ _ _].
  intros c u Hcr. destruct (decide (c = b)) as [->|Hne]; [|by rewrite Hother2, Hother].
  destruct Hfree as (x & Hx1 & Hx2), Hthis2 as (y & Hy1 & Hy2). unfold used.
  split; intros (z & Hz1 & Hz2); eexists; split; try done; congruence.
Qed.
