(* ===== verification/FsInode.v ===== *)
(** Inodes of fs.c on disk and in memory: iupdate writes what ilock reads. *)
From S2P Require Import Prelude CString Bytes Bio BioSpec Log LogSpec LogCrash LogWrite Fs FsSpec.

(** * The layout of struct dinode *)

Lemma get_short_put d o v :
  (o + 2 <= length d)%nat -> -32768 <= v < 32768 -> get_short (le_put 2 d o v) o = Some v.
Proof.
  intros Hl Hv. unfold get_short. rewrite le_get_put by done. simpl. f_equal. unfold s16.
  change (256 ^ 2) with 65536. rewrite Zmod_mod. destruct (Z.leb_spec 0 v).
  - rewrite Z.mod_small by lia. destruct (Z.ltb_spec v 32768); lia.
  - replace (v mod 65536) with (v + 65536).
    + destruct (Z.ltb_spec (v + 65536) 32768); lia.
    + symmetry. rewrite <- (Z_mod_plus_full v 1 65536). apply Z.mod_small. lia.
Qed.

Lemma length_put_uints xs : forall d o, length (put_uints d o xs) = length d.
Proof. induction xs as [|x xs IH]; intros d o; [done|]. simpl. by rewrite IH, length_le_put. Qed.

Lemma put_uints_other xs : forall d o j,
  (j < o \/ o + 4 * length xs <= j)%nat -> put_uints d o xs !! j = d !! j.
Proof.
  induction xs as [|x xs IH]; intros d o j Hj; [done|]. simpl in *. rewrite IH by lia. apply le_put_other. lia.
Qed.

Lemma get_uints_put xs : forall d o,
  (o + 4 * length xs <= length d)%nat -> Forall (fun x => 0 <= x < 4294967296) xs ->
  get_uints (length xs) (put_uints d o xs) o = Some xs.
Proof.
  induction xs as [|x xs IH]; intros d o Hl Hok; [done|]. apply Forall_cons in Hok as [Hx Hok]. simpl in *.
  assert (get_uint (put_uints (le_put 4 d o x) (o + 4) xs) o = Some x) as ->.
  { transitivity (get_uint (le_put 4 d o x) o); [|apply get_uint_put; [lia|done]].
    apply le_get_ext. intros j Hj. apply put_uints_other. lia. }
  simpl. rewrite IH; [done|rewrite length_le_put; lia|done].
Qed.

Lemma get_uints_ext k : forall d d' o,
  (forall j, (o <= j < o + 4 * k)%nat -> d' !! j = d !! j) -> get_uints k d' o = get_uints k d o.
Proof.
  induction k as [|k IH]; intros d d' o H; [done|]. simpl. unfold get_uint.
  rewrite (le_get_ext 4 d d' o), (IH d d' (o + 4)%nat); [done| |]; intros j Hj; apply H; lia.
Qed.

(** The fields of an inode fit those of the dinode. *)
Record fits (i : inode) : Prop := Fits {
  fi_type : -32768 <= i_type i < 32768;
  fi_major : -32768 <= i_major i < 32768;
  fi_minor : -32768 <= i_minor i < 32768;
  fi_nlink : -32768 <= i_nlink i < 32768;
  fi_size : 0 <= i_size i < 4294967296;
  fi_addrs : length (i_addrs i) = 13%nat /\ Forall (fun x => 0 <= x < 4294967296) (i_addrs i)
}.

(** [i] with the disk fields of [i0]. *)
Definition with_disk (i0 i : inode) : inode :=
  Inode (i_dev i) (i_inum i) (i_ref i) (i_lock i) (i_flags i)
    (i_type i0) (i_major i0) (i_minor i0) (i_nlink i0) (i_size i0) (i_addrs i0).

(** Bytes of the dinode at [o], and of the others. *)
Lemma put_dinode_ok d o i :
  (o + 64 <= length d)%nat -> fits i ->
  exists d', put_dinode d o i = Some d' /\ length d' = length d /\
    (forall i', get_dinode d' o i' = Some (with_disk i i')) /\
    (forall j, (j < o \/ o + 64 <= j)%nat -> d' !! j = d !! j).
Proof.
  intros Hl [Ht Hma Hmi Hn Hs [Hal Ha]]. unfold put_dinode, sizeof_dinode.
  rewrite (proj2 (Nat.leb_le _ _) Hl), Hal. simpl. eexists. split; [done|].
  split; [by rewrite length_put_uints, !length_le_put|]. split.
  - intros i'. unfold get_dinode.
    assert (forall k o', (o' + k <= o + 12)%nat -> forall d0, le_get k (put_uints d0 (o + 12) (i_addrs i)) o' = le_get k d0 o') as Hskip.
    { intros k o' Ho' d0. apply le_get_ext. intros j Hj. apply put_uints_other. lia. }
    set (d' := put_uints _ _ _).
    assert (get_short d' o = Some (i_type i)) as ->.
    { unfold get_short, d'. rewrite Hskip by lia. rewrite !le_get_put_ne by lia. apply get_short_put; [lia|done]. }
    assert (get_short d' (o + 2) = Some (i_major i)) as ->.
    { unfold get_short, d'. rewrite Hskip by lia. rewrite !le_get_put_ne by lia.
      apply get_short_put; rewrite ?length_le_put; [lia|done]. }
    assert (get_short d' (o + 4) = Some (i_minor i)) as ->.
    { unfold get_short, d'. rewrite Hskip by lia. rewrite !le_get_put_ne by lia.
      apply get_short_put; rewrite ?length_le_put; [lia|done]. }
    assert (get_short d' (o + 6) = Some (i_nlink i)) as ->.
    { unfold get_short, d'. rewrite Hskip by lia. rewrite !le_get_put_ne by lia.
      apply get_short_put; rewrite ?length_le_put; [lia|done]. }
    assert (get_uint d' (o + 8) = Some (i_size i)) as ->.
    { unfold get_uint, d'. rewrite Hskip by lia. apply get_uint_put; rewrite ?length_le_put; [lia|done]. }
    assert (get_uints 13 d' (o + 12) = Some (i_addrs i)) as ->; [|done].
    rewrite <- Hal. apply get_uints_put; [rewrite !length_le_put; lia|done].
  - intros j Hj. rewrite put_uints_other by lia. rewrite !le_put_other by lia. done.
Qed.

(** * In the file system's state *)

Lemma inode_at_eq s ip i : f_inodes s !! ip = Some i -> inode_at ip s = Ret i s.
Proof. intros H. unfold inode_at. rewrite gets_bind, H. done. Qed.

Definition put_inode (ip : nat) (i : inode) (s : fss) : fss := set_f_inodes (<[ip := i]> (f_inodes s)) s.

Lemma upd_inode_eq s ip i f : f_inodes s !! ip = Some i -> upd_inode ip f s = Ret tt (put_inode ip (f i) s).
Proof. intros H. unfold upd_inode. by rewrite (bind_Ret _ _ _ _ _ (inode_at_eq _ _ _ H)). Qed.

Lemma inodes_put ip i s : (ip < length (f_inodes s))%nat -> f_inodes (put_inode ip i s) !! ip = Some i.
Proof. intros H. by apply list_lookup_insert_eq. Qed.

Lemma put_inode_twice ip i i' s : put_inode ip i' (put_inode ip i s) = put_inode ip i' s.
Proof. unfold put_inode, set_f_inodes. simpl. by rewrite list_insert_insert_eq. Qed.

Lemma put_inode_tx ip i s v hs j k : ftx s v hs j k -> ftx (put_inode ip i s) v hs j k.
Proof. intros [? ?]. by split. Qed.

(** The layers below do not look at the inode cache. *)
Lemma bo_frame {A} (c : B A) s a s' l :
  bo c s = Ret a s' -> bo c (set_f_inodes l s) = Ret a (set_f_inodes l s').
Proof.
  unfold bo, lo, zoom, io, zoom. destruct s as [[b lg] sb ino cwd]. simpl.
  destruct (c b); simpl; intros H; by simplify_eq/=.
Qed.

(** Inode [inum] on disk has the fields of [i0]. *)
Definition disk_inode (v : vdisk) (sb : superblock) (inum : Z) (i0 : inode) : Prop :=
  exists d, arr_get (v_view v) (IBLOCK inum sb) = Some d /\ length d = Z.to_nat BSIZE /\
    forall i', get_dinode d (off_dinode inum) i' = Some (with_disk i0 i').

Lemma off_dinode_fits inum : (off_dinode inum + 64 <= Z.to_nat BSIZE)%nat.
Proof.
  unfold off_dinode, sizeof_dinode. change IPB with 8. change (Z.to_nat BSIZE) with 512%nat.
  pose proof (Z.mod_pos_bound inum 8 ltac:(lia)). lia.
Qed.

Lemma iupdate_ok s v hs ip i d j k :
  ftx s v hs (S j) (S k) -> f_inodes s !! ip = Some i -> i_dev i = 1 -> fits i ->
  v_held v !! IBLOCK (i_inum i) (f_sb s) = None ->
  arr_get (v_view v) (IBLOCK (i_inum i) (f_sb s)) = Some d -> length d = Z.to_nat BSIZE ->
  exists s' d', iupdate ip s = Ret tt s' /\
    ftx s' (v_upd (IBLOCK (i_inum i) (f_sb s)) d' v) (add_home (IBLOCK (i_inum i) (f_sb s)) hs) (S j) k /\
    same_top s s' /\ length d' = Z.to_nat BSIZE /\
    (forall i', get_dinode d' (off_dinode (i_inum i)) i' = Some (with_disk i i')) /\
    (forall x, (x < off_dinode (i_inum i) \/ off_dinode (i_inum i) + 64 <= x)%nat -> d' !! x = d !! x).
Proof.
  intros T Hi Hdev Hfits Hh Hd Hlen.
  destruct (put_dinode_ok d (off_dinode (i_inum i)) i) as (d' & Hput & Hlen' & Hget & Hoth); [|done|].
  { rewrite Hlen. apply off_dinode_fits. }
  destruct (f_change s v hs _ d (fun d => put_dinode d (off_dinode (i_inum i)) i) d' j k T Hh Hd Hput)
    as (b & s1 & s2 & s3 & s4 & H1 & H2 & H3 & H4 & T4 & E4).
  exists s4, d'. split; [|do 2 (split; [done|]); split; [congruence|done]].
  unfold iupdate. rewrite (bind_Ret _ _ _ _ _ (inode_at_eq _ _ _ Hi)), gets_bind, Hdev.
  rewrite (bind_Ret _ _ _ _ _ H1), (bind_Ret _ _ _ _ _ H2), (bind_Ret _ _ _ _ _ H3). done.
Qed.

(** ilock of an unlocked inode that is not yet read. *)
Lemma ilock_ok s v hs ip i i0 j k :
  ftx s v hs (S j) k -> f_inodes s !! ip = Some i -> i_dev i = 1 -> 1 <= i_ref i ->
  sl_locked (i_lock i) = 0 -> i_flags i = 0 ->
  disk_inode v (f_sb s) (i_inum i) i0 -> i_type i0 <> 0 ->
  v_held v !! IBLOCK (i_inum i) (f_sb s) = None ->
  exists s', ilock ip s = Ret tt s' /\ ftx s' v hs (S j) k /\ f_sb s' = f_sb s /\ f_cwd s' = f_cwd s /\
    f_inodes s' = <[ip := set_i_flags I_VALID (set_i_lock (Sleeplock 1 (mypid (l_bio (f_l s)))) (with_disk i0 i))]>
      (f_inodes s).
Proof.
  intros T Hi Hdev Href Hunl Hfl (d & Hd & Hlen & Hget) Hty Hh.
  pose proof (lookup_lt_Some _ _ _ Hi) as Hlt. set (pid := mypid _).
  set (s1 := put_inode ip (set_i_lock (Sleeplock 1 pid) i) s).
  destruct (f_peek s1 v hs _ d j k (put_inode_tx _ _ _ _ _ _ _ T) Hh Hd)
    as (b & s2 & s3 & H1 & Hg & H2 & T3 & E2 & E3).
  assert (f_inodes s1 !! ip = Some (set_i_lock (Sleeplock 1 pid) i)) as Hs1 by by apply inodes_put.
  assert (forall t x, (ip < length (f_inodes t))%nat -> inode_at ip (put_inode ip x t) = Ret x (put_inode ip x t)) as Hat.
  { intros t x Ht. by apply inode_at_eq, inodes_put. }
  assert (f_inodes s2 = f_inodes s1) as Ei2 by apply E2. assert (f_inodes s3 = f_inodes s1) as Ei3 by apply E3.
  set (i2 := with_disk i0 (set_i_lock (Sleeplock 1 pid) i)).
  unfold ilock. rewrite (bind_Ret _ _ _ _ _ (inode_at_eq _ _ _ Hi)).
  destruct (Z.ltb_spec (i_ref i) 1); [lia|].
  rewrite (bind_Ret _ _ _ tt s1).
  2: { unfold acquiresleep, inode_lock. simpl. unfold bind at 1 2. rewrite (inode_at_eq _ _ _ Hi). simpl.
       rewrite Hunl. simpl. rewrite gets_bind. by rewrite (upd_inode_eq _ _ _ _ Hi). }
  rewrite (bind_Ret _ _ _ _ _ (inode_at_eq _ _ _ Hs1)). simpl (i_flags _). rewrite Hfl. simpl (Z.land _ _ =? 0).
  cbv iota. rewrite gets_bind. simpl (i_dev _). simpl (i_inum _). rewrite Hdev, (bind_Ret _ _ _ _ _ H1).
  rewrite (bind_Ret _ _ _ i2 s2) by (apply Hg, Hget).
  rewrite (bind_Ret _ _ _ tt (put_inode ip i2 s2)).
  2: { rewrite (upd_inode_eq s2 ip (set_i_lock (Sleeplock 1 pid) i)); [done|]. by rewrite Ei2. }
  assert (bo (brelse b) (put_inode ip i2 s2) = Ret tt (put_inode ip i2 s3)) as H2'.
  { unfold put_inode. rewrite Ei3, <- Ei2. by apply bo_frame. }
  rewrite (bind_Ret _ _ _ _ _ H2').
  assert (ip < length (f_inodes s3))%nat as Hlt3 by (rewrite Ei3; unfold s1; simpl; by rewrite length_insert).
  rewrite (bind_Ret _ _ _ tt (put_inode ip (set_i_flags I_VALID i2) s3)).
  2: { rewrite (upd_inode_eq _ _ i2) by by apply inodes_put. rewrite put_inode_twice. simpl. by rewrite Hfl. }
  rewrite (bind_Ret _ _ _ _ _ (Hat s3 _ Hlt3)). simpl (i_type _).
  destruct (Z.eqb_spec (i_type i0) 0); [done|]. eexists. split; [done|].
  split; [by apply put_inode_tx|]. split; [apply E3|]. split; [apply E3|]. simpl. rewrite Ei3. simpl.
  by rewrite list_insert_insert_eq.
Qed.

(** * iget *)

Definition matches (dev inum : Z) (i : inode) : bool := (0 <? i_ref i) && (i_dev i =? dev) && (i_inum i =? inum).

Lemma iget_scan_some dev inum l : forall ip e,
  Forall (fun i => matches dev inum i = false) l -> iget_scan dev inum l ip (Some e) = (None, Some e).
Proof.
  induction l as [|i l IH]; intros ip e Hl; [done|]. apply Forall_cons in Hl as [Hi Hl]. simpl.
  unfold matches in Hi. rewrite Hi. by apply IH.
Qed.

(** Not cached: the first empty entry. *)
Lemma iget_scan_miss dev inum l x i0 : forall ip,
  Forall (fun i => matches dev inum i = false) l -> l !! x = Some i0 -> i_ref i0 = 0 ->
  exists y i1, iget_scan dev inum l ip None = (None, Some (ip + y)%nat) /\ l !! y = Some i1 /\ i_ref i1 = 0.
Proof.
  revert x. induction l as [|i l IH]; intros x ip Hl Hx Hr; [done|]. apply Forall_cons in Hl as [Hi Hl].
  simpl. unfold matches in Hi. rewrite Hi. destruct (Z.eqb_spec (i_ref i) 0) as [E|E].
  - exists O, i. rewrite iget_scan_some by done. by rewrite Nat.add_0_r.
  - destruct x as [|x]; simpl in Hx; [by simplify_eq|].
    destruct (IH x (S ip) Hl Hx Hr) as (y & i1 & H1 & H2 & H3). exists (S y), i1.
    rewrite H1. by rewrite Nat.add_succ_r.
Qed.

Lemma iget_miss s dev inum x i0 :
  Forall (fun i => matches dev inum i = false) (f_inodes s) -> f_inodes s !! x = Some i0 -> i_ref i0 = 0 ->
  exists e i1, f_inodes s !! e = Some i1 /\ i_ref i1 = 0 /\
    iget dev inum s = Ret e (put_inode e (set_i_flags 0 (set_i_ref 1 (set_i_id dev inum i1))) s).
Proof.
  intros Hl Hx Hr. destruct (iget_scan_miss dev inum (f_inodes s) x i0 O Hl Hx Hr) as (e & i1 & H1 & H2 & H3).
  exists e, i1. split; [done|]. split; [done|]. unfold iget. rewrite gets_bind, H1. simpl.
  by rewrite (bind_Ret _ _ _ _ _ (upd_inode_eq _ _ _ _ H2)).
Qed.

(** iput of an inode that has links, or other references. *)
Lemma iput_keep s ip i :
  f_inodes s !! ip = Some i -> i_nlink i <> 0 \/ i_ref i <> 1 ->
  iput ip s = Ret tt (put_inode ip (set_i_ref (i_ref i - 1) i) s).
Proof.
  intros Hi Hk. unfold iput. rewrite (bind_Ret _ _ _ _ _ (inode_at_eq _ _ _ Hi)).
  assert ((i_ref i =? 1) && negb (Z.land (i_flags i) I_VALID =? 0) && (i_nlink i =? 0) = false) as ->.
  { destruct (Z.eqb_spec (i_ref i) 1), (Z.eqb_spec (i_nlink i) 0); simpl; try done; [lia|apply andb_false_r]. }
  rewrite ret_bind. by rewrite (upd_inode_eq _ _ _ _ Hi).
Qed.

(** C24: an inode with links that is written back, given up and evicted from the
    inode cache is read back with the same type, link count, size and block
    addresses when it is next looked up and locked, in whatever entry of the
    cache it then gets. *)
Theorem inode_survives_eviction s v hs ip i d j k :
  ftx s v hs (S j) (S k) -> f_inodes s !! ip = Some i -> i_dev i = 1 -> fits i ->
  i_ref i = 1 -> i_nlink i <> 0 -> i_type i <> 0 ->
  Forall (fun i => i_ref i = 0 -> sl_locked (i_lock i) = 0) (<[ip := set_i_ref 0 i]> (f_inodes s)) ->
  Forall (fun i' => matches 1 (i_inum i) i' = false) (<[ip := set_i_ref 0 i]> (f_inodes s)) ->
  v_held v = ∅ -> arr_get (v_view v) (IBLOCK (i_inum i) (f_sb s)) = Some d -> length d = Z.to_nat BSIZE ->
  exists s' e i', (iupdate ip ;; iput ip ;; e <- iget 1 (i_inum i) ;; ilock e ;; ret e) s = Ret e s' /\
    f_inodes s' !! e = Some i' /\ i_inum i' = i_inum i /\ i_flags i' = I_VALID /\ i_ref i' = 1 /\
    with_disk i i' = i'.
Proof.
  intros T Hi Hdev Hfits Href Hnl Hty Hunl Hno He Hd Hlen.
  destruct (iupdate_ok s v hs ip i d j k T Hi Hdev Hfits) as (s1 & d' & H1 & T1 & E1 & Hl1 & Hget & _); [by rewrite He|done|done|].
  assert (f_inodes s1 = f_inodes s) as Ei by apply E1.
  pose proof (lookup_lt_Some _ _ _ Hi) as Hlt. rewrite <- Ei in Hi, Hlt, Hunl, Hno.
  assert (iput ip s1 = Ret tt (put_inode ip (set_i_ref 0 i) s1)) as H2.
  { rewrite (iput_keep s1 ip i); [by rewrite Href|done|by left]. }
  set (s2 := put_inode ip (set_i_ref 0 i) s1) in *.
  destruct (iget_miss s2 1 (i_inum i) ip (set_i_ref 0 i)) as (e & i1 & He1 & Hr1 & H3); [done|by apply inodes_put|done|].
  set (i2 := set_i_flags 0 _) in H3. set (s3 := put_inode e i2 s2) in *.
  assert (f_inodes s3 !! e = Some i2) as Hi2 by (apply inodes_put; by eapply lookup_lt_Some).
  destruct (ilock_ok s3 _ _ e i2 i j k (put_inode_tx _ _ _ _ _ _ _ (put_inode_tx _ _ _ _ _ _ _ T1)) Hi2)
    as (s4 & H4 & _ & _ & _ & Ei4); try done.
  { simpl. pose proof (Forall_lookup_1 _ _ _ _ Hunl He1) as Hu. by apply Hu. }
  { exists d'. split; [|done]. simpl. rewrite (proj1 E1).
    pose proof (arr_get_bounds _ _ _ Hd). rewrite arr_get_set by done. by rewrite decide_True. }
  { simpl. by rewrite He. }
  exists s4, e. eexists. split.
  - by rewrite (bind_Ret _ _ _ _ _ H1), (bind_Ret _ _ _ _ _ H2), (bind_Ret _ _ _ _ _ H3), (bind_Ret _ _ _ _ _ H4).
  - rewrite Ei4. split; [apply list_lookup_insert_eq; by eapply lookup_lt_Some|done].
Qed.
