(* ===== verification/FsFile.v ===== *)
(** The contents of files: bmap, readi and writei of fs.c.

    [fbyte] is the byte of a file at an offset, found through the inode's
    direct and indirect addresses in the blocks a reader sees.  readi returns
    these bytes; writei of a range whose blocks are allocated changes exactly
    the bytes of the range. *)
From S2P Require Import Prelude CString Bytes Bio BioSpec Log LogSpec LogCrash LogWrite Fs FsSpec FsInode.

Lemma BSIZE_val : BSIZE = 512.
Proof. done. Qed.

(** The disk address of block [bn] of inode [i]; 0 if there is none. *)
Definition addr_of (v : vdisk) (i : inode) (bn : Z) : option Z :=
  if bn <? NDIRECT then arr_get (i_addrs i) bn
  else
    a ← arr_get (i_addrs i) NDIRECT;
    if a =? 0 then Some 0 else d ← arr_get (v_view v) a; get_uint d (4 * Z.to_nat (bn - NDIRECT)).

(** Block [bn] is allocated, at [a]. *)
Definition maps (v : vdisk) (i : inode) (bn a : Z) : Prop :=
  0 <= bn < MAXFILE /\ addr_of v i bn = Some a /\ a <> 0.

Definition fbyte (v : vdisk) (i : inode) (off : Z) : Z :=
  default 0 (a ← addr_of v i (off / BSIZE); d ← arr_get (v_view v) a; arr_get d (off mod BSIZE)).

Definition fbytes (v : vdisk) (i : inode) (off : Z) (n : nat) : list Z :=
  map (fun x => fbyte v i (off + Z.of_nat x)) (seq 0 n).

(** A file whose allocated blocks are different whole blocks of the disk, and
    none of them the indirect block. *)
Record wf_file (v : vdisk) (i : inode) : Prop := WfFile {
  wf_inj : forall b1 b2 a, maps v i b1 a -> maps v i b2 a -> b1 = b2;
  wf_ind : forall bn a, maps v i bn a -> arr_get (i_addrs i) NDIRECT <> Some a;
  wf_len : forall bn a, maps v i bn a -> exists d, arr_get (v_view v) a = Some d /\ length d = Z.to_nat BSIZE
}.

Lemma length_fbytes v i off n : length (fbytes v i off n) = n.
Proof. unfold fbytes. by rewrite length_map, length_seq. Qed.

Lemma fbytes_app v i off n m : fbytes v i off (n + m) = fbytes v i off n ++ fbytes v i (off + Z.of_nat n) m.
Proof.
  unfold fbytes. rewrite seq_app, map_app. f_equal. simpl.
  replace (seq n m) with (Nat.add n <$> seq 0 m) by (rewrite fmap_add_seq; f_equal; lia).
  change (map ?f ?l) with (f <$> l). rewrite <- list_fmap_compose.
  apply list_fmap_ext. intros x y _. simpl. f_equal. lia.
Qed.

(** The part of a block that is in a file. *)
Lemma fbytes_block v i bn a d o m :
  maps v i bn a -> arr_get (v_view v) a = Some d -> length d = Z.to_nat BSIZE -> (o + m <= Z.to_nat BSIZE)%nat ->
  fbytes v i (bn * BSIZE + Z.of_nat o) m = take m (drop o d).
Proof.
  intros (Hbn & Ha & _) Hd Hlen Hom. change (Z.to_nat BSIZE) with 512%nat in *. rewrite BSIZE_val.
  apply list_eq. intros x. unfold fbytes. rewrite list_lookup_fmap.
  destruct (decide (x < m)%nat) as [Hx|Hx].
  - rewrite lookup_seq_lt by done. rewrite lookup_take_lt, lookup_drop by done. simpl.
    destruct (lookup_lt_is_Some_2 d (o + x)) as [c Hc]; [lia|]. rewrite Hc. f_equal. unfold fbyte.
    rewrite BSIZE_val. rewrite <- Z.add_assoc, Z.div_add_l, Z.div_small, Z.add_0_r by lia.
    rewrite Ha. simpl. rewrite Hd. simpl.
    rewrite Z.add_comm, Z.mod_add, Z.mod_small by lia.
    rewrite <- Nat2Z.inj_add, arr_get_nat, Hc. done.
  - rewrite lookup_take_ge by lia. rewrite (proj2 (lookup_ge_None (seq 0 m) x)); [done|]. rewrite length_seq. lia.
Qed.

(** * bmap of an allocated block *)

Lemma bmap_ok s v hs ip i bn a j k :
  ftx s v hs (S j) k -> v_held v = ∅ -> f_inodes s !! ip = Some i -> i_dev i = 1 -> maps v i bn a ->
  exists s', bmap ip bn s = Ret a s' /\ ftx s' v hs (S j) k /\ same_top s s'.
Proof.
  intros T He Hi Hdev (Hbn & Ha & Ha0). unfold bmap. rewrite (bind_Ret _ _ _ _ _ (inode_at_eq _ _ _ Hi)).
  unfold addr_of in Ha. destruct (Z.ltb_spec bn NDIRECT) as [Hlt|Hge].
  - rewrite (get_opt_bind _ _ _ _ _ Ha). destruct (Z.eqb_spec a 0); [done|]. by exists s.
  - destruct (Z.ltb_spec (bn - NDIRECT) NINDIRECT) as [_|Hx]; [|unfold MAXFILE in Hbn; lia].
    destruct (arr_get (i_addrs i) NDIRECT) as [a1|] eqn:Ha1; [|done]. simpl in Ha.
    rewrite (get_opt_bind _ _ a1) by done. destruct (Z.eqb_spec a1 0) as [->|Hn1].
    { simpl in Ha. congruence. }
    destruct (arr_get (v_view v) a1) as [d|] eqn:Hd; [|done]. simpl in Ha.
    destruct (f_peek s v hs a1 d j k T) as (bp & s1 & s2 & H1 & Hg & H2 & T2 & _ & E2); [by rewrite He|done|].
    rewrite ret_bind, Hdev, (bind_Ret _ _ _ _ _ H1).
    rewrite (bind_Ret _ _ _ a s1) by (by apply Hg). destruct (Z.eqb_spec a 0); [done|].
    rewrite ret_bind, (bind_Ret _ _ _ _ _ H2). by exists s2.
Qed.

(** * readi *)

Lemma readi_loop_ok ip i v hs j k : forall fuel s off n tot dst,
  ftx s v hs (S j) k -> v_held v = ∅ -> f_inodes s !! ip = Some i -> i_dev i = 1 -> wf_file v i ->
  0 <= off -> tot <= n -> n - tot < Z.of_nat fuel ->
  (forall x, off <= x < off + (n - tot) -> exists a, maps v i (x / BSIZE) a) ->
  exists s', readi_loop fuel ip off n tot dst s = Ret (dst ++ fbytes v i off (Z.to_nat (n - tot))) s' /\
    ftx s' v hs (S j) k /\ same_top s s'.
Proof.
  induction fuel as [|fuel IH]; intros s off n tot dst T He Hi Hdev Hwf Hoff Hn Hfuel Hmap; [lia|]. simpl.
  destruct (Z.ltb_spec tot n) as [Hlt|Hge].
  2: { exists s. replace (Z.to_nat (n - tot)) with O by lia. rewrite app_nil_r. done. }
  rewrite (bind_Ret _ _ _ _ _ (inode_at_eq _ _ _ Hi)).
  destruct (Hmap off) as [a Ha]; [lia|]. rewrite BSIZE_val in *.
  destruct (bmap_ok s v hs ip i _ a j k T He Hi Hdev Ha) as (s1 & H1 & T1 & E1).
  destruct (wf_len _ _ Hwf _ _ Ha) as (d & Hd & Hlen).
  destruct (f_peek s1 v hs a d j k T1) as (bp & s2 & s3 & H2 & Hg & H3 & T3 & _ & E3); [by rewrite He|done|].
  rewrite (bind_Ret _ _ _ _ _ H1), Hdev, (bind_Ret _ _ _ _ _ H2).
  rewrite (bind_Ret _ _ _ d s2) by (by apply Hg). rewrite (bind_Ret _ _ _ _ _ H3).
  set (m := Z.min (n - tot) (512 - off mod 512)). set (o := Z.to_nat (off mod 512)).
  pose proof (Z.mod_pos_bound off 512 ltac:(lia)) as Ho. pose proof (Z.div_mod off 512 ltac:(lia)) as Hoff'.
  assert (fbytes v i off (Z.to_nat m) = take (Z.to_nat m) (drop o d)) as Hslice.
  { rewrite <- (fbytes_block v i (off / 512) a d o (Z.to_nat m)); try done.
    - f_equal. rewrite BSIZE_val. unfold o. lia.
    - change (Z.to_nat BSIZE) with 512%nat. unfold o. lia. }
  assert (f_inodes s3 !! ip = Some i) as Hi3.
  { rewrite (proj1 (proj2 E3)), (proj1 (proj2 E1)). done. }
  destruct (IH s3 (off + m) n (tot + m) (dst ++ take (Z.to_nat m) (drop o d)) T3 He Hi3 Hdev Hwf)
    as (s4 & H4 & T4 & E4); try lia.
  { intros x Hx. apply Hmap. lia. }
  exists s4. rewrite H4. split; [|split; [done|by eapply same_top_trans, same_top_trans]].
  rewrite <- Hslice, <- app_assoc. do 2 f_equal. replace (Z.to_nat (n - tot)) with (Z.to_nat m + Z.to_nat (n - (tot + m)))%nat by lia.
  rewrite fbytes_app. do 2 f_equal. lia.
Qed.

Lemma readi_ok `{DEV : Devsw} s v hs ip i off n j k :
  ftx s v hs (S j) k -> v_held v = ∅ -> f_inodes s !! ip = Some i -> i_dev i = 1 -> wf_file v i ->
  i_type i <> T_DEV -> 0 <= off -> 0 <= n -> off + n <= i_size i -> i_size i <= INT_MAX ->
  (forall x, off <= x < off + n -> exists a, maps v i (x / BSIZE) a) ->
  exists s', readi ip off n s = Ret (n, fbytes v i off (Z.to_nat n)) s' /\
    ftx s' v hs (S j) k /\ same_top s s'.
Proof.
  intros T He Hi Hdev Hwf Hty Hoff Hn Hsz Hmax Hmap. unfold readi.
  rewrite (bind_Ret _ _ _ _ _ (inode_at_eq _ _ _ Hi)). destruct (Z.eqb_spec (i_type i) T_DEV); [done|].
  rewrite (u32_int (off + n)) by lia.
  destruct (Z.gtb_spec off (i_size i)); [lia|]. destruct (Z.ltb_spec (off + n) off); [lia|]. cbn [orb].
  destruct (Z.gtb_spec (off + n) (i_size i)); [lia|].
  destruct (readi_loop_ok ip i v hs j k (S (Z.to_nat n)) s off n 0 [] T He Hi Hdev Hwf) as (s' & HL & T1 & E1); try lia.
  { intros x Hx. apply Hmap. lia. }
  exists s'. rewrite (bind_Ret _ _ _ _ _ HL). rewrite Z.sub_0_r. split; [|done]. unfold ret.
  rewrite s32_id; [done|]. unfold INT_MIN. lia.
Qed.

(** * writei *)

Lemma put_slice_ok d o src :
  (o + length src <= length d)%nat -> exists d', put_slice d o src = Some d' /\ length d' = length d /\
    forall x, d' !! x = if decide (o <= x < o + length src)%nat then src !! (x - o)%nat else d !! x.
Proof.
  intros Hl. unfold put_slice. rewrite (proj2 (Nat.leb_le _ _) Hl). eexists. split; [done|].
  assert (length (take o d) = o) as Ht by (apply length_take_le; lia). split.
  - rewrite !length_app, Ht, length_drop. lia.
  - intros x. case_decide as Hx.
    + rewrite lookup_app_r by lia. rewrite lookup_app_l by lia. by rewrite Ht.
    + destruct (decide (x < o)%nat).
      * rewrite lookup_app_l by lia. by rewrite lookup_take_lt.
      * rewrite !lookup_app_r by lia. rewrite lookup_drop. f_equal. lia.
Qed.

(** A data block of the file is overwritten: the addresses stay. *)
Lemma addr_of_upd v i bn a d' b :
  wf_file v i -> maps v i bn a -> addr_of (v_upd a d' v) i b = addr_of v i b.
Proof.
  intros Hwf Hm. unfold addr_of. destruct (b <? NDIRECT); [done|].
  destruct (arr_get (i_addrs i) NDIRECT) as [a1|] eqn:Ha1; [|done]. simpl. destruct (a1 =? 0); [done|].
  destruct (wf_len _ _ Hwf _ _ Hm) as (d & Hd & _). pose proof (arr_get_bounds _ _ _ Hd).
  rewrite arr_get_set by done. rewrite decide_False; [done|]. intros ->. by eapply (wf_ind _ _ Hwf).
Qed.

Lemma maps_upd v i bn a d' b c :
  wf_file v i -> maps v i bn a -> maps (v_upd a d' v) i b c <-> maps v i b c.
Proof. intros Hwf Hm. unfold maps. by rewrite (addr_of_upd v i bn). Qed.

Lemma wf_file_upd v i bn a d' :
  wf_file v i -> maps v i bn a -> length d' = Z.to_nat BSIZE -> wf_file (v_upd a d' v) i.
Proof.
  intros Hwf Hm Hl. pose proof (maps_upd v i bn a d') as Hmu. split.
  - intros b1 b2 c H1%Hmu H2%Hmu; try done. by eapply (wf_inj _ _ Hwf).
  - intros b c H1%Hmu; try done. by eapply (wf_ind _ _ Hwf).
  - intros b c H1%Hmu; try done. destruct (wf_len _ _ Hwf _ _ Hm) as (d & Hd & _).
    pose proof (arr_get_bounds _ _ _ Hd). simpl. rewrite arr_get_set by done. case_decide; [by eexists|].
    by eapply (wf_len _ _ Hwf).
Qed.

(** The bytes after overwriting part of block [bn]. *)
Lemma fbyte_upd v i bn a d d' o src x :
  wf_file v i -> maps v i bn a -> arr_get (v_view v) a = Some d -> 0 <= x ->
  (forall y, d' !! y = if decide (o <= y < o + length src)%nat then src !! (y - o)%nat else d !! y) ->
  (o + length src <= Z.to_nat BSIZE)%nat -> (exists c, maps v i (x / BSIZE) c) ->
  fbyte (v_upd a d' v) i x =
    let start := bn * BSIZE + Z.of_nat o in
    if decide (start <= x < start + Z.of_nat (length src)) then default 0 (src !! Z.to_nat (x - start))
    else fbyte v i x.
Proof.
  intros Hwf Hm Hd Hx Hd' Hos [c Hc]. pose proof (arr_get_bounds _ _ _ Hd) as Ha.
  change (Z.to_nat BSIZE) with 512%nat in Hos. rewrite BSIZE_val in *.
  pose proof (Z.mod_pos_bound x 512 ltac:(lia)). pose proof (Z.div_mod x 512 ltac:(lia)).
  unfold fbyte. rewrite BSIZE_val, (addr_of_upd v i bn) by done. pose proof Hc as (_ & Hca & _). rewrite Hca. simpl.
  rewrite arr_get_set by done. destruct (decide (c = a)) as [->|Hne].
  - assert (x / 512 = bn) as Ebn by by eapply (wf_inj _ _ Hwf). rewrite Hd. simpl.
    unfold arr_get. destruct (Z.leb_spec 0 (x mod 512)); [|lia]. rewrite Hd'.
    case_decide as Hc1; case_decide as Hc2; try lia. do 2 f_equal. lia.
  - rewrite decide_False; [done|]. intros Hr. apply Hne.
    assert (x / 512 = bn) as Ebn by (symmetry; apply Z.div_unique with (x - bn * 512); lia).
    rewrite Ebn in Hca. destruct Hm as (_ & Hma & _). congruence.
Qed.

(** How many blocks the range of [r] bytes from [off] on touches. *)
Definition nblocks (off r : Z) : Z := if r <=? 0 then 0 else (off mod BSIZE + r + BSIZE - 1) / BSIZE.

Lemma nblocks_step off r :
  0 <= off -> 0 < r ->
  let m := Z.min r (BSIZE - off mod BSIZE) in nblocks off r = 1 + nblocks (off + m) (r - m).
Proof.
  intros Ho Hr m. unfold nblocks, m. rewrite BSIZE_val in *. pose proof (Z.mod_pos_bound off 512 ltac:(lia)) as Hm.
  destruct (Z.leb_spec r 0); [lia|]. destruct (Z.le_gt_cases r (512 - off mod 512)) as [Hle|Hgt].
  - rewrite Z.min_l by done. destruct (Z.leb_spec (r - r) 0); [|lia]. rewrite Z.add_0_r.
    symmetry. apply Z.div_unique with (off mod 512 + r - 1); lia.
  - rewrite Z.min_r by lia. destruct (Z.leb_spec (r - (512 - off mod 512)) 0); [lia|].
    replace ((off + (512 - off mod 512)) mod 512) with 0.
    + replace (off mod 512 + r + 512 - 1) with (r - (512 - off mod 512) + 512 - 1 + 1 * 512) by lia.
      rewrite Z.div_add by lia. rewrite Z.add_comm. done.
    + pose proof (Z.div_mod off 512 ltac:(lia)). symmetry.
      replace (off + (512 - off mod 512)) with ((off / 512 + 1) * 512) by lia. apply Z.mod_mul. lia.
Qed.

(** What writing [src] at [off] does to a file. *)
Record written (v v' : vdisk) (i : inode) (off : Z) (src : list Z) : Prop := Written {
  wr_wf : wf_file v' i;
  wr_maps : forall b c, maps v' i b c <-> maps v i b c;
  wr_bytes : forall x, 0 <= x -> (exists c, maps v i (x / BSIZE) c) ->
    fbyte v' i x = if decide (off <= x < off + Z.of_nat (length src)) then default 0 (src !! Z.to_nat (x - off))
                   else fbyte v i x;
  wr_other : forall n, (forall b, ~ maps v i b n) -> arr_get (v_view v') n = arr_get (v_view v) n;
  wr_disk : v_disk v' = v_disk v;
  wr_held : v_held v' = v_held v
}.

Lemma written_nil v i off : wf_file v i -> written v v i off [].
Proof. intros H. split; try done. intros x Hx _. rewrite decide_False; [done|]. simpl. lia. Qed.

Lemma written_app v1 v2 v3 i off src1 src2 :
  written v1 v2 i off src1 -> written v2 v3 i (off + Z.of_nat (length src1)) src2 ->
  written v1 v3 i off (src1 ++ src2).
Proof.
  intros [W1 M1 B1 O1 D1 H1] [W2 M2 B2 O2 D2 H2]. split; try congruence.
  - intros b c. by rewrite M2, M1.
  - intros x Hx Hmap. rewrite B2, B1; [|done|done|done|]; [|destruct Hmap as [c Hc]; exists c; by apply M1].
    rewrite length_app. case_decide as C1; case_decide as C2; try case_decide as C3; try lia; try done.
    + rewrite lookup_app_r by lia. do 2 f_equal. lia.
    + rewrite lookup_app_l by lia. done.
  - intros n Hn. rewrite O2, O1; [done|done|]. intros b Hb. by eapply Hn, M1.
Qed.

(** One block of the loop. *)
Lemma written_block v i bn a d d' o src :
  wf_file v i -> maps v i bn a -> arr_get (v_view v) a = Some d -> length d = Z.to_nat BSIZE ->
  put_slice d o src = Some d' -> (o + length src <= Z.to_nat BSIZE)%nat ->
  written v (v_upd a d' v) i (bn * BSIZE + Z.of_nat o) src.
Proof.
  intros Hwf Hm Hd Hlen Hput Hos. destruct (put_slice_ok d o src) as (d2 & Hput2 & Hl2 & Hd2); [lia|].
  rewrite Hput in Hput2. injection Hput2 as <-. pose proof (arr_get_bounds _ _ _ Hd) as Ha. split; try done.
  - eapply wf_file_upd; [done|done|lia].
  - intros b c. by apply (maps_upd v i bn).
  - intros x Hx Hmap. by apply (fbyte_upd v i bn a d d' o src).
  - intros n Hn. simpl. rewrite arr_get_set by done. rewrite decide_False; [done|]. intros ->. by eapply Hn.
Qed.

Lemma writei_loop_ok ip i j : forall fuel s v hs k src off n tot,
  ftx s v hs (S j) k -> v_held v = ∅ -> f_inodes s !! ip = Some i -> i_dev i = 1 -> wf_file v i ->
  0 <= off -> tot <= n -> n - tot < Z.of_nat fuel -> Z.of_nat (length src) = n - tot ->
  (forall x, off <= x < off + (n - tot) -> exists a, maps v i (x / BSIZE) a) ->
  nblocks off (n - tot) <= Z.of_nat k ->
  exists s' v' hs' k', writei_loop fuel ip src off n tot s = Ret (off + (n - tot)) s' /\
    ftx s' v' hs' (S j) k' /\ Z.of_nat k = Z.of_nat k' + nblocks off (n - tot) /\ same_top s s' /\
    written v v' i off src.
Proof.
  induction fuel as [|fuel IH]; intros s v hs k src off n tot T He Hi Hdev Hwf Hoff Hn Hfuel Hsrc Hmap Hk; [lia|]. simpl.
  destruct (Z.ltb_spec tot n) as [Hlt|Hge].
  2: { assert (n - tot = 0) as E by lia. rewrite E in *. destruct src; [|simpl in Hsrc; lia].
       exists s, v, hs, k. rewrite Z.add_0_r. split; [done|]. split; [done|]. split; [by rewrite Z.add_0_r|].
       split; [done|by apply written_nil]. }
  rewrite (bind_Ret _ _ _ _ _ (inode_at_eq _ _ _ Hi)).
  destruct (Hmap off) as [a Ha]; [lia|].
  destruct (bmap_ok s v hs ip i _ a j k T He Hi Hdev Ha) as (s1 & H1 & T1 & E1).
  destruct (wf_len _ _ Hwf _ _ Ha) as (d & Hd & Hlen).
  rewrite (nblocks_step off (n - tot)) in * by lia.
  set (m := Z.min (n - tot) (BSIZE - off mod BSIZE)) in *. set (o := Z.to_nat (off mod BSIZE)).
  assert (0 <= nblocks (off + m) (n - tot - m)) as Hnn.
  { unfold nblocks. destruct (Z.leb_spec (n - tot - m) 0); [lia|]. rewrite BSIZE_val.
    pose proof (Z.mod_pos_bound (off + m) 512 ltac:(lia)). apply Z.div_pos; lia. }
  destruct k as [|k]; [lia|]. assert (m = Z.min (n - tot) (512 - off mod 512)) as Em by done. clearbody m.
  pose proof (Z.mod_pos_bound off 512 ltac:(lia)) as Ho. pose proof (Z.div_mod off 512 ltac:(lia)) as Hoff'.
  assert (length (take (Z.to_nat m) src) = Z.to_nat m) as Htl by (apply length_take_le; lia).
  destruct (put_slice_ok d o (take (Z.to_nat m) src)) as (d' & Hput & _ & _).
  { rewrite Hlen, Htl. change (Z.to_nat BSIZE) with 512%nat. unfold o. rewrite BSIZE_val. lia. }
  destruct (f_change s1 v hs a d (fun d => put_slice d o (take (Z.to_nat m) src)) d' j k T1)
    as (bp & s2 & s3 & s4 & s5 & H2 & H3 & H4 & H5 & T5 & E5); [by rewrite He|done|done|].
  rewrite (bind_Ret _ _ _ _ _ H1), Hdev, (bind_Ret _ _ _ _ _ H2), (bind_Ret _ _ _ _ _ H3),
    (bind_Ret _ _ _ _ _ H4), (bind_Ret _ _ _ _ _ H5).
  assert (written v (v_upd a d' v) i off (take (Z.to_nat m) src)) as W1.
  { replace off with (off / BSIZE * BSIZE + Z.of_nat o) by (unfold o; rewrite BSIZE_val; lia).
    apply (written_block v i _ a d d'); try done.
    rewrite Htl. change (Z.to_nat BSIZE) with 512%nat. unfold o. rewrite BSIZE_val. lia. }
  assert (f_inodes s5 !! ip = Some i) as Hi5.
  { rewrite (proj1 (proj2 E5)), (proj1 (proj2 E1)). done. }
  destruct (IH s5 _ _ k (drop (Z.to_nat m) src) (off + m) n (tot + m) T5 He Hi5 Hdev (wr_wf _ _ _ _ _ W1))
    as (s6 & v6 & hs6 & k6 & H6 & T6 & Hk6 & E6 & W6); try lia.
  { rewrite length_drop. lia. }
  { intros x Hx. destruct (Hmap x) as [c Hc]; [lia|]. exists c. by apply W1. }
  { replace (n - (tot + m)) with (n - tot - m) by lia. lia. }
  replace (n - (tot + m)) with (n - tot - m) in * by lia.
  exists s6, v6, hs6, k6. rewrite H6. split; [f_equal; lia|]. split; [done|]. split; [lia|].
  split; [by eapply same_top_trans, same_top_trans|].
  rewrite <- (take_drop (Z.to_nat m) src). eapply written_app; [done|]. rewrite Htl. by rewrite Z2Nat.id by lia.
Qed.

(** A block that is no part of the file changes. *)
Lemma file_frame v i n d :
  wf_file v i -> 0 <= n < Z.of_nat (length (v_view v)) ->
  (forall b, ~ maps v i b n) -> arr_get (i_addrs i) NDIRECT <> Some n ->
  wf_file (v_upd n d v) i /\ (forall b c, maps (v_upd n d v) i b c <-> maps v i b c) /\
  (forall x, 0 <= x -> (exists c, maps v i (x / BSIZE) c) -> fbyte (v_upd n d v) i x = fbyte v i x).
Proof.
  intros [W1 W2 W3] Hn Hno Hni.
  assert (forall b, addr_of (v_upd n d v) i b = addr_of v i b) as Haddr.
  { intros b. unfold addr_of. destruct (b <? NDIRECT); [done|].
    destruct (arr_get (i_addrs i) NDIRECT) as [a1|] eqn:Ha1; [|done]. simpl. destruct (a1 =? 0); [done|].
    rewrite arr_get_set by done. rewrite decide_False by congruence. done. }
  assert (forall b c, maps (v_upd n d v) i b c <-> maps v i b c) as Hm by (intros b c; unfold maps; by rewrite Haddr).
  assert (forall b c, maps v i b c -> arr_get (v_view (v_upd n d v)) c = arr_get (v_view v) c) as Hv.
  { intros b c Hc. simpl. rewrite arr_get_set by done. rewrite decide_False; [done|]. intros ->. by eapply Hno. }
  split; [|split; [done|]].
  - split.
    + intros b1 b2 c H1%Hm H2%Hm. by eapply W1.
    + intros b c H1%Hm. by eapply W2.
    + intros b c H1%Hm. rewrite (Hv b c H1). by eapply W3.
  - intros x Hx [c Hc]. unfold fbyte. rewrite Haddr. pose proof Hc as (_ & Ha & _). rewrite Ha. simpl.
    pose proof (Hv _ _ Hc) as E. simpl in E. by rewrite E.
Qed.

Lemma writei_ok `{DEV : Devsw} s v hs ip i src off d j k :
  let n := Z.of_nat (length src) in let nb := IBLOCK (i_inum i) (f_sb s) in
  ftx s v hs (S j) k -> v_held v = ∅ -> f_inodes s !! ip = Some i -> i_dev i = 1 -> wf_file v i ->
  fits i -> i_type i <> T_DEV -> 0 <= off <= i_size i -> off + n <= MAXFILE * BSIZE ->
  (forall x, off <= x < off + n -> exists a, maps v i (x / BSIZE) a) ->
  nblocks off n + 1 <= Z.of_nat k ->
  (forall b, ~ maps v i b nb) -> arr_get (i_addrs i) NDIRECT <> Some nb ->
  arr_get (v_view v) nb = Some d -> length d = Z.to_nat BSIZE ->
  exists s' v' hs' k', writei ip src off n s = Ret n s' /\ ftx s' v' hs' (S j) k' /\ v_held v' = ∅ /\
    f_inodes s' = <[ip := set_i_size (Z.max (i_size i) (off + n)) i]> (f_inodes s) /\ f_sb s' = f_sb s /\
    wf_file v' i /\ (forall b c, maps v' i b c <-> maps v i b c) /\
    (forall x, 0 <= x -> (exists c, maps v i (x / BSIZE) c) ->
      fbyte v' i x = if decide (off <= x < off + n) then default 0 (src !! Z.to_nat (x - off)) else fbyte v i x).
Proof.
  intros n nb T He Hi Hdev Hwf Hfit Hty Hoff Hmaxf Hmap Hk Hnb Hni Hd Hdl.
  assert (MAXFILE * BSIZE = 71680) as Hmf by done.
  destruct (writei_loop_ok ip i j (S (Z.to_nat n)) s v hs k src off n 0) as (s1 & v1 & hs1 & k1 & H1 & T1 & Hk1 & E1 & W1);
    try done; try lia.
  { intros x Hx. apply Hmap. lia. }
  { rewrite Z.sub_0_r. lia. }
  rewrite Z.sub_0_r in *. pose proof (lookup_lt_Some _ _ _ Hi) as Hlt.
  assert (f_inodes s1 = f_inodes s) as Ei by apply E1.
  unfold writei. rewrite (bind_Ret _ _ _ _ _ (inode_at_eq _ _ _ Hi)). destruct (Z.eqb_spec (i_type i) T_DEV); [done|].
  rewrite (u32_int (off + n)) by (unfold INT_MAX; lia).
  destruct (Z.gtb_spec off (i_size i)); [lia|]. destruct (Z.ltb_spec (off + n) off); [lia|]. cbn [orb].
  destruct (Z.gtb_spec (off + n) (MAXFILE * BSIZE)); [lia|].
  rewrite (bind_Ret _ _ _ _ _ H1). rewrite <- Ei in Hi.
  rewrite (bind_Ret _ _ _ _ _ (inode_at_eq _ _ _ Hi)).
  assert (s32 n = n) as Hs32 by (apply s32_id; unfold INT_MIN, INT_MAX; lia).
  destruct ((n >? 0) && (off + n >? i_size i)) eqn:Hg.
  2: { assert (Z.max (i_size i) (off + n) = i_size i) as Emax.
       { destruct (Z.gtb_spec n 0), (Z.gtb_spec (off + n) (i_size i)); try done; lia. }
       rewrite ret_bind. exists s1, v1, hs1, k1. unfold ret. rewrite Hs32, Emax. split; [done|]. split; [done|].
       split; [by rewrite (wr_held _ _ _ _ _ W1)|]. split; [|split; [apply E1|split; [apply W1|split; apply W1]]].
       rewrite Ei in *. rewrite list_insert_id; [done|]. rewrite Hi. f_equal. by destruct i. }
  apply andb_true_iff in Hg as [Hn0%Z.gtb_lt Hgrow%Z.gtb_lt].
  set (i' := set_i_size (off + n) i). set (s2 := put_inode ip i' s1).
  assert (length (v_view v1) = length (v_view v)) as Hvl.
  { rewrite (br_len _ _ (it_brep _ _ _ (ft_tx _ _ _ _ _ T1))), (wr_disk _ _ _ _ _ W1).
    by rewrite (br_len _ _ (it_brep _ _ _ (ft_tx _ _ _ _ _ T))). }
  destruct k1 as [|k1]; [lia|].
  destruct (iupdate_ok s2 v1 hs1 ip i' d j k1) as (s3 & d' & H3 & T3 & E3 & _).
  { by apply put_inode_tx. }
  { apply inodes_put. by rewrite Ei. }
  { done. }
  { destruct Hfit. split; try done. simpl. lia. }
  { simpl. by rewrite (wr_held _ _ _ _ _ W1), He. }
  { simpl. rewrite (proj1 E1). rewrite (wr_other _ _ _ _ _ W1) by done. done. }
  { done. }
  destruct (file_frame v1 i nb d' (wr_wf _ _ _ _ _ W1)) as (F1 & F2 & F3); [|intros b Hb%(wr_maps _ _ _ _ _ W1); by eapply Hnb|done|].
  { rewrite Hvl. by apply (arr_get_bounds _ _ _ Hd). }
  rewrite (bind_Ret _ _ _ tt s3).
  2: { rewrite (bind_Ret _ _ _ _ _ (upd_inode_eq _ _ _ _ Hi)). done. }
  simpl in T3. rewrite (proj1 E1) in T3. fold nb in T3. eexists s3, _, _, k1. unfold ret. rewrite Hs32.
  split; [done|]. split; [exact T3|]. split; [by simpl; rewrite (wr_held _ _ _ _ _ W1)|].
  split; [rewrite (proj1 (proj2 E3)); simpl; rewrite Ei; unfold i'; by rewrite Z.max_r by lia|].
  split; [rewrite (proj1 E3); apply E1|]. split; [done|]. split; [intros b c; by rewrite F2, (wr_maps _ _ _ _ _ W1)|].
  intros x Hx [c Hc]. rewrite F3; [|done|exists c; by apply (wr_maps _ _ _ _ _ W1)].
  apply (wr_bytes _ _ _ _ _ W1); eauto.
Qed.

(** C4: writing to a range of a file whose blocks are allocated returns the
    number of bytes, makes the file long enough, and changes the bytes of the
    range to those written and no other byte of the file, all inside the
    transaction; reading the range back returns what was written. *)
Theorem writei_then_readi `{DEV : Devsw} s v hs ip i src off d j k :
  let n := Z.of_nat (length src) in let nb := IBLOCK (i_inum i) (f_sb s) in
  ftx s v hs (S j) k -> v_held v = ∅ -> f_inodes s !! ip = Some i -> i_dev i = 1 -> wf_file v i ->
  fits i -> i_type i <> T_DEV -> 0 <= off <= i_size i -> off + n <= MAXFILE * BSIZE -> i_size i <= MAXFILE * BSIZE ->
  (forall x, off <= x < off + n -> exists a, maps v i (x / BSIZE) a) ->
  nblocks off n + 1 <= Z.of_nat k ->
  (forall b, ~ maps v i b nb) -> arr_get (i_addrs i) NDIRECT <> Some nb ->
  arr_get (v_view v) nb = Some d -> length d = Z.to_nat BSIZE ->
  exists s' v' hs' k',
    (w <- writei ip src off n ;; r <- readi ip off n ;; ret (w, r)) s = Ret (n, (n, src)) s' /\
    ftx s' v' hs' (S j) k' /\
    f_inodes s' = <[ip := set_i_size (Z.max (i_size i) (off + n)) i]> (f_inodes s) /\
    (forall x, 0 <= x -> (exists c, maps v i (x / BSIZE) c) -> ~ (off <= x < off + n) -> fbyte v' i x = fbyte v i x).
Proof.
  intros n nb T He Hi Hdev Hwf Hfit Hty Hoff Hmaxf Hsz Hmap Hk Hnb Hni Hd Hdl.
  destruct (writei_ok s v hs ip i src off d j k) as (s1 & v1 & hs1 & k1 & H1 & T1 & He1 & Ei & _ & W & M & F); try done.
  pose proof (lookup_lt_Some _ _ _ Hi) as Hlt. set (i1 := set_i_size _ i) in *.
  destruct (readi_ok s1 v1 hs1 ip i1 off n j k1) as (s2 & H2 & T2 & E2); try done; try (simpl; lia).
  { rewrite Ei. by apply list_lookup_insert_eq. }
  { destruct W as [W1 W2 W3]. by split. }
  { simpl. change (MAXFILE * BSIZE) with 71680 in *. unfold INT_MAX. lia. }
  { intros x Hx. destruct (Hmap x Hx) as [a Ha]. exists a. by apply M. }
  exists s2, v1, hs1, k1. split.
  - rewrite (bind_Ret _ _ _ _ _ H1), (bind_Ret _ _ _ _ _ H2). unfold ret. do 3 f_equal.
    apply list_eq. intros x. unfold fbytes. rewrite list_lookup_fmap. destruct (decide (x < length src)%nat) as [Hx|Hx].
    + rewrite lookup_seq_lt by (unfold n; lia). simpl. change (fbyte v1 i1) with (fbyte v1 i).
      rewrite F; [|lia|apply Hmap; unfold n; lia]. rewrite decide_True by (unfold n; lia).
      replace (Z.to_nat (off + Z.of_nat x - off)) with x by lia.
      by destruct (lookup_lt_is_Some_2 src x Hx) as [c ->].
    + rewrite (proj2 (lookup_ge_None (seq 0 _) x)); [|rewrite length_seq; unfold n; lia].
      symmetry. apply lookup_ge_None. lia.
  - split; [done|]. split; [by rewrite (proj1 (proj2 E2))|]. intros x Hx Hm Hout. rewrite F by done.
    by rewrite decide_False.
Qed.
