(* ===== verification/FsExample.v ===== *)
(** A small file system: sixteen blocks, one file of three bytes, and the
    theorems of [FsBlocks], [FsInode] and [FsFile] on it. *)
From S2P Require Import Prelude CString Bytes Bio BioSpec Log LogSpec LogCrash LogWrite Fs FsSpec FsBlocks FsInode FsFile.

Definition e_sb : superblock := Superblock 16 4 8 8 2 10 11.
Definition e_sbblock : block := put_uints zero_block 0 [16; 4; 8; 8; 2; 10; 11].
Definition e_bitmap : block := 255 :: 31 :: replicate 510 0.
Definition e_inode : inode :=
  Inode 1 1 1 (Sleeplock 0 0) I_VALID T_FILE 0 0 1 3 (12 :: replicate 12 0).
Definition e_inodes : block := default [] (put_dinode zero_block 64 e_inode).
Definition e_file : block := [104; 105; 33] ++ replicate 509 0.
Definition e_disk : list block :=
  [zero_block; e_sbblock] ++ replicate 8 zero_block ++ [e_inodes; e_bitmap; e_file; zero_block; zero_block; zero_block].
Definition e_view : vdisk := VDisk e_disk e_disk ∅ ∅ [].
Definition e_bio : bio :=
  Bio (map (set_b_lock initsleeplock) (replicate (Z.to_nat NBUF) zero_buf))
    (reverse (seq 0 (Z.to_nat NBUF))) e_disk [] 1.
Definition e_log : log := Log 2 8 1 0 1 0 (replicate (Z.to_nat LOGSIZE) 0).
Definition free_inode : inode := Inode 0 0 0 (Sleeplock 0 0) 0 0 0 0 0 0 [].
Definition e_fs : fss := Fss (Lst e_bio e_log) e_sb (e_inode :: replicate 49 free_inode) 0.

#[local] Instance no_devices : Devsw := {| dev_read := fun _ => None; dev_write := fun _ => None |}.

Lemma e_brep : brep e_bio e_view.
Proof.
  destruct (binit_ok e_disk 1) as (b & Hb & R). assert (b = e_bio) as -> by (injection Hb as <-; done). exact R.
Qed.

(** The transaction has just begun. *)
Lemma e_ftx : ftx e_fs e_view [] 7 7.
Proof.
  split; split.
  - exact e_brep.
  - split; [reflexivity|split; [reflexivity|by intros []]|constructor].
  - reflexivity.
  - constructor.
  - vm_compute. discriminate.
  - vm_compute. discriminate.
  - vm_compute. discriminate.
  - done.
  - change (Z.to_nat (l_size (l_log (f_l e_fs)))) with 8%nat. simpl. lia.
  - change (v_held e_view) with (∅ : gmap Z nat). rewrite map_size_empty. simpl. lia.
Qed.

Lemma e_sb_ok : sb_ok e_sb.
Proof. split; vm_compute; intuition congruence. Qed.

Lemma e_used c : 0 <= c < 13 -> used e_view e_sb c true.
Proof.
  intros Hc. exists e_bitmap.
  assert (c = 0 \/ c = 1 \/ c = 2 \/ c = 3 \/ c = 4 \/ c = 5 \/ c = 6 \/ c = 7 \/ c = 8 \/ c = 9 \/ c = 10 \/ c = 11 \/ c = 12)
    as Hcs by lia.
  repeat (destruct Hcs as [->|Hcs]; [split; vm_compute; reflexivity|]). subst. split; vm_compute; reflexivity.
Qed.

Lemma e_free : used e_view e_sb 13 false.
Proof. exists e_bitmap. split; vm_compute; reflexivity. Qed.

Lemma e_not_bitmap : not_bitmap e_sb 13.
Proof.
  intros c Hc E. unfold BBLOCK in E. change (sb_size e_sb) with 16 in Hc. change (sb_bmapstart e_sb) with 11 in E.
  rewrite Z.div_small in E by (rewrite BPB_val; lia). vm_compute in E. discriminate.
Qed.

Lemma balloc_takes_first_free_witness :
  exists s' v' hs', balloc 1 e_fs = Ret 13 s' /\ ftx s' v' hs' 7 5 /\ same_top e_fs s' /\
    bit_changed e_view v' e_sb 13 true /\ arr_get (v_view v') 13 = Some zero_block.
Proof.
  apply (balloc_takes_first_free e_fs e_view [] 13 6 5).
  - exact e_ftx.
  - exact e_sb_ok.
  - vm_compute. intuition congruence.
  - vm_compute. discriminate.
  - exact e_used.
  - exact e_free.
  - exact e_not_bitmap.
  - reflexivity.
Defined.

Lemma bfree_undoes_balloc_witness :
  exists s' v' hs', (x <- balloc 1 ;; bfree 1 x) e_fs = Ret tt s' /\ ftx s' v' hs' 7 4 /\ same_top e_fs s' /\
    forall c u, 0 <= c < sb_size e_sb -> used v' e_sb c u <-> used e_view e_sb c u.
Proof.
  apply (bfree_undoes_balloc e_fs e_view [] 13 e_sbblock 6 4).
  - exact e_ftx.
  - exact e_sb_ok.
  - vm_compute. intuition congruence.
  - vm_compute. discriminate.
  - exact e_used.
  - exact e_free.
  - exact e_not_bitmap.
  - reflexivity.
  - vm_compute. reflexivity.
  - vm_compute. reflexivity.
  - discriminate.
  - vm_compute. discriminate.
Defined.

Lemma e_fits : fits e_inode.
Proof.
  split; simpl; try (unfold T_FILE; lia). split; [reflexivity|]. repeat constructor; lia.
Qed.

Lemma inode_survives_eviction_witness :
  exists s' e i', (iupdate 0 ;; iput 0 ;; e <- iget 1 1 ;; ilock e ;; ret e) e_fs = Ret e s' /\
    f_inodes s' !! e = Some i' /\ i_inum i' = 1 /\ i_flags i' = I_VALID /\ i_ref i' = 1 /\
    with_disk e_inode i' = i'.
Proof.
  apply (inode_survives_eviction e_fs e_view [] 0 e_inode e_inodes 6 6).
  - exact e_ftx.
  - reflexivity.
  - reflexivity.
  - exact e_fits.
  - reflexivity.
  - discriminate.
  - discriminate.
  - constructor; [done|]. by apply Forall_replicate.
  - constructor; [done|]. by apply Forall_replicate.
  - reflexivity.
  - vm_compute. reflexivity.
  - vm_compute. reflexivity.
Defined.

(** Block 0 of the file is the only one. *)
Lemma e_maps b c : maps e_view e_inode b c -> b = 0 /\ c = 12.
Proof.
  intros (Hb & Ha & Hc). unfold addr_of in Ha. change NDIRECT with 12 in Ha. destruct (Z.ltb_spec b 12) as [Hlt|Hge].
  - destruct (decide (b = 0)) as [->|Hb0]; [by injection Ha as <-|]. exfalso. unfold arr_get in Ha.
    destruct (Z.leb_spec 0 b); [|lia]. change (i_addrs e_inode) with (12 :: replicate 12 0) in Ha.
    destruct (Z.to_nat b) as [|x] eqn:Ex; [lia|]. simpl in Ha.
    change (replicate 12 0 !! x = Some c) in Ha. apply lookup_replicate in Ha as [-> _]. done.
  - vm_compute in Ha. congruence.
Qed.

Lemma e_wf : wf_file e_view e_inode.
Proof.
  split.
  - intros b1 b2 a [-> _]%e_maps [-> _]%e_maps. done.
  - intros b a [_ ->]%e_maps. vm_compute. discriminate.
  - intros b a [_ ->]%e_maps. exists e_file. split; vm_compute; reflexivity.
Qed.

Lemma writei_then_readi_witness :
  exists s' v' hs' k',
    (w <- writei 0 [1; 2; 3; 4] 2 4 ;; r <- readi 0 2 4 ;; ret (w, r)) e_fs = Ret (4, (4, [1; 2; 3; 4])) s' /\
    ftx s' v' hs' 7 k' /\ f_inodes s' = <[0%nat := set_i_size 6 e_inode]> (f_inodes e_fs) /\
    (forall x, 0 <= x -> (exists c, maps e_view e_inode (x / BSIZE) c) -> ~ (2 <= x < 6) ->
       fbyte v' e_inode x = fbyte e_view e_inode x).
Proof.
  apply (writei_then_readi e_fs e_view [] 0 e_inode [1; 2; 3; 4] 2 e_inodes 6 7).
  - exact e_ftx.
  - reflexivity.
  - reflexivity.
  - reflexivity.
  - exact e_wf.
  - exact e_fits.
  - discriminate.
  - simpl. lia.
  - vm_compute. discriminate.
  - vm_compute. discriminate.
  - intros x Hx. simpl in Hx. exists 12. rewrite BSIZE_val, Z.div_small by lia. vm_compute. intuition congruence.
  - vm_compute. discriminate.
  - intros b [_ E]%e_maps. vm_compute in E. discriminate.
  - vm_compute. discriminate.
  - vm_compute. reflexivity.
  - vm_compute. reflexivity.
Defined.
