(* ===== verification/FsPath.v ===== *)
(** Path names: skipelem of fs.c against the list of the elements of a path. *)
From S2P Require Import Prelude CString Bytes Bio Log Fs.

(** The pieces between slashes, empty ones included. *)
Fixpoint pieces (p : list Z) : list (list Z) :=
  match p with
  | [] => [[]]
  | c :: p' =>
      if c =? SLASH then [] :: pieces p'
      else match pieces p' with e :: es => (c :: e) :: es | [] => [[c]] end
  end.

(** The elements of a path. *)
Definition elements_of (p : list Z) : list (list Z) := filter (fun e => e <> []) (pieces p).

Lemma pieces_cons p : exists e es, pieces p = e :: es.
Proof.
  destruct p as [|c p]; simpl; [by eexists _, _|]. destruct (c =? SLASH); [by eexists _, _|].
  destruct (pieces p); by eexists _, _.
Qed.

Lemma elements_skip p : elements_of (skip_slashes p) = elements_of p.
Proof.
  induction p as [|c p IH]; [done|]. simpl. destruct (c =? SLASH) eqn:E; [|done]. rewrite IH.
  unfold elements_of. simpl. rewrite E. rewrite filter_cons_False; [done|]. intros H. by apply H.
Qed.

Lemma skip_slashes_head p : match skip_slashes p with [] => True | c :: _ => c <> SLASH end.
Proof.
  induction p as [|c p IH]; [done|]. simpl. destruct (Z.eqb_spec c SLASH) as [->|Hne]; [apply IH|done].
Qed.

Lemma skip_slashes_length p : (length (skip_slashes p) <= length p)%nat.
Proof. induction p as [|c p IH]; [done|]. simpl. destruct (c =? SLASH); simpl; lia. Qed.

(** The first piece, and the path from its slash on. *)
Lemma split_elem_spec p :
  let (e, r) := split_elem p in
  p = e ++ r /\ Forall (fun c => c <> SLASH) e /\
  match r with [] => pieces p = [e] | c :: r' => c = SLASH /\ pieces p = e :: pieces r' end.
Proof.
  induction p as [|c p IH]; simpl; [done|]. destruct (Z.eqb_spec c SLASH) as [->|Hne]; [by repeat split|].
  destruct (split_elem p) as [e r]. destruct IH as (-> & Hf & Hr). repeat split.
  - by constructor.
  - destruct r as [|c' r'].
    + by rewrite Hr.
    + destruct Hr as [-> Hr]. by rewrite Hr.
Qed.

(** The string a name buffer of DIRSIZ bytes holds. *)
Definition name_str (name : list Z) : list Z := cstr (place name 0 mem0) 0 (Z.to_nat DIRSIZ).

Lemma cstr_place l n : Forall (fun c => c <> 0) l -> (length l <= n)%nat ->
  forall rest, (length l = n \/ exists r, rest = 0 :: r) ->
  forall a, cstr (place (l ++ rest) a mem0) a n = l.
Proof.
  intros Hl Hn rest Hend. 
  enough (forall pre a, cstr (place (pre ++ l ++ rest) a mem0) (a + Z.of_nat (length pre)) n = l) as H.
  { intros a. specialize (H [] a). simpl in H. by rewrite Z.add_0_r in H. }
  revert n Hn Hend. induction l as [|c l IH]; intros n Hn Hend pre a.
  - destruct n as [|n]; [done|]. simpl. destruct Hend as [|[r ->]]; [done|].
    assert (place (pre ++ 0 :: r) a mem0 (a + Z.of_nat (length pre)) = 0) as ->; [|done].
    unfold place. rewrite length_app. simpl.
    destruct (Z.leb_spec a (a + Z.of_nat (length pre))); [|lia].
    destruct (Z.ltb_spec (a + Z.of_nat (length pre)) (a + Z.of_nat (length pre + S (length r)))); [|lia]. simpl.
    replace (Z.to_nat (a + Z.of_nat (length pre) - a)) with (length pre) by lia. by rewrite nth_middle.
  - apply Forall_cons in Hl as [Hc Hl]. destruct n as [|n]; simpl in Hn; [lia|]. simpl.
    assert (place (pre ++ c :: l ++ rest) a mem0 (a + Z.of_nat (length pre)) = c) as ->.
    { unfold place. rewrite length_app. simpl.
      destruct (Z.leb_spec a (a + Z.of_nat (length pre))); [|lia].
      destruct (Z.ltb_spec (a + Z.of_nat (length pre)) (a + Z.of_nat (length pre + S (length (l ++ rest))))); [|lia].
      simpl. replace (Z.to_nat (a + Z.of_nat (length pre) - a)) with (length pre) by lia. by rewrite nth_middle. }
    destruct (Z.eqb_spec c 0); [done|]. f_equal.
    specialize (IH Hl n ltac:(lia) ltac:(simpl in Hend; destruct Hend; [left; lia|by right]) (pre ++ [c]) a).
    rewrite <- app_assoc in IH. simpl in IH. rewrite length_app in IH. simpl in IH.
    by replace (a + Z.of_nat (length pre) + 1) with (a + Z.of_nat (length pre + 1)) by lia.
Qed.

(** Skipelem takes a path apart into its elements: it returns 0 exactly
    when there is none left, and otherwise stores the first element, cut to
    DIRSIZ bytes, in [name] and returns the path of the others, which is
    shorter and has no leading slash. *)
Theorem skipelem_takes_elements path name :
  Forall (fun c => c <> 0) path ->
  match skipelem path name with
  | None => elements_of path = []
  | Some (rest, name') => exists e,
      elements_of path = e :: elements_of rest /\ name_str name' = take (Z.to_nat DIRSIZ) e /\
      (length rest < length path)%nat /\ (rest = [] \/ head rest <> Some SLASH)
  end.
Proof.
  intros Hnz. unfold skipelem. rewrite <- elements_skip. pose proof (skip_slashes_head path) as Hhead.
  pose proof (skip_slashes_length path) as Hlen.
  assert (Forall (fun c => c <> 0) (skip_slashes path)) as Hnz'.
  { clear -Hnz. induction Hnz as [|c p Hc Hp IH]; [done|]. simpl. destruct (c =? SLASH); [done|by constructor]. }
  destruct (skip_slashes path) as [|c p] eqn:Ep; [done|]. clear Ep Hnz.
  pose proof (split_elem_spec (c :: p)) as Hs. destruct (split_elem (c :: p)) as [e r] eqn:Es.
  destruct Hs as (Hp & Hf & Hr).
  assert (e <> []) as He.
  { intros ->. simpl in Es. destruct (Z.eqb_spec c SLASH); [done|]. by destruct (split_elem p). }
  assert (Forall (fun c => c <> 0) e) as Hez by (rewrite Hp in Hnz'; by apply Forall_app in Hnz' as [? _]).
  exists e. split; [|split; [|split]].
  - rewrite elements_skip. unfold elements_of. destruct r as [|c' r'].
    + rewrite Hr. rewrite filter_cons_True by done. done.
    + destruct Hr as [-> ->]. rewrite filter_cons_True by done. simpl.
      rewrite filter_cons_False; [done|]. intros H. by apply H.
  - unfold name_str. destruct (Nat.leb_spec (Z.to_nat DIRSIZ) (length e)) as [Hge|Hlt].
    + rewrite <- (app_nil_r (take _ e)) at 1. apply cstr_place; [by apply Forall_take|rewrite length_take; lia|].
      left. rewrite length_take. lia.
    + rewrite take_ge by lia. apply cstr_place; [done|lia|]. right. eauto.
  - pose proof (skip_slashes_length r). apply (f_equal length) in Hp. rewrite length_app in Hp.
    destruct e; [done|]. simpl in *. lia.
  - pose proof (skip_slashes_head r). destruct (skip_slashes r); [by left|right]. simpl. congruence.
Qed.

Lemma skipelem_takes_elements_witness :
  skipelem (bytes "//usr/bin") (replicate 14 0) = Some (bytes "bin", bytes "usr" ++ replicate 11 0) /\
  exists e, elements_of (bytes "//usr/bin") = e :: elements_of (bytes "bin") /\
    name_str (bytes "usr" ++ replicate 11 0) = take (Z.to_nat DIRSIZ) e /\
    (length (bytes "bin") < length (bytes "//usr/bin"))%nat /\
    (bytes "bin" = [] \/ head (bytes "bin") <> Some SLASH).
Proof.
  split; [vm_compute; reflexivity|].
  apply (skipelem_takes_elements (bytes "//usr/bin") (replicate 14 0)).
  repeat constructor; discriminate.
Defined.
