(* ===== verification/File.v ===== *)
(** Open files (src/xv6-public/file.c) over the file system and pipes.

    A struct file is an index in the file table.  The functions of pipe.c are
    an interface here: [Pipe] has them in the process layer, where they sleep. *)
From S2P Require Import Prelude CString Bytes Bio Log Fs.

Definition NFILE : Z := 100.

Inductive ftype := FD_NONE | FD_PIPE | FD_INODE.
#[export] Instance ftype_eq_dec : EqDecision ftype.
Proof. solve_decision. Defined.

Record file := File {
  f_type : ftype;
  f_ref : Z;
  f_readable : Z;
  f_writable : Z;
  f_pipe : nat;
  f_ip : nat;
  f_off : Z
}.
Definition set_ff_type v f := File v (f_ref f) (f_readable f) (f_writable f) (f_pipe f) (f_ip f) (f_off f).
Definition set_ff_ref v f := File (f_type f) v (f_readable f) (f_writable f) (f_pipe f) (f_ip f) (f_off f).
Definition set_ff_off v f := File (f_type f) (f_ref f) (f_readable f) (f_writable f) (f_pipe f) (f_ip f) v.

(** The calls of pipe.c, on a state of pipes. *)
Class PipeOps (P : Type) := {
  pipeclose : nat -> Z -> M P unit;
  piperead : nat -> Z -> M P (Z * list Z);
  pipewrite : nat -> list Z -> Z -> M P Z;
  (** The page and the initialisation of pipealloc; no page is [None]. *)
  pipenew : M P (option nat)
}.

(** The file system, the file table and the pipes. *)
Record fst_ (P : Type) := Fst {
  t_fs : fss;
  t_files : list file;
  t_pipes : P
}.
Arguments Fst {P}.
Arguments t_fs {P}.
Arguments t_files {P}.
Arguments t_pipes {P}.
Definition set_t_fs {P} v (s : fst_ P) := Fst v (t_files s) (t_pipes s).
Definition set_t_files {P} v (s : fst_ P) := Fst (t_fs s) v (t_pipes s).
Definition set_t_pipes {P} (v : P) (s : fst_ P) := Fst (t_fs s) (t_files s) v.

Section File.
Context {P : Type} {DEV : Devsw} {PO : PipeOps P}.
Notation T := (M (fst_ P)).

Definition fso {A} (c : F A) : T A := zoom t_fs set_t_fs c.
Definition pio {A} (c : M P A) : T A := zoom t_pipes set_t_pipes c.

Definition file_at (f : nat) : T file := l <- gets t_files ;; get_opt "file" (l !! f).
Definition upd_file (f : nat) (g : file -> file) : T unit :=
  x <- file_at f ;; modify (fun s => set_t_files (<[f := g x]> (t_files s)) s).

(** The first entry with no references. *)
Fixpoint free_file (l : list file) (f : nat) : option nat :=
  match l with
  | [] => None
  | x :: l' => if f_ref x =? 0 then Some f else free_file l' (S f)
  end.

Definition filealloc : T (option nat) :=
  l <- gets t_files ;;
  match free_file l 0 with
  | Some f => upd_file f (set_ff_ref 1) ;; ret (Some f)
  | None => ret None
  end.

Definition filedup (f : nat) : T nat :=
  x <- file_at f ;;
  if f_ref x <? 1 then panic "filedup" else
  upd_file f (fun x => set_ff_ref (f_ref x + 1) x) ;;
  ret f.

Definition fileclose (f : nat) : T unit :=
  x <- file_at f ;;
  if f_ref x <? 1 then panic "fileclose" else
  upd_file f (fun x => set_ff_ref (f_ref x - 1) x) ;;
  ff <- file_at f ;;
  if 0 <? f_ref ff then ret tt else
  upd_file f (fun x => set_ff_type FD_NONE (set_ff_ref 0 x)) ;;
  match f_type ff with
  | FD_PIPE => pio (pipeclose (f_pipe ff) (f_writable ff))
  | FD_INODE =>
      fso (lo begin_op) ;;
      fso (iput (f_ip ff)) ;;
      fso (lo end_op)
  | FD_NONE => ret tt
  end.

(** What filestat stores. *)
Definition filestat (f : nat) : T (Z * option stat) :=
  x <- file_at f ;;
  match f_type x with
  | FD_INODE =>
      fso (ilock (f_ip x)) ;;
      st <- fso (stati (f_ip x)) ;;
      fso (iunlock (f_ip x)) ;;
      ret (0, Some st)
  | _ => ret (-1, None)
  end.

(** The result, and the bytes stored at [addr]. *)
Definition fileread (f : nat) (n : Z) : T (Z * list Z) :=
  x <- file_at f ;;
  if f_readable x =? 0 then ret (-1, []) else
  match f_type x with
  | FD_PIPE => pio (piperead (f_pipe x) n)
  | FD_INODE =>
      fso (ilock (f_ip x)) ;;
      r <- fso (readi (f_ip x) (f_off x) (u32 n)) ;;
      (if 0 <? fst r then upd_file f (fun x => set_ff_off (u32 (f_off x + fst r)) x) else ret tt) ;;
      fso (iunlock (f_ip x)) ;;
      ret r
  | FD_NONE => panic "fileread"
  end.

Definition filewrite_max : Z := (LOGSIZE - 1 - 1 - 2) / 2 * 512.

(** One transaction of filewrite, for the [n1] bytes [src]. *)
Definition filewrite_chunk (f : nat) (src : list Z) (n1 : Z) : T Z :=
  x <- file_at f ;;
  fso (lo begin_op) ;;
  fso (ilock (f_ip x)) ;;
  r <- fso (writei (f_ip x) src (f_off x) (u32 n1)) ;;
  (if 0 <? r then upd_file f (fun x => set_ff_off (u32 (f_off x + r)) x) else ret tt) ;;
  fso (iunlock (f_ip x)) ;;
  fso (lo end_op) ;;
  ret r.

(** The loop of filewrite: [i] bytes are written; every round writes some. *)
Fixpoint filewrite_loop (fuel : nat) (f : nat) (addr : list Z) (n i : Z) : T Z :=
  match fuel with
  | O => fun s => OutOfFuel s
  | S fuel' =>
      if i <? n then
        let n1 := Z.min (n - i) filewrite_max in
        r <- filewrite_chunk f (take (Z.to_nat n1) (drop (Z.to_nat i) addr)) n1 ;;
        if r <? 0 then ret i
        else if negb (r =? n1) then panic "short filewrite"
        else filewrite_loop fuel' f addr n (i + r)
      else ret i
  end.

Definition filewrite (f : nat) (addr : list Z) (n : Z) : T Z :=
  x <- file_at f ;;
  if f_writable x =? 0 then ret (-1) else
  match f_type x with
  | FD_PIPE => pio (pipewrite (f_pipe x) addr n)
  | FD_INODE =>
      i <- filewrite_loop (S (Z.to_nat n)) f addr n 0 ;;
      ret (if i =? n then n else -1)
  | FD_NONE => panic "filewrite"
  end.

(** pipe.c: two files for the ends of a new pipe.  An end that was allocated
    is closed when the other or the page fails. *)
Definition pipealloc : T (option (nat * nat)) :=
  f0 <- filealloc ;;
  match f0 with
  | None => ret None
  | Some f0 =>
      f1 <- filealloc ;;
      match f1 with
      | None => fileclose f0 ;; ret None
      | Some f1 =>
          p <- pio pipenew ;;
          match p with
          | None => fileclose f0 ;; fileclose f1 ;; ret None
          | Some p =>
              upd_file f0 (fun x => File FD_PIPE (f_ref x) 1 0 p (f_ip x) (f_off x)) ;;
              upd_file f1 (fun x => File FD_PIPE (f_ref x) 0 1 p (f_ip x) (f_off x)) ;;
              ret (Some (f0, f1))
          end
      end
  end.
End File.
