(* ===== verification/Syscall.v ===== *)
(** System call arguments and dispatch (src/xv6-public/syscall.c).

    The current process's user memory is its size and its bytes; the
    arguments are on its stack.  A fetch that fails returns [None] where the
    code returns -1. *)
From S2P Require Import Prelude CString.

Definition KERNBASE : Z := 0x80000000.

Record user := User {
  u_sz : Z;
  u_esp : Z;
  u_eax : Z;
  u_mem : mem
}.
Definition set_u_eax v u := User (u_sz u) (u_esp u) v (u_mem u).
Definition set_u_mem v u := User (u_sz u) (u_esp u) (u_eax u) v.

(** The [int] at an address. *)
Definition load_int (m : mem) (a : Z) : Z :=
  s32 (m a + 256 * (m (a + 1) + 256 * (m (a + 2) + 256 * m (a + 3)))).

Definition fetchint (u : user) (addr : Z) : option Z :=
  if (addr >=? u_sz u) || (u32 (addr + 4) >? u_sz u) then None
  else Some (load_int (u_mem u) addr).

(** [n] is how many addresses are left before the end. *)
Fixpoint fetchstr_loop (m : mem) (s : Z) (n : nat) (len : Z) : option Z :=
  match n with
  | O => None
  | S n' => if m s =? 0 then Some len else fetchstr_loop m (s + 1) n' (len + 1)
  end.

Definition fetchstr (u : user) (addr : Z) : option Z :=
  if addr >=? u_sz u then None
  else fetchstr_loop (u_mem u) addr (Z.to_nat (u_sz u - addr)) 0.

Definition argint (u : user) (n : Z) : option Z := fetchint u (u32 (u_esp u + 4 + 4 * n)).

Definition argptr (u : user) (n size : Z) : option Z :=
  i ← argint u n;
  if (size <? 0) || (u32 i >=? u_sz u) || (u32 (u32 i + size) >? u_sz u) then None
  else Some (u32 i).

(** The address of the string, and its length. *)
Definition argstr (u : user) (n : Z) : option (Z * Z) :=
  addr ← argint u n;
  len ← fetchstr u (u32 addr);
  Some (u32 addr, len).

(** The string at an address, as bytes. *)
Definition string_at (m : mem) (a len : Z) : list Z := region m a (Z.to_nat len).

(** ** Dispatch *)

Inductive sysname :=
| SYS_fork | SYS_exit | SYS_wait | SYS_pipe | SYS_read | SYS_kill | SYS_exec | SYS_fstat | SYS_chdir
| SYS_dup | SYS_getpid | SYS_sbrk | SYS_sleep | SYS_uptime | SYS_open | SYS_write | SYS_mknod
| SYS_unlink | SYS_link | SYS_mkdir | SYS_close | SYS_cps | SYS_nice.
#[export] Instance sysname_eq_dec : EqDecision sysname.
Proof. solve_decision. Defined.

(** The numbers of syscall.h. *)
Definition sysno (s : sysname) : Z :=
  match s with
  | SYS_fork => 1 | SYS_exit => 2 | SYS_wait => 3 | SYS_pipe => 4 | SYS_read => 5 | SYS_kill => 6
  | SYS_exec => 7 | SYS_fstat => 8 | SYS_chdir => 9 | SYS_dup => 10 | SYS_getpid => 11 | SYS_sbrk => 12
  | SYS_sleep => 13 | SYS_uptime => 14 | SYS_open => 15 | SYS_write => 16 | SYS_mknod => 17
  | SYS_unlink => 18 | SYS_link => 19 | SYS_mkdir => 20 | SYS_close => 21 | SYS_cps => 22 | SYS_nice => 23
  end.

(** The array of function pointers: entry 0 is null. *)
Definition syscalls : list (option sysname) :=
  [None; Some SYS_fork; Some SYS_exit; Some SYS_wait; Some SYS_pipe; Some SYS_read; Some SYS_kill;
   Some SYS_exec; Some SYS_fstat; Some SYS_chdir; Some SYS_dup; Some SYS_getpid; Some SYS_sbrk;
   Some SYS_sleep; Some SYS_uptime; Some SYS_open; Some SYS_write; Some SYS_mknod; Some SYS_unlink;
   Some SYS_link; Some SYS_mkdir; Some SYS_close; Some SYS_cps; Some SYS_nice].

Definition lookup_syscall (num : Z) : option sysname :=
  if (0 <? num) && (num <? Z.of_nat (length syscalls)) then
    match arr_get syscalls num with Some (Some f) => Some f | _ => None end
  else None.

(** syscall(): run the function of the number in %eax and store its result
    in %eax.  [run] is the functions of the table, [eax] and [set_eax] the
    register in the trap frame. *)
Section Dispatch.
Context {S : Type}.
Variables (run : sysname -> M S Z) (unknown : Z -> M S unit) (eax : S -> Z) (set_eax : Z -> S -> S).

Definition syscall : M S unit :=
  num <- gets eax ;;
  match lookup_syscall num with
  | Some f => r <- run f ;; modify (set_eax r)
  | None => unknown num ;; modify (set_eax (-1))
  end.
End Dispatch.

(** * Correctness *)

Lemma fetchstr_loop_spec m n : forall s len,
  match fetchstr_loop m s n len with
  | Some r => exists k, r = len + Z.of_nat k /\ (k < n)%nat /\ m (s + Z.of_nat k) = 0 /\
      forall j, (j < k)%nat -> m (s + Z.of_nat j) <> 0
  | None => forall j, (j < n)%nat -> m (s + Z.of_nat j) <> 0
  end.
Proof.
  induction n as [|n IH]; intros s len; simpl; [lia|]. destruct (Z.eqb_spec (m s) 0) as [E|E].
  - exists O. rewrite !Z.add_0_r. repeat split; [lia|done|lia].
  - specialize (IH (s + 1) (len + 1)). destruct (fetchstr_loop m (s + 1) n (len + 1)) as [r|].
    + destruct IH as (k & -> & Hk & Hz & Hj). exists (S k). split; [lia|]. split; [lia|].
      split; [by replace (s + Z.of_nat (S k)) with (s + 1 + Z.of_nat k) by lia|].
      intros [|j] Hlt; [by rewrite Z.add_0_r|].
      replace (s + Z.of_nat (S j)) with (s + 1 + Z.of_nat j) by lia. apply Hj. lia.
    + intros [|j] Hlt; [by rewrite Z.add_0_r|].
      replace (s + Z.of_nat (S j)) with (s + 1 + Z.of_nat j) by lia. apply IH. lia.
Qed.

(** C38: for a process whose memory ends below the kernel, a pointer argument
    that argptr accepts lies with all its [size] bytes inside the process's
    memory, whatever values the process put on its stack; and the four bytes
    argint reads are inside it too. *)
Theorem argptr_in_address_space u n size p :
  0 <= u_sz u <= KERNBASE -> size <= INT_MAX -> argptr u n size = Some p ->
  0 <= size /\ 0 <= p /\ p + size <= u_sz u /\ p < u_sz u /\
  exists a, a = u32 (u_esp u + 4 + 4 * n) /\ 0 <= a /\ a + 4 <= u_sz u /\ u32 (load_int (u_mem u) a) = p.
Proof.
  intros Hsz Hsize H. unfold argptr, argint, fetchint in H. unfold KERNBASE, INT_MAX in *.
  set (a := u32 (u_esp u + 4 + 4 * n)) in *. pose proof (u32_range (u_esp u + 4 + 4 * n)) as Ha. fold a in Ha.
  destruct (Z.geb_spec a (u_sz u)); [done|]. rewrite (u32_small (a + 4)) in H by lia.
  destruct (Z.gtb_spec (a + 4) (u_sz u)); [done|]. simpl in H.
  set (i := load_int (u_mem u) a) in *. pose proof (u32_range i) as Hi.
  destruct (Z.ltb_spec size 0); [done|]. destruct (Z.geb_spec (u32 i) (u_sz u)); [done|]. simpl in H.
  rewrite (u32_small (u32 i + size)) in H by lia. destruct (Z.gtb_spec (u32 i + size) (u_sz u)); [done|].
  injection H as <-. repeat split; try lia. exists a. repeat split; lia || done.
Qed.

Definition ex_user : user :=
  User 0x1000 0x0f00 0 (place [0; 0; 0; 0; 0x10; 0; 0; 0; 5; 0; 0; 0] 0x0f00 mem0).

Lemma argptr_in_address_space_witness :
  argptr ex_user 0 100 = Some 0x10 /\
  0 <= 100 /\ 0 <= 0x10 /\ 0x10 + 100 <= u_sz ex_user /\ 0x10 < u_sz ex_user /\
  exists a, a = u32 (u_esp ex_user + 4 + 4 * 0) /\ 0 <= a /\ a + 4 <= u_sz ex_user /\
    u32 (load_int (u_mem ex_user) a) = 0x10.
Proof.
  assert (argptr ex_user 0 100 = Some 0x10) as E by (vm_compute; reflexivity). split; [exact E|].
  apply (argptr_in_address_space ex_user 0 100 0x10); [vm_compute; intuition congruence|vm_compute; discriminate|exact E].
Defined.

(** Argstr accepts exactly the addresses below the end of the process's
    memory from which a NUL is reached before the end, and returns the
    distance to the first one. *)
Theorem fetchstr_accepts_strings u addr len :
  0 <= addr ->
  fetchstr u addr = Some len <->
  0 <= len /\ addr + len < u_sz u /\ u_mem u (addr + len) = 0 /\
  (forall j, 0 <= j < len -> u_mem u (addr + j) <> 0).
Proof.
  intros Ha. unfold fetchstr. pose proof (fetchstr_loop_spec (u_mem u) (Z.to_nat (u_sz u - addr)) addr 0) as Hs.
  destruct (Z.geb_spec addr (u_sz u)) as [Hge|Hlt].
  - split; [done|]. lia.
  - destruct (fetchstr_loop _ _ _ _) as [r|].
    + destruct Hs as (k & -> & Hk & Hz & Hj). split.
      * intros [= <-]. repeat split; [lia|lia|done|]. intros j Hjk. rewrite <- (Z2Nat.id j) by lia. apply Hj. lia.
      * intros (H0 & H1 & H2 & H3). f_equal. destruct (Z.lt_trichotomy len (Z.of_nat k)) as [Hlt'|[->|Hgt]].
        -- exfalso. apply (Hj (Z.to_nat len)); [lia|]. by rewrite Z2Nat.id.
        -- lia.
        -- exfalso. apply (H3 (Z.of_nat k)); [lia|done].
    + split; [done|]. intros (H0 & H1 & H2 & _). exfalso. apply (Hs (Z.to_nat len)); [lia|]. by rewrite Z2Nat.id.
Qed.

Lemma fetchstr_accepts_strings_witness :
  fetchstr ex_user 0x0f04 = Some 1 <->
  0 <= 1 /\ 0x0f04 + 1 < u_sz ex_user /\ u_mem ex_user (0x0f04 + 1) = 0 /\
  (forall j, 0 <= j < 1 -> u_mem ex_user (0x0f04 + j) <> 0).
Proof. apply (fetchstr_accepts_strings ex_user 0x0f04 1). lia. Defined.

(** The table has each system call at its number, and nothing else. *)
Lemma lookup_syscall_iff num f : lookup_syscall num = Some f <-> num = sysno f.
Proof.
  split.
  - unfold lookup_syscall. destruct (Z.ltb_spec 0 num); [|done].
    destruct (Z.ltb_spec num (Z.of_nat (length syscalls))) as [Hlt|]; [|done]. simpl in Hlt. cbn [andb].
    rewrite <- (Z2Nat.id num) by lia. rewrite arr_get_nat. remember (Z.to_nat num) as k eqn:Ek. clear Ek.
    do 24 (destruct k as [|k]; [simpl; by intros [= <-]|]). done.
  - intros ->. by destruct f.
Qed.

(** Syscall() calls the function whose number in syscall.h is in %eax, and
    stores what it returns in %eax; with any other number it calls none and
    stores -1. *)
Theorem syscall_dispatch {S} (run : sysname -> M S Z) unknown eax set_eax (s : S) :
  (forall f, eax s = sysno f ->
     syscall run unknown eax set_eax s = (r <- run f ;; modify (set_eax r)) s) /\
  ((forall f, eax s <> sysno f) ->
     syscall run unknown eax set_eax s = (unknown (eax s) ;; modify (set_eax (-1))) s).
Proof.
  unfold syscall. rewrite gets_bind. split.
  - intros f Hf. by rewrite (proj2 (lookup_syscall_iff _ f) Hf).
  - intros Hno. destruct (lookup_syscall (eax s)) as [f|] eqn:E; [|done].
    apply lookup_syscall_iff in E. by apply Hno in E.
Qed.
