(* ===== verification/Sysfile.v ===== *)
(** File system calls (src/xv6-public/sysfile.c) over open files and the file
    system, with arguments fetched from user memory. *)
From S2P Require Import Prelude CString Bytes Bio Log Fs File Syscall.

Definition NOFILE : Z := 16.
Definition MAXARG : Z := 32.
Definition O_RDONLY : Z := 0x000.
Definition O_WRONLY : Z := 0x001.
Definition O_RDWR : Z := 0x002.
Definition O_CREATE : Z := 0x200.

(** Open files and file system, and of the current process its user memory
    and its descriptors. *)
Record sys (P : Type) := Sys {
  s_t : fst_ P;
  s_user : user;
  s_ofile : list (option nat)
}.
Arguments Sys {P}.
Arguments s_t {P}.
Arguments s_user {P}.
Arguments s_ofile {P}.
Definition set_s_t {P} (v : fst_ P) (s : sys P) := Sys v (s_user s) (s_ofile s).
Definition set_s_user {P} v (s : sys P) := Sys (s_t s) v (s_ofile s).
Definition set_s_ofile {P} v (s : sys P) := Sys (s_t s) (s_user s) v.

(** struct stat: type at 0, dev at 4, ino at 8, nlink at 12, size at 16. *)
Definition sizeof_stat : Z := 20.
Definition put_stat (st : stat) (a : Z) (m : mem) : mem :=
  let w k v o := place (le_put k (replicate k 0) 0 v) (a + o) in
  w 4%nat (st_size st) 16 (w 2%nat (st_nlink st) 12 (w 4%nat (st_ino st) 8 (w 4%nat (st_dev st) 4
    (w 2%nat (st_type st) 0 m)))).

Section Sysfile.
Context {P : Type} {DEV : Devsw} {PO : PipeOps P}.
Notation Y := (M (sys P)).
Notation T := (M (fst_ P)).

Definition to {A} (c : T A) : Y A := zoom s_t set_s_t c.
Definition fo {A} (c : F A) : Y A := to (fso c).
Definition begin_op_ : Y unit := fo (lo begin_op).
Definition end_op_ : Y unit := fo (lo end_op).
Definition getu {A} (f : user -> A) : Y A := gets (fun s => f (s_user s)).
Definition put_user (a : Z) (l : list Z) : Y unit :=
  modify (fun s => set_s_user (set_u_mem (place l a (u_mem (s_user s))) (s_user s)) s).

(** The path a system call got as argument. *)
Definition arg_path (n : Z) : Y (option (list Z)) :=
  r <- getu (fun u => argstr u n) ;;
  m <- getu u_mem ;;
  ret (match r with Some (a, len) => Some (string_at m a len) | None => None end).

(** The descriptor and the file. *)
Definition argfd (n : Z) : Y (option (Z * nat)) :=
  r <- getu (fun u => argint u n) ;;
  l <- gets s_ofile ;;
  ret (fd ← r;
       if (fd <? 0) || (fd >=? NOFILE) then None
       else match arr_get l fd with Some (Some f) => Some (fd, f) | _ => None end).

(** The lowest descriptor that is free. *)
Fixpoint free_fd (l : list (option nat)) (fd : Z) : option Z :=
  match l with
  | [] => None
  | None :: _ => Some fd
  | Some _ :: l' => free_fd l' (fd + 1)
  end.

Definition fdalloc (f : nat) : Y Z :=
  l <- gets s_ofile ;;
  match free_fd l 0 with
  | Some fd => modify (set_s_ofile (<[Z.to_nat fd := Some f]> l)) ;; ret fd
  | None => ret (-1)
  end.

Definition sys_dup : Y Z :=
  r <- argfd 0 ;;
  match r with
  | None => ret (-1)
  | Some (_, f) =>
      fd <- fdalloc f ;;
      if fd <? 0 then ret (-1) else
      to (filedup f) ;;
      ret fd
  end.

Definition sys_read : Y Z :=
  r <- argfd 0 ;;
  n <- getu (fun u => argint u 2) ;;
  match r, n with
  | Some (_, f), Some n =>
      p <- getu (fun u => argptr u 1 n) ;;
      match p with
      | None => ret (-1)
      | Some p =>
          r <- to (fileread f n) ;;
          put_user p (snd r) ;;
          ret (fst r)
      end
  | _, _ => ret (-1)
  end.

Definition sys_write : Y Z :=
  r <- argfd 0 ;;
  n <- getu (fun u => argint u 2) ;;
  match r, n with
  | Some (_, f), Some n =>
      p <- getu (fun u => argptr u 1 n) ;;
      match p with
      | None => ret (-1)
      | Some p =>
          m <- getu u_mem ;;
          to (filewrite f (region m p (Z.to_nat n)) n)
      end
  | _, _ => ret (-1)
  end.

Definition sys_close : Y Z :=
  r <- argfd 0 ;;
  match r with
  | None => ret (-1)
  | Some (fd, f) =>
      modify (fun s => set_s_ofile (<[Z.to_nat fd := None]> (s_ofile s)) s) ;;
      to (fileclose f) ;;
      ret 0
  end.

Definition sys_fstat : Y Z :=
  r <- argfd 0 ;;
  p <- getu (fun u => argptr u 1 sizeof_stat) ;;
  match r, p with
  | Some (_, f), Some p =>
      r <- to (filestat f) ;;
      (match snd r with
       | Some st => modify (fun s => set_s_user (set_u_mem (put_stat st p (u_mem (s_user s))) (s_user s)) s)
       | None => ret tt
       end) ;;
      ret (fst r)
  | _, _ => ret (-1)
  end.

(** [bad:] of sys_link: the link count is taken back. *)
Definition link_bad (ip : nat) : Y Z :=
  fo (ilock ip) ;;
  fo (upd_inode ip (fun i => set_i_nlink (s16 (i_nlink i - 1)) i)) ;;
  fo (iupdate ip) ;;
  fo (iunlockput ip) ;;
  end_op_ ;;
  ret (-1).

Definition name0 : list Z := replicate (Z.to_nat DIRSIZ) 0.

Definition sys_link : Y Z :=
  old <- arg_path 0 ;;
  new <- arg_path 1 ;;
  match old, new with
  | Some old, Some new =>
      begin_op_ ;;
      ip <- fo (namei old) ;;
      match ip with
      | None => end_op_ ;; ret (-1)
      | Some ip =>
          fo (ilock ip) ;;
          i <- fo (inode_at ip) ;;
          if i_type i =? T_DIR then fo (iunlockput ip) ;; end_op_ ;; ret (-1) else
          fo (upd_inode ip (fun i => set_i_nlink (s16 (i_nlink i + 1)) i)) ;;
          fo (iupdate ip) ;;
          fo (iunlock ip) ;;
          r <- fo (nameiparent new name0) ;;
          match r with
          | (None, _) => link_bad ip
          | (Some dp, name) =>
              fo (ilock dp) ;;
              d <- fo (inode_at dp) ;;
              i <- fo (inode_at ip) ;;
              r <- (if negb (i_dev d =? i_dev i) then ret (-1) else fo (dirlink dp name (i_inum i))) ;;
              if r <? 0 then fo (iunlockput dp) ;; link_bad ip else
              fo (iunlockput dp) ;;
              fo (iput ip) ;;
              end_op_ ;;
              ret 0
          end
      end
  | _, _ => ret (-1)
  end.

(** Entry number [k]: [Some] when it is in use. *)
Definition isdirempty_body (dp : nat) (k : Z) : F (option bool) :=
  r <- readi dp (k * sizeof_dirent) sizeof_dirent ;;
  if negb (fst r =? sizeof_dirent) then panic "isdirempty: readi" else
  inum <- get_opt "dirent" (de_inum (snd r)) ;;
  ret (if negb (inum =? 0) then Some false else None).

Definition isdirempty (dp : nat) : F bool :=
  i <- inode_at dp ;;
  r <- for_range 2 ((i_size i + sizeof_dirent - 1) / sizeof_dirent) (isdirempty_body dp) ;;
  ret (match r with Some b => b | None => true end).

Definition DOT : list Z := [46; 0].
Definition DOTDOT : list Z := [46; 46; 0].

Definition unlink_bad (dp : nat) : Y Z :=
  fo (iunlockput dp) ;;
  end_op_ ;;
  ret (-1).

Definition sys_unlink : Y Z :=
  path <- arg_path 0 ;;
  match path with
  | None => ret (-1)
  | Some path =>
      begin_op_ ;;
      r <- fo (nameiparent path name0) ;;
      match r with
      | (None, _) => end_op_ ;; ret (-1)
      | (Some dp, name) =>
          fo (ilock dp) ;;
          if (namecmp name DOT =? 0) || (namecmp name DOTDOT =? 0) then unlink_bad dp else
          r <- fo (dirlookup dp name) ;;
          match r with
          | None => unlink_bad dp
          | Some (ip, off) =>
              fo (ilock ip) ;;
              i <- fo (inode_at ip) ;;
              if i_nlink i <? 1 then panic "unlink: nlink < 1" else
              full <- (if i_type i =? T_DIR then e <- fo (isdirempty ip) ;; ret (negb e) else ret false) ;;
              if full : bool then fo (iunlockput ip) ;; unlink_bad dp else
              w <- fo (writei dp (replicate 16 0) off sizeof_dirent) ;;
              if negb (w =? sizeof_dirent) then panic "unlink: writei" else
              (if i_type i =? T_DIR then
                 fo (upd_inode dp (fun d => set_i_nlink (s16 (i_nlink d - 1)) d)) ;;
                 fo (iupdate dp)
               else ret tt) ;;
              fo (iunlockput dp) ;;
              fo (upd_inode ip (fun i => set_i_nlink (s16 (i_nlink i - 1)) i)) ;;
              fo (iupdate ip) ;;
              fo (iunlockput ip) ;;
              end_op_ ;;
              ret 0
          end
      end
  end.

(** dirlink called for its effect: a failure panics. *)
Definition dirlink_or (msg : string) (dp : nat) (name : list Z) (inum : Z) : F unit :=
  r <- dirlink dp name inum ;; if r <? 0 then panic msg else ret tt.

Definition create (path : list Z) (type major minor : Z) : F (option nat) :=
  r <- nameiparent path name0 ;;
  match r with
  | (None, _) => ret None
  | (Some dp, name) =>
      ilock dp ;;
      r <- dirlookup dp name ;;
      match r with
      | Some (ip, _) =>
          iunlockput dp ;;
          ilock ip ;;
          i <- inode_at ip ;;
          if (type =? T_FILE) && (i_type i =? T_FILE) then ret (Some ip) else
          iunlockput ip ;;
          ret None
      | None =>
          d <- inode_at dp ;;
          ip <- ialloc (i_dev d) type ;;
          ilock ip ;;
          upd_inode ip (fun i => set_i_nlink 1 (set_i_devno major minor i)) ;;
          iupdate ip ;;
          i <- inode_at ip ;;
          (if type =? T_DIR then
             upd_inode dp (fun d => set_i_nlink (s16 (i_nlink d + 1)) d) ;;
             iupdate dp ;;
             dirlink_or "create dots" ip DOT (i_inum i) ;;
             dirlink_or "create dots" ip DOTDOT (i_inum d)
           else ret tt) ;;
          dirlink_or "create: dirlink" dp name (i_inum i) ;;
          iunlockput dp ;;
          ret (Some ip)
      end
  end.

(** The locked inode of sys_open, or the transaction is over. *)
Definition open_inode (path : list Z) (omode : Z) : Y (option nat) :=
  if negb (Z.land omode O_CREATE =? 0) then
    ip <- fo (create path T_FILE 0 0) ;;
    match ip with
    | None => end_op_ ;; ret None
    | Some ip => ret (Some ip)
    end
  else
    ip <- fo (namei path) ;;
    match ip with
    | None => end_op_ ;; ret None
    | Some ip =>
        fo (ilock ip) ;;
        i <- fo (inode_at ip) ;;
        if (i_type i =? T_DIR) && negb (omode =? O_RDONLY) then fo (iunlockput ip) ;; end_op_ ;; ret None
        else ret (Some ip)
    end.

(** A file and a descriptor for it, or neither. *)
Definition open_fd : Y (option (nat * Z)) :=
  f <- to filealloc ;;
  match f with
  | None => ret None
  | Some f =>
      fd <- fdalloc f ;;
      if fd <? 0 then to (fileclose f) ;; ret None else ret (Some (f, fd))
  end.

(** The truth value of a C expression. *)
Definition truth (b : bool) : Z := if b then 1 else 0.

Definition sys_open : Y Z :=
  path <- arg_path 0 ;;
  omode <- getu (fun u => argint u 1) ;;
  match path, omode with
  | Some path, Some omode =>
      begin_op_ ;;
      r <- open_inode path omode ;;
      match r with
      | None => ret (-1)
      | Some ip =>
          r <- open_fd ;;
          match r with
          | None => fo (iunlockput ip) ;; end_op_ ;; ret (-1)
          | Some (f, fd) =>
              fo (iunlock ip) ;;
              end_op_ ;;
              to (upd_file f (fun x => File FD_INODE (f_ref x)
                (truth (Z.land omode O_WRONLY =? 0))
                (truth (negb (Z.land omode O_WRONLY =? 0) || negb (Z.land omode O_RDWR =? 0)))
                (f_pipe x) ip 0)) ;;
              ret fd
          end
      end
  | _, _ => ret (-1)
  end.

Definition sys_mkdir : Y Z :=
  begin_op_ ;;
  path <- arg_path 0 ;;
  ip <- (match path with None => ret None | Some path => fo (create path T_DIR 0 0) end) ;;
  match ip with
  | None => end_op_ ;; ret (-1)
  | Some ip => fo (iunlockput ip) ;; end_op_ ;; ret 0
  end.

Definition sys_mknod : Y Z :=
  begin_op_ ;;
  path <- arg_path 0 ;;
  major <- getu (fun u => argint u 1) ;;
  minor <- getu (fun u => argint u 2) ;;
  ip <- (match path, major, minor with
         | Some path, Some major, Some minor => fo (create path T_DEV (s16 major) (s16 minor))
         | _, _, _ => ret None
         end) ;;
  match ip with
  | None => end_op_ ;; ret (-1)
  | Some ip => fo (iunlockput ip) ;; end_op_ ;; ret 0
  end.

Definition sys_chdir : Y Z :=
  begin_op_ ;;
  path <- arg_path 0 ;;
  ip <- (match path with None => ret None | Some path => fo (namei path) end) ;;
  match ip with
  | None => end_op_ ;; ret (-1)
  | Some ip =>
      fo (ilock ip) ;;
      i <- fo (inode_at ip) ;;
      if negb (i_type i =? T_DIR) then fo (iunlockput ip) ;; end_op_ ;; ret (-1) else
      fo (iunlock ip) ;;
      cwd <- fo (gets f_cwd) ;;
      fo (iput cwd) ;;
      end_op_ ;;
      fo (modify (set_f_cwd ip)) ;;
      ret 0
  end.

(** The argument strings of exec: at most MAXARG pointers, the last one 0. *)
Fixpoint exec_args (u : user) (uargv : Z) (i : nat) (left : nat) : option (list (list Z)) :=
  match left with
  | O => None
  | S left' =>
      uarg ← fetchint u (u32 (uargv + 4 * Z.of_nat i));
      if u32 uarg =? 0 then Some []
      else
        len ← fetchstr u (u32 uarg);
        rest ← exec_args u uargv (S i) left';
        Some (string_at (u_mem u) (u32 uarg) len :: rest)
  end.

Definition sys_exec (exec : list Z -> list (list Z) -> Y Z) : Y Z :=
  path <- arg_path 0 ;;
  uargv <- getu (fun u => argint u 1) ;;
  match path, uargv with
  | Some path, Some uargv =>
      u <- getu id ;;
      match exec_args u (u32 uargv) 0 (Z.to_nat MAXARG) with
      | None => ret (-1)
      | Some argv => exec path argv
      end
  | _, _ => ret (-1)
  end.

Definition sys_pipe : Y Z :=
  p <- getu (fun u => argptr u 0 8) ;;
  match p with
  | None => ret (-1)
  | Some p =>
      r <- to pipealloc ;;
      match r with
      | None => ret (-1)
      | Some (rf, wf) =>
          fd0 <- fdalloc rf ;;
          fd1 <- (if fd0 <? 0 then ret (-1) else fdalloc wf) ;;
          if (fd0 <? 0) || (fd1 <? 0) then
            (if fd0 >=? 0 then modify (fun s => set_s_ofile (<[Z.to_nat fd0 := None]> (s_ofile s)) s)
             else ret tt) ;;
            to (fileclose rf) ;;
            to (fileclose wf) ;;
            ret (-1)
          else
            put_user p (le_put 4 (replicate 4 0) 0 fd0 ++ le_put 4 (replicate 4 0) 0 fd1) ;;
            ret 0
      end
  end.
End Sysfile.
