(* ===== verification/SysfileInv.v ===== *)
(** Reference counts of open files: an invariant of every file system call.

    A descriptor of the process is a reference to an entry of the file table;
    the entry's count is at least the number of descriptors that refer to it
    (other processes have the rest).  The calls are checked against triples in
    which [d f] is the number of references to [f] the running kernel code
    has in hand, negative while it owes one. *)
From S2P Require Import Prelude CString Bytes Bio Log Fs File Syscall Sysfile.

Section Inv.
Context {P : Type} {DEV : Devsw} {PO : PipeOps P}.
Notation Y := (M (sys P)).
Notation T := (M (fst_ P)).
Implicit Types s : sys P.

(** How many descriptors refer to [f]. *)
Definition nrefs (l : list (option nat)) (f : nat) : Z := Z.of_nat (length (filter (fun o => o = Some f) l)).

Record counted (d : nat -> Z) (s : sys P) : Prop := Counted {
  ct_len : length (s_ofile s) = Z.to_nat NOFILE;
  ct_refs : forall f, nrefs (s_ofile s) f + d f <= match t_files (s_t s) !! f with Some x => f_ref x | None => 0 end
}.

Definition none : nat -> Z := fun _ => 0.
Definition one (f : nat) (d : nat -> Z) : nat -> Z := fun g => if decide (g = f) then d g + 1 else d g.
Definition less (f : nat) (d : nat -> Z) : nat -> Z := fun g => if decide (g = f) then d g - 1 else d g.

(** If [c] returns from a state that counts with [d], the new state counts
    with what the result says. *)
Definition trip {A} (d : nat -> Z) (c : Y A) (d' : A -> nat -> Z) : Prop :=
  forall s a s', counted d s -> c s = Ret a s' -> counted (d' a) s'.

Lemma counted_le d d' s : (forall g, d' g <= d g) -> counted d s -> counted d' s.
Proof. intros H [Hl Hr]. split; [done|]. intros f. specialize (Hr f). specialize (H f). lia. Qed.

Lemma trip_bind {A B} d (c : Y A) (f : A -> Y B) d1 d2 :
  trip d c d1 -> (forall a, trip (d1 a) (f a) d2) -> trip d (bind c f) d2.
Proof.
  intros Hc Hf s b s' Hs H. apply bind_Ret_inv in H as (a & s1 & H1 & H2).
  eapply Hf; [|done]. by eapply Hc.
Qed.

Lemma trip_ret {A} d (a : A) (d' : A -> nat -> Z) : (forall g, d' a g <= d g) -> trip d (ret a) d'.
Proof. intros H s b s' Hs [= <- <-]. by eapply counted_le. Qed.

Lemma trip_pure {A} d (c : Y A) : (forall s a s', c s = Ret a s' -> s' = s) -> trip d c (fun _ => d).
Proof. intros H s a s' Hs Hc. by rewrite (H _ _ _ Hc). Qed.

Lemma trip_gets {A} d (f : sys P -> A) : trip d (gets f) (fun _ => d).
Proof. apply trip_pure. by intros s a s' [= _ <-]. Qed.

Lemma trip_panic {A} d msg d' : trip d (panic (A := A) msg) d'.
Proof. by intros s a s' Hs H. Qed.

(** Code of the file system does not touch the file table. *)
Lemma trip_fo {A} d (c : F A) : trip d (fo c) (fun _ => d).
Proof.
  intros s a s' [Hl Hr] H. unfold fo, to in H. apply zoom_Ret_inv in H as (t & H & ->).
  unfold fso in H. apply zoom_Ret_inv in H as (u & _ & ->). by split.
Qed.

Lemma trip_pio {A} d (c : M P A) : trip d (to (pio c)) (fun _ => d).
Proof.
  intros s a s' [Hl Hr] H. unfold to in H. apply zoom_Ret_inv in H as (t & H & ->).
  unfold pio in H. apply zoom_Ret_inv in H as (u & _ & ->). by split.
Qed.

Lemma trip_put_user d a l : trip d (put_user a l) (fun _ => d).
Proof. intros s x s' [Hl Hr] [= _ <-]. by split. Qed.

(** ** The file table *)

Lemma to_bind {A B} d (c : T A) (f : A -> T B) d1 d2 :
  trip d (to c) d1 -> (forall a, trip (d1 a) (to (f a)) d2) -> trip d (to (bind c f)) d2.
Proof.
  intros Hc Hf s b s' Hs H. unfold to in H. apply zoom_Ret_inv in H as (t & H & ->).
  apply bind_Ret_inv in H as (a & t1 & H1 & H2).
  assert (counted (d1 a) (set_s_t t1 s)) as Hs1 by (eapply Hc; [done|]; unfold to, zoom; by rewrite H1).
  eapply (Hf a (set_s_t t1 s) b); [done|]. unfold to, zoom. simpl. rewrite H2. by destruct s.
Qed.

Lemma to_ret {A} d (a : A) (d' : A -> nat -> Z) : (forall g, d' a g <= d g) -> trip d (to (ret a)) d'.
Proof. intros H s b s' Hs [= <- <-]. destruct s. by eapply counted_le. Qed.

Lemma to_file_at d f : trip d (to (file_at f)) (fun _ => d).
Proof.
  apply trip_pure. intros s a s' H. unfold to in H. apply zoom_Ret_inv in H as (t & H & ->).
  unfold file_at in H. rewrite gets_bind in H. destruct (t_files (s_t s) !! f); [|done]. injection H as _ <-. by destruct s.
Qed.

Lemma file_at_inv (t t' : fst_ P) f x : file_at f t = Ret x t' -> t' = t /\ t_files t !! f = Some x.
Proof. unfold file_at. rewrite gets_bind. destruct (t_files t !! f); [|done]. by intros [= <- <-]. Qed.

Lemma upd_file_inv (t t' : fst_ P) f g a :
  upd_file f g t = Ret a t' -> exists x, t_files t !! f = Some x /\ t' = set_t_files (<[f := g x]> (t_files t)) t.
Proof.
  unfold upd_file. intros (x & t1 & [-> Hx]%file_at_inv & H)%bind_Ret_inv. injection H as _ <-. eauto.
Qed.

Lemma fso_files {A} (c : F A) (t t' : fst_ P) a : fso c t = Ret a t' -> t_files t' = t_files t.
Proof. unfold fso. by intros (u & _ & ->)%zoom_Ret_inv. Qed.

Lemma pio_files {A} (c : M P A) (t t' : fst_ P) a : pio c t = Ret a t' -> t_files t' = t_files t.
Proof. unfold pio. by intros (u & _ & ->)%zoom_Ret_inv. Qed.

(** fileclose gives one reference back. *)
Lemma fileclose_inv (t t' : fst_ P) f a :
  fileclose f t = Ret a t' -> exists x y, t_files t !! f = Some x /\
    t_files t' = <[f := y]> (t_files t) /\ f_ref y = f_ref x - 1 /\ 1 <= f_ref x.
Proof.
  unfold fileclose. intros (x & t1 & [-> Hx]%file_at_inv & H)%bind_Ret_inv.
  destruct (Z.ltb_spec (f_ref x) 1); [done|].
  apply bind_Ret_inv in H as (? & t2 & (x' & Hx' & ->)%upd_file_inv & H). simplify_eq.
  pose proof (lookup_lt_Some _ _ _ Hx) as Hlt.
  apply bind_Ret_inv in H as (ff & t3 & [-> Hff]%file_at_inv & H). simpl in Hff.
  rewrite list_lookup_insert_eq in Hff by done. injection Hff as <-. simpl in H.
  destruct (Z.ltb_spec 0 (f_ref x - 1)).
  { injection H as _ <-. exists x, (set_ff_ref (f_ref x - 1) x). done. }
  apply bind_Ret_inv in H as (? & t4 & (x' & Hx' & ->)%upd_file_inv & H). simpl in Hx'.
  rewrite list_lookup_insert_eq in Hx' by done. injection Hx' as <-.
  exists x. eexists. split; [done|]. split; [|split; [|done]].
  - assert (t_files t' = t_files (set_t_files
      (<[f:=set_ff_type FD_NONE (set_ff_ref 0 (set_ff_ref (f_ref x - 1) x))]> (<[f:=set_ff_ref (f_ref x - 1) x]> (t_files t))) t)) as ->.
    { destruct (f_type x).
      - by injection H as _ <-.
      - apply pio_files in H. done.
      - apply bind_Ret_inv in H as (? & t5 & H5%fso_files & H).
        apply bind_Ret_inv in H as (? & t6 & H6%fso_files & H%fso_files). rewrite H, H6, H5. done. }
    simpl. by rewrite list_insert_insert_eq.
  - simpl. lia.
Qed.

Lemma free_file_spec l : forall f g, free_file l f = Some g -> exists x, (f <= g)%nat /\ l !! (g - f)%nat = Some x /\ f_ref x = 0.
Proof.
  induction l as [|x l IH]; intros f g H; [done|]. simpl in H. destruct (Z.eqb_spec (f_ref x) 0).
  - injection H as <-. exists x. rewrite Nat.sub_diag. done.
  - destruct (IH (S f) g H) as (y & Hle & Hy & Hr). exists y. split; [lia|].
    replace (g - f)%nat with (S (g - S f)) by lia. done.
Qed.

(** filealloc takes an entry that no one refers to. *)
Lemma filealloc_inv (t t' : fst_ P) r :
  filealloc t = Ret r t' ->
  match r with
  | None => t' = t
  | Some f => exists x, t_files t !! f = Some x /\ f_ref x = 0 /\ t' = set_t_files (<[f := set_ff_ref 1 x]> (t_files t)) t
  end.
Proof.
  unfold filealloc. rewrite gets_bind. destruct (free_file (t_files t) 0) as [f|] eqn:E.
  - destruct (free_file_spec _ _ _ E) as (x & _ & Hx & Hr). rewrite Nat.sub_0_r in Hx.
    intros (? & t1 & (y & Hy & ->)%upd_file_inv & H)%bind_Ret_inv. injection H as <- <-. simplify_eq. eauto.
  - by intros [= <- <-].
Qed.

(** ** Triples for the calls of file.c *)

Lemma counted_file d d' s t' :
  counted d s ->
  (forall g, match t_files (s_t s) !! g with Some x => f_ref x | None => 0 end - d g <=
             match t_files t' !! g with Some x => f_ref x | None => 0 end - d' g) ->
  counted d' (set_s_t t' s).
Proof. intros [Hl Hr] H. split; [done|]. intros g. specialize (Hr g). specialize (H g). simpl. lia. Qed.

(** The count of [f] changes, and what is in hand with it. *)
Lemma files_change (l : list file) f x y (d d' : nat -> Z) :
  l !! f = Some x -> f_ref x - d f <= f_ref y - d' f -> (forall g, g <> f -> d' g = d g) ->
  forall g, match l !! g with Some x => f_ref x | None => 0 end - d g <=
            match <[f := y]> l !! g with Some x => f_ref x | None => 0 end - d' g.
Proof.
  intros Hx Hf Hd g. destruct (decide (g = f)) as [->|Hne].
  - rewrite list_lookup_insert_eq by (by eapply lookup_lt_Some). by rewrite Hx.
  - rewrite list_lookup_insert_ne by done. rewrite (Hd g Hne). lia.
Qed.

Lemma trip_fileclose d f : trip d (to (fileclose f)) (fun _ => less f d).
Proof.
  intros s a s' Hs H. unfold to in H. apply zoom_Ret_inv in H as (t & (x & y & Hx & Ht & Hr & _)%fileclose_inv & ->).
  eapply counted_file; [done|]. rewrite Ht. eapply files_change; [done| |].
  - unfold less. rewrite decide_True by done. lia.
  - intros g Hg. unfold less. by rewrite decide_False.
Qed.

Lemma trip_filedup d f : trip d (to (filedup f)) (fun _ => one f d).
Proof.
  intros s a s' Hs H. unfold to in H. apply zoom_Ret_inv in H as (t & H & ->). unfold filedup in H.
  apply bind_Ret_inv in H as (x & t1 & [-> Hx]%file_at_inv & H). destruct (f_ref x <? 1); [done|].
  apply bind_Ret_inv in H as (? & t2 & (y & Hy & ->)%upd_file_inv & H). injection H as _ <-. simplify_eq.
  eapply counted_file; [done|]. simpl. eapply files_change; [done| |].
  - unfold one. rewrite decide_True by done. simpl. lia.
  - intros g Hg. unfold one. by rewrite decide_False.
Qed.

Definition in_hand (d : nat -> Z) (r : option nat) : nat -> Z := match r with Some f => one f d | None => d end.

Lemma trip_filealloc d : trip d (to filealloc) (in_hand d).
Proof.
  intros s a s' Hs H. unfold to in H. apply zoom_Ret_inv in H as (t & H%filealloc_inv & ->).
  destruct a as [f|]; simpl.
  - destruct H as (x & Hx & Hr & ->). eapply counted_file; [done|]. simpl. eapply files_change; [done| |].
    + unfold one. rewrite decide_True by done. simpl. lia.
    + intros g Hg. unfold one. by rewrite decide_False.
  - subst t. by destruct s.
Qed.

Lemma trip_upd_file d f g : (forall x, f_ref (g x) = f_ref x) -> trip d (to (upd_file f g)) (fun _ => d).
Proof.
  intros Hg s a s' Hs H. unfold to in H. apply zoom_Ret_inv in H as (t & (x & Hx & ->)%upd_file_inv & ->).
  eapply counted_file; [done|]. simpl. eapply files_change; [done|rewrite Hg; lia|done].
Qed.

(** ** Descriptors *)

Definition is_ref (o : option nat) (f : nat) : Z := if decide (o = Some f) then 1 else 0.

Lemma nrefs_insert l i o o' f : l !! i = Some o -> nrefs (<[i := o']> l) f = nrefs l f - is_ref o f + is_ref o' f.
Proof.
  intros Hi. pose proof (lookup_lt_Some _ _ _ Hi) as Hlt. rewrite insert_take_drop by done.
  rewrite <- (take_drop_middle l i o Hi) at 3. unfold nrefs, is_ref. rewrite !filter_app, !length_app, !filter_cons.
  repeat case_decide; simpl; lia.
Qed.

Lemma free_fd_spec l : forall fd x, free_fd l fd = Some x -> fd <= x /\ l !! Z.to_nat (x - fd) = Some None /\
  forall k, (k < Z.to_nat (x - fd))%nat -> exists f, l !! k = Some (Some f).
Proof.
  induction l as [|[f|] l IH]; intros fd x H; simpl in H; [done| |].
  - destruct (IH _ _ H) as (Hle & Hx & Hk). split; [lia|].
    replace (Z.to_nat (x - fd)) with (S (Z.to_nat (x - (fd + 1)))) by lia. split; [done|].
    intros [|k] Hlt; [eauto|]. apply Hk. lia.
  - injection H as <-. rewrite Z.sub_diag. split; [lia|]. split; [done|]. simpl. lia.
Qed.

Lemma fdalloc_inv s s' f fd :
  fdalloc f s = Ret fd s' ->
  (fd = -1 /\ s' = s) \/
  (0 <= fd /\ s_ofile s !! Z.to_nat fd = Some None /\ s' = set_s_ofile (<[Z.to_nat fd := Some f]> (s_ofile s)) s).
Proof.
  unfold fdalloc. rewrite gets_bind. destruct (free_fd (s_ofile s) 0) as [x|] eqn:E.
  - rewrite modify_bind. intros [= <- <-]. right. apply free_fd_spec in E as (Hle & Hx & _).
    rewrite Z.sub_0_r in Hx. done.
  - intros [= <- <-]. by left.
Qed.

Lemma counted_ofile d d' s l :
  counted d s -> length l = length (s_ofile s) -> (forall g, nrefs l g + d' g <= nrefs (s_ofile s) g + d g) ->
  counted d' (set_s_ofile l s).
Proof. intros [Hl Hr] E H. split; [simpl; congruence|]. intros g. specialize (Hr g). specialize (H g). simpl. lia. Qed.

(** A descriptor takes over a reference. *)
Lemma trip_fdalloc d f : trip d (fdalloc f) (fun fd => if fd <? 0 then d else less f d).
Proof.
  intros s fd s' Hs [[-> ->]|(Hle & Hn & ->)]%fdalloc_inv; [done|].
  destruct (Z.ltb_spec fd 0); [lia|]. eapply counted_ofile; [done|apply length_insert|].
  intros g. rewrite (nrefs_insert _ _ None) by done. unfold is_ref, less. repeat case_decide; simplify_eq; try done; lia.
Qed.

(** A descriptor is cleared: its reference is in hand. *)
Lemma clear_fd d s fd f :
  counted d s -> s_ofile s !! fd = Some (Some f) ->
  counted (one f d) (set_s_ofile (<[fd := None]> (s_ofile s)) s).
Proof.
  intros Hs Hf. eapply counted_ofile; [done|apply length_insert|]. intros g.
  rewrite (nrefs_insert _ _ (Some f)) by done. unfold is_ref, one. repeat case_decide; simplify_eq; try done; lia.
Qed.

Lemma argfd_inv s s' n r :
  argfd n s = Ret r s' -> s' = s /\ forall fd f, r = Some (fd, f) -> s_ofile s !! Z.to_nat fd = Some (Some f).
Proof.
  unfold argfd, getu. rewrite !gets_bind. intros [= <- <-]. split; [done|]. intros fd f H.
  destruct (argint (s_user s) n) as [x|]; [|done]. simpl in H.
  destruct ((x <? 0) || (x >=? NOFILE)) eqn:E; [done|]. bool_props.
  destruct (arr_get (s_ofile s) x) as [[g|]|] eqn:Hg; simplify_eq.
  unfold arr_get in Hg. by destruct (0 <=? fd).
Qed.

Lemma trip_argfd d n : trip d (argfd n) (fun _ => d).
Proof. apply trip_pure. intros s a s' H. by apply argfd_inv in H as [-> _]. Qed.

Lemma trip_arg_path d n : trip d (arg_path n) (fun _ => d).
Proof. apply trip_pure. intros s a s' H. unfold arg_path, getu in H. rewrite !gets_bind in H. by injection H as _ <-. Qed.

Lemma trip_getu {A} d (f : user -> A) : trip d (getu f) (fun _ => d).
Proof. apply trip_gets. Qed.

Lemma trip_op d : trip d begin_op_ (fun _ => d).
Proof. apply trip_fo. Qed.

Lemma trip_end d : trip d end_op_ (fun _ => d).
Proof. apply trip_fo. Qed.
End Inv.

Create HintDb trip.
#[export] Hint Resolve trip_fo trip_argfd trip_arg_path trip_getu trip_op trip_end trip_put_user trip_gets
  trip_panic trip_fileclose trip_filedup trip_filealloc trip_fdalloc : trip.

(** One statement of a triple, from the hints. *)
Ltac trip_step :=
  first
    [ eapply trip_bind; [solve [eauto with trip]|intros ?]
    | apply trip_panic
    | apply trip_ret; intros ?; simpl; lia
    | match goal with
      | |- trip _ (match ?x with _ => _ end) _ => destruct x
      | |- trip _ (let (_, _) := ?x in _) _ => destruct x
      | |- trip _ (if ?x then _ else _) _ => destruct x
      end ].
