(* ===== verification/SysfileCalls.v ===== *)
(** Every file system call keeps the reference counts of open files. *)
From S2P Require Import Prelude CString Bytes Bio Log Fs FsExample File Syscall Sysfile SysfileInv.

Section Calls.
Context {P : Type} {DEV : Devsw} {PO : PipeOps P}.
Notation Y := (M (sys P)).
Notation T := (M (fst_ P)).

Lemma to_fso {A} d (c : F A) : trip (P := P) d (to (fso c)) (fun _ => d).
Proof. apply trip_fo. Qed.

Lemma to_panic {A} d msg d' : trip (P := P) d (to (panic (A := A) msg)) d'.
Proof. by intros s a s' Hs H. Qed.

(** The offset moves. *)
Lemma to_if_upd d (b : bool) f g :
  (forall x, f_ref (g x) = f_ref x) -> trip (P := P) d (to (if b then upd_file f g else ret tt)) (fun _ => d).
Proof. intros Hg. destruct b; [by apply trip_upd_file|by apply to_ret]. Qed.

Hint Resolve to_fso to_file_at trip_pio to_panic : trip.
Hint Extern 1 (trip _ (to (if _ then upd_file _ _ else ret tt)) _) => (apply to_if_upd; done) : trip.

(** Statements inside a call of file.c. *)
Ltac to_step :=
  first
    [ eapply to_bind; [solve [eauto with trip]|intros ?]
    | apply to_panic
    | apply to_ret; intros ?; simpl; lia
    | solve [eauto with trip]
    | match goal with
      | |- trip _ (to (match ?x with _ => _ end)) _ => destruct x
      | |- trip _ (to (if ?x then _ else _)) _ => destruct x
      end ].

Lemma trip_fileread d f n : trip (P := P) d (to (fileread f n)) (fun _ => d).
Proof.
  unfold fileread. repeat to_step.
Qed.

Lemma trip_filewrite_chunk d f src n : trip (P := P) d (to (filewrite_chunk f src n)) (fun _ => d).
Proof.
  unfold filewrite_chunk. repeat to_step.
Qed.

Lemma trip_filewrite_loop d f addr n : forall fuel i, trip (P := P) d (to (filewrite_loop fuel f addr n i)) (fun _ => d).
Proof.
  induction fuel as [|fuel IH]; intros i; [by intros s a s' Hs H|]. simpl. to_step; [|repeat to_step].
  eapply to_bind; [apply trip_filewrite_chunk|intros r; simpl]. repeat to_step.
Qed.

Lemma trip_filewrite d f addr n : trip (P := P) d (to (filewrite f addr n)) (fun _ => d).
Proof.
  unfold filewrite. repeat to_step. eapply to_bind; [apply trip_filewrite_loop|intros r; simpl; repeat to_step].
Qed.

Lemma trip_filestat d f : trip (P := P) d (to (filestat f)) (fun _ => d).
Proof. unfold filestat. repeat to_step. Qed.

Hint Resolve trip_fileread trip_filewrite trip_filestat : trip.

(** What is in hand after pipealloc. *)
Definition in_hand2 (d : nat -> Z) (r : option (nat * nat)) : nat -> Z :=
  match r with Some (f0, f1) => one f1 (one f0 d) | None => d end.

Lemma trip_pipealloc d : trip (P := P) d (to pipealloc) (in_hand2 d).
Proof.
  unfold pipealloc. eapply to_bind; [apply trip_filealloc|intros [f0|]]; [|by apply to_ret].
  eapply to_bind; [apply trip_filealloc|intros [f1|]].
  2: { eapply to_bind; [apply trip_fileclose|intros ?]. apply to_ret. intros g. simpl. unfold less, one. repeat case_decide; lia. }
  eapply to_bind; [apply trip_pio|intros [p|]].
  - eapply to_bind; [by apply trip_upd_file|intros ?]. eapply to_bind; [by apply trip_upd_file|intros ?].
    apply to_ret. intros g. simpl. lia.
  - eapply to_bind; [apply trip_fileclose|intros ?]. eapply to_bind; [apply trip_fileclose|intros ?].
    apply to_ret. intros g. simpl. unfold less, one. repeat case_decide; lia.
Qed.

(** ** The calls *)

Lemma trip_sys_dup : trip (P := P) none sys_dup (fun _ => none).
Proof.
  unfold sys_dup. eapply trip_bind; [eauto with trip|intros [[fd f]|]]; [|by apply trip_ret].
  eapply trip_bind; [apply trip_fdalloc|intros x]. simpl. destruct (x <? 0); [by apply trip_ret|].
  eapply trip_bind; [apply trip_filedup|intros ?]. apply trip_ret. intros g. unfold one, less, none. repeat case_decide; lia.
Qed.

Lemma trip_sys_read : trip (P := P) none sys_read (fun _ => none).
Proof. unfold sys_read. repeat trip_step. Qed.

Lemma trip_sys_write : trip (P := P) none sys_write (fun _ => none).
Proof. unfold sys_write. repeat trip_step. apply trip_filewrite. Qed.

Lemma trip_sys_close : trip (P := P) none sys_close (fun _ => none).
Proof.
  intros s a s' Hs H. unfold sys_close in H. apply bind_Ret_inv in H as (r & s1 & [-> Hr]%argfd_inv & H).
  destruct r as [[fd f]|]; [|by injection H as <- <-]. rewrite modify_bind in H.
  pose proof (clear_fd none s _ f Hs (Hr fd f eq_refl)) as Hc.
  apply bind_Ret_inv in H as (? & s2 & H2 & H). injection H as _ <-.
  eapply trip_fileclose in H2; [|exact Hc]. eapply counted_le; [|exact H2].
  intros g. unfold less, one, none. repeat case_decide; lia.
Qed.

Lemma trip_sys_fstat : trip (P := P) none sys_fstat (fun _ => none).
Proof.
  unfold sys_fstat. do 2 (eapply trip_bind; [eauto with trip|intros ?]). trip_step; [|by apply trip_ret].
  destruct p as [fd f]. trip_step; [|by apply trip_ret]. eapply trip_bind; [eauto with trip|intros r].
  apply (trip_bind _ _ _ (fun _ => none)); [|intros ?; by apply trip_ret].
  destruct (snd r); [|by apply trip_ret]. intros t x t' [Hl Hr] [= _ <-]. by split.
Qed.

Lemma trip_link_bad ip : trip (P := P) none (link_bad ip) (fun _ => none).
Proof. unfold link_bad. repeat trip_step. Qed.

Lemma trip_sys_link : trip (P := P) none sys_link (fun _ => none).
Proof.
  unfold sys_link. repeat trip_step; try apply trip_link_bad.
  apply (trip_bind _ _ _ (fun _ => none)); [destruct (negb _); [by apply trip_ret|apply trip_fo]|intros r].
  repeat trip_step.
Qed.

Lemma trip_unlink_bad dp : trip (P := P) none (unlink_bad dp) (fun _ => none).
Proof. unfold unlink_bad. repeat trip_step. Qed.

Lemma trip_sys_unlink : trip (P := P) none sys_unlink (fun _ => none).
Proof.
  unfold sys_unlink. repeat trip_step; try apply trip_unlink_bad.
  apply (trip_bind _ _ _ (fun _ => none)); [destruct (_ =? _); repeat trip_step|intros [|]].
  - repeat trip_step.
  - repeat trip_step. apply (trip_bind _ _ _ (fun _ => none)); [destruct (_ =? _); [trip_step; apply trip_fo|by apply trip_ret]|intros ?].
    repeat trip_step.
Qed.

Lemma trip_open_inode path omode : trip (P := P) none (open_inode path omode) (fun _ => none).
Proof. unfold open_inode. repeat trip_step. Qed.

(** A new descriptor has the new file's only reference. *)
Lemma trip_open_fd : trip (P := P) none open_fd (fun _ => none).
Proof.
  unfold open_fd. eapply trip_bind; [apply trip_filealloc|intros [f|]]; simpl; [|by apply trip_ret].
  eapply trip_bind; [apply trip_fdalloc|intros fd]. simpl. destruct (fd <? 0).
  - eapply trip_bind; [apply trip_fileclose|intros ?]. apply trip_ret. intros g. unfold less, one, none. repeat case_decide; lia.
  - apply trip_ret. intros g. unfold less, one, none. repeat case_decide; lia.
Qed.

Lemma trip_sys_open : trip (P := P) none sys_open (fun _ => none).
Proof.
  unfold sys_open. repeat trip_step. eapply trip_bind; [apply trip_open_inode|intros [ip|]]; simpl; [|by apply trip_ret].
  eapply trip_bind; [apply trip_open_fd|intros [[f fd]|]]; simpl; repeat trip_step.
  eapply trip_bind; [by apply trip_upd_file|intros ?]. by apply trip_ret.
Qed.

(** A call that makes or finds an inode. *)
Lemma trip_sys_mkdir : trip (P := P) none sys_mkdir (fun _ => none).
Proof.
  unfold sys_mkdir. repeat trip_step. apply (trip_bind _ _ _ (fun _ => none)); [destruct a0; [apply trip_fo|by apply trip_ret]|intros ?].
  repeat trip_step.
Qed.

Lemma trip_sys_mknod : trip (P := P) none sys_mknod (fun _ => none).
Proof.
  unfold sys_mknod. repeat trip_step. apply (trip_bind _ _ _ (fun _ => none)); [repeat trip_step; apply trip_fo|intros ?].
  repeat trip_step.
Qed.

Lemma trip_sys_chdir : trip (P := P) none sys_chdir (fun _ => none).
Proof.
  unfold sys_chdir. repeat trip_step. apply (trip_bind _ _ _ (fun _ => none)); [repeat trip_step; apply trip_fo|intros ?].
  repeat trip_step.
Qed.

(** The two ends of a pipe are closed again. *)
Lemma trip_close_both rf wf : trip (P := P) (one wf (one rf none))
  (to (fileclose rf) ;; to (fileclose wf) ;; ret (-1)) (fun _ => none).
Proof.
  eapply trip_bind; [apply trip_fileclose|intros ?]. eapply trip_bind; [apply trip_fileclose|intros ?].
  apply trip_ret. intros g. unfold less, one, none. repeat case_decide; lia.
Qed.

(** The descriptors of a pipe: when the second one is missing, the first is
    given back. *)
Lemma trip_sys_pipe : trip (P := P) none sys_pipe (fun _ => none).
Proof.
  unfold sys_pipe. trip_step. trip_step; [|by apply trip_ret].
  eapply trip_bind; [apply trip_pipealloc|intros [[rf wf]|]]; simpl; [|by apply trip_ret].
  intros s x s' Hs H. apply bind_Ret_inv in H as (fd0 & s1 & H0 & H).
  pose proof (trip_fdalloc _ rf s fd0 s1 Hs H0) as Hs1. apply fdalloc_inv in H0 as [[-> ->]|(Hle & Hn & ->)].
  { apply bind_Ret_inv in H as (fd1 & s2 & [= <- <-] & H). simpl in H. rewrite ret_bind in H.
    by eapply trip_close_both. }
  rewrite (proj2 (Z.ltb_ge fd0 0) Hle) in H, Hs1. apply bind_Ret_inv in H as (fd1 & s2 & H1 & H).
  pose proof (trip_fdalloc _ wf _ fd1 s2 Hs1 H1) as Hs2. apply fdalloc_inv in H1 as [[-> ->]|(Hle1 & _ & _)].
  - simpl in H. destruct (Z.geb_spec fd0 0); [|lia]. rewrite modify_bind in H. eapply trip_close_both; [|exact H].
    eapply counted_le; [|eapply clear_fd; [exact Hs1|simpl; apply list_lookup_insert_eq; by eapply lookup_lt_Some]].
    intros g. unfold less, one, none. repeat case_decide; lia.
  - cbv beta in Hs2. rewrite (proj2 (Z.ltb_ge fd1 0) Hle1) in H, Hs2. apply bind_Ret_inv in H as (? & s3 & H3 & H).
    injection H as <- <-. eapply trip_put_user in H3; [|exact Hs2]. eapply counted_le; [|exact H3].
    intros g. unfold less, one, none. repeat case_decide; lia.
Qed.

(** ** Processes making calls *)

Inductive filecall :=
  | Cdup | Cread | Cwrite | Cclose | Cfstat | Clink | Cunlink | Copen | Cmkdir | Cmknod | Cchdir | Cpipe.

Definition do_filecall (c : filecall) : Y Z :=
  match c with
  | Cdup => sys_dup | Cread => sys_read | Cwrite => sys_write | Cclose => sys_close | Cfstat => sys_fstat
  | Clink => sys_link | Cunlink => sys_unlink | Copen => sys_open | Cmkdir => sys_mkdir | Cmknod => sys_mknod
  | Cchdir => sys_chdir | Cpipe => sys_pipe
  end.

(** Between calls the process does to its memory and registers what it likes. *)
Fixpoint run_filecalls (l : list (user * filecall)) : Y unit :=
  match l with
  | [] => ret tt
  | (u, c) :: l' => modify (set_s_user u) ;; do_filecall c ;; run_filecalls l'
  end.

Lemma trip_filecall c : trip (P := P) none (do_filecall c) (fun _ => none).
Proof.
  destruct c; [apply trip_sys_dup|apply trip_sys_read|apply trip_sys_write|apply trip_sys_close|apply trip_sys_fstat
    |apply trip_sys_link|apply trip_sys_unlink|apply trip_sys_open|apply trip_sys_mkdir|apply trip_sys_mknod
    |apply trip_sys_chdir|apply trip_sys_pipe].
Qed.

Lemma trip_filecalls l : trip (P := P) none (run_filecalls l) (fun _ => none).
Proof.
  induction l as [|[u c] l IH]; [by apply trip_ret|]. simpl.
  apply (trip_bind _ _ _ (fun _ => none)); [intros s x s' [Hl Hr] [= _ <-]; by split|intros ?].
  eapply trip_bind; [apply trip_filecall|intros ?; exact IH].
Qed.

(** C6: Whatever sequence of file system calls a process makes, with whatever
    arguments, an open descriptor afterwards refers to an entry of the file
    table that counts at least every descriptor that refers to it, so that
    closing one of them never frees an entry another one uses. *)
Theorem open_descriptors_are_counted l s x s' :
  counted none s -> run_filecalls l s = Ret x s' ->
  length (s_ofile s') = Z.to_nat NOFILE /\
  forall fd f, s_ofile s' !! fd = Some (Some f) ->
  exists e, t_files (s_t s') !! f = Some e /\ 0 < nrefs (s_ofile s') f <= f_ref e.
Proof.
  intros Hs H. destruct (trip_filecalls l s x s' Hs H) as [Hl Hr]. split; [done|]. intros fd f Hf.
  assert (0 < nrefs (s_ofile s') f).
  { unfold nrefs. assert (Some f ∈ filter (fun o => o = Some f) (s_ofile s')) as Hin.
    { apply list_elem_of_filter. split; [done|by eapply list_elem_of_lookup_2]. }
    destruct (filter _ _); [by apply not_elem_of_nil in Hin|]. simpl. lia. }
  specialize (Hr f). unfold none in Hr. destruct (t_files (s_t s') !! f) as [e|]; [|lia].
  exists e. split; [done|lia].
Qed.
End Calls.

(** ** A process with one open file *)

#[local] Instance ex_pipes : PipeOps unit := {|
  pipeclose := fun _ _ => ret tt;
  piperead := fun _ _ => ret (0, []);
  pipewrite := fun _ _ n => ret n;
  pipenew := ret None
|}.
#[local] Instance ex_devices : Devsw := {| dev_read := fun _ => None; dev_write := fun _ => None |}.

(** A stack at 0x100 whose first argument is [n]. *)
Definition ex_args (n : Z) : user := User 0x1000 0x100 0 (fun a => if a =? 0x104 then n else 0).
Definition ex_file : file := File FD_INODE 1 1 1 0 0 0.
Definition ex_sys : sys unit :=
  Sys (Fst e_fs [ex_file] tt) (ex_args 0) (Some 0%nat :: replicate 15 None).

Lemma open_descriptors_are_counted_witness :
  let s' := Sys (Fst e_fs [set_ff_ref 2 ex_file] tt) (ex_args 0) (None :: Some 0%nat :: Some 0%nat :: replicate 13 None) in
  run_filecalls [(ex_args 0, Cdup); (ex_args 1, Cdup); (ex_args 0, Cclose)] ex_sys = Ret tt (set_s_user (ex_args 0) s') /\
  length (s_ofile s') = Z.to_nat NOFILE /\
  forall fd f, s_ofile s' !! fd = Some (Some f) ->
  exists e, t_files (s_t s') !! f = Some e /\ 0 < nrefs (s_ofile s') f <= f_ref e.
Proof.
  intros s'.
  assert (run_filecalls [(ex_args 0, Cdup); (ex_args 1, Cdup); (ex_args 0, Cclose)] ex_sys = Ret tt s') as E by reflexivity.
  split; [exact E|]. refine (open_descriptors_are_counted _ _ _ _ _ E).
  split; [reflexivity|]. intros [|f]; [vm_compute; discriminate|].
  unfold none. vm_compute. discriminate.
Defined.
