(* ===== verification/Vm.v ===== *)
(** Virtual memory (src/xv6-public/vm.c, with the macros of mmu.h and
    memlayout.h): page tables that live in the pages of [Kalloc], and the
    segment descriptors of a CPU.

    [ram] has the kernel's view of memory: the byte at kernel virtual address
    [a], which is physical address [V2P a].  loaduvm reads a file and is in
    [Exec]. *)
From S2P Require Import Prelude CString Spinlock ProcState Queue Proc Kalloc.

(** * Constants and macros *)

Definition NPDENTRIES : Z := 1024.
Definition NPTENTRIES : Z := 1024.
Definition PTE_P : Z := 1.
Definition PTE_W : Z := 2.
Definition PTE_U : Z := 4.
Definition EXTMEM : Z := 0x100000.
Definition DEVSPACE : Z := 0xFE000000.
Definition KERNLINK : Z := KERNBASE + EXTMEM.
(** The start of the kernel's data, as kernel.sym has it. *)
Definition data_ : Z := 0x80108000.

Definition PGROUNDDOWN (a : Z) : Z := Z.land a (Z.lnot (PGSIZE - 1)).
Definition PDX (va : Z) : Z := Z.land (Z.shiftr (u32 va) 22) 0x3FF.
Definition PTX (va : Z) : Z := Z.land (Z.shiftr (u32 va) 12) 0x3FF.
Definition PTE_ADDR (pte : Z) : Z := Z.land (u32 pte) (Z.lnot 0xFFF).
Definition PTE_FLAGS (pte : Z) : Z := Z.land (u32 pte) 0xFFF.
(** [pte & bit], as a condition. *)
Definition has (pte bit : Z) : bool := negb (Z.land pte bit =? 0).

(** * Segment descriptors *)

Definition SEG_KCODE : Z := 1.
Definition SEG_KDATA : Z := 2.
Definition SEG_KCPU : Z := 3.
Definition SEG_UCODE : Z := 4.
Definition SEG_UDATA : Z := 5.
Definition SEG_TSS : Z := 6.
Definition NSEGS : Z := 7.
Definition DPL_USER : Z := 3.
Definition STA_X : Z := 8.
Definition STA_W : Z := 2.
Definition STA_R : Z := 2.
Definition STS_T32A : Z := 9.

Record segdesc := Segdesc {
  lim_15_0 : Z;
  base_15_0 : Z;
  base_23_16 : Z;
  sd_type : Z;
  sd_s : Z;
  sd_dpl : Z;
  sd_p : Z;
  lim_19_16 : Z;
  sd_avl : Z;
  sd_rsv1 : Z;
  sd_db : Z;
  sd_g : Z;
  base_31_24 : Z
}.
Definition set_sd_s v d :=
  Segdesc (lim_15_0 d) (base_15_0 d) (base_23_16 d) (sd_type d) v (sd_dpl d) (sd_p d) (lim_19_16 d)
    (sd_avl d) (sd_rsv1 d) (sd_db d) (sd_g d) (base_31_24 d).

Definition SEG (type base lim dpl : Z) : segdesc :=
  Segdesc (Z.land (Z.shiftr lim 12) 0xffff) (Z.land (u32 base) 0xffff)
    (Z.land (Z.shiftr (u32 base) 16) 0xff) type 1 dpl 1
    (Z.shiftr (u32 lim) 28) 0 0 1 1 (Z.shiftr (u32 base) 24).

Definition SEG16 (type base lim dpl : Z) : segdesc :=
  Segdesc (Z.land lim 0xffff) (Z.land (u32 base) 0xffff)
    (Z.land (Z.shiftr (u32 base) 16) 0xff) type 1 dpl 1
    (Z.shiftr (u32 lim) 16) 0 0 1 0 (Z.shiftr (u32 base) 24).

(** The descriptors, task state and registers of the CPU; [cs_addr], [cs_ts]
    and [cs_gdt] are the addresses of cpu->cpu, cpu->ts and cpu->gdt. *)
Record cpuseg := Cpuseg {
  cs_addr : Z;
  cs_ts : Z;
  cs_gdt : Z;
  gdt : list segdesc;
  ts_ss0 : Z;
  ts_esp0 : Z;
  ts_iomb : Z;
  gdtr : Z * Z;
  gs_ : Z;
  tr_ : Z;
  cr3 : Z
}.
Definition set_gdt v c := Cpuseg (cs_addr c) (cs_ts c) (cs_gdt c) v (ts_ss0 c) (ts_esp0 c) (ts_iomb c) (gdtr c) (gs_ c) (tr_ c) (cr3 c).
Definition set_ts a b d c := Cpuseg (cs_addr c) (cs_ts c) (cs_gdt c) (gdt c) a b d (gdtr c) (gs_ c) (tr_ c) (cr3 c).
Definition set_gdtr v c := Cpuseg (cs_addr c) (cs_ts c) (cs_gdt c) (gdt c) (ts_ss0 c) (ts_esp0 c) (ts_iomb c) v (gs_ c) (tr_ c) (cr3 c).
Definition set_gs v c := Cpuseg (cs_addr c) (cs_ts c) (cs_gdt c) (gdt c) (ts_ss0 c) (ts_esp0 c) (ts_iomb c) (gdtr c) v (tr_ c) (cr3 c).
Definition set_tr v c := Cpuseg (cs_addr c) (cs_ts c) (cs_gdt c) (gdt c) (ts_ss0 c) (ts_esp0 c) (ts_iomb c) (gdtr c) (gs_ c) v (cr3 c).
Definition set_cr3 v c := Cpuseg (cs_addr c) (cs_ts c) (cs_gdt c) (gdt c) (ts_ss0 c) (ts_esp0 c) (ts_iomb c) (gdtr c) (gs_ c) (tr_ c) v.

Definition sizeof_segdesc : Z := 8.
Definition sizeof_taskstate : Z := 104.

(** * State *)

Record vst := Vst {
  v_km : kmem;
  kpgdir : Z;
  v_seg : cpuseg;
  v_out : list string
}.
Definition set_v_km v s := Vst v (kpgdir s) (v_seg s) (v_out s).
Definition set_kpgdir v s := Vst (v_km s) v (v_seg s) (v_out s).
Definition set_v_seg v s := Vst (v_km s) (kpgdir s) v (v_out s).
Definition set_v_out v s := Vst (v_km s) (kpgdir s) (v_seg s) v.

Notation V := (M vst).

Definition km {A} (c : M kmem A) : V A := zoom v_km set_v_km c.
Definition vmem (s : vst) : mem := ram (v_km s).
Definition set_vmem (m : mem) (s : vst) : vst := set_v_km (set_ram m (v_km s)) s.
(** [*a] and [*a = v] for a pointer to a 32-bit word. *)
Definition load (a : Z) : V Z := gets (fun s => load32 (vmem s) a).
Definition put (a v : Z) : V unit := modify (fun s => set_vmem (store32 (vmem s) a v) s).
Definition fill (a c n : Z) : V unit := modify (fun s => set_vmem (memset (vmem s) a c n) s).
Definition move (d a n : Z) : V unit := modify (fun s => set_vmem (memmove (vmem s) d a n) s).
Definition say (m : string) : V unit := modify (fun s => set_v_out (v_out s ++ [m]) s).
Definition seg (f : cpuseg -> cpuseg) : V unit := modify (fun s => set_v_seg (f (v_seg s)) s).

(** * Page tables *)

Definition walkpgdir (pgdir va : Z) (alloc : bool) : V Z :=
  let pde := pgdir + 4 * PDX va in
  e <- load pde ;;
  if has e PTE_P then ret (P2V (PTE_ADDR e) + 4 * PTX va)
  else
    if negb alloc then ret 0 else
    pgtab <- km kalloc ;;
    if pgtab =? 0 then ret 0 else
    fill pgtab 0 PGSIZE ;;
    put pde (Z.lor (Z.lor (Z.lor (V2P pgtab) PTE_P) PTE_W) PTE_U) ;;
    ret (pgtab + 4 * PTX va).

(** [for(;;)], which [a], moving through the pages with wrap-around, leaves
    when it meets [last]. *)
Fixpoint mappages_loop (fuel : nat) (pgdir a last pa perm : Z) : V Z :=
  match fuel with
  | O => fun s => OutOfFuel s
  | S fuel' =>
      pte <- walkpgdir pgdir a true ;;
      if pte =? 0 then ret (-1) else
      e <- load pte ;;
      if has e PTE_P then panic "remap" else
      put pte (Z.lor (Z.lor pa perm) PTE_P) ;;
      if a =? last then ret 0
      else mappages_loop fuel' pgdir (u32 (a + PGSIZE)) last (u32 (pa + PGSIZE)) perm
  end.

Definition mappages (pgdir va size pa perm : Z) : V Z :=
  let a := PGROUNDDOWN (u32 va) in
  let last := PGROUNDDOWN (u32 (va + size - 1)) in
  mappages_loop (S (Z.to_nat (u32 (last - a) / PGSIZE))) pgdir a last pa perm.

(** A line of kmap. *)
Record kmap := Kmap { k_virt : Z; k_phys_start : Z; k_phys_end : Z; k_perm : Z }.
Definition kmaps : list kmap :=
  [Kmap KERNBASE 0 EXTMEM PTE_W;
   Kmap KERNLINK (V2P KERNLINK) (V2P data_) 0;
   Kmap data_ (V2P data_) PHYSTOP PTE_W;
   Kmap DEVSPACE DEVSPACE 0 PTE_W].

Fixpoint setupkvm_loop (pgdir : Z) (l : list kmap) : V Z :=
  match l with
  | [] => ret pgdir
  | k :: l' =>
      r <- mappages pgdir (k_virt k) (u32 (k_phys_end k - k_phys_start k)) (k_phys_start k) (k_perm k) ;;
      if r <? 0 then ret 0 else setupkvm_loop pgdir l'
  end.

Definition setupkvm : V Z :=
  pgdir <- km kalloc ;;
  if pgdir =? 0 then ret 0 else
  fill pgdir 0 PGSIZE ;;
  if P2V PHYSTOP >? DEVSPACE then panic "PHYSTOP too high" else
  setupkvm_loop pgdir kmaps.

Definition switchkvm : V unit :=
  k <- gets kpgdir ;; seg (set_cr3 (V2P k)).

Definition kvmalloc : V unit :=
  k <- setupkvm ;;
  modify (set_kpgdir k) ;;
  switchkvm.

(** [init] are the bytes of the program; no memory leaves [mem] null. *)
Definition inituvm (pgdir : Z) (init : list Z) (sz : Z) : V unit :=
  if sz >=? PGSIZE then panic "inituvm: more than a page" else
  mem <- km kalloc ;;
  if mem =? 0 then undef "null pointer" else
  fill mem 0 PGSIZE ;;
  mappages pgdir 0 PGSIZE (V2P mem) (Z.lor PTE_W PTE_U) ;;
  modify (fun s => set_vmem (place (take (Z.to_nat sz) init) mem (vmem s)) s).

(** [for(; a < oldsz; a += PGSIZE)]; a missing page table skips to the next. *)
Fixpoint deallocuvm_loop (fuel : nat) (pgdir a oldsz : Z) : V unit :=
  match fuel with
  | O => fun s => OutOfFuel s
  | S fuel' =>
      if negb (a <? oldsz) then ret tt else
      pte <- walkpgdir pgdir a false ;;
      if pte =? 0 then deallocuvm_loop fuel' pgdir (u32 (u32 (a + (NPTENTRIES - 1) * PGSIZE) + PGSIZE)) oldsz
      else
        e <- load pte ;;
        (if has e PTE_P then
           let pa := PTE_ADDR e in
           if pa =? 0 then panic "kfree" else
           km (kfree (P2V pa)) ;;
           put pte 0
         else ret tt) ;;
        deallocuvm_loop fuel' pgdir (u32 (a + PGSIZE)) oldsz
  end.

Definition deallocuvm (pgdir oldsz newsz : Z) : V Z :=
  if newsz >=? oldsz then ret oldsz else
  let a := PGROUNDUP newsz in
  deallocuvm_loop (S (S (Z.to_nat ((oldsz - a) / PGSIZE)))) pgdir a oldsz ;;
  ret newsz.

Fixpoint allocuvm_loop (fuel : nat) (pgdir a oldsz newsz : Z) : V Z :=
  match fuel with
  | O => fun s => OutOfFuel s
  | S fuel' =>
      if negb (a <? newsz) then ret newsz else
      mem <- km kalloc ;;
      if mem =? 0 then
        say "allocuvm out of memory" ;;
        deallocuvm pgdir newsz oldsz ;;
        ret 0
      else
        fill mem 0 PGSIZE ;;
        r <- mappages pgdir a PGSIZE (V2P mem) (Z.lor PTE_W PTE_U) ;;
        if r <? 0 then
          say "allocuvm out of memory (2)" ;;
          deallocuvm pgdir newsz oldsz ;;
          km (kfree mem) ;;
          ret 0
        else allocuvm_loop fuel' pgdir (u32 (a + PGSIZE)) oldsz newsz
  end.

Definition allocuvm (pgdir oldsz newsz : Z) : V Z :=
  if newsz >=? KERNBASE then ret 0 else
  if newsz <? oldsz then ret oldsz else
  let a := PGROUNDUP oldsz in
  allocuvm_loop (S (S (Z.to_nat ((newsz - a) / PGSIZE)))) pgdir a oldsz newsz.

Definition freevm (pgdir : Z) : V unit :=
  if pgdir =? 0 then panic "freevm: no pgdir" else
  deallocuvm pgdir KERNBASE 0 ;;
  for_each 0 NPDENTRIES (fun i =>
    e <- load (pgdir + 4 * i) ;;
    if has e PTE_P then km (kfree (P2V (PTE_ADDR e))) else ret tt) ;;
  km (kfree pgdir).

Definition clearpteu (pgdir uva : Z) : V unit :=
  pte <- walkpgdir pgdir uva false ;;
  if pte =? 0 then panic "clearpteu" else
  e <- load pte ;;
  put pte (Z.land e (Z.lnot PTE_U)).

(** [None] is [goto bad]. *)
Fixpoint copyuvm_loop (fuel : nat) (pgdir d i sz : Z) : V (option unit) :=
  match fuel with
  | O => fun s => OutOfFuel s
  | S fuel' =>
      if negb (i <? sz) then ret (Some tt) else
      pte <- walkpgdir pgdir i false ;;
      if pte =? 0 then panic "copyuvm: pte should exist" else
      e <- load pte ;;
      if negb (has e PTE_P) then panic "copyuvm: page not present" else
      let pa := PTE_ADDR e in
      let flags := PTE_FLAGS e in
      mem <- km kalloc ;;
      if mem =? 0 then ret None else
      move mem (P2V pa) PGSIZE ;;
      r <- mappages d i PGSIZE (V2P mem) flags ;;
      if r <? 0 then ret None
      else copyuvm_loop fuel' pgdir d (u32 (i + PGSIZE)) sz
  end.

Definition copyuvm (pgdir sz : Z) : V Z :=
  d <- setupkvm ;;
  if d =? 0 then ret 0 else
  r <- copyuvm_loop (S (S (Z.to_nat (sz / PGSIZE)))) pgdir d 0 sz ;;
  match r with
  | Some _ => ret d
  | None => freevm d ;; ret 0
  end.

(** The result of walkpgdir is used without a test. *)
Definition uva2ka (pgdir uva : Z) : V Z :=
  pte <- walkpgdir pgdir uva false ;;
  if pte =? 0 then undef "null pointer" else
  e <- load pte ;;
  if negb (has e PTE_P) then ret 0 else
  if negb (has e PTE_U) then ret 0 else
  ret (P2V (PTE_ADDR e)).

(** [buf] are the bytes at [p]; [len] is their number. *)
Fixpoint copyout_loop (fuel : nat) (pgdir va : Z) (buf : list Z) (len : Z) : V Z :=
  match fuel with
  | O => fun s => OutOfFuel s
  | S fuel' =>
      if negb (len >? 0) then ret 0 else
      let va0 := PGROUNDDOWN va in
      pa0 <- uva2ka pgdir va0 ;;
      if pa0 =? 0 then ret (-1) else
      let n := Z.min (PGSIZE - (va - va0)) len in
      modify (fun s => set_vmem (place (take (Z.to_nat n) buf) (pa0 + (va - va0)) (vmem s)) s) ;;
      copyout_loop fuel' pgdir (u32 (va0 + PGSIZE)) (drop (Z.to_nat n) buf) (len - n)
  end.

Definition copyout (pgdir va : Z) (buf : list Z) (len : Z) : V Z :=
  copyout_loop (S (S (Z.to_nat (len / PGSIZE + 1)))) pgdir va buf len.

(** * Segments *)

Definition put_gdt (i : Z) (d : segdesc) (c : cpuseg) : cpuseg := set_gdt (<[Z.to_nat i := d]> (gdt c)) c.

(** The CPU is the one [this] says. *)
Definition seginit : V unit :=
  seg (put_gdt SEG_KCODE (SEG (Z.lor STA_X STA_R) 0 0xffffffff 0)) ;;
  seg (put_gdt SEG_KDATA (SEG STA_W 0 0xffffffff 0)) ;;
  seg (put_gdt SEG_UCODE (SEG (Z.lor STA_X STA_R) 0 0xffffffff DPL_USER)) ;;
  seg (put_gdt SEG_UDATA (SEG STA_W 0 0xffffffff DPL_USER)) ;;
  seg (fun c => put_gdt SEG_KCPU (SEG STA_W (cs_addr c) 8 0) c) ;;
  seg (fun c => set_gdtr (cs_gdt c, NSEGS * sizeof_segdesc - 1) c) ;;
  seg (set_gs (Z.shiftl SEG_KCPU 3)) ;;
  km (kmachM (upd_cpu (set_cpu_proc None))).

(** [kstack] is that of the running process, [pgdir] that of [p]. *)
Definition switchuvm (kstack pgdir : Z) : V unit :=
  km (kmachM pushcli) ;;
  seg (fun c => put_gdt SEG_TSS (set_sd_s 0 (SEG16 STS_T32A (cs_ts c) (sizeof_taskstate - 1) 0)) c) ;;
  seg (set_ts (Z.shiftl SEG_KDATA 3) (u32 (kstack + KSTACKSIZE)) 0xFFFF) ;;
  seg (set_tr (Z.shiftl SEG_TSS 3)) ;;
  if pgdir =? 0 then panic "switchuvm: no pgdir" else
  seg (set_cr3 (V2P pgdir)) ;;
  km (kmachM popcli).
