(* ===== verification/VmSpec.v ===== *)
(** Page tables as maps from page numbers to entries.

    A page directory [d] with the page tables [T] (by directory index) maps
    the page number [n] (an address divided by 4096) to the entry
    [pte m T n], 0 when the table is missing.  All pages that hold a page
    table are apart from each other and from the free ones. *)
From S2P Require Import Prelude CString Spinlock ProcState Queue Proc Kalloc Vm.

(** * Arithmetic of addresses and entries *)

(** The start of the page of an address. *)
Definition pb (x : Z) : Z := x / 4096 * 4096.

Lemma pb_page p x : p mod 4096 = 0 -> p <= x < p + 4096 -> pb x = p.
Proof. intros Hp Hx. unfold pb. pose proof (Z.div_mod p 4096). pose proof (Z.div_mod x 4096). pose proof (Z.mod_pos_bound x 4096). nia. Qed.

Lemma pb_inv p x : p mod 4096 = 0 -> pb x = p -> p <= x < p + 4096.
Proof. intros Hp <-. unfold pb. pose proof (Z.div_mod x 4096). pose proof (Z.mod_pos_bound x 4096). lia. Qed.

Lemma land_down a n : 0 <= n -> Z.land a (Z.lnot (Z.ones n)) = a / 2 ^ n * 2 ^ n.
Proof.
  intros Hn. rewrite <- Z.shiftl_mul_pow2, <- Z.shiftr_div_pow2 by lia.
  apply Z.bits_inj'. intros i Hi. rewrite Z.land_spec, Z.lnot_spec, Z.shiftl_spec by lia.
  destruct (Z.ltb_spec i n).
  - rewrite Z.ones_spec_low by lia. rewrite (Z.testbit_neg_r (Z.shiftr _ _)) by lia. by rewrite andb_false_r.
  - rewrite Z.ones_spec_high by lia. rewrite Z.shiftr_spec by lia. rewrite andb_true_r. f_equal. lia.
Qed.

Lemma PGROUNDDOWN_eq a : PGROUNDDOWN a = pb a.
Proof. unfold PGROUNDDOWN, pb, PGSIZE. change (4096 - 1) with (Z.ones 12). by rewrite land_down by lia. Qed.

Lemma PDX_eq va : 0 <= va < 4294967296 -> PDX va = va / 4096 / 1024.
Proof.
  intros Hv. unfold PDX. rewrite u32_small by lia. change 0x3FF with (Z.ones 10). rewrite Z.land_ones by lia.
  rewrite Z.shiftr_div_pow2 by lia. rewrite Z.div_div by lia. apply Z.mod_small. change (2 ^ 22) with (4096 * 1024).
  split; [apply Z.div_pos; lia|]. apply Z.div_lt_upper_bound; lia.
Qed.

Lemma PTX_eq va : 0 <= va < 4294967296 -> PTX va = (va / 4096) mod 1024.
Proof.
  intros Hv. unfold PTX. rewrite u32_small by lia. change 0x3FF with (Z.ones 10). rewrite Z.land_ones by lia.
  by rewrite Z.shiftr_div_pow2 by lia.
Qed.

(** A physical page address with flags. *)
Lemma land_add_low pa fl b : pa mod 4096 = 0 -> 0 <= fl < 4096 -> 0 <= b < 4096 -> Z.land (pa + fl) b = Z.land fl b.
Proof.
  intros Hpa Hfl Hb. assert (forall x, Z.land x b = Z.land (x mod 4096) b) as H.
  { intros x. change 4096 with (2 ^ 12). rewrite <- Z.land_ones by lia. rewrite <- Z.land_assoc. f_equal.
    rewrite Z.land_comm, Z.land_ones by lia. symmetry. apply Z.mod_small. lia. }
  rewrite (H (pa + fl)), (H fl). f_equal. pose proof (Z.div_mod pa 4096).
  replace (pa + fl) with (fl + pa / 4096 * 4096) by lia. apply Z.mod_add. lia.
Qed.

Lemma lor_add pa fl : pa mod 4096 = 0 -> 0 <= fl < 4096 -> Z.lor pa fl = pa + fl.
Proof.
  intros Hpa Hfl. rewrite <- (Z.add_lor_land pa fl).
  assert (Z.land pa fl = 0) as ->; [|lia].
  replace pa with (pa + 0) by lia. rewrite land_add_low by lia. apply Z.land_0_l.
Qed.

Lemma PTE_ADDR_add pa fl : pa mod 4096 = 0 -> 0 <= pa < 4294967296 -> 0 <= fl < 4096 -> PTE_ADDR (pa + fl) = pa.
Proof.
  intros Hpa Hr Hfl. unfold PTE_ADDR. pose proof (Z.div_mod pa 4096).
  assert (pa + fl < 4294967296). { pose proof (Z.div_lt_upper_bound pa 4096 1048576). lia. }
  rewrite u32_small by lia. change 0xFFF with (Z.ones 12). rewrite land_down by lia. change (2 ^ 12) with 4096.
  replace (pa + fl) with (fl + pa / 4096 * 4096) by lia. rewrite Z.div_add by lia. rewrite Z.div_small by lia. lia.
Qed.

Lemma PTE_FLAGS_add pa fl : pa mod 4096 = 0 -> 0 <= pa < 4294967296 -> 0 <= fl < 4096 -> PTE_FLAGS (pa + fl) = fl.
Proof.
  intros Hpa Hr Hfl. unfold PTE_FLAGS. pose proof (Z.div_mod pa 4096).
  assert (pa + fl < 4294967296). { pose proof (Z.div_lt_upper_bound pa 4096 1048576). lia. }
  rewrite u32_small by lia. rewrite land_add_low by lia. change 0xFFF with (Z.ones 12). rewrite Z.land_ones by lia.
  apply Z.mod_small. lia.
Qed.

Lemma has_add pa fl b : pa mod 4096 = 0 -> 0 <= fl < 4096 -> 0 <= b < 4096 -> has (pa + fl) b = has fl b.
Proof. intros. unfold has. by rewrite land_add_low. Qed.

Lemma page_range p : page_ok p -> p mod 4096 = 0 /\ 0x80116528 <= p < 0x8E000000.
Proof. intros [Hp Hr]. unfold PGSIZE, end_, KERNBASE, PHYSTOP in *. lia. Qed.

Lemma V2P_eq p : page_ok p -> V2P p = p - 0x80000000.
Proof. intros Hp%page_range. unfold V2P, KERNBASE. by rewrite u32_small by lia. Qed.

Lemma V2P_al p : page_ok p -> V2P p mod 4096 = 0 /\ 0 <= V2P p < 4294967296.
Proof.
  intros Hp. rewrite V2P_eq by done. apply page_range in Hp as [Hm Hr].
  replace (p - 0x80000000) with (p + -524288 * 4096) by lia. rewrite Z.mod_add by lia. split; [done|lia].
Qed.

Lemma P2V_V2P p : page_ok p -> P2V (V2P p) = p.
Proof. intros Hp. rewrite V2P_eq by done. apply page_range in Hp. unfold P2V, KERNBASE. rewrite u32_small; lia. Qed.

(** * The memory of a page table *)

Lemma store32_pb m a v x : a mod 4 = 0 -> pb x <> pb a -> store32 m a v x = m x.
Proof.
  intros Ha Hx. apply store32_ne. destruct (decide (x < a \/ a + 4 <= x)); [done|exfalso]. apply Hx. unfold pb.
  pose proof (Z.div_mod a 4096). pose proof (Z.mod_pos_bound a 4096). pose proof (Z.div_mod x 4096). pose proof (Z.mod_pos_bound x 4096).
  pose proof (Z.div_mod a 4). pose proof (Z.div_mod (a mod 4096) 4).
  assert ((a mod 4096) mod 4 = 0). { change 4096 with (4 * 1024). rewrite Z.rem_mul_r by lia. rewrite Ha. rewrite Z.add_0_l, Z.mul_comm. apply Z.mod_mul. lia. }
  nia.
Qed.

(** A word inside a page. *)
Lemma word_pb p i x : p mod 4096 = 0 -> 0 <= i < 1024 -> p + 4 * i <= x < p + 4 * i + 4 -> pb x = p.
Proof. intros Hp Hi Hx. apply pb_page; [done|lia]. Qed.

Lemma load32_page m m' p i :
  p mod 4096 = 0 -> 0 <= i < 1024 -> (forall x, pb x = p -> m' x = m x) -> load32 m' (p + 4 * i) = load32 m (p + 4 * i).
Proof. intros Hp Hi H. apply load32_ext. intros x Hx. apply H. by eapply word_pb. Qed.

Lemma load32_store32_ne m p i q j v :
  p mod 4096 = 0 -> q mod 4096 = 0 -> 0 <= i < 1024 -> 0 <= j < 1024 -> (p, i) <> (q, j) ->
  load32 (store32 m (q + 4 * j) v) (p + 4 * i) = load32 m (p + 4 * i).
Proof.
  intros Hp Hq Hi Hj Hne. apply load32_ext. intros x Hx. apply store32_ne.
  destruct (decide (p = q)) as [<-|Hpq]; [assert (i <> j) by congruence; lia|].
  pose proof (word_pb p i x Hp Hi Hx) as E. destruct (decide (q + 4 * j <= x < q + 4 * j + 4)) as [H|]; [|lia].
  pose proof (word_pb q j x Hq Hj H). congruence.
Qed.

Lemma memset_pb m p c x : p mod 4096 = 0 -> memset m p c PGSIZE x = if decide (pb x = p) then c mod 256 else m x.
Proof.
  intros Hp. rewrite memset_spec by (unfold PGSIZE; lia). unfold PGSIZE.
  destruct (decide (pb x = p)) as [E|E].
  - apply pb_inv in E; [|done]. by destruct (Z.leb_spec p x), (Z.ltb_spec x (p + 4096)); simpl; try lia.
  - destruct (Z.leb_spec p x), (Z.ltb_spec x (p + 4096)); simpl; try done. destruct E. by apply pb_page.
Qed.

(** The entry for page number [n]. *)
Definition pte (m : mem) (T : gmap Z Z) (n : Z) : Z :=
  match T !! (n / 1024) with Some t => load32 m (t + 4 * (n mod 1024)) | None => 0 end.

Record pgdir_ok (m : mem) (d : Z) (T : gmap Z Z) : Prop := {
  pd_page : page_ok d;
  pd_tab : forall i t, T !! i = Some t -> 0 <= i < 1024 /\ page_ok t /\ t <> d;
  pd_some : forall i t, T !! i = Some t -> load32 m (d + 4 * i) = V2P t + 7;
  pd_none : forall i, 0 <= i < 1024 -> T !! i = None -> has (load32 m (d + 4 * i)) PTE_P = false;
  pd_inj : forall i j t, T !! i = Some t -> T !! j = Some t -> i = j
}.

(** The pages that hold it. *)
Definition ptpage (d : Z) (T : gmap Z Z) (p : Z) : Prop := p = d \/ exists i, T !! i = Some p.

Lemma pgdir_frame m m' d T :
  pgdir_ok m d T -> (forall x, ptpage d T (pb x) -> m' x = m x) ->
  pgdir_ok m' d T /\ forall n, 0 <= n < 1048576 -> pte m' T n = pte m T n.
Proof.
  intros [Hd Ht Hs Hn Hi] Hm. assert (forall i, 0 <= i < 1024 -> load32 m' (d + 4 * i) = load32 m (d + 4 * i)) as Hdir.
  { intros i Hr. apply load32_page; [apply Hd|done|]. intros x Hx. apply Hm. by left. }
  split; [constructor; eauto|].
  - intros i t Hit. rewrite Hdir; [eauto|]. apply (Ht i t Hit).
  - intros i Hr Hit. rewrite Hdir; eauto.
  - intros n Hr. unfold pte. destruct (T !! (n / 1024)) as [t|] eqn:Et; [|done].
    apply load32_page; [by apply Ht in Et as (_ & [? _] & _)|apply Z.mod_pos_bound; lia|].
    intros x Hx. apply Hm. right. exists (n / 1024). congruence.
Qed.

(** * The state *)

Lemma kmem_frame k l m' :
  kmem_ok k l -> (forall x, pb x ∈ l -> m' x = ram k x) -> kmem_ok (set_ram m' k) l.
Proof.
  intros [Hc Hp Hn] Hm. constructor; simpl; try done. eapply chain_ext; [exact Hc|]. intros a x Ha Hx.
  apply Hm. rewrite Forall_forall in Hp. destruct (Hp a Ha) as [Hal _]. by rewrite (pb_page a) by (unfold PGSIZE in *; lia).
Qed.

(** Nothing but memory, the allocator's lock and the console has been used. *)
Record vafter (s s' : vst) : Prop := {
  va_km : kmem_after (v_km s) (v_km s');
  va_kpgdir : kpgdir s' = kpgdir s;
  va_seg : v_seg s' = v_seg s
}.

Record vinv (s : vst) (free : list Z) (d : Z) (T : gmap Z Z) : Prop := {
  vi_km : kmem_ok (v_km s) free;
  vi_ready : kmem_ready (v_km s);
  vi_pd : pgdir_ok (vmem s) d T;
  vi_own : forall p, ptpage d T p -> p ∉ free
}.

Lemma vafter_trans s1 s2 s3 : vafter s1 s2 -> vafter s2 s3 -> vafter s1 s3.
Proof. intros [] []. constructor; [by eapply kmem_after_trans|congruence..]. Qed.

Lemma vafter_ready s s' : vafter s s' -> kmem_ready (v_km s').
Proof. intros [(_ & _ & H) _ _]. done. Qed.

Lemma vafter_refl s : kmem_ready (v_km s) -> vafter s s.
Proof. by constructor. Qed.

Lemma vafter_mem s m : kmem_ready (v_km s) -> vafter s (set_vmem m s).
Proof. by constructor. Qed.

(** ** kalloc and kfree *)

Lemma km_kalloc s free :
  kmem_ok (v_km s) free -> kmem_ready (v_km s) ->
  exists s', km kalloc s = Ret (hd 0 free) s' /\ kmem_ok (v_km s') (tl free) /\ vafter s s' /\ vmem s' = vmem s.
Proof.
  intros Hk Hr. destruct (kalloc_ok _ _ Hk Hr) as (k' & Hrun & Hok & Haft & Hram).
  exists (set_v_km k' s). unfold km, zoom. rewrite Hrun. by repeat split; try apply Haft; try apply Hok.
Qed.

Lemma km_kfree s free p :
  kmem_ok (v_km s) free -> kmem_ready (v_km s) -> page_ok p -> p ∉ free ->
  exists s', km (kfree p) s = Ret tt s' /\ kmem_ok (v_km s') (p :: free) /\ vafter s s' /\
    forall x, pb x <> p -> vmem s' x = vmem s x.
Proof.
  intros Hk Hr Hp Hn. destruct (kfree_ok _ _ _ Hk Hr Hp Hn) as (k' & Hrun & Hok & Haft & Hram & _).
  exists (set_v_km k' s). unfold km, zoom. rewrite Hrun. split; [done|]. split; [done|]. split; [by split|].
  intros x Hx. apply Hram. destruct (decide (x < p \/ p + PGSIZE <= x)); [done|]. destruct Hx. apply pb_page; [apply Hp|unfold PGSIZE in *; lia].
Qed.

Lemma free_page s free p l : kmem_ok (v_km s) free -> free = p :: l -> page_ok p /\ p ∉ l /\ p <> 0.
Proof.
  intros [_ Hp Hn] ->. apply Forall_cons in Hp as [Hp _]. apply NoDup_cons in Hn as [Hn _].
  split_and!; try done. apply page_range in Hp. lia.
Qed.

(** Memory outside the free pages may be written. *)
Lemma kmem_set s free m :
  kmem_ok (v_km s) free -> (forall x, pb x ∈ free -> m x = vmem s x) -> kmem_ok (v_km (set_vmem m s)) free.
Proof. intros Hk Hm. by apply kmem_frame. Qed.

(** ** Entries *)

Lemma pte_range n : 0 <= n < 1048576 -> 0 <= n / 1024 < 1024 /\ 0 <= n mod 1024 < 1024.
Proof.
  intros Hn. split; [|apply Z.mod_pos_bound; lia]. split; [apply Z.div_pos; lia|]. apply Z.div_lt_upper_bound; lia.
Qed.

Lemma pte_put s free d T n t v :
  vinv s free d T -> 0 <= n < 1048576 -> T !! (n / 1024) = Some t -> 0 <= v < 4294967296 ->
  let m := store32 (vmem s) (t + 4 * (n mod 1024)) v in
  vinv (set_vmem m s) free d T /\ vafter s (set_vmem m s) /\
  (forall n', 0 <= n' < 1048576 -> pte m T n' = if decide (n' = n) then v else pte (vmem s) T n') /\
  (forall x, pb x <> t -> m x = vmem s x).
Proof.
  intros [Hk Hr [Hd Ht Hs Hn0 Hi] Ho] Hn Et Hv m. pose proof (pte_range n Hn) as [Hn1 Hn2].
  destruct (Ht _ _ Et) as (_ & Htp & Htd). pose proof (page_range _ Htp) as [Hta _]. pose proof (page_range _ Hd) as [Hda _].
  assert (forall x, pb x <> t -> m x = vmem s x) as Hm.
  { intros x Hx. apply store32_ne. destruct (decide (t + 4 * (n mod 1024) <= x < t + 4 * (n mod 1024) + 4)) as [H|]; [|lia].
    destruct Hx. by eapply word_pb. }
  split_and!; [|by apply vafter_mem| |done].
  - constructor; [|done| |done].
    { apply kmem_set; [done|]. intros x Hx. apply Hm. intros E. rewrite E in Hx. apply (Ho t); [|done]. right. eauto. }
    constructor; try done.
    + intros i t' Hit. change (vmem (set_vmem m s)) with m. unfold m. rewrite load32_store32_ne; [by apply Hs|done|done| |done|congruence].
      apply (Ht i t' Hit).
    + intros i Hir Hit. change (vmem (set_vmem m s)) with m. unfold m. rewrite load32_store32_ne; [by apply Hn0|done|done|done|done|congruence].
  - intros n' Hn'. pose proof (pte_range n' Hn') as [Hm1 Hm2]. unfold pte, m. case_decide as E.
    { subst n'. rewrite Et. by apply load32_store32. }
    destruct (T !! (n' / 1024)) as [t'|] eqn:Et'; [|done].
    destruct (Ht _ _ Et') as (_ & Htp' & _). pose proof (page_range _ Htp') as [Hta' _].
    apply load32_store32_ne; try done. intros [= -> E2]. apply E. rewrite (Z.div_mod n' 1024), (Z.div_mod n 1024) by lia.
    rewrite (Hi _ _ _ Et' Et). lia.
Qed.

(** * walkpgdir *)

(** New page tables have been made of free pages, and memory outside the page
    tables is as it was. *)
Record grows (d : Z) (s : vst) (free : list Z) (T : gmap Z Z) (s' : vst) (free' : list Z) (T' : gmap Z Z) : Prop := {
  gr_tabs : T ⊆ T';
  gr_free : exists used, free = used ++ free' /\ forall p, p ∈ used <-> exists i, T' !! i = Some p /\ T !! i = None;
  gr_mem : forall x, ~ ptpage d T' (pb x) -> vmem s' x = vmem s x;
  gr_after : vafter s s'
}.

Lemma grows_refl d s free T s' :
  vafter s s' -> (forall x, ~ ptpage d T (pb x) -> vmem s' x = vmem s x) -> grows d s free T s' free T.
Proof.
  intros Ha Hm. constructor; try done. exists []. split; [done|]. intros p. split; [set_solver|]. intros (i & H1 & H2). congruence.
Qed.

Lemma ptpage_mono d T T' p : T ⊆ T' -> ptpage d T p -> ptpage d T' p.
Proof. intros Hs [->|[i Hi]]; [by left|right]. exists i. by eapply lookup_weaken. Qed.

(** New tables, one after the other. *)
Lemma new_tables (T1 T2 T3 : gmap Z Z) u1 u2 :
  T1 ⊆ T2 -> T2 ⊆ T3 -> (forall p, p ∈ u1 <-> exists i, T2 !! i = Some p /\ T1 !! i = None) ->
  (forall p, p ∈ u2 <-> exists i, T3 !! i = Some p /\ T2 !! i = None) ->
  forall p, p ∈ u1 ++ u2 <-> exists i : Z, T3 !! i = Some p /\ T1 !! i = None.
Proof.
  intros H1 H2 Hu1 Hu2 p. rewrite elem_of_app, Hu1, Hu2. split.
  - intros [(i & E1 & E2)|(i & E1 & E2)]; exists i; split; try done; [by eapply lookup_weaken|by eapply lookup_weaken_None].
  - intros (i & E1 & E2). destruct (T2 !! i) as [q|] eqn:E; [left|right; eauto].
    exists i. split; [|done]. pose proof (lookup_weaken _ _ _ _ E H2). congruence.
Qed.

Lemma grows_trans d s1 f1 T1 s2 f2 T2 s3 f3 T3 :
  grows d s1 f1 T1 s2 f2 T2 -> grows d s2 f2 T2 s3 f3 T3 -> grows d s1 f1 T1 s3 f3 T3.
Proof.
  intros [Ht1 (u1 & -> & Hu1) Hm1 Ha1] [Ht2 (u2 & -> & Hu2) Hm2 Ha2]. constructor.
  - by etrans.
  - exists (u1 ++ u2). split; [by rewrite app_assoc|]. by apply (new_tables T1 T2 T3).
  - intros x Hx. rewrite Hm2, Hm1; [done| |done]. contradict Hx. by eapply ptpage_mono.
  - by eapply vafter_trans.
Qed.

Lemma pte_new m m' T i t n :
  T !! i = None -> (forall x, pb x = t -> m' x = 0) -> t mod 4096 = 0 -> 0 <= n < 1048576 ->
  (forall j u, T !! j = Some u -> u mod 4096 = 0 /\ forall x, pb x = u -> m' x = m x) ->
  pte m' (<[i := t]> T) n = pte m T n.
Proof.
  intros Hi Ht Hal Hn Hold. pose proof (pte_range n Hn) as [_ Hn2]. unfold pte. destruct (decide (n / 1024 = i)) as [->|Hne].
  - rewrite lookup_insert_eq, Hi. unfold load32. rewrite !Ht; [done|..]; apply (word_pb t (n mod 1024)); lia || done.
  - rewrite lookup_insert_ne by done. destruct (T !! (n / 1024)) as [u|] eqn:E; [|done].
    destruct (Hold _ _ E) as [Hu Hm]. by apply load32_page.
Qed.

(** The entry for a page directory that points to the table. *)
Lemma pde_value t : page_ok t -> Z.lor (Z.lor (Z.lor (V2P t) PTE_P) PTE_W) PTE_U = V2P t + 7.
Proof.
  intros Ht. pose proof (V2P_al t Ht) as [Hal _]. rewrite <- !Z.lor_assoc.
  change (Z.lor PTE_P (Z.lor PTE_W PTE_U)) with 7. by apply lor_add.
Qed.

Lemma walk_present s free d T va t alloc :
  vinv s free d T -> 0 <= va < 4294967296 -> T !! (va / 4096 / 1024) = Some t ->
  walkpgdir d va alloc s = Ret (t + 4 * ((va / 4096) mod 1024)) s.
Proof.
  intros [_ _ [_ Ht Hs _ _] _] Hva Et. destruct (Ht _ _ Et) as (_ & Htp & _). unfold walkpgdir, load. rewrite gets_bind.
  rewrite PDX_eq, PTX_eq by done. rewrite (Hs _ _ Et). pose proof (V2P_al t Htp) as [Hal Hr].
  rewrite has_add by (done || unfold PTE_P; lia). simpl. by rewrite PTE_ADDR_add, P2V_V2P by (done || lia).
Qed.

Lemma walk_absent s free d T va :
  vinv s free d T -> 0 <= va < 4294967296 -> T !! (va / 4096 / 1024) = None ->
  walkpgdir d va false s = Ret 0 s.
Proof.
  intros [_ _ [_ _ _ Hn _] _] Hva Et. unfold walkpgdir, load. rewrite gets_bind, PDX_eq by done.
  rewrite Hn; [done| |done]. assert (0 <= va / 4096 < 1048576) as H%pte_range; [|apply H].
  split; [apply Z.div_pos; lia|apply Z.div_lt_upper_bound; lia].
Qed.

Lemma vpn_range va : 0 <= va < 4294967296 -> 0 <= va / 4096 < 1048576.
Proof. intros H. split; [apply Z.div_pos; lia|apply Z.div_lt_upper_bound; lia]. Qed.

(** One more table. *)
Lemma pgdir_extend m m' d T i t :
  pgdir_ok m d T -> T !! i = None -> 0 <= i < 1024 -> page_ok t -> ~ ptpage d T t ->
  load32 m' (d + 4 * i) = V2P t + 7 ->
  (forall j, 0 <= j < 1024 -> j <> i -> load32 m' (d + 4 * j) = load32 m (d + 4 * j)) ->
  pgdir_ok m' d (<[i := t]> T).
Proof.
  intros [Hd Ht Hs Hn Hi] Hnone Hir Htp Hnew Hval Hdir.
  assert (forall j, T !! j <> Some t) as Htnew by (intros j Hj; apply Hnew; right; eauto).
  assert (t <> d) as Htd by (intros ->; apply Hnew; by left).
  constructor; [done|..].
  - intros j u [[<- <-]|[Hji Hj]]%lookup_insert_Some; [done|]. by apply Ht in Hj.
  - intros j u [[<- <-]|[Hji Hj]]%lookup_insert_Some; [done|]. rewrite Hdir; [by apply Hs| |done]. apply (Ht _ _ Hj).
  - intros j Hj [Hjn Hji]%lookup_insert_None. rewrite Hdir by done. by apply Hn.
  - intros j j' u [[<- <-]|[Hji Hj]]%lookup_insert_Some [[<- Hu]|[Hji' Hj']]%lookup_insert_Some; try done.
    + by destruct (Htnew j').
    + subst u. by destruct (Htnew j).
    + by eapply Hi.
Qed.

(** The memory after a page table has been made of page [t]. *)
Lemma new_table_mem m d i t :
  d mod 4096 = 0 -> page_ok t -> t <> d -> 0 <= i < 1024 ->
  let m' := store32 (memset m t 0 PGSIZE) (d + 4 * i) (V2P t + 7) in
  load32 m' (d + 4 * i) = V2P t + 7 /\
  (forall j, 0 <= j < 1024 -> j <> i -> load32 m' (d + 4 * j) = load32 m (d + 4 * j)) /\
  (forall x, pb x = t -> m' x = 0) /\ (forall x, pb x <> t -> pb x <> d -> m' x = m x).
Proof.
  intros Hd Htp Htd Hi m'. pose proof (page_range _ Htp) as [Hta _].
  assert (forall x, memset m t 0 PGSIZE x = if decide (pb x = t) then 0 else m x) as Hm by (intros x; by rewrite memset_pb).
  assert (forall x, pb x <> d -> m' x = memset m t 0 PGSIZE x) as Hmd.
  { intros x Hx. apply store32_ne. destruct (decide (d + 4 * i <= x < d + 4 * i + 4)) as [H|]; [|lia]. destruct Hx. by eapply word_pb. }
  split_and!.
  - apply load32_store32. rewrite V2P_eq by done. apply page_range in Htp. lia.
  - intros j Hj Hji. unfold m'. rewrite load32_store32_ne by (done || congruence). apply load32_page; [done|done|].
    intros x Hx. by rewrite Hm, decide_False by congruence.
  - intros x Hx. rewrite Hmd by congruence. by rewrite Hm, decide_True.
  - intros x Hx1 Hx2. rewrite Hmd by done. by rewrite Hm, decide_False.
Qed.

Lemma walk_new s t free d T va :
  vinv s (t :: free) d T -> 0 <= va < 4294967296 -> T !! (va / 4096 / 1024) = None ->
  let T' := <[va / 4096 / 1024 := t]> T in
  exists s', walkpgdir d va true s = Ret (t + 4 * ((va / 4096) mod 1024)) s' /\
    vinv s' free d T' /\ grows d s (t :: free) T s' free T' /\
    (forall n, 0 <= n < 1048576 -> pte (vmem s') T' n = pte (vmem s) T n).
Proof.
  intros [Hk Hr Hpd Ho] Hva Et T'. subst T'. set (i := va / 4096 / 1024) in *.
  pose proof (pte_range _ (vpn_range va Hva)) as [Hir _]. fold i in Hir.
  destruct (free_page s _ t free Hk eq_refl) as (Htp & Htn & Ht0).
  pose proof (page_range _ Htp) as [Hta _]. pose proof (pd_page _ _ _ Hpd) as Hd. pose proof (page_range _ Hd) as [Hda _].
  destruct (km_kalloc s _ Hk Hr) as (s1 & Hrun & Hk1 & Ha1 & Hm1). simpl in Hrun, Hk1.
  assert (~ ptpage d T t) as Hpt. { intros Hp. apply (Ho t Hp). by left. }
  assert (t <> d) as Htd. { intros ->. apply Hpt. by left. }
  destruct (new_table_mem (vmem s) d i t Hda Htp Htd Hir) as (Hval & Hdir & Hz & Hrest).
  set (m := store32 (memset (vmem s) t 0 PGSIZE) (d + 4 * i) (V2P t + 7)) in *.
  exists (set_vmem m s1). split_and!.
  - unfold walkpgdir, load. rewrite gets_bind, PDX_eq, PTX_eq by done. fold i. rewrite (pd_none _ _ _ Hpd) by done. cbn [negb].
    rewrite (bind_Ret _ _ _ _ _ Hrun). destruct (Z.eqb_spec t 0); [done|]. unfold fill, put. rewrite !modify_bind.
    rewrite pde_value by done. change (vmem (set_vmem ?a s1)) with a. by rewrite Hm1.
  - constructor; [|exact (vafter_ready s s1 Ha1)| |].
    + apply kmem_set; [done|]. intros x Hx. rewrite Hm1. apply Hrest; [congruence|].
      intros E. rewrite E in Hx. apply (Ho d); [by left|by right].
    + by apply (pgdir_extend (vmem s)).
    + intros p [->|[j Hj]] Hin; [apply (Ho d); [by left|by right]|].
      apply lookup_insert_Some in Hj as [[<- <-]|[Hji Hj]]; [done|]. apply (Ho p); [right; eauto|by right].
  - constructor.
    + by apply insert_subseteq.
    + exists [t]. split; [done|]. intros p. rewrite list_elem_of_singleton. split.
      * intros ->. exists i. by rewrite lookup_insert_eq.
      * intros (j & [[<- <-]|[Hji Hj]]%lookup_insert_Some & Hjn); [done|congruence].
    + intros x Hx. apply Hrest; intros E; apply Hx; [right|by left]. exists i. by rewrite E, lookup_insert_eq.
    + eapply vafter_trans; [exact Ha1|]. apply vafter_mem. exact (vafter_ready s s1 Ha1).
  - intros n Hnr. apply pte_new; try done. intros j u Hj. destruct (pd_tab _ _ _ Hpd _ _ Hj) as (_ & [Hu _] & Hud).
    split; [done|]. intros x Hx. apply Hrest; [|congruence]. intros E. apply Hpt. right. exists j. congruence.
Qed.

(** The page tables [T'] has and [T] has not are between two indexes. *)
Definition new_in (T T' : gmap Z Z) (a b : Z) : Prop := forall i, is_Some (T' !! i) -> is_Some (T !! i) \/ a <= i <= b.

Lemma new_in_refl T a b : new_in T T a b.
Proof. by left. Qed.

Lemma new_in_trans T1 T2 T3 a b c d e f :
  new_in T1 T2 a b -> new_in T2 T3 c d -> e <= a -> b <= f -> e <= c -> d <= f -> new_in T1 T3 e f.
Proof. intros H1 H2 ???? i [[?|?]%H1|?]%H2; [by left|right; lia..]. Qed.

Lemma walk_alloc s free d T va :
  vinv s free d T -> 0 <= va < 4294967296 ->
  exists r s' free' T', walkpgdir d va true s = Ret r s' /\ vinv s' free' d T' /\ grows d s free T s' free' T' /\
    (forall n, 0 <= n < 1048576 -> pte (vmem s') T' n = pte (vmem s) T n) /\ (length free <= S (length free'))%nat /\
    new_in T T' (va / 4096 / 1024) (va / 4096 / 1024) /\
    ((r = 0 /\ free' = []) \/
     exists t, T' !! (va / 4096 / 1024) = Some t /\ r = t + 4 * ((va / 4096) mod 1024)).
Proof.
  intros Hv Hva. destruct (T !! (va / 4096 / 1024)) as [t|] eqn:Et.
  - exists (t + 4 * ((va / 4096) mod 1024)), s, free, T. split_and!; try done.
    + by eapply walk_present.
    + apply grows_refl; [apply vafter_refl, Hv|done].
    + lia.
    + apply new_in_refl.
    + right. eauto.
  - destruct free as [|t free].
    + destruct (km_kalloc s [] (vi_km _ _ _ _ Hv) (vi_ready _ _ _ _ Hv)) as (s1 & Hrun & Hk1 & Ha1 & Hm1). simpl in *.
      exists 0, s1, [], T. destruct Hv as [Hk Hr Hpd Ho].
      assert (0 <= va / 4096 / 1024 < 1024) as Hi by (apply pte_range, vpn_range; done).
      split_and!; [|constructor; [done|by eapply vafter_ready|by rewrite Hm1|done]| | |simpl; lia|apply new_in_refl|by left].
      * unfold walkpgdir, load. rewrite gets_bind, PDX_eq by done. rewrite (pd_none _ _ _ Hpd) by done. cbn [negb].
        by rewrite (bind_Ret _ _ _ _ _ Hrun).
      * apply grows_refl; [done|]. by rewrite Hm1.
      * by rewrite Hm1.
    + destruct (walk_new s t free d T va Hv Hva Et) as (s' & Hrun & Hv' & Hg & Hp).
      exists (t + 4 * ((va / 4096) mod 1024)), s', free, (<[va / 4096 / 1024 := t]> T). split_and!; try done.
      * intros i [u [[<- _]|[_ Hi]]%lookup_insert_Some]; [right; lia|left; eauto].
      * right. exists t. by rewrite lookup_insert_eq.
Qed.

(** * mappages *)

(** What mappages writes for page number [j] of a range from page [k] on. *)
Definition mapped_to (pa perm k j : Z) : Z := pa + 4096 * (j - k) + Z.lor perm PTE_P.

Lemma perm_range perm : 0 <= perm < 4096 -> 0 <= Z.lor perm PTE_P < 4096.
Proof.
  intros H. split; [apply Z.lor_nonneg; split; [lia|done]|].
  destruct (decide (Z.lor perm PTE_P = 0)) as [->|Hne]; [lia|].
  assert (0 <= Z.lor perm PTE_P) by (apply Z.lor_nonneg; split; [lia|done]).
  change 4096 with (2 ^ 12). apply Z.log2_lt_pow2; [lia|]. rewrite Z.log2_lor by (done || lia).
  apply Z.max_lub_lt; [|done]. destruct (decide (perm = 0)) as [->|]; [done|]. apply Z.log2_lt_pow2; lia.
Qed.

Lemma entry_value pa perm :
  pa mod 4096 = 0 -> 0 <= perm < 4096 -> Z.lor (Z.lor pa perm) PTE_P = pa + Z.lor perm PTE_P.
Proof. intros Hpa Hp. rewrite <- Z.lor_assoc. apply lor_add; [done|]. by apply perm_range. Qed.

Lemma table_addr_nz t j : page_ok t -> 0 <= j -> t + 4 * j <> 0.
Proof. intros Ht%page_range Hj. lia. Qed.

(** One page of the loop: no memory for a table, or the entry is written and
    the loop ends or goes on. *)
Lemma map_step perm d s free T k last pa fuel :
  0 <= perm < 4096 -> vinv s free d T -> 0 <= k < 1048576 -> pa mod 4096 = 0 -> 0 <= pa < 4294967296 ->
  has (pte (vmem s) T k) PTE_P = false ->
  exists s' free' T', vinv s' free' d T' /\ grows d s free T s' free' T' /\ (length free <= S (length free'))%nat /\
    new_in T T' (k / 1024) (k / 1024) /\
    ((free' = [] /\ mappages_loop (S fuel) d (4096 * k) last pa perm s = Ret (-1) s' /\
      forall j, 0 <= j < 1048576 -> pte (vmem s') T' j = pte (vmem s) T j) \/
     (mappages_loop (S fuel) d (4096 * k) last pa perm s =
        (if 4096 * k =? last then ret 0
         else mappages_loop fuel d (u32 (4096 * k + PGSIZE)) last (u32 (pa + PGSIZE)) perm) s' /\
      forall j, 0 <= j < 1048576 -> pte (vmem s') T' j = if decide (j = k) then mapped_to pa perm k j else pte (vmem s) T j)).
Proof.
  intros Hperm Hv Hk Hpa Hpar Hfree.
  destruct (walk_alloc s free d T (4096 * k) Hv ltac:(lia)) as (r & s1 & free1 & T1 & Hrun & Hv1 & Hg1 & Hp1 & Hl1 & Hn1 & Hr).
  assert (4096 * k / 4096 = k) as Ek by (rewrite Z.mul_comm; by apply Z.div_mul). rewrite Ek in *.
  cbn [mappages_loop]. rewrite (bind_Ret _ _ _ _ _ Hrun). destruct Hr as [[-> ->]|(t & Et & ->)].
  { exists s1, [], T1. split_and!; [done..|]. by left. }
  destruct (pd_tab _ _ _ (vi_pd _ _ _ _ Hv1) _ _ Et) as (_ & Htp & _).
  pose proof (Z.mod_pos_bound k 1024 ltac:(lia)) as Hmod.
  destruct (Z.eqb_spec (t + 4 * (k mod 1024)) 0) as [E|_]; [by apply table_addr_nz in E; [..|lia]|].
  unfold load. rewrite gets_bind.
  assert (load32 (vmem s1) (t + 4 * (k mod 1024)) = pte (vmem s) T k) as -> by (rewrite <- Hp1 by lia; unfold pte; by rewrite Et).
  rewrite Hfree. unfold put. rewrite modify_bind, entry_value by done.
  destruct (pte_put s1 free1 d T1 k t (pa + Z.lor perm PTE_P) Hv1 Hk Et) as (Hv2 & Ha2 & Hp2 & Hm2).
  { pose proof (perm_range perm Hperm). pose proof (Z.div_mod pa 4096). pose proof (Z.div_lt_upper_bound pa 4096 1048576). lia. }
  set (m := store32 _ _ _) in *. exists (set_vmem m s1), free1, T1. split_and!; [done| |done|done|].
  - eapply grows_trans; [exact Hg1|]. apply grows_refl; [done|]. intros x Hx. apply Hm2. intros E. apply Hx. right. exists (k / 1024). by rewrite E.
  - right. split; [done|]. intros j Hj. change (vmem (set_vmem m s1)) with m. rewrite Hp2 by done.
    case_decide; [|by apply Hp1]. unfold mapped_to. subst. lia.
Qed.

Lemma new_in_to T T' k d e : new_in T T' (k / 1024) (d / 1024) -> d <= e -> new_in T T' (k / 1024) (e / 1024).
Proof. intros H He i Hi. apply H in Hi as [?|?]; [by left|right]. pose proof (Z.div_le_mono d e 1024). lia. Qed.

Lemma mappages_loop_ok perm d n : 0 <= perm < 4096 -> forall s free T k pa,
  vinv s free d T -> 0 <= k -> k + Z.of_nat n < 1048576 ->
  pa mod 4096 = 0 -> 0 <= pa -> pa + 4096 * Z.of_nat n < 4294967296 ->
  (forall j, k <= j <= k + Z.of_nat n -> has (pte (vmem s) T j) PTE_P = false) ->
  exists r s' free' T' c,
    mappages_loop (S n) d (4096 * k) (4096 * (k + Z.of_nat n)) pa perm s = Ret r s' /\
    vinv s' free' d T' /\ grows d s free T s' free' T' /\ (length free <= length free' + S n)%nat /\
    new_in T T' (k / 1024) ((k + Z.of_nat n) / 1024) /\
    (forall j, 0 <= j < 1048576 ->
       pte (vmem s') T' j = if decide (k <= j < k + c) then mapped_to pa perm k j else pte (vmem s) T j) /\
    ((r = 0 /\ c = Z.of_nat n + 1) \/ (r = -1 /\ 0 <= c <= Z.of_nat n /\ free' = [])).
Proof.
  intros Hperm. induction n as [|n IH]; intros s free T k pa Hv Hk Hkn Hpa Hpa0 Hpan Hfree.
  - destruct (map_step perm d s free T k (4096 * (k + Z.of_nat 0)) pa 0 Hperm Hv ltac:(lia) Hpa ltac:(lia) (Hfree k ltac:(lia)))
      as (s1 & free1 & T1 & Hv1 & Hg1 & Hl1 & Hn1 & [(-> & Hrun & Hp)|(Hrun & Hp)]); rewrite Hrun.
    all: pose proof (new_in_to _ _ _ _ (k + Z.of_nat 0) Hn1 ltac:(lia)) as Hn2.
    + exists (-1), s1, [], T1, 0. split_and!; try done; try (cbn [length] in Hl1 |- *; lia); [|right; split_and!; done || lia].
      intros j Hj. rewrite decide_False by lia. by apply Hp.
    + destruct (Z.eqb_spec (4096 * k) (4096 * (k + Z.of_nat 0))); [|lia].
      exists 0, s1, free1, T1, 1. split_and!; try done; try lia.
      intros j Hj. rewrite Hp by done. repeat case_decide; done || lia.
  - destruct (map_step perm d s free T k (4096 * (k + Z.of_nat (S n))) pa (S n) Hperm Hv ltac:(lia) Hpa ltac:(lia) (Hfree k ltac:(lia)))
      as (s1 & free1 & T1 & Hv1 & Hg1 & Hl1 & Hn1 & [(-> & Hrun & Hp)|(Hrun & Hp)]); rewrite Hrun.
    all: pose proof (new_in_to _ _ _ _ (k + Z.of_nat (S n)) Hn1 ltac:(lia)) as Hn2.
    + exists (-1), s1, [], T1, 0. split_and!; try done; try (cbn [length] in Hl1 |- *; lia); [|right; split_and!; done || lia].
      intros j Hj. rewrite decide_False by lia. by apply Hp.
    + destruct (Z.eqb_spec (4096 * k) (4096 * (k + Z.of_nat (S n)))); [lia|]. unfold PGSIZE. rewrite !u32_small by lia.
      destruct (IH s1 free1 T1 (k + 1) (pa + 4096)) as (r & s' & free' & T' & c & Hrun' & Hv' & Hg' & Hl' & Hn' & Hp' & Hr'); try done || lia.
      { rewrite Z.add_mod, Hpa by lia. done. }
      { intros j Hj. rewrite Hp, decide_False by lia. apply Hfree. lia. }
      exists r, s', free', T', (c + 1). split_and!; [|done|by eapply grows_trans|lia| | |].
      * rewrite <- Hrun'. do 2 f_equal; lia.
      * replace (k + 1 + Z.of_nat n) with (k + Z.of_nat (S n)) in Hn' by lia.
        pose proof (Z.div_le_mono k (k + 1) 1024). eapply new_in_trans; [exact Hn2|exact Hn'|lia..].
      * intros j Hj. rewrite Hp' by done. rewrite Hp by done. unfold mapped_to. destruct Hr' as [[-> ->]|(-> & ? & ->)]; repeat case_decide; done || lia.
      * destruct Hr' as [[-> ->]|(-> & ? & ->)]; [left|right]; split_and!; lia || done.
Qed.

(** mappages of [c] whole pages from page [k] on, [pa] aligned. *)
Lemma mappages_ok perm d s free T va size pa :
  let k := va / 4096 in let n := (va + size - 1) / 4096 - k + 1 in
  0 <= perm < 4096 -> vinv s free d T -> 0 <= va -> 0 < size -> va + size <= 4294967296 ->
  pa mod 4096 = 0 -> 0 <= pa -> pa + 4096 * n <= 4294967296 ->
  (forall j, k <= j < k + n -> has (pte (vmem s) T j) PTE_P = false) ->
  exists r s' free' T' c, mappages d va size pa perm s = Ret r s' /\ vinv s' free' d T' /\ grows d s free T s' free' T' /\
    Z.of_nat (length free) <= Z.of_nat (length free') + n /\ new_in T T' (k / 1024) ((k + n - 1) / 1024) /\
    (forall j, 0 <= j < 1048576 ->
       pte (vmem s') T' j = if decide (k <= j < k + c) then mapped_to pa perm k j else pte (vmem s) T j) /\
    ((r = 0 /\ c = n) \/ (r = -1 /\ 0 <= c < n /\ free' = [])).
Proof.
  intros k n Hperm Hv Hva Hsz Hend Hpa Hpa0 Hpan Hfree.
  assert (0 <= k /\ k <= (va + size - 1) / 4096 /\ (va + size - 1) / 4096 < 1048576) as (Hk & Hkl & Hl).
  { split_and!; [apply Z.div_pos; lia|apply Z.div_le_mono; lia|apply Z.div_lt_upper_bound; lia]. }
  destruct (mappages_loop_ok perm d (Z.to_nat (n - 1)) Hperm s free T k pa) as (r & s' & free' & T' & c & Hrun & Hv' & Hg & Hl' & Hn & Hp & Hr); try done || lia.
  { intros j Hj. apply Hfree. lia. }
  exists r, s', free', T', c. split_and!; try done.
  - rewrite <- Hrun. unfold mappages. rewrite !PGROUNDDOWN_eq. unfold pb. rewrite (u32_small va), (u32_small (va + size - 1)) by lia. fold k.
    rewrite u32_small by lia. unfold PGSIZE. rewrite <- Z.mul_sub_distr_r, Z.div_mul by lia.
    replace ((va + size - 1) / 4096 - k) with (n - 1) by lia. f_equal; lia.
  - lia.
  - by replace (k + n - 1) with (k + Z.of_nat (Z.to_nat (n - 1))) by lia.
  - destruct Hr as [[-> ->]|(-> & ? & ->)]; [left|right]; split_and!; lia || done.
Qed.
