(* ===== verification/VmUser.v ===== *)
(** User address spaces: allocuvm, deallocuvm, freevm.

    [uspace s free d T D] says that the page directory [d] maps exactly the
    user pages [D], each to a page of its own, which is neither free nor part
    of a page table. *)
From S2P Require Import Prelude CString Spinlock ProcState Queue Proc Kalloc Vm VmSpec.

(** Pages below KERNBASE. *)
Definition UPAGES : Z := 524288.

(** The page that page number [n] is mapped to. *)
Definition up (m : mem) (T : gmap Z Z) (n : Z) : Z := P2V (PTE_ADDR (pte m T n)).

Definition mapped (m : mem) (T : gmap Z Z) (n : Z) : Prop := has (pte m T n) PTE_P = true.

Record uspace (s : vst) (free : list Z) (d : Z) (T : gmap Z Z) (D : Z -> Prop) : Prop := {
  us_vinv : vinv s free d T;
  us_map : forall n, 0 <= n < UPAGES -> mapped (vmem s) T n <-> D n;
  us_page : forall n, 0 <= n < UPAGES -> D n -> exists p fl,
    pte (vmem s) T n = V2P p + fl /\ 0 <= fl < 4096 /\ page_ok p /\ ~ ptpage d T p /\ p ∉ free;
  us_inj : forall n n', 0 <= n < UPAGES -> 0 <= n' < UPAGES -> D n -> D n' -> up (vmem s) T n = up (vmem s) T n' -> n = n'
}.

Lemma us_up s free d T D n :
  uspace s free d T D -> 0 <= n < UPAGES -> D n ->
  let p := up (vmem s) T n in page_ok p /\ ~ ptpage d T p /\ p ∉ free /\
  exists fl, pte (vmem s) T n = V2P p + fl /\ 0 <= fl < 4096.
Proof.
  intros Hu Hn HD. destruct (us_page _ _ _ _ _ Hu n Hn HD) as (p & fl & E & Hfl & Hp & Hpt & Hpf).
  assert (up (vmem s) T n = p) as ->; [|eauto 10].
  unfold up. rewrite E. pose proof (V2P_al p Hp) as [? ?]. by rewrite PTE_ADDR_add, P2V_V2P.
Qed.

(** The pages [D] and their contents are as they were. *)
Definition ukeeps (s : vst) (T : gmap Z Z) (s' : vst) (T' : gmap Z Z) (D : Z -> Prop) : Prop :=
  forall n, 0 <= n < UPAGES -> D n ->
  pte (vmem s') T' n = pte (vmem s) T n /\ forall x, pb x = up (vmem s) T n -> vmem s' x = vmem s x.

Lemma ukeeps_up s T s' T' D n : ukeeps s T s' T' D -> 0 <= n < UPAGES -> D n -> up (vmem s') T' n = up (vmem s) T n.
Proof. intros Hk Hn HD. unfold up. by destruct (Hk n Hn HD) as [-> _]. Qed.

Lemma ukeeps_refl s T D : ukeeps s T s T D.
Proof. done. Qed.

Lemma ukeeps_trans s1 T1 s2 T2 s3 T3 D : ukeeps s1 T1 s2 T2 D -> ukeeps s2 T2 s3 T3 D -> ukeeps s1 T1 s3 T3 D.
Proof.
  intros H1 H2 n Hn HD. destruct (H1 n Hn HD) as [E1 M1], (H2 n Hn HD) as [E2 M2]. split; [congruence|].
  intros x Hx. rewrite M2, M1; [done|done|]. by rewrite (ukeeps_up _ _ _ _ _ _ H1).
Qed.

Lemma ukeeps_weaken s T s' T' (D D' : Z -> Prop) : (forall n, D' n -> D n) -> ukeeps s T s' T' D -> ukeeps s T s' T' D'.
Proof. intros HD Hk n Hn Hn'. apply Hk; auto. Qed.

(** The byte at a user address. *)
Definition ubyte (s : vst) (T : gmap Z Z) (va : Z) : Z := vmem s (up (vmem s) T (va / 4096) + va mod 4096).

Lemma ukeeps_byte s free d T s' T' D va :
  uspace s free d T D -> ukeeps s T s' T' D -> 0 <= va < 0x80000000 -> D (va / 4096) -> ubyte s' T' va = ubyte s T va.
Proof.
  intros Hu Hk Hva HD. assert (0 <= va / 4096 < UPAGES) as Hn.
  { split; [apply Z.div_pos; lia|apply Z.div_lt_upper_bound; unfold UPAGES; lia]. }
  unfold ubyte. rewrite (ukeeps_up _ _ _ _ _ _ Hk) by done. apply (Hk _ Hn HD).
  destruct (us_up _ _ _ _ _ _ Hu Hn HD) as ([Hp _] & _). apply pb_page; [done|]. pose proof (Z.mod_pos_bound va 4096). lia.
Qed.

(** ** What another memory has to agree on *)

(** Tables may have been added; entries of user pages are as they were. *)
Lemma uspace_move s free d T D s' free' T' :
  uspace s free d T D -> vinv s' free' d T' ->
  (forall n, 0 <= n < UPAGES -> pte (vmem s') T' n = pte (vmem s) T n) ->
  (forall p, ptpage d T' p -> ptpage d T p \/ p ∈ free) -> (forall p, p ∈ free' -> p ∈ free) ->
  (forall x, ~ ptpage d T' (pb x) -> pb x ∉ free -> vmem s' x = vmem s x) ->
  uspace s' free' d T' D /\ ukeeps s T s' T' D.
Proof.
  intros Hu Hv Hp Ht Hf Hm. assert (ukeeps s T s' T' D) as Hk.
  { intros n Hn HD. split; [by apply Hp|]. intros x Hx. destruct (us_up _ _ _ _ _ _ Hu Hn HD) as (_ & Hpt & Hpf & _).
    rewrite <- Hx in Hpt, Hpf. apply Hm; [|done]. intros [H|H]%Ht; contradiction. }
  split; [|done]. constructor; [done|..].
  - intros n Hn. unfold mapped. rewrite Hp by done. by apply Hu.
  - intros n Hn HD. rewrite Hp by done. destruct (us_page _ _ _ _ _ Hu n Hn HD) as (p & fl & E & Hfl & Hpo & Hpt & Hpf).
    exists p, fl. split_and!; try done || lia; [|by contradict Hpf; apply Hf]. intros [H|H]%Ht; contradiction.
  - intros n n' Hn Hn' HD HD'. rewrite !(ukeeps_up _ _ _ _ _ _ Hk) by done. by apply Hu.
Qed.

Lemma vinv_mem s free d T m :
  vinv s free d T -> (forall x, ptpage d T (pb x) -> m x = vmem s x) -> (forall x, pb x ∈ free -> m x = vmem s x) ->
  vinv (set_vmem m s) free d T /\ forall n, 0 <= n < 1048576 -> pte m T n = pte (vmem s) T n.
Proof.
  intros [Hk Hr Hpd Ho] Hm Hf. destruct (pgdir_frame _ m _ _ Hpd Hm) as [Hpd' Hp]. split; [|done].
  constructor; try done. by apply kmem_set.
Qed.

Lemma uspace_mem s free d T D m :
  uspace s free d T D -> (forall x, ptpage d T (pb x) -> m x = vmem s x) -> (forall x, pb x ∈ free -> m x = vmem s x) ->
  uspace (set_vmem m s) free d T D.
Proof.
  intros Hu Hm Hf. destruct (vinv_mem _ _ _ _ _ (us_vinv _ _ _ _ _ Hu) Hm Hf) as [Hv Hp].
  assert (forall n, 0 <= n < UPAGES -> pte m T n = pte (vmem s) T n) as Hp' by (intros; apply Hp; unfold UPAGES in *; lia).
  constructor; [done|..].
  - intros n Hn. unfold mapped. change (vmem (set_vmem m s)) with m. rewrite Hp' by done. by apply Hu.
  - intros n Hn HD. change (vmem (set_vmem m s)) with m. rewrite Hp' by done. by apply Hu.
  - intros n n' Hn Hn' HD HD'. change (vmem (set_vmem m s)) with m. unfold up. rewrite !Hp' by done. by apply Hu.
Qed.

Lemma uspace_iff s free d T (D D' : Z -> Prop) : (forall n, 0 <= n < UPAGES -> D n <-> D' n) -> uspace s free d T D -> uspace s free d T D'.
Proof.
  intros H [Hv Hm Hp Hi]. constructor; [done|..].
  - intros n Hn. by rewrite <- H, Hm.
  - intros n Hn HD. apply Hp; [done|]. by apply H.
  - intros n n' Hn Hn' HD HD'. apply Hi; try done; by apply H.
Qed.

(** * Adding a page *)

Lemma uspace_say s free d T D msg s' : uspace s free d T D -> say msg s = Ret tt s' -> uspace s' free d T D.
Proof. intros [[] ? ? ?] [= <-]. by constructor; [constructor|..]. Qed.

(** New tables are free pages. *)
Lemma grows_pt d s free T s' free' T' q :
  grows d s free T s' free' T' -> ptpage d T' q -> ptpage d T q \/ q ∈ free.
Proof.
  intros [Hts (used & -> & Hused) _ _] [->|[i Hi]]; [left; by left|].
  destruct (T !! i) as [t|] eqn:Et; [left; right; exists i|right].
  - pose proof (lookup_weaken _ _ _ _ Et Hts). congruence.
  - apply elem_of_app. left. apply Hused. eauto.
Qed.

Lemma grows_free d s free T s' free' T' q : grows d s free T s' free' T' -> q ∈ free' -> q ∈ free.
Proof. intros [_ (used & -> & _) _ _] Hq. apply elem_of_app. by right. Qed.

(** One more entry. *)
Lemma uspace_insert s free d T D s' free' T' p fl c :
  uspace s free d T D -> vinv s' free' d T' -> grows d s free T s' free' T' ->
  (forall n, 0 <= n < UPAGES -> pte (vmem s') T' n = if decide (n = c) then V2P p + fl else pte (vmem s) T n) ->
  0 <= fl < 4096 -> has fl PTE_P = true -> page_ok p -> p ∉ free -> ~ ptpage d T p ->
  (forall n, 0 <= n < UPAGES -> D n -> up (vmem s) T n <> p) -> ~ D c ->
  uspace s' free' d T' (fun n => D n \/ n = c).
Proof.
  intros Hu Hv Hg Hp Hfl HP Hpo Hpf Hpt Hpu HDc. pose proof (V2P_al p Hpo) as [Hpa Hpr].
  assert (forall n, 0 <= n < UPAGES -> n = c -> up (vmem s') T' n = p) as Hupc.
  { intros n Hn ->. unfold up. rewrite Hp by done. by rewrite decide_True, PTE_ADDR_add, P2V_V2P. }
  assert (forall n, 0 <= n < UPAGES -> n <> c -> up (vmem s') T' n = up (vmem s) T n) as Hup.
  { intros n Hn Hne. unfold up. rewrite Hp by done. by rewrite decide_False. }
  assert (forall q, ptpage d T q -> q <> p) as Hqp by (intros q Hq ->; done).
  constructor; [done|..].
  - intros n Hn. unfold mapped. rewrite Hp by done. case_decide as E.
    + rewrite has_add by (done || unfold PTE_P; lia). tauto.
    + pose proof (us_map _ _ _ _ _ Hu n Hn) as H. unfold mapped in H. rewrite H. tauto.
  - intros n Hn HD. rewrite Hp by done. case_decide as E.
    + exists p, fl. split_and!; try done || lia; [by intros [H|H]%(grows_pt _ _ _ _ _ _ _ _ Hg)|].
      contradict Hpf. by eapply grows_free.
    + destruct HD as [HD|]; [|done]. destruct (us_page _ _ _ _ _ Hu n Hn HD) as (q & fl' & Eq & Hfl' & Hq & Hqt & Hqf).
      exists q, fl'. split_and!; try done || lia; [by intros [H|H]%(grows_pt _ _ _ _ _ _ _ _ Hg)|].
      contradict Hqf. by eapply grows_free.
  - intros n n' Hn Hn' HD HD'. destruct (decide (n = c)) as [En|En], (decide (n' = c)) as [En'|En'].
    + congruence.
    + rewrite (Hupc n), (Hup n') by done. intros E. destruct HD' as [HD'|]; [|done]. by destruct (Hpu n' Hn' HD').
    + rewrite (Hupc n'), (Hup n) by done. intros E. destruct HD as [HD|]; [|done]. by destruct (Hpu n Hn HD).
    + rewrite !Hup by done. destruct HD as [HD|], HD' as [HD'|]; try done. by apply Hu.
Qed.

(** A page of its own is mapped at page number [c]. *)
Lemma uspace_add s free d T D p perm c :
  uspace s free d T D -> 0 <= c < UPAGES -> ~ D c -> 0 <= perm < 4096 ->
  page_ok p -> p ∉ free -> ~ ptpage d T p -> (forall n, 0 <= n < UPAGES -> D n -> up (vmem s) T n <> p) ->
  exists r s' free' T', mappages d (4096 * c) PGSIZE (V2P p) perm s = Ret r s' /\ grows d s free T s' free' T' /\
    ukeeps s T s' T' D /\ (forall n, UPAGES <= n < 1048576 -> pte (vmem s') T' n = pte (vmem s) T n) /\
    (length free <= S (length free'))%nat /\
    ((r = 0 /\ uspace s' free' d T' (fun n => D n \/ n = c) /\ pte (vmem s') T' c = V2P p + Z.lor perm PTE_P) \/
     (r = -1 /\ uspace s' free' d T' D /\ free' = [])).
Proof.
  intros Hu Hc HnD Hperm Hp Hpf Hpt Hpu. unfold UPAGES in Hc. pose proof (V2P_al p Hp) as [Hpa Hpr].
  pose proof (us_vinv _ _ _ _ _ Hu) as Hv. assert (4096 * c / 4096 = c) as Ec by (rewrite Z.mul_comm; by apply Z.div_mul).
  assert ((4096 * c + PGSIZE - 1) / 4096 - c + 1 = 1) as En.
  { unfold PGSIZE. replace (4096 * c + 4096 - 1) with (4095 + c * 4096) by lia. rewrite Z.div_add by lia. change (4095 / 4096) with 0. lia. }
  destruct (mappages_ok perm d s free T (4096 * c) PGSIZE (V2P p)) as (r & s' & free' & T' & c' & Hrun & Hv' & Hg & Hl' & _ & Hpte & Hr); rewrite ?Ec, ?En; try done || (unfold PGSIZE; lia).
  { rewrite V2P_eq by done. apply page_range in Hp. lia. }
  { intros j Hj. replace j with c by lia. destruct (has _ _) eqn:E; [|done]. destruct HnD. by apply Hu. }
  rewrite Ec, En in *. exists r, s', free', T'.
  assert (ukeeps s T s' T' D) as Hk.
  { intros n Hn HD. split.
    - rewrite Hpte by (unfold UPAGES in Hn; lia). rewrite decide_False; [done|]. intros ?. apply HnD. by replace c with n by lia.
    - intros x Hx. destruct (us_up _ _ _ _ _ _ Hu Hn HD) as (_ & Hxt & Hxf & _). rewrite <- Hx in Hxt, Hxf.
      apply (gr_mem _ _ _ _ _ _ _ Hg). by intros [H|H]%(grows_pt _ _ _ _ _ _ _ _ Hg). }
  split_and!; try done.
  { intros n Hn. rewrite Hpte by (unfold UPAGES in *; lia). rewrite decide_False; [done|]. unfold UPAGES in *. lia. }
  { lia. }
  destruct Hr as [[-> ->]|(-> & Hc' & ->)]; [left|right]; (split; [done|]).
  - split; [|rewrite Hpte by lia; rewrite decide_True by lia; unfold mapped_to; lia].
    apply (uspace_insert s free d T D s' free' T' p (Z.lor perm PTE_P)); try done; [|by apply perm_range|].
    + intros n Hn. rewrite Hpte by (unfold UPAGES in *; lia). unfold mapped_to. repeat case_decide; done || lia.
    + unfold has. rewrite Z.land_lor_distr_l. destruct (Z.eqb_spec (Z.lor (Z.land perm PTE_P) (Z.land PTE_P PTE_P)) 0) as [E|]; [|done].
      apply Z.lor_eq_0_iff in E as [_ E]. done.
  - split; [|done]. eapply (uspace_move s free); try done.
    + intros n Hn. rewrite Hpte by (unfold UPAGES in *; lia). by rewrite decide_False by lia.
    + intros q. by apply (grows_pt _ _ _ _ _ _ _ _ Hg).
    + intros q. by apply (grows_free _ _ _ _ _ _ _ _ Hg).
    + intros x Hx _. by apply (gr_mem _ _ _ _ _ _ _ Hg).
Qed.

(** * Taking pages away *)

Lemma mapped_table m T n : mapped m T n -> exists t, T !! (n / 1024) = Some t.
Proof. unfold mapped, pte. destruct (T !! (n / 1024)) as [t|]; [eauto|done]. Qed.

(** [kfree(v); *pte = 0;] *)
Lemma uspace_remove s free d T D k t :
  uspace s free d T D -> 0 <= k < UPAGES -> D k -> T !! (k / 1024) = Some t ->
  let p := up (vmem s) T k in
  exists s', (km (kfree p) ;; put (t + 4 * (k mod 1024)) 0) s = Ret tt s' /\
    uspace s' (p :: free) d T (fun n => D n /\ n <> k) /\ ukeeps s T s' T (fun n => D n /\ n <> k) /\ vafter s s' /\
    (forall n, 0 <= n < 1048576 -> n <> k -> pte (vmem s') T n = pte (vmem s) T n) /\
    (forall x, pb x <> p -> ~ ptpage d T (pb x) -> vmem s' x = vmem s x).
Proof.
  intros Hu Hk HD Et p. pose proof Hu as [[Hkm Hr Hpd Ho] Hmap Hpage Hinj].
  destruct (us_up _ _ _ _ _ _ Hu Hk HD) as (Hp & Hpt & Hpf & _). fold p in Hp, Hpt, Hpf.
  destruct (km_kfree s free p Hkm Hr Hp Hpf) as (s1 & Hrun & Hk1 & Ha1 & Hm1).
  assert (vinv s1 (p :: free) d T) as Hv1.
  { constructor; [done|by eapply vafter_ready| |].
    - apply (pgdir_frame (vmem s)); [done|]. intros x Hx. apply Hm1. by intros E; rewrite E in Hx.
    - intros q Hq [->|Hin]%elem_of_cons; [done|]. by apply (Ho q). }
  assert (forall n, 0 <= n < 1048576 -> pte (vmem s1) T n = pte (vmem s) T n) as Hp1.
  { apply (pgdir_frame (vmem s) _ d T Hpd). intros x Hx. apply Hm1. by intros E; rewrite E in Hx. }
  destruct (pte_put s1 (p :: free) d T k t 0 Hv1 ltac:(unfold UPAGES in *; lia) Et ltac:(lia)) as (Hv2 & Ha2 & Hp2 & Hm2).
  set (m := store32 _ _ _) in *. exists (set_vmem m s1). rewrite (bind_Ret _ _ _ _ _ Hrun). split; [done|].
  assert (forall n, 0 <= n < 1048576 -> n <> k -> pte m T n = pte (vmem s) T n) as Hpm.
  { intros n Hn Hne. rewrite Hp2, decide_False by done. by apply Hp1. }
  assert (forall n, 0 <= n < UPAGES -> n <> k -> pte m T n = pte (vmem s) T n) as Hpu.
  { intros n Hn. apply Hpm. unfold UPAGES in *. lia. }
  assert (forall n, 0 <= n < UPAGES -> n <> k -> up m T n = up (vmem s) T n) as Hup by (intros n Hn Hne; unfold up; by rewrite Hpu).
  assert (forall x, pb x <> p -> ~ ptpage d T (pb x) -> m x = vmem s x) as Hmem.
  { intros x Hx1 Hx2. rewrite Hm2; [by apply Hm1|]. intros E. apply Hx2. right. exists (k / 1024). congruence. }
  split_and!; try done; [| |by eapply vafter_trans].
  - constructor; [done|..]; change (vmem (set_vmem m s1)) with m.
    + intros n Hn. unfold mapped. destruct (decide (n = k)) as [->|Hne].
      * rewrite Hp2, decide_True by (unfold UPAGES in *; lia || done). split; [done|tauto].
      * rewrite Hpu by done. specialize (Hmap n Hn). unfold mapped in Hmap. tauto.
    + intros n Hn [HDn Hne]. rewrite Hpu by done. destruct (Hpage n Hn HDn) as (q & fl & E & Hfl & Hq & Hqt & Hqf).
      exists q, fl. split_and!; try done || lia. intros [->|Hin]%elem_of_cons; [|done]. apply Hne, Hinj; try done.
      fold p. unfold up. rewrite E. pose proof (V2P_al p Hp) as [? ?]. by rewrite PTE_ADDR_add, P2V_V2P.
    + intros n n' Hn Hn' [HDn Hne] [HDn' Hne']. rewrite !Hup by done. by apply Hinj.
  - intros n Hn [HDn Hne]. split; [by apply Hpu|]. intros x Hx. destruct (us_up _ _ _ _ _ _ Hu Hn HDn) as (_ & Hxt & _).
    apply Hmem; rewrite Hx; [|done]. intros E. by apply Hne, Hinj.
Qed.

(** ** deallocuvm *)

(** The pages [n] with [lo <= n < hi] are given back. *)
Definition ups (m : mem) (T : gmap Z Z) (lo hi : Z) : list Z := map (up m T) (seqZ lo (hi - lo)).

Lemma ups_nil m T lo hi : hi <= lo -> ups m T lo hi = [].
Proof. intros H. unfold ups. by rewrite seqZ_nil by lia. Qed.

Lemma ups_cons m T lo hi : lo < hi -> ups m T lo hi = up m T lo :: ups m T (lo + 1) hi.
Proof. intros H. unfold ups. rewrite seqZ_cons by lia. simpl. do 2 f_equal. f_equal; lia. Qed.

Lemma ups_ext m m' T T' lo hi : (forall n, lo <= n < hi -> up m' T' n = up m T n) -> ups m' T' lo hi = ups m T lo hi.
Proof. intros H. unfold ups. apply map_ext_in. intros n Hn%list_elem_of_In%elem_of_seqZ. apply H. lia. Qed.

Lemma elem_of_ups m T lo hi p : p ∈ ups m T lo hi <-> exists n, lo <= n < hi /\ p = up m T n.
Proof.
  unfold ups. rewrite list_elem_of_fmap. setoid_rewrite elem_of_seqZ. split; intros (n & H1 & H2); exists n; [|split; [done|lia]].
  split; [lia|done].
Qed.

(** What a loop that has given back the pages [k..np] reports. *)
Record dealloced (d : Z) (T : gmap Z Z) (lo k np : Z) (s : vst) (free : list Z) (s' : vst) (free' : list Z) : Prop := {
  dl_us : uspace s' free' d T (fun n => n < lo);
  dl_keeps : ukeeps s T s' T (fun n => n < lo);
  dl_after : vafter s s';
  dl_free : free' ≡ₚ ups (vmem s) T k np ++ free;
  dl_kern : forall n, UPAGES <= n < 1048576 -> pte (vmem s') T n = pte (vmem s) T n;
  dl_mem : forall x, ~ ptpage d T (pb x) -> pb x ∉ ups (vmem s) T k np -> vmem s' x = vmem s x
}.

Lemma dealloced_nil d T lo k np s free :
  uspace s free d T (fun n => n < lo \/ k <= n < np) -> np <= k -> dealloced d T lo k np s free s free.
Proof.
  intros Hu Hk. constructor; try done.
  - eapply uspace_iff; [|exact Hu]. intros n Hn. simpl. lia.
  - apply vafter_refl. apply Hu.
  - by rewrite ups_nil.
Qed.

(** Pages above the end need not be looked at. *)
Lemma dealloced_skip d T lo k k' np s free s' free' :
  np <= k -> np <= k' -> dealloced d T lo k' np s free s' free' -> dealloced d T lo k np s free s' free'.
Proof. intros H H' []. rewrite ups_nil in * by lia. constructor; rewrite ?ups_nil by lia; done. Qed.

(** Page [k] is given back, then the others. *)
Lemma dealloced_cons d T lo k np s free s1 s' free' :
  let p := up (vmem s) T k in let D n := (n < lo \/ k <= n < np) /\ n <> k in
  0 <= lo <= k -> k < np <= UPAGES ->
  ukeeps s T s1 T D -> vafter s s1 ->
  (forall n, 0 <= n < 1048576 -> n <> k -> pte (vmem s1) T n = pte (vmem s) T n) ->
  (forall x, pb x <> p -> ~ ptpage d T (pb x) -> vmem s1 x = vmem s x) ->
  dealloced d T lo (k + 1) np s1 (p :: free) s' free' -> dealloced d T lo k np s free s' free'.
Proof.
  intros p D Hlo Hk Hk1 Ha1 Hp1 Hm1 [U K A F P X]. unfold UPAGES in Hk.
  assert (forall n, k + 1 <= n < np -> up (vmem s1) T n = up (vmem s) T n) as Hup.
  { intros n Hn. apply (ukeeps_up _ _ _ _ _ _ Hk1); unfold UPAGES, D; lia. }
  rewrite (ups_ext _ _ _ _ _ _ Hup) in F, X. constructor; try done.
  - eapply ukeeps_trans; [|exact K]. eapply ukeeps_weaken; [|exact Hk1]. intros n Hn. unfold D. lia.
  - by eapply vafter_trans.
  - rewrite F, (ups_cons _ _ k) by lia. symmetry. apply Permutation_middle.
  - unfold UPAGES in *. intros n Hn. rewrite P, Hp1; [done|lia..].
  - intros x Hx1 Hx2. rewrite (ups_cons _ _ k) in Hx2 by lia. rewrite X, Hm1; [done|set_solver..].
Qed.

Lemma deallocuvm_loop_ok d T lo oldsz fuel : forall s free k np,
  uspace s free d T (fun n => n < lo \/ k <= n < np) -> 0 <= lo <= k -> k <= UPAGES + 1024 ->
  np <= UPAGES -> 4096 * (np - 1) < oldsz <= KERNBASE -> (oldsz + 4095) / 4096 - k < Z.of_nat fuel -> (0 < fuel)%nat ->
  exists s' free', deallocuvm_loop fuel d (4096 * k) oldsz s = Ret tt s' /\ dealloced d T lo k np s free s' free'.
Proof.
  unfold UPAGES, KERNBASE. induction fuel as [|fuel IH]; intros s free k np Hu Hk Hkm Hnp Hold Hfuel Hpos; [lia|].
  assert (forall k', np <= k -> np <= k' -> k < k' <= UPAGES + 1024 -> (oldsz + 4095) / 4096 - k' < Z.of_nat fuel -> (0 < fuel)%nat ->
    exists s' free', deallocuvm_loop fuel d (4096 * k') oldsz s = Ret tt s' /\ dealloced d T lo k np s free s' free') as Hskip.
  { unfold UPAGES. intros k' H1 H2 H3 H4 H5. destruct (IH s free k' np) as (s' & free' & Hrun & Hd); try lia.
    { eapply uspace_iff; [|exact Hu]. intros n Hn. simpl. lia. }
    exists s', free'. split; [done|]. by eapply (dealloced_skip _ _ _ k k'). }
  cbn [deallocuvm_loop]. destruct (Z.ltb_spec (4096 * k) oldsz) as [Hlt|Hge]; cbn [negb].
  2: { exists s, free. split; [done|]. apply dealloced_nil; [done|lia]. }
  pose proof (Z.div_mod (oldsz + 4095) 4096 ltac:(lia)). pose proof (Z.mod_pos_bound (oldsz + 4095) 4096 ltac:(lia)).
  assert (0 <= k < UPAGES) as Hku by (unfold UPAGES; lia). assert (4096 * k / 4096 = k) as Ek by (rewrite Z.mul_comm; by apply Z.div_mul).
  pose proof (us_vinv _ _ _ _ _ Hu) as Hv. pose proof (us_map _ _ _ _ _ Hu k Hku) as Hmk. destruct (T !! (k / 1024)) as [t|] eqn:Et.
  - rewrite (bind_Ret _ _ _ _ _ (walk_present s free d T (4096 * k) t false Hv ltac:(lia) ltac:(by rewrite Ek))). rewrite Ek.
    destruct (pd_tab _ _ _ (vi_pd _ _ _ _ Hv) _ _ Et) as (_ & Htp & _). pose proof (Z.mod_pos_bound k 1024 ltac:(lia)).
    destruct (Z.eqb_spec (t + 4 * (k mod 1024)) 0) as [E|_]; [by apply table_addr_nz in E; [..|lia]|].
    unfold load. rewrite gets_bind. assert (load32 (vmem s) (t + 4 * (k mod 1024)) = pte (vmem s) T k) as -> by (unfold pte; by rewrite Et).
    unfold mapped in Hmk. unfold PGSIZE. rewrite u32_small by lia.
    replace (4096 * k + 4096) with (4096 * (k + 1)) by lia. destruct (has (pte (vmem s) T k) PTE_P) eqn:Eh.
    + assert (k < lo \/ k <= k < np) as HDk by (by apply Hmk). destruct (us_up _ _ _ _ _ _ Hu Hku HDk) as (Hp & _ & _ & fl & Epte & Hfl).
      assert (PTE_ADDR (pte (vmem s) T k) = V2P (up (vmem s) T k)) as Ea by (rewrite Epte; apply PTE_ADDR_add; [apply V2P_al, Hp..|done]).
      destruct (Z.eqb_spec (PTE_ADDR (pte (vmem s) T k)) 0) as [E|_].
      { rewrite Ea, V2P_eq in E by done. apply page_range in Hp. lia. }
      destruct (uspace_remove s free d T _ k t Hu Hku HDk Et) as (s1 & Hrun & Hu1 & Hk1 & Ha1 & Hp1 & Hm1).
      rewrite (bind_Ret _ _ _ _ _ Hrun). destruct (IH s1 (up (vmem s) T k :: free) (k + 1) np) as (s' & free' & Hrun' & Hd); try lia.
      { eapply uspace_iff; [|exact Hu1]. intros n Hn. simpl. lia. }
      exists s', free'. split; [done|]. eapply dealloced_cons; try done. unfold UPAGES. lia.
    + rewrite ret_bind. apply Hskip; unfold UPAGES; try lia; destruct (decide (np <= k)); try lia; by destruct Hmk as [_ Hmk]; specialize (Hmk ltac:(lia)).
  - rewrite (bind_Ret _ _ _ _ _ (walk_absent s free d T (4096 * k) Hv ltac:(lia) ltac:(by rewrite Ek))). cbn [Z.eqb].
    assert (np <= k). { destruct (decide (np <= k)); [done|]. destruct (mapped_table (vmem s) T k) as [t Ht]; [|congruence]. apply Hmk. lia. }
    unfold NPTENTRIES, PGSIZE. rewrite (u32_small (4096 * k + _)), u32_small by lia.
    replace (4096 * k + (1024 - 1) * 4096 + 4096) with (4096 * (k + 1024)) by lia. apply Hskip; unfold UPAGES; lia.
Qed.

Definition npages (sz : Z) : Z := (sz + 4095) / 4096.

Lemma npages_spec sz : 0 <= sz -> 0 <= npages sz /\ 4096 * (npages sz - 1) < sz <= 4096 * npages sz.
Proof.
  intros H. unfold npages. pose proof (Z.div_mod (sz + 4095) 4096). pose proof (Z.mod_pos_bound (sz + 4095) 4096).
  pose proof (Z.div_pos (sz + 4095) 4096). lia.
Qed.

Lemma npages_mono a b : a <= b -> npages a <= npages b.
Proof. intros H. apply Z.div_le_mono; lia. Qed.

Lemma PGROUNDUP_npages sz : 0 <= sz <= KERNBASE -> PGROUNDUP sz = 4096 * npages sz.
Proof. unfold KERNBASE. intros H. rewrite PGROUNDUP_eq by lia. unfold npages. lia. Qed.

(** The pages from [newsz] on are given back; [np] is the number of pages there
    are, which need not be what [oldsz] says. *)
Lemma deallocuvm_ok s free d T np oldsz newsz :
  uspace s free d T (fun n => n < np) -> npages newsz <= np -> np <= npages oldsz -> 0 <= newsz < oldsz -> oldsz <= KERNBASE ->
  exists s' free', deallocuvm d oldsz newsz s = Ret newsz s' /\ dealloced d T (npages newsz) (npages newsz) np s free s' free'.
Proof.
  intros Hu Hnew Hold Hlt Hk. unfold deallocuvm. destruct (Z.geb_spec newsz oldsz); [lia|].
  rewrite PGROUNDUP_npages by lia. pose proof (npages_spec newsz ltac:(lia)). pose proof (npages_spec oldsz ltac:(lia)).
  pose proof (npages_mono oldsz KERNBASE Hk) as Hkn. change (npages KERNBASE) with UPAGES in Hkn.
  set (fuel := S (S _)). destruct (deallocuvm_loop_ok d T (npages newsz) oldsz fuel s free (npages newsz) np) as (s' & free' & Hrun & Hd); try lia.
  - eapply uspace_iff; [|exact Hu]. intros n Hn. simpl. lia.
  - fold (npages oldsz). unfold fuel, PGSIZE. pose proof (Z.div_mod (oldsz - 4096 * npages newsz) 4096). pose proof (Z.mod_pos_bound (oldsz - 4096 * npages newsz) 4096). lia.
  - exists s', free'. by rewrite (bind_Ret _ _ _ _ _ Hrun).
Qed.

(** * allocuvm *)

(** Page tables have been made, pages [lo..c'] are mapped now instead of
    [lo..c], and every page is accounted for. *)
Record realloced (d lo c c' : Z) (s : vst) (free : list Z) (T : gmap Z Z) (s' : vst) (free' : list Z) (T' : gmap Z Z) : Prop := {
  ra_us : uspace s' free' d T' (fun n => n < c');
  ra_keeps : ukeeps s T s' T' (fun n => n < c /\ n < c');
  ra_after : vafter s s';
  ra_tabs : T ⊆ T';
  ra_free : exists used, (forall p, p ∈ used <-> exists i, T' !! i = Some p /\ T !! i = None) /\
    ups (vmem s) T lo c ++ free ≡ₚ used ++ ups (vmem s') T' lo c' ++ free';
  ra_kern : forall n, UPAGES <= n < 1048576 -> pte (vmem s') T' n = pte (vmem s) T n;
  ra_mem : forall x, ~ ptpage d T (pb x) -> pb x ∉ ups (vmem s) T lo c ++ free -> vmem s' x = vmem s x
}.

Lemma realloced_refl d lo c s free T s' :
  uspace s' free d T (fun n => n < c) -> vmem s' = vmem s -> vafter s s' -> realloced d lo c c s free T s' free T.
Proof.
  intros Hu Hm Ha. constructor; rewrite ?Hm; try done.
  - by intros n Hn Hc; rewrite Hm.
  - exists []. split; [|done]. intros p. split; [set_solver|]. intros (i & ? & ?). congruence.
Qed.

(** A free page is no page of the address space. *)
Lemma free_not_up s free d T D p n : uspace s free d T D -> 0 <= n < UPAGES -> D n -> p ∈ free -> up (vmem s) T n <> p.
Proof. intros Hu Hn HD Hp E. destruct (us_up _ _ _ _ _ _ Hu Hn HD) as (_ & _ & Hf & _). rewrite E in Hf. contradiction. Qed.

(** A page is taken off the free list and zeroed, or filled otherwise. *)
Lemma uspace_take s free d T D p s1 m :
  uspace s (p :: free) d T D -> kmem_ok (v_km s1) free -> vafter s s1 -> vmem s1 = vmem s ->
  (forall x, pb x <> p -> m x = vmem s x) ->
  uspace (set_vmem m s1) free d T D /\ ukeeps s T (set_vmem m s1) T D /\ vafter s (set_vmem m s1) /\
  (forall n, 0 <= n < 1048576 -> pte m T n = pte (vmem s) T n) /\
  page_ok p /\ p ∉ free /\ ~ ptpage d T p /\ (forall n, 0 <= n < UPAGES -> D n -> up m T n <> p).
Proof.
  intros Hu Hk1 Ha1 Hm1 Hm. pose proof (us_vinv _ _ _ _ _ Hu) as [Hk Hr Hpd Ho].
  destruct (free_page s _ p free Hk eq_refl) as (Hp & Hpn & _).
  assert (~ ptpage d T p) as Hpt by (intros H; apply (Ho p H); by left).
  destruct (pgdir_frame (vmem s) m d T Hpd) as [Hpd' Hpte]. { intros x Hx. apply Hm. intros E. by rewrite E in Hx. }
  assert (vinv (set_vmem m s1) free d T) as Hv.
  { constructor; [|exact (vafter_ready _ _ Ha1)|done|intros q Hq Hin; apply (Ho q Hq); by right].
    apply kmem_set; [done|]. intros x Hx. rewrite Hm1. apply Hm. congruence. }
  destruct (uspace_move s (p :: free) d T D (set_vmem m s1) free T Hu Hv) as [Hu' Hk'].
  - intros n Hn. apply Hpte. unfold UPAGES in *. lia.
  - by left.
  - intros q Hq. by right.
  - intros x _ Hx. apply Hm. set_solver.
  - split_and!; try done.
    + eapply vafter_trans; [exact Ha1|]. apply vafter_mem. exact (vafter_ready _ _ Ha1).
    + intros n Hn HD. unfold up. rewrite Hpte by (unfold UPAGES in *; lia). apply (free_not_up s (p :: free) d T D); try done. by left.
Qed.

Lemma ups_snoc m T lo c : lo <= c -> ups m T lo (c + 1) = ups m T lo c ++ [up m T c].
Proof.
  intros H. unfold ups. replace (c + 1 - lo) with ((c - lo) + 1) by lia. rewrite seqZ_app by lia. rewrite map_app.
  replace (lo + (c - lo)) with c by lia. done.
Qed.

Lemma ups_keeps s T s' T' lo c :
  0 <= lo -> c <= UPAGES -> ukeeps s T s' T' (fun n => n < c) -> ups (vmem s') T' lo c = ups (vmem s) T lo c.
Proof. intros Hlo Hc Hk. apply ups_ext. intros n Hn. apply (ukeeps_up _ _ _ _ _ _ Hk); lia. Qed.

(** A page from the free list, with contents [m], is mapped at the end; or
    there is no memory for a page table, and the page is left over. *)
Lemma alloc_page s p free d T lo c s1 m perm :
  uspace s (p :: free) d T (fun n => n < c) -> 0 <= lo <= c -> c < UPAGES -> 0 <= perm < 4096 ->
  kmem_ok (v_km s1) free -> vafter s s1 -> vmem s1 = vmem s -> (forall x, pb x <> p -> m x = vmem s x) ->
  exists r s' free' T', mappages d (4096 * c) PGSIZE (V2P p) perm (set_vmem m s1) = Ret r s' /\
    page_ok p /\ vafter s s' /\ T ⊆ T' /\ ukeeps s T s' T' (fun n => n < c) /\
    (forall n, UPAGES <= n < 1048576 -> pte (vmem s') T' n = pte (vmem s) T n) /\
    (forall x, ~ ptpage d T (pb x) -> pb x ∉ free -> vmem s' x = m x) /\
    (exists used, free = used ++ free' /\ forall q, q ∈ used <-> exists i, T' !! i = Some q /\ T !! i = None) /\
    (length free <= S (length free'))%nat /\
    ((r = 0 /\ uspace s' free' d T' (fun n => n < c + 1) /\ pte (vmem s') T' c = V2P p + Z.lor perm PTE_P) \/
     (r = -1 /\ free' = [] /\ uspace s' [] d T' (fun n => n < c) /\
      ~ ptpage d T' p /\ forall n, 0 <= n < UPAGES -> n < c -> up (vmem s') T' n <> p)).
Proof.
  intros Hu Hlo Hc Hperm Hk1 Ha1 Hm1 Hm.
  destruct (uspace_take s free d T _ p s1 m Hu Hk1 Ha1 Hm1 Hm) as (Hu2 & Hk2 & Ha2 & Hp2 & Hpo & Hpf & Hpt & Hpu).
  destruct (uspace_add (set_vmem m s1) free d T (fun n => n < c) p perm c Hu2 ltac:(lia) ltac:(simpl; lia) Hperm Hpo Hpf Hpt Hpu)
    as (r & s' & free' & T' & Hrun & Hg & Hk3 & Hkern & Hl' & Hr).
  exists r, s', free', T'. split_and!; try done.
  - eapply vafter_trans; [exact Ha2|apply Hg].
  - apply Hg.
  - by eapply ukeeps_trans.
  - intros n Hn. rewrite Hkern by done. apply Hp2. unfold UPAGES in *. lia.
  - intros x Hx1 Hx2. apply (gr_mem _ _ _ _ _ _ _ Hg). by intros [H|H]%(grows_pt _ _ _ _ _ _ _ _ Hg).
  - destruct (gr_free _ _ _ _ _ _ _ Hg) as (used & -> & Hused). by exists used.
  - destruct Hr as [(-> & Hu3 & Ep)|(-> & Hu3 & ->)]; [left|right]; split_and!; try done.
    + eapply uspace_iff; [|exact Hu3]. intros n Hn. simpl. lia.
    + by intros [H|H]%(grows_pt _ _ _ _ _ _ _ _ Hg).
    + intros n Hn Hnc. rewrite (ukeeps_up _ _ _ _ _ _ Hk3) by done. by apply Hpu.
Qed.

Lemma entry_up s T c p fl : page_ok p -> 0 <= fl < 4096 -> pte (vmem s) T c = V2P p + fl -> up (vmem s) T c = p.
Proof. intros Hp Hfl E. unfold up. rewrite E. pose proof (V2P_al p Hp) as [? ?]. by rewrite PTE_ADDR_add, P2V_V2P. Qed.

(** The page is mapped. *)
Lemma alloc_page_realloced s p free d T lo c s' used free' T' fl m :
  0 <= lo <= c -> c < UPAGES -> uspace s' free' d T' (fun n => n < c + 1) -> vafter s s' -> T ⊆ T' ->
  ukeeps s T s' T' (fun n => n < c) -> (forall n, UPAGES <= n < 1048576 -> pte (vmem s') T' n = pte (vmem s) T n) ->
  free = used ++ free' -> (forall q, q ∈ used <-> exists i, T' !! i = Some q /\ T !! i = None) ->
  (forall x, ~ ptpage d T (pb x) -> pb x ∉ free -> vmem s' x = m x) -> (forall x, pb x <> p -> m x = vmem s x) ->
  page_ok p -> 0 <= fl < 4096 -> pte (vmem s') T' c = V2P p + fl ->
  realloced d lo c (c + 1) s (p :: free) T s' free' T'.
Proof.
  intros Hlo Hc Hu Ha HT Hk Hkern -> Hused Hmem Hm Hp Hfl E. pose proof (entry_up _ _ _ _ _ Hp Hfl E) as Eup. constructor; try done.
  - eapply ukeeps_weaken; [|exact Hk]. simpl. lia.
  - exists used. split; [done|]. rewrite ups_snoc by lia. rewrite Eup, (ups_keeps s T s' T') by (done || lia).
    rewrite <- app_assoc, (Permutation_app_swap_app used). apply Permutation_app_head. simpl. apply Permutation_middle.
  - intros x Hx1 Hx2. rewrite Hmem; [apply Hm|done|]; set_solver.
Qed.

Lemma realloced_trans d lo a b e s1 f1 T1 s2 f2 T2 s3 f3 T3 :
  a <= b \/ e <= b ->
  realloced d lo a b s1 f1 T1 s2 f2 T2 -> realloced d lo b e s2 f2 T2 s3 f3 T3 -> realloced d lo a e s1 f1 T1 s3 f3 T3.
Proof.
  intros Hb [U1 K1 A1 S1 (u1 & Hu1 & F1) P1 X1] [U2 K2 A2 S2 (u2 & Hu2 & F2) P2 X2]. constructor; try done.
  - eapply ukeeps_trans; [eapply ukeeps_weaken; [|exact K1]|eapply ukeeps_weaken; [|exact K2]]; simpl; lia.
  - by eapply vafter_trans.
  - by etrans.
  - exists (u1 ++ u2). split; [by apply (new_tables T1 T2 T3)|]. by rewrite F1, F2, app_assoc.
  - intros n Hn. by rewrite P2, P1.
  - intros x Hx1 Hx2. rewrite X2, X1; [done|done|done| |].
    + intros [E|[i Hi]]; [apply Hx1; by left|]. destruct (T1 !! i) as [t|] eqn:Et.
      * apply Hx1. right. exists i. pose proof (lookup_weaken _ _ _ _ Et S1). congruence.
      * apply Hx2. rewrite F1. apply elem_of_app. left. apply Hu1. eauto.
    + contradict Hx2. rewrite F1. apply elem_of_app. by right.
Qed.

Lemma dealloced_realloced d T lo np s free s' free' :
  lo <= np -> dealloced d T lo lo np s free s' free' -> realloced d lo np lo s free T s' free' T.
Proof.
  intros Hlo [U K A F P X]. constructor; try done.
  - eapply ukeeps_weaken; [|exact K]. simpl. lia.
  - exists []. split; [intros p; split; [set_solver|]; intros (i & ? & ?); congruence|]. by rewrite (ups_nil _ _ lo lo), F by lia.
  - intros x Hx1 Hx2. apply X; [done|]. set_solver.
Qed.

(** A page that is not in the address space is given back. *)
Lemma uspace_kfree s free d T D p :
  uspace s free d T D -> page_ok p -> p ∉ free -> ~ ptpage d T p -> (forall n, 0 <= n < UPAGES -> D n -> up (vmem s) T n <> p) ->
  exists s', km (kfree p) s = Ret tt s' /\ uspace s' (p :: free) d T D /\ ukeeps s T s' T D /\ vafter s s' /\
    (forall n, 0 <= n < 1048576 -> pte (vmem s') T n = pte (vmem s) T n) /\
    (forall x, pb x <> p -> vmem s' x = vmem s x).
Proof.
  intros Hu Hp Hpf Hpt Hpu. pose proof Hu as [[Hkm Hr Hpd Ho] Hmap Hpage Hinj].
  destruct (km_kfree s free p Hkm Hr Hp Hpf) as (s1 & Hrun & Hk1 & Ha1 & Hm1).
  destruct (pgdir_frame (vmem s) (vmem s1) d T Hpd) as [Hpd1 Hp1]. { intros x Hx. apply Hm1. intros E. by rewrite E in Hx. }
  assert (forall n, 0 <= n < UPAGES -> pte (vmem s1) T n = pte (vmem s) T n) as Hpu1 by (intros; apply Hp1; unfold UPAGES in *; lia).
  exists s1. split_and!; try done.
  - constructor.
    + constructor; [done|by eapply vafter_ready|done|]. intros q Hq [->|Hin]%elem_of_cons; [done|]. by apply (Ho q).
    + intros n Hn. unfold mapped. rewrite Hpu1 by done. by apply Hmap.
    + intros n Hn HD. rewrite Hpu1 by done. destruct (Hpage n Hn HD) as (q & fl & E & Hfl & Hq & Hqt & Hqf).
      exists q, fl. split_and!; try done || lia. intros [->|Hin]%elem_of_cons; [|done].
      apply (Hpu n Hn HD). by eapply entry_up.
    + intros n n' Hn Hn' HD HD'. unfold up. rewrite !Hpu1 by done. by apply Hinj.
  - intros n Hn HD. split; [by apply Hpu1|]. intros x Hx. apply Hm1. rewrite Hx. by apply Hpu.
Qed.

Lemma say_keeps s free d T c lo msg :
  uspace s free d T (fun n => n < c) ->
  let s' := set_v_out (v_out s ++ [msg]) s in
  uspace s' free d T (fun n => n < c) /\ realloced d lo c c s free T s' free T.
Proof.
  intros Hu s'. assert (uspace s' free d T (fun n => n < c)) by by eapply uspace_say.
  split; [done|]. apply realloced_refl; try done. constructor; try done. split_and!; try done. apply Hu.
Qed.

Section Alloc.
Context (d oldsz newsz : Z).
Context (Hsz : 0 <= oldsz) (Hnew : oldsz < newsz) (Hmax : newsz < KERNBASE).
Notation lo := (npages oldsz).

(** No page at all: the pages allocated so far are given back. *)
Lemma alloc_undo s free T c msg :
  uspace s free d T (fun n => n < c) -> lo <= c -> c <= npages newsz ->
  exists s' free', (say msg ;; deallocuvm d newsz oldsz) s = Ret oldsz s' /\ realloced d lo c lo s free T s' free' T.
Proof using Hsz Hnew Hmax.
  intros Hu Hlo Hc. destruct (say_keeps s free d T c lo msg Hu) as [Hu1 R1]. unfold say. rewrite modify_bind.
  destruct (deallocuvm_ok _ free d T c newsz oldsz Hu1) as (s' & free' & Hrun & Hd); try lia.
  exists s', free'. split; [done|]. eapply realloced_trans; [|exact R1|by apply dealloced_realloced]. lia.
Qed.

(** No page for a table: the page taken for the user is given back, too. *)
Lemma alloc_undo_page s p free used T c m s1 T1 msg :
  lo <= c < npages newsz -> uspace s1 [] d T1 (fun n => n < c) -> vafter s s1 -> T ⊆ T1 ->
  ukeeps s T s1 T1 (fun n => n < c) -> (forall n, UPAGES <= n < 1048576 -> pte (vmem s1) T1 n = pte (vmem s) T n) ->
  (forall x, ~ ptpage d T (pb x) -> pb x ∉ free -> vmem s1 x = m x) -> (forall x, pb x <> p -> m x = vmem s x) ->
  free = used ++ [] -> (forall q, q ∈ used <-> exists i, T1 !! i = Some q /\ T !! i = None) ->
  page_ok p -> ~ ptpage d T1 p -> (forall n, 0 <= n < UPAGES -> n < c -> up (vmem s1) T1 n <> p) ->
  exists s' free', (say msg ;; deallocuvm d newsz oldsz ;; km (kfree p) ;; ret 0) s1 = Ret 0 s' /\
    realloced d lo c lo s (p :: free) T s' free' T1.
Proof using Hsz Hnew Hmax.
  rewrite app_nil_r. intros Hc Hu1 Ha1 HT Hk1 Hkern Hmem Hm -> Hused Hp Hpt Hpu.
  pose proof (npages_spec oldsz Hsz). pose proof (npages_mono newsz KERNBASE ltac:(lia)) as Hkn. change (npages KERNBASE) with UPAGES in Hkn.
  destruct (alloc_undo s1 [] T1 c msg Hu1 ltac:(lia) ltac:(lia)) as (s2 & free2 & Hrun2 & [U2 K2 A2 S2 (u & Hu & F2) P2 X2]).
  assert (u = []) as ->. { destruct u as [|q u]; [done|]. destruct (proj1 (Hu q)) as (i & ? & ?); [by left|congruence]. }
  rewrite (ups_nil _ _ lo lo), app_nil_r in F2 by lia. simpl in F2.
  assert (p ∉ free2) as Hpf. { rewrite <- F2. rewrite elem_of_ups. intros (n & Hn & E). by apply (Hpu n); [lia..|]. }
  destruct (uspace_kfree s2 free2 d T1 _ p U2 Hp Hpf Hpt) as (s3 & Hrun3 & U3 & K3 & A3 & P3 & X3).
  { intros n Hn Hlt. rewrite (ukeeps_up _ _ _ _ _ _ K2); [apply Hpu; lia|done|lia]. }
  exists s3, (p :: free2). split.
  { rewrite (bind_seq _ _ _ _ _ _ Hrun2). by rewrite (bind_Ret _ _ _ _ _ Hrun3). }
  constructor; try done.
  - eapply ukeeps_trans; [eapply ukeeps_weaken; [|exact Hk1]; simpl; lia|].
    eapply ukeeps_trans; [exact K2|]. eapply ukeeps_weaken; [|exact K3]. simpl. lia.
  - eapply vafter_trans; [exact Ha1|]. by eapply vafter_trans.
  - exists used. split; [done|]. rewrite (ups_nil _ _ lo lo) by lia. simpl. rewrite <- F2, (ups_keeps s T s1 T1) by (done || lia).
    rewrite <- !Permutation_middle. constructor. apply Permutation_app_comm.
  - intros n Hn. rewrite P3, P2 by (unfold UPAGES in *; lia). by apply Hkern.
  - intros x Hx1 Hx2. apply not_elem_of_app in Hx2 as [Hx2 Hx3]. apply not_elem_of_cons in Hx3 as [Hx3 Hx4].
    rewrite X3 by done. rewrite X2; [rewrite Hmem by done; by apply Hm| |].
    + intros [E|[i Hi]]; [apply Hx1; by left|]. destruct (T !! i) as [t|] eqn:Et.
      * apply Hx1. right. exists i. pose proof (lookup_weaken _ _ _ _ Et HT). congruence.
      * apply Hx4, Hused. eauto.
    + rewrite app_nil_r. by rewrite (ups_keeps s T s1 T1) by (done || lia).
Qed.

(** Pages mapped for the user, writable, and full of zeros. *)
Definition zeroed (s : vst) (T : gmap Z Z) (a b : Z) : Prop :=
  forall n, a <= n < b -> pte (vmem s) T n = V2P (up (vmem s) T n) + 7 /\ forall x, pb x = up (vmem s) T n -> vmem s x = 0.

Lemma allocuvm_loop_ok fuel : forall s free T c,
  uspace s free d T (fun n => n < c) -> lo <= c <= npages newsz -> npages newsz - c < Z.of_nat fuel ->
  exists r s' free' T' c', allocuvm_loop fuel d (4096 * c) oldsz newsz s = Ret r s' /\
    realloced d lo c c' s free T s' free' T' /\
    ((r = newsz /\ c' = npages newsz /\ zeroed s' T' c c') \/
     (r = 0 /\ c' = lo /\ Z.of_nat (length free) <= 2 * (npages newsz - c))).
Proof using Hsz Hnew Hmax.
  pose proof (npages_spec oldsz Hsz). pose proof (npages_spec newsz ltac:(lia)).
  pose proof (npages_mono newsz KERNBASE ltac:(lia)) as Hkn. change (npages KERNBASE) with UPAGES in Hkn. unfold KERNBASE in Hmax.
  induction fuel as [|fuel IH]; intros s free T c Hu Hc Hfuel; [lia|]. cbn [allocuvm_loop].
  destruct (Z.ltb_spec (4096 * c) newsz) as [Hlt|Hge]; cbn [negb].
  2: { exists newsz, s, free, T, c. split; [done|]. split; [apply realloced_refl; try done; apply vafter_refl, Hu|].
    left. split_and!; [done|lia|]. intros n Hn. lia. }
  pose proof (us_vinv _ _ _ _ _ Hu) as [Hk Hr _ _]. destruct (km_kalloc s free Hk Hr) as (s1 & Hrun1 & Hk1 & Ha1 & Hm1).
  rewrite (bind_Ret _ _ _ _ _ Hrun1). destruct free as [|p free]; simpl in Hk1; cbn [hd].
  - assert (uspace s1 [] d T (fun n => n < c)) as Hu1.
    { eapply (uspace_move s [] d T); try done; [|by rewrite Hm1|by left|by rewrite Hm1].
      destruct (us_vinv _ _ _ _ _ Hu). constructor; try done; [by eapply vafter_ready|by rewrite Hm1]. }
    destruct (alloc_undo s1 [] T c "allocuvm out of memory" Hu1 ltac:(lia) ltac:(lia)) as (s2 & free2 & Hrun2 & R2).
    exists 0, s2, free2, T, lo. cbn [Z.eqb]. rewrite (bind_seq _ _ _ _ _ _ Hrun2). split; [done|]. split; [|right; split_and!; cbn [length]; lia].
    eapply realloced_trans; [|apply realloced_refl; [exact Hu1|done|done]|exact R2]. lia.
  - destruct (free_page s _ p free Hk eq_refl) as (Hp & _ & Hp0). destruct (Z.eqb_spec p 0) as [|_]; [done|]. unfold fill. rewrite modify_bind.
    assert (forall x, memset (vmem s1) p 0 PGSIZE x = if decide (pb x = p) then 0 else vmem s x) as Hm.
    { intros x. rewrite memset_pb by apply Hp. by rewrite Hm1. }
    set (m := memset (vmem s1) p 0 PGSIZE) in *.
    assert (forall x, pb x <> p -> m x = vmem s x) as Hm' by (intros x Hx; by rewrite Hm, decide_False).
    destruct (alloc_page s p free d T lo c s1 m 6 Hu ltac:(lia) ltac:(lia) ltac:(lia) Hk1 Ha1 Hm1 Hm')
      as (r & s2 & free2 & T2 & Hrun2 & _ & Ha2 & HT2 & Hk2 & Hkern2 & Hmem2 & (used & Efree & Hused) & Hl2 & Hor).
    change (Z.lor PTE_W PTE_U) with 6. rewrite (bind_Ret _ _ _ _ _ Hrun2).
    destruct Hor as [(-> & Hu2 & Epte)|(-> & -> & Hu2 & Hpt & Hpu)]; cbn [Z.ltb Z.compare].
    + change (Z.lor 6 PTE_P) with 7 in Epte.
      assert (realloced d lo c (c + 1) s (p :: free) T s2 free2 T2) as R2.
      { eapply alloc_page_realloced; try done; lia. }
      unfold PGSIZE. rewrite u32_small by lia. replace (4096 * c + 4096) with (4096 * (c + 1)) by lia.
      destruct (IH s2 free2 T2 (c + 1) Hu2 ltac:(lia) ltac:(lia)) as (r & s3 & free3 & T3 & c' & Hrun3 & R3 & Hr3).
      exists r, s3, free3, T3, c'. split; [done|]. split; [eapply realloced_trans; [|exact R2|exact R3]; lia|].
      destruct Hr3 as [(-> & -> & Hz)|(-> & -> & Hl3)]; [left|right; split_and!; try done; cbn [length]; lia]. split_and!; try done. intros n Hn.
      destruct (decide (n = c)) as [->|Hne]; [|apply Hz; lia].
      destruct (ra_keeps _ _ _ _ _ _ _ _ _ _ R3 c ltac:(lia) ltac:(simpl; lia)) as [E3 M3].
      pose proof (entry_up s2 T2 c p 7 Hp ltac:(lia) Epte) as Eup. unfold up in *. rewrite E3, Eup. split; [done|].
      intros x Hx. rewrite M3 by congruence. pose proof (us_vinv _ _ _ _ _ Hu) as [_ _ _ Ho].
      rewrite Hmem2; [by rewrite Hm, decide_True| |]; rewrite Hx; [intros H'; apply (Ho p H'); by left|].
      by destruct (free_page s _ p free Hk eq_refl) as (_ & ? & _).
    + destruct (alloc_undo_page s p free used T c m s2 T2 "allocuvm out of memory (2)") as (s3 & free3 & Hrun3 & R3); try done || lia.
      exists 0, s3, free3, T2, lo. split; [done|]. split; [done|]. right. cbn [length] in *. split_and!; lia.
Qed.
End Alloc.

Lemma allocuvm_ok s free d T oldsz newsz :
  uspace s free d T (fun n => n < npages oldsz) -> 0 <= oldsz < newsz -> newsz < KERNBASE ->
  exists r s' free' T' c, allocuvm d oldsz newsz s = Ret r s' /\
    realloced d (npages oldsz) (npages oldsz) c s free T s' free' T' /\
    ((r = newsz /\ c = npages newsz /\ zeroed s' T' (npages oldsz) c) \/
     (r = 0 /\ c = npages oldsz /\ Z.of_nat (length free) <= 2 * (npages newsz - npages oldsz))).
Proof.
  intros Hu Hsz Hmax. unfold allocuvm. destruct (Z.geb_spec newsz KERNBASE); [lia|]. destruct (Z.ltb_spec newsz oldsz); [lia|].
  rewrite PGROUNDUP_npages by lia. pose proof (npages_mono oldsz newsz ltac:(lia)). pose proof (npages_spec newsz ltac:(lia)). pose proof (npages_spec oldsz ltac:(lia)).
  apply (allocuvm_loop_ok d oldsz newsz); try done || lia. unfold PGSIZE.
  pose proof (Z.div_mod (newsz - 4096 * npages oldsz) 4096). pose proof (Z.mod_pos_bound (newsz - 4096 * npages oldsz) 4096). lia.
Qed.

(** C21: allocuvm grows an address space: it returns the new size, with all
    pages in between mapped for the user, writable and zeroed; or 0, with none
    of them mapped, when there are at most two free pages for each.  Either way
    the pages there were keep their contents, no page outside the address
    space and the free list changes, and every page that has left the free
    list is mapped or is a page table: nothing is lost, nothing used twice. *)
Theorem allocuvm_grows s free d T oldsz newsz :
  uspace s free d T (fun n => n < npages oldsz) -> 0 <= oldsz < newsz -> newsz < KERNBASE ->
  exists r s' free' T' c, allocuvm d oldsz newsz s = Ret r s' /\
    ((r = newsz /\ c = npages newsz /\ zeroed s' T' (npages oldsz) c) \/
     (r = 0 /\ c = npages oldsz /\ Z.of_nat (length free) <= 2 * (npages newsz - npages oldsz))) /\
    uspace s' free' d T' (fun n => n < c) /\
    (forall va, 0 <= va < oldsz -> ubyte s' T' va = ubyte s T va) /\
    (forall x, ~ ptpage d T (pb x) -> pb x ∉ free -> vmem s' x = vmem s x) /\
    exists used, (forall p, p ∈ used <-> exists i, T' !! i = Some p /\ T !! i = None) /\
      free ≡ₚ used ++ ups (vmem s') T' (npages oldsz) c ++ free'.
Proof.
  intros Hu Hsz Hmax. destruct (allocuvm_ok s free d T oldsz newsz Hu Hsz Hmax) as (r & s' & free' & T' & c & Hrun & [U K A S F P X] & Hr).
  exists r, s', free', T', c. rewrite ups_nil in F, X by lia. split; [done|]. split; [done|]. split; [done|]. split_and!; [|done|done].
  intros va Hva. pose proof (npages_mono oldsz newsz ltac:(lia)). pose proof (npages_spec oldsz ltac:(lia)).
  assert (va / 4096 < npages oldsz) as Hlt by (apply Z.div_lt_upper_bound; lia).
  apply (ukeeps_byte s free d T s' T' (fun n => n < npages oldsz)); try done; [|unfold KERNBASE in *; lia].
  eapply ukeeps_weaken; [|exact K]. simpl. intros n. destruct Hr as [(_ & -> & _)|(_ & -> & _)]; lia.
Qed.
