(* ===== verification/VmKernel.v ===== *)
(** The kernel half of a page table, and freeing a page table: setupkvm and
    freevm. *)
From S2P Require Import Prelude CString Spinlock ProcState Queue Proc Kalloc Vm VmSpec VmUser.

(** * setupkvm *)

(** The page numbers of a line of kmap. *)
Definition kpages (k : kmap) : Z := u32 (k_phys_end k - k_phys_start k) / 4096.
Definition kstart (k : kmap) : Z := k_virt k / 4096.
Definition in_kmap (k : kmap) (n : Z) : Prop := kstart k <= n < kstart k + kpages k.

#[export] Instance in_kmap_dec k n : Decision (in_kmap k n).
Proof. unfold in_kmap. apply _. Defined.

(** The entry that lines of kmap give a page number. *)
Fixpoint kmapped (l : list kmap) (n : Z) : Z :=
  match l with
  | [] => 0
  | k :: l' => if decide (in_kmap k n) then mapped_to (k_phys_start k) (k_perm k) (kstart k) n else kmapped l' n
  end.

(** Whole pages, inside the 32 bits. *)
Record kmap_ok (k : kmap) : Prop := {
  ko_perm : 0 <= k_perm k < 4096;
  ko_virt : k_virt k = 4096 * kstart k;
  ko_size : u32 (k_phys_end k - k_phys_start k) = 4096 * kpages k;
  ko_some : 0 < kpages k;
  ko_start : 0 <= kstart k;
  ko_end : kstart k + kpages k <= 1048576;
  ko_phys : k_phys_start k mod 4096 = 0;
  ko_phys0 : 0 <= k_phys_start k;
  ko_physend : k_phys_start k + 4096 * kpages k <= 4294967296
}.

(** The lines [l] can be mapped after the lines [done]. *)
Fixpoint kmaps_fit (done l : list kmap) : Prop :=
  match l with
  | [] => True
  | k :: l' => kmap_ok k /\ (forall n, in_kmap k n -> has (kmapped done n) PTE_P = false) /\ kmaps_fit (k :: done) l'
  end.

Lemma kmap_step d s free T done k :
  vinv s free d T -> kmap_ok k -> (forall n, in_kmap k n -> has (kmapped done n) PTE_P = false) ->
  (forall n, 0 <= n < 1048576 -> pte (vmem s) T n = kmapped done n) ->
  exists r s' free' T',
    mappages d (k_virt k) (u32 (k_phys_end k - k_phys_start k)) (k_phys_start k) (k_perm k) s = Ret r s' /\
    vinv s' free' d T' /\ grows d s free T s' free' T' /\ new_in T T' (kstart k / 1024) ((kstart k + kpages k - 1) / 1024) /\
    ((r = 0 /\ forall n, 0 <= n < 1048576 -> pte (vmem s') T' n = kmapped (k :: done) n) \/ (r = -1 /\ free' = [])).
Proof.
  intros Hv [Hperm Hvirt Hsize Hsome Hstart Hend Hphys Hphys0 Hpend] Hfree Hpte.
  assert (k_virt k / 4096 = kstart k) as Es by done.
  assert ((k_virt k + u32 (k_phys_end k - k_phys_start k) - 1) / 4096 - kstart k + 1 = kpages k) as En.
  { rewrite Hsize, Hvirt. replace (4096 * kstart k + 4096 * kpages k - 1) with (4095 + (kstart k + kpages k - 1) * 4096) by lia.
    rewrite Z.div_add by lia. change (4095 / 4096) with 0. lia. }
  destruct (mappages_ok (k_perm k) d s free T (k_virt k) (u32 (k_phys_end k - k_phys_start k)) (k_phys_start k))
    as (r & s' & free' & T' & c & Hrun & Hv' & Hg & _ & Hnew & Hp & Hr); rewrite ?Es, ?En; try done || lia.
  { intros j Hj. rewrite Hpte by lia. by apply Hfree. }
  rewrite Es, En in *. exists r, s', free', T'. split_and!; try done.
  destruct Hr as [[-> ->]|(-> & _ & ->)]; [left|by right]. split; [done|]. intros n Hn. rewrite Hp by done. simpl. rewrite Hpte by done.
  by repeat case_decide.
Qed.

(** The indexes of the page tables the kernel's mappings use. *)
Definition kmap_tables (l : list kmap) : list Z :=
  l ≫= fun k => seqZ (kstart k / 1024) ((kstart k + kpages k - 1) / 1024 - kstart k / 1024 + 1).

Lemma setupkvm_loop_ok d l : d <> 0 -> forall s free T done,
  vinv s free d T -> kmaps_fit done l -> (forall n, 0 <= n < 1048576 -> pte (vmem s) T n = kmapped done n) ->
  exists r s' free' T', setupkvm_loop d l s = Ret r s' /\ vinv s' free' d T' /\ grows d s free T s' free' T' /\
    (forall i, is_Some (T' !! i) -> is_Some (T !! i) \/ i ∈ kmap_tables l) /\
    ((r = d /\ forall n, 0 <= n < 1048576 -> pte (vmem s') T' n = kmapped (rev l ++ done) n) \/ (r = 0 /\ free' = [])).
Proof.
  intros Hd. induction l as [|k l IH]; intros s free T done Hv Hfit Hp; simpl.
  - exists d, s, free, T. split_and!; try done; [|by left|by left]. apply grows_refl; [apply vafter_refl, Hv|done].
  - destruct Hfit as (Hk & Hfree & Hfit). destruct (kmap_step d s free T done k Hv Hk Hfree Hp) as (r & s1 & free1 & T1 & Hrun & Hv1 & Hg1 & Hn1 & Hr).
    assert (forall i, is_Some (T1 !! i) -> is_Some (T !! i) \/ i ∈ kmap_tables (k :: l)) as Hi1.
    { intros i [?|Hi]%Hn1; [by left|right]. unfold kmap_tables. cbn [mbind list_bind]. rewrite elem_of_app, elem_of_seqZ. left. lia. }
    rewrite (bind_Ret _ _ _ _ _ Hrun). destruct Hr as [[-> Hp1]|[-> ->]]; simpl.
    + destruct (IH s1 free1 T1 (k :: done) Hv1 Hfit Hp1) as (r & s2 & free2 & T2 & Hrun2 & Hv2 & Hg2 & Hi2 & Hr2).
      exists r, s2, free2, T2. split_and!; try done; [by eapply grows_trans| |by rewrite <- app_assoc].
      intros i [Hi|Hi]%Hi2; [by apply Hi1|right]. unfold kmap_tables. cbn [mbind list_bind]. rewrite elem_of_app. by right.
    + exists 0, s1, [], T1. split_and!; try done. by right.
Qed.

Lemma kmaps_fit_kmaps : kmaps_fit [] kmaps.
Proof.
  assert (forall k, k ∈ kmaps -> kmap_ok k) as Hok.
  { intros k Hk. unfold kmaps in Hk. repeat (apply elem_of_cons in Hk as [->|Hk]; [constructor; vm_compute; intuition congruence|]).
    by apply not_elem_of_nil in Hk. }
  cbn [kmaps_fit kmaps]. split_and!; try done; try (apply Hok; unfold kmaps; set_solver).
  all: intros n Hn; unfold in_kmap in Hn; vm_compute kstart in Hn; vm_compute kpages in Hn; cbn [kmapped];
    rewrite ?decide_False by (unfold in_kmap; vm_compute kstart; vm_compute kpages; lia); done.
Qed.

(** An empty page directory. *)
Lemma vinv_empty s d free s1 :
  kmem_ok (v_km s) (d :: free) -> kmem_ok (v_km s1) free -> vafter s s1 -> vmem s1 = vmem s ->
  let s2 := set_vmem (memset (vmem s1) d 0 PGSIZE) s1 in
  vinv s2 free d ∅ /\ vafter s s2 /\ (forall x, pb x <> d -> vmem s2 x = vmem s x) /\ page_ok d /\ d <> 0.
Proof.
  intros Hk Hk1 Ha1 Hm1 s2. destruct (free_page s _ d free Hk eq_refl) as (Hd & Hdf & Hd0).
  assert (forall x, vmem s2 x = if decide (pb x = d) then 0 else vmem s x) as Hm.
  { intros x. change (vmem s2) with (memset (vmem s1) d 0 PGSIZE). rewrite memset_pb by apply Hd. by rewrite Hm1. }
  split_and!; try done.
  - constructor; [|exact (vafter_ready _ _ Ha1)| |].
    + apply kmem_set; [done|]. intros x Hx. rewrite memset_pb by apply Hd. rewrite decide_False; [done|congruence].
    + constructor; try done. intros i Hi _. unfold load32. rewrite !Hm, !decide_True; [done|..]; apply (word_pb d i); lia || apply Hd.
    + intros p [->|[i Hi]]; done.
  - eapply vafter_trans; [exact Ha1|]. apply vafter_mem. exact (vafter_ready _ _ Ha1).
  - intros x Hx. by rewrite Hm, decide_False.
Qed.

(** The page tables with index below [i]. *)
Definition tables (T : gmap Z Z) (i : Z) : list Z := omap (fun j => T !! j) (seqZ 0 i).

Lemma tables_step T i : 0 <= i -> tables T (i + 1) = tables T i ++ match T !! i with Some t => [t] | None => [] end.
Proof.
  intros Hi. unfold tables. rewrite seqZ_app, omap_app by lia. simpl. f_equal.
Qed.

Lemma elem_of_tables T i p : p ∈ tables T i <-> exists j, 0 <= j < i /\ T !! j = Some p.
Proof.
  unfold tables. rewrite list_elem_of_omap. setoid_rewrite elem_of_seqZ. split; intros (j & ? & ?); exists j; split; lia || done.
Qed.

(** There are at most as many page tables as indexes. *)
Lemma tables_length (T : gmap Z Z) I l :
  NoDup l -> (forall p, p ∈ l -> exists i, i ∈ I /\ T !! i = Some p) -> (length l <= length I)%nat.
Proof.
  intros Hnd Hl. transitivity (length (omap (fun j => T !! j) I)).
  - apply NoDup_incl_length; [by apply NoDup_ListNoDup|]. intros p Hp%list_elem_of_In. apply list_elem_of_In, list_elem_of_omap. by apply Hl.
  - clear. induction I as [|j I IH]; simpl; [done|]. unfold omap in IH. destruct (T !! j); simpl; lia.
Qed.

(** The entries of the kernel's pages. *)
Definition kpte (n : Z) : Z := kmapped (rev kmaps) n.

Lemma setupkvm_ok s free :
  kmem_ok (v_km s) free -> kmem_ready (v_km s) ->
  exists r s' free' used, setupkvm s = Ret r s' /\ vafter s s' /\ kmem_ok (v_km s') free' /\
    free = used ++ free' /\ (forall x, pb x ∉ used -> vmem s' x = vmem s x) /\
    ((r = 0 /\ free' = [] /\ (length free <= 65)%nat) \/
     (r <> 0 /\ (length used <= 65)%nat /\ exists T, vinv s' free' r T /\ (forall p, ptpage r T p <-> p ∈ used) /\
      forall n, 0 <= n < 1048576 -> pte (vmem s') T n = kpte n)).
Proof.
  intros Hk Hr. destruct (km_kalloc s free Hk Hr) as (s1 & Hrun1 & Hk1 & Ha1 & Hm1). unfold setupkvm.
  rewrite (bind_Ret _ _ _ _ _ Hrun1). destruct free as [|d free]; simpl in Hk1; cbn [hd].
  { exists 0, s1, [], []. split_and!; try done; [by rewrite Hm1|]. left. split_and!; try done. simpl. lia. }
  destruct (vinv_empty s d free s1 Hk Hk1 Ha1 Hm1) as (Hv2 & Ha2 & Hm2 & Hd & Hd0).
  destruct (Z.eqb_spec d 0) as [|_]; [done|]. unfold fill. rewrite modify_bind.
  change (P2V PHYSTOP >? DEVSPACE) with false. cbv iota. set (s2 := set_vmem _ s1) in *.
  destruct (setupkvm_loop_ok d kmaps Hd0 s2 free ∅ [] Hv2 kmaps_fit_kmaps) as (r & s' & free' & T' & Hrun & Hv & Hg & Hi & Hor).
  { intros n _. unfold pte. by rewrite lookup_empty. }
  pose proof Hg as [_ (used & -> & Hused) Hm Ha].
  assert (forall p, ptpage d T' p <-> p ∈ d :: used) as Hpt.
  { intros p. rewrite elem_of_cons, Hused. setoid_rewrite lookup_empty. unfold ptpage. naive_solver. }
  exists r, s', free', (d :: used). split_and!; try done; [by eapply vafter_trans|apply Hv| |].
  - intros x Hx. rewrite Hm by (by rewrite Hpt). apply Hm2. set_solver.
  - assert (length (d :: used) <= 65)%nat as Hlen.
    { cbn [length]. apply le_n_S. change 64%nat with (length (remove_dups (kmap_tables kmaps))). apply (tables_length T').
      2: { intros p (i & Et & _)%Hused. exists i. split; [|done]. apply elem_of_remove_dups.
           destruct (Hi i ltac:(eauto)) as [[? He]|]; [by rewrite lookup_empty in He|done]. }
      pose proof (ko_nodup _ _ Hk1) as Hnd. by apply NoDup_app in Hnd as [? _]. }
    destruct Hor as [[-> Hp]|[-> ->]]; [right|left; by rewrite app_nil_r in *]. split; [done|]. split; [done|]. exists T'. split_and!; try done.
Qed.

(** C16: setupkvm makes a page table that has the kernel's mappings and nothing
    else: each page of physical memory below PHYSTOP at KERNBASE plus its
    address, read-only from the start of the kernel to its data and writable
    elsewhere, the devices at the top where they are, and no page that user
    code can see.  It is built of free pages only.  When the memory runs out,
    which takes less than 66 free pages, it returns 0 and keeps the pages:
    none is free afterwards. *)
Theorem setupkvm_maps_kernel s free :
  kmem_ok (v_km s) free -> kmem_ready (v_km s) ->
  exists r s' free' used, setupkvm s = Ret r s' /\ free = used ++ free' /\ kmem_ok (v_km s') free' /\
    (forall x, pb x ∉ used -> vmem s' x = vmem s x) /\
    ((r = 0 /\ free' = [] /\ (length free <= 65)%nat) \/
     (exists T, vinv s' free' r T /\ (forall p, ptpage r T p <-> p ∈ used) /\
      forall n, 0 <= n < 1048576 -> pte (vmem s') T n =
        if decide (0x80000 <= n < 0x80100 \/ 0x80108 <= n < 0x8E000) then 4096 * (n - 0x80000) + 3
        else if decide (0x80100 <= n < 0x80108) then 4096 * (n - 0x80000) + 1
        else if decide (0xFE000 <= n) then 4096 * n + 3 else 0)).
Proof.
  intros Hk Hr. destruct (setupkvm_ok s free Hk Hr) as (r & s' & free' & used & Hrun & _ & Hk' & E & Hm & Hor).
  exists r, s', free', used. split_and!; try done. destruct Hor as [|(_ & _ & T & Hv & Hpt & Hp)]; [by left|right].
  exists T. split_and!; try done. intros n Hn. rewrite Hp by done. unfold kpte, kmaps. cbn [rev app kmapped]. unfold in_kmap.
  repeat match goal with |- context [kstart ?k] => let v := eval vm_compute in (kstart k) in change (kstart k) with v end.
  repeat match goal with |- context [kpages ?k] => let v := eval vm_compute in (kpages k) in change (kpages k) with v end.
  unfold mapped_to. cbn [k_phys_start k_perm]. change (V2P KERNLINK) with 0x100000. change (V2P data_) with 0x108000. unfold DEVSPACE.
  change (Z.lor PTE_W PTE_P) with 3. change (Z.lor 0 PTE_P) with 1. repeat case_decide; lia.
Qed.

(** * freevm *)

(** The loop over the page directory. *)
Record freeing (d : Z) (T : gmap Z Z) (s : vst) (free : list Z) (i : Z) (s' : vst) : Prop := {
  fg_km : exists free', kmem_ok (v_km s') free' /\ free' ≡ₚ tables T i ++ free;
  fg_after : vafter s s';
  fg_mem : forall x, pb x ∉ tables T i -> vmem s' x = vmem s x
}.

Lemma freeing_step d T s free i s' :
  vinv s free d T -> 0 <= i < 1024 -> freeing d T s free i s' ->
  exists s'', (e <- load (d + 4 * i) ;; if has e PTE_P then km (kfree (P2V (PTE_ADDR e))) else ret tt) s' = Ret tt s'' /\
    freeing d T s free (i + 1) s''.
Proof.
  intros [Hk Hr Hpd Ho] Hi [(free' & Hk' & F) Ha Hm]. unfold load. rewrite gets_bind.
  assert (load32 (vmem s') (d + 4 * i) = load32 (vmem s) (d + 4 * i)) as ->.
  { apply load32_page; [apply (pd_page _ _ _ Hpd)|done|]. intros x Hx. apply Hm. rewrite Hx, elem_of_tables.
    intros (j & _ & Hj). by apply (pd_tab _ _ _ Hpd) in Hj as (_ & _ & ?). }
  pose proof (tables_step T i ltac:(lia)) as Es. destruct (T !! i) as [t|] eqn:Et.
  - destruct (pd_tab _ _ _ Hpd _ _ Et) as (_ & Ht & _). rewrite (pd_some _ _ _ Hpd _ _ Et). pose proof (V2P_al t Ht) as [Hal Hr32].
    rewrite has_add by (done || unfold PTE_P; lia). simpl. rewrite PTE_ADDR_add, P2V_V2P by (done || lia).
    destruct (km_kfree s' free' t Hk' (vafter_ready _ _ Ha) Ht) as (s2 & Hrun & Hk2 & Ha2 & Hm2).
    { rewrite F. intros [(j & Hj & E)%elem_of_tables|Hin]%elem_of_app; [|by apply (Ho t); [right; eauto|]].
      pose proof (pd_inj _ _ _ Hpd _ _ _ E Et). lia. }
    exists s2. split; [done|]. constructor.
    + exists (t :: free'). split; [done|]. rewrite Es, F, <- app_assoc. simpl. apply Permutation_middle.
    + by eapply vafter_trans.
    + intros x Hx. rewrite Es in Hx. rewrite Hm2, Hm; [done|set_solver..].
  - rewrite (pd_none _ _ _ Hpd) by done. exists s'. split; [done|]. rewrite app_nil_r in Es. constructor; rewrite ?Es; eauto.
Qed.

Lemma freevm_ok s free d T np :
  uspace s free d T (fun n => n < np) -> 0 <= np <= UPAGES ->
  exists s' free', freevm d s = Ret tt s' /\ kmem_ok (v_km s') free' /\ vafter s s' /\
    free' ≡ₚ d :: tables T 1024 ++ ups (vmem s) T 0 np ++ free /\
    (forall x, ~ ptpage d T (pb x) -> pb x ∉ ups (vmem s) T 0 np -> vmem s' x = vmem s x).
Proof.
  intros Hu Hnp. unfold freevm. pose proof (us_vinv _ _ _ _ _ Hu) as [_ _ Hpd _]. pose proof (pd_page _ _ _ Hpd) as Hd.
  destruct (Z.eqb_spec d 0) as [E|_]; [apply page_range in Hd; lia|].
  destruct (deallocuvm_ok s free d T np KERNBASE 0 Hu) as (s1 & free1 & Hrun1 & [U1 K1 A1 F1 P1 X1]); try done || (unfold KERNBASE; lia); [apply Hnp..|].
  rewrite (bind_Ret _ _ _ _ _ Hrun1). change (npages 0) with 0 in *. pose proof (us_vinv _ _ _ _ _ U1) as Hv1.
  destruct (for_each_inv (fun i => e <- load (d + 4 * i) ;; if has e PTE_P then km (kfree (P2V (PTE_ADDR e))) else ret tt)
    (freeing d T s1 free1) 0 NPDENTRIES s1) as (s2 & Hrun2 & [(free2 & Hk2 & F2) A2 X2]); [done| | |].
  { constructor; [exists free1; split; [apply Hv1|done]|apply vafter_refl, Hv1|done]. }
  { intros j t Hj Hf. by apply freeing_step. }
  rewrite (bind_Ret _ _ _ _ _ Hrun2). change NPDENTRIES with 1024 in *.
  assert (forall p, p ∈ tables T 1024 -> exists i, T !! i = Some p) as Htab by (intros p (i & _ & Hi)%elem_of_tables; eauto).
  destruct (km_kfree s2 free2 d Hk2 (vafter_ready _ _ A2) Hd) as (s3 & Hrun3 & Hk3 & A3 & X3).
  { rewrite F2. intros [(j & Hj)%Htab|Hin]%elem_of_app; [|by apply (vi_own _ _ _ _ Hv1 d); [left|]].
    by apply (pd_tab _ _ _ Hpd) in Hj as (_ & _ & ?). }
  exists s3, (d :: free2). split_and!; try done.
  - eapply vafter_trans; [exact A1|]. by eapply vafter_trans.
  - by rewrite F2, F1.
  - intros x Hx1 Hx2. rewrite X3, X2, X1; [done|done|done| |].
    + intros Hx%Htab. apply Hx1. by right.
    + intros E. apply Hx1. by left.
Qed.

(** C23: freevm gives back every page of an address space, each once: the user
    pages, the page tables and the page directory; no other memory changes. *)
Theorem freevm_returns_every_page s free d T np :
  uspace s free d T (fun n => n < np) -> 0 <= np <= UPAGES ->
  exists s' free', freevm d s = Ret tt s' /\ kmem_ok (v_km s') free' /\
    (forall p, p ∈ free' <-> ptpage d T p \/ (exists n, 0 <= n < np /\ p = up (vmem s) T n) \/ p ∈ free) /\
    (forall x, ~ ptpage d T (pb x) -> pb x ∉ ups (vmem s) T 0 np -> vmem s' x = vmem s x).
Proof.
  intros Hu Hnp. destruct (freevm_ok s free d T np Hu Hnp) as (s' & free' & Hrun & Hk & _ & F & Hm).
  exists s', free'. split_and!; try done. intros p. rewrite F, elem_of_cons, !elem_of_app, elem_of_ups, elem_of_tables. unfold ptpage.
  pose proof (pd_tab _ _ _ (vi_pd _ _ _ _ (us_vinv _ _ _ _ _ Hu))) as Ht. split.
  - intros [->|[(j & _ & Hj)|[|]]]; eauto.
  - intros [[->|[j Hj]]|[|]]; eauto. right. left. exists j. split; [|done]. by apply Ht in Hj as (? & _).
Qed.
