(* ===== verification/VmCopy.v ===== *)
(** Copying address spaces and copying to user memory: copyuvm, uva2ka,
    copyout and clearpteu.  At the end there is a small address
    space, on which the theorems of vm.c are applied. *)
From S2P Require Import Prelude CString Spinlock ProcState Queue Proc Kalloc Vm VmSpec VmUser VmKernel.

(** An address space is not disturbed by what happens to free pages. *)
Lemma uspace_other s free d T D s' free' :
  uspace s free d T D -> kmem_ok (v_km s') free' -> vafter s s' -> (forall p, p ∈ free' -> p ∈ free) ->
  (forall x, pb x ∉ free -> vmem s' x = vmem s x) ->
  uspace s' free' d T D /\ ukeeps s T s' T D.
Proof.
  intros Hu Hk Ha Hf Hm. pose proof (us_vinv _ _ _ _ _ Hu) as [_ _ Hpd Ho].
  destruct (pgdir_frame (vmem s) (vmem s') d T Hpd) as [Hpd' Hp]. { intros x Hx. apply Hm. by apply Ho. }
  apply (uspace_move s free); try done.
  - constructor; [done|by eapply vafter_ready|done|]. intros p Hpt Hin. by apply (Ho p Hpt), Hf.
  - intros n Hn. apply Hp. unfold UPAGES in *. lia.
  - by left.
  - intros x _ Hx. by apply Hm.
Qed.

(** * copyuvm *)

(** The pages below [c] of the address space [d], [T] of state [s] have been
    copied to [d2], [T2], which is made of the pages that were free. *)
Record copied (s : vst) (free : list Z) (d : Z) (T : gmap Z Z) (d2 c : Z) (s' : vst) (free' : list Z) (T2 : gmap Z Z) : Prop := {
  cp_us : uspace s' free' d2 T2 (fun n => n < c);
  cp_after : vafter s s';
  cp_mem : forall x, pb x ∉ free -> vmem s' x = vmem s x;
  cp_acc : forall p, p ∈ free <-> ptpage d2 T2 p \/ p ∈ ups (vmem s') T2 0 c \/ p ∈ free';
  cp_same : forall n, 0 <= n < c -> PTE_FLAGS (pte (vmem s') T2 n) = PTE_FLAGS (pte (vmem s) T n) /\
    forall o, 0 <= o < 4096 -> vmem s' (up (vmem s') T2 n + o) = vmem s (up (vmem s) T n + o);
  cp_kern : forall n, UPAGES <= n < 1048576 -> pte (vmem s') T2 n = kpte n;
  cp_count : Z.of_nat (length free) <= Z.of_nat (length free') + 65 + 2 * c
}.

Lemma copied_start s free d T r s1 free1 used T2 :
  vafter s s1 -> kmem_ok (v_km s1) free1 -> free = used ++ free1 -> (forall x, pb x ∉ used -> vmem s1 x = vmem s x) ->
  vinv s1 free1 r T2 -> (forall p, ptpage r T2 p <-> p ∈ used) -> (forall n, 0 <= n < 1048576 -> pte (vmem s1) T2 n = kpte n) ->
  (length used <= 65)%nat -> copied s free d T r 0 s1 free1 T2.
Proof.
  intros Ha Hk -> Hm Hv Hpt Hp Hlen. constructor; try done || lia.
  - constructor; try done || lia. intros n Hn. split; [|lia]. unfold mapped. rewrite Hp by (unfold UPAGES in *; lia).
    unfold kpte, kmaps. cbn [rev app kmapped]. unfold UPAGES in *.
    rewrite !decide_False by (unfold in_kmap; vm_compute kstart; vm_compute kpages; lia). done.
  - intros x Hx. apply Hm. set_solver.
  - intros p. rewrite elem_of_app, Hpt, ups_nil by lia. set_solver.
  - intros n Hn. apply Hp. unfold UPAGES in *. lia.
  - rewrite length_app. lia.
Qed.

Lemma lor_has fl : has fl PTE_P = true -> Z.lor fl PTE_P = fl.
Proof.
  unfold has, PTE_P. intros H. apply Z.bits_inj'. intros i Hi. rewrite Z.lor_spec.
  destruct (decide (i = 0)) as [->|Hne]; [|change 1 with (2 ^ 0); rewrite Z.pow2_bits_false by lia; apply orb_false_r].
  rewrite !Z.bit0_odd. change (Z.odd 1) with true. rewrite orb_true_r.
  change 1 with (Z.ones 1) in H. rewrite Z.land_ones, Zmod_odd in H by lia. by destruct (Z.odd fl).
Qed.

(** The entry of a user page is found and read. *)
Lemma walk_user s free d T D n :
  uspace s free d T D -> 0 <= n < UPAGES -> D n ->
  exists t, T !! (n / 1024) = Some t /\ walkpgdir d (4096 * n) false s = Ret (t + 4 * (n mod 1024)) s /\
    t + 4 * (n mod 1024) <> 0 /\ load32 (vmem s) (t + 4 * (n mod 1024)) = pte (vmem s) T n /\
    has (pte (vmem s) T n) PTE_P = true.
Proof.
  intros Hu Hn HD. pose proof (us_vinv _ _ _ _ _ Hu) as Hv. assert (mapped (vmem s) T n) as Hm by (by apply Hu).
  destruct (mapped_table (vmem s) T n Hm) as [t Et]. assert (4096 * n / 4096 = n) as En by (rewrite Z.mul_comm; by apply Z.div_mul).
  destruct (pd_tab _ _ _ (vi_pd _ _ _ _ Hv) _ _ Et) as (_ & Htp & _). pose proof (Z.mod_pos_bound n 1024 ltac:(lia)).
  exists t. split_and!; try done; [|apply table_addr_nz; [done|lia]|unfold pte; by rewrite Et].
  rewrite (walk_present s free d T (4096 * n) t false Hv); [by rewrite En|unfold UPAGES in *; lia|by rewrite En].
Qed.

(** A page copied with memmove. *)
Lemma move_page m p q x :
  page_ok p -> memmove m p q PGSIZE x = if decide (pb x = p) then m (x - p + q) else m x.
Proof.
  intros [Hp _]. rewrite memmove_spec by (unfold PGSIZE; lia). unfold PGSIZE in *. case_decide as E.
  - pose proof (pb_inv p x Hp E). by destruct (Z.leb_spec p x), (Z.ltb_spec x (p + 4096)); simpl; try lia.
  - destruct (Z.leb_spec p x), (Z.ltb_spec x (p + 4096)); simpl; try done. destruct E. by apply pb_page.
Qed.

(** The source is still what it was. *)
Lemma copied_source s free d T D d2 c s' free' T2 :
  uspace s free d T D -> copied s free d T d2 c s' free' T2 -> uspace s' free' d T D /\ ukeeps s T s' T D.
Proof.
  intros Hu [U A M Acc _ _ _]. apply (uspace_other s free); try done; [apply U|]. intros p Hp. apply Acc. by right; right.
Qed.

(** One more page. *)
Lemma copied_step s free d T np d2 c s' p f T2 m fl s2 free2 T3 used :
  uspace s free d T (fun n => n < np) -> 0 <= c < np -> np <= UPAGES -> copied s free d T d2 c s' (p :: f) T2 ->
  uspace s2 free2 d2 T3 (fun n => n < c + 1) -> vafter s' s2 -> T2 ⊆ T3 -> ukeeps s' T2 s2 T3 (fun n => n < c) ->
  (forall n, UPAGES <= n < 1048576 -> pte (vmem s2) T3 n = pte (vmem s') T2 n) ->
  (forall x, ~ ptpage d2 T2 (pb x) -> pb x ∉ f -> vmem s2 x = m x) ->
  (forall x, m x = if decide (pb x = p) then vmem s (x - p + up (vmem s) T c) else vmem s' x) ->
  f = used ++ free2 -> (forall q, q ∈ used <-> exists i, T3 !! i = Some q /\ T2 !! i = None) ->
  page_ok p -> pte (vmem s) T c = V2P (up (vmem s) T c) + fl -> 0 <= fl < 4096 -> pte (vmem s2) T3 c = V2P p + fl ->
  (length f <= S (length free2))%nat ->
  copied s free d T d2 (c + 1) s2 free2 T3.
Proof.
  intros Hu Hc Hnp [U A M Acc Same Kern Cnt] U2 A2 HT K2 Kern2 M2 Hm -> Hused Hp Efl Hfl E2 Hlen.
  pose proof (entry_up _ _ _ _ _ Hp Hfl E2) as Eup. pose proof (page_range _ Hp) as [Hal _].
  assert (~ ptpage d2 T2 p /\ p ∉ used ++ free2) as [Hpt Hpf].
  { pose proof (us_vinv _ _ _ _ _ U) as [Hk _ _ Ho]. split; [intros H; apply (Ho p H); by left|]. by apply (free_page s' _ p _ Hk eq_refl). }
  constructor; try done.
  - by eapply vafter_trans.
  - intros x Hx. rewrite M2.
    + rewrite Hm, decide_False; [by apply M|]. intros E. apply Hx, Acc. right. right. rewrite E. by left.
    + contradict Hx. apply Acc. by left.
    + contradict Hx. apply Acc. right. right. by right.
  - intros q. rewrite Acc, ups_snoc, Eup, elem_of_app, list_elem_of_singleton by lia. rewrite (ups_keeps s' T2 s2 T3) by (done || (cbv beta; lia)).
    rewrite elem_of_cons, elem_of_app, Hused. split.
    + intros [Hq|[Hq|[->|[(i & Hi & _)|Hq]]]]; try tauto; [left; by eapply ptpage_mono|]. left. right. eauto.
    + intros [[->|[i Hi]]|[[Hq| ->]|Hq]]; try tauto; [left; by left|]. destruct (T2 !! i) as [t|] eqn:Et.
      * left. right. exists i. pose proof (lookup_weaken _ _ _ _ Et HT). congruence.
      * right. right. right. left. eauto.
  - intros n Hn. destruct (decide (n = c)) as [->|Hne].
    + rewrite E2, Efl, Eup. destruct (us_up _ _ _ _ _ c Hu ltac:(unfold UPAGES in *; lia) ltac:(cbv beta; lia)) as (Hq & _).
      split; [rewrite !PTE_FLAGS_add; [done|apply V2P_al, Hq|apply V2P_al, Hq|done|apply V2P_al, Hp|apply V2P_al, Hp|done]|].
      intros o Ho. assert (pb (p + o) = p) as Epb by (apply pb_page; [done|lia]).
      rewrite M2 by (rewrite Epb; done). rewrite Hm, decide_True by done. f_equal. lia.
    + destruct (K2 n ltac:(lia) ltac:(cbv beta; lia)) as [Ek Mk]. destruct (Same n ltac:(lia)) as [Sf Sb].
      rewrite Ek, Sf. split; [done|]. intros o Ho. rewrite (ukeeps_up _ _ _ _ _ _ K2) by (simpl; lia).
      rewrite Mk; [by apply Sb|]. apply pb_page; [|lia].
      destruct (us_up _ _ _ _ _ n U ltac:(lia) ltac:(cbv beta; lia)) as ([? _] & _). done.
  - intros n Hn. rewrite Kern2 by done. by apply Kern.
  - cbn [length] in Cnt. lia.
Qed.

Lemma copyuvm_loop_ok s free d T sz d2 fuel : forall s1 free1 T2 c,
  uspace s free d T (fun n => n < npages sz) -> 0 <= sz < KERNBASE -> copied s free d T d2 c s1 free1 T2 ->
  0 <= c <= npages sz -> npages sz - c < Z.of_nat fuel ->
  exists r s' free' T' c', copyuvm_loop fuel d d2 (4096 * c) sz s1 = Ret r s' /\
    ((r = Some tt /\ copied s free d T d2 (npages sz) s' free' T') \/
     (r = None /\ 0 <= c' <= UPAGES /\ uspace s' free' d2 T' (fun n => n < c') /\ vafter s s' /\
      (forall x, pb x ∉ free -> vmem s' x = vmem s x) /\
      (forall p, ptpage d2 T' p \/ p ∈ ups (vmem s') T' 0 c' \/ p ∈ free' -> p ∈ free) /\
      Z.of_nat (length free) <= 65 + 2 * npages sz)).
Proof.
  intros s1 free1 T2 c Hu Hsz. pose proof (npages_spec sz ltac:(lia)). unfold KERNBASE in Hsz.
  pose proof (npages_mono sz 0x80000000 ltac:(lia)) as Hkn. change (npages 0x80000000) with UPAGES in Hkn.
  revert s1 free1 T2 c. induction fuel as [|fuel IH]; intros s1 free1 T2 c Hcp Hc Hfuel; [lia|]. cbn [copyuvm_loop].
  destruct (Z.ltb_spec (4096 * c) sz) as [Hlt|Hge]; cbn [negb].
  2: { exists (Some tt), s1, free1, T2, c. split; [done|]. left. split; [done|]. by replace (npages sz) with c by lia. }
  assert (0 <= c < UPAGES) as Hcu by lia.
  destruct (copied_source _ _ _ _ _ _ _ _ _ _ Hu Hcp) as [Hu1 Hk1]. pose proof (us_vinv _ _ _ _ _ Hu1) as Hv1.
  destruct (us_up _ _ _ _ _ c Hu1 Hcu ltac:(cbv beta; lia)) as (Hq & Hqt & Hqf & fl & Epte & Hfl).
  destruct (walk_user s1 free1 d T _ c Hu1 Hcu ltac:(cbv beta; lia)) as (t & _ & Hw & Hnz & Hld & Hhas).
  rewrite (bind_Ret _ _ _ _ _ Hw). destruct (Z.eqb_spec (t + 4 * (c mod 1024)) 0) as [|_]; [done|].
  unfold load. rewrite gets_bind, Hld, Hhas. cbn [negb].
  pose proof (V2P_al _ Hq) as [Hqa Hqr]. rewrite Epte in Hhas |- *. rewrite has_add in Hhas by (done || unfold PTE_P; lia).
  rewrite PTE_ADDR_add, PTE_FLAGS_add, P2V_V2P by done. set (q := up (vmem s1) T c) in *.
  pose proof Hcp as [U A M Acc Same Kern Cnt]. pose proof (us_vinv _ _ _ _ _ U) as [Hk _ _ Ho].
  destruct (km_kalloc s1 free1 Hk (vi_ready _ _ _ _ Hv1)) as (s2 & Hrun2 & Hk2 & Ha2 & Hm2). rewrite (bind_Ret _ _ _ _ _ Hrun2).
  destruct free1 as [|p f]; simpl in Hk2; cbn [hd].
  { exists None, s2, [], T2, c. split; [done|]. right. split_and!; try done || lia.
    - eapply (uspace_other s1 []); try done. by rewrite Hm2.
    - by eapply vafter_trans.
    - intros x Hx. rewrite Hm2. by apply M.
    - intros p. rewrite Hm2, Acc. done.
    - cbn [length] in Cnt. lia. }
  destruct (free_page s1 _ p f Hk eq_refl) as (Hp & Hpf & Hp0). destruct (Z.eqb_spec p 0) as [|_]; [done|].
  unfold move. rewrite modify_bind. set (m := memmove (vmem s2) p q PGSIZE).
  assert (forall x, m x = if decide (pb x = p) then vmem s (x - p + q) else vmem s1 x) as Hm.
  { intros x. unfold m. rewrite move_page, Hm2 by done. case_decide as E; [|done]. pose proof (pb_inv p x ltac:(apply Hp) E).
    apply (Hk1 c Hcu ltac:(cbv beta; lia)). rewrite <- (ukeeps_up _ _ _ _ _ _ Hk1) by (done || (cbv beta; lia)).
    apply pb_page; [apply Hq|]. fold q. lia. }
  assert (forall x, pb x <> p -> m x = vmem s1 x) as Hm' by (intros x Hx; by rewrite Hm, decide_False).
  destruct (alloc_page s1 p f d2 T2 0 c s2 m fl U ltac:(lia) ltac:(lia) Hfl Hk2 Ha2 Hm2 Hm')
    as (r & s3 & free3 & T3 & Hrun3 & _ & Ha3 & HT3 & Hk3 & Hkern3 & Hmem3 & (used & Efree & Hused) & Hl3 & Hor).
  rewrite (bind_Ret _ _ _ _ _ Hrun3). destruct Hor as [(-> & Hu3 & Epte3)|(-> & -> & Hu3 & Hpt & Hpu)]; cbn [Z.ltb Z.compare].
  - rewrite lor_has in Epte3 by done. unfold PGSIZE. rewrite u32_small by (unfold UPAGES in *; lia). replace (4096 * c + 4096) with (4096 * (c + 1)) by lia.
    apply (IH s3 free3 T3 (c + 1)); [|lia|lia]. destruct (Hk1 c Hcu ltac:(cbv beta; lia)) as [Ek Mk].
    assert (up (vmem s) T c = q) as Eq by (unfold q; by rewrite (ukeeps_up _ _ _ _ _ _ Hk1) by (done || (cbv beta; lia))).
    eapply (copied_step s free d T (npages sz) d2 c s1 p f T2 m fl s3 free3 T3 used); try done || lia; rewrite Eq; [done|congruence].
  - exists None, s3, [], T3, c. split; [done|]. right. cbn [length] in Cnt, Hl3. subst f. split_and!; try done || lia.
    + by eapply vafter_trans.
    + intros x Hx. rewrite Hmem3.
      * rewrite Hm, decide_False; [by apply M|]. intros E. apply Hx, Acc. right. right. rewrite E. by left.
      * contradict Hx. apply Acc. by left.
      * contradict Hx. apply Acc. right. right. by right.
    + intros x. rewrite Acc. rewrite (ups_keeps s1 T2 s3 T3) by (done || (cbv beta; lia)). intros [[->|[i Hi]]|[Hx|Hx]].
      * left. by left.
      * destruct (T2 !! i) as [y|] eqn:Ey; [left; right; exists i; pose proof (lookup_weaken _ _ _ _ Ey HT3); congruence|].
        right. right. right. apply elem_of_app. left. apply Hused. eauto.
      * right. by left.
      * by apply not_elem_of_nil in Hx.
Qed.

Lemma npages_lt va sz : 0 <= va < sz -> 0 <= va / 4096 < npages sz.
Proof.
  intros H. pose proof (npages_spec sz ltac:(lia)). split; [apply Z.div_pos; lia|apply Z.div_lt_upper_bound; lia].
Qed.

Lemma npages_UPAGES sz : sz <= KERNBASE -> npages sz <= UPAGES.
Proof. intros H. pose proof (npages_mono sz KERNBASE H) as Hk. by change (npages KERNBASE) with UPAGES in Hk. Qed.

Lemma ukeeps_bytes s free d T s' T' sz :
  uspace s free d T (fun n => n < npages sz) -> ukeeps s T s' T' (fun n => n < npages sz) -> sz < KERNBASE ->
  forall va, 0 <= va < sz -> ubyte s' T' va = ubyte s T va.
Proof.
  intros Hu Hk Hsz va Hva. eapply ukeeps_byte; [exact Hu|exact Hk|unfold KERNBASE in *; lia|]. by apply npages_lt.
Qed.

Lemma copyuvm_ok s free d T sz :
  uspace s free d T (fun n => n < npages sz) -> 0 <= sz < KERNBASE ->
  exists r s' free', copyuvm d sz s = Ret r s' /\ kmem_ok (v_km s') free' /\ vafter s s' /\
    (forall p, p ∈ free' -> p ∈ free) /\ (forall x, pb x ∉ free -> vmem s' x = vmem s x) /\
    ((r = 0 /\ Z.of_nat (length free) <= 65 + 2 * npages sz) \/ exists T2, copied s free d T r (npages sz) s' free' T2).
Proof.
  intros Hu Hsz. pose proof (us_vinv _ _ _ _ _ Hu) as [Hk Hr _ _]. unfold copyuvm.
  destruct (setupkvm_ok s free Hk Hr) as (d2 & s1 & free1 & used & Hrun1 & A1 & Hk1 & E1 & M1 & Hor). rewrite (bind_Ret _ _ _ _ _ Hrun1).
  assert (forall p, p ∈ used \/ p ∈ free1 -> p ∈ free) as Hsub by (intros p Hp; subst; by apply elem_of_app).
  pose proof (npages_spec sz ltac:(lia)). destruct Hor as [(-> & -> & Hlen)|(Hd2 & Hlen & T2 & Hv1 & Hpt1 & Hp1)].
  { exists 0, s1, []. split_and!; try done; [set_solver| |left; split; [done|lia]]. intros x Hx. apply M1. auto. }
  destruct (Z.eqb_spec d2 0) as [|_]; [done|].
  pose proof (copied_start s free d T d2 s1 free1 used T2 A1 Hk1 E1 M1 Hv1 Hpt1 Hp1 Hlen) as C1.
  destruct (copyuvm_loop_ok s free d T sz d2 (S (S (Z.to_nat (sz / PGSIZE)))) s1 free1 T2 0 Hu Hsz C1) as (r & s2 & free2 & T3 & c & Hrun2 & Hor2); [lia| |].
  { unfold npages, PGSIZE. pose proof (Z.div_mod sz 4096). pose proof (Z.div_mod (sz + 4095) 4096).
    pose proof (Z.mod_pos_bound sz 4096). pose proof (Z.mod_pos_bound (sz + 4095) 4096). lia. }
  rewrite (bind_Ret _ _ _ _ _ Hrun2). destruct Hor2 as [[-> C2]|(-> & Hc & U2 & A2 & M2 & F2 & Cnt2)].
  - exists d2, s2, free2. pose proof C2 as [U2 A2 M2 Acc2 _ _ _]. split_and!; try done; [apply U2| |right; eauto]. intros p Hp. apply Acc2. tauto.
  - destruct (freevm_ok s2 free2 d2 T3 c U2 Hc) as (s3 & free3 & Hrun3 & Hk3 & A3 & F3 & M3). rewrite (bind_Ret _ _ _ _ _ Hrun3).
    exists 0, s3, free3. split_and!; try done; [by eapply vafter_trans| | |by left; split].
    + intros p. rewrite F3, elem_of_cons, !elem_of_app, elem_of_tables. intros [->|[(j & _ & Hj)|Hp]]; apply F2; [left; by left| |tauto].
      left. right. eauto.
    + intros x Hx. rewrite M3; [by apply M2|contradict Hx; apply F2; tauto|contradict Hx; apply F2; tauto].
Qed.

(** C3: copyuvm, the memory part of fork.  The parent's address space is not
    changed.  If there is memory, the result is an address space with the same
    bytes at every address below the size, the same permissions, the kernel's
    mappings, and no page in common with the parent's, so that neither sees
    what the other writes; it is 0 only when there are not more free pages
    than 65 and two for each page. *)
Theorem copyuvm_copies s free d T sz :
  uspace s free d T (fun n => n < npages sz) -> 0 <= sz < KERNBASE ->
  exists r s' free', copyuvm d sz s = Ret r s' /\ uspace s' free' d T (fun n => n < npages sz) /\
    (forall va, 0 <= va < sz -> ubyte s' T va = ubyte s T va) /\
    ((r = 0 /\ Z.of_nat (length free) <= 65 + 2 * npages sz) \/
     exists T2, uspace s' free' r T2 (fun n => n < npages sz) /\
      (forall va, 0 <= va < sz -> ubyte s' T2 va = ubyte s T va) /\
      (forall n, 0 <= n < npages sz -> PTE_FLAGS (pte (vmem s') T2 n) = PTE_FLAGS (pte (vmem s) T n)) /\
      (forall n, UPAGES <= n < 1048576 -> pte (vmem s') T2 n = kpte n) /\
      (forall n n', 0 <= n < npages sz -> 0 <= n' < npages sz -> up (vmem s') T2 n <> up (vmem s') T n')).
Proof.
  intros Hu Hsz. destruct (copyuvm_ok s free d T sz Hu Hsz) as (r & s' & free' & Hrun & Hk & A & F & M & Hor).
  destruct (uspace_other s free d T _ s' free' Hu Hk A F M) as [U K]. exists r, s', free'. split_and!; try done.
  { eapply ukeeps_bytes; try done. lia. }
  destruct Hor as [|(T2 & [U2 _ _ Acc Same Kern _])]; [by left|right]. exists T2. pose proof (npages_UPAGES sz ltac:(lia)) as Hkn.
  split_and!; try done.
  - intros va Hva. unfold ubyte. apply Same; [by apply npages_lt|]. by apply Z.mod_pos_bound.
  - intros n Hn. by apply Same.
  - intros n n' Hn Hn' E. rewrite (ukeeps_up _ _ _ _ _ _ K) in E by lia.
    destruct (us_up _ _ _ _ _ n' Hu ltac:(lia) ltac:(cbv beta; lia)) as (_ & _ & Hf & _). apply Hf, Acc. right. left.
    rewrite elem_of_ups. exists n. split; [lia|done].
Qed.

(** * copyout *)

(** A user page user code may use. *)
Definition upage (s : vst) (T : gmap Z Z) (n : Z) : Prop := has (pte (vmem s) T n) PTE_U = true.

Lemma uva2ka_ok s free d T D n :
  uspace s free d T D -> 0 <= n < UPAGES -> D n -> 
  uva2ka d (4096 * n) s = Ret (if has (pte (vmem s) T n) PTE_U then up (vmem s) T n else 0) s.
Proof.
  intros Hu Hn HD. destruct (walk_user s free d T D n Hu Hn HD) as (t & _ & Hw & Hnz & Hld & Hhas).
  unfold uva2ka. rewrite (bind_Ret _ _ _ _ _ Hw). destruct (Z.eqb_spec (t + 4 * (n mod 1024)) 0) as [|_]; [done|].
  unfold load. rewrite gets_bind, Hld, Hhas. cbn [negb]. by destruct (has (pte (vmem s) T n) PTE_U).
Qed.

(** Bytes written to one page. *)
Lemma place_page s free d T D n o l :
  uspace s free d T D -> 0 <= n < UPAGES -> D n -> 0 <= o -> o + Z.of_nat (length l) <= 4096 ->
  let m := place l (up (vmem s) T n + o) (vmem s) in
  uspace (set_vmem m s) free d T D /\ vafter s (set_vmem m s) /\
  (forall n', 0 <= n' < 1048576 -> pte m T n' = pte (vmem s) T n') /\
  (forall x, pb x <> up (vmem s) T n -> m x = vmem s x) /\
  (forall va, 0 <= va < KERNBASE -> D (va / 4096) -> ubyte (set_vmem m s) T va =
     if decide (4096 * n + o <= va < 4096 * n + o + Z.of_nat (length l)) then nth (Z.to_nat (va - 4096 * n - o)) l 0 else ubyte s T va).
Proof.
  intros Hu Hn HD Ho Hl m. destruct (us_up _ _ _ _ _ n Hu Hn HD) as ([Hp Hpr] & Hpt & Hpf & _). set (p := up (vmem s) T n) in *.
  unfold PGSIZE in Hp.
  assert (forall x, pb x <> p -> m x = vmem s x) as Hm.
  { intros x Hx. unfold m, place. destruct (Z.leb_spec (p + o) x), (Z.ltb_spec x (p + o + Z.of_nat (length l))); simpl; try done.
    destruct Hx. apply pb_page; [done|lia]. }
  assert (forall x, ptpage d T (pb x) -> m x = vmem s x) as Hm1 by (intros x Hx; apply Hm; intros E; by rewrite E in Hx).
  assert (forall x, pb x ∈ free -> m x = vmem s x) as Hm2 by (intros x Hx; apply Hm; intros E; by rewrite E in Hx).
  destruct (vinv_mem s free d T m (us_vinv _ _ _ _ _ Hu) Hm1 Hm2) as [Hv Hpte].
  split_and!; [by apply uspace_mem|by apply vafter_mem; apply Hu|done|done|].
  intros va Hva HDv. pose proof (Z.div_mod va 4096 ltac:(lia)). pose proof (Z.mod_pos_bound va 4096 ltac:(lia)).
  assert (0 <= va / 4096 < UPAGES) as Hvn by (unfold KERNBASE, UPAGES in *; split; [apply Z.div_pos; lia|apply Z.div_lt_upper_bound; lia]).
  unfold ubyte, up. change (vmem (set_vmem m s)) with m. rewrite Hpte by (unfold UPAGES in *; lia). fold (up (vmem s) T (va / 4096)).
  destruct (decide (va / 4096 = n)) as [E|Hne].
  - rewrite E. fold p. unfold m, place. case_decide.
    + destruct (Z.leb_spec (p + o) (p + va mod 4096)), (Z.ltb_spec (p + va mod 4096) (p + o + Z.of_nat (length l))); simpl; try lia. f_equal. lia.
    + destruct (Z.leb_spec (p + o) (p + va mod 4096)), (Z.ltb_spec (p + va mod 4096) (p + o + Z.of_nat (length l))); simpl; done || lia.
  - rewrite decide_False by lia. apply Hm. destruct (us_up _ _ _ _ _ _ Hu Hvn HDv) as ([Hp' _] & _).
    rewrite (pb_page (up (vmem s) T (va / 4096))) by (done || lia). intros E. apply Hne. by apply (us_inj _ _ _ _ _ Hu).
Qed.

Lemma copyout_loop_ok d T np fuel : forall s free va buf,
  uspace s free d T (fun n => n < np) -> np <= UPAGES -> 0 <= va -> va + Z.of_nat (length buf) <= 4096 * np ->
  (forall n, va / 4096 <= n -> 4096 * n < va + Z.of_nat (length buf) -> upage s T n) ->
  (va mod 4096 + Z.of_nat (length buf) + 4095) / 4096 < Z.of_nat fuel ->
  exists s', copyout_loop fuel d va buf (Z.of_nat (length buf)) s = Ret 0 s' /\ uspace s' free d T (fun n => n < np) /\ vafter s s' /\
    (forall n, 0 <= n < 1048576 -> pte (vmem s') T n = pte (vmem s) T n) /\
    (forall x, (forall n, 0 <= n < np -> pb x <> up (vmem s) T n) -> vmem s' x = vmem s x) /\
    (forall a, 0 <= a < 4096 * np -> ubyte s' T a =
       if decide (va <= a < va + Z.of_nat (length buf)) then nth (Z.to_nat (a - va)) buf 0 else ubyte s T a).
Proof.
  induction fuel as [|fuel IH]; intros s free va buf Hu Hnp Hva Hend Hpages Hfuel; [pose proof (Z.mod_pos_bound va 4096); pose proof (Z.div_pos (va mod 4096 + Z.of_nat (length buf) + 4095) 4096); lia|].
  cbn [copyout_loop]. destruct (Z.gtb_spec (Z.of_nat (length buf)) 0) as [Hlen|Hlen]; cbn [negb].
  2: { exists s. split_and!; try done; [apply vafter_refl, Hu|]. intros a Ha. by rewrite decide_False by lia. }
  pose proof (Z.div_mod va 4096 ltac:(lia)). pose proof (Z.mod_pos_bound va 4096 ltac:(lia)).
  set (n := va / 4096) in *. set (o := va mod 4096) in *. assert (0 <= n < np) as Hn by lia. unfold UPAGES in Hnp.
  rewrite PGROUNDDOWN_eq. unfold pb. fold n. rewrite (Z.mul_comm n).
  rewrite (bind_Ret _ _ _ _ _ (uva2ka_ok s free d T _ n Hu ltac:(unfold UPAGES; lia) ltac:(cbv beta; lia))).
  assert (upage s T n) as Hup by (apply Hpages; lia). unfold upage in Hup. rewrite Hup.
  destruct (us_up _ _ _ _ _ n Hu ltac:(unfold UPAGES; lia) ltac:(cbv beta; lia)) as (Hp & _).
  destruct (Z.eqb_spec (up (vmem s) T n) 0) as [E|_]; [apply page_range in Hp; lia|]. rewrite modify_bind.
  replace (va - 4096 * n) with o by lia. unfold PGSIZE. set (k := Z.min (4096 - o) (Z.of_nat (length buf))).
  assert (Z.of_nat (length (take (Z.to_nat k) buf)) = k) as Ek by (rewrite length_take; lia).
  destruct (place_page s free d T _ n o (take (Z.to_nat k) buf) Hu ltac:(unfold UPAGES; lia) ltac:(cbv beta; lia) ltac:(lia) ltac:(lia)) as (U1 & A1 & P1 & M1 & B1).
  rewrite Ek in B1. set (s1 := set_vmem _ s) in *. assert (Z.of_nat (length (drop (Z.to_nat k) buf)) = Z.of_nat (length buf) - k) as Ed by (rewrite length_drop; lia).
  destruct (IH s1 free (4096 * n + 4096) (drop (Z.to_nat k) buf) U1) as (s2 & Hrun & U2 & A2 & P2 & M2 & B2); rewrite ?Ed; try (unfold UPAGES; lia).
  - assert ((4096 * n + 4096) / 4096 = n + 1) as -> by (replace (4096 * n + 4096) with ((n + 1) * 4096) by lia; by apply Z.div_mul).
    intros n' Hn' Hlt. unfold upage. rewrite P1 by lia. apply Hpages; lia.
  - replace ((4096 * n + 4096) mod 4096) with 0 by (replace (4096 * n + 4096) with ((n + 1) * 4096) by lia; by rewrite Z.mod_mul).
    pose proof (Z.div_mod (o + Z.of_nat (length buf) + 4095) 4096). pose proof (Z.mod_pos_bound (o + Z.of_nat (length buf) + 4095) 4096).
    apply Z.div_lt_upper_bound; lia.
  - exists s2. rewrite u32_small by lia. rewrite <- Ed. split; [done|]. rewrite Ed in B2. split_and!; try done.
    + by eapply vafter_trans.
    + intros n' Hn'. by rewrite P2, P1.
    + intros x Hx. rewrite M2; [apply M1, Hx; lia|]. intros n' Hn'. unfold up. rewrite P1 by lia. by apply Hx.
    + intros a Ha. rewrite B2 by done. rewrite B1; [|unfold KERNBASE; lia|apply Z.div_lt_upper_bound; lia].
      rewrite nth_firstn, nth_skipn. repeat case_decide; try lia; [f_equal; lia|].
      destruct (Nat.ltb_spec (Z.to_nat (a - 4096 * n - o)) (Z.to_nat k)); [f_equal; lia|lia].
Qed.

Lemma copyout_fuel va len : 0 <= len -> (va mod 4096 + len + 4095) / 4096 < Z.of_nat (S (S (Z.to_nat (len / PGSIZE + 1)))).
Proof.
  intros H. unfold PGSIZE. pose proof (Z.mod_pos_bound va 4096). pose proof (Z.div_mod len 4096). pose proof (Z.mod_pos_bound len 4096).
  pose proof (Z.div_pos len 4096). apply Z.div_lt_upper_bound; lia.
Qed.

(** Copyout to addresses that are all in pages user code may use returns 0
    and changes exactly the bytes at these addresses, to those given, also
    across pages that are far apart in physical memory; no other byte of the
    address space and no page outside it changes.  If user code may not use
    the first page, as it is with the page below the stack, it returns -1 and
    changes nothing. *)
Theorem copyout_writes s free d T np va buf :
  uspace s free d T (fun n => n < np) -> np <= UPAGES -> 0 <= va -> va + Z.of_nat (length buf) <= 4096 * np ->
  ((forall n, va / 4096 <= n -> 4096 * n < va + Z.of_nat (length buf) -> upage s T n) ->
   exists s', copyout d va buf (Z.of_nat (length buf)) s = Ret 0 s' /\ uspace s' free d T (fun n => n < np) /\
    (forall x, (forall n, 0 <= n < np -> pb x <> up (vmem s) T n) -> vmem s' x = vmem s x) /\
    (forall a, 0 <= a < 4096 * np -> ubyte s' T a =
       if decide (va <= a < va + Z.of_nat (length buf)) then nth (Z.to_nat (a - va)) buf 0 else ubyte s T a)) /\
  (buf <> [] -> ~ upage s T (va / 4096) -> copyout d va buf (Z.of_nat (length buf)) s = Ret (-1) s).
Proof.
  intros Hu Hnp Hva Hend. split.
  - intros Hpages. destruct (copyout_loop_ok d T np _ s free va buf Hu Hnp Hva Hend Hpages (copyout_fuel va _ (Nat2Z.is_nonneg _)))
      as (s' & Hrun & U & _ & _ & M & B). by exists s'.
  - intros Hne Hup. unfold copyout. cbn [copyout_loop]. assert (0 < Z.of_nat (length buf)) by (destruct buf; simpl; [done|lia]).
    destruct (Z.gtb_spec (Z.of_nat (length buf)) 0); [|lia]. cbn [negb]. rewrite PGROUNDDOWN_eq. unfold pb. rewrite (Z.mul_comm (va / 4096)).
    assert (0 <= va / 4096 < np) by (split; [apply Z.div_pos; lia|apply Z.div_lt_upper_bound; lia]).
    rewrite (bind_Ret _ _ _ _ _ (uva2ka_ok s free d T _ (va / 4096) Hu ltac:(lia) ltac:(cbv beta; lia))).
    unfold upage in Hup. by destruct (has _ PTE_U).
Qed.

(** Uva2ka, and with it copyout, of an address whose page table does not
    exist follows the null pointer that walkpgdir returns. *)
Theorem uva2ka_follows_null s free d T va buf :
  vinv s free d T -> 0 <= va < 4294967296 -> va mod 4096 = 0 -> T !! (va / 4096 / 1024) = None -> buf <> [] ->
  uva2ka d va s = Undef "null pointer" /\ copyout d va buf (Z.of_nat (length buf)) s = Undef "null pointer".
Proof.
  intros Hv Hva Hal HT Hne. assert (uva2ka d va s = Undef "null pointer") as E.
  { unfold uva2ka. by rewrite (bind_Ret _ _ _ _ _ (walk_absent s free d T va Hv Hva HT)). }
  split; [done|]. unfold copyout. cbn [copyout_loop]. assert (0 < Z.of_nat (length buf)) by (destruct buf; simpl; [done|lia]).
  destruct (Z.gtb_spec (Z.of_nat (length buf)) 0); [|lia]. cbn [negb]. rewrite PGROUNDDOWN_eq.
  rewrite (pb_page va va) by lia. unfold bind at 1. by rewrite E.
Qed.

(** ** clearpteu *)

Lemma ldiff_sub a b : Z.land a (Z.lnot b) = a - Z.land a b.
Proof.
  rewrite <- Z.ldiff_land. pose proof (Z.lor_ldiff_and a b) as H. pose proof (Z.add_lor_land (Z.ldiff a b) (Z.land a b)) as E.
  rewrite H in E. assert (Z.land (Z.ldiff a b) (Z.land a b) = 0) as E0; [|lia].
  rewrite (Z.land_comm a b), Z.land_assoc. rewrite Z.land_ldiff. apply Z.land_0_l.
Qed.

(** The flags without PTE_U. *)
Lemma clear_U fl : 0 <= fl < 4096 ->
  let fl' := Z.land fl (Z.lnot PTE_U) in
  0 <= fl' < 4096 /\ has fl' PTE_U = false /\ has fl' PTE_P = has fl PTE_P.
Proof.
  intros Hfl fl'. split_and!.
  - unfold fl'. apply Z.land_nonneg. lia.
  - unfold fl'. rewrite ldiff_sub. assert (0 <= Z.land fl PTE_U) by (apply Z.land_nonneg; lia). lia.
  - unfold has, fl'. rewrite <- Z.land_assoc, (Z.land_comm (Z.lnot PTE_U)), Z.land_lnot_diag, Z.land_0_r. done.
  - unfold has, fl'. rewrite <- Z.land_assoc. done.
Qed.

Lemma clearpteu_ok s free d T D n :
  uspace s free d T D -> 0 <= n < UPAGES -> D n ->
  exists s', clearpteu d (4096 * n) s = Ret tt s' /\ uspace s' free d T D /\ vafter s s' /\ ~ upage s' T n /\
    (forall n', 0 <= n' < 1048576 -> n' <> n -> pte (vmem s') T n' = pte (vmem s) T n') /\
    (forall n', 0 <= n' < UPAGES -> D n' -> up (vmem s') T n' = up (vmem s) T n') /\
    (forall x, ~ ptpage d T (pb x) -> vmem s' x = vmem s x).
Proof.
  intros Hu Hn HD. destruct (walk_user s free d T D n Hu Hn HD) as (t & Et & Hw & Hnz & Hld & Hhas).
  destruct (us_up _ _ _ _ _ n Hu Hn HD) as (Hp & Hpt & Hpf & fl & Epte & Hfl). pose proof (V2P_al _ Hp) as [Hpa Hpr].
  destruct (clear_U fl Hfl) as (Hfl' & HU & HP). set (p := up (vmem s) T n) in *. set (fl' := Z.land fl (Z.lnot PTE_U)) in *.
  assert (Z.land (pte (vmem s) T n) (Z.lnot PTE_U) = V2P p + fl') as Eval.
  { rewrite Epte, ldiff_sub, land_add_low by (done || unfold PTE_U; lia). unfold fl'. rewrite ldiff_sub. lia. }
  destruct (pte_put s free d T n t (V2P p + fl') (us_vinv _ _ _ _ _ Hu) ltac:(unfold UPAGES in *; lia) Et) as (Hv & Ha & Hpte & Hm).
  { rewrite V2P_eq by done. apply page_range in Hp. lia. }
  set (m := store32 _ _ _) in *. exists (set_vmem m s).
  assert (forall n', 0 <= n' < UPAGES -> pte m T n' = if decide (n' = n) then V2P p + fl' else pte (vmem s) T n') as Hpte'.
  { intros n' Hn'. apply Hpte. unfold UPAGES in *. lia. }
  assert (forall n', 0 <= n' < UPAGES -> D n' -> up m T n' = up (vmem s) T n') as Hup.
  { intros n' Hn' HD'. unfold up. rewrite Hpte' by done. case_decide as E; [|done]. subst n'.
    rewrite PTE_ADDR_add, P2V_V2P by done. done. }
  split_and!; try done.
  - unfold clearpteu. rewrite (bind_Ret _ _ _ _ _ Hw). destruct (Z.eqb_spec (t + 4 * (n mod 1024)) 0) as [|_]; [done|].
    unfold load, put. rewrite gets_bind, Hld, Eval. done.
  - destruct Hu as [Hv0 Hmap Hpage Hinj]. constructor; [done|..]; change (vmem (set_vmem m s)) with m.
    + intros n' Hn'. unfold mapped. rewrite Hpte' by done. case_decide as E; [|by apply Hmap]. subst n'.
      rewrite has_add, HP by (done || unfold PTE_P; lia). rewrite Epte, has_add in Hhas by (done || unfold PTE_P; lia). done.
    + intros n' Hn' HD'. rewrite Hpte' by done. case_decide as E; [|by apply Hpage]. subst n'. exists p, fl'. done.
    + intros n1 n2 Hn1 Hn2 HD1 HD2. rewrite !Hup by done. by apply Hinj.
  - unfold upage. change (vmem (set_vmem m s)) with m. rewrite Hpte', decide_True by done. rewrite has_add, HU by (done || unfold PTE_U; lia). done.
  - intros n' Hn' Hne. change (vmem (set_vmem m s)) with m. by rewrite Hpte, decide_False.
  - intros x Hx. apply Hm. intros E. apply Hx. right. exists (n / 1024). by rewrite E.
Qed.

(** * A small address space: one user page, one page table, a hundred free pages *)

Definition ev_dir : Z := 0x80200000.
Definition ev_tab : Z := 0x80201000.
Definition ev_page : Z := 0x80202000.
Definition ev_first : Z := 0x80203000.
Definition ev_free : list Z := map (fun i => ev_first + 4096 * i) (seqZ 0 100).
Definition ev_T : gmap Z Z := {[0 := ev_tab]}.
Definition ev_seg : cpuseg := Cpuseg 0 0 0 [] 0 0 0 (0, 0) 0 0 0.
(** The free list: each page but the last begins with the address of the next. *)
Definition ev_links : mem := fun a =>
  if (ev_first <=? a) && (a <? ev_first + 4096 * 99) && (a mod 4096 <? 4) then u8 (Z.shiftr (pb a + 4096) (8 * (a mod 4096))) else 0.
(** The free list, the directory entry, the table entry and a byte of the page. *)
Definition ev_mem : mem := store (store32 (store32 ev_links ev_dir (0x201000 + 7)) ev_tab (0x202000 + 7)) (ev_page + 5) 42.
Definition ev_st : vst := Vst (Kmem mach0 0 ev_first ev_mem) 0 ev_seg [].

Lemma ev_free_pages p : p ∈ ev_free -> page_ok p /\ ev_first <= p.
Proof.
  intros (i & -> & Hi%elem_of_seqZ)%list_elem_of_fmap. unfold page_ok, PGSIZE, end_, KERNBASE, PHYSTOP, ev_first. split; [|lia]. split; [|lia].
  replace (0x80203000 + 4096 * i) with ((0x80203 + i) * 4096) by lia. apply Z.mod_mul. lia.
Qed.

Lemma ev_pages p : p ∈ [ev_dir; ev_tab; ev_page] ++ ev_free -> page_ok p.
Proof.
  intros [H|[? _]%ev_free_pages]%elem_of_app; [|done].
  repeat (apply elem_of_cons in H as [->|H]; [split; vm_compute; intuition congruence|]). by apply not_elem_of_nil in H.
Qed.

Lemma ev_not_free p : p ∈ [ev_dir; ev_tab; ev_page] -> p ∉ ev_free.
Proof.
  intros Hp [_ Hf]%ev_free_pages. unfold ev_first in Hf. repeat (apply elem_of_cons in Hp as [->|Hp]; [unfold ev_dir, ev_tab, ev_page in Hf; lia|]). by apply not_elem_of_nil in Hp.
Qed.

(** A store to the first word of a page. *)
Lemma load_first m p i q v : p mod 4096 = 0 -> q mod 4096 = 0 -> 0 <= i < 1024 -> (p, i) <> (q, 0) ->
  load32 (store32 m q v) (p + 4 * i) = load32 m (p + 4 * i).
Proof. intros Hp Hq Hi Hne. pose proof (load32_store32_ne m p i q 0 v Hp Hq Hi) as H. rewrite Z.mul_0_r, Z.add_0_r in H. apply H; [lia|done]. Qed.

Lemma ev_load p i : p = ev_dir \/ p = ev_tab -> 0 <= i < 1024 -> i <> 0 -> load32 ev_mem (p + 4 * i) = 0.
Proof.
  intros Hp Hi H0. assert (p mod 4096 = 0) as Hm by (by destruct Hp as [->| ->]). unfold ev_mem.
  rewrite (load32_ext (store32 (store32 ev_links ev_dir (0x201000 + 7)) ev_tab (0x202000 + 7))).
  - rewrite !load_first by (done || congruence). rewrite (load32_ext mem0); [done|]. intros x Hx. unfold ev_links.
    destruct (Z.leb_spec ev_first x); [|done]. unfold ev_first, ev_dir, ev_tab in *. lia.
  - intros x Hx. apply store_ne. intros ->. pose proof (word_pb p i (ev_page + 5) Hm Hi Hx) as E. destruct Hp as [->| ->]; by vm_compute in E.
Qed.

Lemma ev_T_Some i t : ev_T !! i = Some t -> 0 = i /\ ev_tab = t.
Proof. apply lookup_singleton_Some. Qed.

Lemma ev_kmem : kmem_ok (v_km ev_st) ev_free.
Proof.
  constructor.
  - vm_compute. repeat split.
  - rewrite Forall_forall. intros p Hp. by apply ev_free_pages.
  - apply (bool_decide_unpack _). vm_compute. exact I.
Qed.

Lemma ev_vinv : vinv ev_st ev_free ev_dir ev_T.
Proof.
  constructor.
  - exact ev_kmem.
  - by left.
  - constructor; [apply ev_pages, elem_of_app; left; left|..].
    + intros i t [<- <-]%ev_T_Some. split; [lia|]. split; [|done]. apply ev_pages, elem_of_app. left. right. left.
    + by intros i t [<- <-]%ev_T_Some.
    + intros i Hi Hn. assert (i <> 0) by (intros ->; done). change (vmem ev_st) with ev_mem. by rewrite ev_load by (done || by left).
    + intros i j t [<- _]%ev_T_Some [<- _]%ev_T_Some. done.
  - intros p [->|[i [_ <-]%ev_T_Some]]; apply ev_not_free; [left|right; left].
Qed.

Lemma ev_pte n : 0 <= n < UPAGES -> pte (vmem ev_st) ev_T n = if decide (n = 0) then 0x202000 + 7 else 0.
Proof.
  intros Hn. unfold pte, ev_T. destruct (decide (n / 1024 = 0)) as [E|E].
  - rewrite E, lookup_singleton_eq. assert (n mod 1024 = n) as -> by (apply Z.mod_small; pose proof (Z.div_mod n 1024); pose proof (Z.mod_pos_bound n 1024); lia).
    case_decide as E0; [by subst n|]. apply ev_load; [by right| |done]. pose proof (Z.div_mod n 1024). pose proof (Z.mod_pos_bound n 1024). lia.
  - rewrite lookup_singleton_ne by done. rewrite decide_False; [done|]. intros ->. by destruct E.
Qed.

Lemma ev_uspace : uspace ev_st ev_free ev_dir ev_T (fun n => n < 1).
Proof.
  constructor; [apply ev_vinv|..].
  - intros n Hn. unfold mapped. rewrite ev_pte by done. case_decide; [subst; done|]. simpl. split; [done|lia].
  - intros n Hn Hlt. exists ev_page, 7. rewrite ev_pte by done. rewrite decide_True by lia. split; [done|]. split; [lia|].
    split; [apply ev_pages, elem_of_app; left; right; right; left|]. split; [intros [H|[i [_ H]%ev_T_Some]]; done|]. apply ev_not_free. right. right. left.
  - intros n n' Hn Hn' Hlt Hlt' _. lia.
Qed.

Lemma ev_free_length : length ev_free = 100%nat.
Proof. reflexivity. Qed.

Lemma allocuvm_grows_witness :
  exists s' free' T', allocuvm ev_dir 100 5000 ev_st = Ret 5000 s' /\ zeroed s' T' (npages 100) (npages 5000) /\
    uspace s' free' ev_dir T' (fun n => n < npages 5000) /\
    (forall va, 0 <= va < 100 -> ubyte s' T' va = ubyte ev_st ev_T va) /\
    (forall x, ~ ptpage ev_dir ev_T (pb x) -> pb x ∉ ev_free -> vmem s' x = vmem ev_st x) /\
    exists used, (forall p, p ∈ used <-> exists i, T' !! i = Some p /\ ev_T !! i = None) /\
      ev_free ≡ₚ used ++ ups (vmem s') T' (npages 100) (npages 5000) ++ free'.
Proof.
  destruct (allocuvm_grows ev_st ev_free ev_dir ev_T 100 5000) as (r & s' & free' & T' & c & E & Hor & H); [exact ev_uspace|lia|vm_compute; reflexivity|].
  destruct Hor as [(-> & -> & Hz)|(_ & _ & Hl)]; [|rewrite ev_free_length in Hl; vm_compute in Hl; by destruct Hl].
  exists s', free', T'. split; [exact E|]. split; [exact Hz|]. exact H.
Defined.

Lemma setupkvm_maps_kernel_witness :
  exists r s' free' used, setupkvm ev_st = Ret r s' /\ ev_free = used ++ free' /\ kmem_ok (v_km s') free' /\
    (forall x, pb x ∉ used -> vmem s' x = vmem ev_st x) /\
    exists T, vinv s' free' r T /\ (forall p, ptpage r T p <-> p ∈ used) /\
      forall n, 0 <= n < 1048576 -> pte (vmem s') T n =
        if decide (0x80000 <= n < 0x80100 \/ 0x80108 <= n < 0x8E000) then 4096 * (n - 0x80000) + 3
        else if decide (0x80100 <= n < 0x80108) then 4096 * (n - 0x80000) + 1
        else if decide (0xFE000 <= n) then 4096 * n + 3 else 0.
Proof.
  destruct (setupkvm_maps_kernel ev_st ev_free) as (r & s' & free' & used & E & Ef & Hk & Hm & Hor); [exact ev_kmem|by left|].
  exists r, s', free', used. split; [exact E|]. split; [exact Ef|]. split; [exact Hk|]. split; [exact Hm|].
  destruct Hor as [(_ & _ & Hl)|H]; [|exact H]. rewrite ev_free_length in Hl. lia.
Defined.

Lemma freevm_returns_every_page_witness :
  exists s' free', freevm ev_dir ev_st = Ret tt s' /\ kmem_ok (v_km s') free' /\
    (forall p, p ∈ free' <-> ptpage ev_dir ev_T p \/ (exists n, 0 <= n < 1 /\ p = up (vmem ev_st) ev_T n) \/ p ∈ ev_free) /\
    (forall x, ~ ptpage ev_dir ev_T (pb x) -> pb x ∉ ups (vmem ev_st) ev_T 0 1 -> vmem s' x = vmem ev_st x).
Proof. apply (freevm_returns_every_page ev_st ev_free ev_dir ev_T 1); [exact ev_uspace|unfold UPAGES; lia]. Defined.

Lemma copyuvm_copies_witness :
  exists r s' free' T2, copyuvm ev_dir 100 ev_st = Ret r s' /\ uspace s' free' ev_dir ev_T (fun n => n < npages 100) /\
    (forall va, 0 <= va < 100 -> ubyte s' ev_T va = ubyte ev_st ev_T va) /\ uspace s' free' r T2 (fun n => n < npages 100) /\
    (forall va, 0 <= va < 100 -> ubyte s' T2 va = ubyte ev_st ev_T va) /\
    (forall n, 0 <= n < npages 100 -> PTE_FLAGS (pte (vmem s') T2 n) = PTE_FLAGS (pte (vmem ev_st) ev_T n)) /\
    (forall n, UPAGES <= n < 1048576 -> pte (vmem s') T2 n = kpte n) /\
    (forall n n', 0 <= n < npages 100 -> 0 <= n' < npages 100 -> up (vmem s') T2 n <> up (vmem s') ev_T n').
Proof.
  destruct (copyuvm_copies ev_st ev_free ev_dir ev_T 100) as (r & s' & free' & E & U & B & Hor); [exact ev_uspace|unfold KERNBASE; lia|].
  destruct Hor as [[_ Hl]|(T2 & H)]; [rewrite ev_free_length in Hl; change (npages 100) with 1 in Hl; lia|].
  exists r, s', free', T2. split; [exact E|]. split; [exact U|]. split; [exact B|]. exact H.
Defined.

Lemma copyout_writes_witness :
  exists s', copyout ev_dir 10 [1; 2; 3] (Z.of_nat (length [1; 2; 3])) ev_st = Ret 0 s' /\ uspace s' ev_free ev_dir ev_T (fun n => n < 1) /\
    (forall x, (forall n, 0 <= n < 1 -> pb x <> up (vmem ev_st) ev_T n) -> vmem s' x = vmem ev_st x) /\
    (forall a, 0 <= a < 4096 * 1 -> ubyte s' ev_T a =
       if decide (10 <= a < 10 + Z.of_nat (length [1; 2; 3])) then nth (Z.to_nat (a - 10)) [1; 2; 3] 0 else ubyte ev_st ev_T a).
Proof.
  apply (copyout_writes ev_st ev_free ev_dir ev_T 1 10 [1; 2; 3]); [exact ev_uspace|unfold UPAGES; lia|lia|simpl; lia|].
  intros n Hn Hlt. change (10 / 4096) with 0 in Hn. simpl in Hlt. assert (n = 0) as -> by lia. vm_compute. reflexivity.
Defined.

Lemma uva2ka_follows_null_witness :
  uva2ka ev_dir 0x400000 ev_st = Undef "null pointer" /\
  copyout ev_dir 0x400000 [0] (Z.of_nat (length [0])) ev_st = Undef "null pointer".
Proof. apply (uva2ka_follows_null ev_st ev_free ev_dir ev_T); [exact ev_vinv|lia|reflexivity|reflexivity|done]. Defined.
