(* ===== verification/Exec.v ===== *)
(** exec (src/xv6-public/exec.c) and loaduvm (vm.c): a program is read from the
    file system into a new address space, its arguments are put on its stack,
    and the process gets it.

    The state is the file system, the memory and the fields of the running
    process that exec sets. *)
From S2P Require Import Prelude CString Spinlock ProcState Kalloc Vm Bytes Bio Log Fs.

Definition ELF_MAGIC : Z := 0x464C457F.
Definition ELF_PROG_LOAD : Z := 1.
Definition MAXARG : Z := 32.
Definition sizeof_elfhdr : Z := 52.
Definition sizeof_proghdr : Z := 32.

(** struct elfhdr and struct proghdr, the fields exec uses. *)
Record elfhdr := Elfhdr { e_magic : Z; e_entry : Z; e_phoff : Z; e_phnum : Z }.
Record proghdr := Proghdr { ph_type : Z; ph_off : Z; ph_vaddr : Z; ph_filesz : Z; ph_memsz : Z }.

Definition get_elfhdr (d : list Z) : option elfhdr :=
  magic ← get_uint d 0; entry ← get_uint d 24; phoff ← get_uint d 28; phnum ← get_ushort d 44;
  Some (Elfhdr magic entry phoff phnum).

Definition get_proghdr (d : list Z) : option proghdr :=
  type ← get_uint d 0; off ← get_uint d 4; vaddr ← get_uint d 8; filesz ← get_uint d 16; memsz ← get_uint d 20;
  Some (Proghdr type off vaddr filesz memsz).

(** What exec sets of the process; [im_name] is the array of 16 bytes. *)
Record image := Image {
  im_sz : Z;
  im_pgdir : Z;
  im_eip : Z;
  im_esp : Z;
  im_name : list Z
}.

Record xst := Xst { x_fs : fss; x_vm : vst; x_kstack : Z; x_im : image }.
Definition set_x_fs v s := Xst v (x_vm s) (x_kstack s) (x_im s).
Definition set_x_vm v s := Xst (x_fs s) v (x_kstack s) (x_im s).
Definition set_x_im v s := Xst (x_fs s) (x_vm s) (x_kstack s) v.

Notation X := (M xst).
Definition xf {A} (c : F A) : X A := zoom x_fs set_x_fs c.
Definition xv {A} (c : M vst A) : X A := zoom x_vm set_x_vm c.

Section Exec.
Context {DEV : Devsw}.

(** The bytes readi has stored over [n] bytes of memory. *)
Definition over (bytes old : list Z) : list Z := bytes ++ drop (length bytes) old.

(** [for(i = 0; i < sz; i += PGSIZE)]; [Some] is the value returned. *)
Fixpoint loaduvm_loop (fuel : nat) (pgdir addr : Z) (ip : nat) (offset sz i : Z) : X Z :=
  match fuel with
  | O => fun s => OutOfFuel s
  | S fuel' =>
      if negb (i <? sz) then ret 0 else
      pte <- xv (walkpgdir pgdir (u32 (addr + i)) false) ;;
      if pte =? 0 then panic "loaduvm: address should exist" else
      e <- xv (load pte) ;;
      let pa := PTE_ADDR e in
      let n := if sz - i <? PGSIZE then sz - i else PGSIZE in
      r <- xf (readi ip (u32 (offset + i)) n) ;;
      xv (modify (fun s => set_vmem (place (snd r) (P2V pa) (vmem s)) s)) ;;
      if negb (u32 (fst r) =? n) then ret (-1)
      else loaduvm_loop fuel' pgdir addr ip offset sz (u32 (i + PGSIZE))
  end.

Definition loaduvm (pgdir addr : Z) (ip : nat) (offset sz : Z) : X Z :=
  if negb (addr mod PGSIZE =? 0) then panic "loaduvm: addr must be page aligned" else
  loaduvm_loop (S (S (Z.to_nat (sz / PGSIZE)))) pgdir addr ip offset sz 0.

(** The header, unless it is bad.  [stk] is what is on the stack where the
    header goes; the count readi returns is compared as an unsigned number. *)
Definition read_elf (ip : nat) (stk : list Z) : X (option elfhdr) :=
  r <- xf (readi ip 0 sizeof_elfhdr) ;;
  if u32 (fst r) <? sizeof_elfhdr then ret None else
  elf <- get_opt "elf" (get_elfhdr (over (snd r) stk)) ;;
  if negb (e_magic elf =? ELF_MAGIC) then ret None else ret (Some elf).

(** The program headers from number [elf.phnum - n] on; [None] is [goto bad]. *)
Fixpoint load_segments (n : nat) (ip : nat) (pgdir off sz : Z) (stk : list Z) : X (option Z) :=
  match n with
  | O => ret (Some sz)
  | S n' =>
      r <- xf (readi ip off sizeof_proghdr) ;;
      if negb (u32 (fst r) =? sizeof_proghdr) then ret None else
      ph <- get_opt "ph" (get_proghdr (over (snd r) stk)) ;;
      let next := u32 (off + sizeof_proghdr) in
      if negb (ph_type ph =? ELF_PROG_LOAD) then load_segments n' ip pgdir next sz stk else
      if ph_memsz ph <? ph_filesz ph then ret None else
      if u32 (ph_vaddr ph + ph_memsz ph) <? ph_vaddr ph then ret None else
      sz <- xv (allocuvm pgdir sz (u32 (ph_vaddr ph + ph_memsz ph))) ;;
      if sz =? 0 then ret None else
      if negb (ph_vaddr ph mod PGSIZE =? 0) then ret None else
      r <- loaduvm pgdir (ph_vaddr ph) ip (ph_off ph) (ph_filesz ph) ;;
      if r <? 0 then ret None else
      load_segments n' ip pgdir next sz stk
  end.

(** The argument strings, from number [length ustack] on: the new stack
    pointer and the addresses of the strings. *)
Fixpoint push_args (pgdir : Z) (argv : list (list Z)) (sp : Z) (ustack : list Z) : V (option (Z * list Z)) :=
  match argv with
  | [] => ret (Some (sp, ustack))
  | arg :: argv' =>
      if Z.of_nat (length ustack) >=? MAXARG then ret None else
      let sp := Z.land (u32 (sp - (Z.of_nat (length arg) + 1))) (Z.lnot 3) in
      r <- copyout pgdir sp (arg ++ [0]) (Z.of_nat (length arg) + 1) ;;
      if r <? 0 then ret None else push_args pgdir argv' sp (ustack ++ [sp])
  end.

(** The words of ustack as bytes. *)
Definition words_bytes (l : list Z) : list Z := flat_map (fun w => le_put 4 (replicate 4 0) 0 w) l.

(** From the user stack to the last copyout; [None] is [goto bad]. *)
Definition make_stack (pgdir sz : Z) (argv : list (list Z)) : V (option (Z * Z)) :=
  let sz := PGROUNDUP sz in
  sz <- allocuvm pgdir sz (u32 (sz + 2 * PGSIZE)) ;;
  if sz =? 0 then ret None else
  clearpteu pgdir (u32 (sz - 2 * PGSIZE)) ;;
  r <- push_args pgdir argv sz [] ;;
  match r with
  | None => ret None
  | Some (sp, args) =>
      let argc := Z.of_nat (length args) in
      let ustack := [0xffffffff; argc; u32 (sp - (argc + 1) * 4)] ++ args ++ [0] in
      let sp := u32 (sp - (3 + argc + 1) * 4) in
      r <- copyout pgdir sp (words_bytes ustack) ((3 + argc + 1) * 4) ;;
      if r <? 0 then ret None else ret (Some (sz, sp))
  end.

(** The last element of a path. *)
Fixpoint last_elem (s last : list Z) : list Z :=
  match s with
  | [] => last
  | c :: s' => last_elem s' (if c =? SLASH then s' else last)
  end.

(** safestrcpy(proc->name, last, sizeof(proc->name)) *)
Definition set_name (name last : list Z) : list Z :=
  region (safestrcpy (place (last ++ [0]) 0x1000 (place name 0 mem0)) 0 0x1000 16) 0 16.

(** Everything between the two labels that may go to [bad] with [ip] locked;
    the result is the size and the entry point. *)
Definition load_program (pgdir : Z) (ip : nat) (elf : elfhdr) (stk : list Z) : X (option Z) :=
  load_segments (Z.to_nat (e_phnum elf)) ip pgdir (e_phoff elf) 0 stk.

Definition bad (pgdir : Z) (ip : option nat) : X Z :=
  (if negb (pgdir =? 0) then xv (freevm pgdir) else ret tt) ;;
  match ip with
  | Some ip => xf (iunlockput ip) ;; xf (lo end_op) ;; ret (-1)
  | None => ret (-1)
  end.

(** The new image is the process's. *)
Definition commit_image (path : list Z) (pgdir sz entry sp : Z) : X Z :=
  im <- gets x_im ;;
  ks <- gets x_kstack ;;
  modify (set_x_im (Image sz pgdir entry sp (set_name (im_name im) (last_elem path path)))) ;;
  xv (switchuvm ks pgdir) ;;
  xv (freevm (im_pgdir im)) ;;
  ret 0.

Definition exec (path : list Z) (argv : list (list Z)) (stk : list Z) : X Z :=
  xf (lo begin_op) ;;
  ip <- xf (namei path) ;;
  match ip with
  | None => xf (lo end_op) ;; ret (-1)
  | Some ip =>
      xf (ilock ip) ;;
      elf <- read_elf ip stk ;;
      match elf with
      | None => bad 0 (Some ip)
      | Some elf =>
          pgdir <- xv setupkvm ;;
          if pgdir =? 0 then bad 0 (Some ip) else
          sz <- load_program pgdir ip elf stk ;;
          match sz with
          | None => bad pgdir (Some ip)
          | Some sz =>
              xf (iunlockput ip) ;;
              xf (lo end_op) ;;
              r <- xv (make_stack pgdir sz argv) ;;
              match r with
              | None => bad pgdir None
              | Some (sz, sp) => commit_image path pgdir sz (e_entry elf) sp
              end
          end
      end
  end.
End Exec.
