(* ===== verification/ExecSpec.v ===== *)
(** What exec does to the process and to its stack. *)
From S2P Require Import Prelude CString Spinlock ProcState Queue Proc Kalloc Vm VmSpec VmUser VmKernel VmCopy Bytes Bio Log Fs FsExample Exec.

(** * The process's image *)

(** Code that does not change the process's image. *)
Definition img {A} (c : X A) : Prop := forall s a s', c s = Ret a s' -> x_im s' = x_im s.

Lemma img_ret {A} (a : A) : img (ret a).
Proof. by intros s b s' [= _ <-]. Qed.

Lemma img_panic {A} msg : img (panic (A := A) msg).
Proof. by intros s b s'. Qed.

Lemma img_bind {A B} (c : X A) (f : A -> X B) : img c -> (forall a, img (f a)) -> img (bind c f).
Proof.
  intros Hc Hf s b s' H. apply bind_Ret_inv in H as (a & s1 & H1 & H2). rewrite (Hf a s1 b s' H2). by eapply Hc.
Qed.

Lemma img_xf {A} (c : F A) : img (xf c).
Proof. by intros s a s' (t & _ & ->)%zoom_Ret_inv. Qed.

Lemma img_xv {A} (c : M vst A) : img (xv c).
Proof. by intros s a s' (t & _ & ->)%zoom_Ret_inv. Qed.

Lemma img_xf_inv {A} (c : F A) s a s' : xf c s = Ret a s' -> x_im s' = x_im s.
Proof. apply img_xf. Qed.

Lemma img_xv_inv {A} (c : M vst A) s a s' : xv c s = Ret a s' -> x_im s' = x_im s.
Proof. apply img_xv. Qed.

Lemma img_get_opt {A} why (o : option A) : img (get_opt why o).
Proof. destruct o; [apply img_ret|by intros s a s']. Qed.

Create HintDb img.
#[export] Hint Resolve img_ret img_panic img_xf img_xv img_get_opt : img.

(** One statement. *)
Ltac img_step :=
  match goal with
  | |- img (bind _ _) => apply img_bind; [|intros ?]
  | |- img (if ?b then _ else _) => destruct b
  | |- img (match ?x with _ => _ end) => destruct x
  | |- img _ => solve [eauto with img]
  end.

Section Image.
Context {DEV : Devsw}.

Lemma img_loaduvm_loop pgdir addr ip offset sz fuel : forall i, img (loaduvm_loop fuel pgdir addr ip offset sz i).
Proof. induction fuel as [|fuel IH]; intros i; [by intros s a s'|]. cbn [loaduvm_loop]. repeat img_step. Qed.

Lemma img_loaduvm pgdir addr ip offset sz : img (loaduvm pgdir addr ip offset sz).
Proof. unfold loaduvm. img_step; [apply img_panic|apply img_loaduvm_loop]. Qed.

Lemma img_load_segments ip pgdir stk n : forall off sz, img (load_segments n ip pgdir off sz stk).
Proof.
  induction n as [|n IH]; intros off sz; cbn [load_segments]; repeat img_step; try apply IH.
  apply img_loaduvm.
Qed.

Lemma img_bad pgdir ip : img (bad pgdir ip).
Proof. unfold bad. repeat img_step. Qed.

Lemma img_read_elf ip stk : img (read_elf ip stk).
Proof. unfold read_elf. repeat img_step. Qed.

Lemma bad_inv pgdir ip s r s' : bad pgdir ip s = Ret r s' -> r = -1 /\ x_im s' = x_im s.
Proof.
  intros H. split; [|by eapply img_bad]. unfold bad in H. apply bind_Ret_inv in H as (? & s1 & _ & H).
  destruct ip; [|by injection H]. apply bind_Ret_inv in H as (? & s2 & _ & H). apply bind_Ret_inv in H as (? & s3 & _ & H). by injection H.
Qed.
End Image.

(** * The check of the header *)

(** The test that the whole header could be read compares the -1 that readi
    returns for an error as an unsigned number, so an error passes it: for a
    device without a driver, exec goes on with whatever is on its stack if
    that looks like a header. *)
Theorem elf_read_error_passes `{DEV : Devsw} ip stk s i elf :
  f_inodes (x_fs s) !! ip = Some i -> i_type i = T_DEV -> dev_read (i_major i) = None ->
  get_elfhdr stk = Some elf -> e_magic elf = ELF_MAGIC ->
  read_elf ip stk s = Ret (Some elf) s.
Proof.
  intros Hi Ht Hd Helf Hm. assert (xf (readi ip 0 sizeof_elfhdr) s = Ret (-1, []) s) as Hr.
  { unfold xf, zoom, readi, inode_at. rewrite (bind_Ret _ _ _ i (x_fs s)).
    - rewrite Ht. cbn [Z.eqb Pos.eqb T_DEV]. rewrite Hd. by destruct (_ || _), s.
    - by rewrite gets_bind, Hi. }
  unfold read_elf. rewrite (bind_Ret _ _ _ _ _ Hr). cbn [fst snd]. change (u32 (-1) <? sizeof_elfhdr) with false. cbv iota.
  change (over [] stk) with stk. rewrite Helf. rewrite (bind_Ret _ _ s elf s) by done. rewrite Hm. done.
Qed.

(** * The arguments on the stack *)

Definition align4 (n : Z) : Z := (n + 3) / 4 * 4.

(** Where the strings go. *)
Fixpoint arg_ptrs (sp : Z) (argv : list (list Z)) : list Z :=
  match argv with
  | [] => []
  | arg :: argv' => let sp' := sp - align4 (Z.of_nat (length arg) + 1) in sp' :: arg_ptrs sp' argv'
  end.

Definition args_size (argv : list (list Z)) : Z := foldr (fun arg n => align4 (Z.of_nat (length arg) + 1) + n) 0 argv.

Lemma align4_spec n : 0 <= n -> n <= align4 n < n + 4 /\ align4 n mod 4 = 0.
Proof.
  intros H. unfold align4. pose proof (Z.div_mod (n + 3) 4). pose proof (Z.mod_pos_bound (n + 3) 4). split; [lia|]. apply Z.mod_mul. lia.
Qed.

Lemma args_size_nonneg argv : 0 <= args_size argv.
Proof. induction argv as [|arg argv IH]; simpl; [done|]. pose proof (align4_spec (Z.of_nat (length arg) + 1)). lia. Qed.

(** * All or nothing *)

(** The string in the array of the name. *)
Definition cname (name : list Z) : list Z := cstr (place name 0 mem0) 0 16.

Lemma cname_set_name name base : length name = 16%nat -> Forall (fun c => c <> 0) base -> cname (set_name name base) = take 15 base.
Proof.
  intros Hn Hb. unfold cname, set_name. set (m := place (base ++ [0]) 0x1000 (place name 0 mem0)).
  rewrite (cstr_ext _ (safestrcpy m 0 0x1000 16)).
  2: { intros x Hx. unfold place, region. rewrite length_map, length_seq. destruct (Z.leb_spec 0 x), (Z.ltb_spec x (0 + Z.of_nat 16)); try lia. cbn [andb].
       rewrite (nth_indep _ 0 (safestrcpy m 0 0x1000 16 (0 + Z.of_nat 0))) by (rewrite length_map, length_seq; lia).
       rewrite (map_nth (fun i => safestrcpy m 0 0x1000 16 (0 + Z.of_nat i)) (seq 0 16) 0%nat), seq_nth by lia. f_equal. lia. }
  destruct (safestrcpy_correct m 0 0x1000 16) as [H _]; [lia|left; lia|]. change (Z.to_nat 16) with 16%nat in H. rewrite H. change (Z.to_nat (16 - 1)) with 15%nat.
  apply cstr_of_nth; [rewrite length_take; lia|by apply Forall_take|]. intros i Hi. unfold m, place. rewrite length_app. cbn [length].
  destruct (Z.leb_spec 0x1000 (0x1000 + Z.of_nat i)); [|lia]. cbn [andb]. replace (Z.to_nat (0x1000 + Z.of_nat i - 0x1000)) with i by lia.
  destruct (decide (i < length base)%nat) as [Hlt|Hge].
  - destruct (Z.ltb_spec (0x1000 + Z.of_nat i) (0x1000 + Z.of_nat (length base + 1))); [|lia]. rewrite app_nth1 by done.
    rewrite <- (take_drop 15 base) at 1. rewrite app_nth1; [done|]. rewrite length_take. lia.
  - rewrite (nth_overflow (take 15 base)) by (rewrite length_take; lia). destruct (Z.ltb_spec (0x1000 + Z.of_nat i) (0x1000 + Z.of_nat (length base + 1))).
    + rewrite app_nth2 by lia. by replace (i - length base)%nat with 0%nat by lia.
    + rewrite Hn. destruct (Z.leb_spec 0 (0x1000 + Z.of_nat i)), (Z.ltb_spec (0x1000 + Z.of_nat i) (0 + Z.of_nat 16)); done || lia.
Qed.

(** [base] is what follows the last slash of [path]. *)
Definition is_base (path base : list Z) : Prop :=
  SLASH ∉ base /\ exists dir, path = dir ++ base /\ (dir = [] \/ last dir = Some SLASH).

Lemma last_elem_cases s : forall l, (SLASH ∉ s /\ last_elem s l = l) \/
  exists dir, s = dir ++ last_elem s l /\ last dir = Some SLASH /\ SLASH ∉ last_elem s l.
Proof.
  induction s as [|c s IH]; intros l; cbn [last_elem]; [left; split; [apply not_elem_of_nil|done]|].
  destruct (IH (if c =? SLASH then s else l)) as [[Hn E]|(dir & E & Hl & Hn)].
  - rewrite E. destruct (Z.eqb_spec c SLASH) as [->|Hne]; [right; by exists [SLASH]|left]. split; [|done]. by rewrite not_elem_of_cons.
  - right. exists (c :: dir). split; [cbn; congruence|]. split; [|done]. by destruct dir.
Qed.

Lemma last_elem_base path : is_base path (last_elem path path).
Proof.
  destruct (last_elem_cases path path) as [[Hn ->]|(dir & E & Hl & Hn)]; (split; [done|]); [by exists []; split; [|left]|exists dir; by split; [|right]].
Qed.

Lemma allocuvm_value pgdir oldsz newsz s r s' : allocuvm pgdir oldsz newsz s = Ret r s' -> r <> 0 ->
  newsz < KERNBASE /\ r = if newsz <? oldsz then oldsz else newsz.
Proof.
  unfold allocuvm. destruct (Z.geb_spec newsz KERNBASE) as [|Hk]; [intros [= <- _]; done|]. destruct (newsz <? oldsz); [by intros [= <- _] _|].
  generalize (S (Z.to_nat ((newsz - PGROUNDUP oldsz) / PGSIZE))) as f. intros f Hr Hnz. split; [done|]. revert Hr.
  generalize (PGROUNDUP oldsz) as a. generalize (S f) as g. intros g. revert s. induction g as [|g IH]; intros s a Hr; [done|]. cbn [allocuvm_loop] in Hr.
  destruct (negb (a <? newsz)); [by injection Hr as <- _|]. apply bind_Ret_inv in Hr as (mem & s1 & _ & Hr). destruct (mem =? 0).
  - apply bind_Ret_inv in Hr as (? & s2 & _ & Hr). apply bind_Ret_inv in Hr as (? & s3 & _ & [= <- _]). done.
  - apply bind_Ret_inv in Hr as (? & s2 & _ & Hr). apply bind_Ret_inv in Hr as (rm & s3 & _ & Hr). destruct (rm <? 0); [|by eapply IH].
    apply bind_Ret_inv in Hr as (? & s4 & _ & Hr). apply bind_Ret_inv in Hr as (? & s5 & _ & Hr). apply bind_Ret_inv in Hr as (? & s6 & _ & [= <- _]). done.
Qed.

(** [(sp - n) & ~3], whatever the width does. *)
Lemma push_sp_wrap sp n : sp mod 4 = 0 -> 0 <= n -> Z.land (u32 (sp - n)) (Z.lnot 3) = u32 (sp - align4 n).
Proof.
  intros Hsp Hn. change 3 with (Z.ones 2). rewrite land_down by lia. change (2 ^ 2) with 4. unfold u32, align4.
  pose proof (Z.div_mod sp 4). pose proof (Z.div_mod (n + 3) 4). pose proof (Z.mod_pos_bound (n + 3) 4). change (2 ^ 32) with 4294967296.
  pose proof (Z.div_mod (sp - n) 4294967296). pose proof (Z.mod_pos_bound (sp - n) 4294967296). set (q := (sp - n) / 4294967296) in *. set (r := (sp - n) mod 4294967296) in *.
  pose proof (Z.div_mod r 4). pose proof (Z.mod_pos_bound r 4). apply Z.mod_unique with q; lia.
Qed.

Lemma u32_mod4 a : u32 a mod 4 = a mod 4.
Proof.
  unfold u32. pose proof (Z.div_mod a 4294967296 ltac:(lia)) as H. rewrite H at 2. replace (4294967296 * (a / 4294967296)) with (1073741824 * (a / 4294967296) * 4) by lia.
  by rewrite Z.add_comm, Z.mod_add.
Qed.

Section Commit.
Context {DEV : Devsw}.

Lemma load_segments_size ip pgdir stk n : forall off sz s sz' s', load_segments n ip pgdir off sz stk s = Ret (Some sz') s' ->
  0 <= sz < KERNBASE -> 0 <= sz' < KERNBASE.
Proof.
  induction n as [|n IH]; intros off sz s sz' s' H Hsz; cbn [load_segments] in H; [by injection H as -> _|].
  apply bind_Ret_inv in H as (r & s1 & _ & H). destruct (negb (_ =? _)); [done|]. apply bind_Ret_inv in H as (ph & s2 & _ & H).
  destruct (negb (ph_type ph =? ELF_PROG_LOAD)); [by eapply IH|]. destruct (_ <? _); [done|]. destruct (_ <? _); [done|].
  apply bind_Ret_inv in H as (sz1 & s3 & Ha & H). destruct (Z.eqb_spec sz1 0) as [|Hnz]; [done|]. destruct (negb (_ =? 0)); [done|].
  apply bind_Ret_inv in H as (r' & s4 & _ & H). destruct (r' <? 0); [done|]. eapply IH; [exact H|].
  apply zoom_Ret_inv in Ha as (v & Ha & _). destruct (allocuvm_value _ _ _ _ _ _ Ha Hnz) as [Hk ->]. pose proof (u32_range (ph_vaddr ph + ph_memsz ph)).
  destruct (_ <? _); lia.
Qed.

Lemma push_args_sp pgdir argv : forall sp ustack s sp' ustack' s', push_args pgdir argv sp ustack s = Ret (Some (sp', ustack')) s' ->
  sp mod 4 = 0 -> u32 sp = sp -> sp' = u32 (sp - args_size argv) /\ length ustack' = (length ustack + length argv)%nat /\
  (argv <> [] -> Z.of_nat (length ustack') <= MAXARG).
Proof.
  induction argv as [|arg argv IH]; intros sp ustack s sp' ustack' s' H Hsp Hu; cbn [push_args args_size foldr length] in *.
  - injection H as <- <- _. rewrite Z.sub_0_r. split_and!; [done|lia|done].
  - destruct (Z.geb_spec (Z.of_nat (length ustack)) MAXARG) as [|Hmax]; [done|]. cbv zeta in H.
    rewrite push_sp_wrap in H by (done || lia). apply bind_Ret_inv in H as (r & s1 & _ & H). destruct (r <? 0); [done|].
    pose proof (align4_spec (Z.of_nat (length arg) + 1) ltac:(lia)) as [_ Ha]. set (al := align4 (Z.of_nat (length arg) + 1)) in *.
    destruct (IH _ _ _ _ _ _ H) as (-> & Hl & Hm); [|unfold u32; by rewrite Z.mod_mod|].
    + rewrite u32_mod4, Zminus_mod, Hsp, Ha. done.
    + rewrite length_app in Hl. cbn [length] in Hl. split_and!; [rewrite u32_sub_l; f_equal; unfold args_size; lia|lia|].
      intros _. destruct argv as [|arg' argv]; [cbn [length] in Hl; lia|by apply Hm].
Qed.

(** The size and the stack pointer do not depend on memory. *)
Lemma make_stack_value pgdir sz argv s sz' sp s' : make_stack pgdir sz argv s = Ret (Some (sz', sp)) s' -> 0 <= sz < KERNBASE ->
  sz' = 4096 * (npages sz + 2) /\ sz' < KERNBASE /\ sp = u32 (sz' - args_size argv - 4 * (Z.of_nat (length argv) + 4)) /\ Z.of_nat (length argv) <= MAXARG.
Proof.
  unfold make_stack, KERNBASE. intros H Hsz. rewrite PGROUNDUP_npages in H by (unfold KERNBASE; lia). pose proof (npages_spec sz ltac:(lia)) as [Hnp0 Hnpz].
  apply bind_Ret_inv in H as (top & s1 & Ha & H). unfold PGSIZE in *. rewrite (u32_small (4096 * npages sz + _)) in Ha by lia.
  destruct (Z.eqb_spec top 0) as [|Hnz]; [done|]. destruct (allocuvm_value _ _ _ _ _ _ Ha Hnz) as [Hk Et]. unfold KERNBASE in Hk.
  destruct (Z.ltb_spec (4096 * npages sz + 2 * 4096) (4096 * npages sz)); [lia|]. apply bind_Ret_inv in H as (? & s2 & _ & H).
  apply bind_Ret_inv in H as ([[sp1 us]|] & s3 & Hp & H); [|done]. cbv zeta in H. apply bind_Ret_inv in H as (r & s4 & _ & H). destruct (r <? 0); [done|].
  injection H as <- <- _. destruct (push_args_sp _ _ _ _ _ _ _ _ Hp) as (-> & Hl & Hm).
  - rewrite Et. replace (4096 * npages sz + 2 * 4096) with ((1024 * npages sz + 2048) * 4) by lia. apply Z.mod_mul. lia.
  - rewrite u32_small; lia.
  - cbn [length] in Hl. rewrite Hl in *. rewrite u32_sub_l. split_and!; [lia|lia|f_equal; lia|]. destruct argv; [done|]. by apply Hm.
Qed.

(** The process after a successful exec: [sz] is what the segments of the file
    take, [base] the last element of the path.  Two pages follow: the guard
    page and the stack, whose top has the argument strings and pointers. *)
Record new_image (im im' : image) (elf : elfhdr) (pgdir sz : Z) (base : list Z) (argv : list (list Z)) : Prop := {
  ni_pgdir : im_pgdir im' = pgdir /\ pgdir <> 0;
  ni_sz : im_sz im' = 4096 * (npages sz + 2) /\ im_sz im' < KERNBASE;
  ni_eip : im_eip im' = e_entry elf;
  ni_esp : im_esp im' = u32 (im_sz im' - args_size argv - 4 * (Z.of_nat (length argv) + 4));
  ni_args : Z.of_nat (length argv) <= MAXARG;
  ni_name : length (im_name im) = 16%nat -> Forall (fun c => c <> 0) base -> cname (im_name im') = take 15 base
}.

Lemma commit_image_inv path pgdir sz entry sp s r s' : commit_image path pgdir sz entry sp s = Ret r s' ->
  r = 0 /\ x_im s' = Image sz pgdir entry sp (set_name (im_name (x_im s)) (last_elem path path)).
Proof.
  unfold commit_image. rewrite !gets_bind, modify_bind. intros H.
  apply bind_Ret_inv in H as (? & s1 & I1%img_xv_inv & H). apply bind_Ret_inv in H as (? & s2 & I2%img_xv_inv & [= <- <-]). by rewrite I2, I1.
Qed.

(** C10: exec either returns -1 and leaves the process with the program, size,
    registers and name it had, or returns 0 and has replaced all of them: the
    file the path names has a header [elf], whose entry point is the new
    instruction pointer; the address space is the one made for it, in which
    its segments, of size [sz], have been loaded; the size is that in whole
    pages and two more; the stack pointer is below the arguments, each rounded
    up to words, and the pointers to them; and the name is the last element of
    the path, cut to 15 bytes. *)
Theorem exec_all_or_nothing path argv stk s r s' :
  exec path argv stk s = Ret r s' ->
  (r = -1 /\ x_im s' = x_im s) \/
  (r = 0 /\ exists ip elf pgdir sz base s1 s2 s3 s4,
     (xf (lo begin_op) ;; xf (namei path)) s = Ret (Some ip) s1 /\ (xf (ilock ip) ;; read_elf ip stk) s1 = Ret (Some elf) s2 /\
     xv setupkvm s2 = Ret pgdir s3 /\ load_program pgdir ip elf stk s3 = Ret (Some sz) s4 /\
     is_base path base /\ new_image (x_im s) (x_im s') elf pgdir sz base argv).
Proof.
  intros H. unfold exec in H.
  apply bind_Ret_inv in H as (? & s1 & H1 & H). apply bind_Ret_inv in H as (ip & s2 & H2 & H).
  pose proof (img_xf_inv _ _ _ _ H1) as I1. pose proof (img_xf_inv _ _ _ _ H2) as I2. destruct ip as [ip|].
  2: { apply bind_Ret_inv in H as (? & s3 & I3%img_xf_inv & [= <- <-]). left. split; congruence. }
  apply bind_Ret_inv in H as (? & s3 & H3 & H). pose proof (img_xf_inv _ _ _ _ H3) as I3. apply bind_Ret_inv in H as (elf & s4 & Helf & H).
  pose proof (img_read_elf ip stk s3 elf s4 Helf) as I4.
  destruct elf as [elf|]; [|apply bad_inv in H as [-> H]; left; split; congruence].
  apply bind_Ret_inv in H as (pgdir & s5 & H5 & H). pose proof (img_xv_inv _ _ _ _ H5) as I5.
  destruct (Z.eqb_spec pgdir 0) as [|Hpg]; [apply bad_inv in H as [-> H]; left; split; congruence|].
  apply bind_Ret_inv in H as (sz & s6 & H6 & H). pose proof (img_load_segments _ _ _ _ _ _ _ _ _ H6) as I6.
  destruct sz as [sz|]; [|apply bad_inv in H as [-> H]; left; split; congruence].
  apply bind_Ret_inv in H as (? & s7 & I7%img_xf_inv & H). apply bind_Ret_inv in H as (? & s8 & I8%img_xf_inv & H).
  apply bind_Ret_inv in H as (r9 & s9 & H9 & H). pose proof (img_xv_inv _ _ _ _ H9) as I9.
  destruct r9 as [[sz' sp]|]; [|apply bad_inv in H as [-> H]; left; split; congruence].
  apply commit_image_inv in H as [-> Him]. right. split; [done|]. apply zoom_Ret_inv in H9 as (v9 & H9 & _).
  pose proof (load_segments_size _ _ _ _ _ _ _ _ _ H6 ltac:(unfold KERNBASE; lia)) as Hsz. destruct (make_stack_value _ _ _ _ _ _ _ H9 Hsz) as (Esz & Hk & Esp & Hargs).
  assert (x_im s9 = x_im s) as I by congruence. exists ip, elf, pgdir, sz, (last_elem path path), s2, s4, s5, s6. split_and!; try done.
  - by rewrite (bind_Ret _ _ _ _ _ H1).
  - by rewrite (bind_Ret _ _ _ _ _ H3).
  - apply last_elem_base.
  - rewrite Him, I. constructor; cbn [im_pgdir im_sz im_eip im_esp im_name]; try done. intros Hn Hb. by apply cname_set_name.
Qed.
End Commit.

(** [(sp - n) & ~3] *)
Lemma push_sp sp n : sp mod 4 = 0 -> 0 <= n -> 0 <= sp - align4 n -> sp < 4294967296 ->
  Z.land (u32 (sp - n)) (Z.lnot 3) = sp - align4 n.
Proof.
  intros Hsp Hn Hlo Hhi. pose proof (align4_spec n Hn) as [Ha _]. rewrite u32_small by lia.
  change 3 with (Z.ones 2). rewrite land_down by lia. change (2 ^ 2) with 4. unfold align4 in *.
  pose proof (Z.div_mod sp 4). pose proof (Z.div_mod (sp - n) 4). pose proof (Z.mod_pos_bound (sp - n) 4).
  pose proof (Z.div_mod (n + 3) 4). pose proof (Z.mod_pos_bound (n + 3) 4). lia.
Qed.

(** The bytes of a list at a user address. *)
Definition bytes_at (s : vst) (T : gmap Z Z) (a : Z) (l : list Z) : Prop :=
  forall k, 0 <= k < Z.of_nat (length l) -> ubyte s T (a + k) = nth (Z.to_nat k) l 0.

Lemma bytes_at_ext s s' T a l :
  (forall x, a <= x < a + Z.of_nat (length l) -> ubyte s' T x = ubyte s T x) -> bytes_at s T a l -> bytes_at s' T a l.
Proof. intros H Hb k Hk. rewrite H by lia. by apply Hb. Qed.

Section Stack.
Context (d : Z) (T : gmap Z Z) (np : Z).
Context (Hnp : 1 <= np) (HnpU : np <= UPAGES).
Notation top := (4096 * np).
Notation base := (4096 * (np - 1)).

(** A copy to the stack page. *)
Lemma stack_copyout s free va buf :
  uspace s free d T (fun n => n < np) -> upage s T (np - 1) -> base <= va -> va + Z.of_nat (length buf) <= top ->
  exists s', copyout d va buf (Z.of_nat (length buf)) s = Ret 0 s' /\ uspace s' free d T (fun n => n < np) /\ vafter s s' /\
    (forall n, 0 <= n < 1048576 -> pte (vmem s') T n = pte (vmem s) T n) /\
    bytes_at s' T va buf /\
    (forall a, 0 <= a < top -> ~ (va <= a < va + Z.of_nat (length buf)) -> ubyte s' T a = ubyte s T a).
Proof using Hnp HnpU.
  intros Hu Hup Hlo Hhi.
  assert (forall n, va / 4096 <= n -> 4096 * n < va + Z.of_nat (length buf) -> upage s T n) as Hpages.
  { intros n Hn Hlt. assert (np - 1 <= va / 4096) by (apply Z.div_le_lower_bound; lia). replace n with (np - 1) by lia. done. }
  destruct (copyout_loop_ok d T np _ s free va buf Hu HnpU ltac:(lia) Hhi Hpages (copyout_fuel va _ (Nat2Z.is_nonneg (length buf))))
    as (s' & Hrun & U & A & P & _ & B).
  exists s'. split_and!; try done.
  - intros k Hk. rewrite B, decide_True by lia. f_equal. lia.
  - intros a Ha Hna. by rewrite B, decide_False by lia.
Qed.

Lemma push_args_ok argv : forall s free sp ustack,
  uspace s free d T (fun n => n < np) -> upage s T (np - 1) -> sp mod 4 = 0 -> base + args_size argv <= sp <= top ->
  Z.of_nat (length ustack + length argv) <= MAXARG ->
  exists s', push_args d argv sp ustack s = Ret (Some (sp - args_size argv, ustack ++ arg_ptrs sp argv)) s' /\
    uspace s' free d T (fun n => n < np) /\ vafter s s' /\
    (forall n, 0 <= n < 1048576 -> pte (vmem s') T n = pte (vmem s) T n) /\
    Forall2 (fun p arg => bytes_at s' T p (arg ++ [0])) (arg_ptrs sp argv) argv /\
    (forall a, 0 <= a < top -> ~ (sp - args_size argv <= a < sp) -> ubyte s' T a = ubyte s T a).
Proof using Hnp HnpU.
  unfold UPAGES in HnpU. induction argv as [|arg argv IH]; intros s free sp ustack Hu Hup Hal Hsp Hmax; cbn [push_args args_size foldr arg_ptrs].
  - exists s. rewrite app_nil_r, Z.sub_0_r. split_and!; try done. apply vafter_refl, Hu.
  - cbn [args_size foldr] in Hsp. fold (args_size argv) in *. set (n := Z.of_nat (length arg) + 1) in *.
    pose proof (align4_spec n ltac:(lia)) as [Ha Ham]. pose proof (args_size_nonneg argv). cbn [length] in Hmax. unfold MAXARG in *.
    destruct (Z.geb_spec (Z.of_nat (length ustack)) 32); [lia|]. rewrite push_sp by lia. set (sp1 := sp - align4 n) in *.
    assert (Z.of_nat (length (arg ++ [0])) = n) as El by (rewrite length_app; simpl; lia). rewrite <- El.
    destruct (stack_copyout s free sp1 (arg ++ [0]) Hu Hup ltac:(lia) ltac:(lia)) as (s1 & Hrun1 & U1 & A1 & P1 & B1 & O1).
    rewrite (bind_Ret _ _ _ _ _ Hrun1). cbn [Z.ltb Z.compare].
    destruct (IH s1 free sp1 (ustack ++ [sp1]) U1) as (s2 & Hrun2 & U2 & A2 & P2 & F2 & O2).
    + unfold upage. rewrite P1 by lia. done.
    + unfold sp1. rewrite Zminus_mod, Hal, Ham. done.
    + lia.
    + rewrite length_app. simpl. lia.
    + exists s2. rewrite Hrun2, <- app_assoc, El. replace (sp1 - args_size argv) with (sp - (align4 n + args_size argv)) by lia.
      split_and!; try done.
      * by eapply vafter_trans.
      * intros k Hk. by rewrite P2, P1.
      * constructor; [|done]. eapply bytes_at_ext; [|exact B1]. intros x Hx. apply O2; lia.
      * intros a Hr Hna. rewrite O2, O1; [done|lia..].
Qed.
End Stack.

(** The 32-bit word at a user address. *)
Definition uword (s : vst) (T : gmap Z Z) (a : Z) : Z :=
  ubyte s T a + 256 * ubyte s T (a + 1) + 65536 * ubyte s T (a + 2) + 16777216 * ubyte s T (a + 3).

Lemma bytes_at_app s T a l1 l2 :
  bytes_at s T a (l1 ++ l2) -> bytes_at s T a l1 /\ bytes_at s T (a + Z.of_nat (length l1)) l2.
Proof.
  intros H. split; intros k Hk.
  - rewrite H by (rewrite length_app; lia). apply app_nth1. lia.
  - rewrite <- Z.add_assoc, H by (rewrite length_app; lia). rewrite app_nth2 by lia. f_equal. lia.
Qed.

Lemma words_at s T l : forall a, Forall (fun w => 0 <= w < 4294967296) l -> bytes_at s T a (words_bytes l) ->
  forall j, 0 <= j < Z.of_nat (length l) -> uword s T (a + 4 * j) = nth (Z.to_nat j) l 0.
Proof.
  induction l as [|w l IH]; intros a Hw Hb j Hj; [simpl in Hj; lia|]. apply Forall_cons in Hw as [Hw Hl].
  cbn [words_bytes flat_map] in Hb. fold (words_bytes l) in Hb. apply bytes_at_app in Hb as [H1 H2].
  destruct (decide (j = 0)) as [->|Hne].
  - change (le_put 4 (replicate 4 0) 0 w) with [w mod 256; w / 256 mod 256; w / 256 / 256 mod 256; w / 256 / 256 / 256 mod 256] in H1.
    unfold uword. rewrite Z.mul_0_r, Z.add_0_r. pose proof (H1 0 ltac:(simpl; lia)) as E0. rewrite Z.add_0_r in E0.
    rewrite E0, (H1 1), (H1 2), (H1 3) by (simpl; lia). change (Z.to_nat 0) with 0%nat. change (Z.to_nat 1) with 1%nat.
    change (Z.to_nat 2) with 2%nat. change (Z.to_nat 3) with 3%nat. cbn [nth].
    clear -Hw. Z.to_euclidean_division_equations. lia.
  - rewrite length_le_put in H2. cbn [length replicate] in H2. replace (Z.to_nat j) with (S (Z.to_nat (j - 1))) by lia. cbn [nth].
    rewrite <- (IH (a + 4) Hl H2 (j - 1)) by (cbn [length] in Hj; lia). f_equal. lia.
Qed.

Lemma length_words_bytes l : Z.of_nat (length (words_bytes l)) = 4 * Z.of_nat (length l).
Proof. induction l as [|w l IH]; [done|]. cbn [words_bytes flat_map]. rewrite length_app, length_le_put. fold (words_bytes l). cbn [length replicate]. lia. Qed.

Lemma length_arg_ptrs argv : forall sp, length (arg_ptrs sp argv) = length argv.
Proof. induction argv as [|arg argv IH]; intros sp; simpl; [done|]. by rewrite IH. Qed.

Lemma arg_ptrs_range argv : forall sp lo hi, lo + args_size argv <= sp <= hi ->
  Forall2 (fun p arg => lo <= p /\ p + Z.of_nat (length arg) + 1 <= hi) (arg_ptrs sp argv) argv.
Proof.
  induction argv as [|arg argv IH]; intros sp lo hi H; simpl; [done|]. cbn [args_size foldr] in H. fold (args_size argv) in H.
  pose proof (align4_spec (Z.of_nat (length arg) + 1) ltac:(lia)). pose proof (args_size_nonneg argv). constructor; [lia|]. apply IH. lia.
Qed.

(** What main finds: the return address, argc, argv, the pointers with a null
    pointer at the end, and the strings. *)
Record main_args (s : vst) (T : gmap Z Z) (sp top : Z) (argv : list (list Z)) : Prop := {
  ma_ret : uword s T sp = 0xffffffff;
  ma_argc : uword s T (sp + 4) = Z.of_nat (length argv);
  ma_argv : uword s T (sp + 8) = sp + 12;
  ma_null : uword s T (sp + 12 + 4 * Z.of_nat (length argv)) = 0;
  ma_strings : forall i arg, argv !! i = Some arg ->
    let p := uword s T (sp + 12 + 4 * Z.of_nat i) in
    sp < p < top /\ bytes_at s T p (arg ++ [0])
}.

Lemma main_args_ok s T sp top argv ptrs :
  let argc := Z.of_nat (length argv) in
  bytes_at s T sp (words_bytes ([0xffffffff; argc; sp + 12] ++ ptrs ++ [0])) ->
  length ptrs = length argv -> argc <= MAXARG -> 0 <= sp -> top < 4294967296 - 12 -> Forall (fun p => sp < p < top) ptrs -> sp < top ->
  Forall2 (fun p arg => bytes_at s T p (arg ++ [0])) ptrs argv ->
  main_args s T sp top argv.
Proof.
  intros argc Hb Hl Hmax Hsp Htop Hp Hst Hs. unfold MAXARG in *. set (l := [0xffffffff; argc; sp + 12] ++ ptrs ++ [0]) in *.
  assert (Forall (fun w => 0 <= w < 4294967296) l) as Hw.
  { unfold l. rewrite !Forall_app, !Forall_cons. split_and!; try lia; try done. eapply Forall_impl; [exact Hp|]. simpl. lia. }
  assert (Z.of_nat (length l) = 4 + argc) as El by (unfold l; rewrite !length_app; simpl; lia).
  pose proof (words_at s T l sp Hw Hb) as W. rewrite El in W.
  assert (forall j, 0 <= j < argc -> uword s T (sp + 12 + 4 * j) = nth (Z.to_nat j) ptrs 0) as Wp.
  { intros j Hj. replace (sp + 12 + 4 * j) with (sp + 4 * (3 + j)) by lia. rewrite W by lia. unfold l.
    rewrite app_nth2 by (simpl; lia). rewrite app_nth1 by (simpl; lia). f_equal. simpl. lia. }
  constructor.
  - by pose proof (W 0 ltac:(lia)) as E; rewrite Z.mul_0_r, Z.add_0_r in E.
  - exact (W 1 ltac:(lia)).
  - exact (W 2 ltac:(lia)).
  - replace (sp + 12 + 4 * Z.of_nat (length argv)) with (sp + 4 * (3 + argc)) by lia. rewrite W by lia. unfold l.
    rewrite !app_nth2 by (simpl; lia). replace (_ - _ - _)%nat with 0%nat by (simpl; lia). done.
  - intros i arg Hi p. pose proof (lookup_lt_Some _ _ _ Hi). destruct (Forall2_lookup_r _ _ _ _ _ Hs Hi) as (q & Hq & Hbq).
    assert (p = q) as ->. { unfold p. rewrite Wp by lia. rewrite Nat2Z.id. by apply nth_lookup_Some. }
    split; [|done]. by eapply (Forall_lookup_1 _ _ _ _ Hp).
Qed.

Lemma npages_mul k : npages (4096 * k) = k.
Proof. unfold npages. replace (4096 * k + 4095) with (4095 + k * 4096) by lia. rewrite Z.div_add by lia. change (4095 / 4096) with 0. lia. Qed.

(** The arguments and the words above them, on a stack page. *)
Lemma push_stack_ok d T np s free argv :
  1 <= np -> np <= UPAGES -> uspace s free d T (fun n => n < np) -> upage s T (np - 1) ->
  Z.of_nat (length argv) <= MAXARG -> args_size argv + 4 * (4 + Z.of_nat (length argv)) <= 4096 ->
  let argc := Z.of_nat (length argv) in let sp0 := 4096 * np - args_size argv in let sp := sp0 - 4 * (4 + argc) in
  exists s1 s2, push_args d argv (4096 * np) [] s = Ret (Some (sp0, arg_ptrs (4096 * np) argv)) s1 /\
    copyout d sp (words_bytes ([0xffffffff; argc; sp + 12] ++ arg_ptrs (4096 * np) argv ++ [0])) (4 * (4 + argc)) s1 = Ret 0 s2 /\
    uspace s2 free d T (fun n => n < np) /\ main_args s2 T sp (4096 * np) argv /\
    (forall n, 0 <= n < 1048576 -> pte (vmem s2) T n = pte (vmem s) T n) /\
    (forall a, 0 <= a < 4096 * (np - 1) -> ubyte s2 T a = ubyte s T a).
Proof.
  intros Hnp HnpU Hu Hup Hargc Hfit argc sp0 sp. pose proof (args_size_nonneg argv). unfold UPAGES in HnpU.
  destruct (push_args_ok d T np Hnp HnpU argv s free (4096 * np) [] Hu Hup) as (s1 & Hrun1 & U1 & A1 & P1 & F1 & O1); [|lia|done|].
  { replace (4096 * np) with (1024 * np * 4) by lia. apply Z.mod_mul. lia. }
  set (ptrs := arg_ptrs (4096 * np) argv) in *. set (l := [0xffffffff; argc; sp + 12] ++ ptrs ++ [0]).
  assert (length ptrs = length argv) as Hl by apply length_arg_ptrs.
  assert (Z.of_nat (length (words_bytes l)) = 4 * (4 + argc)) as El by (rewrite length_words_bytes; unfold l; rewrite !length_app; simpl; lia).
  destruct (stack_copyout d T np Hnp HnpU s1 free sp (words_bytes l) U1) as (s2 & Hrun2 & U2 & A2 & P2 & B2 & O2); [unfold upage; by rewrite P1 by lia|lia..|].
  pose proof (arg_ptrs_range argv (4096 * np) sp0 (4096 * np) ltac:(lia)) as Hfits. fold ptrs in Hfits.
  exists s1, s2. rewrite <- El. split_and!; try done.
  - apply (main_args_ok s2 T sp (4096 * np) argv ptrs); try done || lia.
    + apply Forall_lookup_2. intros i p Hp. destruct (Forall2_lookup_l _ _ _ _ _ Hfits Hp) as (arg & _ & Hr). cbv beta in Hr |- *. lia.
    + apply Forall2_same_length_lookup_2; [done|]. intros i p arg Hp Ha.
      pose proof (Forall2_lookup_lr _ _ _ _ _ _ Hfits Hp Ha) as Hr. cbv beta in Hr. eapply bytes_at_ext; [|exact (Forall2_lookup_lr _ _ _ _ _ _ F1 Hp Ha)].
      rewrite length_app. cbn [length]. intros x Hx. apply O2; lia.
  - intros n Hn. by rewrite P2, P1.
  - intros a Ha. rewrite O2, O1; [done|lia..].
Qed.

(** C22: the stack exec makes.  For arguments that fit on the stack's page, and
    with more than four free pages, the address space grows by two pages, of
    which user code can use the upper one only; the stack pointer is in that
    page, and above it main finds a return address, argc, argv, the pointers
    to the arguments with a null pointer at the end, and each string with its
    NUL, none of them overlapping another.  The program loaded before is not
    touched. *)
Theorem exec_stack_holds_arguments s free d T sz argv :
  uspace s free d T (fun n => n < npages sz) -> 0 <= sz -> 4096 * (npages sz + 2) < KERNBASE ->
  Z.of_nat (length argv) <= MAXARG -> args_size argv + 4 * (4 + Z.of_nat (length argv)) <= 4096 ->
  exists r s', make_stack d sz argv s = Ret r s' /\
    ((r = None /\ Z.of_nat (length free) <= 4) \/
     exists free' T' sp, r = Some (4096 * (npages sz + 2), sp) /\ uspace s' free' d T' (fun n => n < npages sz + 2) /\
       ~ upage s' T' (npages sz) /\ upage s' T' (npages sz + 1) /\ 4096 * (npages sz + 1) <= sp /\
       main_args s' T' sp (4096 * (npages sz + 2)) argv /\
       (forall va, 0 <= va < sz -> ubyte s' T' va = ubyte s T va)).
Proof.
  intros Hu Hsz Hmax Hargc Hfit. set (np := npages sz) in *. pose proof (npages_spec sz Hsz) as [Hnp0 Hnpz]. fold np in Hnp0, Hnpz. unfold KERNBASE in Hmax.
  unfold make_stack. rewrite PGROUNDUP_npages by (unfold KERNBASE; lia). fold np. unfold PGSIZE.
  rewrite (u32_small (4096 * np + 2 * 4096)) by lia. replace (4096 * np + 2 * 4096) with (4096 * (np + 2)) by lia.
  destruct (allocuvm_ok s free d T (4096 * np) (4096 * (np + 2))) as (r & s1 & free1 & T1 & c & Hrun1 & R1 & Hr); [by rewrite npages_mul|lia|unfold KERNBASE; lia|].
  rewrite !npages_mul in *. rewrite (bind_Ret _ _ _ _ _ Hrun1). destruct Hr as [(-> & -> & Hz)|(-> & -> & Hfree)].
  2: { exists None, s1. split; [done|]. left. split; [done|lia]. }
  destruct (Z.eqb_spec (4096 * (np + 2)) 0); [lia|]. rewrite u32_small by lia. replace (4096 * (np + 2) - 2 * 4096) with (4096 * np) by lia.
  pose proof (ra_us _ _ _ _ _ _ _ _ _ _ R1) as U1.
  destruct (clearpteu_ok s1 free1 d T1 _ np U1) as (s2 & Hrun2 & U2 & A2 & G2 & P2 & Up2 & M2); [unfold UPAGES; lia|lia|].
  rewrite (bind_Ret _ _ _ _ _ Hrun2).
  assert (upage s2 T1 (np + 2 - 1)) as Hup.
  { unfold upage. rewrite P2 by lia. destruct (Hz (np + 2 - 1) ltac:(lia)) as [-> _].
    destruct (us_up _ _ _ _ _ (np + 2 - 1) U1 ltac:(unfold UPAGES; lia) ltac:(cbv beta; lia)) as (Hp & _).
    rewrite has_add; [done|apply V2P_al, Hp|lia|unfold PTE_U; lia]. }
  destruct (push_stack_ok d T1 (np + 2) s2 free1 argv ltac:(lia) ltac:(unfold UPAGES; lia) U2 Hup Hargc Hfit) as (s3 & s4 & Hrun3 & Hrun4 & U4 & Ma & P4 & O4).
  rewrite (bind_Ret _ _ _ _ _ Hrun3), length_arg_ptrs. set (argc := Z.of_nat (length argv)) in *. set (sp0 := 4096 * (np + 2) - args_size argv) in *.
  pose proof (args_size_nonneg argv). rewrite !u32_small by lia.
  replace (sp0 - (argc + 1) * 4) with (sp0 - 4 * (4 + argc) + 12) by lia. replace ((3 + argc + 1) * 4) with (4 * (4 + argc)) by lia.
  rewrite (bind_Ret _ _ _ _ _ Hrun4). exists (Some (4096 * (np + 2), sp0 - 4 * (4 + argc))), s4. split; [done|]. right.
  exists free1, T1, (sp0 - 4 * (4 + argc)). split_and!; try done || lia.
  - unfold upage. by rewrite P4 by lia.
  - unfold upage. rewrite P4 by lia. by replace (np + 1) with (np + 2 - 1) by lia.
  - intros va Hva. rewrite O4 by lia. pose proof (npages_lt va sz Hva) as Hn. fold np in Hn. transitivity (ubyte s1 T1 va).
    + unfold ubyte. rewrite Up2 by (unfold UPAGES; lia). apply M2.
      destruct (us_up _ _ _ _ _ (va / 4096) U1 ltac:(unfold UPAGES; lia) ltac:(cbv beta; lia)) as ([Hpa _] & Hpt & _).
      rewrite (pb_page (up (vmem s1) T1 (va / 4096))); [done|done|]. pose proof (Z.mod_pos_bound va 4096). lia.
    + eapply ukeeps_byte; [exact Hu| |lia|cbv beta; lia]. eapply ukeeps_weaken; [|exact (ra_keeps _ _ _ _ _ _ _ _ _ _ R1)]. simpl. lia.
Qed.

(** * Examples *)

#[local] Instance ex_no_devices : Devsw := {| dev_read := fun _ => None; dev_write := fun _ => None |}.
Definition ex_image : image := Image 100 ev_dir 0 100 (replicate 16 0).
Definition ex_x : xst := Xst e_fs ev_st 0x80206000 ex_image.

(** The name is looked up in a file that is not a directory. *)
Lemma exec_all_or_nothing_witness :
  match exec [120] [] [] ex_x with Ret r s' => r = -1 /\ x_im s' = ex_image | _ => False end.
Proof.
  assert (match exec [120] [] [] ex_x with Ret r _ => r =? -1 | _ => false end = true) as Hf by (vm_compute; reflexivity).
  pose proof (exec_all_or_nothing [120] [] [] ex_x) as H. destruct (exec [120] [] [] ex_x) as [r s'| | | | |]; try discriminate Hf.
  destruct (H r s' eq_refl) as [?|(-> & _)]; [done|discriminate Hf].
Defined.

(** A header left on the stack, and an inode of a device that does not exist. *)
Definition ex_header : list Z := [0x7F; 0x45; 0x4C; 0x46] ++ replicate 48 0.
Definition ex_dev : inode := Inode 1 1 1 (Sleeplock 0 0) I_VALID T_DEV 7 0 1 0 (replicate 13 0).
Definition ex_dev_x : xst := set_x_fs (set_f_inodes [ex_dev] e_fs) ex_x.

Lemma elf_read_error_passes_witness : read_elf 0 ex_header ex_dev_x = Ret (Some (Elfhdr ELF_MAGIC 0 0 0)) ex_dev_x.
Proof. apply (elf_read_error_passes 0 ex_header ex_dev_x ex_dev); reflexivity. Defined.

Lemma exec_stack_holds_arguments_witness :
  exists s' free' T' sp, make_stack ev_dir 100 [[104; 105]; [33]] ev_st = Ret (Some (4096 * (npages 100 + 2), sp)) s' /\
    uspace s' free' ev_dir T' (fun n => n < npages 100 + 2) /\
    ~ upage s' T' (npages 100) /\ upage s' T' (npages 100 + 1) /\ 4096 * (npages 100 + 1) <= sp /\
    main_args s' T' sp (4096 * (npages 100 + 2)) [[104; 105]; [33]] /\
    (forall va, 0 <= va < 100 -> ubyte s' T' va = ubyte ev_st ev_T va).
Proof.
  destruct (exec_stack_holds_arguments ev_st ev_free ev_dir ev_T 100 [[104; 105]; [33]]) as (r & s' & E & Hor);
    [exact ev_uspace|lia|vm_compute; reflexivity|vm_compute; discriminate|vm_compute; discriminate|].
  destruct Hor as [[_ Hl]|(free' & T' & sp & -> & H)]; [rewrite ev_free_length in Hl; lia|]. exists s', free', T', sp. split; [exact E|exact H].
Defined.
