(* ===== verification/Trap.v ===== *)
(** Process system calls (src/xv6-public/sysproc.c) and traps (trap.c).

    The arguments of a system call come from the memory of the calling
    process, [u] of [Syscall]. *)
From S2P Require Import Prelude CString Spinlock ProcState Queue Proc Syscall.

Definition T_SYSCALL : Z := 64.
Definition T_IRQ0 : Z := 32.
Definition IRQ_TIMER : Z := 0.
Definition IRQ_KBD : Z := 1.
Definition IRQ_COM1 : Z := 4.
Definition IRQ_IDE : Z := 14.
Definition IRQ_SPURIOUS : Z := 31.

(** What trap calls of the devices (lapic.c, the disk, kbd.c, uart.c). *)
Class IrqOps (E : Type) := {
  cpunum : M (kst E) Z;
  lapiceoi : M (kst E) unit;
  ideintr : M (kst E) unit;
  kbdintr : M (kst E) unit;
  uartintr : M (kst E) unit;
  rcr2 : M (kst E) Z
}.

Section Trap.
Context {E : Type} `{!MemOps E, !FileOps E, !IrqOps E}.
Variable custom : bool.
Notation K := (M (kst E)).

(** * System calls of sysproc.c *)

Definition sys_fork : K Z := fork custom.
Definition sys_exit : K Z := exit custom.
Definition sys_wait (fuel : nat) : K Z := wait custom fuel.

Definition sys_kill (u : user) : K Z :=
  match argint u 0 with
  | None => ret (-1)
  | Some pid => kill custom pid
  end.

Definition sys_getpid : K Z := me <- proc_ ;; x <- proc_at me ;; ret (p_pid x).

Definition sys_sbrk (u : user) : K Z :=
  match argint u 0 with
  | None => ret (-1)
  | Some n =>
      me <- proc_ ;;
      x <- proc_at me ;;
      let addr := p_sz x in
      r <- growproc n ;;
      if r <? 0 then ret (-1) else ret (s32 addr)
  end.

(** [while(ticks - ticks0 < n)], where [n] is converted to [uint]; [fuel]
    bounds the number of times the process may sleep. *)
Fixpoint sys_sleep_loop (fuel : nat) (ticks0 n : Z) : K Z :=
  match fuel with
  | O => fun k => OutOfFuel k
  | S fuel' =>
      t <- gets ticks ;;
      if negb (u32 (t - ticks0) <? u32 n) then machM (release tickslock) ;; ret 0 else
      me <- proc_ ;;
      x <- proc_at me ;;
      if negb (p_killed x =? 0) then machM (release tickslock) ;; ret (-1) else
      sleep ticks_chan tickslock ;;
      sys_sleep_loop fuel' ticks0 n
  end.

Definition sys_sleep (fuel : nat) (u : user) : K Z :=
  match argint u 0 with
  | None => ret (-1)
  | Some n =>
      machM (acquire tickslock) ;;
      t <- gets ticks ;;
      sys_sleep_loop fuel t n
  end.

Definition sys_uptime : K Z :=
  machM (acquire tickslock) ;;
  t <- gets ticks ;;
  machM (release tickslock) ;;
  ret (s32 t).

Definition sys_cps : K Z := cps.

Definition sys_nice (u : user) : K Z :=
  match argint u 0, argint u 1 with
  | Some pid, Some pr => nice custom pid pr
  | _, _ => ret (-1)
  end.

(** * trap *)

Definition exit_if_killed : K unit :=
  me <- proc_ ;; x <- proc_at me ;; if negb (p_killed x =? 0) then exit custom else ret tt.

(** [if(proc && proc->killed && (tf->cs&3) == DPL_USER) exit();] *)
Definition exit_if_killed_user (tf : trapframe) : K unit :=
  c <- machM cpu_ ;;
  match cpu_proc c with
  | None => ret tt
  | Some me => x <- proc_at me ;;
      if negb (p_killed x =? 0) && (Z.land (tf_cs tf) 3 =? 3) then exit custom else ret tt
  end.

Definition timer_tick : K unit :=
  n <- cpunum ;;
  (if n =? 0 then
     machM (acquire tickslock) ;;
     modify (fun k => set_ticks (u32 (ticks k + 1)) k) ;;
     wakeup custom ticks_chan ;;
     machM (release tickslock)
   else ret tt) ;;
  lapiceoi.

Definition unexpected_trap (tf : trapframe) : K unit :=
  c <- machM cpu_ ;;
  n <- cpunum ;;
  a <- rcr2 ;;
  match cpu_proc c with
  | Some me =>
      if Z.land (tf_cs tf) 3 =? 0 then
        cprintf "unexpected trap %d from cpu %d eip %x (cr2=0x%x)\n" [CInt (tf_trapno tf); CInt n; CInt (tf_eip tf); CInt a] ;;
        panic "trap"
      else
        x <- proc_at me ;;
        cprintf "pid %d %s: trap %d err %d on cpu %d eip 0x%x addr 0x%x--kill proc\n"
          [CInt (p_pid x); CStr (p_name x); CInt (tf_trapno tf); CInt (tf_err tf); CInt n; CInt (tf_eip tf); CInt a] ;;
        upd_proc me (set_p_killed 1)
  | None =>
      cprintf "unexpected trap %d from cpu %d eip %x (cr2=0x%x)\n" [CInt (tf_trapno tf); CInt n; CInt (tf_eip tf); CInt a] ;;
      panic "trap"
  end.

(** The switch on the number of an interrupt or exception. *)
Definition trap_switch (tf : trapframe) : K unit :=
  let no := tf_trapno tf in
  if no =? T_IRQ0 + IRQ_TIMER then timer_tick
  else if no =? T_IRQ0 + IRQ_IDE then ideintr ;; lapiceoi
  else if no =? T_IRQ0 + IRQ_IDE + 1 then ret tt
  else if no =? T_IRQ0 + IRQ_KBD then kbdintr ;; lapiceoi
  else if no =? T_IRQ0 + IRQ_COM1 then uartintr ;; lapiceoi
  else if (no =? T_IRQ0 + 7) || (no =? T_IRQ0 + IRQ_SPURIOUS) then
    n <- cpunum ;;
    cprintf "cpu%d: spurious interrupt at %x:%x\n" [CInt n; CInt (tf_cs tf); CInt (tf_eip tf)] ;;
    lapiceoi
  else unexpected_trap tf.

(** [a] is the address of the trap frame, [syscall] the dispatcher. *)
Definition trap (syscall : K unit) (a : Z) (tf : trapframe) : K unit :=
  if tf_trapno tf =? T_SYSCALL then
    exit_if_killed ;;
    me <- proc_ ;;
    upd_proc me (set_p_tf a) ;;
    syscall ;;
    exit_if_killed
  else
    trap_switch tf ;;
    exit_if_killed_user tf ;;
    c <- machM cpu_ ;;
    (match cpu_proc c with
     | None => ret tt
     | Some me => x <- proc_at me ;;
         if bool_decide (p_state x = RUNNING) && (tf_trapno tf =? T_IRQ0 + IRQ_TIMER) then yield custom else ret tt
     end) ;;
    exit_if_killed_user tf.
End Trap.

(** * The interrupt descriptor table *)

Definition SEG_KCODE : Z := 1.
Definition STS_IG32 : Z := 0xE.
Definition STS_TG32 : Z := 0xF.
Definition DPL_USER : Z := 3.

Record gatedesc := Gatedesc {
  off_15_0 : Z;
  gd_cs : Z;
  gd_args : Z;
  gd_rsv1 : Z;
  gd_type : Z;
  gd_s : Z;
  gd_dpl : Z;
  gd_p : Z;
  off_31_16 : Z
}.

Definition SETGATE (istrap sel off d : Z) : gatedesc :=
  Gatedesc (Z.land (u32 off) 0xffff) sel 0 0 (if istrap =? 0 then STS_IG32 else STS_TG32) 0 d 1 (Z.shiftr (u32 off) 16).

(** [vectors] are the addresses of the entry points of vectors.S. *)
Definition tvinit (vectors : list Z) : M machine (list gatedesc) :=
  let idt := map (fun v => SETGATE 0 (Z.shiftl SEG_KCODE 3) v 0) vectors in
  let idt := <[Z.to_nat T_SYSCALL := SETGATE 1 (Z.shiftl SEG_KCODE 3) (nth (Z.to_nat T_SYSCALL) vectors 0) DPL_USER]> idt in
  initlock tickslock "time" ;;
  ret idt.

(** The descriptor of a table of 256 gates at address [idt], as loaded. *)
Definition idtinit (idt : Z) : Z * Z := (256 * 8 - 1, idt).
