(* ===== verification/TrapSpec.v ===== *)
(** Properties of the process system calls and of trap. *)
From S2P Require Import Prelude CString Spinlock ProcState Queue Proc ProcLemmas Switching Syscall Trap.

Section TrapSpec.
Context {E : Type} `{!MemOps E, !FileOps E, !IrqOps E}.
Variable custom : bool.
Implicit Types k : kst E.

(** * sleep *)

Lemma locked_at_holds lk m c l :
  idle_at lk m c l -> ncli c = 0 -> holds_only (locked_at lk m c l) (pushed c) lk (take_lock (this m) l).
Proof.
  intros Hi Hn. constructor; simpl; try done.
  - eapply (lookup_with_cpu m). apply Hi.
  - by rewrite Hn.
  - apply irq_on_pushed.
  - apply lookup_insert_eq.
Qed.

Lemma release_tick k c l : holds_only (mach k) c tickslock l ->
  forall r : Z, exists m l', (machM (release tickslock) ;; ret r) k = Ret r (set_mach m k) /\ locks m !! tickslock = Some l' /\ locked l' = 0.
Proof.
  intros H r. eexists _, (drop_lock l). split.
  - erewrite bind_Ret; [reflexivity|]. apply machM_Ret. apply (release_eq (mach k) c tickslock l); try apply H. rewrite (ho_ncli _ _ _ _ H). lia.
  - split; [apply lookup_insert_eq|done].
Qed.

(** A run that goes on in these states, one each time it is resumed. *)
Fixpoint resumed {A} (o : outcome (kst E) A) (wakes : list (kst E)) : outcome (kst E) A :=
  match wakes, o with
  | s :: wakes', Switch _ kont => resumed (kont s) wakes'
  | _, _ => o
  end.

(** A state in which the scheduler resumes process [me] of the sleep call. *)
Definition resumes (me : nat) (s : kst E) : Prop :=
  exists c lp x l, may_sleep s c ptable_lock lp me x /\ locks (mach s) !! tickslock = Some l /\ locked l = 0.

Definition killed_in (me : nat) (s : kst E) : bool :=
  match ptable s !! me with Some x => negb (p_killed x =? 0) | None => false end.

(** What the call should do, in the state it begins in and those it is resumed
    in: end with 0 in the first in which the time has come, or with -1 in the
    first in which the process is killed, and sleep otherwise. *)
Fixpoint sleep_until (ticks0 n : Z) (me : nat) (s : kst E) (wakes : list (kst E)) : kst E * option Z :=
  if u32 n <=? u32 (ticks s - ticks0) then (s, Some 0)
  else if killed_in me s then (s, Some (-1))
  else match wakes with [] => (s, None) | s' :: wakes' => sleep_until ticks0 n me s' wakes' end.

(** Returned with [v], with tickslock released, or asleep, in a table that is
    that of [s0] but for the process itself. *)
Definition sleep_ends (me : nat) (s0 : kst E) (v : option Z) (o : outcome (kst E) Z) : Prop :=
  exists x0, ptable s0 !! me = Some x0 /\
  match v with
  | Some v => exists s ch l, o = Ret v s /\ ptable s = <[me := set_p_chan ch x0]> (ptable s0) /\ locks (mach s) !! tickslock = Some l /\ locked l = 0
  | None => exists s kont c lp l, o = Switch s kont /\ ptable s = <[me := asleep ticks_chan x0]> (ptable s0) /\
      holds_only (mach s) c ptable_lock lp /\ locks (mach s) !! tickslock = Some l /\ locked l = 0
  end.

Lemma sleep_returns me (s s0 : kst E) c l x0 ch v wakes : may_sleep s c tickslock l me (set_p_chan ch x0) ->
  ptable s0 !! me = Some x0 -> ptable s = <[me := set_p_chan ch x0]> (ptable s0) ->
  sleep_ends me s0 (Some v) (resumed ((machM (release tickslock) ;; ret v) s) wakes).
Proof.
  intros Hm Hx0 Hpt. destruct (release_tick s _ _ (ms_holds _ _ _ _ _ _ Hm) v) as (m & l' & -> & Hl' & Hl0).
  exists x0. split; [done|]. eexists _, ch, l'. by destruct wakes.
Qed.

Lemma sys_sleep_loop_step f ticks0 n me (s : kst E) c l x : may_sleep s c tickslock l me x ->
  sys_sleep_loop (S f) ticks0 n s =
    (if u32 n <=? u32 (ticks s - ticks0) then machM (release tickslock) ;; ret 0
     else if negb (p_killed x =? 0) then machM (release tickslock) ;; ret (-1)
     else sleep ticks_chan tickslock ;; sys_sleep_loop f ticks0 n) s.
Proof.
  intros Hm. cbn [sys_sleep_loop]. rewrite gets_bind, (Z.ltb_antisym (u32 n)), negb_involutive. destruct (u32 n <=? _); [done|].
  erewrite bind_Ret; [|eapply proc_eq; [apply Hm|apply Hm]]. erewrite bind_Ret; [|apply proc_at_eq, Hm]. by destruct (negb _).
Qed.

(** The loop with tickslock held, in state [s] whose table is that of [s0] but
    for the channel of the process. *)
Lemma sys_sleep_loop_ok ticks0 n me wakes : forall f s s0 c l lp x0 ch, may_sleep s c tickslock l me (set_p_chan ch x0) ->
  locks (mach s) !! ptable_lock = Some lp -> locked lp = 0 -> ptable s0 !! me = Some x0 -> ptable s = <[me := set_p_chan ch x0]> (ptable s0) ->
  ticks s = ticks s0 -> Forall (resumes me) wakes -> (length wakes < f)%nat ->
  let '(s1, v) := sleep_until ticks0 n me s0 wakes in sleep_ends me s1 v (resumed (sys_sleep_loop f ticks0 n s) wakes).
Proof.
  induction wakes as [|s1 wakes IH]; intros [|f] s s0 c l lp x0 ch Hm Hlp H0 Hx0 Hpt Ht Hw Hf; [simpl in Hf; lia| |simpl in Hf; lia|];
    rewrite (sys_sleep_loop_step _ _ _ _ _ _ _ _ Hm), Ht; cbn [sleep_until]; unfold killed_in; rewrite Hx0; change (p_killed (set_p_chan ch x0)) with (p_killed x0);
    (destruct (u32 n <=? u32 (ticks s0 - ticks0)); [by eapply sleep_returns|]); (destruct (p_killed x0 =? 0); cbn [negb]; [|by eapply sleep_returns]);
    destruct (sleep_switch s c tickslock l me _ ticks_chan lp Hm ltac:(done) Hlp H0) as (s2 & kont & Hsl & Hps & Hls & (c2 & Hhs) & Hres);
    unfold bind at 1; rewrite Hsl; cbn [obind resumed].
  - exists x0. split; [done|]. eexists s2, _, c2, _, (drop_lock l). split; [done|]. rewrite Hps, Hpt, Hls. split_and!; try done.
    + by rewrite list_insert_insert_eq.
    + apply lookup_insert_eq.
  - apply Forall_cons in Hw as [(c1 & lp1 & x1 & l1 & Hm1 & Hl1 & H1) Hw].
    destruct (Hres s1 c1 lp1 x1 l1 Hm1 Hl1 H1) as (s3 & c3 & Hk3 & Hp3 & Hh3 & Hlp3 & Ht3 & Hme3). rewrite Hk3. cbn [obind].
    eapply (IH f s3 s1 c3 _ (drop_lock lp1) x1 0); try done; [|apply Hm1|simpl in Hf; lia].
    constructor; try done. rewrite Hp3. apply list_lookup_insert_eq. eapply lookup_lt_Some, Hm1.
Qed.

(** C36: the sleep system call, resumed any number of times, whatever happened
    meanwhile: it returns 0 in the first of the states it runs in where that
    many ticks have passed since the call, counted modulo 2^32, and -1 in the
    first before that where the process is killed; in every other it goes back
    to sleep on the tick counter, however often it is woken.  It holds no lock
    when it returns, and ptable.lock alone when it sleeps.  The argument is
    compared as an unsigned number: a negative one waits for the rest of the
    2^32 ticks. *)
Theorem sys_sleep_waits_for_ticks k c lt lp me x u n wakes fuel :
  idle_at tickslock (mach k) c lt -> ncli c = 0 -> cpu_proc c = Some me -> ptable k !! me = Some x ->
  locks (mach k) !! ptable_lock = Some lp -> locked lp = 0 -> argint u 0 = Some n ->
  Forall (resumes me) wakes -> (length wakes < fuel)%nat ->
  let '(s, v) := sleep_until (ticks k) n me k wakes in sleep_ends me s v (resumed (sys_sleep fuel u k) wakes).
Proof.
  intros Hi Hn Hme Hx Hlp H0 Harg Hw Hf. set (k1 := set_mach (locked_at tickslock (mach k) c lt) k).
  assert (machM (acquire tickslock) k = Ret tt k1) as Hacq by (apply machM_Ret; by apply acquire_idle).
  pose proof (locked_at_holds _ _ _ _ Hi Hn) as Hh. change (locked_at tickslock (mach k) c lt) with (mach k1) in Hh.
  assert (sys_sleep fuel u k = sys_sleep_loop fuel (ticks k) n k1) as ->.
  { unfold sys_sleep. rewrite Harg. by rewrite (bind_Ret _ _ _ _ _ Hacq). }
  assert (set_p_chan (p_chan x) x = x) as Hsame by (by destruct x).
  eapply (sys_sleep_loop_ok (ticks k) n me wakes fuel k1 k (pushed c) _ lp x (p_chan x)); try done; rewrite ?Hsame.
  - by constructor.
  - simpl. by rewrite lookup_insert_ne.
  - by rewrite list_insert_id.
Qed.

(** * sbrk *)

(** Giving all memory back with sbrk frees the pages but is reported as an
    error, because deallocuvm's new size 0 is taken for one: the result is -1
    and the recorded size stays, with nothing mapped below it. *)
Theorem sbrk_to_zero_is_reported_as_error k c me x u e' :
  cpus (mach k) !! this (mach k) = Some c -> cpu_proc c = Some me -> ptable k !! me = Some x -> 0 < p_sz x ->
  argint u 0 = Some (- p_sz x) -> deallocuvm (p_pgdir x) (p_sz x) 0 (ext k) = Ret 0 e' ->
  sys_sbrk u k = Ret (-1) (set_ext e' k).
Proof.
  intros Hc Hme Hx Hsz Harg Hde. unfold sys_sbrk. rewrite Harg. assert (proc_ k = Ret me k) as Hproc by (by eapply proc_eq).
  assert (proc_at me k = Ret x k) as Hpx by (by apply proc_at_eq).
  rewrite (bind_Ret _ _ _ _ _ Hproc), (bind_Ret _ _ _ _ _ Hpx).
  assert (extM (deallocuvm (p_pgdir x) (p_sz x) 0) k = Ret 0 (set_ext e' k)) as Hext by (by apply extM_Ret).
  assert (growproc (- p_sz x) k = Ret (-1) (set_ext e' k)) as Hg.
  { unfold growproc. rewrite (bind_Ret _ _ _ _ _ Hproc), (bind_Ret _ _ _ _ _ Hpx).
    destruct (Z.gtb_spec (- p_sz x) 0); [lia|]. destruct (Z.ltb_spec (- p_sz x) 0); [|lia].
    replace (u32 (p_sz x + - p_sz x)) with 0 by (by rewrite Z.add_opp_diag_r).
    erewrite bind_Ret; [|by rewrite (bind_Ret _ _ _ _ _ Hext)]. done. }
  by rewrite (bind_Ret _ _ _ _ _ Hg).
Qed.

(** * trap *)

(** A number trap handles. *)
Definition expected (no : Z) : bool :=
  (no =? T_SYSCALL) || (no =? T_IRQ0 + IRQ_TIMER) || (no =? T_IRQ0 + IRQ_IDE) || (no =? T_IRQ0 + IRQ_IDE + 1) ||
  (no =? T_IRQ0 + IRQ_KBD) || (no =? T_IRQ0 + IRQ_COM1) || (no =? T_IRQ0 + 7) || (no =? T_IRQ0 + IRQ_SPURIOUS).

(** A trap that is neither a system call nor an interrupt of a known device
    panics when it comes from the kernel; when it comes from user code the
    running process is marked killed and exits before user code is resumed. *)
Theorem unexpected_trap_kills k c me x syscall a tf n cr2 :
  expected (tf_trapno tf) = false -> cpus (mach k) !! this (mach k) = Some c -> cpu_proc c = Some me -> ptable k !! me = Some x ->
  (forall k, cpunum k = Ret n k) -> (forall k, rcr2 k = Ret cr2 k) ->
  (Z.land (tf_cs tf) 3 = 0 -> exists k', trap custom syscall a tf k = Panic "trap" k') /\
  (Z.land (tf_cs tf) 3 = 3 -> exists o f,
     trap custom syscall a tf k = obind (exit (A := unit) custom (set_ptable (<[me := set_p_killed 1 x]> (ptable k)) (set_out (out k ++ [o]) k))) f).
Proof.
  intros Hexp Hc Hme Hx Hn Hcr. unfold expected in Hexp. rewrite !orb_false_iff in Hexp. destruct Hexp as (((((((E1 & E2) & E3) & E4) & E5) & E6) & E7) & E8).
  unfold trap, trap_switch. rewrite E1, E2, E3, E4, E5, E6, E7, E8. cbn [orb]. unfold unexpected_trap.
  assert (machM cpu_ k = Ret c k) as Hcpu by (apply machM_same; by apply cpu_eq).
  split; intros Hcs.
  - unfold bind at 1. rewrite (bind_Ret _ _ _ _ _ Hcpu), (bind_Ret _ _ _ _ _ (Hn k)), (bind_Ret _ _ _ _ _ (Hcr k)), Hme, Hcs.
    cbn [Z.eqb]. unfold cprintf. rewrite modify_bind. eexists. done.
  - unfold bind at 1. rewrite (bind_Ret _ _ _ _ _ Hcpu), (bind_Ret _ _ _ _ _ (Hn k)), (bind_Ret _ _ _ _ _ (Hcr k)), Hme, Hcs.
    cbn [Z.eqb]. rewrite (bind_Ret _ _ _ _ _ (proc_at_eq k me x Hx)). unfold cprintf. rewrite modify_bind.
    set (k1 := set_out _ k). rewrite (upd_proc_eq k1 me x) by done. cbn [obind].
    set (k2 := set_ptable _ k1). assert (machM cpu_ k2 = Ret c k2) as Hcpu2 by (apply machM_same; by apply cpu_eq).
    eexists. unfold exit_if_killed_user, bind at 1. rewrite (bind_Ret _ _ _ _ _ Hcpu2), Hme.
    rewrite (bind_Ret _ _ _ _ _ (proc_at_eq k2 me (set_p_killed 1 x) ltac:(simpl; apply list_lookup_insert_eq; by eapply lookup_lt_Some))).
    rewrite Hcs. cbn [p_killed set_p_killed negb Z.eqb Pos.eqb andb]. eexists. done.
Qed.
End TrapSpec.

(** * Examples *)

#[local] Instance irq_none : IrqOps (list Z) := {|
  cpunum := ret 0;
  lapiceoi := ret tt;
  ideintr := ret tt;
  kbdintr := ret tt;
  uartintr := ret tt;
  rcr2 := ret 0x1234
|}.

Definition kst_ticks : kst (list Z) :=
  set_mach (Machine [cpu1] 0 {[ptable_lock := lock1; tickslock := Spinlock 0 "time" None]}) kst1.

(** The first argument is 5, or minus the size of the process. *)
Definition user_5 : user := User 0x1000 0x0f00 0 (place [0; 0; 0; 0; 5; 0; 0; 0] 0x0f00 mem0).
Definition user_back : user := User 0x1000 0x0f00 0 (place [0; 0; 0; 0; 0; 0xf0; 0xff; 0xff] 0x0f00 mem0).

(** The shell is woken after 2 ticks, and after 5. *)
Definition woken_at (t : Z) : kst (list Z) :=
  set_ticks t (set_mach (Machine [Cpu 0 0 1 0 0 (Some 1%nat)] 0 {[ptable_lock := Spinlock 1 "ptable" (Some 0%nat); tickslock := Spinlock 0 "time" None]}) kst1).

Lemma woken_resumes t : resumes 1 (woken_at t).
Proof.
  eexists _, _, shell1, _. split; [constructor; [constructor|..]|]; try (vm_compute; reflexivity || discriminate).
  split; vm_compute; reflexivity.
Qed.

Lemma sys_sleep_waits_for_ticks_witness :
  sleep_ends 1 (woken_at 5) (Some 0) (resumed (sys_sleep 3 user_5 kst_ticks) [woken_at 2; woken_at 5]).
Proof.
  apply (sys_sleep_waits_for_ticks kst_ticks cpu1 (Spinlock 0 "time" None) lock1 1 shell1 user_5 5 [woken_at 2; woken_at 5] 3);
    try (vm_compute; reflexivity || discriminate).
  - split; vm_compute; intuition congruence.
  - repeat constructor; apply woken_resumes.
Defined.

Lemma sbrk_to_zero_is_reported_as_error_witness : sys_sbrk user_back kst1 = Ret (-1) kst1.
Proof.
  apply (sbrk_to_zero_is_reported_as_error kst1 cpu1 1 shell1 user_back (ext kst1)); vm_compute; reflexivity.
Defined.

(** A page fault in the kernel and one in user code. *)
Definition fault (cs : Z) : trapframe := Trapframe 0 0 0 0 0 0 0 0 0 0 0 0 14 0 0 cs 0 0 0.

Lemma unexpected_trap_kills_witness :
  (exists k', trap false (ret tt) 0x4fb4 (fault 8) kst1 = Panic "trap" k') /\
  (exists o f, trap false (ret tt) 0x4fb4 (fault 0x23) kst1 =
     obind (exit (A := unit) false (set_ptable (<[1%nat := set_p_killed 1 shell1]> (ptable kst1)) (set_out (out kst1 ++ [o]) kst1))) f).
Proof.
  split.
  - by apply (unexpected_trap_kills false kst1 cpu1 1 shell1 (ret tt) 0x4fb4 (fault 8) 0 0x1234).
  - by apply (unexpected_trap_kills false kst1 cpu1 1 shell1 (ret tt) 0x4fb4 (fault 0x23) 0 0x1234).
Defined.
