(* ===== verification/Grep.v ===== *)
(** grep (src/xv6-public/grep.c): the matcher, the line loop and main.  A string
    is the list of its bytes without the NUL; the buffer is the part of [buf]
    from [p] to [buf + m], which a NUL follows. *)
From S2P Require Import Prelude CString.

Definition CARET : Z := 94.
Definition DOLLAR : Z := 36.
Definition STAR : Z := 42.
Definition DOT_ : Z := 46.
Definition NL : Z := 10.

(** * The matcher *)

(** The loop of matchstar, with [here] for [matchhere(re, text)]. *)
Fixpoint matchstar_loop (here : list Z -> bool) (c : Z) (text : list Z) : bool :=
  if here text then true else
  match text with
  | [] => false
  | t :: text' => if (t =? c) || (c =? DOT_) then matchstar_loop here c text' else false
  end.

Fixpoint matchhere (re text : list Z) : bool :=
  match re with
  | [] => true
  | c :: re1 =>
      match re1 with
      | s :: re2 =>
          if s =? STAR then matchstar_loop (matchhere re2) c text else
          match text with
          | [] => false
          | t :: text' => if (c =? DOT_) || (c =? t) then matchhere re1 text' else false
          end
      | [] =>
          if c =? DOLLAR then bool_decide (text = []) else
          match text with
          | [] => false
          | t :: text' => if (c =? DOT_) || (c =? t) then matchhere re1 text' else false
          end
      end
  end.

Definition matchstar (c : Z) (re text : list Z) : bool := matchstar_loop (matchhere re) c text.

Fixpoint match_loop (re text : list Z) : bool :=
  if matchhere re text then true else
  match text with
  | [] => false
  | _ :: text' => match_loop re text'
  end.

Definition match_ (re text : list Z) : bool :=
  match re with
  | c :: re1 => if c =? CARET then matchhere re1 text else match_loop re text
  | [] => match_loop re text
  end.

(** * The line loop *)

(** [strchr] of ulib.c: the position of [c], looked for up to the NUL. *)
Fixpoint strchr (s : list Z) (c : Z) : option nat :=
  match s with
  | [] => None
  | b :: s' => if b =? 0 then None else if b =? c then Some O else S <$> strchr s' c
  end.

(** What is to be read from a descriptor, in the pieces in which it comes: a
    read returns at most what is left of one piece, and 0 at the end. *)
Definition read (n : nat) (inp : list (list Z)) : list Z * list (list Z) :=
  match inp with
  | [] => ([], [])
  | c :: rest => (take n c, match drop n c with [] => rest | c' => c' :: rest end)
  end.

(** The inner loop: the lines printed, and what is left at [p]. *)
Fixpoint grep_lines (fuel : nat) (pattern s : list Z) : list Z * list Z :=
  match fuel with
  | O => ([], s)
  | S fuel' =>
      match strchr s NL with
      | None => ([], s)
      | Some k =>
          let line := take k s in
          let (out, p) := grep_lines fuel' pattern (drop (S k) s) in
          ((if match_ pattern line then line ++ [NL] else []) ++ out, p)
      end
  end.

(** [buf] are the [m] bytes kept.  [None]: out of fuel. *)
Fixpoint grep_loop (fuel : nat) (pattern : list Z) (inp : list (list Z)) (buf : list Z) : option (list Z) :=
  match fuel with
  | O => None
  | S fuel' =>
      let (n, inp') := read (1024 - length buf - 1) inp in
      if bool_decide (n = []) then Some [] else
      let s := buf ++ n in
      let (out, p) := grep_lines (length s) pattern s in
      let buf' := if Nat.eqb (length p) (length s) then [] else p in
      app out <$> grep_loop fuel' pattern inp' buf'
  end.

Definition total (inp : list (list Z)) : nat := length (concat inp).

Definition grep (pattern : list Z) (inp : list (list Z)) : option (list Z) := grep_loop (S (total inp)) pattern inp [].

(** What is written, with the descriptors it is written to.  [open_] gives what
    can be read from a file that can be opened. *)
Fixpoint grep_files (open_ : list Z -> option (list (list Z))) (pattern : list Z) (files : list (list Z)) : option (list (Z * list Z)) :=
  match files with
  | [] => Some []
  | f :: files' =>
      match open_ f with
      | None => Some [(1, bytes "grep: cannot open " ++ f ++ [NL])]
      | Some inp =>
          out ← grep pattern inp;
          rest ← grep_files open_ pattern files';
          Some ((1, out) :: rest)
      end
  end.

(** [args] are the arguments behind the name of the program. *)
Definition grep_main (open_ : list Z -> option (list (list Z))) (stdin : list (list Z)) (args : list (list Z)) : option (list (Z * list Z)) :=
  match args with
  | [] => Some [(2, bytes "usage: grep pattern [file ...]" ++ [NL])]
  | [pattern] => out ← grep pattern stdin; Some [(1, out)]
  | pattern :: files => grep_files open_ pattern files
  end.

(** * What a pattern means *)

Inductive atom := One (c : Z) | Many (c : Z).

(** The pattern without a leading ^, and whether it ends in $. *)
Fixpoint parse (re : list Z) : list atom * bool :=
  match re with
  | [] => ([], false)
  | c :: re1 =>
      match re1 with
      | s :: re2 => if s =? STAR then let (l, e) := parse re2 in (Many c :: l, e) else let (l, e) := parse re1 in (One c :: l, e)
      | [] => if c =? DOLLAR then ([], true) else ([One c], false)
      end
  end.

Definition char_ok (c t : Z) : Prop := c = DOT_ \/ c = t.

(** The strings of a sequence of atoms. *)
Inductive denotes : list atom -> list Z -> Prop :=
| den_nil : denotes [] []
| den_one c l t s : char_ok c t -> denotes l s -> denotes (One c :: l) (t :: s)
| den_many c l r s : Forall (char_ok c) r -> denotes l s -> denotes (Many c :: l) (r ++ s).
#[export] Hint Constructors denotes : core.

(** [re] matches at the beginning of the text. *)
Definition matches_here (re text : list Z) : Prop :=
  exists s rest, text = s ++ rest /\ denotes (parse re).1 s /\ ((parse re).2 = true -> rest = []).

Lemma char_okb c t : (c =? DOT_) || (c =? t) = true <-> char_ok c t.
Proof. unfold char_ok. rewrite orb_true_iff, !Z.eqb_eq. tauto. Qed.

Lemma char_okb' c t : (t =? c) || (c =? DOT_) = true <-> char_ok c t.
Proof. unfold char_ok. rewrite orb_true_iff, !Z.eqb_eq. naive_solver. Qed.

Lemma matchstar_loop_iff here c text :
  matchstar_loop here c text = true <-> exists r rest, text = r ++ rest /\ Forall (char_ok c) r /\ here rest = true.
Proof.
  induction text as [|t text IH]; simpl; destruct (here _) eqn:Hh.
  - split; [|done]. intros _. by exists [], [].
  - split; [done|]. intros (r & rest & [-> ->]%symmetry%app_nil & _ & Hr). congruence.
  - split; [|done]. intros _. by exists [], (t :: text).
  - destruct ((t =? c) || (c =? DOT_)) eqn:Hc.
    + rewrite IH. apply char_okb' in Hc. split.
      * intros (r & rest & -> & Hr & H). exists (t :: r), rest. auto.
      * intros ([|t' r] & rest & E & Hr & H); simpl in E; [subst rest; congruence|]. injection E as -> ->.
        inversion Hr. eauto.
    + split; [done|]. intros ([|t' r] & rest & E & Hr & H); simpl in E; [subst rest; congruence|]. injection E as -> ->.
      inversion_clear Hr as [|? ? Ht]. apply char_okb' in Ht. congruence.
Qed.

(** One atom more. *)
Lemma denotes_one_inv c l e text :
  (exists s rest, text = s ++ rest /\ denotes (One c :: l) s /\ (e = true -> rest = [])) <->
  match text with
  | [] => False
  | t :: text' => char_ok c t /\ exists s rest, text' = s ++ rest /\ denotes l s /\ (e = true -> rest = [])
  end.
Proof.
  split.
  - intros (s & rest & -> & Hd & He). inversion Hd; subst. simpl. split; [done|]. by eexists _, rest.
  - destruct text as [|t text]; [done|]. intros (Hc & s & rest & -> & Hd & He). exists (t :: s), rest. split_and!; [done|by constructor|done].
Qed.

Lemma denotes_many_inv c l e text :
  (exists s rest, text = s ++ rest /\ denotes (Many c :: l) s /\ (e = true -> rest = [])) <->
  exists r text', text = r ++ text' /\ Forall (char_ok c) r /\ exists s rest, text' = s ++ rest /\ denotes l s /\ (e = true -> rest = []).
Proof.
  split.
  - intros (s & rest & -> & Hd & He). inversion Hd as [| |? ? r s' Hr Hs]; subst. exists r, (s' ++ rest). split_and!; [by rewrite app_assoc|done|by exists s', rest].
  - intros (r & ? & -> & Hr & s & rest & -> & Hd & He). exists (r ++ s), rest. split_and!; [by rewrite app_assoc|by constructor|done].
Qed.

Lemma one_step (P : Prop) c t b : (b = true <-> P) -> (if (c =? DOT_) || (c =? t) then b else false) = true <-> char_ok c t /\ P.
Proof. intros H. rewrite <- char_okb, <- H. destruct (_ || _); naive_solver. Qed.

Lemma parse_cons c s re : parse (c :: s :: re) =
  if s =? STAR then (Many c :: (parse re).1, (parse re).2) else (One c :: (parse (s :: re)).1, (parse (s :: re)).2).
Proof. unfold parse at 1; fold parse. destruct (s =? STAR); [by destruct (parse re)|]. change (match re with [] => if s =? DOLLAR then ([], true) else ([One s], false) | s0 :: re2 => if s0 =? STAR then let (l, e) := parse re2 in (Many s :: l, e) else let (l, e) := parse re in (One s :: l, e) end) with (parse (s :: re)). by destruct (parse (s :: re)). Qed.

Lemma matchhere_cons c s re text : matchhere (c :: s :: re) text =
  if s =? STAR then matchstar_loop (matchhere re) c text else
  match text with [] => false | t :: text' => if (c =? DOT_) || (c =? t) then matchhere (s :: re) text' else false end.
Proof. done. Qed.

Lemma matchhere_iff re : forall text, matchhere re text = true <-> matches_here re text.
Proof.
  unfold matches_here. remember (length re) as n eqn:Hn. revert re Hn.
  induction n as [n IH] using lt_wf_ind. intros re -> text. destruct re as [|c [|s re2]].
  - simpl. split; [|done]. intros _. by exists [], text.
  - cbn [matchhere parse]. destruct (Z.eqb_spec c DOLLAR).
    + rewrite bool_decide_eq_true. simpl. split; [intros ->; by exists [], []|]. intros (s & rest & -> & Hd & He). inversion Hd. auto.
    + simpl fst; simpl snd. rewrite denotes_one_inv. destruct text as [|t text]; [done|]. apply one_step.
      split; [intros _; by exists [], text|done].
  - rewrite matchhere_cons, parse_cons. destruct (Z.eqb_spec s STAR) as [_|_]; simpl fst; simpl snd.
    + pose proof (IH (length re2) ltac:(simpl; lia) re2 eq_refl) as H2.
      rewrite matchstar_loop_iff, denotes_many_inv. by setoid_rewrite H2.
    + pose proof (IH (length (s :: re2)) ltac:(simpl; lia) (s :: re2) eq_refl) as H1.
      rewrite denotes_one_inv. destruct text as [|t text]; [done|]. apply one_step, H1.
Qed.

Lemma match_loop_iff re text : match_loop re text = true <-> exists pre post, text = pre ++ post /\ matches_here re post.
Proof.
  induction text as [|t text IH]; simpl; destruct (matchhere re _) eqn:Hh.
  - split; [|done]. intros _. exists [], []. by apply matchhere_iff in Hh.
  - split; [done|]. intros (pre & post & [-> ->]%symmetry%app_nil & H%matchhere_iff). congruence.
  - split; [|done]. intros _. exists [], (t :: text). by apply matchhere_iff in Hh.
  - rewrite IH. split.
    + intros (pre & post & -> & H). by exists (t :: pre), post.
    + intros ([|t' pre] & post & E & H); simpl in E; [subst post; apply matchhere_iff in H; congruence|]. injection E as -> ->. eauto.
Qed.

(** C20: the backtracking matcher decides what a pattern means: match is true
    exactly when the text has a part, at its beginning if the pattern starts
    with ^ and up to its end if it ends in $, that is a sequence of
    characters as the pattern's, with any number of them for a character
    followed by a star and any character for a dot. *)
Theorem match_decides_pattern re text :
  match_ re text = true <->
  match re with
  | c :: re1 => if c =? CARET then matches_here re1 text else exists pre post, text = pre ++ post /\ matches_here re post
  | [] => exists pre post, text = pre ++ post /\ matches_here [] post
  end.
Proof.
  unfold match_. destruct re as [|c re]; [apply match_loop_iff|]. destruct (_ =? _); [apply matchhere_iff|apply match_loop_iff].
Qed.

(** * Printing the lines that match *)

(** A line without its newline. *)
Definition text_line (l : list Z) : Prop := Forall (fun b => b <> 0 /\ b <> NL) l.

Definition joined (ls : list (list Z)) : list Z := concat (map (fun l => l ++ [NL]) ls).

Lemma joined_cons l ls : joined (l :: ls) = l ++ NL :: joined ls.
Proof. unfold joined. simpl. by rewrite <- app_assoc. Qed.

Lemma joined_app ls1 ls2 : joined (ls1 ++ ls2) = joined ls1 ++ joined ls2.
Proof. unfold joined. by rewrite map_app, concat_app. Qed.

Lemma joined_length ls : (length ls <= length (joined ls))%nat.
Proof. induction ls as [|l ls IH]; [done|]. rewrite joined_cons, length_app. simpl. lia. Qed.

Lemma strchr_line l r : text_line l -> strchr (l ++ NL :: r) NL = Some (length l).
Proof.
  induction 1 as [|b l [H0 Hn] _ IH]; [done|]. simpl. destruct (Z.eqb_spec b 0); [done|]. destruct (Z.eqb_spec b NL); [done|].
  by rewrite IH.
Qed.

Lemma strchr_none l : text_line l -> strchr l NL = None.
Proof.
  induction 1 as [|b l [H0 Hn] _ IH]; [done|]. simpl. destruct (Z.eqb_spec b 0); [done|]. destruct (Z.eqb_spec b NL); [done|].
  by rewrite IH.
Qed.

Lemma no_newline l a r : text_line l -> l = a ++ NL :: r -> False.
Proof. intros H ->. apply Forall_app in H as [_ H]. inversion_clear H as [|? ? [_ Hn]]. done. Qed.

Lemma grep_lines_ok pattern part ls : text_line part -> Forall text_line ls -> forall fuel, (length ls <= fuel)%nat ->
  grep_lines fuel pattern (joined ls ++ part) = (joined (filter (fun l => match_ pattern l = true) ls), part).
Proof.
  intros Hp. induction 1 as [|l ls Hl _ IH]; intros fuel Hf.
  - destruct fuel; [done|]. simpl. by rewrite strchr_none.
  - destruct fuel as [|fuel]; [simpl in Hf; lia|]. rewrite joined_cons, <- app_assoc. simpl. rewrite strchr_line by done.
    rewrite take_app_length. rewrite (drop_app_ge _ _ (S (length l))) by lia. replace (S (length l) - length l)%nat with 1%nat by lia.
    simpl. rewrite IH by (simpl in Hf; lia). rewrite filter_cons. case_decide as Hm.
    + rewrite Hm, joined_cons. by rewrite <- app_assoc.
    + destruct (match_ pattern l); done.
Qed.

(** A beginning of the lines is some whole lines and a beginning of the next. *)
Lemma split_prefix last ls : text_line last -> Forall text_line ls -> forall s t, s ++ t = joined ls ++ last ->
  exists ls1 ls2 part, ls = ls1 ++ ls2 /\ s = joined ls1 ++ part /\ text_line part /\ part ++ t = joined ls2 ++ last.
Proof.
  intros Hlast. induction 1 as [|l ls Hl Hls IH]; intros s t E.
  - exists [], [], s. split_and!; try done. simpl in E. rewrite <- E in Hlast. by apply Forall_app in Hlast as [? _].
  - rewrite joined_cons, <- app_assoc in E. destruct (app_eq_inv _ _ _ _ E) as [(k & -> & Ek)|(k & -> & Et)].
    + destruct k as [|b k]; simpl in Ek.
      * exists [], (l :: ls), l. rewrite app_nil_r, joined_cons, <- app_assoc. cbn [app]. by rewrite <- Ek.
      * injection Ek as <- Ek. destruct (IH k t ltac:(done)) as (ls1 & ls2 & part & -> & -> & Hp & Ep).
        exists (l :: ls1), ls2, part. by rewrite joined_cons, <- app_assoc.
    + exists [], ((s ++ k) :: ls), s. apply Forall_app in Hl as [Hs _]. rewrite joined_cons, Et, <- !app_assoc. done.
Qed.

Definition pieces (data : list Z) : list (list Z) := match data with [] => [] | _ => [data] end.

Lemma joined_text ls last : text_line (joined ls ++ last) -> ls = [].
Proof. destruct ls as [|l ls]; [done|]. rewrite joined_cons, <- app_assoc. intros H. by destruct (no_newline _ _ _ H eq_refl). Qed.

Lemma grep_loop_ok pattern fuel : forall ls last buf data,
  Forall (fun l => text_line l /\ (length l <= 1022)%nat) ls -> text_line last -> buf ++ data = joined ls ++ last ->
  text_line buf -> (length buf <= 1022)%nat -> (length data < fuel)%nat ->
  grep_loop fuel pattern (pieces data) buf = Some (joined (filter (fun l => match_ pattern l = true) ls)).
Proof.
  induction fuel as [|fuel IH]; intros ls last buf data Hls Hlast E Hbuf Hlen Hf; [lia|].
  assert (Forall text_line ls) as Htl by (eapply Forall_impl; [exact Hls|naive_solver]).
  destruct data as [|b0 data0]; [|set (data := b0 :: data0) in *].
  { simpl. rewrite app_nil_r in E. rewrite E in Hbuf. by rewrite (joined_text _ _ Hbuf). }
  set (k := (1024 - length buf - 1)%nat). assert (read k (pieces data) = (take k data, pieces (drop k data))) as Hrd.
  { unfold pieces, read. simpl. by destruct (drop k data). }
  cbn [grep_loop]. fold k. rewrite Hrd. rewrite bool_decide_eq_false_2 by (subst k; destruct (1024 - length buf - 1)%nat eqn:?; [lia|done]).
  destruct (split_prefix last ls Hlast Htl (buf ++ take k data) (drop k data)) as (ls1 & ls2 & part & -> & Es & Hp & Ep).
  { by rewrite <- app_assoc, take_drop. }
  apply Forall_app in Htl as [Ht1 Ht2]. apply Forall_app in Hls as [Hl1 Hl2].
  rewrite Es, (grep_lines_ok pattern part ls1 Hp Ht1) by (rewrite length_app; pose proof (joined_length ls1); lia).
  rewrite filter_app, joined_app. assert (length (drop k data) < fuel)%nat by (rewrite length_drop; subst k data; cbn [length] in *; lia).
  assert (length (joined ls1 ++ part) <= 1023)%nat as Hmax by (rewrite <- Es, length_app, length_take; lia).
  destruct (Nat.eqb_spec (length part) (length (joined ls1 ++ part))) as [Heq|Hne].
  - assert (ls1 = []) as ->.
    { destruct ls1 as [|l1 ls1]; [done|]. rewrite joined_cons, !length_app in Heq. simpl in Heq. lia. }
    simpl in *. destruct ls2 as [|l ls2].
    + rewrite (IH [] (drop k data) [] (drop k data)); [done|constructor| |done|constructor|simpl; lia|done].
      simpl in Ep. rewrite <- Ep in Hlast. by apply Forall_app in Hlast as [_ ?].
    + exfalso. rewrite joined_cons, <- app_assoc in Ep. apply Forall_cons in Hl2 as [[_ Hl] _]. destruct (app_eq_inv _ _ _ _ Ep) as [(r & -> & Er)|(r & -> & Er)].
      * destruct r as [|b r]; simpl in Er; [|injection Er as <- _; by eapply no_newline].
        rewrite app_nil_r in Es. assert (length (buf ++ take k data) = length l) as Hq by (by rewrite Es).
        rewrite length_app, length_take in Hq. assert (drop k data <> []) as Hd by (rewrite <- Er; done). 
        apply Hd, nil_length_inv. rewrite length_drop. lia.
      * assert (length (buf ++ take k data) <= 1022)%nat as Hq by (rewrite Es; rewrite length_app in Hl; lia).
        rewrite length_app, length_take in Hq. assert (drop k data <> []) as Hd by (rewrite Er; by destruct r).
        apply Hd, nil_length_inv. rewrite length_drop. lia.
  - rewrite (IH ls2 last part (drop k data)); try done. assert (length part <= length (joined ls1 ++ part))%nat by (rewrite length_app; lia). lia.
Qed.

(** Grep prints exactly the lines that match, in order and each once, when
    it reads a file without NUL bytes whose lines are of at most 1022 bytes; a
    last line without a newline is not printed. *)
Theorem grep_prints_matching_lines pattern ls last :
  Forall (fun l => text_line l /\ (length l <= 1022)%nat) ls -> text_line last ->
  grep pattern (pieces (joined ls ++ last)) = Some (joined (filter (fun l => match_ pattern l = true) ls)).
Proof.
  intros Hls Hlast. unfold grep. apply (grep_loop_ok pattern _ ls last); try done; [constructor|simpl; lia|].
  unfold total, pieces. destruct (joined ls ++ last); simpl; rewrite ?app_nil_r; lia.
Qed.

(** "abc" in a line, and one that does not match. *)
Lemma grep_prints_matching_lines_witness :
  grep [97; 46; 42; 99; 36] (pieces (joined [[97; 98; 99]; [99; 97]; [97; 99]] ++ [97; 99])) = Some (joined [[97; 98; 99]; [97; 99]]).
Proof. apply (grep_prints_matching_lines [97; 46; 42; 99; 36] [[97; 98; 99]; [99; 97]; [97; 99]] [97; 99]); repeat constructor; done || (simpl; lia). Defined.

(** A file of whole lines that can be opened. *)
Definition text_file (open_ : list Z -> option (list (list Z))) (f : list Z) (ls : list (list Z)) : Prop :=
  open_ f = Some (pieces (joined ls)) /\ Forall (fun l => text_line l /\ (length l <= 1022)%nat) ls.

(** grep with files prints, for each file in order, its lines that match, until
    it comes to a file that it cannot open, of which it complains, leaving out
    the files behind. *)
Theorem grep_main_greps_files open_ stdin pattern files texts bad more :
  Forall2 (text_file open_) files texts -> open_ bad = None ->
  let out := map (fun ls => (1, joined (filter (fun l => match_ pattern l = true) ls))) texts in
  (files <> [] -> grep_main open_ stdin (pattern :: files) = Some out) /\
  grep_main open_ stdin (pattern :: files ++ bad :: more) = Some (out ++ [(1, bytes "grep: cannot open " ++ bad ++ [NL])]).
Proof.
  intros Hf Hbad out.
  assert (forall tl r, grep_files open_ pattern tl = Some r -> grep_files open_ pattern (files ++ tl) = Some (out ++ r)) as H.
  { intros tl r Htl. subst out. induction Hf as [|f ls files texts [Ho Hls] Hf IH]; [done|]. cbn [app grep_files map]. rewrite Ho.
    pose proof (grep_prints_matching_lines pattern ls [] Hls ltac:(constructor)) as E. rewrite app_nil_r in E. rewrite E. cbn [mbind option_bind].
    by rewrite IH. }
  split.
  - intros Hne. specialize (H [] [] eq_refl). rewrite !app_nil_r in H. rewrite <- H. by destruct files.
  - rewrite <- (H (bad :: more) [(1, bytes "grep: cannot open " ++ bad ++ [NL])]); [by destruct files|]. cbn [grep_files]. by rewrite Hbad.
Qed.

Lemma grep_main_greps_files_witness :
  let open_ f := if bool_decide (f = [102]) then Some [[97; 98; 10; 99; 10]] else None in
  grep_main open_ [] [[98]; [102]; [103]; [102]] = Some [(1, [97; 98; 10]); (1, bytes "grep: cannot open " ++ [103; 10])].
Proof.
  intros open_. refine (proj2 (grep_main_greps_files open_ [] [98] [[102]] [[[97; 98]; [99]]] [103] [[102]] _ _)); [|done].
  repeat constructor; done || (simpl; lia).
Defined.

(** A line that comes in two pieces, as from a pipe, is lost: what has been
    read of it is forgotten because it has no newline yet. *)
Lemma grep_forgets_partial_line : grep [97; 98] [[97]; [98; 10]] = Some [].
Proof. vm_compute. reflexivity. Qed.
