(* ===== verification/Ulib.v ===== *)
(** The library of the user programs (src/xv6-public/ulib.c and printf.c), over
    the memory of [CString].  What printf writes is the list of the bytes it
    passes to write, one at a time; [ap] are the words after the format on the
    stack of its caller.  Loops that run to a NUL take fuel. *)
From S2P Require Import Prelude CString.

(** * ulib.c *)

(** The memory afterwards; the result is [s]. *)
Fixpoint strcpy (fuel : nat) (m : mem) (s t : Z) : option mem :=
  match fuel with
  | O => None
  | S f => let m' := store m s (m t) in if m t =? 0 then Some m' else strcpy f m' (s + 1) (t + 1)
  end.

Fixpoint strcmp (fuel : nat) (m : mem) (p q : Z) : option Z :=
  match fuel with
  | O => None
  | S f => if negb (m p =? 0) && (m p =? m q) then strcmp f m (p + 1) (q + 1) else Some (m p - m q)
  end.

Definition strlen (fuel : nat) (m : mem) (s : Z) : option Z := strlen_loop m s 0 fuel.

Definition memset (m : mem) (dst c n : Z) : mem := stosb m dst c (Z.to_nat n).

(** The address found, or 0. *)
Fixpoint strchr (fuel : nat) (m : mem) (s c : Z) : option Z :=
  match fuel with
  | O => None
  | S f => if m s =? 0 then Some 0 else if m s =? c then Some s else strchr f m (s + 1) c
  end.

(** The loop of gets: [n] more bytes fit before the NUL, [inp] is what read
    still has to give. *)
Fixpoint gets_loop (m : mem) (a : Z) (n : nat) (inp : list Z) : mem * Z * list Z :=
  match n, inp with
  | S n', c :: inp' =>
      let m' := store m a c in
      if (c =? 10) || (c =? 13) then (m', a + 1, inp') else gets_loop m' (a + 1) n' inp'
  | _, _ => (m, a, inp)
  end.

Definition gets_ (m : mem) (buf max : Z) (inp : list Z) : mem * list Z :=
  let '(m, a, inp) := gets_loop m buf (Z.to_nat (max - 1)) inp in
  (store m a 0, inp).

(** The digits are added in [int] arithmetic that wraps around. *)
Fixpoint atoi_loop (fuel : nat) (m : mem) (s n : Z) : option Z :=
  match fuel with
  | O => None
  | S f => if (48 <=? m s) && (m s <=? 57) then atoi_loop f m (s + 1) (s32 (n * 10 + m s - 48)) else Some n
  end.

Definition atoi (fuel : nat) (m : mem) (s : Z) : option Z := atoi_loop fuel m s 0.

Definition memmove (m : mem) (vdst vsrc n : Z) : mem := copy_up m vdst vsrc (Z.to_nat n).

(** * printf.c *)

Definition digits : list Z := [48; 49; 50; 51; 52; 53; 54; 55; 56; 57; 65; 66; 67; 68; 69; 70].

(** The loop that fills [buf], which holds 16 bytes: [None] if it is too
    small. *)
Fixpoint digits_loop (fuel : nat) (x base : Z) (buf : list Z) : option (list Z) :=
  match fuel with
  | O => None
  | S f =>
      if (16 <=? length buf)%nat then None else
      d ← arr_get digits (x mod base);
      let buf := buf ++ [d] in
      let x := x / base in
      if negb (x =? 0) then digits_loop f x base buf else Some buf
  end.

Definition printint (xx base : Z) (sgn : bool) : option (list Z) :=
  let neg := sgn && (xx <? 0) in
  let x := if neg then u32 (- xx) else u32 xx in
  buf ← digits_loop 16 x base [];
  buf ← (if neg then if (16 <=? length buf)%nat then None else Some (buf ++ [45]) else Some buf);
  Some (reverse buf).

Definition null_string : list Z := [40; 110; 117; 108; 108; 41].

(** The loop for %s. *)
Fixpoint put_string (fuel : nat) (m : mem) (s : Z) : option (list Z) :=
  match fuel with
  | O => None
  | S f => if m s =? 0 then Some [] else cons (m s) <$> put_string f m (s + 1)
  end.

(** One character of the format; [percent] is [state == '%'].  The bytes
    written, the next state and the words used. *)
Definition printf_char (fuel : nat) (m : mem) (ap : nat -> Z) (i : nat) (percent : bool) (c : Z) : option (list Z * bool * nat) :=
  if negb percent then
    if c =? 37 then Some ([], true, i) else Some ([c], false, i)
  else if c =? 100 then o ← printint (s32 (ap i)) 10 true; Some (o, false, S i)
  else if (c =? 120) || (c =? 112) then o ← printint (s32 (ap i)) 16 false; Some (o, false, S i)
  else if c =? 115 then
    o ← (if ap i =? 0 then Some null_string else put_string fuel m (ap i)); Some (o, false, S i)
  else if c =? 99 then Some ([u8 (ap i)], false, S i)
  else if c =? 37 then Some ([c], false, i)
  else Some ([37; c], false, i).

Fixpoint printf_loop (fuel : nat) (m : mem) (fmt : list Z) (ap : nat -> Z) (i : nat) (percent : bool) : option (list Z) :=
  match fmt with
  | [] => Some []
  | c :: fmt' =>
      '(o, percent', i') ← printf_char fuel m ap i percent c;
      app o <$> printf_loop fuel m fmt' ap i' percent'
  end.

Definition printf (fuel : nat) (m : mem) (fmt : list Z) (ap : nat -> Z) : option (list Z) := printf_loop fuel m fmt ap 0 false.

(** * Numbers *)

Definition digit_value (d : Z) : Z := if d <=? 57 then d - 48 else d - 55.

(** The value of a string of digits, on top of [n]. *)
Definition value (b n : Z) (ds : list Z) : Z := fold_left (fun n d => n * b + digit_value d) ds n.

Definition digit (b d : Z) : Prop := exists i, 0 <= i < b /\ arr_get digits i = Some d.

Lemma value_app b n ds es : value b n (ds ++ es) = value b (value b n ds) es.
Proof. apply fold_left_app. Qed.

Lemma digits_lookup i : 0 <= i < 16 -> exists d, arr_get digits i = Some d /\ digit_value d = i /\ 0 < d < 256.
Proof.
  intros H. assert (i = 0 \/ i = 1 \/ i = 2 \/ i = 3 \/ i = 4 \/ i = 5 \/ i = 6 \/ i = 7 \/ i = 8 \/ i = 9 \/ i = 10 \/ i = 11 \/
    i = 12 \/ i = 13 \/ i = 14 \/ i = 15) as Hi by lia.
  repeat destruct Hi as [->|Hi]; try (by eexists). subst. by eexists.
Qed.

Lemma digit_10 d : digit 10 d <-> 48 <= d <= 57.
Proof.
  split.
  - intros (i & Hi & Hd). assert (i = 0 \/ i = 1 \/ i = 2 \/ i = 3 \/ i = 4 \/ i = 5 \/ i = 6 \/ i = 7 \/ i = 8 \/ i = 9) as Hc by lia.
    repeat destruct Hc as [->|Hc]; try (injection Hd as <-; lia). subst. injection Hd as <-. lia.
  - intros H. exists (d - 48). split; [lia|]. assert (d = 48 \/ d = 49 \/ d = 50 \/ d = 51 \/ d = 52 \/ d = 53 \/ d = 54 \/ d = 55 \/ d = 56 \/ d = 57) as Hc by lia.
    repeat destruct Hc as [->|Hc]; try done. by subst.
Qed.

Lemma value_10 n d ds : digit 10 d -> value 10 n (d :: ds) = value 10 (n * 10 + d - 48) ds.
Proof.
  intros H%digit_10. change (value 10 n (d :: ds)) with (value 10 (n * 10 + digit_value d) ds). f_equal. unfold digit_value.
  destruct (Z.leb_spec d 57); lia.
Qed.

Lemma value_bounds ds : forall n, 0 <= n -> Forall (digit 10) ds -> n <= value 10 n ds.
Proof.
  induction ds as [|d ds IH]; intros n Hn H; [simpl; lia|]. apply Forall_cons in H as [Hd H]. rewrite value_10 by done.
  apply digit_10 in Hd. specialize (IH (n * 10 + d - 48) ltac:(lia) H). lia.
Qed.

(** atoi reads a number that fits in an [int]. *)
Lemma atoi_loop_value ds : forall fuel m s n, (length ds < fuel)%nat -> 0 <= n -> Forall (digit 10) ds -> value 10 n ds <= INT_MAX ->
  (forall i d, ds !! i = Some d -> m (s + Z.of_nat i) = d) -> ~ digit 10 (m (s + Z.of_nat (length ds))) ->
  atoi_loop fuel m s n = Some (value 10 n ds).
Proof.
  induction ds as [|d ds IH]; intros fuel m s n Hf Hn Hd Hv Hm He; (destruct fuel as [|fuel]; [simpl in Hf; lia|]); cbn [atoi_loop].
  - simpl in He. rewrite Z.add_0_r, digit_10 in He. destruct (Z.leb_spec 48 (m s)), (Z.leb_spec (m s) 57); simpl; lia || done.
  - apply Forall_cons in Hd as [Hd Hds]. assert (m s = d) as -> by (rewrite <- (Hm 0%nat d eq_refl); f_equal; lia).
    rewrite value_10 in * by done. apply digit_10 in Hd. destruct (Z.leb_spec 48 d), (Z.leb_spec d 57); try lia. cbn [andb].
    pose proof (value_bounds ds (n * 10 + d - 48) ltac:(lia) Hds). unfold INT_MAX in *.
    rewrite (s32_id (n * 10 + d - 48)) by (unfold INT_MIN, INT_MAX; lia). apply IH; try done; [simpl in Hf; lia|lia| |].
    + intros i e Hi. rewrite <- (Hm (S i) e Hi). f_equal. lia.
    + intros HH. apply He. cbn [length]. by replace (s + Z.of_nat (S (length ds))) with (s + 1 + Z.of_nat (length ds)) by lia.
Qed.

(** The digits come out last first, [k] of them at most for a number below
    the [k]th power of the base. *)
Lemma digits_loop_ok b k : 2 <= b <= 16 -> forall fuel x buf, (k <= fuel)%nat -> (length buf + k <= 16)%nat -> 0 <= x < b ^ Z.of_nat k -> (0 < k)%nat ->
  exists ds, digits_loop fuel x b buf = Some (buf ++ ds) /\ Forall (digit b) ds /\ (0 < length ds <= k)%nat /\ value b 0 (reverse ds) = x.
Proof.
  intros Hbase. induction k as [|k IH]; intros fuel x buf Hf Hb Hx Hk; [lia|]. destruct fuel as [|fuel]; [lia|]. cbn [digits_loop].
  destruct (Nat.leb_spec 16 (length buf)); [lia|]. pose proof (Z.mod_pos_bound x b ltac:(lia)).
  destruct (digits_lookup (x mod b) ltac:(lia)) as (d & Hd & Hdv & _). rewrite Hd. cbn [mbind option_bind].
  assert (digit b d) as Hdig by (by exists (x mod b)). pose proof (Z.div_mod x b ltac:(lia)). destruct (Z.eqb_spec (x / b) 0) as [E|E]; cbn [negb].
  - exists [d]. split_and!; [done|by apply Forall_singleton|simpl; lia..|]. change (value b 0 (reverse [d])) with (0 * b + digit_value d). lia.
  - rewrite Nat2Z.inj_succ, Z.pow_succ_r in Hx by lia. assert (x / b < b ^ Z.of_nat k) by (apply Z.div_lt_upper_bound; lia).
    pose proof (Z.div_pos x b ltac:(lia) ltac:(lia)). assert (0 < k)%nat by (destruct k; [simpl in *; lia|lia]).
    destruct (IH fuel (x / b) (buf ++ [d])) as (ds & -> & Hds & Hl & Hv); [lia|rewrite length_app; simpl; lia|lia|lia|].
    exists (d :: ds). rewrite <- app_assoc. split_and!; [done|by constructor|simpl; lia..|].
    rewrite reverse_cons, value_app, Hv. change (value b (x / b) [d]) with (x / b * b + digit_value d). lia.
Qed.

(** What printf prints for %d and %x. *)
Definition decimal (xx : Z) (o : list Z) : Prop :=
  exists ds, o = (if xx <? 0 then [45] else []) ++ ds /\ Forall (digit 10) ds /\ (0 < length ds <= 10)%nat /\ value 10 0 ds = Z.abs xx.
Definition hexadecimal (xx : Z) (o : list Z) : Prop := Forall (digit 16) o /\ (0 < length o <= 8)%nat /\ value 16 0 o = u32 xx.

Lemma printint_decimal xx : INT_MIN <= xx <= INT_MAX -> exists o, printint xx 10 true = Some o /\ decimal xx o.
Proof.
  unfold INT_MIN, INT_MAX. intros Hx. unfold printint. cbn [andb]. set (x := if xx <? 0 then u32 (- xx) else u32 xx).
  assert (x = Z.abs xx) as Ex by (subst x; destruct (Z.ltb_spec xx 0); rewrite u32_small; lia).
  destruct (digits_loop_ok 10 10 ltac:(lia) 16 x []) as (ds & -> & Hd & Hl & Hv); [lia|simpl; lia|rewrite Ex; simpl; lia|lia|].
  cbn [app mbind option_bind]. unfold decimal. destruct (Z.ltb_spec xx 0).
  - destruct (Nat.leb_spec 16 (length ds)); [lia|]. cbn [mbind option_bind]. eexists. split; [done|]. exists (reverse ds).
    rewrite reverse_snoc, length_reverse. split_and!; [done|by apply Forall_reverse|lia..|congruence].
  - eexists. split; [done|]. exists (reverse ds). rewrite length_reverse. split_and!; [done|by apply Forall_reverse|lia..|congruence].
Qed.

Lemma printint_hexadecimal xx : exists o, printint xx 16 false = Some o /\ hexadecimal xx o.
Proof.
  unfold printint. cbn [andb]. pose proof (u32_range xx).
  destruct (digits_loop_ok 16 8 ltac:(lia) 16 (u32 xx) []) as (ds & -> & Hd & Hl & Hv); [lia|simpl; lia|simpl; lia|lia|].
  eexists. split; [done|]. unfold hexadecimal. cbn [app]. rewrite length_reverse. split_and!; [by apply Forall_reverse|lia..|done].
Qed.

(** Atoi reads back what printf prints with %d for a number that is not
    negative, wherever it is stored and whatever other than a digit follows
    it; and printing any [int] stays within the 16 bytes of printint's
    buffer. *)
Theorem atoi_reads_printint xx : INT_MIN <= xx <= INT_MAX ->
  exists o, printint xx 10 true = Some o /\ decimal xx o /\
    (0 <= xx -> forall m s, (forall i d, o !! i = Some d -> m (s + Z.of_nat i) = d) -> ~ digit 10 (m (s + Z.of_nat (length o))) ->
     atoi 11 m s = Some xx).
Proof.
  intros Hx. destruct (printint_decimal xx Hx) as (o & Ho & Hd). exists o. split_and!; [done..|]. intros H0 m s Hm He.
  destruct Hd as (ds & -> & Hd & Hl & Hv). destruct (Z.ltb_spec xx 0); [lia|]. simpl in *. rewrite Z.abs_eq in Hv by lia.
  unfold atoi. rewrite <- Hv. apply atoi_loop_value; try done; lia.
Qed.

Lemma atoi_reads_printint_witness :
  exists o, printint 370 10 true = Some o /\ decimal 370 o /\
    (0 <= 370 -> forall m s, (forall i d, o !! i = Some d -> m (s + Z.of_nat i) = d) -> ~ digit 10 (m (s + Z.of_nat (length o))) ->
     atoi 11 m s = Some 370).
Proof. apply (atoi_reads_printint 370). unfold INT_MIN, INT_MAX. lia. Defined.

(** * Formats *)

(** What a format can ask for. *)
Inductive piece := Lit (c : Z) | Dec (n : Z) | Hex (n : Z) | Str (a : Z) (s : list Z) | Chr (c : Z) | Pct.

Definition piece_fmt (p : piece) : list Z :=
  match p with
  | Lit c => [c] | Dec _ => [37; 100] | Hex _ => [37; 120] | Str _ _ => [37; 115] | Chr _ => [37; 99] | Pct => [37; 37]
  end.

Definition piece_args (p : piece) : list Z :=
  match p with
  | Dec n | Hex n | Chr n => [n]
  | Str a _ => [a]
  | _ => []
  end.

Definition piece_out (p : piece) (o : list Z) : Prop :=
  match p with
  | Lit c => o = [c]
  | Dec n => decimal (s32 n) o
  | Hex n => hexadecimal n o
  | Str a s => o = if a =? 0 then null_string else s
  | Chr c => o = [u8 c]
  | Pct => o = [37]
  end.

Definition string_at (m : mem) (a : Z) (s : list Z) : Prop :=
  Forall (fun b => b <> 0) s /\ (forall i b, s !! i = Some b -> m (a + Z.of_nat i) = b) /\ m (a + Z.of_nat (length s)) = 0.

Definition piece_ok (m : mem) (p : piece) : Prop :=
  match p with
  | Lit c => c <> 37
  | Str a s => a <> 0 -> string_at m a s
  | _ => True
  end.

Definition piece_len (p : piece) : nat := match p with Str _ s => length s | _ => 0 end.

Lemma put_string_ok m s : forall fuel a, (length s < fuel)%nat -> string_at m a s -> put_string fuel m a = Some s.
Proof.
  induction s as [|b s IH]; intros fuel a Hf (Hz & Hm & He); (destruct fuel as [|fuel]; [simpl in Hf; lia|]); cbn [put_string].
  - simpl in He. rewrite Z.add_0_r in He. by rewrite He.
  - apply Forall_cons in Hz as [Hb Hz]. assert (m a = b) as -> by (rewrite <- (Hm 0%nat b eq_refl); f_equal; lia).
    destruct (Z.eqb_spec b 0); [done|]. rewrite IH; [done|simpl in Hf; lia|]. split_and!; [done| |].
    + intros i c Hi. rewrite <- (Hm (S i) c Hi). f_equal. lia.
    + rewrite <- He. f_equal. cbn [length]. lia.
Qed.

(** One piece is printed, whatever follows. *)
Lemma printf_piece fuel m p ap i fmt : piece_ok m p -> (piece_len p < fuel)%nat ->
  (forall j a, piece_args p !! j = Some a -> ap (i + j)%nat = a) ->
  exists o, piece_out p o /\
    printf_loop fuel m (piece_fmt p ++ fmt) ap i false = app o <$> printf_loop fuel m fmt ap (i + length (piece_args p)) false.
Proof.
  intros Hok Hf Hap. pose proof (s32_range) as Hr. unfold piece_out. destruct p as [c|n|n|a s|c|]; simpl in Hap;
    try (assert (ap i = _) as Ha by (rewrite <- (Nat.add_0_r i); by apply (Hap 0%nat))); cbn [piece_fmt app printf_loop printf_char negb].
  - simpl in Hok. destruct (Z.eqb_spec c 37); [done|]. exists [c]. split; [done|]. cbn [mbind option_bind]. by rewrite Nat.add_0_r.
  - destruct (printint_decimal (s32 n) (Hr n)) as (o & Ho & Hd). exists o. split; [done|]. cbn -[printint]. rewrite Ha, Ho. cbn.
    rewrite Nat.add_1_r. by destruct (printf_loop _ _ _ _ _ _).
  - destruct (printint_hexadecimal (s32 n)) as (o & Ho & Hd). exists o. split; [by unfold hexadecimal in *; rewrite u32_s32 in Hd|]. cbn -[printint]. rewrite Ha, Ho. cbn.
    rewrite Nat.add_1_r. by destruct (printf_loop _ _ _ _ _ _).
  - eexists. split; [done|]. cbn. rewrite Ha. destruct (Z.eqb_spec a 0) as [|Hne].
    + cbn. rewrite Nat.add_1_r. by destruct (printf_loop _ _ _ _ _ _).
    + rewrite (put_string_ok m s); [|done|by apply Hok]. cbn. rewrite Nat.add_1_r. by destruct (printf_loop _ _ _ _ _ _).
  - eexists. split; [done|]. cbn. rewrite Ha, Nat.add_1_r. by destruct (printf_loop _ _ _ _ _ _).
  - eexists. split; [done|]. cbn. rewrite Nat.add_0_r. by destruct (printf_loop _ _ _ _ _ _).
Qed.

(** Printf prints its format piece by piece: characters as they are, %d a
    decimal number with its sign, %x a hexadecimal one, %s a string or
    (null), %c a character and %% a percent sign, each with the next argument
    if it takes one. *)
Theorem printf_prints_pieces fuel m ps ap :
  Forall (piece_ok m) ps -> Forall (fun p => (piece_len p < fuel)%nat) ps ->
  (forall j a, concat (map piece_args ps) !! j = Some a -> ap j = a) ->
  exists os, Forall2 piece_out ps os /\ printf fuel m (concat (map piece_fmt ps)) ap = Some (concat os).
Proof.
  intros Hok Hlen Hap. unfold printf. assert (forall j a, concat (map piece_args ps) !! j = Some a -> ap (0 + j)%nat = a) as H0 by done.
  clear Hap. revert H0. generalize 0%nat as i. induction ps as [|p ps IH]; intros i Hap.
  { by exists []. }
  apply Forall_cons in Hok as [Hp Hok]. apply Forall_cons in Hlen as [Hl Hlen]. simpl in Hap.
  destruct (printf_piece fuel m p ap i (concat (map piece_fmt ps)) Hp Hl) as (o & Ho & E).
  { intros j a Hj. apply Hap. by apply lookup_app_l_Some. }
  destruct (IH Hok Hlen (i + length (piece_args p))%nat) as (os & Hos & Eos).
  { intros j a Hj. rewrite <- Nat.add_assoc. apply Hap. rewrite lookup_app_r by lia. rewrite <- Hj. f_equal. lia. }
  exists (o :: os). split; [by constructor|]. simpl. rewrite E, Eos. done.
Qed.

(** "pid %d is at %x", 7, 0xbeef. *)
Lemma printf_prints_pieces_witness :
  exists os, Forall2 piece_out [Lit 112; Dec 7; Lit 64; Hex 0xbeef; Pct] os /\
    printf 1 (fun _ => 0) [112; 37; 100; 64; 37; 120; 37; 37] (fun i => if (i =? 0)%nat then 7 else 0xbeef) = Some (concat os).
Proof.
  apply (printf_prints_pieces 1 (fun _ => 0) [Lit 112; Dec 7; Lit 64; Hex 0xbeef; Pct] (fun i => if (i =? 0)%nat then 7 else 0xbeef)).
  - repeat constructor; discriminate.
  - repeat constructor.
  - by intros [|[|j]] a [= <-].
Defined.
