(* ===== verification/Umalloc.v ===== *)
(** The memory allocator of the user programs (src/xv6-public/umalloc.c): a
    circular list of free blocks, ordered by address, whose links and sizes
    are in the blocks' first eight bytes.

    The state is the memory of the program, [freep] and the end of its memory,
    which sbrk moves.  [base] is the address of the variable of this name, and
    [room] says when the kernel has memory for sbrk: its argument is the end
    of the memory so far and the number of bytes wanted. *)
From S2P Require Import Prelude CString.

Record ust := Ust { um : mem; freep : Z; brk : Z }.
Definition set_um v s := Ust v (freep s) (brk s).
Definition set_freep v s := Ust (um s) v (brk s).
Definition set_brk v s := Ust (um s) (freep s) v.

Section Umalloc.
Variable base : Z.
Variable room : Z -> Z -> bool.
Notation U := (M ust).

(** [p->s.ptr] and [p->s.size]. *)
Definition ptr (p : Z) : U Z := gets (fun s => load32 (um s) p).
Definition size_ (p : Z) : U Z := gets (fun s => load32 (um s) (p + 4)).
Definition put_ptr (p v : Z) : U unit := modify (fun s => set_um (store32 (um s) p v) s).
Definition put_size (p v : Z) : U unit := modify (fun s => set_um (store32 (um s) (p + 4) v) s).

(** [p + n] for a pointer to Header. *)
Definition hplus (p n : Z) : Z := u32 (p + 8 * n).

(** The system call: the old end, or (char* )-1. *)
Definition sbrk (n : Z) : U Z :=
  b <- gets brk ;;
  if room b n then modify (set_brk (b + n)) ;; ret b else ret (u32 (-1)).

Fixpoint free_loop (fuel : nat) (bp p : Z) : U Z :=
  match fuel with
  | O => fun s => OutOfFuel s
  | S fuel' =>
      q <- ptr p ;;
      if (bp >? p) && (bp <? q) then ret p
      else if (p >=? q) && ((bp >? p) || (bp <? q)) then ret p
      else free_loop fuel' bp q
  end.

(** The block [bp] goes after [p]: it is joined to the block after it, and
    [p] to it, where they touch. *)
Definition free_right (bp p : Z) : U unit :=
  n <- size_ bp ;;
  q <- ptr p ;;
  if hplus bp n =? q then
    nq <- size_ q ;;
    put_size bp (u32 (n + nq)) ;;
    q <- ptr p ;;
    r <- ptr q ;;
    put_ptr bp r
  else put_ptr bp q.

Definition free_left (bp p : Z) : U unit :=
  np <- size_ p ;;
  if hplus p np =? bp then
    n <- size_ bp ;;
    put_size p (u32 (np + n)) ;;
    r <- ptr bp ;;
    put_ptr p r
  else put_ptr p bp.

Definition free (fuel : nat) (ap : Z) : U unit :=
  let bp := hplus ap (-1) in
  p <- gets freep ;;
  p <- free_loop fuel bp p ;;
  free_right bp p ;;
  free_left bp p ;;
  modify (set_freep p).

Definition morecore (fuel : nat) (nu : Z) : U Z :=
  let nu := if nu <? 4096 then 4096 else nu in
  p <- sbrk (s32 (nu * 8)) ;;
  if p =? u32 (-1) then ret 0 else
  put_size p nu ;;
  free fuel (hplus p 1) ;;
  gets freep.

(** What malloc does with a block that is large enough. *)
Definition malloc_take (nunits prevp p : Z) : U Z :=
  n <- size_ p ;;
  p <- (if n =? nunits then q <- ptr p ;; put_ptr prevp q ;; ret p
        else put_size p (u32 (n - nunits)) ;;
             n <- size_ p ;;
             put_size (hplus p n) nunits ;; ret (hplus p n)) ;;
  modify (set_freep prevp) ;;
  ret (hplus p 1).

Fixpoint malloc_loop (fuel : nat) (nunits prevp p : Z) : U Z :=
  match fuel with
  | O => fun s => OutOfFuel s
  | S fuel' =>
      n <- size_ p ;;
      if n >=? nunits then malloc_take nunits prevp p else
      f <- gets freep ;;
      if p =? f then
        p <- morecore fuel' nunits ;;
        if p =? 0 then ret 0 else
        q <- ptr p ;;
        malloc_loop fuel' nunits p q
      else
        q <- ptr p ;;
        malloc_loop fuel' nunits p q
  end.

Definition malloc (fuel : nat) (nbytes : Z) : U Z :=
  let nunits := u32 (u32 (nbytes + 8 - 1) / 8 + 1) in
  prevp <- gets freep ;;
  prevp <- (if prevp =? 0 then
              modify (set_freep base) ;; put_ptr base base ;; put_size base 0 ;; ret base
            else ret prevp) ;;
  p <- ptr prevp ;;
  malloc_loop fuel nunits prevp p.
End Umalloc.
