(* ===== verification/UmallocSpec.v ===== *)
(** What malloc and free of umalloc.c promise: blocks in use are apart from
    each other and from the free ones, keep their contents, and no memory is
    lost. *)
From S2P Require Import Prelude CString Umalloc.

(** A block: the address of its header and its size in units of 8 bytes. *)
Notation blk := (Z * Z)%type.

(** * The circular list *)

(** From [x] the links lead through the blocks [R] to [z]. *)
Fixpoint chain (m : mem) (x : Z) (R : list blk) (z : Z) : Prop :=
  match R with
  | [] => x = z
  | b :: R' => x = b.1 /\ load32 m (b.1 + 4) = b.2 /\ chain m (load32 m b.1) R' z
  end.

Lemma chain_app m x R1 R2 z : chain m x (R1 ++ R2) z <-> exists y, chain m x R1 y /\ chain m y R2 z.
Proof.
  revert x. induction R1 as [|b R1 IH]; intros x; simpl.
  - split; [intros H; by exists x|]. by intros (y & -> & H).
  - rewrite IH. naive_solver.
Qed.

(** Headers at [a] and [b] do not overlap. *)
Definition far (a b : Z) : Prop := a + 8 <= b \/ b + 8 <= a.

Lemma blocks_ext m m' x R z : chain m x R z ->
  (forall b y, b ∈ R -> b.1 <= y < b.1 + 8 -> m' y = m y) -> chain m' x R z.
Proof.
  revert x. induction R as [|b R IH]; intros x H Heq; [done|]. destruct H as (-> & Hs & H). simpl. split_and!; [done| |].
  - rewrite <- Hs. apply load32_ext. intros y Hy. apply (Heq b); [left|lia].
  - rewrite (load32_ext m m'); [|intros y Hy; apply (Heq b); [left|lia]]. apply IH; [done|]. intros c y Hc. apply Heq. by right.
Qed.

Lemma chain_lookup m x R z i b : chain m x R z -> R !! i = Some b ->
  load32 m (b.1 + 4) = b.2 /\ load32 m b.1 = match R !! S i with Some c => c.1 | None => z end.
Proof.
  revert x i. induction R as [|c R IH]; intros x i H Hi; [done|]. destruct H as (-> & Hs & H). destruct i as [|i].
  - injection Hi as <-. split; [done|]. simpl. destruct R as [|d R]; [done|]. by destruct H as [-> _].
  - apply (IH _ i H Hi).
Qed.

(** Sorted by address, apart, and never adjacent: the previous block ends at
    [e], the memory at [hi]. *)
Fixpoint wf (e : Z) (L : list blk) (hi : Z) : Prop :=
  match L with
  | [] => e <= hi
  | b :: L' => e < b.1 /\ 0 < b.2 /\ wf (b.1 + 8 * b.2) L' hi
  end.

Lemma wf_weaken e e' L hi : wf e L hi -> e' <= e -> wf e' L hi.
Proof. destruct L as [|b L]; simpl; intros; [lia|]. intuition lia. Qed.

Lemma wf_app e L1 L2 hi : wf e (L1 ++ L2) hi <-> exists h, wf e L1 h /\ wf h L2 hi.
Proof.
  revert e. induction L1 as [|b L1 IH]; intros e; simpl.
  - split; [intros H; exists e; split; [lia|done]|]. intros (h & Hh & H). by eapply wf_weaken.
  - rewrite IH. naive_solver.
Qed.

Lemma wf_le e L hi : wf e L hi -> e <= hi.
Proof.
  revert e. induction L as [|b L IH]; intros e H; [done|]. destruct H as (He & Hs & H). specialize (IH _ H). lia.
Qed.

Lemma wf_elem e L hi b : wf e L hi -> b ∈ L -> e < b.1 /\ 0 < b.2 /\ b.1 + 8 * b.2 <= hi.
Proof.
  revert e. induction L as [|c L IH]; intros e H Hb; [by apply elem_of_nil in Hb|]. destruct H as (He & Hs & H).
  pose proof (wf_le _ _ _ H). apply elem_of_cons in Hb as [->|Hb]; [done|]. specialize (IH _ H Hb). lia.
Qed.

Section Spec.
Variable base : Z.
Hypothesis base_pos : 0 < base.
(** The memory ends at [top] at most. *)
Variable top : Z.
Hypothesis top_le : top <= 2147483648.

(** The circle: [base], of size 0, and the free blocks. *)
Definition ring (L : list blk) : list blk := (base, 0) :: L.

Lemma ring_order L hi i j b c : wf (base + 7) L hi -> (i < j)%nat -> ring L !! i = Some b -> ring L !! j = Some c ->
  b.1 + 8 <= c.1 /\ b.1 + 8 * b.2 < c.1.
Proof.
  intros Hwf Hij Hb Hc. destruct j as [|j]; [lia|]. simpl in Hc. destruct i as [|i]; simpl in Hb.
  - injection Hb as <-. simpl. pose proof (wf_elem _ _ _ c Hwf (list_elem_of_lookup_2 _ _ _ Hc)). lia.
  - rewrite <- (take_drop_middle L i b Hb) in Hwf. apply wf_app in Hwf as (h & H1 & H2). destruct H2 as (_ & Hs & H2).
    assert (c ∈ drop (S i) L) as Hin. { apply list_elem_of_lookup. exists (j - S i)%nat. rewrite lookup_drop. by replace (S i + (j - S i))%nat with j by lia. }
    pose proof (wf_elem _ _ _ _ H2 Hin). lia.
Qed.

(** * free *)

(** The place of [bp]: after the blocks up to [t], before the others. *)
Definition place_of (L : list blk) (bp : Z) (t : nat) : Prop :=
  (t < length (ring L))%nat /\ (forall j b, ring L !! j = Some b -> (j <= t)%nat -> b.1 < bp) /\
  (forall j b, ring L !! j = Some b -> (t < j)%nat -> bp < b.1).

Section FreeLoop.
Context (s : ust) (L : list blk) (hi bp : Z) (t : nat) (p : blk).
Hypothesis Hch : chain (um s) base (ring L) base.
Hypothesis Hwf : wf (base + 7) L hi.
Hypothesis Hpl : place_of L bp t.
Hypothesis Hp : ring L !! t = Some p.

Lemma base_le i b : ring L !! i = Some b -> base <= b.1.
Proof.
  destruct i as [|i]; simpl; [intros [= <-]; simpl; lia|]. intros Hi.
  pose proof (wf_elem _ _ _ _ Hwf (list_elem_of_lookup_2 _ _ _ Hi)). lia.
Qed.

Lemma bp_base : base < bp.
Proof. destruct Hpl as (_ & H & _). specialize (H 0%nat (base, 0) eq_refl ltac:(lia)). done. Qed.

Lemma free_loop_before d : forall i b fuel, (i + d = t)%nat -> ring L !! i = Some b -> (d < fuel)%nat -> free_loop fuel bp b.1 s = Ret p.1 s.
Proof.
  induction d as [|d IH]; intros i b fuel Hd Hb Hf; (destruct fuel as [|fuel]; [lia|]); cbn [free_loop]; unfold ptr; rewrite gets_bind;
    destruct (chain_lookup _ _ _ _ _ _ Hch Hb) as [_ ->]; destruct Hpl as (Hlt & Hle & Hgt); pose proof bp_base.
  - assert (i = t) as -> by lia. assert (b = p) as -> by congruence. pose proof (Hle t p Hp ltac:(lia)). destruct (ring L !! S t) as [c|] eqn:Hc.
    + pose proof (Hgt (S t) c Hc ltac:(lia)). destruct (Z.gtb_spec bp p.1), (Z.ltb_spec bp c.1); try lia. done.
    + pose proof (base_le t p Hp). destruct (Z.gtb_spec bp p.1), (Z.ltb_spec bp base), (Z.geb_spec p.1 base); try lia. done.
  - destruct (lookup_lt_is_Some_2 (ring L) (S i) ltac:(lia)) as [c Hc]. rewrite Hc.
    pose proof (Hle (S i) c Hc ltac:(lia)). pose proof (ring_order L hi i (S i) b c Hwf ltac:(lia) Hb Hc) as [? _].
    destruct (Z.gtb_spec bp b.1), (Z.ltb_spec bp c.1), (Z.geb_spec b.1 c.1); try lia. cbn [andb]. apply (IH (S i)); [lia|done|lia].
Qed.

Lemma free_loop_after d : forall i b fuel, (i + d = length (ring L))%nat -> (t < i)%nat -> ring L !! i = Some b -> (d + t < fuel)%nat ->
  free_loop fuel bp b.1 s = Ret p.1 s.
Proof.
  induction d as [|d IH]; intros i b fuel Hd Hi Hb Hf; [apply lookup_lt_Some in Hb; lia|]. destruct fuel as [|fuel]; [lia|].
  cbn [free_loop]. unfold ptr. rewrite gets_bind. destruct (chain_lookup _ _ _ _ _ _ Hch Hb) as [_ ->]. destruct Hpl as (Hlt & Hle & Hgt).
  pose proof bp_base. pose proof (Hgt i b Hb Hi). destruct (ring L !! S i) as [c|] eqn:Hc.
  - pose proof (ring_order L hi i (S i) b c Hwf ltac:(lia) Hb Hc) as [? _].
    destruct (Z.gtb_spec bp b.1), (Z.geb_spec b.1 c.1); try lia. cbn [andb]. apply (IH (S i)); [lia|lia|done|lia].
  - destruct (Z.gtb_spec bp b.1), (Z.ltb_spec bp base); try lia. rewrite !andb_false_r. cbn [andb orb].
    apply (free_loop_before t 0 (base, 0)); [lia|done|lia].
Qed.

(** The loop ends at the block after which [bp] goes, wherever it starts. *)
Lemma free_loop_ok f fuel : f ∈ (ring L).*1 -> (2 * length (ring L) <= fuel)%nat -> free_loop fuel bp f s = Ret p.1 s.
Proof.
  intros (b & -> & Hb)%list_elem_of_fmap Hf. apply list_elem_of_lookup in Hb as [i Hb]. pose proof (lookup_lt_Some _ _ _ Hb). destruct Hpl as [Hlt _].
  destruct (decide (i <= t)%nat).
  - apply (free_loop_before (t - i) i b); [lia|done|lia].
  - apply (free_loop_after (length (ring L) - i) i b); [lia|lia|done|lia].
Qed.
End FreeLoop.

(** The block [bp] of [n] units before the blocks [R2]: its size, together with
    the first of them if it is adjacent, and the rest. *)
Definition join_right (bp n : Z) (R2 : list blk) : Z * list blk :=
  match R2 with
  | c :: R2' => if bp + 8 * n =? c.1 then (n + c.2, R2') else (n, R2)
  | [] => (n, [])
  end.

(** The block [p] and the block [bp] after it. *)
Definition join_left (p sp bp n : Z) : list blk :=
  if p + 8 * sp =? bp then [(p, sp + n)] else [(p, sp); (bp, n)].

Lemma store32_far m a v b : far a b -> load32 (store32 m a v) b = load32 m b /\ load32 (store32 m a v) (b + 4) = load32 m (b + 4) /\
  load32 (store32 m (a + 4) v) b = load32 m b /\ load32 (store32 m (a + 4) v) (b + 4) = load32 m (b + 4).
Proof. unfold far. intros H. split_and!; apply load32_ext; intros x Hx; apply store32_ne; lia. Qed.

Lemma load32_store32_hdr m a v : load32 (store32 m a v) (a + 4) = load32 m (a + 4) /\ load32 (store32 m (a + 4) v) a = load32 m a.
Proof. split; apply load32_ext; intros x Hx; apply store32_ne; lia. Qed.

(** Both words of a header. *)
Definition set_hdr (m : mem) (a p n : Z) : mem := store32 (store32 m (a + 4) n) a p.

Lemma set_hdr_get m a p n : 0 <= p < 4294967296 -> 0 <= n < 4294967296 -> load32 (set_hdr m a p n) a = p /\ load32 (set_hdr m a p n) (a + 4) = n.
Proof.
  intros Hp Hn. unfold set_hdr. split; [by apply load32_store32|]. rewrite (proj1 (load32_store32_hdr _ _ _)). by apply load32_store32.
Qed.

Lemma set_hdr_ne m a p n x : x < a \/ a + 8 <= x -> set_hdr m a p n x = m x.
Proof. intros H. unfold set_hdr. rewrite !store32_ne by lia. done. Qed.

Lemma chain_far m m' a x R z : chain m x R z -> Forall (fun b => far a b.1) R ->
  (forall y, y < a \/ a + 8 <= y -> m' y = m y) -> chain m' x R z.
Proof.
  intros H Hf Heq. eapply blocks_ext; [exact H|]. intros b y Hb Hy. apply Heq. rewrite Forall_forall in Hf. specialize (Hf b Hb). unfold far in Hf. lia.
Qed.

Section FreeLink.
Context (s : ust) (R1 R2 : list blk) (p sp bp n : Z).
Hypothesis Hch : chain (um s) base (R1 ++ (p, sp) :: R2) base.
Hypothesis Hbp : load32 (um s) (bp + 4) = n.
Hypothesis Hfar : Forall (fun b => far bp b.1) (R1 ++ (p, sp) :: R2).
Hypothesis Hfarp : Forall (fun b => far p b.1) (R1 ++ R2).
Hypothesis Hlo : base < bp.
Hypothesis Hord : p + 8 * sp <= bp.
Hypothesis Hnn : 0 <= n /\ 0 <= sp /\ 0 < p.
Hypothesis Hwf : exists hi, wf (bp + 8 * n - 1) R2 hi /\ bp + 8 * n <= hi <= 2147483648.

Lemma free_right_ok :
  let '(n', R2') := join_right bp n R2 in
  exists m1, free_right bp p s = Ret tt (set_um m1 s) /\
    chain m1 base (R1 ++ (p, sp) :: R2) base /\ load32 m1 (bp + 4) = n' /\ chain m1 (load32 m1 bp) R2' base /\ 0 <= load32 m1 bp < 4294967296 /\
    (forall y, y < bp \/ bp + 8 <= y -> m1 y = um s y).
Proof.
  destruct Hwf as (hi & Hwf2 & Hhi). pose proof (wf_le _ _ _ Hwf2). pose proof Hch as (x & Hc1 & -> & Hsp & Hc2)%chain_app. simpl fst in *; simpl snd in *.
  pose proof Hfar as [Hf1 [Hfp Hf2]%Forall_cons]%Forall_app. simpl in Hfp. set (q := load32 (um s) p) in *.
  assert (hplus bp n = bp + 8 * n) as Hend by (unfold hplus; apply u32_small; lia).
  unfold free_right, size_, ptr. rewrite gets_bind, Hbp, gets_bind, Hend. fold q. unfold join_right. destruct R2 as [|c R2'].
  - simpl in Hc2. rewrite Hc2. destruct (Z.eqb_spec (bp + 8 * n) base); [lia|]. exists (store32 (um s) bp base). split_and!.
    + done.
    + eapply chain_far; [exact Hch|exact Hfar|]. intros y Hy. apply store32_ne. lia.
    + by rewrite (proj1 (load32_store32_hdr _ _ _)).
    + simpl. apply load32_store32. lia.
    + rewrite load32_store32; lia.
    + rewrite load32_store32; lia.
    + intros y Hy. apply store32_ne. lia.
  - destruct Hc2 as (Hq & Hsc & Hc2). destruct Hwf2 as (Hlc & Hsc0 & Hwf2). pose proof (wf_le _ _ _ Hwf2).
    apply Forall_cons in Hf2 as [Hfc Hf2]. rewrite Hq. destruct (Z.eqb_spec (bp + 8 * n) c.1) as [Eq|Ne].
    + rewrite gets_bind, Hsc. unfold put_size, put_ptr. rewrite modify_bind. rewrite u32_small by lia. rewrite gets_bind. cbn [um set_um].
      destruct (store32_far (um s) bp (n + c.2) p Hfp) as (_ & _ & -> & _). fold q. rewrite Hq, gets_bind. cbn [um set_um].
      destruct (store32_far (um s) bp (n + c.2) c.1 Hfc) as (_ & _ & -> & _). set (r := load32 (um s) c.1) in *.
      assert (0 <= r < 4294967296) as Hr.
      { destruct R2' as [|d R2']; simpl in Hc2; [lia|]. destruct Hc2 as [-> _]. destruct Hwf2 as (? & ? & Hw). pose proof (wf_le _ _ _ Hw). lia. }
      destruct (set_hdr_get (um s) bp r (n + c.2) Hr ltac:(lia)) as [E1 E2]. exists (set_hdr (um s) bp r (n + c.2)). split_and!; try done.
      * eapply chain_far; [exact Hch|exact Hfar|]. intros y Hy. by apply set_hdr_ne.
      * rewrite E1. eapply chain_far; [exact Hc2|exact Hf2|]. intros y Hy. by apply set_hdr_ne.
      * lia.
      * lia.
      * intros y Hy. by apply set_hdr_ne.
    + assert (chain (um s) c.1 (c :: R2') base) as Hcc by (by simpl).
      exists (store32 (um s) bp c.1). split_and!.
      * done.
      * eapply chain_far; [exact Hch|exact Hfar|]. intros y Hy. apply store32_ne. lia.
      * by rewrite (proj1 (load32_store32_hdr _ _ _)).
      * rewrite load32_store32 by lia. eapply chain_far; [exact Hcc|by constructor|]. intros y Hy. apply store32_ne. lia.
      * rewrite load32_store32; lia.
      * rewrite load32_store32; lia.
      * intros y Hy. apply store32_ne. lia.
Qed.

(** free after the place has been found. *)
Lemma free_link_ok :
  let '(n', R2') := join_right bp n R2 in
  exists m', (free_right bp p ;; free_left bp p ;; modify (set_freep p)) s = Ret tt (Ust m' p (brk s)) /\
    chain m' base (R1 ++ join_left p sp bp n' ++ R2') base /\
    (forall y, y < bp \/ bp + 8 <= y -> y < p \/ p + 8 <= y -> m' y = um s y).
Proof.
  pose proof free_right_ok as Hr. destruct (join_right bp n R2) as [n' R2'] eqn:Ej. destruct Hr as (m1 & E1 & Hc & Hn' & Hc2 & Hr & Hm).
  assert (Forall (fun b => far p b.1) R2') as Hf2.
  { apply Forall_app in Hfarp as [_ Hf]. unfold join_right in Ej. destruct R2 as [|c R2'']; [by injection Ej as <- <-|].
    destruct (_ =? _); injection Ej as <- <-; [by inversion Hf|done]. }
  assert (0 <= n' /\ bp + 8 * n' <= 2147483648) as Hn'0.
  { destruct Hwf as (hi & Hw & Hhi). unfold join_right in Ej. destruct R2 as [|c R2'']; simpl in Hw; [injection Ej as <- <-; lia|].
    destruct Hw as (? & ? & Hw%wf_le). destruct (Z.eqb_spec (bp + 8 * n) c.1); injection Ej as <- <-; lia. }
  apply chain_app in Hc as (x & Hc1 & -> & Hsp & _). simpl in Hsp. apply Forall_app in Hfarp as [Hf1 _].
  pose proof Hfar as [_ [Hfp _]%Forall_cons]%Forall_app. simpl in Hfp. assert (far p bp) as Hfp' by (unfold far in *; lia).
  set (r := load32 m1 bp) in *. rewrite (bind_Ret _ _ _ _ _ E1). unfold join_left.
  assert (hplus p sp = p + 8 * sp) as Hend by (unfold hplus; apply u32_small; lia).
  destruct (Z.eqb_spec (p + 8 * sp) bp) as [Eq|Ne].
  - exists (set_hdr m1 p r (sp + n')). assert (free_left bp p (set_um m1 s) = Ret tt (set_um (set_hdr m1 p r (sp + n')) s)) as E2.
    { unfold free_left, size_, ptr, put_size, put_ptr. rewrite gets_bind. cbn [um set_um]. rewrite Hsp, Hend, Eq, Z.eqb_refl, gets_bind. cbn [um set_um].
      rewrite Hn', modify_bind, gets_bind. cbn [um set_um]. destruct (store32_far m1 p (u32 (sp + n')) bp Hfp') as (_ & _ & -> & _).
      rewrite u32_small by lia. done. }
    rewrite (bind_Ret _ _ _ _ _ E2). destruct (set_hdr_get m1 p r (sp + n') Hr ltac:(lia)) as [G1 G2]. split_and!.
    + done.
    + apply chain_app. exists p. split; [eapply chain_far; [exact Hc1|done|]; intros; by apply set_hdr_ne|]. simpl. split_and!; try done.
      rewrite G1. eapply chain_far; [exact Hc2|done|]. intros. by apply set_hdr_ne.
    + intros y Hy1 Hy2. rewrite set_hdr_ne by done. by apply Hm.
  - exists (store32 m1 p bp). assert (free_left bp p (set_um m1 s) = Ret tt (set_um (store32 m1 p bp) s)) as E2.
    { unfold free_left, size_, put_ptr. rewrite gets_bind. cbn [um set_um]. rewrite Hsp, Hend. destruct (Z.eqb_spec (p + 8 * sp) bp); done. }
    rewrite (bind_Ret _ _ _ _ _ E2). destruct (store32_far m1 p bp bp Hfp') as (G1 & G2 & _). split_and!.
    + done.
    + apply chain_app. exists p. split; [eapply chain_far; [exact Hc1|done|]; intros y Hy; apply store32_ne; lia|]. simpl.
      rewrite load32_store32, G1, G2, (proj1 (load32_store32_hdr _ _ _)) by lia. split_and!; try done.
      eapply chain_far; [exact Hc2|done|]. intros y Hy. apply store32_ne. lia.
    + intros y Hy1 Hy2. rewrite store32_ne by lia. by apply Hm.
Qed.
End FreeLink.

(** Blocks that do not overlap, and the bytes of a block. *)
Definition apart (b c : blk) : Prop := b.1 + 8 * b.2 <= c.1 \/ c.1 + 8 * c.2 <= b.1.
Definition inb (x : Z) (b : blk) : Prop := b.1 <= x < b.1 + 8 * b.2.
Definition within (x : Z) (L : list blk) : Prop := exists b, b ∈ L /\ inb x b.
Definition units (L : list blk) : Z := foldr (fun b n => b.2 + n) 0 L.

Lemma units_app L1 L2 : units (L1 ++ L2) = units L1 + units L2.
Proof. unfold units. induction L1 as [|b L1 IH]; simpl; lia. Qed.

Lemma within_app x L1 L2 : within x (L1 ++ L2) <-> within x L1 \/ within x L2.
Proof. unfold within. setoid_rewrite elem_of_app. naive_solver. Qed.

Lemma within_cons x b L : within x (b :: L) <-> inb x b \/ within x L.
Proof. unfold within. setoid_rewrite elem_of_cons. naive_solver. Qed.

Lemma within_nil x : within x [] <-> False.
Proof. unfold within. setoid_rewrite elem_of_nil. naive_solver. Qed.

(** The free blocks before and after a block that is apart from them. *)
Lemma split_free bp n hi L : 0 < n -> bp + 8 * n <= hi -> forall e, wf e L hi -> e <= bp -> Forall (apart (bp, n)) L ->
  exists L1 L2, L = L1 ++ L2 /\ wf e L1 bp /\ wf (bp + 8 * n - 1) L2 hi.
Proof.
  intros Hn Hhi. induction L as [|c L IH]; intros e Hw He Hap.
  - exists [], []. simpl in *. split_and!; [done|done|lia].
  - destruct Hw as (He' & Hc & Hw). apply Forall_cons in Hap as [Hc' Hap]. unfold apart in Hc'. simpl in Hc'. destruct Hc' as [Hc'|Hc'].
    + exists [], (c :: L). split_and!; [done|done|]. simpl. split_and!; [lia|done|done].
    + destruct (IH _ Hw Hc' Hap) as (L1 & L2 & -> & H1 & H2). by exists (c :: L1), L2.
Qed.

Lemma join_right_ok bp n L2 hi n' R2' : 0 < n -> bp + 8 * n <= hi -> wf (bp + 8 * n - 1) L2 hi -> join_right bp n L2 = (n', R2') ->
  0 < n' /\ wf (bp + 8 * n') R2' hi /\ n' + units R2' = n + units L2 /\ forall x, inb x (bp, n') \/ within x R2' <-> inb x (bp, n) \/ within x L2.
Proof.
  intros Hn Hhi Hw E. unfold join_right in E. destruct L2 as [|c L2]; [injection E as <- <-; simpl; split_and!; done|].
  destruct Hw as (Hl & Hc & Hw). destruct (Z.eqb_spec (bp + 8 * n) c.1) as [Eq|Ne]; injection E as <- <-.
  - split_and!; [lia| | |].
    + eapply wf_weaken; [exact Hw|lia].
    + unfold units. simpl. lia.
    + intros x. rewrite within_cons. assert (inb x (bp, n + c.2) <-> inb x (bp, n) \/ inb x c) as -> by (unfold inb; simpl; lia). tauto.
  - split_and!; [done| |done|done]. simpl. split_and!; [lia|done|done].
Qed.

Lemma join_left_ok p sp bp n hi e L2 : 0 < sp -> 0 < n -> e < p -> p + 8 * sp <= bp -> wf (bp + 8 * n) L2 hi ->
  wf e (join_left p sp bp n ++ L2) hi /\ units (join_left p sp bp n) = sp + n /\ p ∈ (join_left p sp bp n).*1 /\
  forall x, within x (join_left p sp bp n) <-> inb x (p, sp) \/ inb x (bp, n).
Proof.
  intros Hsp Hn He Hle Hw. unfold join_left. destruct (Z.eqb_spec (p + 8 * sp) bp) as [Eq|Ne]; simpl.
  - split_and!; [done|lia|by eapply wf_weaken; [exact Hw|lia]|lia|set_solver|].
    intros x. rewrite within_cons, within_nil. unfold inb. simpl. lia.
  - split_and!; [done|done|lia|done|done|lia|set_solver|]. intros x. rewrite !within_cons, within_nil. unfold inb. simpl. tauto.
Qed.

(** The free list in order. *)
Record heap (s : ust) (L : list blk) : Prop := {
  hp_chain : chain (um s) base (ring L) base;
  hp_wf : wf (base + 7) L (brk s);
  hp_freep : freep s ∈ (ring L).*1;
  hp_brk : brk s <= top
}.

(** A block that can be given to free. *)
Record freeable (s : ust) (L : list blk) (bp n : Z) : Prop := {
  fr_size : load32 (um s) (bp + 4) = n;
  fr_pos : 0 < n;
  fr_lo : base + 8 <= bp;
  fr_hi : bp + 8 * n <= brk s;
  fr_apart : Forall (apart (bp, n)) L
}.

(** free in memory, for the block [p] before the one that is freed. *)
Lemma free_mem s L1 L2 R1 p sp bp n fuel : heap s (L1 ++ L2) -> freeable s (L1 ++ L2) bp n ->
  wf (base + 7) L1 bp -> wf (bp + 8 * n - 1) L2 (brk s) -> ring L1 = R1 ++ [(p, sp)] -> (2 * length (ring (L1 ++ L2)) <= fuel)%nat ->
  let '(n', R2') := join_right bp n L2 in
  exists m', free fuel (bp + 8) s = Ret tt (Ust m' p (brk s)) /\ chain m' base (R1 ++ join_left p sp bp n' ++ R2') base /\
    (forall y, y < bp \/ bp + 8 <= y -> y < p \/ p + 8 <= y -> m' y = um s y).
Proof.
  intros [Hch Hwf Hfp Hbrk] [Hsz Hn Hlo Hhi Hap] Hw1 Hw2 Hr Hfuel.
  assert (ring (L1 ++ L2) = R1 ++ (p, sp) :: L2) as HR by (change (ring (L1 ++ L2)) with (ring L1 ++ L2); rewrite Hr, <- app_assoc; done).
  assert (forall b, b ∈ ring L1 -> base <= b.1 /\ 0 <= b.2 /\ b.1 + 8 <= bp /\ b.1 + 8 * b.2 <= bp) as Hin1.
  { intros b [->|Hb]%elem_of_cons; [simpl; lia|]. pose proof (wf_elem _ _ _ _ Hw1 Hb). lia. }
  assert (forall b, b ∈ L2 -> bp + 8 * n <= b.1 /\ 0 < b.2) as Hin2 by (intros b Hb; pose proof (wf_elem _ _ _ _ Hw2 Hb); lia).
  destruct (Hin1 (p, sp)) as (Hp1 & Hp2 & Hp3 & Hp4); [rewrite Hr; set_solver|]. simpl in Hp1, Hp2, Hp3, Hp4.
  assert (ring (L1 ++ L2) !! length R1 = Some (p, sp)) as Hpt by (rewrite HR; by apply list_lookup_middle).
  assert (place_of (L1 ++ L2) bp (length R1)) as Hpl.
  { split; [by eapply lookup_lt_Some|]. rewrite HR. split; intros j b Hj Hjt.
    - destruct (Hin1 b); [|lia]. rewrite Hr. apply list_elem_of_lookup. exists j. rewrite <- Hj. change ((p, sp) :: L2) with ([(p, sp)] ++ L2).
      rewrite (app_assoc R1), (lookup_app_l (R1 ++ [(p, sp)])); [done|rewrite length_app; simpl; lia].
    - destruct (Hin2 b); [|lia]. apply list_elem_of_lookup. exists (j - S (length R1))%nat. rewrite <- Hj.
      rewrite lookup_app_r by lia. replace (j - length R1)%nat with (S (j - S (length R1))) by lia. done. }
  unfold free. assert (hplus (bp + 8) (-1) = bp) as -> by (unfold hplus; rewrite u32_small; lia).
  rewrite gets_bind, (bind_Ret _ _ _ _ _ (free_loop_ok s (L1 ++ L2) (brk s) bp (length R1) (p, sp) Hch Hwf Hpl Hpt (freep s) fuel Hfp Hfuel)).
  apply (free_link_ok s R1 L2 p sp bp n); try done.
  - by rewrite <- HR.
  - rewrite <- HR. change (ring (L1 ++ L2)) with (ring L1 ++ L2). apply Forall_app. split; apply Forall_forall; intros b Hb; unfold far.
    + specialize (Hin1 b Hb). lia.
    + specialize (Hin2 b Hb). lia.
  - apply Forall_app. split; apply Forall_forall; intros b [i Hi]%list_elem_of_lookup; unfold far.
    + pose proof (lookup_lt_Some _ _ _ Hi). destruct (ring_order (L1 ++ L2) (brk s) i (length R1) b (p, sp) Hwf) as [? _]; [lia| |done|simpl in *; lia].
      rewrite HR. by apply lookup_app_l_Some.
    + destruct (ring_order (L1 ++ L2) (brk s) (length R1) (S (length R1) + i) (p, sp) b Hwf) as [? _]; [lia|done| |simpl in *; lia].
      rewrite HR, lookup_app_r by lia. by replace (S (length R1) + i - length R1)%nat with (S i) by lia.
  - lia.
  - lia.
  - exists (brk s). split; [done|lia].
Qed.

(** What free does to the free list. *)
Record freed (s s' : ust) (L L' : list blk) (bp n : Z) : Prop := {
  fd_heap : heap s' L';
  fd_brk : brk s' = brk s;
  fd_units : units L' = units L + n;
  fd_within : forall x, within x L' <-> within x L \/ inb x (bp, n);
  fd_frame : forall x, x < base \/ base + 8 <= x -> ~ within x L' -> um s' x = um s x;
  fd_big : exists b, b ∈ L' /\ n <= b.2;
  fd_len : (length L' <= S (length L))%nat
}.

Lemma join_left_base bp n : base <> bp -> join_left base 0 bp n = [(base, 0); (bp, n)].
Proof. intros H. unfold join_left. rewrite Z.mul_0_r, Z.add_0_r. by destruct (Z.eqb_spec base bp). Qed.

Lemma free_ok s L bp n fuel : heap s L -> freeable s L bp n -> (2 * length (ring L) <= fuel)%nat ->
  exists s' L', free fuel (bp + 8) s = Ret tt s' /\ freed s s' L L' bp n.
Proof.
  intros Hh Hf Hfuel. pose proof Hh as [_ Hwf _ Hbrk]. pose proof Hf as [_ Hn Hlo Hhi Hap].
  destruct (split_free bp n (brk s) L Hn Hhi (base + 7) Hwf ltac:(lia) Hap) as (L1 & L2 & -> & Hw1 & Hw2).
  destruct (join_right bp n L2) as [n' R2'] eqn:Ej. destruct (join_right_ok _ _ _ _ _ _ Hn Hhi Hw2 Ej) as (Hn' & Hw2' & Hu & Hx).
  assert (n <= n' /\ (length R2' <= length L2)%nat) as [Hnn Hlen].
  { unfold join_right in Ej. destruct L2 as [|c L2']; [injection Ej as <- <-; simpl; lia|]. destruct Hw2 as (_ & Hc & _).
    destruct (_ =? _); injection Ej as <- <-; simpl; lia. }
  destruct L1 as [|[p sp] K _] using rev_ind.
  - pose proof (free_mem s [] L2 [] base 0 bp n fuel Hh Hf Hw1 Hw2 eq_refl Hfuel) as H. rewrite Ej in H. destruct H as (m' & E & Hc & Hm).
    rewrite join_left_base in Hc by lia. exists (Ust m' base (brk s)), ((bp, n') :: R2'). split; [done|]. constructor; simpl.
    + constructor; simpl; [done|split_and!; [lia|done|done]|left|done].
    + done.
    + simpl. lia.
    + intros x. rewrite within_cons, Hx. tauto.
    + intros x Hb Hnw. apply Hm; [|lia]. rewrite within_cons in Hnw. unfold inb in Hnw. simpl in Hnw. lia.
    + exists (bp, n'). split; [left|done].
    + lia.
  - apply wf_app in Hw1 as (h & HwK & Hlp & Hsp & Hle). simpl in Hlp, Hsp, Hle.
    pose proof (free_mem s (K ++ [(p, sp)]) L2 ((base, 0) :: K) p sp bp n fuel Hh Hf) as H. rewrite Ej in H. destruct H as (m' & E & Hc & Hm); try done.
    { apply wf_app. exists h. by simpl. }
    destruct (join_left_ok p sp bp n' (brk s) h R2' Hsp Hn' Hlp Hle Hw2') as (Hwj & Huj & Hpj & Hxj).
    exists (Ust m' p (brk s)), (K ++ join_left p sp bp n' ++ R2'). split; [done|]. constructor; simpl.
    + constructor; simpl; [done|apply wf_app; by exists h| |done]. rewrite !fmap_app. set_solver.
    + done.
    + rewrite !units_app, Huj. simpl. lia.
    + intros x. rewrite !within_app, Hxj, within_cons, within_nil. specialize (Hx x). tauto.
    + intros x Hb Hnw. rewrite !within_app, Hxj in Hnw. unfold inb in Hnw. simpl in Hnw. apply Hm; lia.
    + unfold join_left. destruct (_ =? _); [exists (p, sp + n')|exists (bp, n')]; (split; [set_solver|simpl; lia]).
    + rewrite !length_app. unfold join_left. destruct (_ =? _); simpl; lia.
Qed.

(** * malloc *)

(** What taking [n] units from the free list does. *)
Record taken (s s' : ust) (L L' : list blk) (a n : Z) : Prop := {
  tk_heap : heap s' L';
  tk_brk : brk s' = brk s;
  tk_units : units L' + n = units L;
  tk_within : forall x, within x L <-> within x L' \/ inb x (a, n);
  tk_free : freeable s' L' a n;
  tk_frame : forall x, x < base \/ base + 8 <= x -> ~ within x L -> um s' x = um s x;
  tk_len : (length L' <= length L)%nat
}.

Section Take.
Context (s : ust) (K1 K2 : list blk) (a n nunits : Z) (R1 : list blk) (y sy : Z).
Hypothesis Hh : heap s (K1 ++ (a, n) :: K2).
Hypothesis Hy : ring K1 = R1 ++ [(y, sy)].
Hypothesis Hn : 0 < nunits <= n.

Let L := K1 ++ (a, n) :: K2.

Lemma take_ring : ring L = R1 ++ (y, sy) :: (a, n) :: K2.
Proof. unfold L. change (ring (K1 ++ (a, n) :: K2)) with (ring K1 ++ (a, n) :: K2). by rewrite Hy, <- app_assoc. Qed.

(** The free list around the block [a]. *)
Record around : Prop := {
  ar_before : exists h, wf (base + 7) K1 h /\ h < a;
  ar_after : wf (a + 8 * n) K2 (brk s);
  ar_base : base <= y;
  ar_prev : y + 8 <= a;
  ar_far : Forall (fun b => far y b.1) (R1 ++ (a, n) :: K2);
  ar_in : y = base \/ (y, sy) ∈ K1 /\ 0 < sy;
  ar_chain1 : chain (um s) base R1 y;
  ar_size : load32 (um s) (y + 4) = sy /\ load32 (um s) (a + 4) = n;
  ar_link : load32 (um s) y = a;
  ar_chain2 : chain (um s) (load32 (um s) a) K2 base;
  ar_apart1 : Forall (apart (a + 8 * (n - nunits), nunits)) K1;
  ar_apart2 : Forall (apart (a + 8 * (n - nunits), nunits)) K2
}.

Lemma take_around : around.
Proof.
  destruct Hh as [Hch Hwf _ Hbrk]. pose proof Hwf as (h & Hw1 & Hla & _ & Hw2)%wf_app. simpl in Hla, Hw2.
  assert (ring L !! length R1 = Some (y, sy)) as Hiy by (rewrite take_ring; by apply list_lookup_middle).
  assert (ring L !! S (length R1) = Some (a, n)) as Hia by (rewrite take_ring, lookup_app_r by lia; by replace (S (length R1) - length R1)%nat with 1%nat by lia).
  destruct (ring_order L (brk s) (length R1) (S (length R1)) _ _ Hwf ltac:(lia) Hiy Hia) as [Hya _]. simpl in Hya.
  assert (y = base \/ (y, sy) ∈ K1) as Hyc. { assert ((y, sy) ∈ ring K1) as [E|?]%elem_of_cons by (rewrite Hy; set_solver); [left; congruence|by right]. }
  fold L in Hch. rewrite take_ring in Hch. apply chain_app in Hch as (x & Hc1 & Ex & Hsy & Hya' & Hsa & Hc2). simpl in Ex, Hsy, Hya', Hsa, Hc2. subst x.
  constructor; try done; try (apply Forall_forall; intros b Hb).
  - by exists h.
  - destruct Hyc as [->|Hin]; [lia|]. pose proof (wf_elem _ _ _ _ Hw1 Hin). simpl in *. lia.
  - unfold far. apply elem_of_app in Hb as [[i Hi]%list_elem_of_lookup|[i Hi]%list_elem_of_lookup].
    + pose proof (lookup_lt_Some _ _ _ Hi). destruct (ring_order L (brk s) i (length R1) b (y, sy) Hwf) as [? _]; [lia| |done|simpl in *; lia].
      rewrite take_ring. by apply lookup_app_l_Some.
    + destruct (ring_order L (brk s) (length R1) (S (length R1) + i) (y, sy) b Hwf) as [? _]; [lia|done| |simpl in *; lia].
      rewrite take_ring, lookup_app_r by lia. by replace (S (length R1) + i - length R1)%nat with (S i) by lia.
  - destruct Hyc as [->|Hin]; [by left|right]. pose proof (wf_elem _ _ _ _ Hw1 Hin). simpl in *. split; [done|lia].
  - pose proof (wf_elem _ _ _ _ Hw1 Hb). unfold apart. simpl. lia.
  - pose proof (wf_elem _ _ _ _ Hw2 Hb). unfold apart. simpl. lia.
Qed.

(** A block of the right size is taken out of the list. *)
Lemma take_whole : n = nunits -> exists s' L', malloc_take nunits y a s = Ret (a + 8) s' /\ taken s s' L L' a nunits.
Proof.
  intros E. destruct take_around as [(h & Hw1 & Hla) Hw2 Hby Hya Hfy Hyc Hc1 [Hsy Hsa] Hl Hc2 Hap1 Hap2]. destruct Hh as [_ _ _ Hbrk].
  pose proof (wf_le _ _ _ Hw2). replace (a + 8 * (n - nunits)) with a in * by lia. set (q := load32 (um s) a) in *.
  assert (0 <= q < 4294967296) as Hq.
  { destruct K2 as [|d K2']; simpl in Hc2; [lia|]. destruct Hc2 as [-> _]. destruct Hw2 as (? & ? & Hw%wf_le). lia. }
  exists (Ust (store32 (um s) y q) y (brk s)), (K1 ++ K2). split.
  { unfold malloc_take, size_, ptr, put_ptr. rewrite gets_bind, Hsa, E, Z.eqb_refl. erewrite bind_Ret; [|rewrite gets_bind; fold q; rewrite modify_bind; done].
    rewrite modify_bind. unfold hplus, ret. rewrite u32_small by lia. done. }
  apply Forall_app in Hfy as [Hfy1 [Hfya Hfy2]%Forall_cons]. constructor; simpl; try done.
  - constructor; simpl; try done.
    + change (chain (store32 (um s) y q) base (ring K1 ++ K2) base). rewrite Hy, <- app_assoc. apply chain_app. exists y. split.
      { eapply chain_far; [exact Hc1|exact Hfy1|]. intros x Hx. apply store32_ne. lia. }
      simpl. rewrite (proj1 (load32_store32_hdr _ _ _)), load32_store32 by done. split_and!; [done|done|].
      eapply chain_far; [exact Hc2|done|]. intros x Hx. apply store32_ne. lia.
    + apply wf_app. exists h. split; [done|]. eapply wf_weaken; [exact Hw2|lia].
    + assert (y ∈ (ring K1).*1) by (rewrite Hy, fmap_app; set_solver). rewrite fmap_app. set_solver.
  - unfold L. rewrite !units_app. simpl. lia.
  - intros x. unfold L. rewrite !within_app, within_cons, E. tauto.
  - destruct Hyc as [->|[Hin Hp]]; constructor; simpl; try lia; try (by apply Forall_app); rewrite (proj1 (proj2 (store32_far _ _ _ _ Hfya))); simpl; lia.
  - intros x Hx Hnw. apply store32_ne. destruct Hyc as [->|[Hin Hp]]; [lia|]. destruct (decide (y <= x < y + 4)); [|lia]. exfalso. apply Hnw.
    exists (y, sy). split; [unfold L; set_solver|]. unfold inb. simpl. lia.
  - unfold L. rewrite !length_app. simpl. lia.
Qed.

(** The end of a larger block is taken. *)
Lemma take_part : nunits < n -> exists s' L', malloc_take nunits y a s = Ret (a + 8 * (n - nunits) + 8) s' /\ taken s s' L L' (a + 8 * (n - nunits)) nunits.
Proof.
  intros Hlt. destruct take_around as [(h & Hw1 & Hla) Hw2 Hby Hya Hfy Hyc Hc1 [Hsy Hsa] Hl Hc2 Hap1 Hap2]. destruct Hh as [_ _ _ Hbrk].
  pose proof (wf_le _ _ _ Hw2). set (k := n - nunits) in *. set (r := a + 8 * k) in *. set (m1 := store32 (um s) (a + 4) k). set (m2 := store32 m1 (r + 4) nunits).
  assert (forall x, x < a \/ a + 8 * n <= x -> m2 x = um s x) as Hm2 by (intros x Hx; unfold m2, m1; rewrite !store32_ne by lia; done).
  exists (Ust m2 y (brk s)), (K1 ++ (a, k) :: K2). split.
  { unfold malloc_take, size_, put_size. rewrite gets_bind, Hsa. destruct (Z.eqb_spec n nunits); [lia|]. erewrite bind_Ret.
    2: { rewrite modify_bind, gets_bind. cbn [um set_um]. rewrite u32_small by lia. rewrite load32_store32 by lia. rewrite modify_bind. unfold hplus. fold k r.
         rewrite u32_small by lia. done. }
    rewrite modify_bind. unfold hplus, ret. rewrite u32_small by lia. done. }
  constructor; simpl; try done.
  - constructor; simpl; try done.
    + change (chain m2 base (ring K1 ++ (a, k) :: K2) base). apply chain_app. exists a. split.
      { eapply blocks_ext; [rewrite Hy; apply chain_app; exists y; by simpl|]. intros b v [->|Hb]%elem_of_cons Hv; apply Hm2; [simpl in Hv; lia|].
        pose proof (wf_elem _ _ _ _ Hw1 Hb). lia. }
      simpl. assert (load32 m2 (a + 4) = k) as ->.
      { unfold m2. rewrite (load32_ext m1) by (intros; apply store32_ne; lia). apply load32_store32. lia. }
      assert (load32 m2 a = load32 (um s) a) as -> by (apply load32_ext; intros; unfold m2, m1; rewrite !store32_ne by lia; done).
      split_and!; [done|done|]. eapply blocks_ext; [exact Hc2|]. intros b v Hb Hv. apply Hm2. pose proof (wf_elem _ _ _ _ Hw2 Hb). lia.
    + apply wf_app. exists h. split; [done|]. simpl. split_and!; [done|lia|]. eapply wf_weaken; [exact Hw2|lia].
    + assert (y ∈ (ring K1).*1) by (rewrite Hy, fmap_app; set_solver). rewrite fmap_app. set_solver.
  - unfold L. rewrite !units_app. simpl. lia.
  - intros x. unfold L. rewrite !within_app, !within_cons. unfold inb. simpl. assert (a <= x < a + 8 * n <-> a <= x < a + 8 * k \/ r <= x < r + 8 * nunits) as -> by lia. tauto.
  - constructor; simpl; try lia.
    + unfold m2. apply load32_store32. lia.
    + apply Forall_app. split; [done|]. apply Forall_cons. split; [|done]. unfold apart. simpl. lia.
  - intros x Hx Hnw. apply Hm2. destruct (decide (a <= x < a + 8 * n)); [|lia]. exfalso. apply Hnw. exists (a, n). split; [unfold L; set_solver|done].
  - unfold L. rewrite !length_app. simpl. lia.
Qed.

Lemma malloc_take_ok : exists s' L', malloc_take nunits y a s = Ret (a + 8 * (n - nunits) + 8) s' /\ taken s s' L L' (a + 8 * (n - nunits)) nunits.
Proof.
  destruct (decide (n = nunits)) as [E|Hne]; [|apply take_part; lia]. replace (a + 8 * (n - nunits)) with a by lia. by apply take_whole.
Qed.
End Take.

Section Search.
Variable room : Z -> Z -> bool.
Context (s : ust) (L : list blk) (nunits : Z) (f : nat) (fb : blk).
Hypothesis Hh : heap s L.
Hypothesis Hn : 0 < nunits.
Hypothesis Hf : ring L !! f = Some fb.
Hypothesis Hfp : freep s = fb.1.

(** The search has found block [k], with [y] before it. *)
Definition found (fuel : nat) (prevp p : Z) : Prop :=
  exists k b y, ring L !! S k = Some b /\ ring L !! k = Some y /\ nunits <= b.2 /\
    malloc_loop room fuel nunits prevp p s = malloc_take nunits y.1 b.1 s.

(** The search has come back to [freep] and asks for more memory. *)
Definition asks (fuel k : nat) (prevp p : Z) : Prop :=
  malloc_loop room (k + S fuel) nunits prevp p s =
    (p <- morecore room fuel nunits ;; if p =? 0 then ret 0 else q <- ptr p ;; malloc_loop room fuel nunits p q) s.

Lemma at_block i b prevp fuel : ring L !! i = Some b ->
  malloc_loop room (S fuel) nunits prevp b.1 s =
    (if b.2 >=? nunits then malloc_take nunits prevp b.1 s
     else if b.1 =? fb.1 then (p <- morecore room fuel nunits ;; if p =? 0 then ret 0 else q <- ptr p ;; malloc_loop room fuel nunits p q) s
     else malloc_loop room fuel nunits b.1 (match ring L !! S i with Some c => c.1 | None => base end) s).
Proof.
  intros Hi. destruct (chain_lookup _ _ _ _ _ _ (hp_chain _ _ Hh) Hi) as [Hs Hp]. cbn [malloc_loop]. unfold size_ at 1. rewrite gets_bind, Hs.
  destruct (_ >=? _); [done|]. rewrite gets_bind, Hfp. destruct (_ =? _); [done|]. unfold ptr at 1. by rewrite gets_bind, Hp.
Qed.

(** From block [i] up to [freep]. *)
Lemma search_before d : forall i b y fuel, (i + d = f)%nat -> ring L !! i = Some b -> (i <> 0%nat -> ring L !! (i - 1)%nat = Some y) ->
  found (d + S fuel) y.1 b.1 \/ asks fuel d y.1 b.1 /\ forall j c, (i <= j <= f)%nat -> ring L !! j = Some c -> c.2 < nunits.
Proof.
  induction d as [|d IH]; intros i b y fuel Hd Hb Hy.
  - assert (i = f) as -> by lia. assert (b = fb) as -> by congruence. pose proof (at_block f fb y.1 fuel Hf) as E. destruct (Z.geb_spec fb.2 nunits) as [Hge|Hlt].
    + left. destruct f as [|k] eqn:Ef; [simpl in Hf; injection Hf as <-; simpl in Hge; lia|]. exists k, fb, y.
      split_and!; try done. rewrite <- (Hy ltac:(lia)). f_equal. lia.
    + right. split; [rewrite Z.eqb_refl in E; exact E|]. intros j c Hj Hc. assert (j = f) as -> by lia. congruence.
  - pose proof (at_block i b y.1 (d + S fuel) Hb) as E. destruct (Z.geb_spec b.2 nunits) as [Hge|Hlt].
    + left. destruct i as [|k]; [simpl in Hb; injection Hb as <-; simpl in Hge; lia|]. exists k, b, y. split_and!; try done.
      rewrite <- (Hy ltac:(lia)). f_equal. lia.
    + destruct (ring_order L (brk s) i f b fb (hp_wf _ _ Hh) ltac:(lia) Hb Hf) as [Ho _]. destruct (Z.eqb_spec b.1 fb.1); [lia|].
      pose proof (lookup_lt_Some _ _ _ Hf). destruct (lookup_lt_is_Some_2 (ring L) (S i) ltac:(lia)) as [c Hc]. rewrite Hc in E.
      destruct (IH (S i) c b fuel ltac:(lia) Hc) as [(k & b' & y' & H1 & H2 & H3 & H4)|[Ha Hall]].
      { intros _. rewrite <- Hb. f_equal. lia. }
      * left. exists k, b', y'. split_and!; try done. etrans; [exact E|exact H4].
      * right. split; [etrans; [exact E|exact Ha]|]. intros j c' Hj Hc'. destruct (decide (j = i)) as [->|]; [congruence|]. apply (Hall j); [lia|done].
Qed.

(** From a block after [freep] to the last, and from [base] on. *)
Lemma search_after d : forall i b y fuel, (i + d = length (ring L))%nat -> (f < i)%nat -> ring L !! i = Some b -> ring L !! (i - 1)%nat = Some y ->
  found (d + f + S fuel) y.1 b.1 \/ asks fuel (d + f) y.1 b.1 /\ forall j c, (i <= j \/ j <= f)%nat -> ring L !! j = Some c -> c.2 < nunits.
Proof.
  induction d as [|d IH]; intros i b y fuel Hd Hi Hb Hy; [apply lookup_lt_Some in Hb; lia|].
  pose proof (at_block i b y.1 (d + f + S fuel) Hb) as E. destruct (Z.geb_spec b.2 nunits) as [Hge|Hlt].
  { left. destruct i as [|k]; [lia|]. exists k, b, y. split_and!; try done. rewrite <- Hy. f_equal. lia. }
  destruct (ring_order L (brk s) f i fb b (hp_wf _ _ Hh) ltac:(lia) Hf Hb) as [Ho _]. destruct (Z.eqb_spec b.1 fb.1); [lia|].
  destruct d as [|d].
  - assert (ring L !! S i = None) as Hnone by (apply lookup_ge_None; lia). rewrite Hnone in E.
    destruct (search_before f 0 (base, 0) b fuel ltac:(lia) eq_refl ltac:(done)) as [(k & b' & y' & H1 & H2 & H3 & H4)|[Ha Hall]].
    + left. exists k, b', y'. split_and!; try done. etrans; [exact E|exact H4].
    + right. split; [etrans; [exact E|exact Ha]|]. intros j c Hj Hc. destruct (decide (j = i)) as [->|]; [congruence|].
      apply (Hall j); [|done]. pose proof (lookup_lt_Some _ _ _ Hc). lia.
  - destruct (lookup_lt_is_Some_2 (ring L) (S i) ltac:(lia)) as [c Hc]. rewrite Hc in E.
    destruct (IH (S i) c b fuel ltac:(lia) ltac:(lia) Hc) as [(k & b' & y' & H1 & H2 & H3 & H4)|[Ha Hall]].
    { rewrite <- Hb. f_equal. lia. }
    + left. exists k, b', y'. split_and!; try done. etrans; [exact E|exact H4].
    + right. split; [etrans; [exact E|exact Ha]|]. intros j c' Hj Hc'. destruct (decide (j = i)) as [->|]; [congruence|]. apply (Hall j); [lia|done].
Qed.

(** The search from the block after [freep]: it finds a block, or there is none
    and it asks for memory. *)
Lemma search_ok : let p := load32 (um s) (freep s) in
  exists k, (k <= length (ring L))%nat /\ forall fuel,
    (found (k + S fuel) (freep s) p \/ asks fuel k (freep s) p /\ Forall (fun b => b.2 < nunits) L).
Proof.
  intros p. assert (p = match ring L !! S f with Some c => c.1 | None => base end) as Hp.
  { unfold p. rewrite Hfp. apply (chain_lookup _ _ _ _ _ _ (hp_chain _ _ Hh) Hf). }
  pose proof (lookup_lt_Some _ _ _ Hf). rewrite Hp, Hfp. destruct (ring L !! S f) as [c|] eqn:Hc.
  - exists (length (ring L) - S f + f)%nat. split; [pose proof (lookup_lt_Some _ _ _ Hc); lia|]. intros fuel.
    destruct (search_after (length (ring L) - S f) (S f) c fb fuel) as [Hfd|[Ha Hall]]; [pose proof (lookup_lt_Some _ _ _ Hc); lia|lia|done|rewrite <- Hf; f_equal; lia|left|right].
    + done.
    + split; [done|]. apply Forall_forall. intros b [i Hi]%list_elem_of_lookup. apply (Hall (S i)); [lia|done].
  - exists f. apply lookup_ge_None in Hc. split; [lia|]. intros fuel.
    destruct (search_before f 0 (base, 0) fb fuel ltac:(lia) eq_refl ltac:(done)) as [Hfd|[Ha Hall]]; [by left|right].
    split; [done|]. apply Forall_forall. intros b [i Hi]%list_elem_of_lookup. apply (Hall (S i)); [|done]. pose proof (lookup_lt_Some (ring L) (S i) b Hi). lia.
Qed.
End Search.

Lemma wf_mono e L hi hi' : wf e L hi -> hi <= hi' -> wf e L hi'.
Proof. revert e. induction L as [|b L IH]; simpl; intros e H Hle; [lia|]. destruct H as (? & ? & H). auto. Qed.

Section Malloc.
Variable room : Z -> Z -> bool.
Hypothesis room_ok : forall b n, room b n = true -> b + n <= top.

(** What a malloc that succeeds does: the new block [a] of [n] units, the free
    list and the end of the memory. *)
Record allocated (s s' : ust) (L L' : list blk) (a n : Z) : Prop := {
  al_heap : heap s' L';
  al_brk : brk s <= brk s';
  al_units : 8 * (units L' + n) - brk s' = 8 * units L - brk s;
  al_free : freeable s' L' a n;
  al_within : forall x, within x L' \/ inb x (a, n) <-> within x L \/ brk s <= x < brk s';
  al_frame : forall x, x < base \/ base + 8 <= x -> x < brk s -> ~ within x L -> um s' x = um s x
}.

Lemma taken_allocated s s' L L' a n : taken s s' L L' a n -> allocated s s' L L' a n.
Proof.
  intros [Hh Hb Hu Hw Hf Hfr _]. constructor; try done; [lia|lia| |auto]. intros x. rewrite Hw, Hb. assert (~ brk s <= x < brk s) by lia. tauto.
Qed.

(** The heap after sbrk, with the new block not free yet. *)
Lemma sbrk_heap s L n : heap s L -> base + 8 <= brk s -> 0 < n -> 8 * n + brk s <= top ->
  let s1 := Ust (store32 (um s) (brk s + 4) n) (freep s) (brk s + 8 * n) in heap s1 L /\ freeable s1 L (brk s) n.
Proof.
  intros [Hch Hwf Hfp Hbrk] Hlo Hn Hhi s1. subst s1. split; constructor; cbn [um freep brk]; try done; try lia.
  - eapply blocks_ext; [exact Hch|]. intros b y [->|Hb]%elem_of_cons Hy; apply store32_ne; [simpl in Hy; lia|].
    pose proof (wf_elem _ _ _ _ Hwf Hb). lia.
  - eapply wf_mono; [exact Hwf|lia].
  - apply load32_store32. lia.
  - apply Forall_forall. intros b Hb. pose proof (wf_elem _ _ _ _ Hwf Hb). unfold apart. simpl. lia.
Qed.

Lemma morecore_ok s L nu fuel : heap s L -> base + 8 <= brk s -> 0 < nu -> 8 * nu < 2147483648 -> (2 * length (ring L) <= fuel)%nat ->
  let n := Z.max nu 4096 in
  (room (brk s) (8 * n) = false /\ morecore room fuel nu s = Ret 0 s) \/
  (exists s' L', morecore room fuel nu s = Ret (freep s') s' /\ heap s' L' /\ brk s' = brk s + 8 * n /\ units L' = units L + n /\
     (forall x, within x L' <-> within x L \/ inb x (brk s, n)) /\
     (forall x, x < base \/ base + 8 <= x -> x < brk s -> ~ within x L -> um s' x = um s x) /\
     (exists b, b ∈ L' /\ nu <= b.2) /\ (length L' <= S (length L))%nat).
Proof.
  intros Hh Hlo Hnu Hmax Hfuel n. pose proof (hp_brk _ _ Hh). unfold morecore. assert ((if nu <? 4096 then 4096 else nu) = n) as -> by (unfold n; destruct (Z.ltb_spec nu 4096); lia).
  assert (s32 (n * 8) = 8 * n) as -> by (rewrite s32_id; unfold INT_MIN, INT_MAX; lia). destruct (room (brk s) (8 * n)) eqn:Hr.
  - right. pose proof (room_ok _ _ Hr). assert (sbrk room (8 * n) s = Ret (brk s) (set_brk (brk s + 8 * n) s)) as E1 by (unfold sbrk; by rewrite gets_bind, Hr, modify_bind).
    rewrite (bind_Ret _ _ _ _ _ E1). destruct (Z.eqb_spec (brk s) (u32 (-1))) as [E|_]; [change (u32 (-1)) with 4294967295 in E; lia|].
    unfold put_size. rewrite modify_bind. assert (hplus (brk s) 1 = brk s + 8) as -> by (unfold hplus; apply u32_small; lia).
    destruct (sbrk_heap s L n Hh Hlo ltac:(lia) ltac:(lia)) as [Hh1 Hf1]. set (s1 := Ust _ _ _) in Hh1, Hf1.
    destruct (free_ok s1 L (brk s) n fuel Hh1 Hf1 Hfuel) as (s' & L' & E2 & [Hh' Hb' Hu' Hw' Hfr' (b & Hb & Hbn) Hlen]). exists s', L'.
    change (set_um _ _) with s1. rewrite (bind_Ret _ _ _ _ _ E2). split_and!; try done.
    + intros x Hx Hxb Hnw. rewrite Hfr'; [|done|].
      * simpl. apply store32_ne. lia.
      * rewrite Hw'. unfold inb. simpl. intros [?|?]; [done|lia].
    + exists b. split; [done|lia].
  - left. split; [done|]. assert (sbrk room (8 * n) s = Ret (u32 (-1)) s) as E1 by (unfold sbrk; by rewrite gets_bind, Hr).
    by rewrite (bind_Ret _ _ _ _ _ E1).
Qed.

(** A ring position with a large enough block gives an allocation. *)
Lemma found_allocated s L nunits fuel prevp p : heap s L -> 0 < nunits -> found room s L nunits fuel prevp p ->
  exists a s' L', malloc_loop room fuel nunits prevp p s = Ret (a + 8) s' /\ allocated s s' L L' a nunits.
Proof.
  intros Hh Hn (k & [a n] & [y sy] & Hb & Hy & Hbn & E). simpl in *. assert (exists K1 K2, L = K1 ++ (a, n) :: K2 /\ length K1 = k) as (K1 & K2 & -> & Hk).
  { exists (take k L), (drop (S k) L). split; [symmetry; by apply take_drop_middle|]. rewrite length_take. apply lookup_lt_Some in Hb. lia. }
  destruct (malloc_take_ok s K1 K2 a n nunits (take k (ring K1)) y sy Hh) as (s' & L' & E2 & Ht); [|lia|].
  { assert (ring K1 !! k = Some (y, sy)) as Hk'. { rewrite <- Hy. destruct k as [|k]; [done|]. simpl. rewrite lookup_app_l by lia. done. }
    rewrite <- (take_drop_middle (ring K1) k (y, sy) Hk') at 1. rewrite (drop_ge (ring K1)); [done|]. simpl. lia. }
  exists (a + 8 * (n - nunits)), s', L'. split; [by rewrite E|by apply taken_allocated].
Qed.

Lemma freep_at s L : heap s L -> exists f fb, ring L !! f = Some fb /\ freep s = fb.1 /\ base <= freep s.
Proof.
  intros Hh. pose proof (hp_freep _ _ Hh) as (fb & E & [f Hf]%list_elem_of_lookup)%list_elem_of_fmap. exists f, fb. split_and!; try done.
  rewrite E. destruct f as [|f]; simpl in Hf; [injection Hf as <-; simpl; lia|]. pose proof (wf_elem _ _ _ _ (hp_wf _ _ Hh) (list_elem_of_lookup_2 _ _ _ Hf)). lia.
Qed.

(** The search with enough fuel: an allocation, or 0 when no block is large
    enough and the kernel has no memory. *)
Lemma malloc_loop_ok s L nunits fuel : heap s L -> base + 8 <= brk s -> 0 < nunits -> 8 * nunits < 2147483648 -> (4 * length L + 10 <= fuel)%nat ->
  let go := malloc_loop room fuel nunits (freep s) (load32 (um s) (freep s)) s in
  (go = Ret 0 s /\ Forall (fun b => b.2 < nunits) L /\ room (brk s) (8 * Z.max nunits 4096) = false) \/
  (exists a s' L', go = Ret (a + 8) s' /\ allocated s s' L L' a nunits).
Proof.
  intros Hh Hlo Hn Hmax Hfuel go. destruct (freep_at s L Hh) as (f & fb & Hf & Hfp & _).
  destruct (search_ok room s L nunits f fb Hh Hn Hf Hfp) as (k & Hk & Hs). cbn [ring length] in Hk. specialize (Hs (fuel - S k)%nat).
  replace (k + S (fuel - S k))%nat with fuel in Hs by lia. set (fuel' := (fuel - S k)%nat) in *.
  destruct Hs as [Hfd|[Ha Hsmall]]; [right; by apply found_allocated|]. unfold asks in Ha. replace (k + S fuel')%nat with fuel in Ha by lia. unfold go. rewrite Ha.
  destruct (morecore_ok s L nunits fuel' Hh Hlo Hn Hmax) as [[Hr E]|(s1 & L1 & E & Hh1 & Hb1 & Hu1 & Hw1 & Hfr1 & (b & Hb & Hbn) & Hlen)]; [simpl; lia| |].
  - left. rewrite (bind_Ret _ _ _ _ _ E). done.
  - right. rewrite (bind_Ret _ _ _ _ _ E). destruct (freep_at s1 L1 Hh1) as (f1 & fb1 & Hf1 & Hfp1 & Hpos).
    destruct (Z.eqb_spec (freep s1) 0); [lia|]. unfold ptr. rewrite gets_bind.
    destruct (search_ok room s1 L1 nunits f1 fb1 Hh1 Hn Hf1 Hfp1) as (k1 & Hk1 & Hs1). cbn [ring length] in Hk1. specialize (Hs1 (fuel' - S k1)%nat).
    replace (k1 + S (fuel' - S k1))%nat with fuel' in Hs1 by lia. destruct Hs1 as [Hfd|[_ Hsmall1]].
    + destruct (found_allocated s1 L1 nunits fuel' _ _ Hh1 Hn Hfd) as (a & s' & L' & E' & [Hh' Hb' Hu' Hfree' Hw' Hfr']). exists a, s', L'. split; [done|].
      constructor; try done; [lia|lia| |].
      * intros x. rewrite Hw', Hw1, Hb1. unfold inb. simpl. assert (brk s <= x < brk s + 8 * Z.max nunits 4096 \/ brk s + 8 * Z.max nunits 4096 <= x < brk s' <-> brk s <= x < brk s') by lia. tauto.
      * intros x Hx Hxb Hnw. rewrite Hfr'; [by apply Hfr1|done|lia|]. rewrite Hw1. unfold inb. simpl. intros [?|?]; [done|lia].
    + exfalso. rewrite Forall_forall in Hsmall1. specialize (Hsmall1 b Hb). simpl in Hsmall1. lia.
Qed.
End Malloc.
End Spec.
