(* ===== verification/UmallocUse.v ===== *)
(** A program that uses malloc and free of umalloc.c: whatever it allocates,
    frees and writes in its blocks, its blocks stay apart and keep what it
    wrote in them, and what it frees is joined again. *)
From S2P Require Import Prelude CString Umalloc UmallocSpec.

Section Use.
Variable base : Z.
Hypothesis base_pos : 0 < base.
Variable top : Z.
Hypothesis top_le : top <= 2147483648.
Variable room : Z -> Z -> bool.
Hypothesis room_ok : forall b n, room b n = true -> b + n <= top.

(** * Free blocks and blocks in use *)

Definition all_apart (A : list blk) : Prop := forall i j b c, A !! i = Some b -> A !! j = Some c -> i <> j -> apart b c.

(** The free blocks [L] and the blocks in use [A] share the memory from
    [start] on. *)
Record hinv (start : Z) (s : ust) (L A : list blk) : Prop := {
  hi_heap : heap base top s L;
  hi_start : base + 8 <= start <= brk s;
  hi_live : Forall (fun b => freeable base s L b.1 b.2) A;
  hi_apart : all_apart A;
  hi_cover : forall x, within x L \/ within x A <-> start <= x < brk s
}.

(** Blocks that share no byte are apart. *)
Lemma apart_bytes b c : 0 < b.2 -> 0 < c.2 -> (forall x, inb x b -> inb x c -> False) -> apart b c.
Proof.
  intros Hb Hc H. unfold apart. destruct (decide (b.1 + 8 * b.2 <= c.1 \/ c.1 + 8 * c.2 <= b.1)) as [?|Hn]; [done|].
  destruct (H (Z.max b.1 c.1)); unfold inb; lia.
Qed.

Lemma apart_inb b c x : apart b c -> inb x b -> inb x c -> False.
Proof. unfold apart, inb. lia. Qed.

Lemma apart_within b L x : Forall (apart b) L -> inb x b -> ~ within x L.
Proof. intros H Hx (c & Hc & Hxc). rewrite Forall_forall in H. eapply apart_inb; [exact (H c Hc)|done|done]. Qed.

Lemma within_apart b L : 0 < b.2 -> Forall (fun c => 0 < c.2) L -> (forall x, inb x b -> ~ within x L) -> Forall (apart b) L.
Proof.
  intros Hb HL H. apply Forall_forall. intros c Hc. rewrite Forall_forall in HL. apply apart_bytes; [done|by apply HL|].
  intros x Hxb Hxc. apply (H x Hxb). by exists c.
Qed.

Lemma heap_pos s L : heap base top s L -> Forall (fun c => 0 < c.2) L.
Proof. intros Hh. apply Forall_forall. intros c Hc. by destruct (wf_elem _ _ _ _ (hp_wf _ _ _ _ Hh) Hc) as (_ & ? & _). Qed.

(** A block in use is still in use when its bytes have not changed and the
    free blocks have not grown into it. *)
Lemma freeable_keep s s' L L' b : freeable base s L b.1 b.2 -> heap base top s' L' -> brk s <= brk s' ->
  (forall x, inb x b -> um s' x = um s x) -> (forall x, inb x b -> ~ within x L') -> freeable base s' L' b.1 b.2.
Proof.
  intros [Hs Hp Hlo Hhi Hap] Hh Hbrk Hm Hw. constructor; try done; [|lia|].
  - rewrite <- Hs. apply load32_ext. intros x Hx. apply Hm. unfold inb. lia.
  - rewrite <- surjective_pairing. apply within_apart; [done|by eapply heap_pos|done].
Qed.

Lemma live_lookup s L A i b : Forall (fun b => freeable base s L b.1 b.2) A -> A !! i = Some b -> freeable base s L b.1 b.2.
Proof. intros H Hi. exact (proj1 (Forall_lookup _ _) H i b Hi). Qed.

(** A block in use is apart from the free ones. *)
Lemma live_not_free s L b x : freeable base s L b.1 b.2 -> inb x b -> ~ within x L.
Proof. intros [_ _ _ _ Hap] Hx. rewrite <- surjective_pairing in Hap. by eapply apart_within. Qed.

Lemma all_apart_cons b A : Forall (apart b) A -> all_apart A -> all_apart (b :: A).
Proof.
  intros Hb HA [|i] [|j] c d Hc Hd Hij; simpl in *; try done.
  - injection Hc as <-. rewrite Forall_forall in Hb. apply Hb. by eapply list_elem_of_lookup_2.
  - injection Hd as <-. rewrite Forall_forall in Hb. destruct (Hb c) as [?|?]; [by eapply list_elem_of_lookup_2|by right|by left].
  - apply (HA i j); try done. lia.
Qed.

(** Leaving one block out. *)
Lemma lookup_skip (A1 A2 : list blk) b i c : (A1 ++ A2) !! i = Some c ->
  (A1 ++ b :: A2) !! (if decide (i < length A1)%nat then i else S i) = Some c.
Proof.
  intros Hi. case_decide.
  - rewrite lookup_app_l in Hi by done. by apply lookup_app_l_Some.
  - rewrite lookup_app_r in Hi by lia. rewrite lookup_app_r by lia. by replace (S i - length A1)%nat with (S (i - length A1)) by lia.
Qed.

Lemma all_apart_skip A1 b A2 : all_apart (A1 ++ b :: A2) -> all_apart (A1 ++ A2) /\ Forall (apart b) (A1 ++ A2).
Proof.
  intros H. split.
  - intros i j c d Hc%(lookup_skip _ _ b) Hd%(lookup_skip _ _ b) Hij. eapply H; [exact Hc|exact Hd|]. repeat case_decide; lia.
  - apply Forall_lookup. intros i c Hc%(lookup_skip _ _ b). eapply (H (length A1)); [by apply list_lookup_middle|exact Hc|]. case_decide; lia.
Qed.

Lemma malloc_hinv start s s' L L' A a n : hinv start s L A -> allocated base top s s' L L' a n ->
  hinv start s' L' ((a, n) :: A) /\ forall x, within x A -> um s' x = um s x.
Proof.
  intros [Hh Hs Hl Ha Hc] [Hh' Hb _ Hf Hw Hfr].
  assert (forall b x, b ∈ A -> inb x b -> um s' x = um s x /\ ~ within x L' /\ ~ inb x (a, n)) as Hlive.
  { intros b x Hbin Hx. rewrite Forall_forall in Hl. pose proof (Hl b Hbin) as Hfb. pose proof (live_not_free _ _ _ _ Hfb Hx) as Hnx.
    destruct Hfb as [_ _ Hlo Hhi _]. assert (~ (within x L' \/ inb x (a, n))) as HH. { rewrite Hw. unfold inb in Hx. intros [?|?]; [done|lia]. }
    split_and!; [|tauto|tauto]. apply Hfr; unfold inb in Hx; lia || done. }
  split.
  - constructor; try done; [lia| | |].
    + constructor; [done|]. apply Forall_forall. intros b Hbin. rewrite Forall_forall in Hl. apply (freeable_keep s s' L L'); try done; [by apply Hl|..]; intros x Hx; by apply (Hlive b).
    + apply all_apart_cons; [|done]. apply within_apart; [by apply Hf| |].
      * apply Forall_forall. intros b Hbin. rewrite Forall_forall in Hl. by apply (fr_pos _ _ _ _ _ (Hl b Hbin)).
      * intros x Hx (b & Hbin & Hxb). by apply (Hlive b x Hbin Hxb).
    + intros x. rewrite within_cons. specialize (Hw x). specialize (Hc x). assert (start <= x < brk s' <-> start <= x < brk s \/ brk s <= x < brk s') by lia. tauto.
  - intros x (b & Hbin & Hx). by apply (Hlive b).
Qed.

Lemma free_hinv start s s' L L' A1 A2 bp n : hinv start s L (A1 ++ (bp, n) :: A2) -> freed base top s s' L L' bp n ->
  hinv start s' L' (A1 ++ A2) /\ forall x, within x (A1 ++ A2) -> um s' x = um s x.
Proof.
  intros [Hh Hs Hl Ha Hc] [Hh' Hb _ Hw Hfr _ _]. apply Forall_app in Hl as [Hl1 [Hbp Hl2]%Forall_cons]. assert (Forall (fun b => freeable base s L b.1 b.2) (A1 ++ A2)) as Hl by (by apply Forall_app).
  destruct (all_apart_skip _ _ _ Ha) as [Ha' Hap]. rewrite Forall_forall in Hap.
  assert (forall b x, b ∈ A1 ++ A2 -> inb x b -> um s' x = um s x /\ ~ within x L') as Hlive.
  { intros b x Hbin Hx. rewrite Forall_forall in Hl. pose proof (Hl b Hbin) as Hfb. pose proof (live_not_free _ _ _ _ Hfb Hx) as Hnx.
    assert (~ within x L') as HH. { rewrite Hw. intros [?|?]; [done|]. eapply apart_inb; [exact (Hap b Hbin)|done|done]. }
    split; [|done]. apply Hfr; [|done]. destruct Hfb as [_ _ Hlo _ _]. unfold inb in Hx. lia. }
  split.
  - constructor; try done; [lia| |].
    + apply Forall_forall. intros b Hbin. rewrite Forall_forall in Hl. apply (freeable_keep s s' L L'); try done; [by apply Hl|lia|..]; intros x Hx; by apply (Hlive b).
    + intros x. specialize (Hw x). specialize (Hc x). rewrite within_app, within_cons in Hc. rewrite within_app, Hb. tauto.
  - intros x (b & Hbin & Hx). by apply (Hlive b).
Qed.

Lemma poke_hinv start s L A b x v : hinv start s L A -> b ∈ A -> b.1 + 8 <= x < b.1 + 8 * b.2 ->
  hinv start (set_um (store (um s) x v) s) L A.
Proof.
  intros [Hh Hs Hl Ha Hc] Hb Hx. pose proof Hl as Hl'. rewrite Forall_forall in Hl'. pose proof (Hl' b Hb) as Hfb.
  assert (inb x b) as Hxb by (unfold inb; lia). pose proof (live_not_free _ _ _ _ Hfb Hxb) as Hnx.
  assert (forall c y, c ∈ ring base L -> c.1 <= y < c.1 + 8 -> y <> x) as Hring.
  { intros c y [->|Hcin]%elem_of_cons Hy ->; [destruct Hfb as [_ _ ? _ _]; simpl in Hy; lia|]. apply Hnx. exists c. split; [done|].
    pose proof (wf_elem _ _ _ _ (hp_wf _ _ _ _ Hh) Hcin). unfold inb. lia. }
  constructor; try done.
  - destruct Hh as [Hch Hwf Hfp Hbk]. constructor; cbn [um freep brk set_um]; try done. eapply blocks_ext; [exact Hch|].
    intros c y Hcin Hy. apply store_ne. by eapply Hring.
  - apply Forall_lookup. intros j c Hj. pose proof (live_lookup _ _ _ _ _ Hl Hj) as [Hsz Hp Hlo Hhi Hap]. constructor; cbn [um freep brk set_um]; try done.
    rewrite <- Hsz. apply load32_ext. intros y Hy. apply store_ne. intros ->. apply list_elem_of_lookup in Hb as [i Hi]. destruct (decide (i = j)) as [->|Hij].
    + assert (b = c) as -> by congruence. lia.
    + eapply apart_inb; [exact (Ha i j b c Hi Hj Hij)|exact Hxb|]. unfold inb. lia.
Qed.

(** * A program *)

(** What it does: malloc, free of one of its blocks, and storing a byte in one
    of them. *)
Inductive uop := Malloc (nbytes : Z) | Free (i : nat) | Poke (i : nat) (off v : Z).

(** The state and the blocks it has: the addresses malloc returned and the
    sizes asked for.  [None]: a call has not returned. *)
Definition use1 (fuel : nat) (o : uop) (st : ust * list (Z * Z)) : option (ust * list (Z * Z)) :=
  let (s, V) := st in
  match o with
  | Malloc nbytes =>
      match malloc base room fuel nbytes s with
      | Ret p s' => Some (s', if p =? 0 then V else (p, nbytes) :: V)
      | _ => None
      end
  | Free i =>
      match V !! i with
      | Some (p, _) => match free fuel p s with Ret _ s' => Some (s', take i V ++ drop (S i) V) | _ => None end
      | None => Some st
      end
  | Poke i off v =>
      match V !! i with
      | Some (p, n) => if (0 <=? off) && (off <? n) then Some (set_um (store (um s) (p + off) v) s, V) else Some st
      | None => Some st
      end
  end.

Fixpoint use (fuel : nat) (l : list uop) (st : ust * list (Z * Z)) : option (ust * list (Z * Z)) :=
  match l with
  | [] => Some st
  | o :: l' => st' ← use1 fuel o st; use fuel l' st'
  end.

(** Sizes for which the arithmetic of malloc does not overflow. *)
Definition uop_ok (o : uop) : Prop := match o with Malloc n => 0 <= n < 2147483632 | _ => True end.

(** The block of a pointer that malloc returned. *)
Definition block_of (v : Z * Z) (b : blk) : Prop := v.1 = b.1 + 8 /\ 0 <= v.2 <= 8 * (b.2 - 1).

Definition uinv (start : Z) (s : ust) (V : list (Z * Z)) : Prop :=
  (freep s = 0 /\ V = [] /\ base + 8 <= start /\ brk s = start /\ start <= top) \/
  (exists L A, hinv start s L A /\ Forall2 block_of V A).

Lemma wf_length e L hi : wf e L hi -> e + 8 * Z.of_nat (length L) <= hi.
Proof. revert e. induction L as [|b L IH]; intros e H; [simpl in *; lia|]. destruct H as (? & ? & H). specialize (IH _ H). cbn [length]. lia. Qed.

Lemma fuel_enough s L fuel : heap base top s L -> top / 2 + 10 <= Z.of_nat fuel -> (4 * length L + 10 <= fuel)%nat.
Proof. intros [_ Hwf _ Hbrk] Hf. apply wf_length in Hwf. pose proof (Z.div_mod top 2). pose proof (Z.mod_pos_bound top 2). lia. Qed.

Definition nunits_of (nbytes : Z) : Z := (nbytes + 7) / 8 + 1.

Lemma nunits_ok nbytes : 0 <= nbytes < 2147483632 ->
  u32 (u32 (nbytes + 8 - 1) / 8 + 1) = nunits_of nbytes /\ 0 < nunits_of nbytes /\ 8 * nunits_of nbytes < 2147483648 /\ nbytes <= 8 * (nunits_of nbytes - 1).
Proof.
  intros H. unfold nunits_of. rewrite (u32_small (nbytes + 8 - 1)) by lia. replace (nbytes + 8 - 1) with (nbytes + 7) by lia.
  pose proof (Z.div_mod (nbytes + 7) 8 ltac:(lia)). pose proof (Z.mod_pos_bound (nbytes + 7) 8 ltac:(lia)). rewrite u32_small; lia.
Qed.

(** The first malloc makes the empty circle. *)
Lemma init_hinv s start : base + 8 <= start -> brk s = start -> start <= top ->
  hinv start (Ust (store32 (store32 (um s) base base) (base + 4) 0) base (brk s)) [] [].
Proof.
  intros Hlo Hb Hhi. constructor; cbn [brk]; try done; [|lia|].
  - constructor; cbn [um freep brk]; [|simpl; lia|left|lia]. simpl. rewrite (proj2 (load32_store32_hdr _ _ _)), !load32_store32 by lia. done.
  - intros x. rewrite !within_nil. lia.
Qed.

Lemma malloc_ok start s V nbytes fuel : uinv start s V -> 0 <= nbytes < 2147483632 -> top / 2 + 10 <= Z.of_nat fuel ->
  exists s1 L A, hinv start s1 L A /\ Forall2 block_of V A /\ (forall x, within x A -> um s1 x = um s x) /\
    malloc base room fuel nbytes s = malloc_loop room fuel (nunits_of nbytes) (freep s1) (load32 (um s1) (freep s1)) s1.
Proof.
  intros Hu Hn Hf. destruct (nunits_ok nbytes Hn) as (E & _). unfold malloc. rewrite E, gets_bind. destruct Hu as [(Hf0 & -> & Hlo & Hb & Hhi)|(L & A & Hi & HV)].
  - exists (Ust (store32 (store32 (um s) base base) (base + 4) 0) base (brk s)), [], []. split_and!; [by apply init_hinv|constructor|by intros x ?%within_nil|].
    rewrite Hf0. cbn [Z.eqb]. erewrite bind_Ret; [|unfold put_ptr, put_size; rewrite modify_bind, modify_bind, modify_bind; done]. unfold ptr. by rewrite gets_bind.
  - exists s, L, A. split_and!; try done. destruct (freep_at base top s L (hi_heap _ _ _ _ Hi)) as (f & fb & _ & _ & Hpos).
    destruct (Z.eqb_spec (freep s) 0); [lia|]. rewrite ret_bind. unfold ptr. by rewrite gets_bind.
Qed.

Lemma block_bytes V A v x : Forall2 block_of V A -> v ∈ V -> v.1 <= x < v.1 + v.2 -> within x A.
Proof.
  intros HV [i Hi]%list_elem_of_lookup Hx. destruct (Forall2_lookup_l _ _ _ _ _ HV Hi) as (b & Hb & Hv1 & Hv2). exists b.
  split; [by eapply list_elem_of_lookup_2|]. unfold inb. lia.
Qed.

(** The bytes of the blocks that are kept do not change, except the one that
    is stored. *)
Definition kept (o : uop) (s s' : ust) (V V' : list (Z * Z)) : Prop :=
  forall v x, v ∈ V -> v ∈ V' -> v.1 <= x < v.1 + v.2 ->
    um s' x = um s x \/ exists i off b, o = Poke i off b /\ V !! i = Some v /\ x = v.1 + off /\ um s' x = b.

Section Step.
Context (fuel : nat) (start : Z) (s : ust) (V : list (Z * Z)).
Hypothesis Hfuel : top / 2 + 10 <= Z.of_nat fuel.
Hypothesis Hinv : uinv start s V.

Lemma use_malloc n : 0 <= n < 2147483632 ->
  exists s' V', use1 fuel (Malloc n) (s, V) = Some (s', V') /\ uinv start s' V' /\ kept (Malloc n) s s' V V'.
Proof.
  intros Hn. destruct (malloc_ok start s V n fuel Hinv Hn Hfuel) as (s1 & L & A & Hi & HV & Hm & E). simpl. rewrite E.
  destruct (nunits_ok n Hn) as (_ & Hnu & Hmax & Hbytes). pose proof (hi_heap _ _ _ _ Hi) as Hh. pose proof (hi_start _ _ _ _ Hi).
  destruct (malloc_loop_ok base base_pos top top_le room room_ok s1 L (nunits_of n) fuel Hh ltac:(lia) Hnu Hmax (fuel_enough _ _ _ Hh Hfuel)) as [(-> & _)|(a & s' & L' & -> & Hal)].
  - eexists _, _. split; [done|]. cbn [Z.eqb]. split; [right; by exists L, A|]. intros v x Hv _ Hx. left. apply Hm. by eapply block_bytes.
  - destruct (malloc_hinv start s1 s' L L' A a (nunits_of n) Hi Hal) as [Hi' Hm']. pose proof (fr_lo _ _ _ _ _ (al_free _ _ _ _ _ _ _ _ Hal)).
    destruct (Z.eqb_spec (a + 8) 0); [lia|]. eexists _, _. split; [done|]. split.
    + right. exists L', ((a, nunits_of n) :: A). split; [done|]. constructor; [|done]. split; simpl; lia.
    + intros v x Hv _ Hx. left. pose proof (block_bytes V A v x HV Hv Hx) as Hw. by rewrite Hm', Hm.
Qed.

Lemma use_free i : exists s' V', use1 fuel (Free i) (s, V) = Some (s', V') /\ uinv start s' V' /\ kept (Free i) s s' V V'.
Proof.
  simpl. destruct (V !! i) as [[p n]|] eqn:Hi; [|exists s, V; split_and!; try done; intros v x _ _ _; by left].
  destruct Hinv as [(_ & E & _)|(L & A & Hh & HV)]; [by rewrite E in Hi|].
  destruct (Forall2_lookup_l _ _ _ _ _ HV Hi) as ([bp k] & Hb & Hp & Hk). simpl in Hp, Hk. subst p.
  rewrite <- (take_drop_middle A i (bp, k) Hb) in Hh. pose proof (hi_live _ _ _ _ Hh) as [_ [Hf _]%Forall_cons]%Forall_app. simpl in Hf.
  pose proof (hi_heap _ _ _ _ Hh) as Hheap. pose proof (fuel_enough _ _ _ Hheap Hfuel).
  destruct (free_ok base base_pos top top_le s L bp k fuel Hheap Hf) as (s' & L' & -> & Hfd); [simpl; lia|]. eexists _, _. split; [done|].
  destruct (free_hinv start s s' L L' _ _ bp k Hh Hfd) as [Hi' Hm']. assert (Forall2 block_of (take i V ++ drop (S i) V) (take i A ++ drop (S i) A)) as HV'.
  { apply Forall2_app; [by apply Forall2_take|by apply Forall2_drop]. }
  split; [right; by exists L', (take i A ++ drop (S i) A)|]. intros v x _ Hv Hx. left. apply Hm'. by eapply block_bytes.
Qed.

Lemma use_poke i off b : exists s' V', use1 fuel (Poke i off b) (s, V) = Some (s', V') /\ uinv start s' V' /\ kept (Poke i off b) s s' V V'.
Proof.
  simpl. destruct (V !! i) as [[p n]|] eqn:Hi; [|exists s, V; split_and!; try done; intros v x _ _ _; by left].
  destruct (Z.leb_spec 0 off), (Z.ltb_spec off n); simpl; try (exists s, V; split_and!; try done; intros v x _ _ _; by left).
  destruct Hinv as [(_ & E & _)|(L & A & Hh & HV)]; [by rewrite E in Hi|].
  destruct (Forall2_lookup_l _ _ _ _ _ HV Hi) as (c & Hc & Hp & Hk). simpl in Hp, Hk. eexists _, _. split; [done|]. split.
  - right. exists L, A. split; [|done]. apply (poke_hinv start s L A c); [done|by eapply list_elem_of_lookup_2|lia].
  - intros v x Hv _ Hx. destruct (decide (x = p + off)) as [->|Hne]; [|left; by apply store_ne].
    assert (v = (p, n)) as ->; [|right; exists i, off, b; split_and!; try done; apply store_eq].
    apply list_elem_of_lookup in Hv as [j Hj]. destruct (decide (j = i)) as [->|Hij]; [congruence|]. exfalso.
    destruct (Forall2_lookup_l _ _ _ _ _ HV Hj) as (d & Hd & Hp' & Hk'). apply (apart_inb d c (p + off)); [by apply (hi_apart _ _ _ _ Hh j i)|..]; unfold inb; lia.
Qed.

Lemma use1_ok o : uop_ok o -> exists s' V', use1 fuel o (s, V) = Some (s', V') /\ uinv start s' V' /\ kept o s s' V V'.
Proof. destruct o; intros Ho; [by apply use_malloc|apply use_free|apply use_poke]. Qed.
End Step.

Lemma use_ok fuel start l : top / 2 + 10 <= Z.of_nat fuel -> Forall uop_ok l -> forall s V, uinv start s V ->
  exists s' V', use fuel l (s, V) = Some (s', V') /\ uinv start s' V'.
Proof.
  intros Hf. induction 1 as [|o l Ho _ IH]; intros s V Hi; [by exists s, V|].
  destruct (use1_ok fuel start s V Hf Hi o Ho) as (s1 & V1 & E & Hi1 & _). cbn [use]. rewrite E. cbn [mbind option_bind]. by apply IH.
Qed.

(** The blocks a program has do not overlap and are in its memory. *)
Definition disjoint_blocks (start end_ : Z) (V : list (Z * Z)) : Prop :=
  (forall v, v ∈ V -> start <= v.1 /\ 0 <= v.2 /\ v.1 + v.2 <= end_) /\
  forall i j v w, V !! i = Some v -> V !! j = Some w -> i <> j -> v.1 + v.2 <= w.1 \/ w.1 + w.2 <= v.1.

Lemma uinv_disjoint start s V : uinv start s V -> disjoint_blocks start (brk s) V.
Proof.
  intros [(_ & -> & _)|(L & A & Hi & HV)]; [split; [set_solver|done]|]. split.
  - intros v [i Hv]%list_elem_of_lookup. destruct (Forall2_lookup_l _ _ _ _ _ HV Hv) as (b & Hb & Hv1 & Hv2).
    destruct (live_lookup _ _ _ _ _ (hi_live _ _ _ _ Hi) Hb) as [_ Hp _ Hhi _]. assert (within b.1 A) as Hw.
    { exists b. split; [by eapply list_elem_of_lookup_2|unfold inb; lia]. }
    pose proof (proj1 (hi_cover _ _ _ _ Hi b.1) (or_intror Hw)). lia.
  - intros i j v w Hv Hw Hij. destruct (Forall2_lookup_l _ _ _ _ _ HV Hv) as (b & Hb & Hv1 & Hv2).
    destruct (Forall2_lookup_l _ _ _ _ _ HV Hw) as (c & Hc & Hw1 & Hw2). destruct (hi_apart _ _ _ _ Hi i j b c Hb Hc Hij); lia.
Qed.

(** C9: whatever a program does with malloc and free and stores in its blocks,
    for requests below 2^31 - 16 bytes, each call returns; the blocks it has,
    of at least the sizes asked for, never overlap and lie in its memory; and
    no call changes a byte in a block that is kept. *)
Theorem blocks_stay_apart fuel l o s0 :
  freep s0 = 0 -> base + 8 <= brk s0 <= top -> top / 2 + 10 <= Z.of_nat fuel -> Forall uop_ok l -> uop_ok o ->
  exists s V s' V', use fuel l (s0, []) = Some (s, V) /\ use1 fuel o (s, V) = Some (s', V') /\
    disjoint_blocks (brk s0) (brk s) V /\ disjoint_blocks (brk s0) (brk s') V' /\ kept o s s' V V'.
Proof.
  intros H0 Hb Hf Hl Ho. assert (uinv (brk s0) s0 []) as Hi by (left; split_and!; done || lia).
  destruct (use_ok fuel (brk s0) l Hf Hl s0 [] Hi) as (s & V & E & Hi1). destruct (use1_ok fuel (brk s0) s V Hf Hi1 o Ho) as (s' & V' & E' & Hi' & Hk).
  exists s, V, s', V'. split_and!; try done; by apply uinv_disjoint.
Qed.

(** Free blocks that cover an interval and never touch are one block. *)
Lemma cover_single e start hi L : wf e L hi -> start < hi -> (forall x, within x L <-> start <= x < hi) -> exists n, L = [(start, n)] /\ 8 * n = hi - start.
Proof.
  intros Hw Hlt Hc. destruct L as [|[a n] L']; [exfalso; assert (within start []) as ?%within_nil by (apply Hc; lia); done|].
  destruct Hw as (He & Hn & Hw). simpl in *. assert (start <= a < hi) as Ha by (apply Hc, within_cons; left; unfold inb; simpl; lia).
  assert (a = start) as ->.
  { assert (within start ((a, n) :: L')) as [Hx|(b & Hb & Hx)]%within_cons by (apply Hc; lia); unfold inb in Hx; simpl in Hx; [lia|].
    pose proof (wf_elem _ _ _ _ Hw Hb). lia. }
  exists n. pose proof (wf_le _ _ _ Hw). destruct (decide (start + 8 * n = hi)) as [Eq|Hne].
  - destruct L' as [|c L'']; [split; [done|lia]|]. destruct Hw as (? & ? & Hw%wf_le). lia.
  - exfalso. assert (within (start + 8 * n) ((start, n) :: L')) as [Hx|(b & Hb & Hx)]%within_cons by (apply Hc; lia); unfold inb in Hx; simpl in Hx; [lia|].
    pose proof (wf_elem _ _ _ _ Hw Hb). lia.
Qed.

(** When a program has freed all its blocks, its allocator has one free
    block with all the memory it ever got, however the blocks were split and
    in whatever order they were freed (or it got none). *)
Theorem freed_memory_is_joined fuel l s0 s :
  freep s0 = 0 -> base + 8 <= brk s0 <= top -> top / 2 + 10 <= Z.of_nat fuel -> Forall uop_ok l ->
  use fuel l (s0, []) = Some (s, []) -> brk s0 < brk s -> exists n, heap base top s [(brk s0, n)] /\ 8 * n = brk s - brk s0.
Proof.
  intros H0 Hb Hf Hl E Hlt. assert (uinv (brk s0) s0 []) as Hi by (left; split_and!; done || lia).
  destruct (use_ok fuel (brk s0) l Hf Hl s0 [] Hi) as (s' & V & E' & Hi'). assert (s' = s /\ V = []) as [-> ->] by (by rewrite E in E'; injection E' as <- <-).
  destruct Hi' as [(_ & _ & _ & Hb' & _)|(L & A & Hh & ->%Forall2_nil_inv_l)]; [lia|].
  destruct (cover_single _ (brk s0) (brk s) L (hp_wf _ _ _ _ (hi_heap _ _ _ _ Hh)) Hlt) as (n & -> & Hn).
  - intros x. rewrite <- (hi_cover _ _ _ _ Hh x), within_nil. tauto.
  - exists n. split; [apply Hh|done].
Qed.

(** The size in units overflows for the last seven values: a request for almost
    4 GB is one for nothing. *)
Lemma malloc_huge_is_empty fuel nbytes s : 4294967289 <= nbytes < 4294967296 -> malloc base room fuel nbytes s = malloc base room fuel 0 s.
Proof.
  intros H. unfold malloc. replace (u32 (u32 (nbytes + 8 - 1) / 8 + 1)) with (u32 (u32 (0 + 8 - 1) / 8 + 1)); [done|]. f_equal. f_equal.
  replace (u32 (nbytes + 8 - 1)) with (nbytes - 4294967289).
  - rewrite (Z.div_small (nbytes - 4294967289)) by lia. done.
  - unfold u32. replace (nbytes + 8 - 1) with (nbytes - 4294967289 + 1 * 4294967296) by lia. rewrite Z.mod_add by lia. rewrite Z.mod_small; lia.
Qed.
End Use.

(** * Examples *)

(** A machine with room for a few pages. *)
Definition room1 (b n : Z) : bool := b + n <=? 0x20000.
Definition ust0 : ust := Ust (fun _ => 0) 0 0x3000.
Definition fuel1 : nat := Z.to_nat 0x10010.
Definition ops1 : list uop := [Malloc 100; Malloc 5; Poke 0 3 65; Malloc 40000; Free 1].

Lemma room1_ok b n : room1 b n = true -> b + n <= 0x20000.
Proof. intros H%Z.leb_le. done. Qed.

Lemma fuel1_ok : 0x20000 / 2 + 10 <= Z.of_nat fuel1.
Proof. unfold fuel1. rewrite Z2Nat.id; done. Qed.

Lemma blocks_stay_apart_witness :
  exists s V s' V', use 0x1000 room1 fuel1 ops1 (ust0, []) = Some (s, V) /\ use1 0x1000 room1 fuel1 (Malloc 7) (s, V) = Some (s', V') /\
    disjoint_blocks 0x3000 (brk s) V /\ disjoint_blocks 0x3000 (brk s') V' /\ kept (Malloc 7) s s' V V'.
Proof.
  apply (blocks_stay_apart 0x1000 eq_refl 0x20000 ltac:(lia) room1 room1_ok fuel1 ops1 (Malloc 7) ust0).
  - reflexivity.
  - simpl. lia.
  - exact fuel1_ok.
  - repeat constructor; simpl; lia.
  - simpl. lia.
Defined.

(** The blocks are freed in the order in which they were allocated. *)
Definition ops2 : list uop := [Malloc 100; Malloc 5; Free 1; Malloc 40000; Free 0; Free 0].

Lemma freed_memory_is_joined_witness :
  exists s, use 0x1000 room1 fuel1 ops2 (ust0, []) = Some (s, []) /\ exists n, heap 0x1000 0x20000 s [(0x3000, n)] /\ 8 * n = brk s - 0x3000.
Proof.
  assert (match use 0x1000 room1 fuel1 ops2 (ust0, []) with Some (s, V) => V = [] /\ 0x3000 < brk s | None => False end) as H
    by (vm_compute; split; reflexivity).
  destruct (use 0x1000 room1 fuel1 ops2 (ust0, [])) as [[s V]|] eqn:E; [|destruct H]. destruct H as [-> H]. exists s. split; [reflexivity|].
  apply (freed_memory_is_joined 0x1000 eq_refl 0x20000 ltac:(lia) room1 room1_ok fuel1 ops2 ust0 s).
  - reflexivity.
  - simpl. lia.
  - exact fuel1_ok.
  - repeat constructor; simpl; lia.
  - exact E.
  - exact H.
Defined.
