(* ===== verification/Sh.v ===== *)
(** The shell (src/xv6-public/sh.c): its parser, and the processes it starts.

    The line to parse is the list [b] of its bytes, without the NUL that
    follows it.  A pointer into it is an offset; [*ps] is the state of the
    parser.  A string that has been found is its two ends.  panic prints its
    argument and exits. *)
From Stdlib Require Import Ascii.
From S2P Require Import Prelude.

Definition MAXARGS : nat := 10.
Definition O_RDONLY : Z := 0.
Definition O_WRONLY : Z := 1.
Definition O_CREATE : Z := 0x200.

(** A string between two pointers. *)
Record span := Span { q_ : nat; eq_ : nat }.

(** struct cmd and the structures that start like it, with strings of type [A];
    [argv] and [eargv] are one list. *)
Inductive cmd_ (A : Type) :=
| EXEC (argv : list A)
| REDIR (c : cmd_ A) (file : A) (mode fd : Z)
| PIPE (left right : cmd_ A)
| LIST (left right : cmd_ A)
| BACK (c : cmd_ A).
Arguments EXEC {A}.
Arguments REDIR {A}.
Arguments PIPE {A}.
Arguments LIST {A}.
Arguments BACK {A}.
Notation cmd := (cmd_ span).

(** * Characters *)

Definition chr (c : Ascii.ascii) : Z := Z.of_nat (Ascii.nat_of_ascii c).
Arguments chr c%_char.
Definition str (s : string) : list Z := map chr (String.list_ascii_of_string s).

(** [strchr] of a string that is not empty at the NUL. *)
Definition strchr (s : list Z) (c : Z) : bool := negb (c =? 0) && bool_decide (c ∈ s).

Definition whitespace : list Z := [32; 9; 13; 10; 11].
Definition symbols : list Z := str "<|>&;()".

Section Parser.
Variable b : list Z.
Notation P := (M nat).

Definition es : nat := length b.
(** The byte at a pointer, the NUL at the end. *)
Definition at_ (s : nat) : Z := nth s b 0.

(** The length of the white space and of the word at the beginning of a list. *)
Fixpoint ws_len (l : list Z) : nat :=
  match l with
  | c :: l' => if strchr whitespace c then S (ws_len l') else O
  | [] => O
  end.
Fixpoint word_len (l : list Z) : nat :=
  match l with
  | c :: l' => if negb (strchr whitespace c) && negb (strchr symbols c) then S (word_len l') else O
  | [] => O
  end.

(** The loops over white space and over a word. *)
Definition skip_ws (s : nat) : nat := s + ws_len (drop s b).
Definition skip_word (s : nat) : nat := s + word_len (drop s b).

(** The token and its string; the state is the position after it. *)
Definition gettoken : P (Z * span) := fun ps =>
  let q := skip_ws ps in
  let c := at_ q in
  let '(r, s) :=
    if c =? 0 then (c, q)
    else if bool_decide (c ∈ str "|();&<") then (c, S q)
    else if c =? chr ">" then if at_ (S q) =? chr ">" then (chr "+", S (S q)) else (c, S q)
    else (chr "a", skip_word q) in
  Ret (r, Span q s) (skip_ws s).

Definition peek (toks : list Z) : P bool := fun ps =>
  let s := skip_ws ps in
  Ret (negb (at_ s =? 0) && strchr toks (at_ s)) s.

(** One redirection: the string, mode and descriptor. *)
Definition redir := (span * Z * Z)%type.

(** The redirections found, in order.  They are put around a command that may
    still get arguments, see [parseexec]. *)
Fixpoint parseredirs (fuel : nat) : P (list redir) :=
  match fuel with
  | O => fun s => OutOfFuel s
  | S fuel' =>
      p <- peek (str "<>") ;;
      if negb p then ret [] else
      t <- gettoken ;;
      f <- gettoken ;;
      if negb (f.1 =? chr "a") then panic "missing file for redirection" else
      let r := if t.1 =? chr "<" then (f.2, O_RDONLY, 0) else (f.2, Z.lor O_WRONLY O_CREATE, 1) in
      l <- parseredirs fuel' ;;
      ret (r :: l)
  end.

(** redircmd around a command, the first redirection innermost. *)
Definition redircmds (c : cmd) (l : list redir) : cmd := fold_left (fun c r => REDIR c r.1.1 r.1.2 r.2) l c.

(** The loop of parseexec: the arguments and the redirections around the
    command so far. *)
Fixpoint parseargs (fuel : nat) (argv : list span) (rs : list redir) : P cmd :=
  match fuel with
  | O => fun s => OutOfFuel s
  | S fuel' =>
      p <- peek (str "|)&;") ;;
      if p then ret (redircmds (EXEC argv) rs) else
      t <- gettoken ;;
      if t.1 =? 0 then ret (redircmds (EXEC argv) rs) else
      if negb (t.1 =? chr "a") then panic "syntax" else
      let argv := argv ++ [t.2] in
      if (MAXARGS <=? length argv)%nat then panic "too many args" else
      l <- parseredirs fuel' ;;
      parseargs fuel' argv (rs ++ l)
  end.

(** [while(peek(ps, es, "&"))]. *)
Fixpoint parseback (fuel : nat) (c : cmd) : P cmd :=
  match fuel with
  | O => fun s => OutOfFuel s
  | S fuel' =>
      p <- peek (str "&") ;;
      if negb p then ret c else
      gettoken ;;
      parseback fuel' (BACK c)
  end.

Fixpoint parseline (fuel : nat) : P cmd :=
  match fuel with
  | O => fun s => OutOfFuel s
  | S fuel' =>
      c <- parsepipe fuel' ;;
      c <- parseback fuel' c ;;
      p <- peek (str ";") ;;
      if negb p then ret c else
      gettoken ;;
      r <- parseline fuel' ;;
      ret (LIST c r)
  end
with parsepipe (fuel : nat) : P cmd :=
  match fuel with
  | O => fun s => OutOfFuel s
  | S fuel' =>
      c <- parseexec fuel' ;;
      p <- peek (str "|") ;;
      if negb p then ret c else
      gettoken ;;
      r <- parsepipe fuel' ;;
      ret (PIPE c r)
  end
with parseexec (fuel : nat) : P cmd :=
  match fuel with
  | O => fun s => OutOfFuel s
  | S fuel' =>
      p <- peek (str "(") ;;
      if p then parseblock fuel' else
      rs <- parseredirs fuel' ;;
      parseargs fuel' [] rs
  end
with parseblock (fuel : nat) : P cmd :=
  match fuel with
  | O => fun s => OutOfFuel s
  | S fuel' =>
      p <- peek (str "(") ;;
      if negb p then panic "parseblock" else
      gettoken ;;
      c <- parseline fuel' ;;
      p <- peek (str ")") ;;
      if negb p then panic "syntax - missing )" else
      gettoken ;;
      rs <- parseredirs fuel' ;;
      ret (redircmds c rs)
  end.

(** * NUL-terminating the strings *)

(** The ends of the strings, in the order in which they are overwritten. *)
Fixpoint ends (c : cmd) : list nat :=
  match c with
  | EXEC argv => map eq_ argv
  | REDIR c f _ _ => ends c ++ [eq_ f]
  | PIPE l r | LIST l r => ends l ++ ends r
  | BACK c => ends c
  end.

(** The line with its NUL, overwritten. *)
Definition nulterminate (c : cmd) : list Z := fold_left (fun m e => <[e := 0]> m) (ends c) (b ++ [0]).

Definition parsecmd (fuel : nat) : P (cmd * list Z) :=
  c <- parseline fuel ;;
  peek [] ;;
  s <- gets (fun s => s) ;;
  if negb (s =? es)%nat then panic "syntax" else
  ret (c, nulterminate c).
End Parser.
