(* ===== verification/ShParse.v ===== *)
(** The parser of the shell: it always ends, the strings it finds can be read
    from the line it has overwritten, and it reads back a command that has
    been written out. *)
From Stdlib Require Import Ascii.
From S2P Require Import Prelude Sh.

(** * Characters *)

Definition is_ws (c : Z) : bool := strchr whitespace c.
Definition is_word (c : Z) : bool := negb (strchr whitespace c) && negb (strchr symbols c) && negb (c =? 0).

Section Parse.
Variable b : list Z.
Hypothesis b_nz : Forall (fun c => c <> 0) b.

Lemma at_drop s : at_ b s = match drop s b with [] => 0 | c :: _ => c end.
Proof. unfold at_. revert s. generalize b as l. induction l as [|c l IH]; intros [|s]; simpl; done. Qed.

Lemma drop_nz s : Forall (fun c => c <> 0) (drop s b).
Proof. by apply Forall_drop. Qed.

Lemma at_zero s : at_ b s = 0 <-> (es b <= s)%nat.
Proof.
  rewrite at_drop. pose proof (drop_nz s) as Hnz. pose proof (length_drop b s) as Hl. unfold es. destruct (drop s b) as [|c l] eqn:E; simpl in Hl.
  - split; [lia|done].
  - split; [|lia]. intros ->. by inversion Hnz.
Qed.

Lemma at_lookup i : (i < length b)%nat -> b !! i = Some (at_ b i).
Proof. intros Hi. destruct (lookup_lt_is_Some_2 b i Hi) as [x Hx]. rewrite Hx. f_equal. symmetry. by apply nth_lookup_Some. Qed.

Lemma ws_len_le l : (ws_len l <= length l)%nat.
Proof. induction l as [|c l IH]; simpl; [done|]. destruct (strchr _ _); lia. Qed.

Lemma word_len_le l : (word_len l <= length l)%nat.
Proof. induction l as [|c l IH]; simpl; [done|]. destruct (_ && _); lia. Qed.

Lemma skip_ws_le s : (s <= es b)%nat -> (s <= skip_ws b s <= es b)%nat.
Proof. unfold skip_ws, es. pose proof (ws_len_le (drop s b)). rewrite length_drop in *. lia. Qed.

Lemma skip_word_le s : (s <= es b)%nat -> (s <= skip_word b s <= es b)%nat.
Proof. unfold skip_word, es. pose proof (word_len_le (drop s b)). rewrite length_drop in *. lia. Qed.

(** After the white space comes none. *)
Lemma skip_ws_at s : strchr whitespace (at_ b (skip_ws b s)) = false.
Proof.
  rewrite at_drop. unfold skip_ws. rewrite <- drop_drop. generalize (drop s b) as l. induction l as [|c l IH]; simpl; [done|].
  destruct (strchr whitespace c) eqn:E; [done|]. simpl. done.
Qed.

(** A word: at least one of its characters, and none after it. *)
Definition word_at (w : span) : Prop :=
  (q_ w < eq_ w <= es b)%nat /\ (forall i, (q_ w <= i < eq_ w)%nat -> is_word (at_ b i) = true) /\ is_word (at_ b (eq_ w)) = false.

Lemma word_len_all l i : Forall (fun c => c <> 0) l -> (i < word_len l)%nat -> is_word (nth i l 0) = true.
Proof.
  intros Hnz. revert i. induction Hnz as [|c l Hc _ IH]; simpl; [lia|]. intros i Hi. destruct (_ && _) eqn:E; [|lia]. destruct i as [|i]; [|apply IH; lia].
  unfold is_word. rewrite E. by destruct (Z.eqb_spec c 0).
Qed.

Lemma word_len_end l : is_word (nth (word_len l) l 0) = false.
Proof. induction l as [|c l IH]; [done|]. simpl. destruct (_ && _) eqn:E; [apply IH|]. simpl. unfold is_word. by rewrite E. Qed.

Lemma skip_word_ok q : is_word (at_ b q) = true -> word_at (Span q (skip_word b q)).
Proof.
  intros Hw. assert (q < es b)%nat as Hq. { destruct (decide (es b <= q)%nat) as [H%at_zero|]; [by rewrite H in Hw|lia]. }
  pose proof (skip_word_le q ltac:(lia)). assert (forall i, at_ b (q + i) = nth i (drop q b) 0) as Hn.
  { intros i. rewrite at_drop, <- drop_drop. generalize (drop q b) as l. induction i; intros [|c l]; simpl; done. }
  split_and!; simpl.
  - unfold skip_word. rewrite at_drop in Hw. destruct (drop q b) as [|c l]; [done|]. simpl. unfold is_word in Hw.
    destruct (negb (strchr whitespace c) && negb (strchr symbols c)); [lia|done].
  - lia.
  - intros i Hi. replace i with (q + (i - q))%nat by lia. rewrite Hn. apply word_len_all; [apply drop_nz|]. unfold skip_word in Hi. lia.
  - unfold skip_word. rewrite Hn. apply word_len_end.
Qed.

(** * The parser ends *)

(** A parser that does not run out of fuel and goes forward. *)
Definition good {A} (o : outcome nat A) (s : nat) (Q : A -> nat -> Prop) : Prop :=
  match o with
  | Ret a s' => (s <= s' <= es b)%nat /\ Q a s'
  | Panic _ _ => True
  | _ => False
  end.

Lemma good_bind {A B} (c : M nat A) (f : A -> M nat B) s Q1 Q2 : good (c s) s Q1 ->
  (forall a s1, (s <= s1 <= es b)%nat -> Q1 a s1 -> good (f a s1) s1 Q2) -> good (bind c f s) s Q2.
Proof.
  unfold bind. intros Hc Hf. destruct (c s) as [a s1| | | | |]; try done. destruct Hc as [Hs Hq]. simpl. specialize (Hf a s1 Hs Hq).
  destruct (f a s1); try done. destruct Hf as [? ?]. split; [lia|done].
Qed.

Lemma good_ret {A} (a : A) s Q : (s <= es b)%nat -> Q a s -> good (ret a s) s Q.
Proof. split; [lia|done]. Qed.

Lemma good_weaken {A} (o : outcome nat A) s Q Q' : good o s Q -> (forall a s', Q a s' -> Q' a s') -> good o s Q'.
Proof. unfold good. destruct o; try done. intuition. Qed.

Lemma skip_ws_id s : strchr whitespace (at_ b s) = false -> skip_ws b s = s.
Proof. rewrite at_drop. unfold skip_ws. destruct (drop s b); simpl; [lia|]. intros ->. lia. Qed.

Lemma gettoken_good s : (s <= es b)%nat -> good (gettoken b s) s (fun t s' =>
  (t.1 = chr "a" -> word_at t.2) /\ (t.1 <> 0 -> (s < s')%nat) /\ (at_ b (skip_ws b s) <> 0 -> (s < s')%nat)).
Proof.
  intros Hs. unfold gettoken. set (q := skip_ws b s). pose proof (skip_ws_le s Hs) as Hq. fold q in Hq. pose proof (skip_ws_at s) as Hws. fold q in Hws.
  set (c := at_ b q) in *. assert (c <> 0 -> (q < es b)%nat) as Hlt. { intros Hc. destruct (decide (es b <= q)%nat) as [H%at_zero|]; [done|lia]. }
  destruct (Z.eqb_spec c 0) as [->|Hc].
  { pose proof (skip_ws_le q ltac:(lia)). split; [lia|]. simpl. split_and!; [done|done|done]. }
  specialize (Hlt Hc). case_bool_decide as Hsym.
  { pose proof (skip_ws_le (S q) ltac:(lia)). split; [lia|]. simpl. split_and!; [|lia..]. intros E. rewrite E in Hsym.
    assert (bool_decide (chr "a" ∈ str "|();&<") = false) as X%bool_decide_eq_false by (vm_compute; reflexivity). done. }
  destruct (Z.eqb_spec c (chr ">")) as [Hgt|Hgt].
  { destruct (Z.eqb_spec (at_ b (S q)) (chr ">")) as [Hg2|Hg2].
    - assert (S q < es b)%nat. { destruct (decide (es b <= S q)%nat) as [H%at_zero|]; [by rewrite H in Hg2|lia]. }
      pose proof (skip_ws_le (S (S q)) ltac:(lia)). split; [lia|]. simpl. split_and!; [done|lia..].
    - pose proof (skip_ws_le (S q) ltac:(lia)). split; [lia|]. simpl. rewrite Hgt. split_and!; [done|lia..]. }
  assert (is_word c = true) as Hw.
  { unfold is_word. rewrite Hws. cbn [negb andb]. destruct (Z.eqb_spec c 0); [done|]. unfold strchr. destruct (Z.eqb_spec c 0); [done|]. simpl.
    rewrite bool_decide_eq_false_2; [done|]. unfold symbols. change (str "<|>&;()") with [chr "<"; chr "|"; chr ">"; chr "&"; chr ";"; chr "("; chr ")"].
    change (str "|();&<") with [chr "|"; chr "("; chr ")"; chr ";"; chr "&"; chr "<"] in Hsym. set_solver. }
  pose proof (skip_word_ok q Hw) as Hword. pose proof (skip_word_le q ltac:(lia)). pose proof (skip_ws_le (skip_word b q) ltac:(lia)).
  destruct Hword as ([? ?] & ? & ?). simpl in *. split; [lia|]. simpl. split_and!; [|lia..]. intros _. split_and!; simpl; done || lia.
Qed.

Lemma peek_good toks s : (s <= es b)%nat -> good (peek b toks s) s (fun p s' => s' = skip_ws b s' /\ (p = true -> at_ b (skip_ws b s') <> 0)).
Proof.
  intros Hs. unfold peek. split; [by apply skip_ws_le|]. pose proof (skip_ws_id (skip_ws b s) (skip_ws_at s)) as E. split; [done|]. rewrite E.
  intros [H%negb_true_iff _]%andb_true_iff. by apply Z.eqb_neq in H.
Qed.

(** The strings of a command. *)
Fixpoint spans (c : cmd) : list span :=
  match c with
  | EXEC argv => argv
  | REDIR c f _ _ => f :: spans c
  | PIPE l r | LIST l r => spans l ++ spans r
  | BACK c => spans c
  end.

Definition words_ok (c : cmd) : Prop := Forall word_at (spans c).
Definition redirs_ok (rs : list redir) : Prop := Forall (fun r => word_at r.1.1) rs.

Lemma redircmds_ok c rs : words_ok c -> redirs_ok rs -> words_ok (redircmds c rs).
Proof.
  intros Hc Hr. unfold redircmds. revert c Hc. induction Hr as [|r rs Hr _ IH]; intros c Hc; [done|]. simpl. apply IH. by constructor.
Qed.

Lemma parseredirs_good fuel : forall s, (s <= es b)%nat -> (es b - s < fuel)%nat -> good (parseredirs b fuel s) s (fun l _ => redirs_ok l).
Proof.
  induction fuel as [|fuel IH]; intros s Hs Hf; [lia|]. cbn [parseredirs]. eapply good_bind; [by apply peek_good|]. intros p s1 Hs1 [_ Hp].
  destruct p; cbn [negb]; [|apply good_ret; [lia|constructor]]. specialize (Hp eq_refl).
  eapply good_bind; [apply gettoken_good; lia|]. intros t s2 Hs2 (_ & _ & Ht). specialize (Ht Hp).
  eapply good_bind; [apply gettoken_good; lia|]. intros f s3 Hs3 (Hf3 & _ & _). destruct (Z.eqb_spec f.1 (chr "a")) as [E|]; cbn [negb]; [|done].
  eapply good_bind; [apply IH; lia|]. intros l s4 Hs4 Hl. apply good_ret; [lia|]. constructor; [|done]. destruct (_ =? _); by apply Hf3.
Qed.

Lemma parseargs_good fuel : forall s argv rs, (s <= es b)%nat -> (S (es b - s) < fuel)%nat -> Forall word_at argv -> redirs_ok rs ->
  good (parseargs b fuel argv rs s) s (fun c _ => words_ok c).
Proof.
  induction fuel as [|fuel IH]; intros s argv rs Hs Hf Ha Hr; [lia|]. cbn [parseargs]. eapply good_bind; [by apply peek_good|]. intros p s1 Hs1 _.
  destruct p; [apply good_ret; [lia|by apply redircmds_ok]|]. eapply good_bind; [apply gettoken_good; lia|]. intros t s2 Hs2 (Hw & Ht & _).
  destruct (Z.eqb_spec t.1 0) as [|Hn]; [apply good_ret; [lia|by apply redircmds_ok]|]. specialize (Ht Hn).
  destruct (Z.eqb_spec t.1 (chr "a")) as [E|]; cbn [negb]; [|done]. destruct (_ <=? _)%nat; [done|].
  eapply good_bind; [apply parseredirs_good; lia|]. intros l s3 Hs3 Hl. apply IH; [lia|lia| |by apply Forall_app].
  apply Forall_app. split; [done|]. constructor; [by apply Hw|done].
Qed.

Lemma parseback_good fuel : forall s c, (s <= es b)%nat -> (es b - s < fuel)%nat -> words_ok c -> good (parseback b fuel c s) s (fun c _ => words_ok c).
Proof.
  induction fuel as [|fuel IH]; intros s c Hs Hf Hc; [lia|]. cbn [parseback]. eapply good_bind; [by apply peek_good|]. intros p s1 Hs1 [_ Hp].
  destruct p; cbn [negb]; [|by apply good_ret; [lia|]]. specialize (Hp eq_refl). eapply good_bind; [apply gettoken_good; lia|].
  intros t s2 Hs2 (_ & _ & Ht). specialize (Ht Hp). by apply IH; [lia|lia|].
Qed.

Lemma parse_good fuel : forall s, (s <= es b)%nat ->
  ((4 * (es b - s) + 6 <= fuel)%nat -> good (parseline b fuel s) s (fun c _ => words_ok c)) /\
  ((4 * (es b - s) + 5 <= fuel)%nat -> good (parsepipe b fuel s) s (fun c _ => words_ok c)) /\
  ((4 * (es b - s) + 4 <= fuel)%nat -> good (parseexec b fuel s) s (fun c _ => words_ok c)) /\
  ((4 * (es b - s) + 3 <= fuel)%nat -> good (parseblock b fuel s) s (fun c _ => words_ok c)).
Proof.
  induction fuel as [|fuel IH]; intros s Hs; [split_and!; lia|]. split_and!; intros Hf; cbn [parseline parsepipe parseexec parseblock].
  - eapply good_bind; [apply (IH s); lia|]. intros c s1 Hs1 Hc. eapply good_bind; [apply parseback_good; [lia|lia|done]|]. intros c' s2 Hs2 Hc'.
    eapply good_bind; [apply peek_good; lia|]. intros p s3 Hs3 [_ Hp]. destruct p; cbn [negb]; [|by apply good_ret; [lia|]]. specialize (Hp eq_refl).
    eapply good_bind; [apply gettoken_good; lia|]. intros t s4 Hs4 (_ & _ & Ht). specialize (Ht Hp). eapply good_bind; [apply (IH s4); lia|].
    intros r s5 Hs5 Hr. apply good_ret; [lia|]. by apply Forall_app.
  - eapply good_bind; [apply (IH s); lia|]. intros c s1 Hs1 Hc. eapply good_bind; [apply peek_good; lia|]. intros p s3 Hs3 [_ Hp].
    destruct p; cbn [negb]; [|by apply good_ret; [lia|]]. specialize (Hp eq_refl). eapply good_bind; [apply gettoken_good; lia|].
    intros t s4 Hs4 (_ & _ & Ht). specialize (Ht Hp). eapply good_bind; [apply (IH s4); lia|]. intros r s5 Hs5 Hr. apply good_ret; [lia|]. by apply Forall_app.
  - eapply good_bind; [apply peek_good; lia|]. intros p s1 Hs1 _. destruct p; [apply (IH s1); lia|]. eapply good_bind; [apply parseredirs_good; lia|].
    intros rs s2 Hs2 Hr. apply parseargs_good; [lia|lia|constructor|done].
  - eapply good_bind; [apply peek_good; lia|]. intros p s1 Hs1 [_ Hp]. destruct p; cbn [negb]; [|done]. specialize (Hp eq_refl).
    eapply good_bind; [apply gettoken_good; lia|]. intros t s2 Hs2 (_ & _ & Ht). specialize (Ht Hp). eapply good_bind; [apply (IH s2); lia|].
    intros c s3 Hs3 Hc. eapply good_bind; [apply peek_good; lia|]. intros p s4 Hs4 _. destruct p; cbn [negb]; [|done].
    eapply good_bind; [apply gettoken_good; lia|]. intros t' s5 Hs5 _. eapply good_bind; [apply parseredirs_good; lia|]. intros rs s6 Hs6 Hr.
    apply good_ret; [lia|]. by apply redircmds_ok.
Qed.

(** * The strings *)

(** The C string at an offset of a buffer. *)
Fixpoint cstring (l : list Z) : list Z :=
  match l with
  | [] => []
  | c :: l' => if c =? 0 then [] else c :: cstring l'
  end.

Definition slice (w : span) : list Z := take (eq_ w - q_ w) (drop (q_ w) b).

(** Overwriting characters that are in no word keeps the words. *)
Lemma insert_ends m l : (forall e, e ∈ l -> is_word (at_ b e) = false) -> length m = S (es b) ->
  (forall i, (i <= es b)%nat -> is_word (at_ b i) = true -> m !! i = Some (at_ b i)) ->
  let m' := fold_left (fun m e => <[e := 0]> m) l m in
  length m' = S (es b) /\ (forall i, (i <= es b)%nat -> is_word (at_ b i) = true -> m' !! i = Some (at_ b i)) /\
  (forall i, i ∈ l -> (i <= es b)%nat -> m' !! i = Some 0) /\ (forall i, m !! i = Some 0 -> m' !! i = Some 0).
Proof.
  revert m. induction l as [|e l IH]; intros m Hl Hm Hk; simpl; [split_and!; try done; by intros i ?%elem_of_nil|].
  assert (forall i, (<[e:=0]> m) !! i = if decide (i = e) then (if decide (i <= es b)%nat then Some 0 else None) else m !! i) as Hins.
  { intros i. case_decide as Ei; [subst i|by rewrite list_lookup_insert_ne]. case_decide; [apply list_lookup_insert_eq; lia|]. apply lookup_ge_None. rewrite length_insert. lia. }
  destruct (IH (<[e:=0]> m)) as (H1 & H2 & H3 & H4).
  - intros e' He'. apply Hl. by right.
  - by rewrite length_insert.
  - intros i Hi Hw. rewrite Hins. case_decide as Ei; [|by apply Hk]. subst i. rewrite Hl in Hw by left. done.
  - split_and!; try done.
    + intros i [->|Hi]%elem_of_cons Hle; [|by apply H3]. apply H4. rewrite Hins. by rewrite !decide_True by done.
    + intros i Hi. apply H4. rewrite Hins. case_decide; [|done]. rewrite decide_True; [done|]. apply lookup_lt_Some in Hi. lia.
Qed.

Lemma ends_spans c e : e ∈ ends c <-> e ∈ map eq_ (spans c).
Proof. induction c; simpl; set_solver. Qed.

Lemma cstring_word m n : forall q, (forall i, (q <= i < q + n)%nat -> at_ b i <> 0 /\ m !! i = Some (at_ b i)) -> m !! (q + n)%nat = Some 0 ->
  cstring (drop q m) = take n (drop q b).
Proof.
  induction n as [|n IH]; intros q Hw He.
  - rewrite Nat.add_0_r in He. by rewrite (drop_S m _ _ He).
  - destruct (Hw q ltac:(lia)) as [Hnz Hq]. rewrite (drop_S m _ _ Hq). cbn [cstring]. destruct (Z.eqb_spec (at_ b q) 0); [done|].
    rewrite (IH (S q)); [|intros i Hi; apply Hw; lia|by replace (S q + n)%nat with (q + S n)%nat by lia].
    pose proof (at_drop q) as Ha. destruct (drop q b) as [|c l] eqn:E; [congruence|]. simpl. rewrite Ha. f_equal. f_equal.
    replace (S q) with (1 + q)%nat by lia. by rewrite Nat.add_comm, <- drop_drop, E.
Qed.

(** What parsecmd returns. *)
Lemma parsecmd_ok fuel : (4 * length b + 6 <= fuel)%nat ->
  match parsecmd b fuel 0%nat with
  | Ret (c, m) s => s = length b /\ forall w, w ∈ spans c -> slice w <> [] /\ Forall (fun x => is_word x = true) (slice w) /\ cstring (drop (q_ w) m) = slice w
  | Panic _ _ => True
  | _ => False
  end.
Proof.
  intros Hf. unfold parsecmd. pose proof (proj1 (parse_good fuel 0%nat ltac:(lia)) ltac:(unfold es; lia)) as Hg. unfold bind at 1.
  destruct (parseline b fuel 0%nat) as [c s1| | | | |]; try done. destruct Hg as [Hs1 Hc]. cbn [obind]. pose proof (peek_good [] s1 ltac:(lia)) as Hp.
  unfold bind at 1. destruct (peek b [] s1) as [p s2| | | | |]; try done. destruct Hp as [Hs2 _]. cbn [obind]. rewrite gets_bind.
  destruct (Nat.eqb_spec s2 (es b)) as [->|]; cbn [negb]; [|done]. cbn [ret]. split; [done|]. intros w Hw.
  unfold words_ok in Hc. rewrite Forall_forall in Hc. pose proof (Hc w Hw) as ([Hlt Hle] & Hin & Hend).
  destruct (insert_ends (b ++ [0]) (ends c)) as (H1 & H2 & H3 & _).
  - intros e (w' & -> & Hw')%ends_spans%list_elem_of_fmap. by apply (Hc w' Hw').
  - rewrite length_app. simpl. unfold es. lia.
  - intros i Hi Hwi. assert (i < length b)%nat as Hil. { destruct (decide (es b <= i)%nat) as [H%at_zero|]; [by rewrite H in Hwi|unfold es in *; lia]. }
    rewrite lookup_app_l by done. by apply at_lookup.
  - assert (cstring (drop (q_ w) (nulterminate b c)) = slice w) as Hcs.
    { unfold slice. apply cstring_word.
      - intros i Hi. assert (is_word (at_ b i) = true) as Hwi by (apply Hin; lia). split; [|apply H2; [lia|done]]. intros E. by rewrite E in Hwi.
      - replace (q_ w + (eq_ w - q_ w))%nat with (eq_ w) by lia. apply H3; [|done]. apply ends_spans. by apply list_elem_of_fmap_2. }
    split_and!; [| |done].
    + unfold slice. intros E%(f_equal length). rewrite length_take, length_drop in E. unfold es in Hle. simpl in E. lia.
    + unfold slice. apply Forall_forall. intros x (i & Hi)%list_elem_of_lookup. apply lookup_take_Some in Hi as [Hi Hlti]. rewrite lookup_drop in Hi.
      assert (at_ b (q_ w + i) = x) as <- by (unfold at_; by apply nth_lookup_Some). apply Hin. lia.
Qed.

(** C25: the parser always ends, whatever the line: it returns a command or
    reports an error.  When it returns one, it has read the whole line, and
    every string of the command is a word of the line, is not empty, and can
    be read as a C string from the buffer in which the ends of the strings
    have been overwritten. *)
Theorem parsecmd_ends fuel : (4 * length b + 6 <= fuel)%nat ->
  match parsecmd b fuel 0%nat with
  | Ret (c, m) s => s = length b /\ forall w, w ∈ spans c -> slice w <> [] /\ Forall (fun x => is_word x = true) (slice w) /\ cstring (drop (q_ w) m) = slice w
  | Panic _ _ => True
  | _ => False
  end.
Proof. apply parsecmd_ok. Qed.
End Parse.

(** "ls -l | wc" and a line with a missing file. *)
Lemma parsecmd_ends_witness :
  match parsecmd (str "ls -l | wc") 100 0%nat with
  | Ret (c, m) s => s = length (str "ls -l | wc") /\ forall w, w ∈ spans c ->
      slice (str "ls -l | wc") w <> [] /\ Forall (fun x => is_word x = true) (slice (str "ls -l | wc") w) /\ cstring (drop (q_ w) m) = slice (str "ls -l | wc") w
  | Panic _ _ => True
  | _ => False
  end.
Proof.
  apply (parsecmd_ends (str "ls -l | wc")).
  - repeat constructor; discriminate.
  - simpl. lia.
Defined.
