(* ===== verification/ShPrint.v ===== *)
(** The parser of the shell reads back every command of its grammar that has
    been written out. *)
From Stdlib Require Import Ascii.
From S2P Require Import Prelude Sh ShParse.

(** * Commands and how they are written *)

Inductive rkind := RIn | ROut | RAppend.
Definition rd := (rkind * list Z)%type.

(** A line: a pipeline, some ampersands, and after a semicolon another line; a
    pipeline: commands separated by bars; a command: words and redirections, or
    a line in parentheses with redirections. *)
Inductive line_ :=
| Line (p : pipe_) (amps : nat)
| Seq (p : pipe_) (amps : nat) (l : line_)
with pipe_ :=
| One (e : exec_)
| Piped (e : exec_) (p : pipe_)
with exec_ :=
| Simple (rs : list rd) (args : list (list Z * list rd))
| Block (l : line_) (rs : list rd).

Scheme line_ind2 := Induction for line_ Sort Prop
with pipe_ind2 := Induction for pipe_ Sort Prop
with exec_ind2 := Induction for exec_ Sort Prop.
Combined Scheme syntax_ind from line_ind2, pipe_ind2, exec_ind2.

Definition SP : Z := 32.
Definition show_kind (k : rkind) : list Z := match k with RIn => str "<" | ROut => str ">" | RAppend => str ">>" end.
Definition show_rds (rs : list rd) : list Z := concat (map (fun r => show_kind r.1 ++ SP :: r.2 ++ [SP]) rs).
Definition show_args (args : list (list Z * list rd)) : list Z := concat (map (fun a => a.1 ++ SP :: show_rds a.2) args).
Definition sym (c : ascii) : list Z := [chr c; SP].
Arguments sym c%_char.

Fixpoint show_line (l : line_) : list Z :=
  match l with
  | Line p n => show_pipe p ++ concat (replicate n (sym "&"))
  | Seq p n l => show_pipe p ++ concat (replicate n (sym "&")) ++ sym ";" ++ show_line l
  end
with show_pipe (p : pipe_) : list Z :=
  match p with
  | One e => show_exec e
  | Piped e p => show_exec e ++ sym "|" ++ show_pipe p
  end
with show_exec (e : exec_) : list Z :=
  match e with
  | Simple rs args => show_rds rs ++ show_args args
  | Block l rs => sym "(" ++ show_line l ++ sym ")" ++ show_rds rs
  end.

(** The command that is meant, with its strings. *)
Definition add_rd (c : cmd_ (list Z)) (r : rd) : cmd_ (list Z) :=
  match r.1 with
  | RIn => REDIR c r.2 O_RDONLY 0
  | _ => REDIR c r.2 (Z.lor O_WRONLY O_CREATE) 1
  end.
Definition backs (n : nat) (c : cmd_ (list Z)) : cmd_ (list Z) := Nat.iter n BACK c.

Fixpoint tree_line (l : line_) : cmd_ (list Z) :=
  match l with
  | Line p n => backs n (tree_pipe p)
  | Seq p n l => LIST (backs n (tree_pipe p)) (tree_line l)
  end
with tree_pipe (p : pipe_) : cmd_ (list Z) :=
  match p with
  | One e => tree_exec e
  | Piped e p => PIPE (tree_exec e) (tree_pipe p)
  end
with tree_exec (e : exec_) : cmd_ (list Z) :=
  match e with
  | Simple rs args => fold_left add_rd (rs ++ concat (map snd args)) (EXEC (map fst args))
  | Block l rs => fold_left add_rd rs (tree_line l)
  end.

(** Words are not empty and have no white space or symbols; a command has less
    than MAXARGS words. *)
Definition word (w : list Z) : Prop := w <> [] /\ Forall (fun c => is_word c = true) w.
Definition rds_ok (rs : list rd) : Prop := Forall (fun r => word r.2) rs.

Fixpoint line_ok (l : line_) : Prop :=
  match l with
  | Line p _ => pipe_ok p
  | Seq p _ l => pipe_ok p /\ line_ok l
  end
with pipe_ok (p : pipe_) : Prop :=
  match p with
  | One e => exec_ok e
  | Piped e p => exec_ok e /\ pipe_ok p
  end
with exec_ok (e : exec_) : Prop :=
  match e with
  | Simple rs args => rds_ok rs /\ Forall (fun a => word a.1 /\ rds_ok a.2) args /\ (length args < MAXARGS)%nat
  | Block l rs => line_ok l /\ rds_ok rs
  end.

Fixpoint cmd_map {A B} (f : A -> B) (c : cmd_ A) : cmd_ B :=
  match c with
  | EXEC argv => EXEC (map f argv)
  | REDIR c w mode fd => REDIR (cmd_map f c) (f w) mode fd
  | PIPE l r => PIPE (cmd_map f l) (cmd_map f r)
  | LIST l r => LIST (cmd_map f l) (cmd_map f r)
  | BACK c => BACK (cmd_map f c)
  end.

(** A closed statement on characters that can be computed. *)
Ltac by_dec := first [refine (bool_decide_eq_true_1 _ _); vm_compute; reflexivity | refine (bool_decide_eq_false_1 _ _); vm_compute; reflexivity].

(** * Tokens *)

Section Print.
Variable b : list Z.

(** What is left of the line at a position. *)
Definition here (s : nat) (l : list Z) : Prop := drop s b = l /\ (s + length l = length b)%nat.

Lemma here_app s l1 l2 : here s (l1 ++ l2) -> here (s + length l1) l2.
Proof.
  intros [H1 H2]. rewrite length_app in H2. split; [|lia]. by rewrite <- drop_drop, H1, drop_app_length.
Qed.

Lemma here_slice s w rest : here s (w ++ rest) -> slice b (Span s (s + length w)) = w.
Proof. intros [H _]. unfold slice. simpl. rewrite H. replace (s + length w - s)%nat with (length w) by lia. apply take_app_length. Qed.

Lemma here_at s l : here s l -> at_ b s = match l with [] => 0 | c :: _ => c end.
Proof. intros [H _]. by rewrite at_drop, H. Qed.

(** A list that does not start with white space. *)
Definition nows (l : list Z) : Prop := match l with [] => True | c :: _ => strchr whitespace c = false end.

Lemma skip_here s l : here s l -> nows l -> skip_ws b s = s.
Proof. intros [H _] Hn. unfold skip_ws. rewrite H. destruct l as [|c l]; simpl; [lia|]. simpl in Hn. rewrite Hn. lia. Qed.

Lemma skip_space s l : here s (SP :: l) -> nows l -> skip_ws b s = S s.
Proof. intros [H _] Hn. unfold skip_ws. rewrite H. simpl. destruct l as [|c l]; simpl; [lia|]. simpl in Hn. rewrite Hn. lia. Qed.

Lemma peek_here toks s l : here s l -> nows l ->
  peek b toks s = Ret (match l with [] => false | c :: _ => negb (c =? 0) && strchr toks c end) s.
Proof. intros H Hn. unfold peek. rewrite (skip_here s l H Hn), (here_at s l H). by destruct l. Qed.

Lemma gettoken_sym c s l : here s (c :: SP :: l) -> nows l -> c ∈ str "|();&<" -> gettoken b s = Ret (c, Span s (S s)) (S (S s)) /\ here (S (S s)) l.
Proof.
  intros H Hn Hc. pose proof (here_app s [c] (SP :: l) H) as H1. rewrite Nat.add_1_r in H1. pose proof (here_app (S s) [SP] l H1) as H2. rewrite Nat.add_1_r in H2. split; [|done].
  assert (c <> 0 /\ strchr whitespace c = false) as [Hc0 Hws].
  { change (str "|();&<") with [chr "|"; chr "("; chr ")"; chr ";"; chr "&"; chr "<"] in Hc. rewrite !elem_of_cons, elem_of_nil in Hc.
    by repeat destruct Hc as [->|Hc]. }
  unfold gettoken. rewrite (skip_here s _ H Hws), (here_at s _ H). destruct (Z.eqb_spec c 0); [done|]. rewrite bool_decide_eq_true_2 by done.
  by rewrite (skip_space (S s) l H1 Hn).
Qed.

Lemma gettoken_out s l : here s (str ">" ++ SP :: l) -> nows l -> exists w, gettoken b s = Ret (chr ">", w) (S (S s)) /\ here (S (S s)) l.
Proof.
  intros H Hn. pose proof (here_app s [chr ">"] (SP :: l) H) as H1. rewrite Nat.add_1_r in H1. pose proof (here_app (S s) [SP] l H1) as H2. rewrite Nat.add_1_r in H2.
  eexists. split; [|done]. unfold gettoken. rewrite (skip_here s _ H eq_refl), (here_at s _ H), (here_at (S s) _ H1). simpl.
  by rewrite (skip_space (S s) l H1 Hn).
Qed.

Lemma gettoken_append s l : here s (str ">>" ++ SP :: l) -> nows l -> exists w, gettoken b s = Ret (chr "+", w) (S (S (S s))) /\ here (S (S (S s))) l.
Proof.
  intros H Hn. pose proof (here_app s [chr ">"] (chr ">" :: SP :: l) H) as H1. rewrite Nat.add_1_r in H1.
  pose proof (here_app (S s) [chr ">"] (SP :: l) H1) as H2. rewrite Nat.add_1_r in H2. pose proof (here_app _ [SP] l H2) as H3. rewrite Nat.add_1_r in H3.
  eexists. split; [|done]. unfold gettoken. rewrite (skip_here s _ H eq_refl), (here_at s _ H), (here_at (S s) _ H1). simpl.
  by rewrite (skip_space _ l H2 Hn).
Qed.

Lemma is_word_inv c : is_word c = true -> strchr whitespace c = false /\ strchr symbols c = false /\ c <> 0.
Proof.
  unfold is_word. rewrite !andb_true_iff, !negb_true_iff. intros [[? ?] ?]. split_and!; try done. by apply Z.eqb_neq.
Qed.

Lemma word_len_word w l : Forall (fun c => is_word c = true) w -> word_len (w ++ SP :: l) = length w.
Proof. induction 1 as [|c w Hc _ IH]; [done|]. simpl. destruct (is_word_inv c Hc) as (-> & -> & _). simpl. by rewrite IH. Qed.

Lemma gettoken_word w s l : here s (w ++ SP :: l) -> nows l -> word w ->
  gettoken b s = Ret (chr "a", Span s (s + length w)) (S (s + length w)) /\ here (S (s + length w)) l /\ slice b (Span s (s + length w)) = w.
Proof.
  intros H Hn [Hne Hw]. pose proof (here_app s w (SP :: l) H) as H1. pose proof (here_app _ [SP] l H1) as H2. rewrite Nat.add_1_r in H2.
  split_and!; [|done|by eapply here_slice]. destruct w as [|c w]; [done|]. pose proof Hw as [Hc _]%Forall_cons. destruct (is_word_inv c Hc) as (Hws & Hsy & Hc0).
  unfold gettoken. rewrite (skip_here s _ H Hws), (here_at s _ H). cbn [app]. destruct (Z.eqb_spec c 0); [done|].
  assert (c ∉ symbols) as Hns. { unfold strchr in Hsy. destruct (Z.eqb_spec c 0); [done|]. by apply bool_decide_eq_false in Hsy. }
  change symbols with [chr "<"; chr "|"; chr ">"; chr "&"; chr ";"; chr "("; chr ")"] in Hns. rewrite bool_decide_eq_false_2.
  2: { change (str "|();&<") with [chr "|"; chr "("; chr ")"; chr ";"; chr "&"; chr "<"]. set_solver. }
  destruct (Z.eqb_spec c (chr ">")); [set_solver|]. assert (skip_word b s = s + length (c :: w))%nat as ->.
  { unfold skip_word. rewrite (proj1 H), word_len_word by done. done. }
  by rewrite (skip_space _ l H1 Hn).
Qed.

Lemma gettoken_end s : here s [] -> gettoken b s = Ret (0, Span s s) s.
Proof. intros H. unfold gettoken. rewrite (skip_here s [] H I), (here_at s [] H). simpl. by rewrite (skip_here s [] H I). Qed.

(** * Parsing what has been written *)

(** The parser returns such a result, unless it runs out of fuel. *)
Definition may {A} (o : outcome nat A) (Q : A -> nat -> Prop) : Prop :=
  match o with
  | Ret a s => Q a s
  | OutOfFuel _ => True
  | _ => False
  end.

Lemma may_bind {A B} (c : M nat A) (f : A -> M nat B) s Q1 Q2 :
  may (c s) Q1 -> (forall a s1, Q1 a s1 -> may (f a s1) Q2) -> may (bind c f s) Q2.
Proof. unfold bind. intros Hc Hf. destruct (c s); try done. by apply Hf. Qed.

(** The list is at its end or starts with one of [l]. *)
Definition starts (toks : list Z) (l : list Z) : Prop := match l with [] => True | c :: _ => c ∈ toks end.

Lemma starts_mono t1 t2 l : starts t1 l -> t1 ⊆ t2 -> starts t2 l.
Proof. destruct l; simpl; set_solver. Qed.

Lemma strchr_in toks c : strchr toks c = true <-> c <> 0 /\ c ∈ toks.
Proof. unfold strchr. rewrite andb_true_iff, negb_true_iff, bool_decide_eq_true, Z.eqb_neq. done. Qed.

Lemma starts_nows l : starts (str "|&;)") l -> nows l.
Proof.
  destruct l as [|c l]; [done|]. simpl. change (str "|&;)") with [chr "|"; chr "&"; chr ";"; chr ")"]. rewrite !elem_of_cons, elem_of_nil.
  intros Hc. by repeat destruct Hc as [->|Hc].
Qed.

(** The tokens a list may start with, when [peek] looks for others. *)
Lemma peek_not toks ts s l : here s l -> nows l -> starts ts l -> (forall c, c ∈ ts -> c ∉ toks) -> peek b toks s = Ret false s.
Proof.
  intros H Hn Hs Hd. rewrite (peek_here toks s l H Hn). destruct l as [|c l]; [done|]. simpl in Hs. specialize (Hd c Hs).
  destruct (strchr toks c) eqn:E; [apply strchr_in in E as [_ E]; done|]. by rewrite andb_false_r.
Qed.

Lemma peek_sym c toks s l : here s (c :: l) -> strchr whitespace c = false -> strchr toks c = true -> peek b toks s = Ret true s.
Proof.
  intros H Hw Hc. rewrite (peek_here toks s _ H Hw), Hc. apply strchr_in in Hc as [H0 _]. by destruct (Z.eqb_spec c 0).
Qed.

Definition rd_val (r : rd) : list Z * Z * Z := match r.1 with RIn => (r.2, O_RDONLY, 0) | _ => (r.2, Z.lor O_WRONLY O_CREATE, 1) end.
Definition redir_val (r : redir) : list Z * Z * Z := (slice b r.1.1, r.1.2, r.2).

Lemma show_rds_cons r rs l : show_rds (r :: rs) ++ l = show_kind r.1 ++ SP :: r.2 ++ SP :: show_rds rs ++ l.
Proof. unfold show_rds. simpl. by rewrite <- !app_assoc; simpl; rewrite <- !app_assoc. Qed.

Lemma nows_kind k l : nows (show_kind k ++ l).
Proof. by destruct k. Qed.

Lemma nows_rds rs l : nows l -> nows (show_rds rs ++ l).
Proof. intros H. destruct rs as [|r rs]; [done|]. rewrite show_rds_cons. apply nows_kind. Qed.

Lemma nows_word w l : word w -> nows (w ++ l).
Proof. intros [Hne Hw]. destruct w as [|c w]; [done|]. apply Forall_cons in Hw as [Hc _]. by destruct (is_word_inv c Hc). Qed.

(** The symbol of a redirection. *)
Lemma gettoken_kind k s l : here s (show_kind k ++ SP :: l) -> nows l ->
  exists t s', peek b (str "<>") s = Ret true s /\ gettoken b s = Ret t s' /\ here s' l /\ (t.1 =? chr "<") = match k with RIn => true | _ => false end.
Proof.
  intros H Hn. destruct k; cbn [show_kind] in H.
  - destruct (gettoken_sym (chr "<") s l H Hn) as [E Hh]; [apply strchr_in; reflexivity|].
    eexists _, _. split_and!; [by apply (peek_sym (chr "<") _ s (SP :: l) H)|exact E|done|done].
  - destruct (gettoken_out s l H Hn) as (w & E & Hh). eexists _, _. split_and!; [by apply (peek_sym (chr ">") _ s (SP :: l) H)|exact E|done|done].
  - destruct (gettoken_append s l H Hn) as (w & E & Hh).
    eexists _, _. split_and!; [by apply (peek_sym (chr ">") _ s (chr ">" :: SP :: l) H)|exact E|done|done].
Qed.

Lemma parseredirs_may fuel : forall rs s rest, rds_ok rs -> here s (show_rds rs ++ rest) -> nows rest -> (forall c l, rest = c :: l -> c ∉ str "<>") ->
  may (parseredirs b fuel s) (fun l s' => here s' rest /\ map redir_val l = map rd_val rs).
Proof.
  induction fuel as [|fuel IH]; intros rs s rest Hok H Hn Hd; [done|]. cbn [parseredirs]. destruct rs as [|r rs].
  - simpl in H. rewrite (bind_Ret _ _ _ false s); [done|]. rewrite (peek_here _ s rest H Hn). destruct rest as [|c rest]; [done|].
    destruct (strchr (str "<>") c) eqn:E; [|by rewrite andb_false_r]. apply strchr_in in E as [_ E]. by destruct (Hd c rest eq_refl).
  - rewrite show_rds_cons in H. apply Forall_cons in Hok as [Hw Hok]. pose proof (nows_rds rs rest Hn) as Hn1.
    destruct (gettoken_kind r.1 s _ H (nows_word r.2 _ Hw)) as (t & s1 & Ep & Et & H1 & Ht).
    rewrite (bind_Ret _ _ _ _ _ Ep). cbn [negb]. rewrite (bind_Ret _ _ _ _ _ Et).
    destruct (gettoken_word r.2 s1 _ H1 Hn1 Hw) as (Ew & H2 & Hsl). rewrite (bind_Ret _ _ _ _ _ Ew). cbn [fst snd]. rewrite Z.eqb_refl. cbn [negb].
    eapply may_bind; [by apply (IH rs)|]. intros l s3 [H3 Hl]. split; [done|]. simpl. f_equal; [|done]. unfold redir_val, rd_val. rewrite Ht.
    destruct r as [k w]. simpl in *. by destruct k; simpl; rewrite Hsl.
Qed.

Lemma redircmds_tree c rs : forall l, map redir_val l = map rd_val rs -> cmd_map (slice b) (redircmds c l) = fold_left add_rd rs (cmd_map (slice b) c).
Proof.
  unfold redircmds. revert c. induction rs as [|r rs IH]; intros c [|x l] E; try done. injection E as Er El. simpl. rewrite (IH _ l El). simpl. f_equal.
  unfold redir_val, rd_val, add_rd in *. destruct r as [[] w]; simpl in *; injection Er as -> -> ->; done.
Qed.

Lemma show_args_cons a args l : show_args (a :: args) ++ l = a.1 ++ SP :: show_rds a.2 ++ show_args args ++ l.
Proof. unfold show_args. simpl. by rewrite <- !app_assoc. Qed.

(** Words come after redirections. *)
Lemma args_start args rest : Forall (fun a => word a.1 /\ rds_ok a.2) args -> starts (str "|&;)") rest ->
  nows (show_args args ++ rest) /\ forall c l, show_args args ++ rest = c :: l -> c ∉ str "<>" /\ c ∉ str "(" .
Proof.
  intros Ha Hs. destruct args as [|a args].
  - split; [by apply starts_nows|]. simpl. intros c l ->. simpl in Hs. change (str "|&;)") with [chr "|"; chr "&"; chr ";"; chr ")"] in Hs.
    rewrite !elem_of_cons, elem_of_nil in Hs. repeat destruct Hs as [->|Hs]; try done; split; by_dec.
  - apply Forall_cons in Ha as [[Hw _] _]. rewrite show_args_cons. split; [by apply nows_word|]. intros c l E. destruct Hw as [Hne Hw].
    destruct (a.1) as [|c' w]; [done|]. injection E as -> _. apply Forall_cons in Hw as [Hc _]. destruct (is_word_inv c Hc) as (_ & Hsy & H0).
    assert (c ∉ symbols) as Hns. { intros Hin. assert (strchr symbols c = true) as E by (by apply strchr_in). congruence. }
    change symbols with [chr "<"; chr "|"; chr ">"; chr "&"; chr ";"; chr "("; chr ")"] in Hns. change (str "<>") with [chr "<"; chr ">"]. change (str "(") with [chr "("]. set_solver.
Qed.

Lemma parseargs_may fuel : forall args argv rs0 vs s rest, Forall (fun a => word a.1 /\ rds_ok a.2) args -> (length argv + length args < MAXARGS)%nat ->
  map redir_val rs0 = map rd_val vs -> here s (show_args args ++ rest) -> starts (str "|&;)") rest ->
  may (parseargs b fuel argv rs0 s) (fun c s' => here s' rest /\
    cmd_map (slice b) c = fold_left add_rd (vs ++ concat (map snd args)) (EXEC (map (slice b) argv ++ map fst args))).
Proof.
  induction fuel as [|fuel IH]; intros args argv rs0 vs s rest Ha Hl Hr H Hs; [done|]. cbn [parseargs]. pose proof (args_start args rest Ha Hs) as [Hn _].
  destruct args as [|a args].
  - simpl in H. assert (here s rest /\ cmd_map (slice b) (redircmds (EXEC argv) rs0) = fold_left add_rd vs (EXEC (map (slice b) argv))) as Hres.
    { split; [done|]. by rewrite (redircmds_tree _ vs _ Hr). }
    destruct rest as [|c rest].
    + rewrite (bind_Ret _ _ _ false s) by (by rewrite (peek_here _ s [] H I)). rewrite (bind_Ret _ _ _ _ _ (gettoken_end s H)). simpl. rewrite !app_nil_r. exact Hres.
    + rewrite (bind_Ret _ _ _ true s); [simpl; rewrite !app_nil_r; exact Hres|]. rewrite (peek_here _ s _ H Hn). simpl in Hs. f_equal.
      change (str "|&;)") with [chr "|"; chr "&"; chr ";"; chr ")"] in Hs. rewrite !elem_of_cons, elem_of_nil in Hs. by repeat destruct Hs as [->|Hs].
  - apply Forall_cons in Ha as [[Hw Hrs] Ha]. rewrite show_args_cons in H. pose proof (args_start args rest Ha Hs) as [Hn1 Hd1].
    rewrite (bind_Ret _ _ _ false s).
    2: { destruct Hw as [Hne Hw]. destruct (a.1) as [|c w]; [done|]. apply Forall_cons in Hw as [Hc _]. destruct (is_word_inv c Hc) as (Hws & Hsy & H0).
         rewrite (peek_here _ s _ H Hws). cbn [app]. destruct (strchr (str "|)&;") c) eqn:E; [|by rewrite andb_false_r]. apply strchr_in in E as [_ E].
         assert (strchr symbols c = true); [|congruence]. apply strchr_in. split; [done|].
         change symbols with [chr "<"; chr "|"; chr ">"; chr "&"; chr ";"; chr "("; chr ")"]. change (str "|)&;") with [chr "|"; chr ")"; chr "&"; chr ";"] in E. set_solver. }
    destruct (gettoken_word a.1 s _ H (nows_rds a.2 _ Hn1) Hw) as (Ew & H2 & Hsl). rewrite (bind_Ret _ _ _ _ _ Ew). cbn [fst snd]. rewrite Z.eqb_refl.
    change (chr "a" =? 0) with false. cbn [negb]. destruct (Nat.leb_spec MAXARGS (length (argv ++ [Span s (s + length a.1)]))) as [Hge|_].
    { rewrite length_app in Hge. simpl in *. lia. }
    eapply may_bind; [apply (parseredirs_may fuel a.2 _ _ Hrs H2 Hn1); intros c l E; apply (Hd1 c l E)|]. intros l s3 [H3 Hl3].
    assert (fold_left add_rd (vs ++ concat (map snd (a :: args))) (EXEC (map (slice b) argv ++ map fst (a :: args))) =
      fold_left add_rd ((vs ++ a.2) ++ concat (map snd args)) (EXEC (map (slice b) (argv ++ [Span s (s + length a.1)]) ++ map fst args))) as ->.
    { rewrite map_app. simpl. rewrite Hsl. by rewrite <- !app_assoc. }
    apply IH; try done; [rewrite length_app; simpl in *; lia|]. by rewrite !map_app, Hr, Hl3.
Qed.

Lemma parseback_may fuel : forall n c s rest, here s (concat (replicate n (sym "&")) ++ rest) -> starts (str "|;)") rest ->
  may (parseback b fuel c s) (fun c' s' => here s' rest /\ cmd_map (slice b) c' = backs n (cmd_map (slice b) c)).
Proof.
  induction fuel as [|fuel IH]; intros n c s rest H Hs; [done|]. cbn [parseback].
  assert (nows rest) as Hn by (apply starts_nows; eapply starts_mono; [exact Hs|]; change (str "|;)") with [chr "|"; chr ";"; chr ")"]; change (str "|&;)") with [chr "|"; chr "&"; chr ";"; chr ")"]; set_solver).
  destruct n as [|n].
  - simpl in H. rewrite (bind_Ret _ _ _ false s); [done|]. eapply peek_not; [exact H|done|exact Hs|]. apply Forall_forall. repeat constructor; by_dec.
  - simpl in H. rewrite (bind_Ret _ _ _ true s) by (by apply (peek_sym (chr "&") _ s _ H)). cbn [negb].
    assert (nows (concat (replicate n (sym "&")) ++ rest)) as Hn1 by (destruct n; done).
    destruct (gettoken_sym (chr "&") s _ H Hn1) as [E H1]; [apply strchr_in; reflexivity|]. rewrite (bind_Ret _ _ _ _ _ E).
    assert (backs (S n) (cmd_map (slice b) c) = backs n (cmd_map (slice b) (BACK c))) as -> by (unfold backs; simpl; by rewrite <- Nat.iter_swap).
    by apply IH.
Qed.

Definition line_may (l : line_) : Prop := line_ok l -> forall fuel s rest, here s (show_line l ++ rest) -> starts (str ")") rest ->
  may (parseline b fuel s) (fun c s' => here s' rest /\ cmd_map (slice b) c = tree_line l).
Definition pipe_may (p : pipe_) : Prop := pipe_ok p -> forall fuel s rest, here s (show_pipe p ++ rest) -> starts (str "&;)") rest ->
  may (parsepipe b fuel s) (fun c s' => here s' rest /\ cmd_map (slice b) c = tree_pipe p).
Definition exec_may (e : exec_) : Prop := exec_ok e -> forall fuel s rest, here s (show_exec e ++ rest) -> starts (str "|&;)") rest ->
  may (parseexec b fuel s) (fun c s' => here s' rest /\ cmd_map (slice b) c = tree_exec e).

Ltac toks := change (str ")") with [chr ")"] in *; change (str "&;)") with [chr "&"; chr ";"; chr ")"] in *;
  change (str "|;)") with [chr "|"; chr ";"; chr ")"] in *; change (str "|&;)") with [chr "|"; chr "&"; chr ";"; chr ")"] in *.

Lemma starts_app toks l1 l2 : starts toks l2 -> (l1 <> [] -> starts toks l1) -> starts toks (l1 ++ l2).
Proof. destruct l1 as [|c l1]; [done|]. simpl. auto. Qed.

Lemma starts_amps n l : starts (str "&;)") l -> starts (str "&;)") (concat (replicate n (sym "&")) ++ l).
Proof. intros H. destruct n; [done|]. simpl. by_dec. Qed.

(** A line begins with a pipeline, followed by ampersands. *)
Lemma parse_backs p n fuel s rest (f : cmd -> M nat cmd) (Q : cmd -> nat -> Prop) : pipe_may p -> pipe_ok p -> here s (show_pipe p ++ concat (replicate n (sym "&")) ++ rest) -> starts (str ";)") rest ->
  (forall c s', here s' rest -> cmd_map (slice b) c = backs n (tree_pipe p) -> may (f c s') Q) ->
  may ((c <- parsepipe b fuel ;; c <- parseback b fuel c ;; f c) s) Q.
Proof.
  intros IH Hok H Hs Hf. change (str ";)") with [chr ";"; chr ")"] in Hs. eapply may_bind.
  - apply IH; [done|exact H|]. apply starts_amps. eapply starts_mono; [exact Hs|]. toks. set_solver.
  - intros c s1 [H1 E1]. eapply may_bind; [apply parseback_may; [exact H1|]|].
    + eapply starts_mono; [exact Hs|]. toks. set_solver.
    + intros c' s2 [H2 E2]. apply Hf; [done|]. by rewrite E2, E1.
Qed.

Lemma nows_show : (forall l, line_ok l -> forall rest, nows rest -> nows (show_line l ++ rest)) /\
  (forall p, pipe_ok p -> forall rest, nows rest -> nows (show_pipe p ++ rest)) /\ (forall e, exec_ok e -> forall rest, nows rest -> nows (show_exec e ++ rest)).
Proof.
  apply syntax_ind; simpl; intros.
  - rewrite <- app_assoc. apply H; [done|]. by destruct amps.
  - rewrite <- !app_assoc. apply H; [tauto|]. by destruct amps.
  - by apply H.
  - rewrite <- !app_assoc. apply H; [tauto|done].
  - destruct H as (_ & Ha & _). rewrite <- app_assoc. apply nows_rds. destruct args as [|a args]; [done|]. rewrite show_args_cons.
    apply Forall_cons in Ha as [[Hw _] _]. by apply nows_word.
  - done.
Qed.

Lemma block_may l rs : line_may l -> exec_may (Block l rs).
Proof.
  intros IH [Hl Hrs] fuel s rest H Hs. cbn [show_exec tree_exec] in *. rewrite <- !app_assoc in H. destruct fuel as [|fuel]; [done|]. cbn [parseexec].
  pose proof (peek_sym (chr "(") (str "(") s _ H eq_refl eq_refl) as Ep. rewrite (bind_Ret _ _ _ _ _ Ep). destruct fuel as [|fuel]; [done|]. cbn [parseblock].
  rewrite (bind_Ret _ _ _ _ _ Ep). cbn [negb]. pose proof (starts_nows _ Hs) as Hn. pose proof (nows_rds rs rest Hn) as Hn1.
  destruct (gettoken_sym (chr "(") s _ H) as [E H1]; [by apply (proj1 nows_show)|by_dec|]. rewrite (bind_Ret _ _ _ _ _ E).
  eapply may_bind; [apply (IH Hl fuel _ _ H1); simpl; by_dec|]. intros c s2 [H2 Ec].
  rewrite (bind_Ret _ _ _ _ _ (peek_sym (chr ")") (str ")") s2 _ H2 eq_refl eq_refl)). cbn [negb].
  destruct (gettoken_sym (chr ")") s2 _ H2 Hn1) as [E3 H3]; [by_dec|]. rewrite (bind_Ret _ _ _ _ _ E3).
  eapply may_bind; [apply (parseredirs_may fuel rs _ _ Hrs H3 Hn)|].
  - intros x l' ->. toks. simpl in Hs. rewrite !elem_of_cons, elem_of_nil in Hs. repeat destruct Hs as [->|Hs]; try done; by_dec.
  - intros lr s4 [H4 E4]. split; [done|]. rewrite (redircmds_tree _ rs _ E4). by rewrite Ec.
Qed.

Lemma simple_may rs args : exec_may (Simple rs args).
Proof.
  intros (Hrs & Ha & Hl) fuel s rest H Hs. cbn [show_exec tree_exec] in *. rewrite <- app_assoc in H. destruct fuel as [|fuel]; [done|]. cbn [parseexec].
  destruct (args_start args rest Ha Hs) as [Hn Hd]. rewrite (bind_Ret _ _ _ false s).
  2: { rewrite (peek_here _ s _ H) by (by apply nows_rds). destruct rs as [|r rs].
       - simpl in *. destruct (show_args args ++ rest) as [|c l]; [done|]. destruct (strchr (str "(") c) eqn:E; [|by rewrite andb_false_r].
         apply strchr_in in E as [_ E]. by destruct (Hd c l eq_refl).
       - rewrite show_rds_cons. by destruct (r.1). }
  eapply may_bind; [apply (parseredirs_may fuel rs _ _ Hrs H Hn); intros c l E; apply (Hd c l E)|]. intros l s1 [H1 E1].
  by apply (parseargs_may fuel args [] l rs).
Qed.

Lemma parse_may : (forall l, line_may l) /\ (forall p, pipe_may p) /\ (forall e, exec_may e).
Proof.
  apply syntax_ind.
  - intros p IH n Hok fuel s rest H Hs. cbn [show_line tree_line] in *. rewrite <- app_assoc in H. destruct fuel as [|fuel]; [done|]. cbn [parseline].
    eapply parse_backs; [exact IH|exact Hok|exact H| |].
    { eapply starts_mono; [exact Hs|]. toks. change (str ";)") with [chr ";"; chr ")"]. set_solver. }
    intros c s1 H1 E1. rewrite (bind_Ret _ _ _ false s1); [done|]. eapply peek_not; [exact H1| |exact Hs|].
    + apply starts_nows. eapply starts_mono; [exact Hs|]. toks. set_solver.
    + apply Forall_forall. repeat constructor. by_dec.
  - intros p IH n l IHl [Hok Hl] fuel s rest H Hs. cbn [show_line tree_line] in *. rewrite <- !app_assoc in H. destruct fuel as [|fuel]; [done|]. cbn [parseline].
    assert (nows rest) as Hn by (apply starts_nows; eapply starts_mono; [exact Hs|]; toks; set_solver).
    eapply parse_backs; [exact IH|exact Hok|exact H|simpl; by_dec|]. intros c s1 H1 E1.
    rewrite (bind_Ret _ _ _ _ _ (peek_sym (chr ";") (str ";") s1 _ H1 eq_refl eq_refl)). cbn [negb].
    destruct (gettoken_sym (chr ";") s1 _ H1) as [E2 H2]; [by apply (proj1 nows_show)|by_dec|]. rewrite (bind_Ret _ _ _ _ _ E2).
    eapply may_bind; [by apply (IHl Hl fuel _ _ H2)|]. intros r s3 [H3 E3]. split; [done|]. simpl. by rewrite E1, E3.
  - intros e IH Hok fuel s rest H Hs. cbn [show_pipe tree_pipe] in *. destruct fuel as [|fuel]; [done|]. cbn [parsepipe].
    eapply may_bind; [apply (IH Hok fuel _ _ H); eapply starts_mono; [exact Hs|]; toks; set_solver|]. intros c s1 [H1 E1].
    rewrite (bind_Ret _ _ _ false s1); [done|]. eapply peek_not; [exact H1| |exact Hs|].
    + apply starts_nows. eapply starts_mono; [exact Hs|]. toks. set_solver.
    + apply Forall_forall. repeat constructor; by_dec.
  - intros e IH p IHp [Hok Hp] fuel s rest H Hs. cbn [show_pipe tree_pipe] in *. rewrite <- !app_assoc in H. destruct fuel as [|fuel]; [done|]. cbn [parsepipe].
    assert (nows rest) as Hn by (apply starts_nows; eapply starts_mono; [exact Hs|]; toks; set_solver).
    eapply may_bind; [apply (IH Hok fuel _ _ H); simpl; by_dec|]. intros c s1 [H1 E1].
    rewrite (bind_Ret _ _ _ _ _ (peek_sym (chr "|") (str "|") s1 _ H1 eq_refl eq_refl)). cbn [negb].
    destruct (gettoken_sym (chr "|") s1 _ H1) as [E2 H2]; [by apply (proj1 (proj2 nows_show))|by_dec|]. rewrite (bind_Ret _ _ _ _ _ E2).
    eapply may_bind; [by apply (IHp Hp fuel _ _ H2)|]. intros r s3 [H3 E3]. split; [done|]. simpl. by rewrite E1, E3.
  - apply simple_may.
  - intros l IH rs. by apply block_may.
Qed.
End Print.

(** What is written has no NUL. *)
Definition nz (l : list Z) : Prop := Forall (fun c => c <> 0) l.

Lemma word_nz w : word w -> nz w.
Proof. intros [_ H]. eapply Forall_impl; [exact H|]. intros c Hc. by apply is_word_inv. Qed.

Lemma rds_nz rs : rds_ok rs -> nz (show_rds rs).
Proof.
  induction 1 as [|r rs Hw _ IH]; [constructor|]. unfold nz. rewrite <- (app_nil_r (show_rds _)), show_rds_cons, app_nil_r. apply Forall_app. split; [by destruct (r.1); repeat constructor|].
  constructor; [done|]. apply Forall_app. split; [by apply word_nz|]. by constructor.
Qed.

Lemma args_nz args : Forall (fun a => word a.1 /\ rds_ok a.2) args -> nz (show_args args).
Proof.
  induction 1 as [|a args [Hw Hr] _ IH]; [constructor|]. unfold nz. rewrite <- (app_nil_r (show_args _)), show_args_cons, app_nil_r. apply Forall_app.
  split; [by apply word_nz|]. constructor; [done|]. apply Forall_app. split; [by apply rds_nz|done].
Qed.

Lemma amps_nz n : nz (concat (replicate n (sym "&"))).
Proof. induction n; simpl; [constructor|]. by repeat constructor. Qed.

Lemma show_nz : (forall l, line_ok l -> nz (show_line l)) /\ (forall p, pipe_ok p -> nz (show_pipe p)) /\ (forall e, exec_ok e -> nz (show_exec e)).
Proof.
  apply syntax_ind; simpl; intros.
  - apply Forall_app. split; [by apply H|apply amps_nz].
  - destruct H1. apply Forall_app. split; [by apply H|]. apply Forall_app. split; [apply amps_nz|]. constructor; [done|]. constructor; [done|]. by apply H0.
  - by apply H.
  - destruct H1. apply Forall_app. split; [by apply H|]. constructor; [done|]. constructor; [done|]. by apply H0.
  - destruct H as (Hr & Ha & _). apply Forall_app. split; [by apply rds_nz|by apply args_nz].
  - destruct H0. constructor; [done|]. constructor; [done|]. apply Forall_app. split; [by apply H|]. constructor; [done|]. constructor; [done|]. by apply rds_nz.
Qed.

Lemma cmd_map_spans {B} (f g : span -> B) (c : cmd) : (forall w, w ∈ spans c -> f w = g w) -> cmd_map f c = cmd_map g c.
Proof.
  induction c as [argv|c IH w mode fd|l IHl r IHr|l IHl r IHr|c IH]; simpl; intros H.
  - f_equal. induction argv as [|w argv IH]; [done|]. simpl. rewrite (H w) by left. f_equal. apply IH. intros w' Hw'. apply H. by right.
  - rewrite IH, (H w); [done|left|]. intros w' Hw'. apply H. by right.
  - rewrite IHl, IHr; [done|intros w Hw; apply H; set_solver..].
  - rewrite IHl, IHr; [done|intros w Hw; apply H; set_solver..].
  - by rewrite IH.
Qed.

(** C19: the shell reads back every command of its grammar: a line written out
    with spaces between its tokens is parsed, and the strings of the result,
    read from the overwritten line, make the command that was meant:
    pipelines, lists, background commands, blocks in parentheses, and
    redirections, which may come before, between and after the words. *)
Theorem parsecmd_reads_back l fuel : line_ok l -> (4 * length (show_line l) + 6 <= fuel)%nat ->
  exists c m, parsecmd (show_line l) fuel 0%nat = Ret (c, m) (length (show_line l)) /\ cmd_map (fun w => cstring (drop (q_ w) m)) c = tree_line l.
Proof.
  intros Hl Hf. set (b := show_line l) in *. assert (Forall (fun c => c <> 0) b) as Hnz by (by apply (proj1 show_nz)).
  pose proof (parsecmd_ok b Hnz fuel Hf) as Hok. pose proof (proj1 (parse_good b Hnz fuel 0%nat ltac:(lia)) ltac:(unfold es; lia)) as Hg.
  assert (here b 0 (show_line l ++ [])) as H0 by (rewrite app_nil_r; done).
  pose proof (proj1 (parse_may b) l Hl fuel 0%nat [] H0 I) as Hm. destruct (parsecmd b fuel 0%nat) as [[c m] s| | | | |] eqn:E; try done.
  - destruct Hok as [-> Hw]. exists c, m. split; [done|]. unfold parsecmd in E. unfold bind at 1 in E.
    destruct (parseline b fuel 0%nat) as [c1 s1| | | | |]; try done. destruct Hm as [_ Hm]. cbn [obind] in E. unfold bind at 1 in E.
    destruct (peek b [] s1) as [p s2| | | | |]; try done. cbn [obind] in E. rewrite gets_bind in E. destruct (negb _); [done|]. injection E as -> _.
    rewrite <- Hm. apply cmd_map_spans. intros w Hin. by apply Hw.
  - exfalso. unfold parsecmd in E. unfold bind at 1 in E. destruct (parseline b fuel 0%nat) as [c1 s1| | | | |]; try done. destruct Hm as [[Hd Hs1] _].
    cbn [obind] in E. simpl in Hs1. rewrite (bind_Ret _ _ _ _ _ (peek_here b [] s1 [] (conj Hd Hs1) I)), gets_bind in E.
    replace s1 with (es b) in E by (unfold es; lia). by rewrite Nat.eqb_refl in E.
Qed.

(** (echo hi >> log) &; cat < log | wc *)
Definition line1 : line_ :=
  Seq (One (Block (Line (One (Simple [] [(str "echo", []); (str "hi", [(RAppend, str "log")])])) 0) [])) 1
    (Line (Piped (Simple [] [(str "cat", [(RIn, str "log")])]) (One (Simple [] [(str "wc", [])]))) 0).

Lemma parsecmd_reads_back_witness :
  exists c m, parsecmd (show_line line1) 1000 0%nat = Ret (c, m) (length (show_line line1)) /\ cmd_map (fun w => cstring (drop (q_ w) m)) c = tree_line line1.
Proof.
  apply (parsecmd_reads_back line1 1000).
  - repeat constructor; done || (vm_compute; lia).
  - vm_compute. lia.
Defined.
