(* ===== verification/ShRun.v ===== *)
(** The processes the shell starts (runcmd of src/xv6-public/sh.c) and their
    descriptors.

    A child runs to its end before its parent goes on: the two share nothing
    that is modelled here.  The state has the number of pipes made so far,
    the programs started, with their arguments and descriptors, the messages,
    and of the shell's own processes the descriptors they have when they wait,
    with the number of children they have not waited for yet, and when they
    exit.  Whether fork, open and exec succeed is a parameter.

    The main loop of the shell (getcmd and main of src/xv6-public/sh.c).

    Its state is that of the processes, what read still gives from the standard
    input, the directories changed to, and whether the shell goes on.  A line
    is in the buffer of 100 bytes. *)
From S2P Require Import Prelude CString Ulib Sh ShParse ShPrint.

(** What a descriptor can refer to. *)
Inductive ufile := Other (n : Z) | Opened (name : list Z) (mode : Z) | ReadEnd (k : nat) | WriteEnd (k : nat).
Notation fds := (list (option ufile)).

Record rst := Rst {
  pipes : nat;
  started : list (list (list Z) * fds);
  messages : list (string * list Z);
  waits : list (fds * nat);
  exits : list fds
}.
Definition set_pipes v s := Rst v (started s) (messages s) (waits s) (exits s).
Definition start argv t s := Rst (pipes s) (started s ++ [(argv, t)]) (messages s) (waits s) (exits s).
Definition say m w s := Rst (pipes s) (started s) (messages s ++ [(m, w)]) (waits s) (exits s).
(** wait, in a process with [kids] children, and exit. *)
Definition wait_child (t : fds) (kids : nat) s := Rst (pipes s) (started s) (messages s) (waits s ++ [(t, kids)]) (exits s).
Definition exit_with (t : fds) s := Rst (pipes s) (started s) (messages s) (waits s) (exits s ++ [t]).

(** The lowest descriptor that is free, as fdalloc of sysfile.c takes it. *)
Fixpoint lowest (t : fds) : option nat :=
  match t with
  | [] => None
  | None :: _ => Some O
  | Some _ :: t' => S <$> lowest t'
  end.
Definition fd_open (f : ufile) (t : fds) : option (nat * fds) := i ← lowest t; Some (i, <[i := Some f]> t).
Definition fd_close (i : nat) (t : fds) : fds := <[i := None]> t.
(** A dup that fails changes nothing. *)
Definition fd_dup (i : nat) (t : fds) : fds :=
  match t !! i with
  | Some (Some f) => match fd_open f t with Some (_, t') => t' | None => t end
  | _ => t
  end.

Section Run.
Variable fork_ok : rst -> bool.
Variable open_ok : list Z -> Z -> rst -> bool.
Variable exec_ok : list Z -> rst -> bool.

(** panic in a process with these descriptors. *)
Definition panic (why : string) (t : fds) (s : rst) : rst := exit_with t (say why [] s).

Definition fork1 (t : fds) (child parent : rst -> rst) (s : rst) : rst :=
  if fork_ok s then parent (child s) else panic "fork" t s.

Fixpoint runcmd (c : cmd_ (list Z)) (t : fds) (s : rst) : rst :=
  match c with
  | EXEC argv =>
      match argv with
      | [] => exit_with t s
      | a :: _ => if exec_ok a s then start argv t s else exit_with t (say "exec %s failed" a s)
      end
  | REDIR c file mode fd =>
      let t := fd_close (Z.to_nat fd) t in
      if open_ok file mode s then
        match fd_open (Opened file mode) t with
        | Some (_, t) => runcmd c t s
        | None => exit_with t (say "open %s failed" file s)
        end
      else exit_with t (say "open %s failed" file s)
  | LIST l r => fork1 t (runcmd l t) (fun s => runcmd r t (wait_child t 1 s)) s
  | PIPE l r =>
      let k := pipes s in
      match fd_open (ReadEnd k) t with
      | None => panic "pipe" t s
      | Some (p0, t1) =>
          match fd_open (WriteEnd k) t1 with
          | None => panic "pipe" t s
          | Some (p1, t) =>
              fork1 t (fun s => runcmd l (fd_close p1 (fd_close p0 (fd_dup p1 (fd_close 1 t)))) s)
                (fork1 t (fun s => runcmd r (fd_close p1 (fd_close p0 (fd_dup p0 (fd_close 0 t)))) s)
                  (fun s =>
                    let t := fd_close p1 (fd_close p0 t) in
                    exit_with t (wait_child t 1 (wait_child t 2 s))))
                (set_pipes (S k) s)
          end
      end
  | BACK c => fork1 t (runcmd c t) (exit_with t) s
  end.

(** * Descriptors *)

Lemma lowest_spec t i : lowest t = Some i <-> t !! i = Some None /\ forall j, (j < i)%nat -> exists f, t !! j = Some (Some f).
Proof.
  revert i. induction t as [|[f|] t IH]; intros i; simpl; [naive_solver|..].
  - rewrite fmap_Some. split.
    + intros (k & Hk & ->). apply IH in Hk as [H1 H2]. split; [done|]. intros [|j] Hj; [by exists f|]. apply H2. lia.
    + intros [H1 H2]. destruct i as [|i]; [done|]. exists i. split; [|done]. apply IH. split; [done|]. intros j Hj. apply (H2 (S j)). lia.
  - split; [intros [= <-]; split; [done|lia]|]. intros [H1 H2]. destruct i as [|i]; [done|]. destruct (H2 0%nat ltac:(lia)). done.
Qed.

(** A redirection puts the file at its descriptor. *)
Lemma open_after_close t i f g : (forall j, (j < i)%nat -> exists h, t !! j = Some (Some h)) -> t !! i = Some (Some g) ->
  fd_open f (fd_close i t) = Some (i, <[i := Some f]> t).
Proof.
  intros Hlo Hi. unfold fd_open, fd_close. pose proof (lookup_lt_Some _ _ _ Hi). rewrite (proj2 (lowest_spec _ i)); [cbn [mbind option_bind]; by rewrite list_insert_insert_eq|].
  split; [by apply list_lookup_insert_eq|]. intros j Hj. rewrite list_lookup_insert_ne by lia. by apply Hlo.
Qed.

(** Descriptors of a pipe: standard input and output are open, [p0] and [p1]
    are the lowest that are free. *)
Record can_pipe (t : fds) (p0 p1 : nat) : Prop := {
  cp_in : exists f, t !! 0%nat = Some (Some f);
  cp_out : exists f, t !! 1%nat = Some (Some f);
  cp_p0 : lowest t = Some p0;
  cp_p1 : forall f, lowest (<[p0 := Some f]> t) = Some p1
}.

Lemma can_pipe_order t p0 p1 : can_pipe t p0 p1 -> (1 < p0)%nat /\ (1 < p1)%nat /\ p0 <> p1 /\ t !! p0 = Some None /\ t !! p1 = Some None.
Proof.
  intros [(f0 & H0) (f1 & H1) [Hp0 _]%lowest_spec Hp1]. specialize (Hp1 f0). apply lowest_spec in Hp1 as [Hp1 _]. pose proof (lookup_lt_Some _ _ _ Hp0).
  assert (p0 <> p1) as Hne by (intros ->; by rewrite list_lookup_insert_eq in Hp1).
  rewrite list_lookup_insert_ne in Hp1 by done. split_and!; try done.
  - destruct p0 as [|[|p0]]; try congruence. lia.
  - destruct p1 as [|[|p1]]; try congruence. lia.
Qed.

(** One end of a pipe becomes descriptor [i], the other goes. *)
Lemma plumb t p0 p1 i k e : can_pipe t p0 p1 -> (i = 0%nat \/ i = 1%nat) -> (e = p0 \/ e = p1) ->
  fd_close p1 (fd_close p0 (fd_dup e (fd_close i (<[p1 := Some (WriteEnd k)]> (<[p0 := Some (ReadEnd k)]> t))))) =
    <[i := Some (if decide (e = p0) then ReadEnd k else WriteEnd k)]> t.
Proof.
  intros Hc Hi He. destruct (can_pipe_order t p0 p1 Hc) as (H0 & H1 & Hne & Hp0 & Hp1). destruct Hc as [(f0 & Hf0) (f1 & Hf1) _ _].
  pose proof (lookup_lt_Some _ _ _ Hp0). pose proof (lookup_lt_Some _ _ _ Hp1). set (f := if decide (e = p0) then ReadEnd k else WriteEnd k).
  set (t2 := <[p1 := Some (WriteEnd k)]> (<[p0 := Some (ReadEnd k)]> t)). assert (t2 !! e = Some (Some f)) as He2.
  { unfold t2, f. destruct He as [->|Ee].
    - rewrite decide_True, list_lookup_insert_ne by done. by apply list_lookup_insert_eq.
    - rewrite decide_False by congruence. rewrite Ee. apply list_lookup_insert_eq. by rewrite length_insert. }
  assert (exists g, t2 !! i = Some (Some g)) as [g Hg].
  { unfold t2. rewrite !list_lookup_insert_ne by lia. destruct Hi as [->| ->]; eauto. }
  unfold fd_dup. assert (fd_close i t2 !! e = Some (Some f)) as ->.
  { unfold fd_close. rewrite list_lookup_insert_ne; [done|]. destruct He as [->| ->]; lia. }
  rewrite (open_after_close t2 i f g); [|intros j Hj|done].
  2: { exists f0. destruct Hi as [->| ->]; [lia|]. assert (j = 0%nat) as -> by lia. unfold t2. by rewrite !list_lookup_insert_ne by lia. }
  unfold fd_close, t2. apply list_eq. intros j. assert (i <> p0 /\ i <> p1) as [Hi0 Hi1] by (destruct Hi; lia).
  destruct (decide (j = p1)) as [->|Hj1]; [rewrite list_lookup_insert_eq by (by rewrite ?length_insert); by rewrite list_lookup_insert_ne by done|].
  rewrite (list_lookup_insert_ne _ p1 j) by done. destruct (decide (j = p0)) as [->|Hj0]; [rewrite list_lookup_insert_eq by (by rewrite ?length_insert); by rewrite list_lookup_insert_ne by done|].
  rewrite (list_lookup_insert_ne _ p0 j) by done. destruct (decide (j = i)) as [->|Hji].
  - assert (i < length t)%nat by (destruct Hi as [->| ->]; by eapply lookup_lt_Some). rewrite !list_lookup_insert_eq; [done|by rewrite ?length_insert..].
  - rewrite !(list_lookup_insert_ne _ i j) by done. by rewrite !list_lookup_insert_ne by done.
Qed.

(** Without its two ends the pipe is gone. *)
Lemma close_both t p0 p1 f g : can_pipe t p0 p1 -> fd_close p1 (fd_close p0 (<[p1 := Some g]> (<[p0 := Some f]> t))) = t.
Proof.
  intros Hc. destruct (can_pipe_order t p0 p1 Hc) as (_ & _ & Hne & Hp0 & Hp1). unfold fd_close.
  rewrite (list_insert_insert_ne _ p0 p1) by done. rewrite list_insert_insert_eq, list_insert_insert_eq, (list_insert_id t p0) by done. by apply list_insert_id.
Qed.

(** * What is started *)

Lemma run_redir c file mode i g t s : (forall j, (j < i)%nat -> exists h, t !! j = Some (Some h)) -> t !! i = Some (Some g) -> open_ok file mode s = true ->
  runcmd (REDIR c file mode (Z.of_nat i)) t s = runcmd c (<[i := Some (Opened file mode)]> t) s.
Proof. intros Hlo Hi Ho. cbn [runcmd]. by rewrite Nat2Z.id, Ho, (open_after_close t i _ g). Qed.

Section NoFailure.
Hypothesis forks : forall s, fork_ok s = true.
Hypothesis execs : forall a s, exec_ok a s = true.

(** The parent has closed its ends of the pipe when it waits. *)
Lemma run_pipe l r t p0 p1 s : can_pipe t p0 p1 ->
  runcmd (PIPE l r) t s = exit_with t (wait_child t 1 (wait_child t 2
    (runcmd r (<[0%nat := Some (ReadEnd (pipes s))]> t) (runcmd l (<[1%nat := Some (WriteEnd (pipes s))]> t) (set_pipes (S (pipes s)) s))))).
Proof.
  intros Hc. destruct (can_pipe_order t p0 p1 Hc) as (_ & _ & Hne & _ & _). cbn [runcmd]. unfold fd_open at 1. rewrite (cp_p0 _ _ _ Hc). cbn [mbind option_bind].
  unfold fd_open at 1. rewrite (cp_p1 _ _ _ Hc). cbn [mbind option_bind]. unfold fork1. rewrite !forks.
  rewrite (plumb t p0 p1 1 (pipes s) p1 Hc), (plumb t p0 p1 0 (pipes s) p0 Hc) by auto. rewrite decide_True by done. rewrite decide_False by congruence. by rewrite (close_both t p0 p1 _ _ Hc).
Qed.

(** Standard input or output can be replaced. *)
Lemma can_pipe_insert t p0 p1 i f : can_pipe t p0 p1 -> (i = 0%nat \/ i = 1%nat) -> can_pipe (<[i := Some f]> t) p0 p1.
Proof.
  intros Hc Hi. destruct (can_pipe_order t p0 p1 Hc) as (H0 & H1 & Hne & _). destruct Hc as [(f0 & Hf0) (f1 & Hf1) Hp0 Hp1].
  assert (i < length t)%nat by (destruct Hi as [->| ->]; by eapply lookup_lt_Some).
  assert (forall u p, (1 < p)%nat -> length u = length t -> lowest u = Some p -> lowest (<[i := Some f]> u) = Some p) as Hlow.
  { intros u p Hp Hl [Hu1 Hu2]%lowest_spec. apply lowest_spec. split; [rewrite list_lookup_insert_ne; [done|lia]|]. intros j Hj.
    destruct (decide (j = i)) as [->|]; [exists f; apply list_lookup_insert_eq; lia|]. rewrite list_lookup_insert_ne by done. by apply Hu2. }
  constructor.
  - destruct (decide (i = 0%nat)) as [->|]; [exists f; by apply list_lookup_insert_eq|]. exists f0. by rewrite list_lookup_insert_ne.
  - destruct (decide (i = 1%nat)) as [->|]; [exists f; by apply list_lookup_insert_eq|]. exists f1. by rewrite list_lookup_insert_ne.
  - by apply Hlow.
  - intros g. rewrite list_insert_insert_ne by lia. apply Hlow; [done|by rewrite length_insert|done].
Qed.

(** a | b | ... *)
Fixpoint pipeline (a : list (list Z)) (l : list (list (list Z))) : cmd_ (list Z) :=
  match l with
  | [] => EXEC a
  | a' :: l' => PIPE (EXEC a) (pipeline a' l')
  end.

(** The descriptors the programs of a pipeline should have: each writes to a
    pipe from which the next one reads. *)
Fixpoint connected (k : nat) (t : fds) (a : list (list Z)) (l : list (list (list Z))) : list (list (list Z) * fds) :=
  match l with
  | [] => [(a, t)]
  | a' :: l' => (a, <[1%nat := Some (WriteEnd k)]> t) :: connected (S k) (<[0%nat := Some (ReadEnd k)]> t) a' l'
  end.

Lemma run_exec a t s : a <> [] -> runcmd (EXEC a) t s = start a t s.
Proof. destruct a; [done|]. intros _. simpl. by rewrite execs. Qed.

(** The shell's processes for the pipes, the innermost first: each has the
    descriptors it began with. *)
Fixpoint shells (k : nat) (t : fds) (l : list (list (list Z))) : list fds :=
  match l with
  | [] => []
  | _ :: l' => shells (S k) (<[0%nat := Some (ReadEnd k)]> t) l' ++ [t]
  end.
(** Each waits for its two children. *)
Definition two_waits (t : fds) : list (fds * nat) := [(t, 2%nat); (t, 1%nat)].

(** C37: the programs of a pipeline are started with their descriptors connected:
    the first reads what the shell's command would read, each other one reads
    from the pipe the one before it writes to, the last writes where the
    shell's command would write, and no program has any other end of a pipe.
    The process that makes a pipe waits for both its children, and has closed
    both ends when it does, so that a reader sees the end when the writer
    exits; then it exits.  Nothing is complained about. *)
Theorem pipeline_is_connected l : forall a t p0 p1 s, can_pipe t p0 p1 -> Forall (fun a => a <> []) (a :: l) ->
  runcmd (pipeline a l) t s =
    Rst (pipes s + length l) (started s ++ connected (pipes s) t a l) (messages s)
      (waits s ++ concat (map two_waits (shells (pipes s) t l))) (exits s ++ shells (pipes s) t l).
Proof.
  induction l as [|a' l IH]; intros a t p0 p1 s Hc Ha; apply Forall_cons in Ha as [Hne Ha]; cbn [pipeline connected].
  - rewrite run_exec by done. unfold start. cbn [shells map concat length]. by rewrite Nat.add_0_r, !app_nil_r.
  - rewrite (run_pipe _ _ t p0 p1 s Hc), run_exec by done. rewrite (IH a' _ p0 p1); [|apply can_pipe_insert; auto|done].
    unfold exit_with, wait_child, start. cbn [pipes started messages waits exits set_pipes shells length]. rewrite map_app, concat_app, <- !app_assoc.
    cbn [map concat app two_waits]. f_equal. lia.
Qed.
End NoFailure.
End Run.

(** The shell's descriptors: console three times. *)
Definition console : fds := replicate 3 (Some (Other 0)) ++ replicate 13 None.

Lemma console_can_pipe : can_pipe console 3 4.
Proof. constructor; [by eexists|by eexists|done|done]. Qed.

Lemma pipeline_is_connected_witness :
  runcmd (fun _ => true) (fun _ _ _ => true) (fun _ _ => true) (pipeline [str "ls"] [[str "grep"; str "a"]; [str "wc"]]) console (Rst 0 [] [] [] []) =
    let mid := <[0%nat := Some (ReadEnd 0)]> console in
    Rst 2 [([str "ls"], <[1%nat := Some (WriteEnd 0)]> console);
           ([str "grep"; str "a"], <[1%nat := Some (WriteEnd 1)]> mid);
           ([str "wc"], <[0%nat := Some (ReadEnd 1)]> mid)] []
      [(mid, 2%nat); (mid, 1%nat); (console, 2%nat); (console, 1%nat)] [mid; console].
Proof.
  apply (pipeline_is_connected (fun _ => true) (fun _ _ _ => true) (fun _ _ => true) (fun _ => eq_refl) (fun _ _ => eq_refl)
    [[str "grep"; str "a"]; [str "wc"]] [str "ls"] console 3 4 (Rst 0 [] [] [] [])).
  - exact console_can_pipe.
  - by repeat constructor.
Defined.

(** * The main loop *)

Definition nbuf : Z := 100.

Record shst := Shst { sh_rst : rst; sh_inp : list Z; sh_cds : list (list Z); sh_on : bool }.
Definition set_sh_rst v s := Shst v (sh_inp s) (sh_cds s) (sh_on s).
Definition set_sh_inp v s := Shst (sh_rst s) v (sh_cds s) (sh_on s).
Definition set_sh_cds v s := Shst (sh_rst s) (sh_inp s) v (sh_on s).
Definition stop s := Shst (sh_rst s) (sh_inp s) (sh_cds s) false.

Section Main.
Variable fork_ok : rst -> bool.
Variable open_ok : list Z -> Z -> rst -> bool.
Variable exec_ok : list Z -> rst -> bool.
Variable chdir_ok : list Z -> bool.

(** while((fd = open("console", O_RDWR)) >= 0), with [n] attempts. *)
Fixpoint open_console (n : nat) (t : fds) : fds :=
  match n with
  | O => t
  | S n' =>
      match fd_open (Opened (bytes "console") 2) t with
      | None => t
      | Some (fd, t') => if (3 <=? fd)%nat then fd_close fd t' else open_console n' t'
      end
  end.

(** The line read into the buffer, as a string, and the rest of the input. *)
Definition getcmd (inp : list Z) : option (list Z) * list Z :=
  let m := Ulib.memset mem0 0 0 nbuf in
  let '(m, rest) := gets_ m 0 nbuf inp in
  let line := cstr m 0 (Z.to_nat nbuf) in
  (match line with [] => None | _ => Some line end, rest).

(** runcmd(parsecmd(buf)) in a child; a syntax error ends the child. *)
Definition run_child (line : list Z) (t : fds) (s : rst) : rst :=
  match parsecmd line (4 * length line + 6) 0%nat with
  | Ret (c, m) _ => runcmd fork_ok open_ok exec_ok (cmd_map (fun w => cstring (drop (q_ w) m)) c) t s
  | Panic why _ => panic why t s
  | _ => s
  end.

(** The body of the loop. *)
Definition run_line (t : fds) (line : list Z) (s : shst) : shst :=
  if bool_decide (take 3 line = bytes "cd ") then
    let dir := take (length line - 4) (drop 3 line) in
    if chdir_ok dir then set_sh_cds (sh_cds s ++ [dir]) s
    else set_sh_rst (say "cannot cd %s" dir (sh_rst s)) s
  else if fork_ok (sh_rst s) then set_sh_rst (wait_child t 1 (run_child line t (sh_rst s))) s
  else stop (set_sh_rst (panic "fork" t (sh_rst s)) s).

(** [None] if there are lines left after [n]. *)
Fixpoint sh_loop (n : nat) (t : fds) (s : shst) : option shst :=
  match n with
  | O => None
  | S n' =>
      match getcmd (sh_inp s) with
      | (None, rest) => Some (stop (set_sh_inp rest s))
      | (Some line, rest) =>
          let s' := run_line t line (set_sh_inp rest s) in
          if sh_on s' then sh_loop n' t s' else Some s'
      end
  end.

Definition sh_main (n : nat) (t : fds) (s : shst) : option shst := sh_loop n (open_console 16 t) s.
End Main.

(** * Reading lines *)

(** A line of text that fits the buffer with its new line. *)
Definition text_line (l : list Z) : Prop := (length l <= 98)%nat /\ Forall (fun c => c <> 0 /\ c <> 10 /\ c <> 13) l.

Lemma gets_loop_line l : forall m a n rest, Forall (fun c => c <> 0 /\ c <> 10 /\ c <> 13) l -> (length l < n)%nat ->
  exists m', gets_loop m a n (l ++ 10 :: rest) = (m', a + Z.of_nat (length l) + 1, rest)
    /\ forall x, m' x = place (l ++ [10]) a m x.
Proof.
  induction l as [|c l IH]; intros m a n rest Hl Hn; (destruct n as [|n]; [lia|]); cbn [gets_loop app].
  - exists (store m a 10). split; [cbn; f_equal; f_equal; lia|]. intros x. unfold store, place. cbn [length]. destruct (Z.eqb_spec x a) as [->|Hne].
    + destruct (Z.leb_spec a a), (Z.ltb_spec a (a + Z.of_nat 1)); try lia. by rewrite Z.sub_diag.
    + destruct (Z.leb_spec a x), (Z.ltb_spec x (a + Z.of_nat 1)); cbn [andb]; done || lia.
  - apply Forall_cons in Hl as [(H0 & H10 & H13) Hl]. destruct (Z.eqb_spec c 10), (Z.eqb_spec c 13); try done. cbn [orb]. cbn [length] in *.
    destruct (IH (store m a c) (a + 1) n rest Hl) as (m' & E & Hm); [lia|]. exists m'. rewrite E. split; [f_equal; f_equal; lia|]. intros x. rewrite Hm.
    unfold place, store. cbn [length app]. rewrite !length_app. cbn [length]. destruct (Z.eqb_spec x a) as [->|Hne].
    + destruct (Z.leb_spec (a + 1) a); [lia|]. cbn [andb]. destruct (Z.leb_spec a a), (Z.ltb_spec a (a + Z.of_nat (S (length l + 1)))); try lia. by rewrite Z.sub_diag.
    + destruct (Z.leb_spec (a + 1) x), (Z.leb_spec a x), (Z.ltb_spec x (a + 1 + Z.of_nat (length l + 1))), (Z.ltb_spec x (a + Z.of_nat (S (length l + 1)))); cbn [andb]; try done; try lia.
      replace (Z.to_nat (x - a)) with (S (Z.to_nat (x - (a + 1)))) by lia. done.
Qed.

Lemma getcmd_line l rest : text_line l -> getcmd (l ++ 10 :: rest) = (Some (l ++ [10]), rest).
Proof.
  intros [Hlen Hl]. unfold getcmd, gets_. change (Z.to_nat (nbuf - 1)) with 99%nat. set (m0 := Ulib.memset mem0 0 0 nbuf).
  destruct (gets_loop_line l m0 0 99 rest Hl) as (m' & E & Hm); [lia|]. rewrite E. change (Z.to_nat nbuf) with 100%nat.
  assert (cstr (store m' (0 + Z.of_nat (length l) + 1) 0) 0 100 = l ++ [10]) as ->; [|by destruct l].
  apply cstr_of_nth; [rewrite length_app; cbn; lia|apply Forall_app; split; [eapply Forall_impl; [exact Hl|]; cbn; tauto|by apply Forall_singleton]|].
  intros i Hi. unfold store. destruct (Z.eqb_spec (0 + Z.of_nat i) (0 + Z.of_nat (length l) + 1)) as [Ei|Ei].
  - rewrite nth_overflow; [done|]. rewrite length_app. cbn. lia.
  - rewrite Hm. unfold place. rewrite length_app. cbn [length]. destruct (Z.leb_spec 0 (0 + Z.of_nat i)); [|lia].
    destruct (Z.ltb_spec (0 + Z.of_nat i) (0 + Z.of_nat (length l + 1))); cbn [andb]; [f_equal; lia|].
    rewrite nth_overflow by (rewrite length_app; cbn; lia). unfold m0, Ulib.memset. rewrite stosb_spec. by destruct (_ && _).
Qed.

Section Lines.
Variable fork_ok : rst -> bool.
Variable open_ok : list Z -> Z -> rst -> bool.
Variable exec_ok : list Z -> rst -> bool.
Variable chdir_ok : list Z -> bool.

Definition run_lines (t : fds) (ls : list (list Z)) (s : shst) : shst :=
  foldl (fun s l => run_line fork_ok open_ok exec_ok chdir_ok t (l ++ [10]) s) s ls.

Lemma run_line_inp t line s inp :
  run_line fork_ok open_ok exec_ok chdir_ok t line (set_sh_inp inp s) = set_sh_inp inp (run_line fork_ok open_ok exec_ok chdir_ok t line s).
Proof. unfold run_line. cbn [sh_rst set_sh_inp]. destruct (bool_decide _); [by destruct (chdir_ok _)|]. by destruct (fork_ok (sh_rst s)). Qed.

Lemma run_line_on t line s : (forall r, fork_ok r = true) -> sh_on (run_line fork_ok open_ok exec_ok chdir_ok t line s) = sh_on s.
Proof. intros Hf. unfold run_line. rewrite Hf. destruct (bool_decide _); [|done]. by destruct (chdir_ok _). Qed.

Lemma run_lines_inp t ls inp : forall s, set_sh_inp [] (run_lines t ls (set_sh_inp inp s)) = set_sh_inp [] (run_lines t ls s).
Proof. induction ls as [|l ls IH]; intros s; [done|]. unfold run_lines in *. cbn [foldl]. rewrite run_line_inp. apply IH. Qed.

(** The shell reads its input line by line, runs each line before it reads the
    next one, changes directory itself, and ends at the end of the input. *)
Theorem shell_runs_each_line ls : forall n t s, (forall r, fork_ok r = true) -> Forall text_line ls -> sh_on s = true -> sh_inp s = concat (map (fun l => l ++ [10]) ls) ->
  (length ls < n)%nat -> sh_loop fork_ok open_ok exec_ok chdir_ok n t s = Some (stop (set_sh_inp [] (run_lines t ls s))).
Proof.
  induction ls as [|l ls IH]; intros [|n] t s Hf Hl Hon Hi Hn; try (cbn in Hn; lia); cbn [sh_loop]; rewrite Hi; cbn [map concat].
  - done.
  - apply Forall_cons in Hl as [Hl Hls]. rewrite <- app_assoc. cbn [app]. rewrite getcmd_line by done. rewrite run_line_inp. cbn [sh_on set_sh_inp]. rewrite run_line_on, Hon by done.
    rewrite (IH n t) by (done || (cbn [sh_on set_sh_inp]; by rewrite run_line_on) || (cbn in Hn; lia)). do 2 f_equal.
    apply (run_lines_inp t ls).
Qed.
End Lines.
