(* ===== verification/Kbd.v ===== *)
(** The keyboard (src/xv6-public/kbd.c and kbd.h): scan codes to characters.

    [shift] is the variable of kbdgetc; the bytes of the controller's ports
    are arguments.  The tables and the bits of [shift] are shown to implement
    a keyboard described by its keys: what is printed on them, and which of
    them are modifiers and locks. *)
From S2P Require Import Prelude CString.

Definition KBS_DIB : Z := 1.
Definition SHIFT : Z := 1.
Definition CTL : Z := 2.
Definition ALT : Z := 4.
Definition CAPSLOCK : Z := 8.
Definition NUMLOCK : Z := 16.
Definition SCROLLLOCK : Z := 32.
Definition E0ESC : Z := 64.

Definition KEY_HOME : Z := 0xE0.
Definition KEY_END : Z := 0xE1.
Definition KEY_UP : Z := 0xE2.
Definition KEY_DN : Z := 0xE3.
Definition KEY_LF : Z := 0xE4.
Definition KEY_RT : Z := 0xE5.
Definition KEY_PGUP : Z := 0xE6.
Definition KEY_PGDN : Z := 0xE7.
Definition KEY_INS : Z := 0xE8.
Definition KEY_DEL : Z := 0xE9.

(** An array of 256 bytes: its first elements, and some at their index. *)
Definition table (l : list Z) (more : list (Z * Z)) : list Z :=
  foldr (fun x t => <[Z.to_nat x.1 := x.2]> t) (l ++ replicate (256 - length l) 0) more.

Definition shiftcode : list Z := table
  []
  [(0x1D, CTL); (0x2A, SHIFT); (0x36, SHIFT); (0x38, ALT); (0x9D, CTL); (0xB8, ALT)].

Definition togglecode : list Z := table
  []
  [(0x3A, CAPSLOCK); (0x45, NUMLOCK); (0x46, SCROLLLOCK)].

Definition normalmap : list Z := table
  [0; 27; 49; 50; 51; 52; 53; 54; 55; 56; 57; 48; 45; 61; 8; 9;
   113; 119; 101; 114; 116; 121; 117; 105; 111; 112; 91; 93; 10; 0; 97; 115;
   100; 102; 103; 104; 106; 107; 108; 59; 39; 96; 0; 92; 122; 120; 99; 118;
   98; 110; 109; 44; 46; 47; 0; 42; 0; 32; 0; 0; 0; 0; 0; 0;
   0; 0; 0; 0; 0; 0; 0; 55; 56; 57; 45; 52; 53; 54; 43; 49;
   50; 51; 48; 46; 0; 0; 0; 0]
  [(0x9C, 10); (0xB5, 47); (0xC8, KEY_UP); (0xD0, KEY_DN); (0xC9, KEY_PGUP); (0xD1, KEY_PGDN); (0xCB, KEY_LF); (0xCD, KEY_RT); (0x97, KEY_HOME); (0xCF, KEY_END); (0xD2, KEY_INS); (0xD3, KEY_DEL)].

Definition shiftmap : list Z := table
  [0; 27; 33; 64; 35; 36; 37; 94; 38; 42; 40; 41; 95; 43; 8; 9;
   81; 87; 69; 82; 84; 89; 85; 73; 79; 80; 123; 125; 10; 0; 65; 83;
   68; 70; 71; 72; 74; 75; 76; 58; 34; 126; 0; 124; 90; 88; 67; 86;
   66; 78; 77; 60; 62; 63; 0; 42; 0; 32; 0; 0; 0; 0; 0; 0;
   0; 0; 0; 0; 0; 0; 0; 55; 56; 57; 45; 52; 53; 54; 43; 49;
   50; 51; 48; 46; 0; 0; 0; 0]
  [(0x9C, 10); (0xB5, 47); (0xC8, KEY_UP); (0xD0, KEY_DN); (0xC9, KEY_PGUP); (0xD1, KEY_PGDN); (0xCB, KEY_LF); (0xCD, KEY_RT); (0x97, KEY_HOME); (0xCF, KEY_END); (0xD2, KEY_INS); (0xD3, KEY_DEL)].

Definition ctlmap : list Z := table
  [0; 0; 0; 0; 0; 0; 0; 0; 0; 0; 0; 0; 0; 0; 0; 0;
   17; 23; 5; 18; 20; 25; 21; 9; 15; 16; 0; 0; 13; 0; 1; 19;
   4; 6; 7; 8; 10; 11; 12; 0; 0; 0; 0; 28; 26; 24; 3; 22;
   2; 14; 13; 0; 0; 239; 0; 0]
  [(0x9C, 13); (0xB5, 239); (0xC8, KEY_UP); (0xD0, KEY_DN); (0xC9, KEY_PGUP); (0xD1, KEY_PGDN); (0xCB, KEY_LF); (0xCD, KEY_RT); (0x97, KEY_HOME); (0xCF, KEY_END); (0xD2, KEY_INS); (0xD3, KEY_DEL)].

Definition charcode : list (list Z) := [normalmap; shiftmap; ctlmap; ctlmap].

(** [st] and [data] are what inb returns for the two ports.  The result is the
    character, or -1 without a key, and the new [shift]; [None] outside a
    table. *)
Definition kbdgetc (st data shift : Z) : option (Z * Z) :=
  if Z.land st KBS_DIB =? 0 then Some (-1, shift) else
  if data =? 0xE0 then Some (0, Z.lor shift E0ESC) else
  if negb (Z.land data 0x80 =? 0) then
    let data := if negb (Z.land shift E0ESC =? 0) then data else Z.land data 0x7F in
    sc ← arr_get shiftcode data;
    Some (0, Z.land shift (Z.lnot (Z.lor sc E0ESC)))
  else
    let esc := negb (Z.land shift E0ESC =? 0) in
    let data := if esc then Z.lor data 0x80 else data in
    let shift := if esc then Z.land shift (Z.lnot E0ESC) else shift in
    sc ← arr_get shiftcode data;
    tc ← arr_get togglecode data;
    let shift := Z.lxor (Z.lor shift sc) tc in
    t ← arr_get charcode (Z.land shift (Z.lor CTL SHIFT));
    c ← arr_get t data;
    let c := if negb (Z.land shift CAPSLOCK =? 0) then
               if (97 <=? c) && (c <=? 122) then c - 32
               else if (65 <=? c) && (c <=? 90) then c + 32 else c
             else c in
    Some (c, shift).

(** What the calls of kbdgetc return, up to the first that finds no key, and
    the new [shift]; [ports] are the values read from the controller. *)
Fixpoint kbd_chars (ports : list (Z * Z)) (shift : Z) : option (list Z * Z) :=
  match ports with
  | [] => Some ([], shift)
  | (st, data) :: ports =>
      '(c, shift) ← kbdgetc st data shift;
      if c <? 0 then Some ([c], shift) else
      '(cs, shift) ← kbd_chars ports shift;
      Some (c :: cs, shift)
  end.

(** * The keyboard *)

(** A key: whether it is one of the extended keyboard, whose codes have a
    prefix, and its code. *)
Definition key : Type := bool * Z.
Inductive key_event := Press (k : key) | Release (k : key).

(** The codes the keyboard sends. *)
Definition key_bytes (e : key_event) : list Z :=
  let '(k, up) := match e with Press k => (k, 0) | Release k => (k, 128) end in
  (if k.1 then [0xE0] else []) ++ [k.2 + up].

(** 128 codes; the release of 0x60 would be the prefix, so no key has it. *)
Definition key_ok (e : key_event) : Prop :=
  match e with Press k => 0 <= k.2 < 128 | Release k => 0 <= k.2 < 128 /\ k.2 <> 0x60 end.

(** Four rows of keys from a code on: what they give, and with shift. *)
Definition rows : list (Z * list Z * list Z) :=
  [(0x02, bytes "1234567890-=", bytes "!@#$%^&*()_+");
   (0x10, bytes "qwertyuiop[]", bytes "QWERTYUIOP{}");
   (0x1E, bytes "asdfghjkl;'`", bytes "ASDFGHJKL:" ++ [34] ++ bytes "~");
   (0x2B, bytes "\zxcvbnm,./", bytes "|ZXCVBNM<>?")].

(** The keys that give the same with shift: escape, backspace, tab, enter, space
    and the keypad. *)
Definition keypad : list Z := bytes "789-456+1230.".
Definition fixed (k : key) : Z :=
  match k with
  | (false, c) =>
      if c =? 0x01 then 27 else if c =? 0x0E then 8 else if c =? 0x0F then 9 else if c =? 0x1C then 10
      else if c =? 0x37 then 42 else if c =? 0x39 then 32
      else if (0x47 <=? c) && (c <? 0x54) then nth (Z.to_nat (c - 0x47)) keypad 0 else 0
  | (true, c) => if c =? 0x1C then 10 else if c =? 0x35 then 47 else 0
  end.

(** The keys of the extended keyboard that are no characters; Home where the
    tables have it, at 0x17. *)
Definition special (k : key) : option Z :=
  match k with
  | (true, c) =>
      if c =? 0x48 then Some KEY_UP else if c =? 0x50 then Some KEY_DN else if c =? 0x4B then Some KEY_LF else if c =? 0x4D then Some KEY_RT
      else if c =? 0x49 then Some KEY_PGUP else if c =? 0x51 then Some KEY_PGDN else if c =? 0x17 then Some KEY_HOME else if c =? 0x4F then Some KEY_END
      else if c =? 0x52 then Some KEY_INS else if c =? 0x53 then Some KEY_DEL else None
  | _ => None
  end.

Definition in_row (c : Z) (r : Z * list Z * list Z) : bool := (r.1.1 <=? c) && (c <? r.1.1 + Z.of_nat (length r.1.2)).

(** What is printed on a key, the upper symbol with shift. *)
Definition symbol (shifted : bool) (k : key) : Z :=
  match k with
  | (false, c) =>
      match List.find (in_row c) rows with
      | Some r => nth (Z.to_nat (c - r.1.1)) (if shifted then r.2 else r.1.2) 0
      | None => fixed k
      end
  | _ => fixed k
  end.

Definition lower (c : Z) : bool := (97 <=? c) && (c <=? 122).
Definition upper (c : Z) : bool := (65 <=? c) && (c <=? 90).
Definition swap_case (c : Z) : Z := if lower c then c - 32 else if upper c then c + 32 else c.

(** With the control key: the control characters of the letters and two signs,
    a carriage return for enter. *)
Definition control (k : key) : Z :=
  let c := symbol false k in
  if lower c then c - 96 else if (c =? 92) || (c =? 47) then u8 (c - 64) else if c =? 10 then 13 else 0.

(** The modifiers and the locks. *)
Record mods := Mods { m_shift : bool; m_ctl : bool; m_alt : bool; m_caps : bool; m_num : bool; m_scroll : bool }.

Inductive modifier := MShift | MCtl | MAlt | MCaps | MNum | MScroll.

Definition modifier_of (k : key) : option modifier :=
  let '(e, c) := k in
  if c =? 0x1D then Some MCtl else if c =? 0x38 then Some MAlt
  else if e then None
  else if (c =? 0x2A) || (c =? 0x36) then Some MShift else if c =? 0x3A then Some MCaps else if c =? 0x45 then Some MNum
  else if c =? 0x46 then Some MScroll else None.

(** A modifier is on from the press of one of its keys to the next release of
    one; a lock changes with every press. *)
Definition mods_after (e : key_event) (m : mods) : mods :=
  let '(k, down) := match e with Press k => (k, true) | Release k => (k, false) end in
  let 'Mods sh ct al ca nu sc := m in
  match modifier_of k with
  | Some MShift => Mods down ct al ca nu sc
  | Some MCtl => Mods sh down al ca nu sc
  | Some MAlt => Mods sh ct down ca nu sc
  | Some MCaps => Mods sh ct al (xorb down ca) nu sc
  | Some MNum => Mods sh ct al ca (xorb down nu) sc
  | Some MScroll => Mods sh ct al ca nu (xorb down sc)
  | None => m
  end.

(** The character a press gives, 0 for none. *)
Definition key_char (m : mods) (k : key) : Z :=
  match special k with
  | Some c => c
  | None =>
      if m_ctl m then control k
      else if m_caps m then swap_case (symbol (m_shift m) k) else symbol (m_shift m) k
  end.
Definition event_char (m : mods) (e : key_event) : Z := match e with Press k => key_char m k | Release _ => 0 end.

(** What is typed, and the modifiers after it. *)
Fixpoint typed (m : mods) (es : list key_event) : list Z * mods :=
  match es with
  | [] => ([], m)
  | e :: es =>
      let m := mods_after e m in let r := typed m es in
      ((if event_char m e =? 0 then [] else [event_char m e]) ++ r.1, r.2)
  end.

(** * The code implements it *)

(** The variable [shift] for given modifiers. *)
Definition bits (m : mods) : Z :=
  let b (x : bool) v := if x then v else 0 in
  b (m_shift m) SHIFT + b (m_ctl m) CTL + b (m_alt m) ALT + b (m_caps m) CAPSLOCK + b (m_num m) NUMLOCK + b (m_scroll m) SCROLLLOCK.

(** One event: the prefix gives no character, and the modifiers come out right. *)
Fixpoint codes_ok (l : list Z) (shift c shift' : Z) : bool :=
  match l with
  | [] => false
  | [b] => bool_decide (kbdgetc 1 b shift = Some (c, shift'))
  | b :: l' => match kbdgetc 1 b shift with Some (0, s) => codes_ok l' s c shift' | _ => false end
  end.
Definition event_ok (m : mods) (e : key_event) : bool :=
  codes_ok (key_bytes e) (bits m) (event_char (mods_after e m) e) (bits (mods_after e m)).

Definition bools : list bool := [true; false].
Definition all_mods : list mods :=
  sh ← bools; ct ← bools; al ← bools; ca ← bools; nu ← bools; sc ← bools; [Mods sh ct al ca nu sc].
Definition all_events : list key_event :=
  e ← bools; c ← seqZ 0 128; Press (e, c) :: (if c =? 0x60 then [] else [Release (e, c)]).

Lemma bools_all b : b ∈ bools.
Proof. destruct b; [left|right; left]. Qed.

Lemma all_mods_all m : m ∈ all_mods.
Proof.
  destruct m as [sh ct al ca nu sc]. unfold all_mods. do 6 (apply list_elem_of_bind; eexists; split; [|apply bools_all]). apply list_elem_of_singleton. reflexivity.
Qed.

Lemma all_events_all e : key_ok e -> e ∈ all_events.
Proof.
  intros He. assert (exists p c, (e = Press (p, c) \/ e = Release (p, c) /\ c <> 0x60) /\ 0 <= c < 128) as (p & c & Hpc & Hc).
  { destruct e as [[p c]|[p c]]; cbn in He; exists p, c; (split; [|lia]); [by left|right; split; [done|lia]]. }
  unfold all_events. apply list_elem_of_bind. exists p. split; [|apply bools_all]. apply list_elem_of_bind. exists c. split; [|apply elem_of_seqZ; lia].
  destruct Hpc as [->|[-> Hne]]; [left|right]. destruct (Z.eqb_spec c 0x60); [done|left].
Qed.

Lemma all_events_ok : forallb (fun m => forallb (event_ok m) all_events) all_mods = true.
Proof. vm_compute. reflexivity. Qed.

Lemma event_is_ok m e : key_ok e -> event_ok m e = true.
Proof.
  intros He%all_events_all. pose proof all_events_ok as H. rewrite forallb_forall in H. specialize (H m (proj1 (list_elem_of_In _ _) (all_mods_all m))).
  rewrite forallb_forall in H. exact (H e (proj1 (list_elem_of_In _ _) He)).
Qed.

(** A controller with a byte in its buffer. *)
Definition full (p : Z * Z) : Prop := Z.land p.1 KBS_DIB <> 0.

Lemma kbdgetc_full p shift : full p -> kbdgetc p.1 p.2 shift = kbdgetc 1 p.2 shift.
Proof. intros H. unfold kbdgetc. by rewrite (proj2 (Z.eqb_neq _ _) H). Qed.

Lemma codes_run l c shift' : forall ps shift q, map snd ps = l -> Forall full ps -> 0 <= c -> codes_ok l shift c shift' = true ->
  exists z, Forall (eq 0) z /\ kbd_chars (ps ++ q) shift = '(cs, s) ← kbd_chars q shift'; Some (z ++ c :: cs, s).
Proof.
  induction l as [|b l IH]; intros [|[st d] ps] shift q Hm Hf Hc Hok; [done..|]. injection Hm as <- Hl. apply Forall_cons in Hf as [Hp Hf]. cbn [app kbd_chars].
  change (kbdgetc st d shift) with (kbdgetc (st, d).1 (st, d).2 shift). rewrite kbdgetc_full by done. cbn [snd]. destruct l as [|b' l].
  - destruct ps; [|done]. cbn in Hok. apply bool_decide_eq_true in Hok. rewrite Hok. exists []. split; [done|]. cbn. by destruct (Z.ltb_spec c 0); [lia|].
  - change (codes_ok (d :: b' :: l) shift c shift') with (match kbdgetc 1 d shift with Some (0, s) => codes_ok (b' :: l) s c shift' | _ => false end) in Hok.
    destruct (kbdgetc 1 d shift) as [[[| |] s]|]; try done. destruct (IH ps s q) as (z & Hz & E); [done..|].
    exists (0 :: z). split; [by constructor|]. cbn. rewrite E. cbn. by destruct (kbd_chars q shift') as [[]|].
Qed.

(** No character is negative. *)
Lemma event_char_range m e : key_ok e -> 0 <= event_char m e.
Proof.
  intros He%all_events_all. assert (forallb (fun m => forallb (fun e => 0 <=? event_char m e) all_events) all_mods = true) as H by (vm_compute; reflexivity).
  rewrite forallb_forall in H. specialize (H m (proj1 (list_elem_of_In _ _) (all_mods_all m))).
  rewrite forallb_forall in H. apply Z.leb_le. exact (H e (proj1 (list_elem_of_In _ _) He)).
Qed.

Lemma filter_zeros z : Forall (eq 0) z -> filter (fun c => c <> 0) z = [].
Proof. induction 1 as [|? ? <- _ IH]; [done|]. by rewrite filter_cons_False by (by intros []). Qed.

(** C29: the interrupt handler of the keyboard gets from kbdgetc what is typed:
    for any sequence of keys pressed and released, in any state of the
    modifiers, its calls give, apart from zeros, the characters printed on the
    keys pressed, with shift the upper ones, with caps lock letters of the
    other case, with the control key control characters, and -1 when the
    controller has no more; and [shift] has the modifiers, each on from the
    press of one of its keys to the release of one, and the locks that have
    changed with every press.  The keys of the extended keyboard are told apart
    by their prefix. *)
Theorem kbdgetc_types es : forall m ports st data,
  Forall key_ok es -> Forall full ports -> map snd ports = concat (map key_bytes es) -> ~ full (st, data) ->
  exists cs, kbd_chars (ports ++ [(st, data)]) (bits m) = Some (cs ++ [-1], bits (typed m es).2) /\
    filter (fun c => c <> 0) cs = (typed m es).1.
Proof.
  induction es as [|e es IH]; intros m ports st data Hes Hf Hb Hst.
  - apply map_eq_nil in Hb. subst ports. exists []. split; [|done]. cbn. unfold kbdgetc. unfold full in Hst. cbn in Hst.
    destruct (Z.eqb_spec (Z.land st KBS_DIB) 0); [done|by destruct Hst].
  - apply Forall_cons in Hes as [He Hes]. cbn [map concat] in Hb. apply map_eq_app in Hb as (p1 & p2 & -> & H1 & H2). apply Forall_app in Hf as [Hf1 Hf2].
    destruct (IH (mods_after e m) p2 st data) as (cs & E & Hcs); [done..|]. rewrite <- app_assoc.
    destruct (codes_run _ _ _ p1 _ (p2 ++ [(st, data)]) H1 Hf1 (event_char_range _ _ He) (event_is_ok m e He)) as (z & Hz & Hrun).
    rewrite Hrun, E. cbn [typed fst snd mbind option_bind]. exists (z ++ event_char (mods_after e m) e :: cs). split; [by rewrite <- app_assoc|].
    rewrite filter_app, (filter_zeros z Hz). cbn [app].
    destruct (Z.eqb_spec (event_char (mods_after e m) e) 0) as [->|Hne]; [by rewrite filter_cons_False by (by intros [])|by rewrite filter_cons_True, Hcs].
Qed.

(** Shift and the key A, then the key 2, shift released, caps lock, A, the
    control key of the extended keyboard and A, its release, the arrow up. *)
Definition ex_events : list key_event :=
  [Press (false, 0x2A); Press (false, 0x1E); Release (false, 0x1E); Press (false, 0x03); Release (false, 0x2A);
   Press (false, 0x3A); Release (false, 0x3A); Press (false, 0x1E); Press (true, 0x1D); Press (false, 0x1E); Release (true, 0x1D); Press (true, 0x48)].

Lemma kbdgetc_types_witness :
  exists cs, kbd_chars (map (pair 0x15) (concat (map key_bytes ex_events)) ++ [(0x14, 0)]) 0 = Some (cs ++ [-1], 8) /\
    filter (fun c => c <> 0) cs = [65; 64; 65; 1; 0xE2].
Proof.
  apply (kbdgetc_types ex_events (Mods false false false false false false) (map (pair 0x15) (concat (map key_bytes ex_events))) 0x14 0).
  - repeat constructor; cbn; lia.
  - apply Forall_forall. intros p (b & -> & _)%list_elem_of_fmap. done.
  - reflexivity.
  - intros []. reflexivity.
Defined.
