(* ===== verification/Cga.v ===== *)
(** The console's output (src/xv6-public/console.c, uart.c): the text screen,
    the serial port, and the characters written to both.

    The screen is the CGA memory, 16 bits a cell, and the two cursor
    registers of the controller; the serial port is the list of the bytes
    sent.  How long uartputc waits for the port is not observable. *)
From S2P Require Import Prelude.

Record console := Console {
  panicked : Z;
  locking : Z;
  uart : Z;
  serial : list Z;
  crt : list Z;
  cur_hi : Z;
  cur_lo : Z;
  ibuf : list Z;
  ir : Z;
  iw : Z;
  ie : Z
}.
Definition set_panicked v s := Console v (locking s) (uart s) (serial s) (crt s) (cur_hi s) (cur_lo s) (ibuf s) (ir s) (iw s) (ie s).
Definition set_locking v s := Console (panicked s) v (uart s) (serial s) (crt s) (cur_hi s) (cur_lo s) (ibuf s) (ir s) (iw s) (ie s).
Definition set_uart v s := Console (panicked s) (locking s) v (serial s) (crt s) (cur_hi s) (cur_lo s) (ibuf s) (ir s) (iw s) (ie s).
Definition set_serial v s := Console (panicked s) (locking s) (uart s) v (crt s) (cur_hi s) (cur_lo s) (ibuf s) (ir s) (iw s) (ie s).
Definition set_crt v s := Console (panicked s) (locking s) (uart s) (serial s) v (cur_hi s) (cur_lo s) (ibuf s) (ir s) (iw s) (ie s).
Definition set_cursor h l s := Console (panicked s) (locking s) (uart s) (serial s) (crt s) h l (ibuf s) (ir s) (iw s) (ie s).
Definition set_ibuf v s := Console (panicked s) (locking s) (uart s) (serial s) (crt s) (cur_hi s) (cur_lo s) v (ir s) (iw s) (ie s).
Definition set_ir v s := Console (panicked s) (locking s) (uart s) (serial s) (crt s) (cur_hi s) (cur_lo s) (ibuf s) v (iw s) (ie s).
Definition set_iw v s := Console (panicked s) (locking s) (uart s) (serial s) (crt s) (cur_hi s) (cur_lo s) (ibuf s) (ir s) v (ie s).
Definition set_ie v s := Console (panicked s) (locking s) (uart s) (serial s) (crt s) (cur_hi s) (cur_lo s) (ibuf s) (ir s) (iw s) v.

Notation D := (M console).

Definition BACKSPACE : Z := 0x100.

Definition uartputc (c : Z) : D unit :=
  s <- gets (fun s => s) ;;
  if uart s =? 0 then ret tt else modify (set_serial (serial s ++ [u8 c])).

(** [crt[pos] = v] *)
Definition crt_put (pos v : Z) : D unit :=
  s <- gets (fun s => s) ;;
  l <- get_opt "crt" (arr_set (crt s) pos v) ;;
  modify (set_crt l).

(** memmove(crt, crt+80, 23 rows), then memset from [pos] to the end of row 23. *)
Definition scroll (pos : Z) : D unit :=
  s <- gets (fun s => s) ;;
  if (length (crt s) <? 24 * 80)%nat then undef "crt" else
  let l := take 1840 (drop 80 (crt s)) ++ drop 1840 (crt s) in
  modify (set_crt (take (Z.to_nat pos) l ++ replicate (Z.to_nat (24 * 80 - pos)) 0 ++ drop 1920 l)).

Definition cgaputc (c : Z) : D unit :=
  s <- gets (fun s => s) ;;
  let pos := Z.lor (Z.shiftl (cur_hi s) 8) (cur_lo s) in
  pos <- (if c =? 10 then ret (pos + (80 - pos mod 80))
          else if c =? BACKSPACE then ret (if 0 <? pos then pos - 1 else pos)
          else crt_put pos (Z.lor (Z.land c 0xff) 0x0700) ;; ret (pos + 1)) ;;
  if (pos <? 0) || (25 * 80 <? pos) then panic "pos under/overflow" else
  pos <- (if 24 <=? pos / 80 then scroll (pos - 80) ;; ret (pos - 80) else ret pos) ;;
  modify (set_cursor (u8 (Z.shiftr pos 8)) (u8 pos)) ;;
  crt_put pos (Z.lor 32 0x0700).

Definition consputc (c : Z) : D unit :=
  s <- gets (fun s => s) ;;
  if negb (panicked s =? 0) then (fun s => Spin s) else
  (if c =? BACKSPACE then uartputc 8 ;; uartputc 32 ;; uartputc 8 else uartputc c) ;;
  cgaputc c.

Fixpoint puts (l : list Z) : D unit :=
  match l with [] => ret tt | c :: l' => consputc c ;; puts l' end.

(** * The screen as a typewriter *)

Definition pos_of (s : console) : Z := Z.lor (Z.shiftl (cur_hi s) 8) (cur_lo s).

(** What a cell shows: scrolling fills with zeros, which are blank. *)
Definition glyph (v : Z) : Z := if Z.land v 0xff =? 0 then 32 else Z.land v 0xff.

(** The text in front of the cursor; the oldest row leaves when the 24th is
    reached. *)
Definition tty_scroll (t : list Z) : list Z := if (1920 <=? length t)%nat then drop 80 t else t.

Definition tty_put (t : list Z) (c : Z) : list Z :=
  tty_scroll
    (if c =? 10 then t ++ replicate (80 - length t mod 80) 32
     else if c =? BACKSPACE then removelast t
     else t ++ [glyph c]).

Record shows (s : console) (t : list Z) : Prop := {
  sh_pos : pos_of s = Z.of_nat (length t);
  sh_text : (length t < 1920)%nat;
  sh_len : (1920 <= length (crt s))%nat;
  sh_cells : map glyph (take 1920 (crt s)) = t ++ replicate (1920 - length t) 32
}.

(** The rest of the console is the same. *)
Definition screen_only (s s' : console) : Prop :=
  s' = set_cursor (cur_hi s') (cur_lo s') (set_crt (crt s') s) /\ drop 1920 (crt s') = drop 1920 (crt s).

Lemma pos_cursor p s : 0 <= p < 65536 -> pos_of (set_cursor (u8 (Z.shiftr p 8)) (u8 p) s) = p.
Proof.
  intros Hp. unfold pos_of, u8. cbn [cur_hi cur_lo set_cursor].
  rewrite (Z.mod_small (Z.shiftr p 8)) by (rewrite Z.shiftr_div_pow2 by lia; split; [apply Z.div_pos|apply Z.div_lt_upper_bound]; lia).
  change 256 with (2 ^ 8). rewrite <- Z.land_ones by lia. apply Z.bits_inj'. intros i Hi. rewrite Z.lor_spec, Z.land_spec.
  destruct (Z.lt_ge_cases i 8).
  - rewrite Z.shiftl_spec_low, Z.ones_spec_low by lia. simpl. by rewrite andb_true_r.
  - rewrite Z.shiftl_spec, Z.shiftr_spec, Z.ones_spec_high by lia. rewrite andb_false_r, orb_false_r. f_equal. lia.
Qed.

Lemma crt_put_ok s l rest p v : crt s = l ++ rest -> 0 <= p < Z.of_nat (length l) ->
  crt_put p v s = Ret tt (set_crt (<[Z.to_nat p := v]> l ++ rest) s).
Proof.
  intros Hs Hp. unfold crt_put. rewrite gets_bind. rewrite Hs. rewrite arr_set_ok by (rewrite length_app; lia).
  rewrite insert_app_l by lia. done.
Qed.

Lemma glyph_white v : glyph (Z.lor (Z.land v 0xff) 0x0700) = glyph v.
Proof. unfold glyph. by rewrite Z.land_lor_distr_l, <- Z.land_assoc, Z.land_diag, Z.lor_0_r. Qed.

Lemma cells_insert l t n v : map glyph l = t ++ replicate (S n) 32 ->
  map glyph (<[length t := v]> l) = (t ++ [glyph v]) ++ replicate n 32.
Proof.
  intros H. change (map glyph) with (fmap (M := list) glyph) in *. rewrite list_fmap_insert, H. rewrite insert_app_r_alt by lia. by rewrite Nat.sub_diag, <- app_assoc.
Qed.

(** The cursor is placed behind the text [t] and its cell made blank. *)
Lemma cga_place s l rest t : crt s = l ++ rest -> length l = 1920%nat -> (length t < 1920)%nat ->
  map glyph (<[length t := 32]> l) = t ++ replicate (1920 - length t) 32 ->
  exists s', (modify (set_cursor (u8 (Z.shiftr (Z.of_nat (length t)) 8)) (u8 (Z.of_nat (length t)))) ;;
      crt_put (Z.of_nat (length t)) (Z.lor 32 0x0700)) s = Ret tt s'
    /\ shows s' t /\ s' = set_cursor (cur_hi s') (cur_lo s') (set_crt (crt s') s) /\ drop 1920 (crt s') = rest.
Proof.
  intros Hs Hl Ht Hc. rewrite modify_bind, (crt_put_ok _ l rest) by (done || lia). rewrite Nat2Z.id. eexists. split; [done|].
  split_and!; [|done|cbn [crt set_crt]; rewrite drop_app_length'; [done|by rewrite length_insert]]. constructor.
  - change (pos_of (set_crt ?l ?s)) with (pos_of s). apply pos_cursor. lia.
  - done.
  - cbn [crt set_crt]. rewrite length_app, length_insert. lia.
  - cbn [crt set_crt]. rewrite take_app_length' by (by rewrite length_insert). rewrite <- Hc.
    change (map glyph) with (fmap (M := list) glyph). by rewrite !list_fmap_insert.
Qed.

Lemma scroll_ok s l rest : crt s = l ++ rest -> length l = 1920%nat ->
  scroll 1840 s = Ret tt (set_crt ((drop 80 l ++ replicate 80 0) ++ rest) s).
Proof.
  intros Hs Hl. unfold scroll. rewrite gets_bind, Hs, length_app, Hl.
  destruct (Nat.ltb_spec (1920 + length rest) (24 * 80)); [lia|]. unfold modify. do 2 f_equal.
  change (Z.to_nat 1840) with 1840%nat. change (Z.to_nat (24 * 80 - 1840)) with 80%nat.
  assert (take 1840 (drop 80 (l ++ rest)) = drop 80 l) as ->.
  { rewrite drop_app_le by lia. apply take_app_length'. rewrite length_drop. lia. }
  rewrite take_app_length' by (rewrite length_drop; lia). rewrite drop_app_ge by (rewrite length_drop; lia).
  rewrite length_drop, Hl, drop_drop. rewrite <- app_assoc. do 2 f_equal.
  rewrite drop_app_ge by lia. by rewrite Hl.
Qed.

(** The second half of cgaputc, once the text is [t]. *)
Lemma cga_finish s l rest t : crt s = l ++ rest -> length l = 1920%nat -> (length t <= 1920)%nat ->
  map glyph (<[length t := 32]> l) = t ++ replicate (1920 - length t) 32 ->
  exists s', (let pos := Z.of_nat (length t) in
    if (pos <? 0) || (25 * 80 <? pos) then panic "pos under/overflow" else
    pos <- (if 24 <=? pos / 80 then scroll (pos - 80) ;; ret (pos - 80) else ret pos) ;;
    modify (set_cursor (u8 (Z.shiftr pos 8)) (u8 pos)) ;;
    crt_put pos (Z.lor 32 0x0700)) s = Ret tt s'
    /\ shows s' (tty_scroll t) /\ s' = set_cursor (cur_hi s') (cur_lo s') (set_crt (crt s') s) /\ drop 1920 (crt s') = rest.
Proof.
  intros Hs Hl Ht Hc. cbv zeta. destruct (Z.ltb_spec (Z.of_nat (length t)) 0); [lia|].
  destruct (Z.ltb_spec (25 * 80) (Z.of_nat (length t))); [lia|]. cbn [orb]. unfold tty_scroll.
  destruct (Nat.leb_spec 1920 (length t)) as [Hf|Hf].
  - replace (length t) with 1920%nat in * by lia. change (24 <=? Z.of_nat 1920 / 80) with true. cbn beta iota.
    rewrite (bind_Ret _ _ s 1840 (set_crt ((drop 80 l ++ replicate 80 0) ++ rest) s)).
    2:{ erewrite bind_Ret; [done|]. by apply scroll_ok. }
    rewrite list_insert_ge in Hc by lia. simpl in Hc. rewrite app_nil_r in Hc.
    assert (length (drop 80 t) = 1840%nat) as Hd by (rewrite length_drop, <- Hc, length_map; lia).
    pose proof (cga_place (set_crt ((drop 80 l ++ replicate 80 0) ++ rest) s) (drop 80 l ++ replicate 80 0) rest (drop 80 t)) as H1.
    rewrite Hd in H1. apply H1; [done|rewrite length_app, length_drop, Hl; done|lia|].
    change (map glyph) with (fmap (M := list) glyph) in *. rewrite list_fmap_insert, fmap_app, fmap_drop, Hc.
    rewrite insert_app_r_alt by lia. by rewrite Hd.
  - assert (Z.of_nat (length t) / 80 < 24) by (apply Z.div_lt_upper_bound; lia).
    destruct (Z.leb_spec 24 (Z.of_nat (length t) / 80)); [lia|]. rewrite ret_bind. by apply (cga_place s l rest).
Qed.

Lemma tty_backspace (t : list Z) : Z.of_nat (length (removelast t)) = (if 0 <? Z.of_nat (length t) then Z.of_nat (length t) - 1 else Z.of_nat (length t)).
Proof.
  destruct t as [|x t _] using rev_ind; [done|]. rewrite removelast_last, length_app. cbn [length].
  destruct (Z.ltb_spec 0 (Z.of_nat (length t + 1))); lia.
Qed.

(** A new line: to the start of the next row. *)
Lemma tty_newline n : Z.of_nat n + (80 - Z.of_nat n mod 80) = Z.of_nat (n + (80 - n mod 80)).
Proof. pose proof (Nat.mod_upper_bound n 80). rewrite Nat2Z.inj_add, Nat2Z.inj_sub, Nat2Z.inj_mod by lia. lia. Qed.

Lemma newline_room n : (n < 1920 -> n + (80 - n mod 80) <= 1920)%nat.
Proof.
  intros Hn. pose proof (Nat.div_mod n 80). pose proof (Nat.mod_upper_bound n 80). assert (n / 80 <= 23)%nat; [|lia].
  assert (n / 80 < 24)%nat; [|lia]. apply Nat.Div0.div_lt_upper_bound. lia.
Qed.

(** Writing a character changes the screen as a typewriter would. *)
Lemma cgaputc_ok s t c : shows s t ->
  exists s', cgaputc c s = Ret tt s' /\ shows s' (tty_put t c) /\ screen_only s s'.
Proof.
  intros [Hp Ht Hlen Hc]. set (l := take 1920 (crt s)) in *. set (rest := drop 1920 (crt s)).
  assert (crt s = l ++ rest) as Hs by (symmetry; apply take_drop). assert (length l = 1920%nat) as Hl by (unfold l; rewrite length_take; lia).
  unfold cgaputc. rewrite gets_bind. change (Z.lor (Z.shiftl (cur_hi s) 8) (cur_lo s)) with (pos_of s). cbv zeta. rewrite Hp.
  unfold tty_put, screen_only. destruct (Z.eqb_spec c 10) as [_|_].
  - rewrite ret_bind, tty_newline. pose proof (newline_room (length t) Ht) as Hr.
    replace (length t + (80 - length t mod 80))%nat with (length (t ++ replicate (80 - length t mod 80) 32)) in * by (by rewrite length_app, length_replicate).
    apply (cga_finish s l rest); try done. set (m := (80 - length t mod 80)%nat) in *.
    rewrite length_app, length_replicate in *. change (map glyph) with (fmap (M := list) glyph) in *. rewrite list_fmap_insert, Hc.
    rewrite insert_app_r, <- app_assoc. f_equal. rewrite <- replicate_add. replace (m + (1920 - (length t + m)))%nat with (1920 - length t)%nat by lia.
    change (glyph 32) with 32. apply insert_replicate.
  - destruct (Z.eqb_spec c BACKSPACE) as [_|_].
    + rewrite ret_bind, <- tty_backspace. apply (cga_finish s l rest); try done.
      { pose proof (tty_backspace t) as Hb. destruct (Z.ltb_spec 0 (Z.of_nat (length t))); lia. }
      change (map glyph) with (fmap (M := list) glyph) in *. rewrite list_fmap_insert, Hc. change (glyph 32) with 32.
      destruct t as [|x t _] using rev_ind; [apply insert_replicate|]. rewrite removelast_last, <- app_assoc. rewrite length_app in *. cbn [length] in *.
      rewrite insert_app_r_alt by lia. rewrite Nat.sub_diag. cbn. f_equal. replace (1920 - length t)%nat with (S (1920 - (length t + 1))) by lia. done.
    + set (s1 := set_crt (<[length t := Z.lor (Z.land c 0xff) 0x0700]> l ++ rest) s).
      rewrite (bind_Ret _ _ s (Z.of_nat (length (t ++ [glyph c]))) s1).
      2:{ erewrite bind_Ret; [|apply (crt_put_ok s l rest); [done|lia]]. rewrite Nat2Z.id, length_app. simpl. rewrite Nat2Z.inj_add. done. }
      destruct (cga_finish s1 (<[length t := Z.lor (Z.land c 0xff) 0x0700]> l) rest (t ++ [glyph c])) as (s' & Hrun & Hsh & Heq & Hr).
      * done.
      * by rewrite length_insert.
      * rewrite length_app. simpl. lia.
      * pose proof (cells_insert l t (1919 - length t) (Z.lor (Z.land c 0xff) 0x0700)) as Hi. rewrite glyph_white in Hi.
        change (map glyph) with (fmap (M := list) glyph) in *. rewrite list_fmap_insert, Hi.
        2:{ rewrite Hc. do 2 f_equal. lia. }
        rewrite insert_app_r_alt by lia. rewrite Nat.sub_diag. rewrite length_app. cbn [length]. f_equal.
        replace (1920 - (length t + 1))%nat with (1919 - length t)%nat by lia. change (glyph 32) with 32. apply insert_replicate.
      * exists s'. split_and!; done.
Qed.

(** * Characters to both *)

(** The bytes sent for a character. *)
Definition sent (c : Z) : list Z := if c =? BACKSPACE then [8; 32; 8] else [u8 c].

(** Only the screen and the serial port have changed: the port, if there is
    one, has sent [l], and the rows below the 24th are the same. *)
Record output (s s' : console) (l : list Z) : Prop := {
  ou_eq : s' = set_cursor (cur_hi s') (cur_lo s') (set_crt (crt s') (set_serial (serial s') s));
  ou_serial : serial s' = serial s ++ (if uart s =? 0 then [] else l);
  ou_below : drop 1920 (crt s') = drop 1920 (crt s)
}.

Lemma output_refl s : output s s [].
Proof. constructor; [by destruct s|by rewrite Tauto.if_same, app_nil_r|done]. Qed.

Lemma output_trans s s' s'' l l' : output s s' l -> output s' s'' l' -> output s s'' (l ++ l').
Proof.
  intros [Ha Hb Hc] [Ha' Hb' Hc']. constructor; [| |congruence].
  - rewrite Ha', Ha. done.
  - rewrite Hb', Hb, <- app_assoc. assert (uart s' = uart s) as -> by (by rewrite Ha). by destruct (uart s =? 0).
Qed.

Lemma uartputc_ok s c : uartputc c s = Ret tt (if uart s =? 0 then s else set_serial (serial s ++ [u8 c]) s).
Proof. unfold uartputc. rewrite gets_bind. by destruct (uart s =? 0). Qed.

Lemma consputc_ok s t c : shows s t -> panicked s = 0 ->
  exists s', consputc c s = Ret tt s' /\ shows s' (tty_put t c) /\ output s s' (sent c).
Proof.
  intros Ht Hp. unfold consputc. rewrite gets_bind, Hp. cbn [Z.eqb negb].
  set (s1 := set_serial (serial s ++ (if uart s =? 0 then [] else sent c)) s).
  rewrite (bind_Ret _ _ s tt s1).
  2:{ unfold s1, sent. destruct (c =? BACKSPACE).
      - unfold bind. rewrite !uartputc_ok. cbn [obind]. rewrite !uartputc_ok. cbn [obind]. rewrite uartputc_ok.
        destruct (uart s =? 0) eqn:E; [rewrite !E; rewrite app_nil_r; by destruct s|]. cbn [uart set_serial serial]. rewrite !E. cbn [uart set_serial serial]. rewrite E.
        by rewrite <- !app_assoc.
      - rewrite uartputc_ok. destruct (uart s =? 0); [rewrite app_nil_r; by destruct s|done]. }
  destruct (cgaputc_ok s1 t c) as (s' & Hrun & Hsh & Heq & Hd); [by destruct Ht|]. exists s'. split_and!; [done|done|].
  constructor; [|by rewrite Heq|done]. rewrite Heq. done.
Qed.

Lemma puts_ok l : forall s t, shows s t -> panicked s = 0 ->
  exists s', puts l s = Ret tt s' /\ shows s' (fold_left tty_put l t) /\ output s s' (concat (map sent l)).
Proof.
  induction l as [|c l IH]; intros s t Ht Hp.
  - exists s. split_and!; [done|done|apply output_refl].
  - destruct (consputc_ok s t c Ht Hp) as (s1 & Hrun & Ht1 & Ho1).
    destruct (IH s1 (tty_put t c) Ht1) as (s2 & Hrun2 & Ht2 & Ho2); [by rewrite (ou_eq _ _ _ Ho1)|].
    exists s2. split_and!; [|done|by eapply output_trans]. cbn [puts]. by rewrite (bind_Ret _ _ _ _ _ Hrun).
Qed.

(** C26: characters written to the console appear on the screen as on a
    typewriter with 24 rows of 80: each where the cursor is, a new line at the
    start of the next row, a backspace over the last, and the oldest row
    leaves when the rows are used up; the cursor never leaves the rows, the
    memory below them is untouched, and the serial port has sent the same
    characters. *)
Theorem puts_types_text l s t : shows s t -> panicked s = 0 ->
  exists s', puts l s = Ret tt s' /\ shows s' (fold_left tty_put l t) /\ output s s' (concat (map sent l)).
Proof. apply puts_ok. Qed.

(** A blank screen of 25 rows and a serial port. *)
Definition blank : console := Console 0 1 1 [] (replicate 2000 0) 0 0 (replicate 128 0) 0 0 0.

Lemma shows_blank : shows blank [].
Proof. constructor; [done|simpl; lia|cbn [crt blank]; rewrite length_replicate; lia|by vm_compute]. Qed.

Lemma puts_types_text_witness :
  exists s', puts [104; 105; BACKSPACE; 10; 33] blank = Ret tt s' /\ shows s' (104 :: replicate 79 32 ++ [33])
    /\ output blank s' [104; 105; 8; 32; 8; 10; 33].
Proof. apply (puts_types_text [104; 105; BACKSPACE; 10; 33] blank []); [exact shows_blank|reflexivity]. Defined.
