(* ===== verification/Console.v ===== *)
(** The console (src/xv6-public/console.c): kernel printing, the line editor
    behind the keyboard and the serial port, and the console's read and write.

    The device's state is [console] of Cga.v, found in the state of the other
    components through [ConsHeap].  The characters an interrupt handler gets
    from the device are a list. *)
From S2P Require Import Prelude Spinlock ProcState Queue CString Proc ProcLemmas Sched Switching Ulib Kbd Cga.

(** Where the console is in the state of the other components. *)
Class ConsHeap (E : Type) := {
  cons_ : E -> console;
  set_cons : console -> E -> E;
  cons_set s e : cons_ (set_cons s e) = s;
  set_cons_set s s' e : set_cons s (set_cons s' e) = set_cons s e;
  set_cons_id e : set_cons (cons_ e) e = e
}.

(** The lock of an inode (fs.c). *)
Class InodeLock (E : Type) := {
  iunlock : nat -> M (kst E) unit;
  ilock : nat -> M (kst E) unit
}.

Definition cons_lock : Z := 0x8010a520.
Definition input_r : Z := 0x8010ffc0.
Definition INPUT_BUF : Z := 128.

(** * Formatting *)

Definition digits : list Z := [48; 49; 50; 51; 52; 53; 54; 55; 56; 57; 97; 98; 99; 100; 101; 102].

(** The loop of printint into its buffer of 16 characters. *)
Fixpoint digits_loop (fuel : nat) (x base : Z) (buf : list Z) : option (list Z) :=
  match fuel with
  | O => None
  | S f =>
      if (16 <=? length buf)%nat then None else
      d ← arr_get digits (x mod base);
      let buf := buf ++ [d] in
      let x := x / base in
      if negb (x =? 0) then digits_loop f x base buf else Some buf
  end.

(** The characters printint puts on the console. *)
Definition printint (xx base : Z) (sign : bool) : option (list Z) :=
  let neg := sign && (xx <? 0) in
  let x := if neg then u32 (- xx) else u32 xx in
  buf ← digits_loop 16 x base [];
  buf ← (if neg then if (16 <=? length buf)%nat then None else Some (buf ++ [45]) else Some buf);
  Some (reverse buf).

(** What a sequence % [c] prints, and the argument words used; [m] is the
    memory the string pointers point into, [ap] the arguments. *)
Definition cprintf_conv (fuel : nat) (m : Z -> Z) (ap : nat -> Z) (i : nat) (c : Z) : option (list Z * nat) :=
  if c =? 100 then o ← printint (s32 (ap i)) 10 true; Some (o, S i)
  else if (c =? 120) || (c =? 112) then o ← printint (s32 (ap i)) 16 false; Some (o, S i)
  else if c =? 115 then
    o ← (if ap i =? 0 then Some null_string else put_string fuel m (ap i)); Some (o, S i)
  else if c =? 37 then Some ([37], i)
  else Some ([37; c], i).

Fixpoint cprintf_loop (fuel : nat) (m : Z -> Z) (fmt : list Z) (ap : nat -> Z) (i : nat) : option (list Z) :=
  match fmt with
  | [] => Some []
  | c :: fmt =>
      if negb (c =? 37) then cons c <$> cprintf_loop fuel m fmt ap i else
      match fmt with
      | [] => Some []
      | c :: fmt => '(o, i) ← cprintf_conv fuel m ap i c; app o <$> cprintf_loop fuel m fmt ap i
      end
  end.

(** * The line editor *)

Definition CTRL_D : Z := 4.
Definition CTRL_H : Z := 8.
Definition CTRL_P : Z := 16.
Definition CTRL_U : Z := 21.

(** The loop of Control-U. *)
Fixpoint kill_line (fuel : nat) : D unit :=
  match fuel with
  | O => fun s => OutOfFuel s
  | S f =>
      s <- gets (fun s => s) ;;
      if ie s =? iw s then ret tt else
      b <- get_opt "buf" (arr_get (ibuf s) (u32 (ie s - 1) mod INPUT_BUF)) ;;
      if b =? 10 then ret tt else
      modify (set_ie (u32 (ie s - 1))) ;;
      consputc BACKSPACE ;;
      kill_line f
  end.

(** One character of the while loop of consoleintr, but for Control-P; is
    there something to read now?  The loop of Control-U makes [e] smaller
    until it is [w]. *)
Definition intr_char (c : Z) : D bool :=
  s <- gets (fun s => s) ;;
  if c =? CTRL_U then kill_line (S (Z.to_nat (u32 (ie s - iw s)))) ;; ret false
  else if (c =? CTRL_H) || (c =? 0x7f) then
    if negb (ie s =? iw s) then modify (set_ie (u32 (ie s - 1))) ;; consputc BACKSPACE ;; ret false
    else ret false
  else if negb (c =? 0) && (u32 (ie s - ir s) <? INPUT_BUF) then
    let c := if c =? 13 then 10 else c in
    l <- get_opt "buf" (arr_set (ibuf s) (ie s mod INPUT_BUF) (u8 c)) ;;
    modify (fun s => set_ie (u32 (ie s + 1)) (set_ibuf l s)) ;;
    consputc c ;;
    s <- gets (fun s => s) ;;
    if (c =? 10) || (c =? CTRL_D) || (ie s =? u32 (ir s + INPUT_BUF)) then
      modify (set_iw (ie s)) ;; ret true
    else ret false
  else ret false.

Section Ops.
Context {E : Type} `{!ConsHeap E, !InodeLock E}.
Variable custom : bool.
Notation K := (M (kst E)).

Definition consM {A} (c : D A) : K A :=
  zoom (fun k => cons_ (ext k)) (fun s k => set_ext (set_cons s (ext k)) k) c.

(** Without a format, panic; [fuel] bounds the length of the strings. *)
Definition cprintf (fuel : nat) (m : Z -> Z) (fmt : option (list Z)) (ap : nat -> Z) : K unit :=
  s <- consM (gets (fun s => s)) ;;
  let locking := locking s in
  (if negb (locking =? 0) then machM (acquire cons_lock) else ret tt) ;;
  match fmt with
  | None => panic "null fmt"
  | Some fmt =>
      o <- get_opt "cprintf" (cprintf_loop fuel m fmt ap 0) ;;
      consM (puts o) ;;
      if negb (locking =? 0) then machM (release cons_lock) else ret tt
  end.

Fixpoint panic_pcs (fuel : nat) (m : Z -> Z) (pcs : list Z) : K unit :=
  match pcs with
  | [] => ret tt
  | pc :: pcs => cprintf fuel m (Some (bytes " %p")) (fun _ => pc) ;; panic_pcs fuel m pcs
  end.

(** The function panic; [apic] is cpu->apicid and [pcs] what getcallerpcs
    stores.  It ends in an infinite loop. *)
Definition panic_ (fuel : nat) (m : Z -> Z) (apic : Z) (s : list Z) (pcs : list Z) : K unit :=
  machM cli ;;
  consM (modify (set_locking 0)) ;;
  cprintf fuel m (Some (bytes "cpu with apicid %d: panic: ")) (fun _ => apic) ;;
  cprintf fuel m (Some s) (fun _ => 0) ;;
  cprintf fuel m (Some [10]) (fun _ => 0) ;;
  panic_pcs fuel m pcs ;;
  consM (modify (set_panicked 1)) ;;
  fun k => Spin k.

(** [cs] is what getc returns, up to the first negative value; the result is
    [doprocdump]. *)
Fixpoint intr_loop (cs : list Z) (doprocdump : bool) : K bool :=
  match cs with
  | [] => ret doprocdump
  | c :: cs =>
      if c <? 0 then ret doprocdump else
      if c =? CTRL_P then intr_loop cs true else
      w <- consM (intr_char c) ;;
      (if w : bool then wakeup custom input_r else ret tt) ;;
      intr_loop cs doprocdump
  end.

Definition consoleintr (cs : list Z) : K unit :=
  machM (acquire cons_lock) ;;
  dump <- intr_loop cs false ;;
  machM (release cons_lock) ;;
  if dump : bool then procdump else ret tt.

(** Wait for a line; [false] when the reader has been killed. *)
Fixpoint cons_wait (fuel : nat) : K bool :=
  match fuel with
  | O => fun k => OutOfFuel k
  | S f =>
      s <- consM (gets (fun s => s)) ;;
      if ir s =? iw s then
        me <- proc_ ;; x <- proc_at me ;;
        if negb (p_killed x =? 0) then ret false else
        sleep input_r cons_lock ;;
        cons_wait f
      else ret true
  end.

(** The while loop of consoleread, [n] times at most: the bytes stored and the
    value of [n] at its end, or none for a killed reader. *)
Fixpoint read_loop (fuel n : nat) (target : Z) (acc : list Z) : K (list Z * option Z) :=
  match n with
  | O => ret (acc, Some 0)
  | S n' =>
      ok <- cons_wait fuel ;;
      if negb ok then ret (acc, None) else
      s <- consM (gets (fun s => s)) ;;
      c <- get_opt "buf" (arr_get (ibuf s) (ir s mod INPUT_BUF)) ;;
      consM (modify (set_ir (u32 (ir s + 1)))) ;;
      if c =? CTRL_D then
        (if Z.of_nat n <? target then consM (modify (fun s => set_ir (u32 (ir s - 1)) s)) else ret tt) ;;
        ret (acc, Some (Z.of_nat n))
      else if c =? 10 then ret (acc ++ [c], Some (Z.of_nat n'))
      else read_loop fuel n' target (acc ++ [c])
  end.

(** The value returned and the bytes stored at dst; a [n] below 1 stays as it
    is. *)
Definition consoleread (fuel : nat) (ip : nat) (n : Z) : K (Z * list Z) :=
  iunlock ip ;;
  machM (acquire cons_lock) ;;
  r <- read_loop fuel (Z.to_nat n) (u32 n) [] ;;
  machM (release cons_lock) ;;
  ilock ip ;;
  match r with
  | (l, None) => ret (-1, l)
  | (l, Some n') => ret (s32 (u32 n - (if 0 <? n then n' else n)), l)
  end.

Definition consolewrite (ip : nat) (buf : list Z) : K Z :=
  iunlock ip ;;
  machM (acquire cons_lock) ;;
  consM (puts (map (fun b => Z.land b 0xff) buf)) ;;
  machM (release cons_lock) ;;
  ilock ip ;;
  ret (Z.of_nat (length buf)).

Definition kbdintr (ports : list (Z * Z)) (shift : Z) : K Z :=
  r <- get_opt "kbdgetc" (kbd_chars ports shift) ;;
  consoleintr r.1 ;;
  ret r.2.

Definition uartgetc (uart : Z) (port : Z * Z) : Z :=
  if uart =? 0 then -1 else
  if Z.land port.1 0x01 =? 0 then -1 else port.2.

Definition uartintr (ports : list (Z * Z)) : K unit :=
  s <- consM (gets (fun s => s)) ;;
  consoleintr (map (uartgetc (uart s)) ports).
End Ops.
