(* ===== verification/ConsoleSpec.v ===== *)
(** The console's line editor and its reader (src/xv6-public/console.c): a
    line is edited until it is complete, complete lines are read in order. *)
From S2P Require Import Prelude Spinlock ProcState Queue CString Proc ProcLemmas Sched Switching Ulib Kbd Cga Console.

(** * The ring buffer *)

Definition ring (l : list Z) (a : Z) (n : nat) : list Z :=
  map (fun i => default 0 (l !! Z.to_nat ((a + i) mod INPUT_BUF))) (seqZ 0 (Z.of_nat n)).

Lemma length_ring l a n : length (ring l a n) = n.
Proof. unfold ring. rewrite length_map, length_seqZ. lia. Qed.

Lemma ring_app l a n m : ring l a (n + m) = ring l a n ++ ring l (a + Z.of_nat n) m.
Proof.
  unfold ring. rewrite Nat2Z.inj_add, seqZ_app, map_app by lia. f_equal.
  replace (seqZ (0 + Z.of_nat n) (Z.of_nat m)) with (Z.add (Z.of_nat n) <$> seqZ 0 (Z.of_nat m)) by (rewrite fmap_add_seqZ; f_equal; lia).
  change (?f <$> ?l) with (map f l). rewrite map_map. apply map_ext. intros i. by rewrite Z.add_assoc.
Qed.

Lemma u32_mod128 a b : (u32 a + b) mod INPUT_BUF = (a + b) mod INPUT_BUF.
Proof.
  unfold u32, INPUT_BUF. rewrite <- (Zplus_mod_idemp_l (a mod 4294967296)), <- (Zplus_mod_idemp_l a).
  rewrite Z.mod_mod_divide; [done|]. by exists 33554432.
Qed.

Lemma ring_u32 l a n : ring l (u32 a) n = ring l a n.
Proof. unfold ring. apply map_ext. intros i. by rewrite u32_mod128. Qed.

Lemma arr_get_ring l a : length l = 128%nat ->
  arr_get l (u32 a mod INPUT_BUF) = Some (default 0 (l !! Z.to_nat (a mod INPUT_BUF))).
Proof.
  intros Hl. rewrite <- (Z.add_0_r (u32 a)), u32_mod128, Z.add_0_r. unfold INPUT_BUF. pose proof (Z.mod_pos_bound a 128 ltac:(lia)).
  destruct (arr_get_Some l (a mod 128)) as [x Hx]; [lia|]. rewrite Hx. unfold arr_get in Hx. case_match; [|done]. by rewrite Hx.
Qed.

(** The place behind the last of at most 127 characters is not one of theirs. *)
Lemma ring_insert l a n b : (n < 128)%nat ->
  ring (<[Z.to_nat ((a + Z.of_nat n) mod INPUT_BUF) := b]> l) a n = ring l a n.
Proof.
  intros Hn. unfold ring. apply map_ext_in. intros i Hi%list_elem_of_In%elem_of_seqZ. f_equal. apply list_lookup_insert_ne.
  unfold INPUT_BUF. pose proof (Z.mod_pos_bound (a + Z.of_nat n) 128 ltac:(lia)). pose proof (Z.mod_pos_bound (a + i) 128 ltac:(lia)).
  intros Heq. apply Z2Nat.inj in Heq; [|lia|lia]. assert ((Z.of_nat n - i) mod 128 = 0) as Hz.
  { replace (Z.of_nat n - i) with ((a + Z.of_nat n) - (a + i)) by lia. by rewrite Zminus_mod, Heq, Z.sub_diag. }
  rewrite Z.mod_small in Hz; lia.
Qed.

Lemma ring_snoc l a n b : length l = 128%nat -> (n < 128)%nat ->
  ring (<[Z.to_nat ((a + Z.of_nat n) mod INPUT_BUF) := b]> l) a (S n) = ring l a n ++ [b].
Proof.
  intros Hl Hn. replace (S n) with (n + 1)%nat by lia. rewrite ring_app, ring_insert by done. f_equal. unfold ring. simpl. rewrite Z.add_0_r.
  rewrite list_lookup_insert_eq; [done|]. unfold INPUT_BUF. pose proof (Z.mod_pos_bound (a + Z.of_nat n) 128 ltac:(lia)). lia.
Qed.

(** * The line editor *)

(** The complete lines not yet read and the line being edited; what the editor
    has put on the screen, whether a line has become complete, and whether the
    process listing has been asked for. *)
Record ed := Ed { unread : list Z; line : list Z; echoed : list Z; ready : bool; dump : bool }.

Definition ed_key (d : ed) (c : Z) : ed :=
  if c =? CTRL_P then Ed (unread d) (line d) (echoed d) (ready d) true
  else if c =? CTRL_U then Ed (unread d) [] (echoed d ++ replicate (length (line d)) BACKSPACE) (ready d) (dump d)
  else if (c =? CTRL_H) || (c =? 0x7f) then
    if (length (line d) =? 0)%nat then d
    else Ed (unread d) (removelast (line d)) (echoed d ++ [BACKSPACE]) (ready d) (dump d)
  else if (c =? 0) || (128 <=? length (unread d) + length (line d))%nat then d
  else
    let b := if c =? 13 then 10 else c in
    let line' := line d ++ [b] in
    if (b =? 10) || (b =? CTRL_D) || (length (unread d) + length line' =? 128)%nat
    then Ed (unread d ++ line') [] (echoed d ++ [b]) true (dump d)
    else Ed (unread d) line' (echoed d ++ [b]) (ready d) (dump d).

(** The input buffer holds the unread lines and the line being edited. *)
Record holds (s : console) (u e : list Z) : Prop := {
  ho_len : length (ibuf s) = 128%nat;
  ho_r : 0 <= ir s < 4294967296;
  ho_w : iw s = u32 (ir s + Z.of_nat (length u));
  ho_e : ie s = u32 (ir s + Z.of_nat (length u + length e));
  ho_room : (length u + length e <= 128)%nat;
  ho_buf : ring (ibuf s) (ir s) (length u + length e) = u ++ e;
  ho_line : 10 ∉ e
}.

Lemma u32_inj a x y : 0 <= x <= 128 -> 0 <= y <= 128 -> u32 (a + x) = u32 (a + y) -> x = y.
Proof.
  intros Hx Hy H. unfold u32 in H. assert ((x - y) mod 4294967296 = 0) as H0.
  { replace (x - y) with ((a + x) - (a + y)) by lia. by rewrite Zminus_mod, H, Z.sub_diag. }
  apply Z.mod_divide in H0 as [q Hq]; lia.
Qed.

Lemma u32_minus1 a : u32 (u32 a - 1) = u32 (a - 1).
Proof. unfold u32. apply Zminus_mod_idemp_l. Qed.

Lemma u32_dist a n : 0 <= n < 4294967296 -> u32 (u32 (a + n) - a) = n.
Proof. intros Hn. unfold u32. rewrite Zminus_mod_idemp_l. replace (a + n - a) with n by lia. by apply Z.mod_small. Qed.

Lemma u32_plus a b : u32 (u32 a + b) = u32 (a + b).
Proof. unfold u32. apply Zplus_mod_idemp_l. Qed.

(** Is a line being edited? *)
Lemma holds_editing s u e : holds s u e -> (ie s =? iw s) = (length e =? 0)%nat.
Proof.
  intros H. pose proof (ho_room _ _ _ H). rewrite (ho_w _ _ _ H), (ho_e _ _ _ H). apply eq_true_iff_eq. rewrite Z.eqb_eq, Nat.eqb_eq. split.
  - intros Heq%u32_inj; lia.
  - intros ->. by rewrite Nat.add_0_r.
Qed.

(** The last character of the line leaves. *)
Lemma holds_back s u e : holds s u e -> e <> [] ->
  holds (set_ie (u32 (ie s - 1)) s) u (removelast e) /\ arr_get (ibuf s) (u32 (ie s - 1) mod INPUT_BUF) = last e.
Proof.
  intros [Hl Hr Hw He Hm Hb Hn] Hne. destruct e as [|b e _] using rev_ind; [done|]. rewrite removelast_last, last_snoc.
  rewrite length_app in *. cbn [length] in *.
  assert (u32 (ie s - 1) = u32 (ir s + Z.of_nat (length u + length e))) as Hie.
  { rewrite He, u32_minus1. f_equal. lia. }
  replace (length u + (length e + 1))%nat with (length u + length e + 1)%nat in Hb by lia. rewrite ring_app, app_assoc in Hb.
  apply app_inj_2 in Hb as [Hb Hb']; [|by rewrite length_ring]. split.
  - constructor; cbn; try done; [lia|]. intros Hin. apply Hn. rewrite elem_of_app. by left.
  - rewrite Hie. unfold ring in Hb'. simpl in Hb'. injection Hb' as Hb'.
    rewrite arr_get_ring by done. rewrite Z.add_0_r in Hb'. by rewrite Hb'.
Qed.

(** A character goes to the end of the line. *)
Lemma holds_put s u e b : holds s u e -> (length u + length e < 128)%nat ->
  exists l, arr_set (ibuf s) (ie s mod INPUT_BUF) b = Some l /\
    let s' := set_ie (u32 (ie s + 1)) (set_ibuf l s) in
    (b <> 10 -> holds s' u (e ++ [b])) /\ holds (set_iw (ie s') s') (u ++ e ++ [b]) [].
Proof.
  intros [Hl Hr Hw He Hm Hb Hn] Hlt. set (n := (length u + length e)%nat) in *.
  assert (ie s mod INPUT_BUF = (ir s + Z.of_nat n) mod INPUT_BUF) as Hi.
  { rewrite He. rewrite <- (Z.add_0_r (u32 _)), u32_mod128. f_equal. lia. }
  pose proof (Z.mod_pos_bound (ir s + Z.of_nat n) INPUT_BUF ltac:(done)) as Hp. unfold INPUT_BUF in Hp.
  rewrite Hi, arr_set_ok by (rewrite Hl; unfold INPUT_BUF; lia). eexists. split; [done|]. intros s'.
  assert (ie s' = u32 (ir s + Z.of_nat (S n))) as Hie by (unfold s'; cbn; rewrite He, u32_plus; f_equal; lia).
  assert (ring (ibuf s') (ir s') (S n) = u ++ e ++ [b]) as Hb' .
  { unfold s'. cbn [ibuf ir set_ie set_ibuf]. rewrite ring_snoc by done. by rewrite Hb, <- app_assoc. }
  assert (length (e ++ [b]) = S (length e)) as Hle by (rewrite length_app; simpl; lia).
  split.
  - intros Hb10. constructor; rewrite ?Hle; try done.
    + unfold s'. cbn. by rewrite length_insert.
    + rewrite Hie. unfold n. do 2 f_equal. lia.
    + unfold n in Hlt. lia.
    + rewrite <- Hb'. f_equal. unfold n. lia.
    + intros [?|?%list_elem_of_singleton]%elem_of_app; congruence.
  - assert (length (u ++ e ++ [b]) = S n) as Hlu by (rewrite length_app, Hle; unfold n; lia).
    constructor; rewrite ?Hlu, ?Nat.add_0_r; cbn [iw set_iw ie ibuf ir length]; rewrite ?Nat.add_0_r, ?app_nil_r; try done.
    + unfold s'. cbn. by rewrite length_insert.
    + apply not_elem_of_nil.
Qed.

(** The state of the console between two characters. *)
Record editor (s : console) (u e t : list Z) : Prop := {
  eo_buf : holds s u e;
  eo_screen : shows s t;
  eo_live : panicked s = 0
}.

Lemma editor_put s u e t c : editor s u e t ->
  exists s', consputc c s = Ret tt s' /\ editor s' u e (tty_put t c) /\ ie s' = ie s /\ ir s' = ir s.
Proof.
  intros [Hb Ht Hp]. destruct (consputc_ok s t c Ht Hp) as (s' & Hrun & Ht' & Ho). exists s'. rewrite (ou_eq _ _ _ Ho). rewrite <- (ou_eq _ _ _ Ho) at 1.
  split_and!; [done| |done|done]. constructor; [by destruct Hb|by rewrite <- (ou_eq _ _ _ Ho)|done].
Qed.

(** A backspace in a line. *)
Lemma editor_back s u e t : editor s u e t -> e <> [] ->
  exists s', (modify (set_ie (u32 (ie s - 1))) ;; consputc BACKSPACE) s = Ret tt s' /\ editor s' u (removelast e) (tty_put t BACKSPACE).
Proof.
  intros [Hb Ht Hp] He. destruct (holds_back s u e Hb He) as [Hb' _]. rewrite modify_bind.
  destruct (editor_put (set_ie (u32 (ie s - 1)) s) u (removelast e) t BACKSPACE) as (s' & Hrun & Hs' & _); [|by exists s'].
  constructor; [done|by destruct Ht|done].
Qed.

Lemma kill_line_ok u : forall fuel s e t, (length e < fuel)%nat -> editor s u e t ->
  exists s', kill_line fuel s = Ret tt s' /\ editor s' u [] (fold_left tty_put (replicate (length e) BACKSPACE) t).
Proof.
  induction fuel as [|fuel IH]; intros s e t Hf Hs; [lia|]. cbn [kill_line]. rewrite gets_bind, (holds_editing s u e) by apply Hs.
  destruct (Nat.eqb_spec (length e) 0) as [H0|H0].
  - rewrite H0. apply nil_length_inv in H0 as ->. by exists s.
  - assert (e <> []) as He by (by intros ->). destruct (holds_back s u e (eo_buf _ _ _ _ Hs) He) as [_ Hlast].
    destruct (last e) as [b|] eqn:Hb; [|by apply last_None in Hb]. rewrite Hlast. cbn [get_opt]. rewrite ret_bind.
    destruct (Z.eqb_spec b 10) as [->|_]; [destruct (ho_line s u e (eo_buf _ _ _ _ Hs)); apply last_Some_elem_of in Hb; done|].
    destruct (editor_back s u e t Hs He) as (s1 & Hrun & Hs1).
    assert (length e = S (length (removelast e))) as Hl by (rewrite removelast_firstn_len, length_take; lia).
    destruct (IH s1 (removelast e) (tty_put t BACKSPACE)) as (s2 & Hrun2 & Hs2); [lia|done|].
    exists s2. rewrite Hl. split; [|done]. erewrite bind_seq; [exact Hrun2|exact Hrun].
Qed.

(** A character that fits is stored and shown, and ends the line if it is its
    last. *)
Definition ends_line (u e : list Z) (b : Z) : bool :=
  (b =? 10) || (b =? CTRL_D) || (length u + length (e ++ [b]) =? 128)%nat.

Lemma store_ok s u e t b : editor s u e t -> 0 <= b < 256 -> (length u + length e < 128)%nat ->
  exists s', (l <- get_opt "buf" (arr_set (ibuf s) (ie s mod INPUT_BUF) (u8 b)) ;;
    modify (fun s => set_ie (u32 (ie s + 1)) (set_ibuf l s)) ;;
    consputc b ;;
    s <- gets (fun s => s) ;;
    if (b =? 10) || (b =? CTRL_D) || (ie s =? u32 (ir s + INPUT_BUF)) then modify (set_iw (ie s)) ;; ret true
    else ret false) s = Ret (ends_line u e b) s'
    /\ (if ends_line u e b then editor s' (u ++ e ++ [b]) [] (tty_put t b) else editor s' u (e ++ [b]) (tty_put t b)).
Proof.
  intros [Hb Ht Hp] Hr Hlt. destruct (holds_put s u e b Hb Hlt) as (l & Hl & Hline & Hend).
  unfold u8. rewrite (Z.mod_small b 256) by lia. rewrite Hl. cbn [get_opt]. rewrite ret_bind, modify_bind.
  set (s1 := set_ie (u32 (ie s + 1)) (set_ibuf l s)) in *.
  destruct (consputc_ok s1 t b) as (s2 & Hrun & Ht2 & Ho); [by destruct Ht|done|]. rewrite (bind_Ret _ _ _ _ _ Hrun), gets_bind.
  assert (ie s2 = ie s1 /\ ir s2 = ir s1 /\ ibuf s2 = ibuf s1 /\ iw s2 = iw s1 /\ panicked s2 = panicked s1) as (Hie & Hir & Hbuf & Hiw & Hpa)
    by (by rewrite (ou_eq _ _ _ Ho)).
  assert ((ie s2 =? u32 (ir s2 + INPUT_BUF)) = (length u + length (e ++ [b]) =? 128)%nat) as Hfull.
  { rewrite Hie, Hir. unfold s1. cbn [ie ir set_ie set_ibuf]. rewrite (ho_e _ _ _ Hb), u32_plus, length_app. cbn [length].
    apply eq_true_iff_eq. rewrite Z.eqb_eq, Nat.eqb_eq. unfold INPUT_BUF. rewrite <- Z.add_assoc. split.
    - intros H%u32_inj; lia.
    - intros H. do 2 f_equal. lia. }
  rewrite Hfull. fold (ends_line u e b). unfold ends_line at 3. destruct (ends_line u e b) eqn:Ee.
  - eexists. split; [done|]. fold (ends_line u e b). rewrite Ee. constructor; [|by destruct Ht2|cbn; by rewrite Hpa]. rewrite Hie.
    destruct Hend. constructor; cbn in *; congruence.
  - eexists. split; [done|]. fold (ends_line u e b). rewrite Ee. constructor; [|done|by rewrite Hpa]. unfold ends_line in Ee.
    destruct (Z.eqb_spec b 10) as [|Hb10]; [done|]. destruct (Hline Hb10). constructor; cbn in *; congruence.
Qed.

(** One character does to the console what it does to the editor. *)
Lemma intr_char_ok s u e t c : editor s u e t -> 0 <= c < 256 -> c <> CTRL_P ->
  let d := ed_key (Ed u e [] false false) c in
  exists s', intr_char c s = Ret (ready d) s' /\ editor s' (unread d) (line d) (fold_left tty_put (echoed d) t).
Proof.
  intros Hs Hc Hnp. cbv zeta. unfold intr_char, ed_key. cbn [unread line echoed ready dump]. rewrite gets_bind.
  pose proof (eo_buf _ _ _ _ Hs) as Hb. pose proof (ho_room _ _ _ Hb) as Hroom.
  destruct (Z.eqb_spec c CTRL_P) as [|_]; [done|]. destruct (Z.eqb_spec c CTRL_U) as [_|_].
  - destruct (kill_line_ok u (S (Z.to_nat (u32 (ie s - iw s)))) s e t) as (s' & Hrun & Hs'); [|done|].
    + rewrite (ho_e _ _ _ Hb), (ho_w _ _ _ Hb). unfold u32. rewrite <- Zminus_mod. rewrite Z.mod_small; lia.
    + exists s'. by rewrite (bind_Ret _ _ _ _ _ Hrun).
  - destruct ((c =? CTRL_H) || (c =? 127)).
    + rewrite (holds_editing s u e Hb). destruct (Nat.eqb_spec (length e) 0) as [H0|H0]; [by exists s|]. cbn [negb].
      destruct (editor_back s u e t Hs) as (s' & Hrun & Hs'); [by intros ->|]. exists s'. split; [|done]. by erewrite bind_seq.
    + rewrite (ho_e _ _ _ Hb), u32_dist by lia. unfold INPUT_BUF at 1.
      destruct (Z.eqb_spec c 0) as [_|Hc0]; [by exists s|]. cbn [negb andb orb].
      destruct (Nat.leb_spec 128 (length u + length e)) as [Hf|Hf].
      * destruct (Z.ltb_spec (Z.of_nat (length u + length e)) 128); [lia|]. by exists s.
      * destruct (Z.ltb_spec (Z.of_nat (length u + length e)) 128); [|lia]. set (b := if c =? 13 then 10 else c).
        destruct (store_ok s u e t b) as (s' & Hrun & Hs'); [done|unfold b; case_match; lia|done|]. rewrite <- (ho_e _ _ _ Hb).
        fold (ends_line u e b). exists s'. rewrite Hrun. by destruct (ends_line u e b).
Qed.

Lemma ed_key_frame u e o r p c :
  let d := ed_key (Ed u e [] false false) c in
  ed_key (Ed u e o r p) c = Ed (unread d) (line d) (o ++ echoed d) (r || ready d) (p || dump d).
Proof.
  cbv zeta. unfold ed_key. cbn [unread line echoed ready dump].
  repeat case_match; cbn [unread line echoed ready dump app]; by rewrite ?app_nil_r, ?orb_false_r, ?orb_true_r.
Qed.

Lemma woken_idem chan (l : list proc) : map (woken chan) (map (woken chan) l) = map (woken chan) l.
Proof.
  rewrite map_map. apply map_ext. intros p. unfold woken. destruct (bool_decide (p_state p = SLEEPING) && (p_chan p =? chan)) eqn:Hb; [done|by rewrite Hb].
Qed.

Lemma prios_woken chan (l : list proc) : Forall (fun p => p_state p = SLEEPING -> 1 <= p_priority p <= 5) l ->
  Forall (fun p => p_state p = SLEEPING -> 1 <= p_priority p <= 5) (map (woken chan) l).
Proof.
  rewrite !Forall_forall. intros H p (q & -> & Hq)%list_elem_of_fmap. unfold woken. case_match; [done|]. by apply H.
Qed.

(** * Reading *)

(** What a read of at most [n] bytes gives of the unread characters, and what
    it leaves: up to the end of a line; Control-D ends the input, and stays
    for the next read unless this one got nothing.  None if it has to wait. *)
Fixpoint read_line (first : bool) (n : nat) (u : list Z) : option (list Z * list Z) :=
  match n, u with
  | O, _ => Some ([], u)
  | S _, [] => None
  | S n, c :: u' =>
      if c =? CTRL_D then Some ([], if first then u' else u)
      else if c =? 10 then Some ([c], u')
      else '(l, r) ← read_line false n u'; Some (c :: l, r)
  end.

Lemma holds_unread s u e : holds s u e -> (ir s =? iw s) = (length u =? 0)%nat.
Proof.
  intros H. pose proof (ho_room _ _ _ H). rewrite (ho_w _ _ _ H). apply eq_true_iff_eq. rewrite Z.eqb_eq, Nat.eqb_eq.
  rewrite <- (u32_small (ir s)) at 1 by apply H. rewrite <- (Z.add_0_r (ir s)) at 1. split.
  - intros Heq%u32_inj; lia.
  - by intros ->.
Qed.

(** The oldest character leaves. *)
Lemma holds_take s b u e : holds s (b :: u) e ->
  arr_get (ibuf s) (ir s mod INPUT_BUF) = Some b /\ holds (set_ir (u32 (ir s + 1)) s) u e.
Proof.
  intros [Hl Hr Hw He Hm Hb Hn]. cbn [length plus] in *. rewrite (ring_app _ _ 1 (length u + length e)) in Hb.
  unfold ring at 1 in Hb. simpl in Hb. injection Hb as Hb Hb'. split.
  - rewrite <- (u32_small (ir s)) by done. rewrite arr_get_ring by done. by rewrite <- Hb, Z.add_0_r.
  - constructor; cbn [ir set_ir ibuf iw ie]; try done; try lia.
    + apply u32_range.
    + rewrite u32_plus, Hw. f_equal. lia.
    + rewrite u32_plus, He. f_equal. lia.
    + by rewrite ring_u32.
Qed.

Lemma u32_back a : 0 <= a < 4294967296 -> u32 (u32 (a + 1) - 1) = a.
Proof. intros Ha. rewrite u32_minus1. replace (a + 1 - 1) with a by lia. by apply u32_small. Qed.

Section Calls.
Context {E : Type} `{!ConsHeap E, !InodeLock E}.
Variable custom : bool.

Lemma consM_Ret {A} (c : D A) (k : kst E) a s : c (cons_ (ext k)) = Ret a s ->
  consM c k = Ret a (set_ext (set_cons s (ext k)) k).
Proof. intros H. unfold consM, zoom. by rewrite H. Qed.

(** The executing CPU holds no lock, ptable.lock and cons.lock are free, and
    the console is [s]. *)
Record cons_ready (k : kst E) (c : cpu) (lp l : spinlock) (s : console) : Prop := {
  cr_lock : idle_at cons_lock (mach k) c l;
  cr_ptable : idle_lock (mach k) c lp;
  cr_ncli : ncli c = 0;
  cr_q : exists Q, qinv k Q;
  cr_prio : Forall (fun p => p_state p = SLEEPING -> 1 <= p_priority p <= 5) (ptable k);
  cr_cons : cons_ (ext k) = s
}.

Context (k : kst E) (c : cpu) (lp l : spinlock).

(** The state [x] with cons.lock taken, the console [s], and the readers woken
    up if [w]. *)
Record in_cons (s : console) (w : bool) (x : kst E) : Prop := {
  ic_mach : mach x = locked_at cons_lock (mach k) c l;
  ic_ext : ext x = set_cons s (ext k);
  ic_tab : ptable x = if w then map (woken input_r) (ptable k) else ptable k;
  ic_q : exists Q, qinv x Q
}.

Context (s0 : console) (H : cons_ready k c lp l s0).

Lemma cons_acquire : exists x, machM (acquire cons_lock) k = Ret tt x /\ in_cons s0 false x.
Proof.
  rewrite (machM_Ret _ _ _ _ (acquire_idle _ _ _ _ (cr_lock _ _ _ _ _ H))). eexists. split; [done|]. constructor; try done.
  - cbn. by rewrite <- (cr_cons _ _ _ _ _ H), set_cons_id.
  - destruct (cr_q _ _ _ _ _ H) as [Q Hq]. exists Q. by eapply qinv_frame; [..|exact Hq].
Qed.

Lemma cons_release s w x : in_cons s w x -> exists y, machM (release cons_lock) x = Ret tt y
  /\ ext y = set_cons s (ext k) /\ ptable y = ptable x /\ mach y = unlocked_mach (mach k) c.
Proof.
  intros [Hm He Ht Hq]. erewrite machM_Ret; [|rewrite Hm; apply release_idle, H]. by eexists.
Qed.

Lemma consM_in {A} (f : D A) s w x a s' : in_cons s w x -> f s = Ret a s' ->
  exists x', consM f x = Ret a x' /\ in_cons s' w x'.
Proof.
  intros [Hm He Ht Hq] Hf. rewrite (consM_Ret f x a s'); [|by rewrite He, cons_set]. eexists. split; [done|]. constructor; try done.
  cbn. by rewrite He, set_cons_set.
Qed.

Lemma wakeup_in s w x : in_cons s w x -> exists x', wakeup custom input_r x = Ret tt x' /\ in_cons s true x'.
Proof.
  intros [Hm He Ht Hq]. pose proof (cr_lock _ _ _ _ _ H) as Hi. pose proof (cr_ptable _ _ _ _ _ H) as Hip.
  destruct (wakeup_ok custom input_r x (pushed c) lp) as (x' & Hrun & Hto & Htab & Hq').
  - rewrite Hm. pose proof (cr_ncli _ _ _ _ _ H) as Hn. constructor; simpl; try apply Hip.
    + rewrite list_lookup_insert_eq; [done|]. eapply lookup_lt_Some, Hi.
    + by rewrite Hn.
    + intros _. apply irq_on_pushed.
    + rewrite lookup_insert_ne by done. apply Hip.
  - simpl. by rewrite (cr_ncli _ _ _ _ _ H).
  - apply irq_on_pushed.
  - done.
  - rewrite Ht. pose proof (cr_prio _ _ _ _ _ H). destruct w; [by apply prios_woken|done].
  - exists x'. split; [done|]. destruct Hto as (t & qs & ms & o & ->). constructor; try done.
    rewrite Htab, Ht. destruct w; [apply woken_idem|done].
Qed.

Lemma intr_loop_ok t : forall cs d s x, Forall (fun c => 0 <= c < 256) cs ->
  in_cons s (ready d) x -> editor s (unread d) (line d) (fold_left tty_put (echoed d) t) ->
  let d' := fold_left ed_key cs d in
  exists x' s', intr_loop custom cs (dump d) x = Ret (dump d') x' /\ in_cons s' (ready d') x'
    /\ editor s' (unread d') (line d') (fold_left tty_put (echoed d') t).
Proof.
  induction cs as [|b cs IH]; intros d s x Hcs Hx Hs; [by exists x, s|]. apply Forall_cons in Hcs as [Hb Hcs]. cbn [fold_left intr_loop].
  destruct (Z.ltb_spec b 0); [lia|]. destruct (Z.eqb_spec b CTRL_P) as [->|Hp].
  - apply (IH (ed_key d CTRL_P) s x Hcs Hx Hs).
  - destruct d as [u e o r p]. cbn [ready unread line echoed dump] in *. rewrite ed_key_frame.
    destruct (intr_char_ok s u e _ b Hs Hb Hp) as (s1 & Hrun1 & Hs1). set (d1 := ed_key (Ed u e [] false false) b) in *.
    destruct (consM_in _ _ _ _ _ _ Hx Hrun1) as (x1 & Hx1 & Hin1). rewrite (bind_Ret _ _ _ _ _ Hx1).
    assert (exists x2, (if ready d1 then wakeup custom input_r else ret tt) x1 = Ret tt x2 /\ in_cons s1 (r || ready d1) x2) as (x2 & Hx2 & Hin2).
    { destruct (ready d1); [rewrite orb_true_r; by apply (wakeup_in s1 r)|rewrite orb_false_r; by exists x1]. }
    rewrite (bind_Ret _ _ _ _ _ Hx2). assert (dump d1 = false) as Hd1.
    { unfold d1, ed_key. destruct (Z.eqb_spec b CTRL_P); [done|]. by repeat case_match. }
    rewrite Hd1, orb_false_r. apply (IH (Ed (unread d1) (line d1) (o ++ echoed d1) (r || ready d1) p) s1 x2 Hcs Hin2).
    cbn [unread line echoed]. by rewrite fold_left_app.
Qed.

(** C18: the interrupt handler of the keyboard and the serial port does to the
    input buffer and the screen what a line editor does with the characters
    typed: they extend the line, backspace and Control-U take characters back,
    a complete line joins the lines to read and the readers are made
    RUNNABLE, and what does not fit in 128 characters is dropped; the buffer's
    counters may wrap around.  The console's lock is free again, and Control-P
    lists the processes. *)
Theorem consoleintr_edits_lines cs u e t : Forall (fun c => 0 <= c < 256) cs -> editor s0 u e t ->
  let d := fold_left ed_key cs (Ed u e [] false false) in
  exists k' s', consoleintr custom cs k = (if dump d then procdump k' else Ret tt k')
    /\ editor s' (unread d) (line d) (fold_left tty_put (echoed d) t)
    /\ ext k' = set_cons s' (ext k) /\ mach k' = unlocked_mach (mach k) c
    /\ ptable k' = (if ready d then map (woken input_r) (ptable k) else ptable k).
Proof.
  intros Hcs Hs. cbv zeta. unfold consoleintr. destruct cons_acquire as (x & Hx & Hin). rewrite (bind_Ret _ _ _ _ _ Hx).
  destruct (intr_loop_ok t cs (Ed u e [] false false) s0 x Hcs Hin Hs) as (x1 & s1 & Hx1 & Hin1 & Hs1). rewrite (bind_Ret _ _ _ _ _ Hx1).
  destruct (cons_release _ _ _ Hin1) as (y & Hy & He & Ht & Hm). rewrite (bind_Ret _ _ _ _ _ Hy).
  exists y, s1. split_and!; try done; [by case_match|]. rewrite Ht. apply Hin1.
Qed.

(** The loop of consoleread on the characters that are there. *)
Lemma read_loop_ok fuel e target : forall n u acc lr rest s x, in_cons s false x -> holds s u e -> Z.of_nat n <= target ->
  read_line (Z.of_nat n =? target) n u = Some (lr, rest) ->
  exists x' s', read_loop (S fuel) n target acc x = Ret (acc ++ lr, Some (Z.of_nat n - Z.of_nat (length lr))) x'
    /\ in_cons s' false x' /\ holds s' rest e.
Proof.
  induction n as [|n IH]; intros u acc lr rest s x Hx Hs Ht Hr.
  - injection Hr as <- <-. exists x, s. by rewrite app_nil_r.
  - destruct u as [|b u]; [done|]. cbn [read_line] in Hr. cbn [read_loop].
    assert (consM (gets (fun s => s)) x = Ret s x) as Hget.
    { destruct Hx as [Hm He Htab Hq]. rewrite (consM_Ret _ x s s); [|by rewrite He, cons_set]. f_equal. rewrite He, set_cons_set, <- He. by kst_eq. }
    rewrite (bind_Ret _ _ x true x).
    2:{ cbn [cons_wait]. rewrite (bind_Ret _ _ _ _ _ Hget), (holds_unread s (b :: u) e Hs). done. }
    cbn [negb]. rewrite (bind_Ret _ _ _ _ _ Hget). destruct (holds_take s b u e Hs) as [Hb Hs1]. rewrite Hb. cbn [get_opt]. rewrite ret_bind.
    destruct (consM_in (modify (set_ir (u32 (ir s + 1)))) s false x tt _ Hx eq_refl) as (x1 & Hx1 & Hin1). rewrite (bind_Ret _ _ _ _ _ Hx1).
    destruct (b =? CTRL_D).
    + destruct (Z.eqb_spec (Z.of_nat (S n)) target), (Z.ltb_spec (Z.of_nat (S n)) target); try lia;
        injection Hr as <- <-; rewrite app_nil_r; cbn [length]; rewrite Z.sub_0_r.
      * rewrite ret_bind. eexists x1, _. by split_and!.
      * destruct (consM_in (modify (fun s => set_ir (u32 (ir s - 1)) s)) _ false x1 tt _ Hin1 eq_refl) as (x2 & Hx2 & Hin2).
        rewrite (bind_Ret _ _ _ _ _ Hx2). eexists x2, _. split_and!; [done|exact Hin2|]. cbn [ir set_ir]. rewrite u32_back by apply Hs. by destruct Hs.
    + destruct (b =? 10).
      * injection Hr as <- <-. eexists x1, _. split_and!; [|done|done]. cbn [length]. unfold ret. do 3 f_equal. lia.
      * destruct (read_line false n u) as [[l' r']|] eqn:Hrl; [|done]. injection Hr as <- <-.
        destruct (IH u (acc ++ [b]) l' r' _ x1 Hin1 Hs1) as (x2 & s2 & Hx2 & Hin2 & Hs2); [lia|by destruct (Z.eqb_spec (Z.of_nat n) target); [lia|]|].
        exists x2, s2. split_and!; [|done|done]. rewrite Hx2, <- app_assoc. cbn [length app]. do 3 f_equal. lia.
Qed.

(** A read of the console gives the unread characters up to the end of the
    line or the number asked for, and takes them away; Control-D ends the
    input: it is taken by a read that got nothing before it, which returns 0,
    and kept for the next read otherwise.  The line being edited, the process
    table and the lock are as before. *)
Theorem consoleread_takes_line fuel ip n u e lr rest k0 : iunlock ip k0 = Ret tt k -> holds s0 u e -> 0 <= n <= INT_MAX ->
  read_line true (Z.to_nat n) u = Some (lr, rest) ->
  exists k' s', consoleread (S fuel) ip n k0 = (ilock ip ;; ret (Z.of_nat (length lr), lr)) k'
    /\ holds s' rest e /\ ext k' = set_cons s' (ext k) /\ mach k' = unlocked_mach (mach k) c /\ ptable k' = ptable k.
Proof.
  intros Hu Hs Hn Hr. unfold INT_MAX in Hn. unfold consoleread. rewrite (bind_Ret _ _ _ _ _ Hu).
  destruct cons_acquire as (x & Hx & Hin). rewrite (bind_Ret _ _ _ _ _ Hx).
  destruct (read_loop_ok fuel e (u32 n) (Z.to_nat n) u [] lr rest s0 x Hin Hs) as (x1 & s1 & Hx1 & Hin1 & Hs1).
  { rewrite u32_small; lia. }
  { rewrite u32_small by lia. by rewrite Z2Nat.id, Z.eqb_refl by lia. }
  rewrite (bind_Ret _ _ _ _ _ Hx1). destruct (cons_release _ _ _ Hin1) as (y & Hy & He & Ht & Hm). rewrite (bind_Ret _ _ _ _ _ Hy).
  exists y, s1. split_and!; [|done..|by rewrite Ht, (ic_tab _ _ _ Hin1)]. cbn [app]. rewrite Z2Nat.id, (u32_small n) by lia.
  assert (Z.of_nat (length lr) <= n) as Hl.
  { clear - Hr Hn. rewrite <- (Z2Nat.id n) by lia. apply inj_le. revert Hr. generalize true as b. revert u lr. generalize (Z.to_nat n) as m.
    induction m as [|m IH]; intros [|y u] lr b Hr; cbn in Hr; try done; try (injection Hr as <- <-; simpl; lia).
    destruct (y =? CTRL_D); [injection Hr as <- <-; simpl; lia|]. destruct (y =? 10); [injection Hr as <- <-; simpl; lia|].
    destruct (read_line false m u) as [[l' r']|] eqn:E; [|done]. injection Hr as <- <-. apply IH in E. simpl. lia. }
  unfold bind. destruct (Z.ltb_spec 0 n).
  - replace (n - (n - Z.of_nat (length lr))) with (Z.of_nat (length lr)) by lia. by rewrite s32_id by (unfold INT_MIN, INT_MAX; lia).
  - replace (n - n) with (Z.of_nat (length lr)) by lia. by rewrite s32_id by (unfold INT_MIN, INT_MAX; lia).
Qed.

(** Consolewrite puts the bytes on the console. *)
Lemma consolewrite_ok ip buf t k0 : iunlock ip k0 = Ret tt k -> shows s0 t -> panicked s0 = 0 ->
  exists k' s', consolewrite ip buf k0 = (ilock ip ;; ret (Z.of_nat (length buf))) k'
    /\ shows s' (fold_left tty_put (map (fun b => Z.land b 0xff) buf) t)
    /\ ext k' = set_cons s' (ext k) /\ mach k' = unlocked_mach (mach k) c /\ ptable k' = ptable k.
Proof.
  intros Hu Ht Hp. unfold consolewrite. rewrite (bind_Ret _ _ _ _ _ Hu). destruct cons_acquire as (x & Hx & Hin). rewrite (bind_Ret _ _ _ _ _ Hx).
  destruct (puts_ok (map (fun b => Z.land b 0xff) buf) s0 t Ht Hp) as (s1 & Hrun & Hs1 & _).
  destruct (consM_in _ _ _ _ _ _ Hin Hrun) as (x1 & Hx1 & Hin1). rewrite (bind_Ret _ _ _ _ _ Hx1).
  destruct (cons_release _ _ _ Hin1) as (y & Hy & He & Hty & Hm). rewrite (bind_Ret _ _ _ _ _ Hy).
  exists y, s1. split_and!; [done..|]. by rewrite Hty, (ic_tab _ _ _ Hin1).
Qed.
End Calls.

(** * Examples *)

#[export] Program Instance cons_only : ConsHeap console := {| cons_ := fun e => e; set_cons := fun s _ => s |}.
Next Obligation. done. Qed.
Next Obligation. done. Qed.
Next Obligation. done. Qed.

#[export] Instance no_inode : InodeLock console := {| iunlock := fun _ => ret tt; ilock := fun _ => ret tt |}.

(** The processes of the shell, and the console [s]. *)
Definition kst_cons (s : console) : kst console :=
  Kst (Machine [cpu1] 0 {[ptable_lock := lock1; cons_lock := Spinlock 0 "console" None]}) (ptable kst1)
    (priority_q kst1) (marker kst1) (Some 0%nat) 4 ∅ ∅ ∅ false 0 [] s.

Lemma cons_ready1 s : cons_ready (kst_cons s) cpu1 lock1 (Spinlock 0 "console" None) s.
Proof.
  constructor; try done.
  - exists Q1. by eapply qinv_frame; [..|apply qinv1].
  - apply Forall_lookup_2. intros i x [->|[->|[->| ->]]]%kst1_procs; done.
Qed.

(** A console whose counters are about to wrap around, with "ok" and a new line
    unread. *)
Definition cons_wrap : console :=
  Console 0 1 1 [] (replicate 2000 0) 0 0 (<[125%nat := 111]> (<[126%nat := 107]> (<[127%nat := 10]> (replicate 128 0)))) 4294967293 0 0.

Lemma holds_wrap : holds cons_wrap [111; 107; 10] [].
Proof. constructor; [reflexivity|unfold cons_wrap, ir; lia|reflexivity|reflexivity|simpl length; lia|reflexivity|apply not_elem_of_nil]. Qed.

Lemma editor_wrap : editor cons_wrap [111; 107; 10] [] [].
Proof. constructor; [apply holds_wrap|destruct shows_blank; by constructor|done]. Qed.

(** "la", backspace, "s", return. *)
Lemma consoleintr_edits_lines_witness :
  exists k' s', consoleintr true [108; 97; 8; 115; 13] (kst_cons cons_wrap) = Ret tt k'
    /\ editor s' [111; 107; 10; 108; 115; 10] [] (fold_left tty_put [108; 97; BACKSPACE; 115; 10] [])
    /\ ext k' = s' /\ mach k' = unlocked_mach (mach (kst_cons cons_wrap)) cpu1
    /\ ptable k' = map (woken input_r) (ptable kst1).
Proof.
  apply (consoleintr_edits_lines true (kst_cons cons_wrap) cpu1 lock1 (Spinlock 0 "console" None) cons_wrap (cons_ready1 cons_wrap)
    [108; 97; 8; 115; 13] [111; 107; 10] [] []).
  - repeat constructor; lia.
  - exact editor_wrap.
Defined.

Lemma consoleread_takes_line_witness :
  exists k' s', consoleread 1 0 10 (kst_cons cons_wrap) = (ilock 0 ;; ret (3, [111; 107; 10])) k'
    /\ holds s' [] [] /\ ext k' = s' /\ mach k' = unlocked_mach (mach (kst_cons cons_wrap)) cpu1 /\ ptable k' = ptable kst1.
Proof.
  apply (consoleread_takes_line (kst_cons cons_wrap) cpu1 lock1 (Spinlock 0 "console" None) cons_wrap (cons_ready1 cons_wrap)
    0 0 10 [111; 107; 10] [] [111; 107; 10] [] (kst_cons cons_wrap)); [reflexivity|exact holds_wrap|unfold INT_MAX; lia|reflexivity].
Defined.
