(* ===== verification/ConsolePrint.v ===== *)
(** Kernel printing (src/xv6-public/console.c): cprintf prints what the user
    library's printf would, and panic gets its message out whoever holds the
    console's lock. *)
From S2P Require Import Prelude Spinlock ProcState Queue CString Proc ProcLemmas Sched Switching Ulib Kbd Cga Console ConsoleSpec.

(** * Numbers: the digits are those of printf, in lower case *)

Definition lower (c : Z) : Z := if (65 <=? c) && (c <=? 90) then c + 32 else c.

Lemma digits_lower i : arr_get digits i = lower <$> arr_get Ulib.digits i.
Proof.
  unfold arr_get. case_match; [|done]. change digits with (lower <$> Ulib.digits). apply list_lookup_fmap.
Qed.

Lemma digits_loop_lower base : forall fuel x buf,
  digits_loop fuel x base (map lower buf) = map lower <$> Ulib.digits_loop fuel x base buf.
Proof.
  induction fuel as [|fuel IH]; intros x buf; [done|]. cbn [digits_loop Ulib.digits_loop]. rewrite length_map, digits_lower.
  destruct (16 <=? length buf)%nat; [done|]. destruct (arr_get Ulib.digits (x mod base)) as [d|]; [|done]. cbn.
  replace (map lower buf ++ [lower d]) with (map lower (buf ++ [d])) by (by rewrite map_app). case_match; [|done]. apply IH.
Qed.

Lemma printint_lower xx base sgn : printint xx base sgn = map lower <$> Ulib.printint xx base sgn.
Proof.
  unfold printint, Ulib.printint. cbv zeta. rewrite (digits_loop_lower base 16 _ []).
  destruct (Ulib.digits_loop 16 _ base []) as [buf|]; [|done]. cbn -[Nat.leb]. rewrite length_map.
  destruct (sgn && (xx <? 0)); cbn -[Nat.leb]; [|change (map lower) with (fmap (M := list) lower); by rewrite fmap_reverse].
  destruct (16 <=? length buf)%nat; [done|]. cbn. f_equal. change (map lower) with (fmap (M := list) lower). by rewrite fmap_reverse, fmap_app.
Qed.

(** * Formats *)

(** The same text but for the case of letters. *)
Definition same_char (a b : Z) : Prop := b = a \/ b = lower a.

Definition same_text (o o' : option (list Z)) : Prop :=
  match o, o' with
  | Some l, Some l' => Forall2 same_char l l'
  | None, None => True
  | _, _ => False
  end.

(** No %c, which cprintf does not know. *)
Definition no_char (fmt : list Z) : Prop := forall i, fmt !! i = Some 37 -> fmt !! S i <> Some 99.

Lemma same_refl l : Forall2 same_char l l.
Proof. induction l; constructor; [by left|done]. Qed.

Lemma same_app l (o o' : option (list Z)) l' : Forall2 same_char l l' -> same_text o o' -> same_text (app l <$> o) (app l' <$> o').
Proof. intros Hl Ho. destruct o, o'; try done. by apply Forall2_app. Qed.

Lemma same_lower l : Forall2 same_char l (map lower l).
Proof. induction l; constructor; [by right|done]. Qed.

(** One sequence % [c], whatever follows. *)
Lemma conv_same fuel m ap i c fmt : c <> 99 ->
  (forall i, same_text (printf_loop fuel m fmt ap i false) (cprintf_loop fuel m fmt ap i)) ->
  same_text (printf_loop fuel m (37 :: c :: fmt) ap i false) (cprintf_loop fuel m (37 :: c :: fmt) ap i).
Proof.
  intros Hc IH. cbn [printf_loop cprintf_loop printf_char Z.eqb Pos.eqb negb mbind option_bind]. unfold cprintf_conv.
  assert (forall o : option (list Z), app [] <$> o = o) as Hnil by (by intros []). rewrite Hnil.
  pose proof (printint_lower (s32 (ap i)) 10 true) as Hd. pose proof (printint_lower (s32 (ap i)) 16 false) as Hh.
  revert Hd Hh. generalize (Ulib.printint (s32 (ap i)) 10 true), (Ulib.printint (s32 (ap i)) 16 false).
  generalize (printint (s32 (ap i)) 10 true), (printint (s32 (ap i)) 16 false). intros ? ? dec hex -> ->.
  destruct (c =? 100); [destruct dec|destruct ((c =? 120) || (c =? 112)); [destruct hex|]]; try done.
  1,2: apply same_app; [apply same_lower|done].
  destruct (c =? 115).
  { destruct (if ap i =? 0 then _ else _); [|done]. cbn [mbind option_bind]. apply same_app; [apply same_refl|done]. }
  destruct (Z.eqb_spec c 99); [done|]. destruct (Z.eqb_spec c 37) as [->|_]; cbn [mbind option_bind]; (apply same_app; [apply same_refl|done]).
Qed.

(** Cprintf prints what the user library's printf prints for the same format
    and arguments, with hexadecimal digits in lower case, unless the format
    has %c. *)
Theorem cprintf_like_printf fuel m fmt ap : no_char fmt ->
  same_text (printf fuel m fmt ap) (cprintf_loop fuel m fmt ap 0).
Proof.
  unfold printf. generalize 0%nat as i. remember (length fmt) as n eqn:Hn. revert fmt Hn.
  induction n as [n IH] using (well_founded_induction lt_wf). intros [|c fmt] Hn i Hfmt; [by constructor|].
  assert (no_char fmt) as Hf1 by (intros j; apply (Hfmt (S j))). cbn [length] in Hn.
  destruct (Z.eq_dec c 37) as [->|Hc].
  - destruct fmt as [|c fmt]; [by constructor|]. cbn [length] in Hn. apply conv_same.
    + intros ->. by apply (Hfmt 0%nat).
    + intros j. apply (IH (length fmt)); [lia|done|]. intros k'. apply (Hf1 (S k')).
  - cbn [printf_loop cprintf_loop printf_char negb]. destruct (Z.eqb_spec c 37); [done|]. cbn [negb mbind option_bind].
    apply (same_app [c] _ _ [c]); [apply same_refl|]. apply (IH (length fmt)); [lia|done|done].
Qed.

(** "%d:%x" of -7 and 0xab. *)
Lemma cprintf_like_printf_witness :
  same_text (printf 1 (fun _ => 0) [37; 100; 58; 37; 120] (fun i => if (i =? 0)%nat then -7 else 0xab)) (Some [45; 55; 58; 97; 98]).
Proof.
  apply (cprintf_like_printf 1 (fun _ => 0) [37; 100; 58; 37; 120] (fun i => if (i =? 0)%nat then -7 else 0xab)).
  intros [|[|[|[|[|i]]]]]; discriminate.
Defined.

(** * Panic *)

Lemma lower_decimal xx o : decimal xx o -> map lower o = o.
Proof.
  intros (ds & -> & Hd & _). rewrite map_app. f_equal; [by case_match|]. clear - Hd.
  induction Hd as [|d ds Hd _ IH]; [done|]. cbn. rewrite IH. f_equal. apply digit_10 in Hd. unfold lower. destruct (Z.leb_spec 65 d); [lia|done].
Qed.

Lemma cprintf_lit fuel m ap i l fmt : Forall (fun c => c <> 37) l ->
  cprintf_loop fuel m (l ++ fmt) ap i = app l <$> cprintf_loop fuel m fmt ap i.
Proof.
  induction 1 as [|c l Hc _ IH]; [cbn [app]; by destruct (cprintf_loop fuel m fmt ap i)|]. cbn [app cprintf_loop]. rewrite IH.
  destruct (Z.eqb_spec c 37); [done|]. cbn [negb]. by destruct (cprintf_loop fuel m fmt ap i).
Qed.

Section Panic.
Context {E : Type} `{!ConsHeap E}.

(** The console of [k'] is that of [k] after the text [o]; nothing else has
    changed. *)
Record printed (k k' : kst E) (t o : list Z) : Prop := {
  pr_k : k' = set_ext (set_cons (cons_ (ext k')) (ext k)) k;
  pr_text : shows (cons_ (ext k')) (fold_left tty_put o t);
  pr_live : panicked (cons_ (ext k')) = 0;
  pr_free : locking (cons_ (ext k')) = 0
}.

Lemma printed_trans k k1 k2 t o o' : printed k k1 t o -> printed k1 k2 (fold_left tty_put o t) o' -> printed k k2 t (o ++ o').
Proof.
  intros [H1 _ _ _] [H2 Ht Hp Hl]. constructor; try done.
  - rewrite H2 at 1. rewrite H1. cbn. by rewrite set_cons_set.
  - by rewrite fold_left_app.
Qed.

(** Without locking, cprintf only needs its format to make sense. *)
Lemma cprintf_printed fuel m fmt ap (k : kst E) t o :
  shows (cons_ (ext k)) t -> panicked (cons_ (ext k)) = 0 -> locking (cons_ (ext k)) = 0 -> cprintf_loop fuel m fmt ap 0 = Some o ->
  exists k', cprintf fuel m (Some fmt) ap k = Ret tt k' /\ printed k k' t o.
Proof.
  intros Ht Hp Hl Ho. destruct (puts_ok o _ t Ht Hp) as (s & Hs & Hts & Hou). set (k' := set_ext (set_cons s (ext k)) k). exists k'. split.
  - unfold cprintf. rewrite (bind_Ret (consM _) _ _ (cons_ (ext k)) k); [|unfold consM, zoom; cbn; rewrite set_cons_id; by destruct k].
    cbv zeta. rewrite Hl. cbn [Z.eqb negb]. rewrite ret_bind, Ho. cbn [get_opt]. rewrite ret_bind.
    rewrite (bind_Ret _ _ _ tt k'); [done|]. by apply consM_Ret.
  - assert (cons_ (ext k') = s) as Hs' by (by cbn; rewrite cons_set). constructor; rewrite ?Hs'; try done; by rewrite (ou_eq _ _ _ Hou).
Qed.

Definition pc_text (pc : Z) (h : list Z) : Prop := exists o, hexadecimal pc o /\ h = 32 :: map lower o.

Lemma panic_pcs_printed fuel m pcs : forall (k : kst E) t,
  shows (cons_ (ext k)) t -> panicked (cons_ (ext k)) = 0 -> locking (cons_ (ext k)) = 0 ->
  exists k' hs, panic_pcs fuel m pcs k = Ret tt k' /\ Forall2 pc_text pcs hs /\ printed k k' t (concat hs).
Proof.
  induction pcs as [|pc pcs IH]; intros k t Ht Hp Hl.
  - exists k, []. split_and!; [done|done|]. constructor; try done. rewrite set_cons_id. by destruct k.
  - destruct (printint_hexadecimal (s32 pc)) as (o & Ho & Hx).
    destruct (cprintf_printed fuel m (bytes " %p") (fun _ => pc) k t (32 :: map lower o) Ht Hp Hl) as (k1 & Hk1 & H1).
    { change (bytes " %p") with [32; 37; 112]. cbn [cprintf_loop Z.eqb Pos.eqb negb]. unfold cprintf_conv. cbn [Z.eqb Pos.eqb orb].
      rewrite (printint_lower (s32 pc) 16 false), Ho. cbn. by rewrite app_nil_r. }
    destruct (IH k1 _ (pr_text _ _ _ _ H1) (pr_live _ _ _ _ H1) (pr_free _ _ _ _ H1)) as (k2 & hs & Hk2 & Hhs & H2).
    exists k2, ((32 :: map lower o) :: hs). split_and!.
    + cbn [panic_pcs]. by rewrite (bind_Ret _ _ _ _ _ Hk1).
    + constructor; [|done]. exists o. split; [|done]. unfold hexadecimal in *. by rewrite u32_s32 in Hx.
    + by eapply printed_trans.
Qed.

(** The first three messages of panic. *)
Lemma panic_message fuel m apic msg (k : kst E) t : Forall (fun c => c <> 37) msg ->
  shows (cons_ (ext k)) t -> panicked (cons_ (ext k)) = 0 -> locking (cons_ (ext k)) = 0 ->
  exists k' d, (cprintf fuel m (Some (bytes "cpu with apicid %d: panic: ")) (fun _ => apic) ;;
      cprintf fuel m (Some msg) (fun _ => 0) ;; cprintf fuel m (Some [10]) (fun _ => 0)) k = Ret tt k'
    /\ decimal (s32 apic) d /\ printed k k' t (bytes "cpu with apicid " ++ d ++ bytes ": panic: " ++ msg ++ [10]).
Proof.
  intros Hmsg Ht Hp Hl. destruct (printint_decimal (s32 apic) (s32_range apic)) as (d & Hd & Hx).
  destruct (cprintf_printed fuel m (bytes "cpu with apicid %d: panic: ") (fun _ => apic) k t (bytes "cpu with apicid " ++ d ++ bytes ": panic: ") Ht Hp Hl)
    as (k1 & Hk1 & H1).
  { change (bytes "cpu with apicid %d: panic: ") with (bytes "cpu with apicid " ++ [37; 100] ++ bytes ": panic: " ++ []).
    rewrite cprintf_lit by (by repeat constructor). cbn [app cprintf_loop Z.eqb Pos.eqb negb]. unfold cprintf_conv. cbn [Z.eqb Pos.eqb].
    rewrite (printint_lower (s32 apic) 10 true), Hd. cbn [fmap option_fmap option_map mbind option_bind].
    rewrite (lower_decimal _ _ Hx), cprintf_lit by (by repeat constructor). done. }
  destruct (cprintf_printed fuel m msg (fun _ => 0) k1 _ msg (pr_text _ _ _ _ H1) (pr_live _ _ _ _ H1) (pr_free _ _ _ _ H1)) as (k2 & Hk2 & H2).
  { rewrite <- (app_nil_r msg) at 1. rewrite cprintf_lit by done. cbn. by rewrite app_nil_r. }
  destruct (cprintf_printed fuel m [10] (fun _ => 0) k2 _ [10] (pr_text _ _ _ _ H2) (pr_live _ _ _ _ H2) (pr_free _ _ _ _ H2) eq_refl) as (k3 & Hk3 & H3).
  exists k3, d. split_and!; [by rewrite (bind_Ret _ _ _ _ _ Hk1), (bind_Ret _ _ _ _ _ Hk2)|done|].
  pose proof (printed_trans _ _ _ _ _ _ H1 (printed_trans _ _ _ _ _ _ H2 H3)) as H. by rewrite <- !app_assoc in H.
Qed.

(** Panic gets its message to the screen whoever holds the console's lock:
    it takes no lock, prints the CPU, the message and the callers, and ends in
    its infinite loop with the console frozen, so that no CPU prints anything
    more. *)
Theorem panic_prints_then_freezes fuel m apic msg pcs (k : kst E) c t :
  cpus (mach k) !! this (mach k) = Some c -> Forall (fun c => c <> 37) msg ->
  shows (cons_ (ext k)) t -> panicked (cons_ (ext k)) = 0 ->
  exists k' d hs, panic_ fuel m apic msg pcs k = Spin k' /\ decimal (s32 apic) d /\ Forall2 pc_text pcs hs
    /\ shows (cons_ (ext k')) (fold_left tty_put ((bytes "cpu with apicid " ++ d ++ bytes ": panic: " ++ msg ++ [10]) ++ concat hs) t)
    /\ locks (mach k') = locks (mach k) /\ ptable k' = ptable k
    /\ forall c s, consputc c (cons_ (ext k')) <> Ret tt s.
Proof.
  intros Hc Hmsg Ht Hp. unfold panic_. set (m1 := with_cpu (set_eflags (Z.land (eflags c) (Z.lnot FL_IF)) c) (mach k)).
  rewrite (bind_Ret (machM cli) _ k tt (set_mach m1 k)).
  2:{ apply machM_Ret. unfold cli, upd_cpu, cpu_, bind, gets, get_opt, modify, ret. cbn. by rewrite Hc. }
  set (k1 := set_ext (set_cons (set_locking 0 (cons_ (ext k))) (ext k)) (set_mach m1 k)).
  rewrite (bind_Ret (consM _) _ _ tt k1); [|exact (consM_Ret (modify (set_locking 0)) (set_mach m1 k) tt _ eq_refl)].
  assert (cons_ (ext k1) = set_locking 0 (cons_ (ext k))) as H1 by (by cbn; rewrite cons_set).
  destruct (panic_message fuel m apic msg k1 t Hmsg) as (k2 & d & Hk2 & Hd & H2); [rewrite H1; by destruct Ht|by rewrite H1..|].
  destruct (panic_pcs_printed fuel m pcs k2 _ (pr_text _ _ _ _ H2) (pr_live _ _ _ _ H2) (pr_free _ _ _ _ H2)) as (k3 & hs & Hk3 & Hhs & H3).
  pose proof (printed_trans _ _ _ _ _ _ H2 H3) as Hall.
  exists (set_ext (set_cons (set_panicked 1 (cons_ (ext k3))) (ext k3)) k3), d, hs.
  assert (cons_ (ext (set_ext (set_cons (set_panicked 1 (cons_ (ext k3))) (ext k3)) k3)) = set_panicked 1 (cons_ (ext k3))) as Hf by (by cbn; rewrite cons_set).
  rewrite Hf. split_and!; [|done|done| | | |].
  - revert Hk2. unfold bind. destruct (cprintf fuel m (Some (bytes "cpu with apicid %d: panic: ")) (fun _ => apic) k1) as [[] x1| | | | |]; try done. cbn [obind].
    destruct (cprintf fuel m (Some msg) (fun _ => 0) x1) as [[] x2| | | | |]; try done. cbn [obind]. intros ->. cbn [obind]. rewrite Hk3. cbn [obind].
    by rewrite (consM_Ret (modify (set_panicked 1)) k3 tt _ eq_refl).
  - by destruct (pr_text _ _ _ _ Hall).
  - rewrite (pr_k _ _ _ _ Hall). done.
  - rewrite (pr_k _ _ _ _ Hall). done.
  - intros c' s. by unfold consputc.
Qed.
End Panic.

(** Panic while the console's lock is held. *)
Lemma panic_prints_then_freezes_witness :
  let k := set_mach (locked_at cons_lock (mach (kst_cons blank)) cpu1 (Spinlock 0 "console" None)) (kst_cons blank) in
  exists k' d hs, panic_ 1 (fun _ => 0) 3 (bytes "sched locks") [0x80103a10] k = Spin k' /\ decimal (s32 3) d /\ Forall2 pc_text [0x80103a10] hs
    /\ shows (cons_ (ext k')) (fold_left tty_put ((bytes "cpu with apicid " ++ d ++ bytes ": panic: " ++ bytes "sched locks" ++ [10]) ++ concat hs) [])
    /\ locks (mach k') = locks (mach k) /\ ptable k' = ptable k
    /\ forall c s, consputc c (cons_ (ext k')) <> Ret tt s.
Proof.
  intros k. apply (panic_prints_then_freezes 1 (fun _ => 0) 3 (bytes "sched locks") [0x80103a10] k (pushed cpu1) []).
  - reflexivity.
  - repeat constructor; discriminate.
  - exact shows_blank.
  - reflexivity.
Defined.
