(* ===== verification/Ide.v ===== *)
(** The IDE disk driver (src/xv6-public/ide.c): a queue of requests, linked
    through the buffers, of which the disk works on the first.

    The disk is behind [Ata]: the instructions on its ports.  What the driver
    relies on of an ATA disk is in [AtaLaws].  The buffers are those
    of bio.c, by index; [IdeHeap] says where they are in the kernel's state.
    The functions without locks run with idelock held. *)
From S2P Require Import Prelude Spinlock ProcState Queue CString Proc ProcLemmas Sched Switching Bio.

Definition SECTOR_SIZE : Z := 512.
Definition FSSIZE : Z := 1000.
Definition IDE_BSY : Z := 0x80.
Definition IDE_DRDY : Z := 0x40.
Definition IDE_DF : Z := 0x20.
Definition IDE_ERR : Z := 0x01.
Definition IDE_CMD_READ : Z := 0x20.
Definition IDE_CMD_WRITE : Z := 0x30.
Definition IDE_CMD_RDMUL : Z := 0xc4.
Definition IDE_CMD_WRMUL : Z := 0xc5.

(** The port instructions of x86.h on a device of state [D]; insl reads 4-byte
    words. *)
Class Ata (D : Type) := {
  inb : Z -> D -> Z * D;
  outb : Z -> Z -> D -> D;
  insl : Z -> Z -> D -> list Z * D;
  outsl : Z -> list Z -> D -> D
}.

Record ide (D : Type) := Ide {
  i_bufs : list buf;
  qnext : list (option nat);
  idequeue : option nat;
  havedisk1 : Z;
  i_dev : D
}.
Arguments Ide {D}.
Arguments i_bufs {D}.
Arguments qnext {D}.
Arguments idequeue {D}.
Arguments havedisk1 {D}.
Arguments i_dev {D}.
Definition set_i_bufs {D} v (s : ide D) := Ide v (qnext s) (idequeue s) (havedisk1 s) (i_dev s).
Definition set_qnext {D} v (s : ide D) := Ide (i_bufs s) v (idequeue s) (havedisk1 s) (i_dev s).
Definition set_idequeue {D} v (s : ide D) := Ide (i_bufs s) (qnext s) v (havedisk1 s) (i_dev s).
Definition set_havedisk1 {D} v (s : ide D) := Ide (i_bufs s) (qnext s) (idequeue s) v (i_dev s).
Definition set_i_dev {D} (v : D) (s : ide D) := Ide (i_bufs s) (qnext s) (idequeue s) (havedisk1 s) v.

Section Driver.
Context {D : Type} `{!Ata D}.
(** How often the status is read at most while waiting for the disk. *)
Variable fuel : nat.
Notation I := (M (ide D)).

Definition in_ (port : Z) : I Z :=
  s <- gets (fun s => s) ;;
  let '(r, d) := inb port (i_dev s) in
  modify (set_i_dev d) ;; ret r.
Definition out_ (port v : Z) : I unit := modify (fun s => set_i_dev (outb port v (i_dev s)) s).

Definition buf_ (i : nat) : I buf := l <- gets i_bufs ;; get_opt "buf" (l !! i).
Definition put_buf (i : nat) (b : buf) : I unit := modify (fun s => set_i_bufs (<[i := b]> (i_bufs s)) s).

Fixpoint idewait_loop (n : nat) : I Z :=
  match n with
  | O => fun s => OutOfFuel s
  | S n' =>
      r <- in_ 0x1f7 ;;
      if negb (Z.land r (Z.lor IDE_BSY IDE_DRDY) =? IDE_DRDY) then idewait_loop n' else ret r
  end.

Definition idewait (checkerr : bool) : I Z :=
  r <- idewait_loop fuel ;;
  if checkerr && negb (Z.land r (Z.lor IDE_DF IDE_ERR) =? 0) then ret (-1) else ret 0.

Definition idestart (b : option nat) : I unit :=
  match b with
  | None => panic "idestart"
  | Some i =>
      b <- buf_ i ;;
      if b_blockno b >=? FSSIZE then panic "incorrect blockno" else
      let sector_per_block := BSIZE / SECTOR_SIZE in
      let sector := s32 (b_blockno b * sector_per_block) in
      let read_cmd := if sector_per_block =? 1 then IDE_CMD_READ else IDE_CMD_RDMUL in
      let write_cmd := if sector_per_block =? 1 then IDE_CMD_WRITE else IDE_CMD_WRMUL in
      if sector_per_block >? 7 then panic "idestart" else
      idewait false ;;
      out_ 0x3f6 0 ;;
      out_ 0x1f2 sector_per_block ;;
      out_ 0x1f3 (Z.land sector 0xff) ;;
      out_ 0x1f4 (Z.land (Z.shiftr sector 8) 0xff) ;;
      out_ 0x1f5 (Z.land (Z.shiftr sector 16) 0xff) ;;
      out_ 0x1f6 (Z.lor (Z.lor 0xe0 (Z.shiftl (Z.land (b_dev b) 1) 4)) (Z.land (Z.shiftr sector 24) 0x0f)) ;;
      if negb (Z.land (b_flags b) B_DIRTY =? 0) then
        out_ 0x1f7 write_cmd ;;
        modify (fun s => set_i_dev (outsl 0x1f0 (b_data b) (i_dev s)) s)
      else out_ 0x1f7 read_cmd
  end.

(** The loop that looks for disk 1, [n] times at most. *)
Fixpoint find_disk1 (n : nat) : I unit :=
  match n with
  | O => ret tt
  | S n' =>
      r <- in_ 0x1f7 ;;
      if negb (r =? 0) then modify (set_havedisk1 1) else find_disk1 n'
  end.

(** ideinit without its lock and the interrupt controllers. *)
Definition ideprobe : I unit :=
  idewait false ;;
  out_ 0x1f6 (Z.lor 0xe0 (Z.shiftl 1 4)) ;;
  find_disk1 1000 ;;
  out_ 0x1f6 (Z.lor 0xe0 (Z.shiftl 0 4)).

(** The pointer a [pp] of the loop of iderw points to: idequeue, or the qnext of
    a buffer. *)
Definition load_pp (pp : option nat) : I (option nat) :=
  s <- gets (fun s => s) ;;
  match pp with
  | None => ret (idequeue s)
  | Some i => get_opt "buf" (qnext s !! i)
  end.
Definition store_pp (pp v : option nat) : I unit :=
  s <- gets (fun s => s) ;;
  match pp with
  | None => modify (set_idequeue v)
  | Some i => modify (set_qnext (<[i := v]> (qnext s)))
  end.

(** At most one step for each buffer. *)
Fixpoint insert_queue (n : nat) (pp : option nat) (b : nat) : I unit :=
  match n with
  | O => fun s => OutOfFuel s
  | S n' =>
      p <- load_pp pp ;;
      match p with
      | None => store_pp pp (Some b)
      | Some j => insert_queue n' (Some j) b
      end
  end.

(** The tests of iderw. *)
Definition iderw_check (b : nat) : I unit :=
  x <- buf_ b ;;
  if sl_locked (b_lock x) =? 0 then panic "iderw: buf not locked" else
  if Z.land (b_flags x) (Z.lor B_VALID B_DIRTY) =? B_VALID then panic "iderw: nothing to do" else
  s <- gets (fun s => s) ;;
  if negb (b_dev x =? 0) && (havedisk1 s =? 0) then panic "iderw: ide disk 1 not present" else ret tt.

(** The request joins the queue; the disk is started if it is the only one. *)
Definition iderw_submit (b : nat) : I unit :=
  store_pp (Some b) None ;;
  s <- gets (fun s => s) ;;
  insert_queue (S (length (i_bufs s))) None b ;;
  s <- gets (fun s => s) ;;
  if bool_decide (idequeue s = Some b) then idestart (Some b) else ret tt.

(** The first request leaves the queue, complete. *)
Definition ideintr_take : I (option nat) :=
  s <- gets (fun s => s) ;;
  match idequeue s with
  | None => ret None
  | Some i =>
      n <- load_pp (Some i) ;;
      modify (set_idequeue n) ;;
      b <- buf_ i ;;
      (if Z.land (b_flags b) B_DIRTY =? 0 then
         r <- idewait true ;;
         if r >=? 0 then
           s <- gets (fun s => s) ;;
           let '(l, d) := insl 0x1f0 (BSIZE / 4) (i_dev s) in
           modify (set_i_dev d) ;; put_buf i (set_b_data l b)
         else ret tt
       else ret tt) ;;
      b <- buf_ i ;;
      put_buf i (set_b_flags (Z.land (Z.lor (b_flags b) B_VALID) (Z.lnot B_DIRTY)) b) ;;
      ret (Some i)
  end.

Definition ideintr_next : I unit :=
  s <- gets (fun s => s) ;;
  match idequeue s with None => ret tt | Some i => idestart (Some i) end.
End Driver.

(** * In the kernel *)

Class IdeHeap (E D : Type) := {
  ide_ : E -> ide D;
  set_ide : ide D -> E -> E
}.

Definition ide_lock : Z := 0x8010a580.
(** The address of buffer [i] in bcache. *)
Definition buf_addr (i : nat) : Z := 0x8010b614 + 604 * Z.of_nat i.

Section Kernel.
Context {E D : Type} `{!Ata D, !IdeHeap E D}.
Variables (custom : bool) (fuel : nat).
Notation K := (M (kst E)).

Definition ideM {A} (c : M (ide D) A) : K A :=
  zoom (fun k => ide_ (ext k)) (fun s k => set_ext (set_ide s (ext k)) k) c.

Definition ideinit : K unit :=
  machM (initlock ide_lock "ide") ;;
  ideM (ideprobe fuel).

Definition ideintr : K unit :=
  machM (acquire ide_lock) ;;
  b <- ideM (ideintr_take fuel) ;;
  match b with
  | None => machM (release ide_lock)
  | Some i =>
      wakeup custom (buf_addr i) ;;
      ideM (ideintr_next fuel) ;;
      machM (release ide_lock)
  end.

(** [while((b->flags & (B_VALID|B_DIRTY)) != B_VALID) sleep(b, &idelock);] *)
Fixpoint iderw_wait (n : nat) (b : nat) : K unit :=
  match n with
  | O => fun k => OutOfFuel k
  | S n' =>
      x <- ideM (buf_ b) ;;
      if negb (Z.land (b_flags x) (Z.lor B_VALID B_DIRTY) =? B_VALID) then
        sleep (buf_addr b) ide_lock ;; iderw_wait n' b
      else ret tt
  end.

Definition iderw (n : nat) (b : nat) : K unit :=
  ideM (iderw_check b) ;;
  machM (acquire ide_lock) ;;
  ideM (iderw_submit fuel b) ;;
  iderw_wait n b ;;
  machM (release ide_lock).
End Kernel.
