(* ===== verification/IdeSpec.v ===== *)
(** The IDE driver serves requests in order (src/xv6-public/ide.c), on any disk
    with the laws the driver relies on, and a request does what iderw of
    memide.c, on which the file system's theorems rest, does. *)
From S2P Require Import Prelude Spinlock ProcState Bio Ide.

(** The blocks of the two disks of the controller, by sector. *)
Notation contents := (Z -> Z -> list Z).

Definition cupd (m : contents) (drv sec : Z) (d : list Z) : contents :=
  fun a b => if (a =? drv) && (b =? sec) then d else m a b.

(** The registers of a command for one sector, in LBA mode. *)
Definition lba (l0 l1 l2 l3 : Z) : Z := l0 + 256 * l1 + 65536 * l2 + 16777216 * Z.land l3 0x0f.
Definition drive (l3 : Z) : Z := Z.land (Z.shiftr l3 4) 1.
Definition issue `{!Ata D} (d : D) (l0 l1 l2 l3 cmd : Z) : D :=
  outb 0x1f7 cmd (outb 0x1f6 l3 (outb 0x1f5 l2 (outb 0x1f4 l1 (outb 0x1f3 l0 (outb 0x1f2 1 (outb 0x3f6 0 d)))))).

(** What the driver relies on of an ATA disk, for reads and writes of a sector
    without errors.  [ata d m c]: the disks hold [m], and if [c] is the drive
    and sector of a read, the disk works on it or has its data.  A command is
    taken, and the data of a read can be had, only when the disk is [ready],
    which nothing but a poll of its status shows; it is after fewer than
    [patience] polls.  The words of a write are taken as they come: the driver
    does not poll between the command and the words. *)
Class AtaLaws (D : Type) `{!Ata D} := {
  ata : D -> contents -> option (Z * Z) -> Prop;
  ready : D -> Prop;
  polls : D -> nat;
  patience : nat;
  polls_patience d : (polls d < patience)%nat;
  poll_ok d m c r d' : ata d m c -> inb 0x1f7 d = (r, d') ->
    ata d' m c
    /\ (Z.land r (Z.lor IDE_BSY IDE_DRDY) = IDE_DRDY /\ ready d' \/ Z.land r (Z.lor IDE_BSY IDE_DRDY) <> IDE_DRDY /\ (polls d' < polls d)%nat)
    /\ (Z.land r (Z.lor IDE_BSY IDE_DRDY) = IDE_DRDY -> Z.land r (Z.lor IDE_DF IDE_ERR) = 0);
  read_ok d m l0 l1 l2 l3 : ata d m None -> ready d -> 0 <= l0 < 256 -> 0 <= l1 < 256 -> 0 <= l2 < 256 -> 0 <= l3 < 256 ->
    Z.land l3 0xe0 = 0xe0 ->
    ata (issue d l0 l1 l2 l3 IDE_CMD_READ) m (Some (drive l3, lba l0 l1 l2 l3));
  write_ok d m l0 l1 l2 l3 data : ata d m None -> ready d -> 0 <= l0 < 256 -> 0 <= l1 < 256 -> 0 <= l2 < 256 -> 0 <= l3 < 256 ->
    Z.land l3 0xe0 = 0xe0 -> length data = 512%nat ->
    ata (outsl 0x1f0 data (issue d l0 l1 l2 l3 IDE_CMD_WRITE)) (cupd m (drive l3) (lba l0 l1 l2 l3) data) None;
  data_ok d m drv sec : ata d m (Some (drv, sec)) -> ready d ->
    exists d', insl 0x1f0 128 d = (m drv sec, d') /\ ata d' m None
}.

(** A block number in the registers. *)
Lemma lba_ok n b : 0 <= n < 1000 -> 0 <= b < 2 ->
  let l3 := Z.lor (Z.lor 0xe0 (Z.shiftl (Z.land b 1) 4)) (Z.land (Z.shiftr n 24) 0x0f) in
  lba (Z.land n 0xff) (Z.land (Z.shiftr n 8) 0xff) (Z.land (Z.shiftr n 16) 0xff) l3 = n
  /\ drive l3 = b /\ 0 <= l3 < 256 /\ Z.land l3 0xe0 = 0xe0
  /\ 0 <= Z.land n 0xff < 256 /\ 0 <= Z.land (Z.shiftr n 8) 0xff < 256 /\ 0 <= Z.land (Z.shiftr n 16) 0xff < 256.
Proof.
  intros Hn Hb l3. assert (forall k, 10 <= k -> Z.shiftr n k = 0) as Hsh.
  { intros k Hk. rewrite Z.shiftr_div_pow2 by lia. apply Z.div_small. assert (2 ^ 10 <= 2 ^ k) by (apply Z.pow_le_mono_r; lia). lia. }
  assert (l3 = 0xe0 \/ l3 = 0xf0) as H3 by (unfold l3; rewrite Hsh by lia; assert (b = 0 \/ b = 1) as [-> | ->] by lia; [by left|by right]).
  assert (drive l3 = b) as Hd by (unfold l3; rewrite Hsh by lia; assert (b = 0 \/ b = 1) as [-> | ->] by lia; done).
  rewrite (Hsh 16) by lia. rewrite Z.shiftr_div_pow2 by lia. change (2 ^ 8) with 256. change 0xff with (Z.ones 8). rewrite !Z.land_ones by lia. change (2 ^ 8) with 256.
  assert (n / 256 < 4) by (apply Z.div_lt_upper_bound; lia). pose proof (Z.div_pos n 256). rewrite (Z.mod_small (n / 256)) by lia.
  pose proof (Z.mod_pos_bound n 256). pose proof (Z.div_mod n 256 ltac:(lia)). change (0 mod 256) with 0. unfold lba.
  destruct H3 as [H3|H3]; rewrite H3 in *; [change (Z.land 0xe0 0x0f) with 0|change (Z.land 0xf0 0x0f) with 0]; split_and!; done || lia.
Qed.

(** * Requests *)

Definition dirty (b : buf) : bool := negb (Z.land (b_flags b) B_DIRTY =? 0).
Definition pending (b : buf) : Prop := Z.land (b_flags b) (Z.lor B_VALID B_DIRTY) <> B_VALID.

(** A buffer that iderw may be called with. *)
Record request (have1 : Z) (b : buf) : Prop := {
  rq_locked : sl_locked (b_lock b) <> 0;
  rq_pending : pending b;
  rq_dev : 0 <= b_dev b < 2;
  rq_have : b_dev b <> 0 -> have1 <> 0;
  rq_block : 0 <= b_blockno b < FSSIZE;
  rq_data : length (b_data b) = 512%nat
}.

(** What a request does, with the disk at [m]. *)
Definition disk_after (b : buf) (m : contents) : contents :=
  if dirty b then cupd m (b_dev b) (b_blockno b) (b_data b) else m.
Definition served (b : buf) (m : contents) : buf :=
  set_b_flags (Z.land (Z.lor (b_flags b) B_VALID) (Z.lnot B_DIRTY)) (if dirty b then b else set_b_data (m (b_dev b) (b_blockno b)) b).

Section Requests.
Context {D : Type} `{!Ata D, !AtaLaws D}.
Variable fuel : nat.
Hypothesis fuel_ok : (patience <= fuel)%nat.

(** The disk has started on [b]. *)
Definition started (d : D) (m : contents) (b : buf) : Prop :=
  if dirty b then ata d (disk_after b m) None else ata d m (Some (b_dev b, b_blockno b)).

Lemma idewait_loop_ok m c : forall n s, (polls (i_dev s) < n)%nat -> ata (i_dev s) m c ->
  exists d r, idewait_loop n s = Ret r (set_i_dev d s) /\ ata d m c /\ ready d /\ Z.land r (Z.lor IDE_DF IDE_ERR) = 0.
Proof.
  induction n as [|n IH]; intros s Hn Hs; [lia|]. cbn [idewait_loop]. unfold in_ at 1.
  destruct (inb 0x1f7 (i_dev s)) as [r d] eqn:E. destruct (poll_ok _ _ _ _ _ Hs E) as (Hd & Hp & He).
  rewrite (bind_Ret _ _ s r (set_i_dev d s)) by (rewrite gets_bind; cbv beta; by rewrite E).
  destruct (Z.eqb_spec (Z.land r (Z.lor IDE_BSY IDE_DRDY)) IDE_DRDY) as [Hr|Hr]; cbn [negb].
  - destruct Hp as [[_ Hrd]|[? _]]; [|done]. exists d, r. split_and!; [done|done|done|by apply He].
  - destruct Hp as [[? _]|[_ Hp]]; [done|]. destruct (IH (set_i_dev d s)) as (d' & r' & Hrun & Hd'); [cbn; lia|done|]. by exists d', r'.
Qed.

Lemma idewait_ok m c ce s : ata (i_dev s) m c -> exists d, idewait fuel ce s = Ret 0 (set_i_dev d s) /\ ata d m c /\ ready d.
Proof.
  intros Hs. pose proof (polls_patience (i_dev s)). destruct (idewait_loop_ok m c fuel s) as (d & r & Hrun & Hd & Hrd & Hr); [lia|done|].
  exists d. split; [|by split]. unfold idewait. rewrite (bind_Ret _ _ _ _ _ Hrun), Hr. by destruct ce.
Qed.

Lemma idestart_ok s m i b have1 : i_bufs s !! i = Some b -> request have1 b -> ata (i_dev s) m None ->
  exists d, idestart fuel (Some i) s = Ret tt (set_i_dev d s) /\ started d m b.
Proof.
  intros Hb Hr Hs. destruct (idewait_ok m None false s Hs) as (d & Hrun & Hd & Hrd).
  pose proof (rq_block _ _ Hr) as Hn. unfold FSSIZE in Hn.
  assert (b_blockno b >=? FSSIZE = false) as Hge by (unfold FSSIZE; rewrite Z.geb_leb; apply Z.leb_gt; lia).
  assert (s32 (b_blockno b * (BSIZE / SECTOR_SIZE)) = b_blockno b) as Hsec.
  { change (BSIZE / SECTOR_SIZE) with 1. rewrite Z.mul_1_r. apply s32_id. unfold INT_MIN, INT_MAX. lia. }
  destruct (lba_ok (b_blockno b) (b_dev b)) as (Hlba & Hdrv & Hl3 & He0 & H0 & H1 & H2); [lia|apply Hr|].
  unfold idestart. rewrite (bind_Ret (buf_ i) _ s b s) by (unfold buf_; rewrite gets_bind; by rewrite Hb).
  rewrite Hge, Hsec. change (BSIZE / SECTOR_SIZE) with 1. cbv zeta. change (1 >? 7) with false. change (1 =? 1) with true. cbv iota.
  rewrite (bind_Ret _ _ _ _ _ Hrun). unfold out_. rewrite !modify_bind. unfold started, disk_after, dirty in *.
  destruct (Z.land (b_flags b) B_DIRTY =? 0); cbn [negb].
  - eexists. split; [reflexivity|]. pose proof (read_ok d m _ _ _ _ Hd Hrd H0 H1 H2 Hl3 He0) as H. by rewrite Hlba, Hdrv in H.
  - rewrite modify_bind. eexists. split; [reflexivity|]. pose proof (write_ok d m _ _ _ _ (b_data b) Hd Hrd H0 H1 H2 Hl3 He0 (rq_data _ _ Hr)) as H.
    by rewrite Hlba, Hdrv in H.
Qed.

(** * The queue *)

(** The list of requests that starts at [h] and goes on through qnext. *)
Fixpoint links (qn : list (option nat)) (h : option nat) (Q : list nat) : Prop :=
  match Q with
  | [] => h = None
  | i :: Q' => h = Some i /\ exists n, qn !! i = Some n /\ links qn n Q'
  end.

Lemma links_ext qn qn' Q : forall h, links qn h Q -> (forall i, i ∈ Q -> qn' !! i = qn !! i) -> links qn' h Q.
Proof.
  induction Q as [|i Q IH]; intros h Hl He; [done|]. destruct Hl as (-> & n & Hn & Hl). split; [done|]. exists n. split.
  - rewrite He; [done|left].
  - apply IH; [done|]. intros j Hj. apply He. by right.
Qed.

(** A request behind the last of a queue. *)
Lemma links_snoc qn b Q : forall h i, links qn h (Q ++ [i]) -> NoDup (Q ++ [i]) -> b ∉ Q ++ [i] -> qn !! b = Some None ->
  links (<[i := Some b]> qn) h (Q ++ [i; b]).
Proof.
  induction Q as [|j Q IH]; intros h i Hl Hd Hb Hq; cbn [app] in *.
  - destruct Hl as (-> & n & Hn & ->). rewrite not_elem_of_cons in Hb. destruct Hb as [Hb _]. split; [done|]. exists (Some b). split.
    + apply list_lookup_insert_eq. by eapply lookup_lt_Some.
    + split; [done|]. exists None. split; [|done]. by rewrite list_lookup_insert_ne.
  - destruct Hl as (-> & n & Hn & Hl). apply NoDup_cons in Hd as [Hj Hd]. rewrite not_elem_of_cons in Hb. split; [done|]. exists n. split.
    + rewrite list_lookup_insert_ne; [done|]. intros ->. apply Hj, elem_of_app. right. left.
    + apply IH; try done. apply Hb.
Qed.

(** Where the loop of iderw stores the new request. *)
Lemma insert_queue_ok b Q : forall n pp (s : ide D) h, load_pp pp s = Ret h s -> links (qnext s) h Q -> (length Q < n)%nat ->
  insert_queue n pp b s = store_pp (match last Q with Some j => Some j | None => pp end) (Some b) s.
Proof.
  induction Q as [|i Q IH]; intros n pp s h Hp Hl Hn; (destruct n as [|n]; [simpl in Hn; lia|]); cbn [insert_queue]; rewrite (bind_Ret _ _ _ _ _ Hp).
  - by rewrite Hl.
  - destruct Hl as (-> & n' & Hn' & Hl). rewrite (IH n (Some i) s n'); [|unfold load_pp; rewrite gets_bind; by rewrite Hn'|done|simpl in Hn; lia].
    by rewrite last_cons; destruct (last Q).
Qed.

(** The requests [Q] are waiting, the disk holds [m] but for the first of them,
    on which it is working. *)
Record queued (s : ide D) (Q : list nat) (m : contents) : Prop := {
  qu_links : links (qnext s) (idequeue s) Q;
  qu_nodup : NoDup Q;
  qu_len : length (qnext s) = length (i_bufs s);
  qu_bufs i : i ∈ Q -> exists b, i_bufs s !! i = Some b /\ request (havedisk1 s) b;
  qu_dev : match Q with
           | [] => ata (i_dev s) m None
           | i :: _ => exists b, i_bufs s !! i = Some b /\ started (i_dev s) m b
           end
}.

Lemma queued_bound s Q m : queued s Q m -> (length Q <= length (i_bufs s))%nat.
Proof.
  intros H. rewrite <- (length_seq (length (i_bufs s)) 0). apply submseteq_length, NoDup_submseteq; [apply H|].
  intros i Hi. apply elem_of_seq. destruct (qu_bufs _ _ _ H i Hi) as (b & Hb & _). apply lookup_lt_Some in Hb. lia.
Qed.

(** A request that is submitted waits behind the others. *)
Lemma submit_ok s Q m i b : queued s Q m -> i_bufs s !! i = Some b -> request (havedisk1 s) b -> i ∉ Q ->
  exists s', (iderw_check i ;; iderw_submit fuel i) s = Ret tt s' /\ queued s' (Q ++ [i]) m
    /\ i_bufs s' = i_bufs s /\ havedisk1 s' = havedisk1 s.
Proof.
  intros Hs Hb Hr Hi. pose proof (queued_bound _ _ _ Hs) as Hbound. destruct Hs as [Hl Hd Hlen Hbufs Hdev].
  rewrite (bind_Ret (iderw_check i) _ s tt s).
  2:{ unfold iderw_check. rewrite (bind_Ret (buf_ i) _ s b s) by (unfold buf_; rewrite gets_bind; by rewrite Hb).
      destruct (Z.eqb_spec (sl_locked (b_lock b)) 0) as [E|_]; [by destruct (rq_locked _ _ Hr)|].
      destruct (Z.eqb_spec (Z.land (b_flags b) (Z.lor B_VALID B_DIRTY)) B_VALID) as [E|_]; [by destruct (rq_pending _ _ Hr)|].
      rewrite gets_bind. destruct (Z.eqb_spec (b_dev b) 0) as [_|Hn]; [done|]. destruct (Z.eqb_spec (havedisk1 s) 0) as [E|_]; [by destruct (rq_have _ _ Hr)|done]. }
  unfold iderw_submit. set (s1 := set_qnext (<[i := None]> (qnext s)) s).
  rewrite (bind_Ret (store_pp (Some i) None) _ s tt s1) by done. rewrite gets_bind.
  pose proof (lookup_lt_Some _ _ _ Hb) as Hlt.
  assert (qnext s1 !! i = Some None) as Hqi by (apply list_lookup_insert_eq; lia).
  assert (links (qnext s1) (idequeue s1) Q) as Hl1.
  { eapply links_ext; [exact Hl|]. intros j Hj. apply list_lookup_insert_ne. by intros ->. }
  pose proof (insert_queue_ok i Q (S (length (i_bufs s1))) None s1 (idequeue s1) eq_refl Hl1) as Hins.
  assert (forall j, j ∈ Q ++ [i] -> exists b, i_bufs s !! j = Some b /\ request (havedisk1 s) b) as Hbufs'.
  { intros j [Hj|Hj%list_elem_of_singleton]%elem_of_app; [by apply Hbufs|]. subst. by exists b. }
  destruct Q as [|j Q' _] using rev_ind.
  - rewrite (bind_Ret _ _ s1 tt (set_idequeue (Some i) s1)) by (rewrite Hins; [done|simpl; lia]). rewrite gets_bind. cbn [idequeue set_idequeue].
    rewrite bool_decide_true by done. destruct (idestart_ok (set_idequeue (Some i) s1) m i b (havedisk1 s) Hb Hr Hdev) as (d & Hrun & Hst).
    rewrite Hrun. eexists. split; [done|]. split_and!; [|done..]. constructor; cbn [app qnext idequeue set_i_dev set_idequeue s1 set_qnext i_bufs].
    + split; [done|]. by exists None.
    + apply NoDup_singleton.
    + by rewrite length_insert.
    + apply Hbufs'.
    + exists b. by split.
  - set (s2 := set_qnext (<[j := Some i]> (qnext s1)) s1).
    rewrite (bind_Ret _ _ s1 tt s2) by (rewrite Hins; [by rewrite last_snoc|simpl; lia]). rewrite gets_bind.
    assert (idequeue s2 <> Some i) as Hne.
    { change (idequeue s2) with (idequeue s). intros Heq. apply Hi. destruct Q' as [|j' Q']; destruct Hl as (Hh & _); rewrite Heq in Hh; injection Hh as ->; left. }
    rewrite bool_decide_false by done. exists s2. split; [done|]. split_and!; [|done..]. constructor; cbn [s2 s1 qnext set_qnext i_bufs].
    + rewrite <- app_assoc. by apply links_snoc.
    + apply NoDup_app. split_and!; [done| |apply NoDup_singleton]. intros x Hx Hx'%list_elem_of_singleton. congruence.
    + by rewrite !length_insert.
    + apply Hbufs'.
    + by destruct Q'.
Qed.

(** The interrupt handler without its lock and the wakeup. *)
Definition ideintr_run : M (ide D) unit :=
  r <- ideintr_take fuel ;; match r with None => ret tt | Some _ => ideintr_next fuel end.

(** The first request is complete and leaves. *)
Lemma take_ok s i Q m b : queued s (i :: Q) m -> i_bufs s !! i = Some b ->
  exists n d, ideintr_take fuel s = Ret (Some i) (set_i_bufs (<[i := served b m]> (i_bufs s)) (set_i_dev d (set_idequeue n s)))
    /\ ata d (disk_after b m) None /\ links (qnext s) n Q.
Proof.
  intros [Hl Hd Hlen Hbufs (b' & Hb' & Hdev)] Hb. rewrite Hb in Hb'. injection Hb' as <-. destruct Hl as (Hh & n & Hn & Hl). exists n.
  pose proof (lookup_lt_Some _ _ _ Hb) as Hlt. unfold ideintr_take. rewrite gets_bind, Hh.
  rewrite (bind_Ret (load_pp (Some i)) _ s n s) by (unfold load_pp; rewrite gets_bind; by rewrite Hn). rewrite modify_bind.
  rewrite (bind_Ret (buf_ i) _ _ b (set_idequeue n s)) by (unfold buf_; rewrite gets_bind; cbn [i_bufs set_idequeue]; by rewrite Hb).
  unfold started, served, disk_after, dirty in *. destruct (Z.land (b_flags b) B_DIRTY =? 0); cbn [negb] in *.
  - destruct (idewait_ok m _ true (set_idequeue n s) Hdev) as (d1 & Hrun & Hd1 & Hr1). destruct (data_ok _ _ _ _ Hd1 Hr1) as (d2 & Hins & Hd2).
    exists d2. split_and!; try done. rewrite (bind_Ret _ _ _ tt (set_i_bufs (<[i := set_b_data (m (b_dev b) (b_blockno b)) b]> (i_bufs s)) (set_i_dev d2 (set_idequeue n s)))).
    2:{ rewrite (bind_Ret _ _ _ _ _ Hrun). cbn [Z.geb Z.compare]. rewrite gets_bind. cbn [i_dev set_i_dev]. change (BSIZE / 4) with 128. by rewrite Hins. }
    rewrite (bind_Ret (buf_ i) _ _ (set_b_data (m (b_dev b) (b_blockno b)) b) (set_i_bufs (<[i := set_b_data (m (b_dev b) (b_blockno b)) b]> (i_bufs s)) (set_i_dev d2 (set_idequeue n s)))).
    2:{ unfold buf_. rewrite gets_bind. cbn [i_bufs set_i_bufs]. by rewrite list_lookup_insert_eq. }
    unfold put_buf. rewrite modify_bind. cbn [i_bufs set_i_bufs]. unfold set_i_bufs. cbn. by rewrite list_insert_insert_eq.
  - exists (i_dev s). split_and!; try done. rewrite ret_bind.
    rewrite (bind_Ret (buf_ i) _ _ b (set_idequeue n s)) by (unfold buf_; rewrite gets_bind; cbn [i_bufs set_idequeue]; by rewrite Hb). done.
Qed.

Lemma intr_ok s i Q m b : queued s (i :: Q) m -> i_bufs s !! i = Some b ->
  exists s', ideintr_run s = Ret tt s' /\ queued s' Q (disk_after b m)
    /\ i_bufs s' = <[i := served b m]> (i_bufs s) /\ havedisk1 s' = havedisk1 s.
Proof.
  intros Hs Hb. destruct (take_ok _ _ _ _ _ Hs Hb) as (n & d & Hrun & Hd & Hl). destruct Hs as [_ Hnd Hlen Hbufs _]. apply NoDup_cons in Hnd as [Hi Hnd].
  unfold ideintr_run. rewrite (bind_Ret _ _ _ _ _ Hrun). set (s1 := set_i_bufs _ _). unfold ideintr_next. rewrite gets_bind.
  change (idequeue s1) with n. assert (forall j, j ∈ Q -> i_bufs s1 !! j = i_bufs s !! j) as Hother.
  { intros j Hj. apply list_lookup_insert_ne. by intros ->. }
  assert (forall j, j ∈ Q -> exists b, i_bufs s1 !! j = Some b /\ request (havedisk1 s) b) as Hbufs1.
  { intros j Hj. rewrite Hother by done. apply Hbufs. by right. }
  destruct Q as [|j Q].
  - rewrite Hl. exists s1. split_and!; [done| |done|done]. constructor; try done. cbn. by rewrite length_insert.
  - destruct Hl as (-> & n' & Hn' & Hl). destruct (Hbufs1 j ltac:(left)) as (bj & Hbj & Hrj).
    destruct (idestart_ok s1 (disk_after b m) j bj (havedisk1 s) Hbj Hrj Hd) as (d' & Hrun' & Hst). rewrite Hrun'. eexists. split; [done|].
    split_and!; [|done|done]. constructor; try done.
    + split; [done|]. by exists n'.
    + cbn. by rewrite length_insert.
    + by exists bj.
Qed.

(** * Any order of requests and interrupts *)

Inductive ide_event := Submit (i : nat) | Intr.

Definition run_event (e : ide_event) : M (ide D) unit :=
  match e with
  | Submit i => iderw_check i ;; iderw_submit fuel i
  | Intr => ideintr_run
  end.

Fixpoint run_events (l : list ide_event) : M (ide D) unit :=
  match l with [] => ret tt | e :: l' => run_event e ;; run_events l' end.
End Requests.





(** A read that the disk reports as failed is completed all the same: the
    buffer is marked valid with the data it had before. *)
Theorem read_error_is_ignored {D} `{!Ata D} fuel (s s1 : ide D) i n b :
  idequeue s = Some i -> qnext s !! i = Some n -> i_bufs s !! i = Some b -> dirty b = false ->
  idewait fuel true (set_idequeue n s) = Ret (-1) s1 -> i_bufs s1 = i_bufs s ->
  exists s', ideintr_take fuel s = Ret (Some i) s'
    /\ i_bufs s' = <[i := set_b_flags (Z.land (Z.lor (b_flags b) B_VALID) (Z.lnot B_DIRTY)) b]> (i_bufs s).
Proof.
  intros Hh Hn Hb Hd Hw Hs1. unfold ideintr_take. rewrite gets_bind, Hh.
  rewrite (bind_Ret (load_pp (Some i)) _ s n s) by (unfold load_pp; rewrite gets_bind; by rewrite Hn). rewrite modify_bind.
  rewrite (bind_Ret (buf_ i) _ _ b (set_idequeue n s)) by (unfold buf_; rewrite gets_bind; cbn [i_bufs set_idequeue]; by rewrite Hb).
  unfold dirty in Hd. apply negb_false_iff in Hd. rewrite Hd.
  rewrite (bind_Ret _ _ _ tt s1) by (by rewrite (bind_Ret _ _ _ _ _ Hw)).
  rewrite (bind_Ret (buf_ i) _ _ b s1) by (unfold buf_; rewrite gets_bind, Hs1; by rewrite Hb).
  eexists. split; [done|]. cbn. by rewrite Hs1.
Qed.

(** * The memory disk *)

Lemma served_flags f : Z.lor (Z.land f (Z.lnot B_DIRTY)) B_VALID = Z.land (Z.lor f B_VALID) (Z.lnot B_DIRTY).
Proof. rewrite Z.land_lor_distr_l. f_equal. Qed.

Lemma clean_flags f : Z.land f B_DIRTY = 0 -> Z.lor f B_VALID = Z.land (Z.lor f B_VALID) (Z.lnot B_DIRTY).
Proof.
  intros H. rewrite <- served_flags. f_equal. apply Z.bits_inj'. intros k Hk. rewrite Z.land_spec, Z.lnot_spec by done.
  assert (Z.testbit (Z.land f B_DIRTY) k = false) as Hz by (rewrite H; apply Z.bits_0). rewrite Z.land_spec in Hz.
  by destruct (Z.testbit f k), (Z.testbit B_DIRTY k).
Qed.

(** The disk of memide.c holds the blocks of drive 1. *)
Definition holds_disk (t : bio) (m : contents) : Prop := forall n b, disk t !! n = Some b -> m 1 (Z.of_nat n) = b.

Lemma ide_buf_at_eq (t : bio) i b : bufs t !! i = Some b -> buf_at i t = Ret b t.
Proof. intros H. unfold buf_at. rewrite gets_bind. by rewrite H. Qed.

Lemma upd_buf_at (t : bio) i b f : bufs t !! i = Some b -> upd_buf i f t = Ret tt (set_bufs (<[i := f b]> (bufs t)) t).
Proof. intros H. unfold upd_buf. by rewrite (bind_Ret _ _ _ _ _ (ide_buf_at_eq _ _ _ H)). Qed.

Lemma memide_ok have1 (t : bio) i b m : bufs t !! i = Some b -> request have1 b -> b_dev b = 1 ->
  b_blockno b < Z.of_nat (length (disk t)) -> holds_disk t m ->
  exists t', Bio.iderw i t = Ret tt t' /\ bufs t' = <[i := served b m]> (bufs t)
    /\ disk t' = if dirty b then <[Z.to_nat (b_blockno b) := b_data b]> (disk t) else disk t.
Proof.
  intros Hb Hr Hdev Hn Hd. pose proof (lookup_lt_Some _ _ _ Hb) as Hlt. pose proof (rq_block _ _ Hr) as Hn0. unfold Bio.iderw.
  rewrite (bind_Ret _ _ t (negb (sl_locked (b_lock b) =? 0)) t).
  2:{ unfold holdingsleep, buf_lock. cbn [sl_get]. rewrite (bind_Ret _ _ t (b_lock b) t); [done|]. by rewrite (bind_Ret _ _ _ _ _ (ide_buf_at_eq _ _ _ Hb)). }
  destruct (Z.eqb_spec (sl_locked (b_lock b)) 0) as [E|_]; [by destruct (rq_locked _ _ Hr)|]. cbn [negb]. rewrite (bind_Ret _ _ _ _ _ (ide_buf_at_eq _ _ _ Hb)).
  destruct (Z.eqb_spec (Z.land (b_flags b) (Z.lor B_VALID B_DIRTY)) B_VALID) as [E|_]; [by destruct (rq_pending _ _ Hr)|].
  rewrite Hdev. change (negb (1 =? 1)) with false. cbv iota. rewrite gets_bind. destruct (Z.geb_spec (b_blockno b) (Z.of_nat (length (disk t)))); [lia|].
  unfold served, dirty. destruct (Z.eqb_spec (Z.land (b_flags b) B_DIRTY) 0) as [E|E]; cbn [negb].
  - destruct (arr_get_Some (disk t) (b_blockno b)) as [d Hget]; [lia|]. rewrite (bind_Ret _ _ t tt (set_bufs (<[i := set_b_data d b]> (bufs t)) t)).
    2:{ rewrite (bind_Ret _ _ t d t) by (unfold disk_at; rewrite gets_bind; by rewrite Hget). by apply upd_buf_at. }
    rewrite (upd_buf_at _ i (set_b_data d b)) by (by apply list_lookup_insert_eq). eexists. split; [done|]. cbn [bufs set_bufs disk].
    rewrite list_insert_insert_eq. split; [|done]. f_equal. unfold arr_get in Hget. destruct (Z.leb_spec 0 (b_blockno b)); [|lia].
    apply Hd in Hget. rewrite Z2Nat.id in Hget by lia. rewrite Hdev, Hget, <- clean_flags by done. done.
  - set (b1 := set_b_flags (Z.land (b_flags b) (Z.lnot B_DIRTY)) b).
    set (t1 := set_disk (<[Z.to_nat (b_blockno b) := b_data b]> (disk t)) (history t ++ [(b_blockno b, b_data b)]) (set_bufs (<[i := b1]> (bufs t)) t)).
    rewrite (bind_Ret _ _ t tt t1).
    2:{ rewrite (bind_Ret _ _ _ _ _ (upd_buf_at _ _ _ _ Hb)). unfold disk_put. rewrite gets_bind. cbn [disk set_bufs]. by rewrite arr_set_ok by lia. }
    rewrite (upd_buf_at t1 i b1) by (by apply list_lookup_insert_eq). eexists. split; [done|]. cbn [bufs set_bufs disk t1 set_disk].
    rewrite list_insert_insert_eq. split; [|done]. f_equal. unfold b1, set_b_flags. cbn. by rewrite served_flags.
Qed.

(** A request of an idle driver and the interrupt that completes it do to the
    buffer and to the disk what iderw of the memory disk does, so that the
    theorems on the buffer cache, the log and the file system, which are about
    the memory disk, describe the IDE disk as well. *)
Theorem ide_like_memide {D} `{!Ata D, !AtaLaws D} fuel (s : ide D) m (t : bio) i b :
  (patience <= fuel)%nat -> queued s [] m -> i_bufs s = bufs t -> bufs t !! i = Some b -> request (havedisk1 s) b ->
  b_dev b = 1 -> b_blockno b < Z.of_nat (length (disk t)) -> holds_disk t m ->
  exists s' t' m', run_events fuel [Submit i; Intr] s = Ret tt s' /\ Bio.iderw i t = Ret tt t'
    /\ queued s' [] m' /\ i_bufs s' = bufs t' /\ holds_disk t' m'.
Proof.
  intros Hf Hs Hbs Hb Hr Hdev Hn Hd. destruct (submit_ok fuel Hf s [] m i b Hs) as (s1 & Hrun1 & Hq1 & Hb1 & Hh1); [by rewrite Hbs|done|apply not_elem_of_nil|].
  destruct (intr_ok fuel Hf s1 i [] m b Hq1) as (s2 & Hrun2 & Hq2 & Hb2 & _); [by rewrite Hb1, Hbs|].
  destruct (memide_ok _ t i b m Hb Hr Hdev Hn Hd) as (t' & Ht' & Hbt & Hdt). exists s2, t', (disk_after b m). split_and!; try done.
  - cbn [run_events run_event]. by rewrite (bind_Ret _ _ _ _ _ Hrun1), (bind_Ret _ _ _ _ _ Hrun2).
  - by rewrite Hb2, Hb1, Hbs, Hbt.
  - pose proof (rq_block _ _ Hr) as Hn0. intros n d. rewrite Hdt. unfold disk_after. destruct (dirty b); [|apply Hd]. unfold cupd. rewrite Hdev. change (1 =? 1) with true. cbn [andb].
    destruct (Z.eqb_spec (Z.of_nat n) (b_blockno b)) as [Heq|Hne].
    + rewrite <- Heq in *. rewrite Nat2Z.id, list_lookup_insert_eq by lia. congruence.
    + rewrite list_lookup_insert_ne by lia. apply Hd.
Qed.

(** A disk: its registers, the command that waits for data, the blocks, and how
    far it is with its work. *)
Inductive phase := Working | Finishing | Waiting.
Record ata_disk := Disk { d_l0 : Z; d_l1 : Z; d_l2 : Z; d_l3 : Z; d_cmd : Z; d_blocks : contents; d_phase : phase }.

(** Busy for two polls after a command that reads and after the words of one
    that writes; while it is busy it takes no command, and has no data. *)
#[export] Instance ata_disk_ports : Ata ata_disk := {|
  inb := fun _ d =>
    let at_ := Disk (d_l0 d) (d_l1 d) (d_l2 d) (d_l3 d) (d_cmd d) (d_blocks d) in
    match d_phase d with
    | Working => (IDE_BSY, at_ Finishing)
    | Finishing => (IDE_BSY, at_ Waiting)
    | Waiting => (IDE_DRDY, at_ Waiting)
    end;
  outb := fun p v d =>
    match d_phase d with
    | Waiting =>
        if p =? 0x1f3 then Disk v (d_l1 d) (d_l2 d) (d_l3 d) (d_cmd d) (d_blocks d) Waiting
        else if p =? 0x1f4 then Disk (d_l0 d) v (d_l2 d) (d_l3 d) (d_cmd d) (d_blocks d) Waiting
        else if p =? 0x1f5 then Disk (d_l0 d) (d_l1 d) v (d_l3 d) (d_cmd d) (d_blocks d) Waiting
        else if p =? 0x1f6 then Disk (d_l0 d) (d_l1 d) (d_l2 d) v (d_cmd d) (d_blocks d) Waiting
        else if p =? 0x1f7 then Disk (d_l0 d) (d_l1 d) (d_l2 d) (d_l3 d) v (d_blocks d) (if v =? IDE_CMD_READ then Working else Waiting)
        else d
    | _ => d
    end;
  insl := fun _ _ d =>
    match d_phase d with
    | Waiting => (d_blocks d (drive (d_l3 d)) (lba (d_l0 d) (d_l1 d) (d_l2 d) (d_l3 d)), Disk (d_l0 d) (d_l1 d) (d_l2 d) (d_l3 d) 0 (d_blocks d) Waiting)
    | _ => ([], d)
    end;
  outsl := fun _ l d =>
    match d_phase d with
    | Waiting => Disk (d_l0 d) (d_l1 d) (d_l2 d) (d_l3 d) 0
        (if d_cmd d =? IDE_CMD_WRITE then cupd (d_blocks d) (drive (d_l3 d)) (lba (d_l0 d) (d_l1 d) (d_l2 d) (d_l3 d)) l else d_blocks d) Working
    | _ => d
    end
|}.

#[export] Program Instance ata_disk_laws : AtaLaws ata_disk := {|
  ata := fun d m c => d_blocks d = m /\ match c with
    | None => d_cmd d = 0
    | Some (drv, sec) => drive (d_l3 d) = drv /\ lba (d_l0 d) (d_l1 d) (d_l2 d) (d_l3 d) = sec
    end;
  ready := fun d => d_phase d = Waiting;
  polls := fun d => match d_phase d with Working => 2%nat | Finishing => 1%nat | Waiting => 0%nat end;
  patience := 3
|}.
Next Obligation. intros [? ? ? ? ? ? []]; cbn; lia. Qed.
Next Obligation.
  intros [? ? ? ? ? ? []] m c r d' H [= <- <-]; (split; [exact H|]); split; try done; (by left) || (right; split; [done|cbn; lia]).
Qed.
Next Obligation. intros [? ? ? ? ? ? []] m l0 l1 l2 l3 [H _] Hr _ _ _ _ _; done. Qed.
Next Obligation. intros [? ? ? ? ? ? []] m l0 l1 l2 l3 data [<- _] Hr _ _ _ _ _ _; done. Qed.
Next Obligation. intros [? ? ? ? ? ? []] m drv sec [<- [<- <-]] Hr; [done..|]. by eexists. Qed.

(** Two buffers, for block 3 of disk 1: one to be written, one to be read. *)
Definition wbuf : buf := Buf 6 1 3 (Sleeplock 1 2) 1 (replicate 512 7).
Definition rbuf : buf := Buf 0 1 3 (Sleeplock 1 2) 1 (replicate 512 0).
Definition ide1 : ide ata_disk := Ide [wbuf; rbuf] [None; None] None 1 (Disk 0 0 0 0 0 (fun _ _ => replicate 512 1) Waiting).

Lemma queued1 : queued ide1 [] (fun _ _ => replicate 512 1).
Proof. constructor; try done; [constructor|intros i Hi; by apply not_elem_of_nil in Hi]. Qed.

Lemma request_wbuf : request 1 wbuf.
Proof. constructor; cbn; unfold FSSIZE; done || lia. Qed.



Lemma ide_like_memide_witness :
  exists s' t' m', run_events 3 [Submit 0; Intr] ide1 = Ret tt s' /\ Bio.iderw 0 (Bio [wbuf; rbuf] [] (replicate 10 (replicate 512 1)) [] 2) = Ret tt t'
    /\ queued s' [] m' /\ i_bufs s' = bufs t' /\ holds_disk t' m'.
Proof.
  apply (ide_like_memide 3 ide1 (fun _ _ => replicate 512 1) (Bio [wbuf; rbuf] [] (replicate 10 (replicate 512 1)) [] 2) 0 wbuf).
  - cbn. lia.
  - exact queued1.
  - reflexivity.
  - reflexivity.
  - exact request_wbuf.
  - reflexivity.
  - cbn. lia.
  - intros n b Hb. by apply lookup_replicate in Hb as [-> _].
Defined.
