(* ===== verification/Programs.v ===== *)
(** Small user programs (src/xv6-public: wc.c, cat.c, echo.c, kill.c, ln.c,
    mkdir.c, rm.c, nice.c, ps.c, init.c, zombie.c).

    A program makes system calls; what they return depends on all the calls
    before.  So its state is the list of the calls made, and the kernel is a
    function from it to the result of the last call and the bytes read.  The
    exit of a program is the outcome [Panic "exit"]; the strings of argv are in
    the memory [m]. *)
From S2P Require Import Prelude CString Ulib.

Definition MOD : Z := 65.
Definition O_RDWR : Z := 2.

Inductive call :=
| Read (fd n : Z)
| Write_ (fd : Z) (bytes : list Z)
| Open (path mode : Z)
| Close (fd : Z)
| Kill (pid : Z)
| Link (old new : Z)
| Unlink (path : Z)
| Mkdir (path : Z)
| Mknod (path major minor : Z)
| Dup (fd : Z)
| Fork
| Wait
| Exec (path : list Z)
| Sleep (n : Z)
| Getpid
| Nice (pid priority : Z)
| Cps.

Notation H := (list call).
Notation P := (M (list call)).

Section Programs.
Variable sys : H -> Z * list Z.
Variable m : mem.
(** Bounds the length of the strings printf prints and atoi reads. *)
Variable fuel : nat.

Definition syscall_ (c : call) : P (Z * list Z) := fun h => Ret (sys (h ++ [c])) (h ++ [c]).
Definition sys_ (c : call) : P Z := r <- syscall_ c ;; ret r.1.
Definition exit_ {A} : P A := panic "exit".

(** printf calls write for every byte. *)
Fixpoint write_bytes (fd : Z) (l : list Z) : P unit :=
  match l with [] => ret tt | c :: l' => _ <- sys_ (Write_ fd [c]) ;; write_bytes fd l' end.

Definition fprintf (fd : Z) (fmt : list Z) (args : list Z) : P unit :=
  o <- get_opt "printf" (printf fuel m fmt (fun i => nth i args 0)) ;; write_bytes fd o.

Definition arg (argv : list Z) (i : nat) : Z := nth i argv 0.

(** * wc.c *)

(** Lines, words, characters, and whether inside a word. *)
Record counts := Counts { c_l : Z; c_w : Z; c_c : Z; c_in : bool }.

Definition incr (x : Z) : option Z := if int_ok (x + 1) then Some (x + 1) else None.

(** strchr(" \r\t\n\v", c), which does not find a NUL. *)
Definition blank_ (c : Z) : bool := bool_decide (c ∈ [32; 13; 9; 10; 11]).

Definition wc_char (s : counts) (c : Z) : option counts :=
  n ← incr (c_c s);
  l ← (if c =? 10 then incr (c_l s) else Some (c_l s));
  if blank_ c then Some (Counts l (c_w s) n false)
  else if c_in s then Some (Counts l (c_w s) n true)
  else w ← incr (c_w s); Some (Counts l w n true).

Fixpoint wc_chars (s : counts) (buf : list Z) : option counts :=
  match buf with [] => Some s | c :: buf' => s' ← wc_char s c; wc_chars s' buf' end.

(** The while loop, at most [n] reads; the value of the last read. *)
Fixpoint wc_loop (n : nat) (fd : Z) (s : counts) : P (Z * counts) :=
  match n with
  | O => fun h => OutOfFuel h
  | S n' =>
      r <- syscall_ (Read fd 512) ;;
      if r.1 >? 0 then
        s' <- get_opt "int" (wc_chars s (take (Z.to_nat r.1) r.2)) ;; wc_loop n' fd s'
      else ret (r.1, s)
  end.

Definition wc (n : nat) (fd name : Z) : P unit :=
  r <- wc_loop n fd (Counts 0 0 0 false) ;;
  if r.1 <? 0 then fprintf 1 (bytes "wc: read error" ++ [10]) [] ;; exit_ else
  fprintf 1 (bytes "%d %d %d %s" ++ [10]) [c_l r.2; c_w r.2; c_c r.2; name].

(** The loop of main; [files] are the arguments from the second on. *)
Fixpoint wc_files (n : nat) (files : list Z) : P unit :=
  match files with
  | [] => exit_
  | f :: files' =>
      fd <- sys_ (Open f 0) ;;
      if fd <? 0 then fprintf 1 (bytes "wc: cannot open %s" ++ [10]) [f] ;; exit_ else
      wc n fd f ;; _ <- sys_ (Close fd) ;; wc_files n files'
  end.

(** [empty] is the address of the empty string. *)
Definition wc_main (n : nat) (argv : list Z) (empty : Z) : P unit :=
  if (length argv <=? 1)%nat then wc n 0 empty ;; exit_ else wc_files n (tail argv).

(** * cat.c *)

Fixpoint cat_loop (n : nat) (fd : Z) : P Z :=
  match n with
  | O => fun h => OutOfFuel h
  | S n' =>
      r <- syscall_ (Read fd 512) ;;
      if r.1 >? 0 then
        w <- sys_ (Write_ 1 (take (Z.to_nat r.1) r.2)) ;;
        if negb (w =? r.1) then fprintf 1 (bytes "cat: write error" ++ [10]) [] ;; exit_ else cat_loop n' fd
      else ret r.1
  end.

Definition cat (n : nat) (fd : Z) : P unit :=
  r <- cat_loop n fd ;;
  if r <? 0 then fprintf 1 (bytes "cat: read error" ++ [10]) [] ;; exit_ else ret tt.

Fixpoint cat_files (n : nat) (files : list Z) : P unit :=
  match files with
  | [] => exit_
  | f :: files' =>
      fd <- sys_ (Open f 0) ;;
      if fd <? 0 then fprintf 1 (bytes "cat: cannot open %s" ++ [10]) [f] ;; exit_ else
      cat n fd ;; _ <- sys_ (Close fd) ;; cat_files n files'
  end.

Definition cat_main (n : nat) (argv : list Z) : P unit :=
  if (length argv <=? 1)%nat then cat n 0 ;; exit_ else cat_files n (tail argv).

(** * echo.c *)

(** [sp] and [nl] are the addresses of the strings with a blank and with a new
    line. *)
Fixpoint echo_args (sp nl : Z) (args : list Z) : P unit :=
  match args with
  | [] => exit_
  | a :: args' => fprintf 1 (bytes "%s%s") [a; if (0 <? length args')%nat then sp else nl] ;; echo_args sp nl args'
  end.

Definition echo_main (sp nl : Z) (argv : list Z) : P unit := echo_args sp nl (tail argv).

(** * kill.c, ln.c, mkdir.c, rm.c, ps.c, zombie.c *)

Definition usage (s : string) : P unit := fprintf 2 (bytes s ++ [10]) [] ;; exit_.

Fixpoint kill_args (args : list Z) : P unit :=
  match args with
  | [] => exit_
  | a :: args' => pid <- get_opt "atoi" (atoi fuel m a) ;; _ <- sys_ (Kill pid) ;; kill_args args'
  end.

Definition kill_main (argv : list Z) : P unit :=
  if (length argv <? 2)%nat then usage "usage: kill pid..." else kill_args (tail argv).

Definition ln_main (argv : list Z) : P unit :=
  if negb (length argv =? 3)%nat then usage "Usage: ln old new" else
  r <- sys_ (Link (arg argv 1) (arg argv 2)) ;;
  (if r <? 0 then fprintf 2 (bytes "link %s %s: failed" ++ [10]) [arg argv 1; arg argv 2] else ret tt) ;;
  exit_.

(** The loops of mkdir and rm: they stop at the first failure. *)
Fixpoint each_file (c : Z -> call) (msg : string) (files : list Z) : P unit :=
  match files with
  | [] => ret tt
  | f :: files' =>
      r <- sys_ (c f) ;;
      if r <? 0 then fprintf 2 (bytes msg ++ [10]) [f] else each_file c msg files'
  end.

Definition mkdir_main (argv : list Z) : P unit :=
  if (length argv <? 2)%nat then usage "Usage: mkdir files..." else
  each_file Mkdir "mkdir: %s failed to create" (tail argv) ;; exit_.

Definition rm_main (argv : list Z) : P unit :=
  if (length argv <? 2)%nat then usage "Usage: rm files..." else
  each_file Unlink "rm: %s failed to delete" (tail argv) ;; exit_.

Definition ps_main : P unit := _ <- sys_ Cps ;; exit_.

Definition zombie_main : P unit :=
  pid <- sys_ Fork ;; (if pid >? 0 then _ <- sys_ (Sleep 5) ;; ret tt else ret tt) ;; exit_.

(** * nice.c *)

(** The division and remainder of C truncate. *)
Definition nice_call (pid priority : Z) : P unit :=
  res <- sys_ (Nice pid priority) ;;
  fprintf 1 (bytes "%d %d" ++ [10]) [Z.quot res MOD; Z.rem res MOD] ;; exit_.

Definition nice_main (argv : list Z) : P unit :=
  if (length argv <? 2)%nat || (3 <? length argv)%nat then usage "Usage: nice pid priority" else
  if (length argv =? 2)%nat then
    priority <- get_opt "atoi" (atoi fuel m (arg argv 1)) ;;
    if (priority <? 0) || (priority >? 5) then usage "Invalid priority (0-5)!" else
    current_pid <- sys_ Getpid ;;
    nice_call current_pid priority
  else
    priority <- get_opt "atoi" (atoi fuel m (arg argv 2)) ;;
    if (priority <? 0) || (priority >? 5) then usage "Invalid priority (0-5)!" else
    pid <- get_opt "atoi" (atoi fuel m (arg argv 1)) ;;
    nice_call pid priority.

(** * init.c *)

(** [while((wpid=wait()) >= 0 && wpid != pid)] *)
Fixpoint init_wait (n : nat) (pid : Z) : P unit :=
  match n with
  | O => fun h => OutOfFuel h
  | S n' =>
      wpid <- sys_ Wait ;;
      if (wpid >=? 0) && negb (wpid =? pid) then fprintf 1 (bytes "zombie!" ++ [10]) [] ;; init_wait n' pid else ret tt
  end.

(** [n] rounds of the endless loop. *)
Fixpoint init_loop (n w : nat) : P unit :=
  match n with
  | O => fun h => OutOfFuel h
  | S n' =>
      fprintf 1 (bytes "init: starting sh" ++ [10]) [] ;;
      pid <- sys_ Fork ;;
      if pid <? 0 then fprintf 1 (bytes "init: fork failed" ++ [10]) [] ;; exit_ else
      if pid =? 0 then
        _ <- sys_ (Exec (bytes "sh")) ;; fprintf 1 (bytes "init: exec sh failed" ++ [10]) [] ;; exit_
      else init_wait w pid ;; init_loop n' w
  end.

(** [console] is the address of the name of the console. *)
Definition init_main (n w : nat) (console : Z) : P unit :=
  fd <- sys_ (Open console O_RDWR) ;;
  (if fd <? 0 then _ <- sys_ (Mknod console 1 1) ;; _ <- sys_ (Open console O_RDWR) ;; ret tt else ret tt) ;;
  _ <- sys_ (Dup 0) ;;
  _ <- sys_ (Dup 0) ;;
  init_loop n w.
End Programs.

(** * What they do *)

(** The bytes written to a descriptor. *)
Definition written (fd : Z) (h : H) : list Z :=
  concat (map (fun c => match c with Write_ fd' l => if fd' =? fd then l else [] | _ => [] end) h).

Lemma calls_written_app fd h h' : written fd (h ++ h') = written fd h ++ written fd h'.
Proof. unfold written. by rewrite map_app, concat_app. Qed.

Lemma write_bytes_ok sys fd l : forall h, write_bytes sys fd l h = Ret tt (h ++ map (fun c => Write_ fd [c]) l).
Proof.
  induction l as [|c l IH]; intros h; [by rewrite app_nil_r|]. cbn [write_bytes map]. unfold sys_, syscall_, bind, ret. cbn.
  rewrite IH. by rewrite <- app_assoc.
Qed.

Lemma written_bytes fd l : written fd (map (fun c => Write_ fd [c]) l) = l.
Proof. induction l as [|c l IH]; [done|]. cbn. rewrite Z.eqb_refl. cbn. by f_equal. Qed.

(** printf of pieces, see [Ulib]. *)
Lemma fprintf_pieces sys m fuel fd ps h : Forall (piece_ok m) ps -> Forall (fun p => (piece_len p < fuel)%nat) ps ->
  exists os, Forall2 piece_out ps os
    /\ fprintf sys m fuel fd (concat (map piece_fmt ps)) (concat (map piece_args ps)) h = Ret tt (h ++ map (fun c => Write_ fd [c]) (concat os)).
Proof.
  intros Hok Hlen. destruct (printf_prints_pieces fuel m ps (fun i => nth i (concat (map piece_args ps)) 0) Hok Hlen) as (os & Hos & Hp).
  { intros j a Hj. apply nth_lookup_Some with (d := 0) in Hj. done. }
  exists os. split; [done|]. unfold fprintf. rewrite Hp. cbn [get_opt]. rewrite ret_bind. apply write_bytes_ok.
Qed.

Lemma fprintf_lit sys m fuel fd l args h : Forall (fun c => c <> 37) l ->
  fprintf sys m fuel fd l args h = Ret tt (h ++ map (fun c => Write_ fd [c]) l).
Proof.
  intros Hl. unfold fprintf. assert (printf fuel m l (fun i => nth i args 0) = Some l) as ->; [|cbn [get_opt]; rewrite ret_bind; apply write_bytes_ok].
  unfold printf. induction Hl as [|c l Hc _ IH]; [done|]. cbn [printf_loop printf_char negb]. destruct (Z.eqb_spec c 37); [done|]. cbn [mbind option_bind]. by rewrite IH.
Qed.

Lemma written_other fd fd' l : fd' <> fd -> written fd (map (fun c => Write_ fd' [c]) l) = [].
Proof. intros Hne. induction l as [|c l IH]; [done|]. cbn. destruct (Z.eqb_spec fd' fd); [done|]. exact IH. Qed.

(** ** wc *)

Definition lines (text : list Z) : Z := Z.of_nat (length (filter (fun c => c = 10) text)).

Definition starts_word (text : list Z) : bool := match text with [] => false | c :: _ => negb (blank_ c) end.

(** The words of a text: the longest runs without blanks. *)
Fixpoint words_of (text : list Z) : list (list Z) :=
  match text with
  | [] => []
  | c :: t =>
      let ws := words_of t in
      if blank_ c then ws
      else match starts_word t, ws with
           | true, w :: ws => (c :: w) :: ws
           | _, ws => [c] :: ws
           end
  end.

Lemma words_cons c t : length (words_of (c :: t)) =
  (length (words_of t) + (if blank_ c then 0 else if starts_word t then 0 else 1))%nat.
Proof.
  cbn [words_of]. destruct (blank_ c); [lia|]. destruct (starts_word t) eqn:Hs; [|cbn; lia].
  destruct t as [|c' t]; [done|]. cbn [starts_word words_of] in *. apply negb_true_iff in Hs. rewrite Hs.
  destruct (starts_word t), (words_of t); cbn; lia.
Qed.

Lemma incr_ok x : 0 <= x < INT_MAX -> incr x = Some (x + 1).
Proof. intros Hx. unfold incr. by rewrite (proj2 (int_ok_iff (x + 1))) by (unfold INT_MIN; lia). Qed.

(** The counts over a piece of the text. *)
Lemma wc_chars_ok text : forall l w n b, 0 <= l -> 0 <= w -> 0 <= n -> l <= n -> w <= n -> n + Z.of_nat (length text) <= INT_MAX ->
  wc_chars (Counts l w n b) text = Some (Counts (l + lines text)
    (w + Z.of_nat (length (words_of text)) - (if b && starts_word text then 1 else 0)) (n + Z.of_nat (length text))
    (match last text with Some c => negb (blank_ c) | None => b end)).
Proof.
  induction text as [|c t IH]; intros l w n b Hl Hw Hn Hln Hwn Hmax; cbn [wc_chars].
  - rewrite andb_false_r. change (lines []) with 0. cbn [words_of length last]. f_equal. f_equal; lia || done.
  - cbn [length] in Hmax. unfold wc_char. cbn [c_c c_l c_w c_in]. rewrite (incr_ok n) by lia. cbn [mbind option_bind].
    assert ((if c =? 10 then incr l else Some l) = Some (l + (if c =? 10 then 1 else 0))) as ->.
    { destruct (c =? 10); [apply incr_ok; lia|f_equal; lia]. }
    assert (lines (c :: t) = (if c =? 10 then 1 else 0) + lines t) as Hlines.
    { unfold lines. rewrite filter_cons. destruct (Z.eqb_spec c 10), (decide (c = 10)); try done; cbn [length]; lia. }
    assert (starts_word (c :: t) = negb (blank_ c)) as Hst by done. rewrite words_cons, Hlines, Hst. cbn [mbind option_bind length].
    rewrite last_cons. destruct (blank_ c) eqn:Hb; cbn [negb mbind option_bind]; [|destruct b; cbn [mbind option_bind]].
    + rewrite IH by (try (destruct (c =? 10)); lia). rewrite andb_false_r. cbn [andb]. f_equal. f_equal; [lia|lia|lia|].
      destruct (last t); [done|]. by rewrite Hb.
    + rewrite IH by (try (destruct (c =? 10)); lia). cbn [andb]. f_equal. f_equal; [lia|destruct (starts_word t); lia|lia|].
      destruct (last t); [done|]. by rewrite Hb.
    + rewrite incr_ok by lia. cbn [mbind option_bind]. rewrite IH by (try (destruct (c =? 10)); lia). cbn [andb]. f_equal.
      f_equal; [lia|destruct (starts_word t); lia|lia|]. destruct (last t); [done|]. by rewrite Hb.
Qed.

Lemma wc_chars_app s l l' : wc_chars s (l ++ l') = wc_chars s l ≫= fun s' => wc_chars s' l'.
Proof. revert s. induction l as [|c l IH]; intros s; [done|]. cbn [app wc_chars]. destruct (wc_char s c); [|done]. cbn. apply IH. Qed.

(** After the calls [h], the reads of [fd] give [chunks] and then the end. *)
Fixpoint gives (sys : H -> Z * list Z) (fd : Z) (h : H) (chunks : list (list Z)) : Prop :=
  let h' := h ++ [Read fd 512] in
  match chunks with
  | [] => (sys h').1 = 0
  | c :: cs => sys h' = (Z.of_nat (length c), c) /\ c <> [] /\ gives sys fd h' cs
  end.

Lemma wc_loop_ok sys fd chunks : forall n s h s', gives sys fd h chunks -> (length chunks < n)%nat ->
  wc_chars s (concat chunks) = Some s' ->
  wc_loop sys n fd s h = Ret (0, s') (h ++ replicate (S (length chunks)) (Read fd 512)).
Proof.
  induction chunks as [|c cs IH]; intros n s h s' Hg Hn Hs; (destruct n as [|n]; [simpl in Hn; lia|]); cbn [wc_loop concat gives] in *;
    unfold syscall_, bind at 1; cbn [obind].
  - rewrite Hg. cbn. by injection Hs as <-.
  - destruct Hg as (Hr & Hne & Hg). rewrite Hr. cbn [fst snd]. assert (0 < length c)%nat by (destruct c; [done|simpl; lia]).
    destruct (Z.gtb_spec (Z.of_nat (length c)) 0); [|lia]. rewrite Nat2Z.id, firstn_all. rewrite wc_chars_app in Hs.
    destruct (wc_chars s c) as [s1|] eqn:E; [|done]. cbn in Hs. cbn [get_opt]. rewrite ret_bind.
    rewrite (IH n s1 (h ++ [Read fd 512]) s' Hg); [|simpl in Hn; lia|done]. rewrite <- app_assoc. done.
Qed.

(** Wc prints the number of lines, words and characters of its input, where
    a word is a longest run of characters other than blanks, however the
    input is divided into the reads, and its name. *)
Theorem wc_counts_words sys m fuel n fd name nm chunks h :
  gives sys fd h chunks -> (length chunks < n)%nat -> Z.of_nat (length (concat chunks)) <= INT_MAX ->
  name <> 0 -> string_at m name nm -> (length nm < fuel)%nat ->
  let text := concat chunks in
  exists h' ol ow oc, wc sys m fuel n fd name h = Ret tt h'
    /\ written 1 h' = written 1 h ++ ol ++ [32] ++ ow ++ [32] ++ oc ++ [32] ++ nm ++ [10]
    /\ decimal (lines text) ol /\ decimal (Z.of_nat (length (words_of text))) ow /\ decimal (Z.of_nat (length text)) oc.
Proof.
  intros Hg Hn Hmax Hname Hnm Hfuel text. unfold wc.
  pose proof (wc_chars_ok text 0 0 0 false ltac:(lia) ltac:(lia) ltac:(lia) ltac:(lia) ltac:(lia) ltac:(unfold text; lia)) as Hw.
  rewrite (bind_Ret _ _ _ _ _ (wc_loop_ok sys fd chunks n _ h _ Hg Hn Hw)). cbn [fst snd c_l c_w c_c andb].
  rewrite !Z.add_0_l, Z.sub_0_r. change (0 <? 0) with false. cbv iota.
  set (h1 := h ++ replicate (S (length chunks)) (Read fd 512)).
  assert (forall x, 0 <= x <= Z.of_nat (length text) -> s32 x = x) as Hs32 by (intros x Hx; apply s32_id; unfold INT_MIN; unfold text in *; lia).
  assert (lines text <= Z.of_nat (length text)) as Hl by (unfold lines; pose proof (length_filter (fun c => c = 10) text); lia).
  assert (length (words_of text) <= length text)%nat as Hwd.
  { clear. induction text as [|c t IH]; [done|]. rewrite words_cons. cbn [length]. destruct (blank_ c), (starts_word t); lia. }
  destruct (fprintf_pieces sys m fuel 1 [Dec (lines text); Lit 32; Dec (Z.of_nat (length (words_of text))); Lit 32; Dec (Z.of_nat (length text)); Lit 32; Str name nm; Lit 10] h1)
    as (os & Hos & Hp).
  - rewrite !Forall_cons, Forall_nil. cbn. split_and!; done.
  - rewrite !Forall_cons, Forall_nil. cbn. split_and!; done || lia.
  - inversion Hos as [|? ol ? os1 Hol Hos1]; subst. inversion Hos1 as [|? o1 ? os2 Ho1 Hos2]; subst. inversion Hos2 as [|? ow ? os3 How Hos3]; subst.
    inversion Hos3 as [|? o3 ? os4 Ho3 Hos4]; subst. inversion Hos4 as [|? oc ? os5 Hoc Hos5]; subst. inversion Hos5 as [|? o5 ? os6 Ho5 Hos6]; subst.
    inversion Hos6 as [|? on ? os7 Hon Hos7]; subst. inversion Hos7 as [|? o7 ? os8 Ho7 Hos8]; subst. inversion Hos8; subst.
    cbn [piece_out] in *. subst. destruct (Z.eqb_spec name 0); [done|]. subst. eexists _, ol, ow, oc. split; [exact Hp|].
    rewrite Hs32 in Hol, How, Hoc by (unfold lines in *; lia). split_and!; try done.
    unfold h1. rewrite !calls_written_app, written_bytes. assert (written 1 (replicate (S (length chunks)) (Read fd 512)) = []) as ->.
    { clear. induction (length chunks) as [|k IH]; [done|]. cbn in *. done. }
    rewrite app_nil_r. cbn [concat]. rewrite app_nil_r. done.
Qed.

Lemma wc_counts_words_witness :
  let sys := fun h : H => if (length h =? 1)%nat then (5, [104; 105; 32; 120; 10]) else if (length h =? 2)%nat then (1, [121]) else (0, []) in
  exists h' ol ow oc, wc sys (fun _ => 0) 1 3 0 100 [] = Ret tt h'
    /\ written 1 h' = ol ++ [32] ++ ow ++ [32] ++ oc ++ [32] ++ [] ++ [10]
    /\ decimal 1 ol /\ decimal 3 ow /\ decimal 6 oc.
Proof.
  intros sys. apply (wc_counts_words sys (fun _ => 0) 1 3 0 100 [] [[104; 105; 32; 120; 10]; [121]] []).
  - repeat split; discriminate.
  - simpl. lia.
  - unfold INT_MAX. simpl. lia.
  - lia.
  - split; [constructor|]. split; [|reflexivity]. intros i b Hi. discriminate.
  - simpl. lia.
Defined.

(** ** cat *)

(** The reads give [chunks], and every chunk is written as a whole. *)
Fixpoint passes (sys : H -> Z * list Z) (fd : Z) (h : H) (chunks : list (list Z)) : Prop :=
  match chunks with
  | [] => (sys (h ++ [Read fd 512])).1 = 0
  | c :: cs =>
      sys (h ++ [Read fd 512]) = (Z.of_nat (length c), c) /\ c <> []
      /\ (sys (h ++ [Read fd 512; Write_ 1 c])).1 = Z.of_nat (length c) /\ passes sys fd (h ++ [Read fd 512; Write_ 1 c]) cs
  end.

(** Cat writes what it reads. *)
Theorem cat_copies sys m fuel fd chunks : forall n h, passes sys fd h chunks -> (length chunks < n)%nat ->
  exists h', cat sys m fuel n fd h = Ret tt h' /\ written 1 h' = written 1 h ++ concat chunks.
Proof.
  assert (forall n h, passes sys fd h chunks -> (length chunks < n)%nat ->
    exists h', cat_loop sys m fuel n fd h = Ret 0 h' /\ written 1 h' = written 1 h ++ concat chunks) as Hloop.
  { induction chunks as [|c cs IH]; intros n h Hp Hn; (destruct n as [|n]; [simpl in Hn; lia|]); cbn [cat_loop concat passes] in *;
      unfold syscall_, bind at 1; cbn [obind].
    - rewrite Hp. exists (h ++ [Read fd 512]). split; [done|]. rewrite calls_written_app. done.
    - destruct Hp as (Hr & Hne & Hw & Hp). rewrite Hr. cbn [fst snd]. assert (0 < length c)%nat by (destruct c; [done|simpl; lia]).
      destruct (Z.gtb_spec (Z.of_nat (length c)) 0); [|lia]. rewrite Nat2Z.id, firstn_all. unfold sys_, syscall_, bind, ret. cbn [obind].
      rewrite <- app_assoc. cbn [app]. rewrite Hw, Z.eqb_refl. cbn [negb]. destruct (IH n _ Hp) as (h' & Hrun & Hout); [simpl in Hn; lia|].
      exists h'. split; [exact Hrun|]. rewrite Hout, calls_written_app. cbn. by rewrite app_nil_r, <- app_assoc. }
  intros n h Hp Hn. destruct (Hloop n h Hp Hn) as (h' & Hrun & Hout). exists h'. split; [|done]. unfold cat. by rewrite (bind_Ret _ _ _ _ _ Hrun).
Qed.

(** ** nice *)

Lemma nice_call_ok sys m fuel pid priority p old h : (0 < fuel)%nat -> 0 <= p -> 0 <= old < MOD -> p * MOD + old <= INT_MAX ->
  (sys (h ++ [Nice pid priority])).1 = p * MOD + old ->
  exists h' op oo, nice_call sys m fuel pid priority h = Panic "exit" h'
    /\ written 1 h' = written 1 h ++ op ++ [32] ++ oo ++ [10] /\ decimal p op /\ decimal old oo.
Proof.
  intros Hfuel Hp Ho Hmax Hs. unfold nice_call, MOD, sys_ at 1, syscall_, bind at 1, bind at 1, ret at 1. cbn [obind]. unfold MOD in *. rewrite Hs.
  assert (Z.quot (p * 65 + old) 65 = p) as -> by (rewrite Z.quot_div_nonneg, Z.div_add_l, Z.div_small; lia).
  assert (Z.rem (p * 65 + old) 65 = old) as -> by (rewrite Z.rem_mod_nonneg, Z.add_comm, Z.mod_add, Z.mod_small; lia).
  destruct (fprintf_pieces sys m fuel 1 [Dec p; Lit 32; Dec old; Lit 10] (h ++ [Nice pid priority])) as (os & Hos & Hrun).
  - rewrite !Forall_cons, Forall_nil. cbn. split_and!; done.
  - rewrite !Forall_cons, Forall_nil. cbn. split_and!; done || lia.
  - apply Forall2_cons_inv_l in Hos as (op & ? & Hop & Hos & ->). apply Forall2_cons_inv_l in Hos as (o1 & ? & Ho1 & Hos & ->).
    apply Forall2_cons_inv_l in Hos as (oo & ? & Hoo & Hos & ->). apply Forall2_cons_inv_l in Hos as (o2 & ? & Ho2 & Hos & ->).
    apply Forall2_nil_inv_l in Hos as ->. cbn [piece_out] in *. subst. rewrite s32_id in Hop, Hoo by (unfold INT_MIN, INT_MAX in *; lia).
    eexists _, op, oo. split; [unfold bind; cbn [piece_fmt concat map app piece_args] in Hrun; change (bytes "%d %d" ++ [10]) with [37; 100; 32; 37; 100; 10]; rewrite Hrun; reflexivity|].
    split_and!; [|done..]. rewrite !calls_written_app, written_bytes. cbn. by rewrite !app_nil_r.
Qed.

(** The nice command with a process and a priority asks the kernel for that
    change and prints the two numbers the kernel's result is made of: the
    process and its old priority; it asks for nothing if the priority is not
    between 0 and 5. *)
Theorem nice_prints_pid_and_old sys m fuel a0 a1 a2 pid priority old h : (0 < fuel)%nat ->
  atoi fuel m a1 = Some pid -> atoi fuel m a2 = Some priority -> 0 <= pid -> 0 <= old < MOD -> pid * MOD + old <= INT_MAX ->
  (sys (h ++ [Nice pid priority])).1 = pid * MOD + old ->
  exists h', nice_main sys m fuel [a0; a1; a2] h = Panic "exit" h' /\
    (if decide (0 <= priority <= 5)
     then exists op oo, written 1 h' = written 1 h ++ op ++ [32] ++ oo ++ [10] /\ decimal pid op /\ decimal old oo
     else written 1 h' = written 1 h /\ forall p q, h' !! length h <> Some (Nice p q)).
Proof.
  intros Hfuel H1 H2 Hp Ho Hmax Hs. unfold nice_main. cbn [length Nat.ltb Nat.leb Nat.eqb orb arg nth]. rewrite H2. cbn [get_opt]. rewrite ret_bind.
  destruct (decide (0 <= priority <= 5)) as [Hr|Hr].
  - destruct (Z.ltb_spec priority 0), (Z.gtb_spec priority 5); try lia. cbn [orb]. rewrite H1. cbn [get_opt]. rewrite ret_bind.
    destruct (nice_call_ok sys m fuel pid priority pid old h Hfuel Hp Ho Hmax Hs) as (h' & op & oo & Hrun & Hw & Hop & Hoo).
    exists h'. split; [done|]. by exists op, oo.
  - assert ((priority <? 0) || (priority >? 5) = true) as -> by (destruct (Z.ltb_spec priority 0), (Z.gtb_spec priority 5); done || lia).
    eexists. split; [unfold usage, bind; rewrite fprintf_lit by (by repeat constructor); reflexivity|]. split.
    + rewrite calls_written_app, written_other by done. apply app_nil_r.
    + intros p q. rewrite lookup_app_r, Nat.sub_diag by lia. discriminate.
Qed.

(** nice 7 3 *)
Lemma nice_prints_pid_and_old_witness :
  let m := fun a => if a =? 10 then 55 else if a =? 20 then 51 else 0 in
  let sys := fun _ : H => (7 * MOD + 5, []) in
  exists h', nice_main sys m 2 [0; 10; 20] [] = Panic "exit" h' /\
    (if decide (0 <= 3 <= 5)
     then exists op oo, written 1 h' = written 1 [] ++ op ++ [32] ++ oo ++ [10] /\ decimal 7 op /\ decimal 5 oo
     else written 1 h' = written 1 [] /\ forall p q, h' !! length ([] : H) <> Some (Nice p q)).
Proof.
  intros m sys. apply (nice_prints_pid_and_old sys m 2 0 10 20 7 3 5 []); unfold MOD, INT_MAX; try lia; reflexivity.
Defined.
