(* ===== verification/Mkfs.v ===== *)
(** The builder of the file system image (src/xv6-public/mkfs.c).

    The image is the list of its blocks; the host is little endian, so that the
    conversions to Intel byte order change nothing.  A failed assert or system
    call of the host ends the program.  A struct dinode is an inode of fs.c of
    which only the fields on disk are used.  A file to be copied is its name
    and what the reads of it return. *)
From S2P Require Import Prelude CString Bytes Bio Log Fs.

Definition NINODES : Z := 200.
Definition FSSIZE : Z := 1000.
Definition nbitmap : Z := FSSIZE / (BSIZE * 8) + 1.
Definition ninodeblocks : Z := NINODES / IPB + 1.
Definition nlog : Z := LOGSIZE.
Definition nmeta : Z := 2 + nlog + ninodeblocks + nbitmap.
Definition nblocks : Z := FSSIZE - nmeta.

(** The bytes of [x], put together again by the host. *)
Definition xshort (x : Z) : Z := u8 x + 256 * u8 (Z.shiftr x 8).
Definition xint (x : Z) : Z :=
  u8 x + 256 * u8 (Z.shiftr x 8) + 65536 * u8 (Z.shiftr x 16) + 16777216 * u8 (Z.shiftr x 24).

Record mk := Mk { img : list block; freeinode : Z; freeblock : Z; sb_ : superblock }.
Definition set_img v s := Mk v (freeinode s) (freeblock s) (sb_ s).
Definition set_freeinode v s := Mk (img s) v (freeblock s) (sb_ s).
Definition set_freeblock v s := Mk (img s) (freeinode s) v (sb_ s).
Definition set_sb v s := Mk (img s) (freeinode s) (freeblock s) v.

Notation K := (M mk).

Definition zeroes : block := replicate (Z.to_nat BSIZE) 0.

(** Writing behind the end of the file extends it. *)
Definition wsect (sec : Z) (buf : block) : K unit :=
  modify (fun s =>
    set_img (if sec <? Z.of_nat (length (img s)) then <[Z.to_nat sec := buf]> (img s)
             else img s ++ replicate (Z.to_nat sec - length (img s)) zeroes ++ [buf]) s).

Definition rsect (sec : Z) : K block :=
  s <- gets (fun s => s) ;;
  match arr_get (img s) sec with Some d => ret d | None => panic "read" end.

Definition zero_din : inode := Inode 0 0 0 (Sleeplock 0 0) 0 0 0 0 0 0 (replicate 13 0).

Definition winode (inum : Z) (ip : inode) : K unit :=
  s <- gets (fun s => s) ;;
  let bn := IBLOCK inum (sb_ s) in
  buf <- rsect bn ;;
  buf <- get_opt "dinode" (put_dinode buf (off_dinode inum) ip) ;;
  wsect bn buf.

Definition rinode (inum : Z) : K inode :=
  s <- gets (fun s => s) ;;
  buf <- rsect (IBLOCK inum (sb_ s)) ;;
  get_opt "dinode" (get_dinode buf (off_dinode inum) zero_din).

Definition ialloc (type : Z) : K Z :=
  s <- gets (fun s => s) ;;
  let inum := freeinode s in
  modify (set_freeinode (u32 (freeinode s + 1))) ;;
  winode inum (set_i_size (xint 0) (set_i_nlink (xshort 1) (set_i_type (xshort type) zero_din))) ;;
  ret inum.

(** The loop of balloc, from bit [i] on. *)
Fixpoint balloc_loop (n : nat) (i : Z) (buf : block) : option block :=
  match n with
  | O => Some buf
  | S n' => x ← arr_get buf (i / 8); buf' ← arr_set buf (i / 8) (u8 (Z.lor x (Z.shiftl 1 (i mod 8)))); balloc_loop n' (i + 1) buf'
  end.

Definition balloc (used : Z) : K unit :=
  if negb (used <? BSIZE * 8) then panic "assert" else
  buf <- get_opt "bitmap" (balloc_loop (Z.to_nat used) 0 zeroes) ;;
  s <- gets (fun s => s) ;;
  wsect (sb_bmapstart (sb_ s)) buf.

(** [freeblock++] *)
Definition next_block : K Z :=
  s <- gets (fun s => s) ;;
  modify (set_freeblock (u32 (freeblock s + 1))) ;;
  ret (xint (freeblock s)).

(** Entry [fbn - NDIRECT] of the indirect block of [din], set if it is not. *)
Definition iappend_entry (din : inode) (fbn : Z) : K Z :=
  a <- get_opt "addrs" (arr_get (i_addrs din) NDIRECT) ;;
  indirect <- rsect (xint a) ;;
  let o := (4 * Z.to_nat (fbn - NDIRECT))%nat in
  e <- get_opt "indirect" (get_uint indirect o) ;;
  if e =? 0 then
    x <- next_block ;;
    indirect <- get_opt "indirect" (put_int indirect o x) ;;
    wsect (xint a) indirect ;;
    ret (xint x)
  else ret (xint e).

(** The address of block [fbn] of [din], which gets one if it has none. *)
Definition iappend_block (din : inode) (fbn : Z) : K (Z * inode) :=
  if fbn <? NDIRECT then
    a <- get_opt "addrs" (arr_get (i_addrs din) fbn) ;;
    if xint a =? 0 then
      x <- next_block ;;
      l <- get_opt "addrs" (arr_set (i_addrs din) fbn x) ;;
      ret (xint x, set_i_addrs l din)
    else ret (xint a, din)
  else
    a <- get_opt "addrs" (arr_get (i_addrs din) NDIRECT) ;;
    din <- (if xint a =? 0 then
              x <- next_block ;;
              l <- get_opt "addrs" (arr_set (i_addrs din) NDIRECT x) ;;
              ret (set_i_addrs l din)
            else ret din) ;;
    x <- iappend_entry din fbn ;;
    ret (x, din).

(** bcopy(p, buf + o, length of p) *)
Definition bcopy (buf : block) (o : Z) (p : list Z) : block :=
  take (Z.to_nat o) buf ++ p ++ drop (Z.to_nat o + length p) buf.

(** The while loop of iappend: [p] is what is left, [n] of the code its length. *)
Fixpoint iappend_loop (fuel : nat) (p : list Z) (off : Z) (din : inode) : K (Z * inode) :=
  match fuel with
  | O => fun s => OutOfFuel s
  | S f =>
      if (0 <? length p)%nat then
        let fbn := off / BSIZE in
        if negb (fbn <? MAXFILE) then panic "assert" else
        r <- iappend_block din fbn ;;
        let '(x, din) := r in
        let n1 := Z.min (Z.of_nat (length p)) ((fbn + 1) * BSIZE - off) in
        buf <- rsect x ;;
        wsect x (bcopy buf (off - fbn * BSIZE) (take (Z.to_nat n1) p)) ;;
        iappend_loop f (drop (Z.to_nat n1) p) (u32 (off + n1)) din
      else ret (off, din)
  end.

Definition iappend (inum : Z) (p : list Z) : K unit :=
  din <- rinode inum ;;
  r <- iappend_loop (S (length p)) p (xint (i_size din)) din ;;
  let '(off, din) := r in
  winode inum (set_i_size (xint off) din).

(** A struct dirent with the name in 14 bytes, padded with zeros or cut. *)
Definition dirent (inum : Z) (name : list Z) : list Z :=
  [u8 (xshort inum); u8 (xshort inum / 256)] ++ take (Z.to_nat DIRSIZ) (name ++ replicate (Z.to_nat DIRSIZ) 0).

Fixpoint append_all (inum : Z) (chunks : list (list Z)) : K unit :=
  match chunks with [] => ret tt | c :: cs => iappend inum c ;; append_all inum cs end.

(** The name without a leading underscore. *)
Definition file_name (arg : list Z) : list Z :=
  match arg with c :: n => if c =? 95 then n else arg | [] => [] end.

(** The body of the loop over the arguments. *)
Definition add_file (rootino : Z) (f : list Z * list (list Z)) : K unit :=
  if bool_decide (47 ∈ f.1) then panic "assert" else
  inum <- ialloc T_FILE ;;
  iappend rootino (dirent inum (file_name f.1)) ;;
  append_all inum f.2.

Fixpoint add_files (rootino : Z) (fs : list (list Z * list (list Z))) : K unit :=
  match fs with [] => ret tt | f :: fs' => add_file rootino f ;; add_files rootino fs' end.

(** The loop that writes all the blocks. *)
Fixpoint wzero (n : nat) (i : Z) : K unit :=
  match n with O => ret tt | S n' => wsect i zeroes ;; wzero n' (i + 1) end.

Definition mksb : superblock :=
  Superblock (xint FSSIZE) (xint nblocks) (xint NINODES) (xint nlog) (xint 2) (xint (2 + nlog)) (xint (2 + nlog + ninodeblocks)).

Definition sb_block (sb : superblock) : block :=
  put_uints zeroes 0 [sb_size sb; sb_nblocks sb; sb_ninodes sb; sb_nlog sb; sb_logstart sb; sb_inodestart sb; sb_bmapstart sb].

(** fix size of root inode dir *)
Definition fix_root (rootino : Z) : K unit :=
  din <- rinode rootino ;;
  let off := xint (i_size din) in
  let off := u32 ((off / BSIZE + 1) * BSIZE) in
  winode rootino (set_i_size (xint off) din).

(** main, once the image is open, with the files of the arguments. *)
Definition main (fs : list (list Z * list (list Z))) : K unit :=
  modify (set_sb mksb) ;;
  modify (set_freeblock nmeta) ;;
  wzero (Z.to_nat FSSIZE) 0 ;;
  wsect 1 (sb_block mksb) ;;
  rootino <- ialloc T_DIR ;;
  if negb (rootino =? ROOTINO) then panic "assert" else
  iappend rootino (dirent rootino [46]) ;;
  iappend rootino (dirent rootino [46; 46]) ;;
  add_files rootino fs ;;
  fix_root rootino ;;
  s <- gets (fun s => s) ;;
  balloc (freeblock s).

(** The state the program starts in. *)
Definition mk0 : mk := Mk [] 1 0 (Superblock 0 0 0 0 0 0 0).
