(* ===== verification/MkfsSpec.v ===== *)
(** Appending to the files of an image (src/xv6-public/mkfs.c): iappend puts
    the bytes at the end of a file, in blocks of its own. *)
From S2P Require Import Prelude CString Bytes Bio Log Fs FsInode Mkfs.

Lemma xint_id x : 0 <= x < 4294967296 -> xint x = x.
Proof.
  intros Hx. unfold xint, u8. rewrite !Z.shiftr_div_pow2 by lia. change (2 ^ 8) with 256. change (2 ^ 16) with (256 * 256). change (2 ^ 24) with (256 * 256 * 256).
  rewrite <- !Z.div_div by lia. pose proof (Z.div_mod x 256). pose proof (Z.div_mod (x / 256) 256). pose proof (Z.div_mod (x / 256 / 256) 256).
  assert (x / 256 / 256 / 256 < 256) by (repeat (apply Z.div_lt_upper_bound; [lia|]); lia).
  assert (0 <= x / 256 / 256 / 256) by (repeat (apply Z.div_pos; [|lia]); lia). rewrite (Z.mod_small (x / 256 / 256 / 256)) by lia. lia.
Qed.

Lemma xshort_id x : 0 <= x < 65536 -> xshort x = x.
Proof.
  intros Hx. unfold xshort, u8. rewrite Z.shiftr_div_pow2 by lia. change (2 ^ 8) with 256.
  assert (x / 256 < 256) by (apply Z.div_lt_upper_bound; lia). assert (0 <= x / 256) by (apply Z.div_pos; lia).
  rewrite (Z.mod_small (x / 256)) by lia. pose proof (Z.div_mod x 256). lia.
Qed.

Lemma u32_id x : 0 <= x < 4294967296 -> u32 x = x.
Proof. apply u32_small. Qed.

(** An image whose blocks from [fb] on are unused. *)
Record image_ok (d : list block) (fb : Z) : Prop := {
  im_len : length d = 1000%nat;
  im_blocks : Forall (fun b => length b = 512%nat) d;
  im_first : 59 <= fb <= 1000;
  im_zero b : fb <= b < 1000 -> arr_get d b = Some zeroes
}.

(** The blocks [bs] hold [data], padded with zeros, and the addresses of an inode, with the
    indirect block [ind], lead to them. *)
Record stored (d : list block) (addrs bs : list Z) (ind : Z) (data : list Z) : Prop := {
  st_addrs : addrs = take 12 (bs ++ replicate 12 0) ++ [ind];
  st_need : (12 < length bs)%nat -> ind <> 0;
  st_ind : ind <> 0 -> exists D, arr_get d ind = Some D /\ length D = 512%nat
    /\ forall k, (k < 128)%nat -> get_uint D (4 * k) = Some (default 0 (bs !! (12 + k)%nat));
  st_pos : Forall (fun a => 0 < a < 1000) (ind :: bs) \/ (ind = 0 /\ Forall (fun a => 0 < a < 1000) bs);
  st_max : (length bs <= 140)%nat;
  st_data bn a : bs !! bn = Some a -> exists D, arr_get d a = Some D /\ length D = 512%nat
    /\ forall j, (j < 512)%nat -> D !! j = Some (default 0 (data !! (512 * bn + j)%nat));
  st_len : (length data <= 512 * length bs)%nat
}.

(** The blocks of a file. *)
Definition owned (bs : list Z) (ind : Z) : list Z := bs ++ (if ind =? 0 then [] else [ind]).

Lemma owned_bs bs ind a : a ∈ bs -> a ∈ owned bs ind.
Proof. intros H. apply elem_of_app. by left. Qed.

Lemma owned_ind bs ind : ind <> 0 -> ind ∈ owned bs ind.
Proof. intros H. apply elem_of_app. right. destruct (Z.eqb_spec ind 0); [done|left]. Qed.

(** Only the blocks of the file matter. *)
Lemma stored_ext d d' addrs bs ind data : stored d addrs bs ind data ->
  (forall a, a ∈ owned bs ind -> arr_get d' a = arr_get d a) -> stored d' addrs bs ind data.
Proof.
  intros [Ha Hn Hi Hp Hm Hd Hl] He. constructor; try done.
  - intros H0. destruct (Hi H0) as (D & HD & HDl & Hk). exists D. rewrite He by (by apply owned_ind). done.
  - intros bn a Hb. destruct (Hd bn a Hb) as (D & HD & HDl & Hk). exists D. rewrite He by (apply owned_bs; by eapply list_elem_of_lookup_2). done.
Qed.

Lemma stored_pos d addrs bs ind data a : stored d addrs bs ind data -> a ∈ bs -> 0 < a < 1000.
Proof.
  intros H Ha. destruct (st_pos _ _ _ _ _ H) as [Hp|[_ Hp]]; rewrite Forall_forall in Hp; apply Hp; [by right|done].
Qed.

Lemma stored_ind_range d addrs bs ind data : stored d addrs bs ind data -> 0 <= ind < 1000.
Proof. intros H. destruct (st_pos _ _ _ _ _ H) as [Hp|[-> _]]; [apply Forall_cons in Hp; lia|lia]. Qed.

(** A direct address, and the indirect one. *)
Lemma stored_direct d addrs bs ind data k : stored d addrs bs ind data -> (k < 12)%nat ->
  arr_get addrs (Z.of_nat k) = Some (default 0 (bs !! k)).
Proof.
  intros H Hk. rewrite (st_addrs _ _ _ _ _ H), arr_get_nat. rewrite lookup_app_l by (rewrite length_take, length_app, length_replicate; lia).
  rewrite lookup_take_lt by done. destruct (bs !! k) as [a|] eqn:E.
  - by rewrite (lookup_app_l_Some _ _ _ _ E).
  - apply lookup_ge_None in E. rewrite lookup_app_r by done. apply lookup_replicate. split; [done|lia].
Qed.

Lemma stored_indirect d addrs bs ind data : stored d addrs bs ind data -> arr_get addrs NDIRECT = Some ind.
Proof.
  intros H. rewrite (st_addrs _ _ _ _ _ H). change NDIRECT with (Z.of_nat 12). rewrite arr_get_nat.
  rewrite lookup_app_r by (rewrite length_take, length_app, length_replicate; lia).
  rewrite length_take, length_app, length_replicate. by replace (12 - min 12 (length bs + 12))%nat with 0%nat by lia.
Qed.

(** * Blocks of the image *)

Lemma rsect_ok s x D : arr_get (img s) x = Some D -> rsect x s = Ret D s.
Proof. intros H. unfold rsect. rewrite gets_bind. by rewrite H. Qed.

Lemma wsect_ok s x D : 0 <= x < Z.of_nat (length (img s)) -> wsect x D s = Ret tt (set_img (<[Z.to_nat x := D]> (img s)) s).
Proof. intros H. unfold wsect, modify. destruct (Z.ltb_spec x (Z.of_nat (length (img s)))); [done|lia]. Qed.

Lemma image_write d fb x D : image_ok d fb -> 0 <= x < fb -> length D = 512%nat -> image_ok (<[Z.to_nat x := D]> d) fb.
Proof.
  intros [Hl Hb Hf Hz] Hx HD. constructor; [by rewrite length_insert|by apply Forall_insert|done|].
  intros b Hr. rewrite arr_get_set by lia. destruct (decide (b = x)); [lia|]. by apply Hz.
Qed.

Lemma image_next d fb : image_ok d fb -> fb + 1 <= 1000 -> image_ok d (fb + 1).
Proof. intros [Hl Hb Hf Hz] H. constructor; try done; [lia|]. intros b Hr. apply Hz. lia. Qed.

Lemma next_block_ok s : image_ok (img s) (freeblock s) -> next_block s = Ret (freeblock s) (set_freeblock (freeblock s + 1) s).
Proof.
  intros [_ _ Hf _]. unfold next_block. rewrite gets_bind, modify_bind. rewrite u32_id, xint_id by lia. done.
Qed.

(** * One block more *)

Lemma default_snoc_lt (bs : list Z) x k : (k < length bs)%nat -> (bs ++ [x]) !! k = bs !! k.
Proof. intros H. by rewrite lookup_app_l. Qed.

Lemma pos_snoc bs ind (x : Z) : 0 < x < 1000 ->
  Forall (fun a => 0 < a < 1000) (ind :: bs) \/ (ind = 0 /\ Forall (fun a => 0 < a < 1000) bs) ->
  Forall (fun a => 0 < a < 1000) (ind :: bs ++ [x]) \/ (ind = 0 /\ Forall (fun a => 0 < a < 1000) (bs ++ [x])).
Proof.
  intros Hx [Hp|[-> Hp]]; [left|right].
  - apply Forall_cons in Hp as [? ?]. apply Forall_cons. split; [done|]. apply Forall_app. split; [done|by apply Forall_singleton].
  - split; [done|]. apply Forall_app. split; [done|by apply Forall_singleton].
Qed.

Lemma data_snoc (d : list block) (bs data : list Z) x : arr_get d x = Some zeroes -> (length data <= 512 * length bs)%nat ->
  (forall bn a, bs !! bn = Some a -> exists D, arr_get d a = Some D /\ length D = 512%nat
    /\ forall j, (j < 512)%nat -> D !! j = Some (default 0 (data !! (512 * bn + j)%nat))) ->
  forall bn a, (bs ++ [x]) !! bn = Some a -> exists D, arr_get d a = Some D /\ length D = 512%nat
    /\ forall j, (j < 512)%nat -> D !! j = Some (default 0 (data !! (512 * bn + j)%nat)).
Proof.
  intros Hx Hd H bn a Hb. apply lookup_app_Some in Hb as [Hb|[Hge Hb]]; [by apply H|].
  apply list_lookup_singleton_Some in Hb as [H0 <-]. exists zeroes. split_and!; [done|done|]. intros j Hj.
  rewrite (lookup_ge_None_2 data) by lia. by apply lookup_replicate_2.
Qed.

Lemma stored_add_direct d addrs bs ind data x : stored d addrs bs ind data -> (length bs < 12)%nat ->
  0 < x < 1000 -> arr_get d x = Some zeroes ->
  stored d (<[length bs := x]> addrs) (bs ++ [x]) ind data.
Proof.
  intros H Hb Hx HD. constructor.
  - rewrite (st_addrs _ _ _ _ _ H). rewrite insert_app_l by (rewrite length_take, length_app, length_replicate; lia). f_equal.
    rewrite <- take_insert_lt by done. rewrite insert_app_r_alt by lia. rewrite Nat.sub_diag, <- app_assoc.
    rewrite !take_app_ge by lia. f_equal. destruct (12 - length bs)%nat as [|n] eqn:E; [lia|].
    change (<[0%nat:=x]> (replicate 12 0)) with (x :: replicate 11 0). change ([x] ++ replicate 12 0) with (x :: replicate 12 0).
    cbn [take]. f_equal. rewrite !take_replicate. f_equal. lia.
  - rewrite length_app. cbn. intros. lia.
  - intros H0. destruct (st_ind _ _ _ _ _ H H0) as (I & HI & HIl & Hk). exists I. split_and!; [done|done|]. intros k Hk'. rewrite Hk by done.
    rewrite (lookup_ge_None_2 bs) by lia. rewrite (lookup_ge_None_2 (bs ++ [x])); [done|]. rewrite length_app. cbn. lia.
  - apply pos_snoc; [done|apply (st_pos _ _ _ _ _ H)].
  - rewrite length_app. cbn. lia.
  - eapply data_snoc; [done|apply (st_len _ _ _ _ _ H)|apply (st_data _ _ _ _ _ H)].
  - rewrite length_app. cbn. pose proof (st_len _ _ _ _ _ H). lia.
Qed.

Lemma get_uint_zeroes k : (k < 128)%nat -> get_uint zeroes (4 * k) = Some 0.
Proof.
  intros Hk. unfold get_uint, zeroes, le_get. change (Z.to_nat BSIZE) with 512%nat. by rewrite !lookup_replicate_2 by lia.
Qed.

Lemma stored_add_indirect d addrs bs data x : stored d addrs bs 0 data -> (length bs <= 12)%nat ->
  0 < x < 1000 -> arr_get d x = Some zeroes -> stored d (<[12%nat := x]> addrs) bs x data.
Proof.
  intros H Hb Hx HD. constructor.
  - rewrite (st_addrs _ _ _ _ _ H). rewrite insert_app_r_alt by (rewrite length_take, length_app, length_replicate; lia).
    rewrite length_take, length_app, length_replicate. by replace (12 - min 12 (length bs + 12))%nat with 0%nat by lia.
  - lia.
  - intros _. exists zeroes. split_and!; [done|done|]. intros k Hk. rewrite get_uint_zeroes by done. rewrite lookup_ge_None_2 by lia. done.
  - left. apply Forall_cons. split; [lia|]. destruct (st_pos _ _ _ _ _ H) as [Hp|[_ Hp]]; [apply Forall_cons in Hp as [? _]; lia|done].
  - apply (st_max _ _ _ _ _ H).
  - apply (st_data _ _ _ _ _ H).
  - apply (st_len _ _ _ _ _ H).
Qed.

Lemma get_uint_put_ne D o o' v : (o + 4 <= o' \/ o' + 4 <= o)%nat -> get_uint (le_put 4 D o' v) o = get_uint D o.
Proof. apply le_get_put_ne. Qed.

Lemma stored_add_entry d addrs bs ind data x I : stored d addrs bs ind data -> (12 <= length bs < 140)%nat ->
  ind <> 0 -> ind ∉ bs -> x <> ind -> 0 < x < 1000 -> arr_get d ind = Some I -> arr_get d x = Some zeroes ->
  stored (<[Z.to_nat ind := le_put 4 I (4 * (length bs - 12)) x]> d) addrs (bs ++ [x]) ind data.
Proof.
  intros H Hb H0 Hni Hxi Hx HI HD. pose proof (arr_get_bounds _ _ _ HI) as Hir. constructor.
  - rewrite (st_addrs _ _ _ _ _ H). f_equal. by rewrite !take_app_le by (rewrite ?length_app; cbn; lia).
  - done.
  - intros _. destruct (st_ind _ _ _ _ _ H H0) as (I' & HI' & HIl & Hk). rewrite HI in HI'. injection HI' as <-.
    eexists. rewrite arr_get_set by done. rewrite decide_True by done. split; [done|]. rewrite length_le_put. split; [done|].
    intros k Hk'. destruct (decide (12 + k = length bs)%nat) as [E|E].
    + rewrite E, list_lookup_middle by done. replace (length bs - 12)%nat with k by lia. rewrite get_uint_put by lia. done.
    + rewrite get_uint_put_ne by lia. rewrite Hk by done. destruct (decide (12 + k < length bs)%nat).
      * by rewrite default_snoc_lt.
      * rewrite !lookup_ge_None_2; [done| |lia]. rewrite length_app. cbn. lia.
  - apply pos_snoc; [done|apply (st_pos _ _ _ _ _ H)].
  - rewrite length_app. cbn. lia.
  - eapply data_snoc; [|apply (st_len _ _ _ _ _ H)|].
    + rewrite arr_get_set by done. by rewrite decide_False.
    + intros bn a Ha. rewrite arr_get_set by done. rewrite decide_False.
      * by apply (st_data _ _ _ _ _ H).
      * intros ->. apply Hni. by eapply list_elem_of_lookup_2.
  - rewrite length_app. cbn. pose proof (st_len _ _ _ _ _ H). lia.
Qed.

(** * The bytes of a block *)

Lemma length_bcopy D o p : (Z.to_nat o + length p <= length D)%nat -> length (bcopy D o p) = length D.
Proof. intros H. unfold bcopy. rewrite !length_app, length_take, length_drop. lia. Qed.

Lemma stored_write d addrs bs ind data k x D o p : stored d addrs bs ind data -> NoDup (owned bs ind) ->
  bs !! k = Some x -> S k = length bs -> arr_get d x = Some D ->
  length data = (512 * k + o)%nat -> (o + length p <= 512)%nat ->
  stored (<[Z.to_nat x := bcopy D (Z.of_nat o) p]> d) addrs bs ind (data ++ p).
Proof.
  intros H Hnd Hk Hlast HD Hlen Hp. pose proof (arr_get_bounds _ _ _ HD) as Hxr.
  apply NoDup_app in Hnd as (Hnd & Hdis & _). constructor; try apply H.
  - intros H0. destruct (st_ind _ _ _ _ _ H H0) as (I & HI & HIl & Hi). exists I. rewrite arr_get_set by done.
    rewrite decide_False; [done|]. intros <-. apply (Hdis ind); [by eapply list_elem_of_lookup_2|].
    destruct (Z.eqb_spec ind 0); [done|left].
  - intros bn a Ha. destruct (st_data _ _ _ _ _ H bn a Ha) as (D' & HD' & HDl & Hj). rewrite arr_get_set by done.
    destruct (decide (a = x)) as [->|Hne].
    + assert (bn = k) as -> by (by eapply NoDup_lookup). rewrite HD in HD'. injection HD' as <-.
      exists (bcopy D (Z.of_nat o) p). split; [done|]. rewrite length_bcopy by (rewrite Nat2Z.id; lia). split; [done|].
      intros j Hjl. unfold bcopy. rewrite Nat2Z.id. destruct (decide (j < o)%nat); [|destruct (decide (j < o + length p)%nat)].
      * rewrite lookup_app_l by (rewrite length_take; lia). rewrite lookup_take_lt by done. rewrite lookup_app_l by lia. by apply Hj.
      * rewrite lookup_app_r by (rewrite length_take; lia). rewrite length_take. rewrite lookup_app_l by lia. rewrite (lookup_app_r data) by lia.
        destruct (lookup_lt_is_Some_2 p (j - o)) as [y Hy]; [lia|]. replace (512 * k + j - length data)%nat with (j - o)%nat by lia.
        replace (j - min o (length D))%nat with (j - o)%nat by lia. by rewrite Hy.
      * rewrite !lookup_app_r by (rewrite ?length_take; lia). rewrite length_take, lookup_drop.
        replace (o + length p + (j - min o (length D) - length p))%nat with j by lia. rewrite Hj by done.
        rewrite !lookup_ge_None_2; [done|lia|lia].
    + exists D'. split_and!; [done|done|]. intros j Hjl. rewrite Hj by done.
      assert (bn < length bs)%nat by (by eapply lookup_lt_Some). assert (bn <> k) by (intros ->; congruence).
      by rewrite lookup_app_l by lia.
  - rewrite length_app. lia.
Qed.

(** * Taking free blocks *)

(** The blocks of the file are its own, below the first free one. *)
Record held (d : list block) (fb : Z) (addrs bs : list Z) (ind : Z) (data : list Z) : Prop := {
  h_stored : stored d addrs bs ind data;
  h_range : Forall (fun a => 59 <= a < fb) (owned bs ind);
  h_nodup : NoDup (owned bs ind)
}.

(** There is an indirect block exactly when one is needed. *)
Definition tight (bs : list Z) (ind : Z) : Prop := ind = 0 <-> (length bs <= 12)%nat.

(** From [s] to [s'], where the file grew from the blocks [own] to [own']. *)
Record grows (s s' : mk) (own own' : list Z) : Prop := {
  g_image : image_ok (img s') (freeblock s');
  g_le : freeblock s <= freeblock s';
  g_count : freeblock s' + Z.of_nat (length own) = freeblock s + Z.of_nat (length own');
  g_own a : a ∈ own' -> a ∈ own \/ freeblock s <= a;
  g_keep a : a ∈ own -> a ∈ own';
  g_frame b : b ∉ own' -> arr_get (img s') b = arr_get (img s) b;
  g_sb : sb_ s' = sb_ s;
  g_fi : freeinode s' = freeinode s
}.

Lemma mk_grows_refl s own : image_ok (img s) (freeblock s) -> grows s s own own.
Proof. intros H. constructor; try done. intros a Ha. by left. Qed.

Lemma mk_grows_trans s s1 s2 o o1 o2 : grows s s1 o o1 -> grows s1 s2 o1 o2 -> grows s s2 o o2.
Proof.
  intros [A1 A2 A3 A4 A5 A6 A7 A8] [B1 B2 B3 B4 B5 B6 B7 B8]. constructor; [done|lia|lia| | | |congruence|congruence].
  - intros a Ha. destruct (B4 a Ha) as [H|H]; [by apply A4|right; lia].
  - intros a Ha. auto.
  - intros b Hb. rewrite B6 by done. apply A6. intros H. auto.
Qed.

Lemma fresh_own fb own own' : Forall (fun a => 59 <= a < fb) own -> NoDup own -> own' ≡ₚ fb :: own -> 59 <= fb ->
  Forall (fun a => 59 <= a < fb + 1) own' /\ NoDup own'.
Proof.
  intros Hr Hn Hp Hf. rewrite Hp. split.
  - apply Forall_cons. split; [lia|]. eapply Forall_impl; [done|]. cbn. intros. lia.
  - apply NoDup_cons. split; [|done]. intros H. rewrite Forall_forall in Hr. specialize (Hr _ H). lia.
Qed.

Lemma owned_snoc bs ind x : owned (bs ++ [x]) ind ≡ₚ x :: owned bs ind.
Proof. unfold owned. rewrite <- app_assoc. cbn. by rewrite Permutation_middle. Qed.

Lemma owned_new bs x : x <> 0 -> owned bs x ≡ₚ x :: owned bs 0.
Proof. intros H. unfold owned. destruct (Z.eqb_spec x 0); [done|]. cbn. by rewrite app_nil_r, <- Permutation_cons_append. Qed.

Lemma grows_fresh s own own' : image_ok (img s) (freeblock s) -> own' ≡ₚ freeblock s :: own -> freeblock s + 1 <= 1000 ->
  grows s (set_freeblock (freeblock s + 1) s) own own'.
Proof.
  intros Hi Hp Hr. constructor; cbn; try done; [by apply image_next|lia|rewrite Hp; cbn; lia| |].
  - intros a. rewrite Hp, elem_of_cons. intros [->|]; [right; lia|by left].
  - intros a Ha. rewrite Hp. by right.
Qed.

Lemma grows_write s own own' x D s1 : grows s s1 own own' -> x ∈ own' -> 0 <= x < freeblock s1 -> length D = 512%nat ->
  grows s (set_img (<[Z.to_nat x := D]> (img s1)) s1) own own'.
Proof.
  intros [A1 A2 A3 A4 A5 A6 A7 A8] Hx Hr HD. constructor; cbn; try done; [by apply image_write|].
  intros b Hb. rewrite arr_get_set by (pose proof (im_len _ _ A1); pose proof (im_first _ _ A1); lia). rewrite decide_False; [by apply A6|]. by intros ->.
Qed.

Lemma add_direct s addrs bs ind data : image_ok (img s) (freeblock s) -> held (img s) (freeblock s) addrs bs ind data ->
  (length bs < 12)%nat -> freeblock s + 1 <= 1000 ->
  held (img s) (freeblock s + 1) (<[length bs := freeblock s]> addrs) (bs ++ [freeblock s]) ind data
  /\ grows s (set_freeblock (freeblock s + 1) s) (owned bs ind) (owned (bs ++ [freeblock s]) ind).
Proof.
  intros Hi [Hs Hr Hn] Hb Hroom. pose proof (im_first _ _ Hi). destruct (fresh_own _ _ _ Hr Hn (owned_snoc bs ind (freeblock s))) as [Hr' Hn']; [lia|].
  split; [constructor; [|done|done]|by apply grows_fresh; [|apply owned_snoc|]].
  eapply stored_add_direct; [done|done|lia|apply (im_zero _ _ Hi); lia].
Qed.

Lemma add_indirect s addrs bs data : image_ok (img s) (freeblock s) -> held (img s) (freeblock s) addrs bs 0 data ->
  (length bs <= 12)%nat -> freeblock s + 1 <= 1000 ->
  held (img s) (freeblock s + 1) (<[12%nat := freeblock s]> addrs) bs (freeblock s) data
  /\ grows s (set_freeblock (freeblock s + 1) s) (owned bs 0) (owned bs (freeblock s)).
Proof.
  intros Hi [Hs Hr Hn] Hb Hroom. pose proof (im_first _ _ Hi). assert (freeblock s <> 0) as H0 by lia.
  destruct (fresh_own _ _ _ Hr Hn (owned_new bs (freeblock s) H0)) as [Hr' Hn']; [lia|].
  split; [constructor; [|done|done]|by apply grows_fresh; [|apply owned_new|]].
  eapply stored_add_indirect; [done|done|lia|apply (im_zero _ _ Hi); lia].
Qed.

Lemma add_entry s addrs bs ind data I : image_ok (img s) (freeblock s) -> held (img s) (freeblock s) addrs bs ind data ->
  ind <> 0 -> (12 <= length bs < 140)%nat -> freeblock s + 1 <= 1000 -> arr_get (img s) ind = Some I -> length I = 512%nat ->
  let d' := <[Z.to_nat ind := le_put 4 I (4 * (length bs - 12)) (freeblock s)]> (img s) in
  held d' (freeblock s + 1) addrs (bs ++ [freeblock s]) ind data
  /\ grows s (set_img d' (set_freeblock (freeblock s + 1) s)) (owned bs ind) (owned (bs ++ [freeblock s]) ind).
Proof.
  intros Hi [Hs Hr Hn] H0 Hb Hroom HI Hl d'. pose proof (im_first _ _ Hi).
  destruct (fresh_own _ _ _ Hr Hn (owned_snoc bs ind (freeblock s))) as [Hr' Hn']; [lia|].
  assert (59 <= ind < freeblock s) as Hind by (rewrite Forall_forall in Hr; by apply Hr, owned_ind).
  split; [constructor; [|done|done]|].
  - apply (stored_add_entry _ _ _ _ _ _ _); try done; [|lia|lia|apply (im_zero _ _ Hi); lia]. apply NoDup_app in Hn as (_ & Hd & _).
    intros Hc. apply (Hd _ Hc). destruct (Z.eqb_spec ind 0); [done|left].
  - apply (grows_write s _ _ ind _ (set_freeblock (freeblock s + 1) s)); [by apply grows_fresh; [|apply owned_snoc|]|by apply owned_ind|cbn; lia|by rewrite length_le_put].
Qed.

(** The blocks a file of [n] data blocks takes. *)
Definition with_indirect (n : nat) : Z := Z.of_nat n + (if (12 <? n)%nat then 1 else 0).

Lemma owned_length bs ind : tight bs ind -> Z.of_nat (length (owned bs ind)) = with_indirect (length bs).
Proof.
  intros Ht. unfold owned, with_indirect. rewrite length_app. destruct (Z.eqb_spec ind 0) as [E|E], (Nat.ltb_spec 12 (length bs)); cbn; try lia.
  - apply Ht in E. lia.
  - exfalso. by apply E, Ht.
Qed.

Lemma set_addrs_same din : set_i_addrs (i_addrs din) din = din.
Proof. by destruct din. Qed.

Lemma stored_addrs_length d addrs bs ind data : stored d addrs bs ind data -> length addrs = 13%nat.
Proof. intros H. rewrite (st_addrs _ _ _ _ _ H), length_app, length_take, length_app, length_replicate. change (length [ind]) with 1%nat. lia. Qed.

Lemma iappend_direct_ok s din bs ind data k :
  image_ok (img s) (freeblock s) -> held (img s) (freeblock s) (i_addrs din) bs ind data ->
  (k <= length bs)%nat -> (k < 12)%nat -> (k = length bs -> freeblock s + 1 <= 1000) ->
  exists x bs' l s', iappend_block din (Z.of_nat k) s = Ret (x, set_i_addrs l din) s'
    /\ held (img s') (freeblock s') l bs' ind data /\ grows s s' (owned bs ind) (owned bs' ind)
    /\ bs' !! k = Some x /\ length bs' = Nat.max (length bs) (S k).
Proof.
  intros Hi Hh Hk Hk12 Hroom. pose proof (h_stored _ _ _ _ _ _ Hh) as Hs. pose proof (im_first _ _ Hi).
  unfold iappend_block. destruct (Z.ltb_spec (Z.of_nat k) NDIRECT) as [_|Hc]; [|change NDIRECT with 12 in Hc; lia].
  rewrite (stored_direct _ _ _ _ _ _ Hs Hk12). unfold get_opt at 1. rewrite ret_bind.
  destruct (decide (k = length bs)) as [->|Hne].
  - rewrite lookup_ge_None_2 by done. change (default 0 None) with 0. change (xint 0 =? 0) with true. cbv iota.
    destruct (add_direct _ _ _ _ _ Hi Hh) as [Hh' Hg]; [done|by apply Hroom|].
    rewrite (bind_Ret _ _ _ _ _ (next_block_ok s Hi)). rewrite arr_set_nat by (rewrite (stored_addrs_length _ _ _ _ _ Hs); lia).
    unfold get_opt. rewrite ret_bind, xint_id by lia. eexists _, _, _, _. split; [done|]. split; [exact Hh'|]. split; [exact Hg|].
    split; [by rewrite list_lookup_middle|rewrite length_app; cbn; lia].
  - destruct (lookup_lt_is_Some_2 bs k) as [a Ha]; [lia|]. rewrite Ha. change (default 0 (Some a)) with a.
    pose proof (stored_pos _ _ _ _ _ a Hs (list_elem_of_lookup_2 _ _ _ Ha)). rewrite xint_id by lia.
    destruct (Z.eqb_spec a 0); [lia|]. eexists a, bs, _, s. rewrite set_addrs_same. split_and!; [done|done|by apply mk_grows_refl|done|lia].
Qed.

Lemma iappend_entry_ok s din bs ind data k :
  image_ok (img s) (freeblock s) -> held (img s) (freeblock s) (i_addrs din) bs ind data -> ind <> 0 ->
  (12 <= k <= length bs)%nat -> (k < 140)%nat -> (k = length bs -> freeblock s + 1 <= 1000) ->
  exists x bs' s', iappend_entry din (Z.of_nat k) s = Ret x s'
    /\ held (img s') (freeblock s') (i_addrs din) bs' ind data /\ grows s s' (owned bs ind) (owned bs' ind)
    /\ bs' !! k = Some x /\ length bs' = Nat.max (length bs) (S k).
Proof.
  intros Hi Hh H0 Hk Hk140 Hroom. pose proof (h_stored _ _ _ _ _ _ Hh) as Hs. pose proof (im_first _ _ Hi). pose proof (im_len _ _ Hi) as Hlen.
  destruct (st_ind _ _ _ _ _ Hs H0) as (I & HI & HIl & He). pose proof (arr_get_bounds _ _ _ HI) as Hir.
  unfold iappend_entry. rewrite (stored_indirect _ _ _ _ _ Hs). unfold get_opt at 1. rewrite ret_bind, (xint_id ind) by lia.
  rewrite (bind_Ret _ _ _ _ _ (rsect_ok _ _ _ HI)). cbv zeta. replace (Z.to_nat (Z.of_nat k - NDIRECT)) with (k - 12)%nat by (change NDIRECT with 12; lia).
  rewrite He by lia. unfold get_opt at 1. rewrite ret_bind. replace (12 + (k - 12))%nat with k by lia.
  destruct (decide (k = length bs)) as [->|Hne].
  - rewrite lookup_ge_None_2 by done. change (default 0 None) with 0. destruct (Z.eqb_spec 0 0); [|done].
    destruct (add_entry _ _ _ _ _ I Hi Hh H0) as [Hh' Hg]; [lia|by apply Hroom|done|done|].
    rewrite (bind_Ret _ _ _ _ _ (next_block_ok s Hi)). unfold put_int. rewrite put_bytes_ok by lia. unfold get_opt. rewrite ret_bind.
    rewrite (bind_Ret _ _ _ _ _ (wsect_ok (set_freeblock (freeblock s + 1) s) ind _ Hir)). rewrite xint_id by lia.
    eexists _, _, _. split; [done|]. split; [exact Hh'|]. split; [exact Hg|].
    split; [by rewrite list_lookup_middle|rewrite length_app; cbn; lia].
  - destruct (lookup_lt_is_Some_2 bs k) as [a Ha]; [lia|]. rewrite Ha. change (default 0 (Some a)) with a.
    pose proof (stored_pos _ _ _ _ _ a Hs (list_elem_of_lookup_2 _ _ _ Ha)). rewrite xint_id by lia.
    destruct (Z.eqb_spec a 0); [lia|]. eexists a, bs, s. split_and!; [done|done|by apply mk_grows_refl|done|lia].
Qed.

Lemma iappend_block_ok s din bs ind data k :
  image_ok (img s) (freeblock s) -> held (img s) (freeblock s) (i_addrs din) bs ind data -> tight bs ind ->
  (k <= length bs)%nat -> (k < 140)%nat ->
  freeblock s + with_indirect (Nat.max (length bs) (S k)) - with_indirect (length bs) <= 1000 ->
  exists x bs' ind' l s', iappend_block din (Z.of_nat k) s = Ret (x, set_i_addrs l din) s'
    /\ held (img s') (freeblock s') l bs' ind' data /\ tight bs' ind' /\ grows s s' (owned bs ind) (owned bs' ind')
    /\ bs' !! k = Some x /\ length bs' = Nat.max (length bs) (S k).
Proof.
  intros Hi Hh Ht Hk Hk140 Hroom. pose proof (h_stored _ _ _ _ _ _ Hh) as Hs.
  assert (k = length bs -> freeblock s + 1 + (if decide (k = 12%nat) then 1 else 0) <= 1000) as Hroom'.
  { intros ->. revert Hroom. replace (Nat.max (length bs) (S (length bs))) with (S (length bs)) by lia. unfold with_indirect.
    destruct (Nat.ltb_spec 12 (S (length bs))), (Nat.ltb_spec 12 (length bs)), decide; lia. }
  clear Hroom. destruct (decide (k < 12)%nat) as [Hlt|Hge].
  - destruct (iappend_direct_ok s din bs ind data k) as (x & bs' & l & s' & Hr & Hh' & Hg & Hx & Hl); [done|done|done|done|intros E; specialize (Hroom' E); destruct decide; lia|].
    exists x, bs', ind, l, s'. split_and!; try done. unfold tight in *. rewrite Hl, Ht. lia.
  - unfold iappend_block. destruct (Z.ltb_spec (Z.of_nat k) NDIRECT) as [Hc|_]; [change NDIRECT with 12 in Hc; lia|].
    rewrite (stored_indirect _ _ _ _ _ Hs). unfold get_opt at 1. rewrite ret_bind. pose proof (stored_ind_range _ _ _ _ _ Hs).
    rewrite xint_id by lia. destruct (Z.eqb_spec ind 0) as [->|H0].
    + assert (k = 12 /\ length bs = 12)%nat as [-> Hb] by (assert (length bs <= 12)%nat by (by apply Ht); lia). specialize (Hroom' (eq_sym Hb)). rewrite decide_True in Hroom' by done.
      destruct (add_indirect _ _ _ _ Hi Hh) as [Hh1 Hg1]; [lia|lia|].
      rewrite (bind_Ret _ _ _ (set_i_addrs (<[12%nat := freeblock s]> (i_addrs din)) din) (set_freeblock (freeblock s + 1) s)).
      2: { rewrite (bind_Ret _ _ _ _ _ (next_block_ok s Hi)). change NDIRECT with (Z.of_nat 12). rewrite arr_set_nat; [done|]. rewrite (stored_addrs_length _ _ _ _ _ Hs). lia. }
      pose proof (im_first _ _ Hi).
      destruct (iappend_entry_ok (set_freeblock (freeblock s + 1) s) (set_i_addrs (<[12%nat := freeblock s]> (i_addrs din)) din) bs (freeblock s) data 12)
        as (x & bs' & s' & Hr & Hh' & Hg & Hx & Hl); [apply Hg1|done|lia|lia|lia|cbn; lia|].
      rewrite (bind_Ret _ _ _ _ _ Hr). eexists x, bs', _, _, s'. split; [done|]. split; [exact Hh'|]. split_and!; try done; [|by eapply mk_grows_trans].
      unfold tight. rewrite Hl. lia.
    + rewrite ret_bind. destruct (iappend_entry_ok s din bs ind data k) as (x & bs' & s' & Hr & Hh' & Hg & Hx & Hl); [done|done|done|lia|done|intros E; specialize (Hroom' E); destruct decide; lia|].
      rewrite (bind_Ret _ _ _ _ _ Hr). exists x, bs', ind, (i_addrs din), s'. rewrite set_addrs_same. split_and!; try done.
      unfold tight in *. rewrite Hl. assert (~ (length bs <= 12)%nat) by (by rewrite <- Ht). lia.
Qed.

(** * Appending *)

(** The data blocks of [n] bytes. *)
Definition blks (n : nat) : nat := ((n + 511) / 512)%nat.

Lemma blks_mono n m : (n <= m)%nat -> (blks n <= blks m)%nat.
Proof. intros H. unfold blks. apply Nat.Div0.div_le_mono. lia. Qed.

Lemma blks_inside k n : (512 * k < n <= 512 * S k)%nat -> blks n = S k.
Proof. intros H. unfold blks. symmetry. apply (Nat.div_unique _ _ _ (n + 511 - 512 * S k)); lia. Qed.

Lemma blks_bound n k : (n <= 512 * k)%nat -> (blks n <= k)%nat.
Proof. intros H. unfold blks. assert ((n + 511) / 512 < S k)%nat; [|lia]. apply Nat.Div0.div_lt_upper_bound. lia. Qed.

Lemma blks_ge n : (n / 512 <= blks n)%nat.
Proof. unfold blks. apply Nat.Div0.div_le_mono. lia. Qed.

Lemma with_indirect_mono n m : (n <= m)%nat -> with_indirect n <= with_indirect m.
Proof. intros H. unfold with_indirect. destruct (Nat.ltb_spec 12 n), (Nat.ltb_spec 12 m); lia. Qed.

(** The file in the hands of iappend: as many blocks as it needs. *)
Record appending (s : mk) (addrs bs : list Z) (ind : Z) (data : list Z) : Prop := {
  ap_held : held (img s) (freeblock s) addrs bs ind data;
  ap_tight : tight bs ind;
  ap_blks : length bs = blks (length data)
}.

(** Writing the block just found. *)
Lemma write_ok s s1 addrs own bs ind data k x o p :
  grows s s1 own (owned bs ind) -> held (img s1) (freeblock s1) addrs bs ind data -> tight bs ind ->
  bs !! k = Some x -> length bs = S k -> length data = (512 * k + o)%nat -> (1 <= length p)%nat -> (o + length p <= 512)%nat ->
  exists D s2, rsect x s1 = Ret D s1 /\ wsect x (bcopy D (Z.of_nat o) p) s1 = Ret tt s2
    /\ grows s s2 own (owned bs ind) /\ appending s2 addrs bs ind (data ++ p).
Proof.
  intros Hg [Hs Hr Hn] Ht Hx Hb Hd Hp1 Hp. destruct (st_data _ _ _ _ _ Hs k x Hx) as (D & HD & HDl & _).
  assert (x ∈ owned bs ind) as Hxo by (apply owned_bs; by eapply list_elem_of_lookup_2).
  assert (59 <= x < freeblock s1) as Hxr by (rewrite Forall_forall in Hr; by apply Hr).
  exists D. eexists. split; [by apply rsect_ok|]. split; [apply wsect_ok; by apply arr_get_bounds in HD|]. split.
  - apply grows_write; [done|done|lia|]. rewrite length_bcopy; [done|]. rewrite Nat2Z.id. lia.
  - constructor; [constructor; [by eapply stored_write|done|done]|done|]. rewrite Hb. symmetry. apply blks_inside. rewrite length_app. lia.
Qed.

Lemma iappend_loop_ok : forall fuel p s din bs ind data,
  image_ok (img s) (freeblock s) -> appending s (i_addrs din) bs ind data ->
  (length p < fuel)%nat -> (length data + length p <= 512 * 140)%nat ->
  freeblock s + with_indirect (blks (length data + length p)) - with_indirect (length bs) <= 1000 ->
  exists bs' ind' l s', iappend_loop fuel p (Z.of_nat (length data)) din s = Ret (Z.of_nat (length data + length p), set_i_addrs l din) s'
    /\ appending s' l bs' ind' (data ++ p) /\ grows s s' (owned bs ind) (owned bs' ind').
Proof.
  induction fuel as [|f IH]; intros p s din bs ind data Hi [Hh Ht Hb] Hf Hmax Hroom; [lia|]. cbn [iappend_loop].
  destruct (Nat.ltb_spec 0 (length p)) as [Hp|Hp].
  2: { apply Nat.le_0_r, nil_length_inv in Hp as ->. exists bs, ind, (i_addrs din), s. rewrite set_addrs_same, app_nil_r, Nat.add_0_r. split_and!; [done|done|by apply mk_grows_refl]. }
  set (k := (length data / 512)%nat). set (o := (length data mod 512)%nat).
  assert (length data = 512 * k + o /\ o < 512)%nat as [Hko Ho] by (split; [apply Nat.div_mod_eq|apply Nat.mod_upper_bound; lia]).
  replace (Z.of_nat (length data) / BSIZE) with (Z.of_nat k) by (unfold k; rewrite Nat2Z.inj_div; done).
  destruct (Z.ltb_spec (Z.of_nat k) MAXFILE) as [_|Hc]; [|change MAXFILE with 140 in Hc; lia]. cbn [negb].
  pose proof (blks_ge (length data)) as Hge. fold k in Hge. set (p1 := take (Nat.min (length p) (512 - o)) p).
  assert (length p1 = Nat.min (length p) (512 - o)) as Hp1 by (unfold p1; rewrite length_take; lia).
  assert (blks (length data + length p1) = S k) as Hsk by (apply blks_inside; lia).
  assert (Nat.max (length bs) (S k) = S k) as Hmx by (pose proof (blks_mono (length data) (length data + length p1)); lia).
  destruct (iappend_block_ok s din bs ind data k Hi Hh Ht) as (x & bs1 & ind1 & l1 & s1 & Hr & Hh1 & Ht1 & Hg1 & Hx & Hl1); [lia|lia| |].
  { rewrite Hmx. assert (S k <= blks (length data + length p))%nat as Hm by (rewrite <- Hsk; apply blks_mono; lia).
    apply with_indirect_mono in Hm. lia. }
  rewrite (bind_Ret _ _ _ _ _ Hr). destruct (write_ok s s1 l1 _ bs1 ind1 data k x o p1 Hg1 Hh1 Ht1 Hx) as (D & s2 & HrD & Hw & Hg2 & Ha2); [lia|lia|lia|lia|].
  replace (Z.to_nat (Z.min (Z.of_nat (length p)) ((Z.of_nat k + 1) * BSIZE - Z.of_nat (length data)))) with (length p1)
    by (rewrite Hp1; change BSIZE with 512; lia).
  rewrite (bind_Ret _ _ _ _ _ HrD). replace (Z.of_nat (length data) - Z.of_nat k * BSIZE) with (Z.of_nat o) by (change BSIZE with 512; lia).
  replace (take (length p1) p) with p1 by (by rewrite Hp1). rewrite (bind_Ret _ _ _ _ _ Hw).
  replace (u32 (Z.of_nat (length data) + Z.min (Z.of_nat (length p)) ((Z.of_nat k + 1) * BSIZE - Z.of_nat (length data)))) with (Z.of_nat (length (data ++ p1)))
    by (rewrite length_app, Hp1, u32_id; change BSIZE with 512; lia).
  assert (p = p1 ++ drop (length p1) p) as Hsplit by (rewrite Hp1 at 1; unfold p1; by rewrite take_drop).
  assert (length p = length p1 + length (drop (length p1) p))%nat as Hlen by (rewrite Hsplit at 1; by rewrite length_app).
  destruct (IH (drop (length p1) p) s2 (set_i_addrs l1 din) bs1 ind1 (data ++ p1)) as (bs' & ind' & l & s' & Hr' & Ha' & Hg').
  - apply Hg2.
  - done.
  - lia.
  - rewrite length_app. lia.
  - rewrite length_app, <- Nat.add_assoc, <- Hlen. pose proof (g_count _ _ _ _ Hg2). pose proof (owned_length _ _ Ht). pose proof (owned_length _ _ Ht1). lia.
  - exists bs', ind', l, s'. rewrite Hr'. rewrite length_app, <- Nat.add_assoc, <- Hlen, <- app_assoc in *. rewrite <- Hsplit in Ha'.
    split_and!; [done|done|by eapply mk_grows_trans].
Qed.
