(* ===== verification/MkfsImage.v ===== *)
(** The image mkfs.c builds is a file system of fs.c: the kernel's view of it
    has the inodes, the contents and the bitmap of the files copied. *)
From S2P Require Import Prelude CString Bytes Bio BioSpec Log LogSpec Fs FsSpec FsBlocks FsInode FsFile Mkfs MkfsSpec.

(** The kernel's view of an image when nothing is cached. *)
Definition boot_view (d : list block) : vdisk := VDisk d d ∅ ∅ [].

(** * Inodes *)

Lemma IBLOCK_mk inum : 0 <= inum < 208 -> IBLOCK inum mksb = inum / 8 + 32 /\ 32 <= IBLOCK inum mksb < 58.
Proof.
  intros H. assert (0 <= inum / 8 < 26) by (split; [apply Z.div_pos; lia|apply Z.div_lt_upper_bound; lia]).
  assert (IBLOCK inum mksb = inum / 8 + 32) as ->; [|lia]. apply u32_id. lia.
Qed.

Lemma get_dinode_ext d d' o i : (forall j, (o <= j < o + 64)%nat -> d' !! j = d !! j) -> get_dinode d' o i = get_dinode d o i.
Proof.
  intros H. unfold get_dinode, get_short, get_uint.
  rewrite (le_get_ext 2 d d' o), (le_get_ext 2 d d' (o + 2)), (le_get_ext 2 d d' (o + 4)), (le_get_ext 2 d d' (o + 6)), (le_get_ext 4 d d' (o + 8)),
    (get_uints_ext 13 d d' (o + 12)); [done|..]; intros j Hj; apply H; lia.
Qed.

Lemma disk_inode_ext d d' inum i : disk_inode (boot_view d) mksb inum i ->
  arr_get d' (IBLOCK inum mksb) = arr_get d (IBLOCK inum mksb) -> disk_inode (boot_view d') mksb inum i.
Proof. intros (D & HD & Hl & Hi) E. exists D. cbn in *. by rewrite E. Qed.

Lemma off_dinode_ne n m : 0 <= n -> 0 <= m -> n / 8 = m / 8 -> n <> m ->
  (off_dinode n + 64 <= off_dinode m \/ off_dinode m + 64 <= off_dinode n)%nat.
Proof.
  intros Hn Hm He Hne. unfold off_dinode, sizeof_dinode. change IPB with 8.
  pose proof (Z.div_mod n 8 ltac:(lia)). pose proof (Z.div_mod m 8 ltac:(lia)).
  pose proof (Z.mod_pos_bound n 8 ltac:(lia)). pose proof (Z.mod_pos_bound m 8 ltac:(lia)). lia.
Qed.

Lemma winode_ok s inum i : image_ok (img s) (freeblock s) -> sb_ s = mksb -> 0 <= inum < 208 -> fits i ->
  exists s', winode inum i s = Ret tt s' /\ image_ok (img s') (freeblock s)
    /\ freeblock s' = freeblock s /\ freeinode s' = freeinode s /\ sb_ s' = mksb
    /\ (forall b, b <> IBLOCK inum mksb -> arr_get (img s') b = arr_get (img s) b)
    /\ disk_inode (boot_view (img s')) mksb inum i
    /\ forall m i0, 0 <= m < 208 -> m <> inum -> disk_inode (boot_view (img s)) mksb m i0 -> disk_inode (boot_view (img s')) mksb m i0.
Proof.
  intros Hi Hsb Hn Hf. destruct (IBLOCK_mk _ Hn) as [HI HIr]. pose proof (im_len _ _ Hi) as Hlen. pose proof (im_first _ _ Hi).
  destruct (arr_get_Some (img s) (IBLOCK inum mksb)) as [D HD]; [lia|].
  assert (length D = 512%nat) as HDl.
  { pose proof (im_blocks _ _ Hi) as Hb. rewrite Forall_forall in Hb. apply Hb. revert HD. unfold arr_get. destruct (0 <=? _); [|done]. apply list_elem_of_lookup_2. }
  pose proof (off_dinode_fits inum) as Ho. change (Z.to_nat BSIZE) with 512%nat in Ho.
  destruct (put_dinode_ok D (off_dinode inum) i) as (D' & HD' & Hl' & Hget & Hother); [lia|done|].
  exists (set_img (<[Z.to_nat (IBLOCK inum mksb) := D']> (img s)) s). split_and!; try done.
  - unfold winode. rewrite gets_bind, Hsb. cbv zeta. rewrite (bind_Ret _ _ _ _ _ (rsect_ok _ _ _ HD)), HD'. unfold get_opt. rewrite ret_bind.
    apply wsect_ok. lia.
  - cbn. apply image_write; [done|lia|lia].
  - cbn. intros b Hb. rewrite arr_get_set by lia. by rewrite decide_False.
  - exists D'. cbn. rewrite arr_get_set by lia. rewrite decide_True by done. split_and!; [done|by rewrite Hl', HDl|done].
  - intros m i0 Hm Hne (D0 & HD0 & Hl0 & Hg0). cbn in HD0. destruct (decide (IBLOCK m mksb = IBLOCK inum mksb)) as [E|E].
    + exists D'. cbn. rewrite arr_get_set by lia. rewrite decide_True by done. split_and!; [done|by rewrite Hl', HDl|].
      rewrite E, HD in HD0. injection HD0 as <-. intros i'. rewrite <- Hg0. apply get_dinode_ext. intros j Hj. apply Hother.
      destruct (IBLOCK_mk _ Hm) as [HIm _]. destruct (off_dinode_ne m inum); lia.
    + exists D0. cbn. rewrite arr_get_set by lia. rewrite decide_False by done. done.
Qed.

Lemma rinode_ok s inum i : disk_inode (boot_view (img s)) mksb inum i -> sb_ s = mksb -> rinode inum s = Ret (with_disk i zero_din) s.
Proof.
  intros (D & HD & Hl & Hg) Hsb. unfold rinode. rewrite gets_bind, Hsb. rewrite (bind_Ret _ _ _ _ _ (rsect_ok _ _ _ HD)). by rewrite Hg.
Qed.

(** * The files of an image *)

Record mfile := MFile { m_type : Z; m_data : list Z; m_addrs : list Z; m_bs : list Z; m_ind : Z }.

Definition own (f : mfile) : list Z := owned (m_bs f) (m_ind f).

Definition inode_of (f : mfile) : inode :=
  Inode 0 0 0 (Sleeplock 0 0) 0 (m_type f) 0 0 1 (Z.of_nat (length (m_data f))) (m_addrs f).

Definition content (f : mfile) : Z * list Z := (m_type f, m_data f).

(** The blocks that contents take. *)
Definition blocks_of (c : Z * list Z) : Z := with_indirect (blks (length c.2)).
Definition total (C : list (Z * list Z)) : Z := foldr Z.add 0 (map blocks_of C).

Definition inode_block (b : Z) : Prop := 32 <= b < 58.

Record built (s : mk) (fl : list mfile) : Prop := {
  k_image : image_ok (img s) (freeblock s);
  k_sb : sb_ s = mksb;
  k_fi : freeinode s = Z.of_nat (length fl) + 1;
  k_meta b : 0 <= b < 59 -> ~ inode_block b -> arr_get (img s) b = Some (if b =? 1 then sb_block mksb else zeroes);
  k_type k f : fl !! k = Some f -> m_type f = T_DIR \/ m_type f = T_FILE;
  k_inode n : 0 < n < 208 -> disk_inode (boot_view (img s)) mksb n (default zero_din (inode_of <$> fl !! (Z.to_nat (n - 1))));
  k_file k f : fl !! k = Some f -> appending s (m_addrs f) (m_bs f) (m_ind f) (m_data f);
  k_disj k1 k2 f1 f2 a : fl !! k1 = Some f1 -> fl !! k2 = Some f2 -> a ∈ own f1 -> a ∈ own f2 -> k1 = k2;
  k_count : freeblock s = 59 + total (map content fl)
}.

Lemma appending_frame s s' addrs bs ind data : appending s addrs bs ind data -> freeblock s <= freeblock s' ->
  (forall a, a ∈ owned bs ind -> arr_get (img s') a = arr_get (img s) a) -> appending s' addrs bs ind data.
Proof.
  intros [[Hs Hr Hn] Ht Hb] Hle He. constructor; [constructor; [by eapply stored_ext| |done]|done|done].
  eapply Forall_impl; [done|]. cbn. intros. lia.
Qed.

Lemma own_range s fl k f a : built s fl -> fl !! k = Some f -> a ∈ own f -> 59 <= a < freeblock s.
Proof. intros H Hf Ha. pose proof (h_range _ _ _ _ _ _ (ap_held _ _ _ _ _ (k_file _ _ H _ _ Hf))) as Hr. rewrite Forall_forall in Hr. by apply Hr. Qed.

Lemma inode_of_fits s f : appending s (m_addrs f) (m_bs f) (m_ind f) (m_data f) -> m_type f = T_DIR \/ m_type f = T_FILE -> fits (inode_of f).
Proof.
  intros [[Hs _ _] _ Hb] Ht. pose proof (st_max _ _ _ _ _ Hs). pose proof (st_len _ _ _ _ _ Hs).
  constructor; cbn; try lia.
  - destruct Ht as [->| ->]; unfold T_DIR, T_FILE; lia.
  - split; [by eapply stored_addrs_length|]. rewrite (st_addrs _ _ _ _ _ Hs). apply Forall_app. split.
    + apply Forall_take, Forall_app. split; [|by apply Forall_replicate].
      apply Forall_forall. intros a Ha. pose proof (stored_pos _ _ _ _ _ a Hs Ha). lia.
    + apply Forall_singleton. pose proof (stored_ind_range _ _ _ _ _ Hs). lia.
Qed.

Lemma total_app C1 C2 : total (C1 ++ C2) = total C1 + total C2.
Proof. induction C1 as [|c C1 IH]; [done|]. unfold total in *. cbn. rewrite IH. lia. Qed.

Lemma total_insert C k c c' : C !! k = Some c -> total (<[k := c']> C) = total C - blocks_of c + blocks_of c'.
Proof.
  intros H. rewrite insert_take_drop by (by eapply lookup_lt_Some). rewrite <- (take_drop_middle C k c H) at 3. rewrite !total_app. unfold total. cbn. lia.
Qed.

Lemma inode_of_disk f : with_disk (inode_of f) zero_din = inode_of f.
Proof. done. Qed.

(** Writing back the inode of file [k], grown from [f] to [f'] by [s1]. *)
Lemma built_update s s1 s2 fl k f f' :
  built s fl -> fl !! k = Some f -> (k < 207)%nat -> m_type f' = m_type f ->
  grows s s1 (own f) (own f') -> appending s1 (m_addrs f') (m_bs f') (m_ind f') (m_data f') ->
  image_ok (img s2) (freeblock s1) -> freeblock s2 = freeblock s1 -> freeinode s2 = freeinode s1 -> sb_ s2 = mksb ->
  (forall b, b <> IBLOCK (Z.of_nat k + 1) mksb -> arr_get (img s2) b = arr_get (img s1) b) ->
  disk_inode (boot_view (img s2)) mksb (Z.of_nat k + 1) (inode_of f') ->
  (forall m i0, 0 <= m < 208 -> m <> Z.of_nat k + 1 -> disk_inode (boot_view (img s1)) mksb m i0 -> disk_inode (boot_view (img s2)) mksb m i0) ->
  built s2 (<[k := f']> fl).
Proof.
  intros B Hf Hk Ht G Ha Hi2 Hfb2 Hfi2 Hsb2 Hfr Hd Hdo. pose proof (lookup_lt_Some _ _ _ Hf) as Hkl.
  destruct (IBLOCK_mk (Z.of_nat k + 1)) as [_ HIr]; [lia|].
  assert (forall a, a ∈ own f' -> 59 <= a) as Hown'.
  { intros a Hin. pose proof (im_first _ _ (k_image _ _ B)). destruct (g_own _ _ _ _ G a Hin); [|lia]. by eapply own_range. }
  assert (forall b, 0 <= b < 59 -> arr_get (img s1) b = arr_get (img s) b) as Hlow.
  { intros b Hb. apply (g_frame _ _ _ _ G). intros Hc. apply Hown' in Hc. lia. }
  constructor.
  - by rewrite Hfb2.
  - done.
  - rewrite Hfi2, (g_fi _ _ _ _ G), length_insert. apply B.
  - intros b Hb Hn. rewrite Hfr by (unfold inode_block in Hn; lia). rewrite Hlow by done. by apply B.
  - intros k' g Hg. destruct (decide (k' = k)) as [->|Hne].
    + rewrite list_lookup_insert_eq in Hg by done. injection Hg as <-. rewrite Ht. by eapply B.
    + rewrite list_lookup_insert_ne in Hg by done. by eapply B.
  - intros n Hn. destruct (decide (n = Z.of_nat k + 1)) as [->|Hne].
    + replace (Z.to_nat (Z.of_nat k + 1 - 1)) with k by lia. by rewrite list_lookup_insert_eq.
    + rewrite list_lookup_insert_ne by lia. apply Hdo; [lia|done|]. eapply disk_inode_ext; [by apply B|].
      destruct (IBLOCK_mk n) as [_ Hr]; [lia|]. apply Hlow. lia.
  - intros k' g Hg. destruct (decide (k' = k)) as [->|Hne].
    + rewrite list_lookup_insert_eq in Hg by done. injection Hg as <-. apply (appending_frame s1); [done|lia|].
      intros a Hin. apply Hfr. apply Hown' in Hin. lia.
    + rewrite list_lookup_insert_ne in Hg by done. pose proof (g_le _ _ _ _ G). apply (appending_frame s); [by eapply B|lia|].
      intros a Hin. pose proof (own_range _ _ _ _ _ B Hg Hin). rewrite Hfr by lia. apply (g_frame _ _ _ _ G).
      intros Hc. destruct (g_own _ _ _ _ G a Hc) as [Hc'|]; [|lia]. apply Hne. symmetry. by eapply (k_disj _ _ B k k' f g a).
  - intros k1 k2 f1 f2 a H1 H2 Ha1 Ha2. destruct (decide (k1 = k)) as [->|N1], (decide (k2 = k)) as [->|N2]; [done| | |].
    + rewrite list_lookup_insert_eq in H1 by done. injection H1 as <-. rewrite list_lookup_insert_ne in H2 by done.
      pose proof (own_range _ _ _ _ _ B H2 Ha2). destruct (g_own _ _ _ _ G a Ha1); [|lia]. by eapply (k_disj _ _ B).
    + rewrite list_lookup_insert_eq in H2 by done. injection H2 as <-. rewrite list_lookup_insert_ne in H1 by done.
      pose proof (own_range _ _ _ _ _ B H1 Ha1). destruct (g_own _ _ _ _ G a Ha2); [|lia]. by eapply (k_disj _ _ B).
    + rewrite list_lookup_insert_ne in H1, H2 by done. by eapply (k_disj _ _ B).
  - change (map content) with (fmap (M := list) content). rewrite list_fmap_insert.
    rewrite (total_insert _ _ (content f)) by (by rewrite list_lookup_fmap, Hf). rewrite Hfb2. pose proof (g_count _ _ _ _ G) as Hc. pose proof (k_count _ _ B) as Hc0.
    pose proof (k_file _ _ B _ _ Hf) as Ha0. change (map content) with (fmap (M := list) content) in Hc0.
    unfold own in Hc. rewrite (owned_length _ _ (ap_tight _ _ _ _ _ Ha0)), (owned_length _ _ (ap_tight _ _ _ _ _ Ha)) in Hc.
    rewrite (ap_blks _ _ _ _ _ Ha0), (ap_blks _ _ _ _ _ Ha) in Hc.
    change (blocks_of (content ?g)) with (with_indirect (blks (length (m_data g)))). lia.
Qed.

(** Appending to file [k]. *)
Lemma iappend_ok s fl k f p :
  built s fl -> fl !! k = Some f -> (k < 207)%nat -> (length (m_data f) + length p <= 512 * 140)%nat ->
  59 + total (<[k := (m_type f, m_data f ++ p)]> (map content fl)) <= 1000 ->
  exists f' s', iappend (Z.of_nat k + 1) p s = Ret tt s' /\ built s' (<[k := f']> fl) /\ content f' = (m_type f, m_data f ++ p).
Proof.
  intros B Hf Hk Hmax Hroom. pose proof (k_file _ _ B _ _ Hf) as Ha. pose proof (k_inode _ _ B (Z.of_nat k + 1) ltac:(lia)) as Hdi.
  replace (Z.to_nat (Z.of_nat k + 1 - 1)) with k in Hdi by lia. rewrite Hf in Hdi. cbn in Hdi.
  unfold iappend. rewrite (bind_Ret _ _ _ _ _ (rinode_ok _ _ _ Hdi (k_sb _ _ B))). rewrite inode_of_disk. cbn [inode_of i_size].
  rewrite xint_id by lia.
  destruct (iappend_loop_ok (S (length p)) p s (inode_of f) (m_bs f) (m_ind f) (m_data f)) as (bs' & ind' & l & s1 & Hr & Ha1 & G).
  - apply B.
  - done.
  - lia.
  - done.
  - rewrite (total_insert _ _ (content f)) in Hroom by (change (map content) with (fmap (M := list) content); by rewrite list_lookup_fmap, Hf).
    rewrite (ap_blks _ _ _ _ _ Ha). pose proof (k_count _ _ B). change (blocks_of (content f)) with (with_indirect (blks (length (m_data f)))) in Hroom.
    unfold blocks_of in Hroom. cbn [snd] in Hroom. rewrite length_app in Hroom. lia.
  - set (f' := MFile (m_type f) (m_data f ++ p) l bs' ind'). rewrite (bind_Ret _ _ _ _ _ Hr). cbv beta iota.
    assert (set_i_size (xint (Z.of_nat (length (m_data f) + length p))) (set_i_addrs l (inode_of f)) = inode_of f') as ->.
    { unfold inode_of, f'. cbn. rewrite length_app, xint_id by lia. done. }
    destruct (winode_ok s1 (Z.of_nat k + 1) (inode_of f')) as (s2 & Hw & H1 & H2 & H3 & H4 & H5 & H6 & H7).
    + apply G.
    + rewrite (g_sb _ _ _ _ G). apply B.
    + lia.
    + eapply inode_of_fits; [exact Ha1|]. exact (k_type _ _ B k f Hf).
    + exists f', s2. split; [done|]. split; [|done]. by eapply built_update.
Qed.

(** A new file is empty. *)
Definition mfile0 (type : Z) : mfile := MFile type [] (replicate 13 0) [] 0.

Lemma appending_empty s type : appending s (m_addrs (mfile0 type)) (m_bs (mfile0 type)) (m_ind (mfile0 type)) (m_data (mfile0 type)).
Proof.
  constructor; [constructor; [|by apply Forall_nil|by apply NoDup_nil]|split; cbn; lia|done]. constructor; cbn; try done; try lia.
  right. by split; [|apply Forall_nil].
Qed.

Lemma ialloc_ok s fl type : built s fl -> (length fl < 207)%nat -> type = T_DIR \/ type = T_FILE ->
  exists s', ialloc type s = Ret (Z.of_nat (length fl) + 1) s' /\ built s' (fl ++ [mfile0 type]).
Proof.
  intros B Hl Ht. set (n := Z.of_nat (length fl) + 1). destruct (IBLOCK_mk n) as [_ HIr]; [lia|].
  destruct (winode_ok (set_freeinode (n + 1) s) n (inode_of (mfile0 type))) as (s' & Hw & H1 & H2 & H3 & H4 & H5 & H6 & H7).
  { apply B. } { apply B. } { lia. } { by eapply (inode_of_fits s), Ht; apply appending_empty. }
  exists s'. split.
  - unfold ialloc. rewrite gets_bind, (k_fi _ _ B). fold n. cbv zeta. rewrite modify_bind, u32_id by lia.
    replace (set_i_size _ _) with (inode_of (mfile0 type)) by (destruct Ht as [-> | ->]; done).
    by rewrite (bind_Ret _ _ _ _ _ Hw).
  - cbn in H1, H2, H3, H5, H7. assert (forall b, 59 <= b -> arr_get (img s') b = arr_get (img s) b) as Hhigh by (intros b Hb; apply H5; lia). constructor.
    + by rewrite H2.
    + done.
    + rewrite H3, length_app. cbn. lia.
    + intros b Hb Hn. rewrite H5 by (unfold inode_block in Hn; lia). by apply B.
    + intros k f [Hf|[_ Hf]]%lookup_app_Some; [by eapply B|]. apply list_lookup_singleton_Some in Hf as [_ <-]. done.
    + intros m Hm. destruct (decide (m = n)) as [->|Hne].
      * replace (Z.to_nat (n - 1)) with (length fl) by lia. by rewrite list_lookup_middle.
      * apply H7; [lia|done|]. pose proof (k_inode _ _ B m Hm) as Hd. destruct (decide (Z.to_nat (m - 1) < length fl)%nat).
        -- by rewrite lookup_app_l.
        -- rewrite lookup_ge_None_2 in Hd by lia. rewrite lookup_ge_None_2; [done|]. rewrite length_app. cbn. lia.
    + intros k f [Hf|[_ Hf]]%lookup_app_Some.
      * apply (appending_frame s); [by eapply B|lia|]. intros a Hin. apply Hhigh. apply (own_range _ _ _ _ _ B Hf Hin).
      * apply list_lookup_singleton_Some in Hf as [_ <-]. apply appending_empty.
    + assert (forall k f a, [mfile0 type] !! k = Some f -> a ∈ own f -> False) as Hnone.
      { intros k f a Hf Hin. apply list_lookup_singleton_Some in Hf as [_ <-]. by apply elem_of_nil in Hin. }
      intros k1 k2 f1 f2 a [Hf1|[_ Hf1]]%lookup_app_Some [Hf2|[_ Hf2]]%lookup_app_Some A1 A2; try (exfalso; by eapply Hnone). by eapply (k_disj _ _ B).
    + rewrite map_app, total_app, H2, (k_count _ _ B). change (total (map content [mfile0 type])) with 0. lia.
Qed.

(** * Contents *)

Definition holds (s : mk) (C : list (Z * list Z)) : Prop := exists fl, built s fl /\ map content fl = C.

Lemma holds_iappend s C k t d p : holds s C -> C !! k = Some (t, d) -> (length C <= 207)%nat ->
  (length d + length p <= 512 * 140)%nat -> 59 + total (<[k := (t, d ++ p)]> C) <= 1000 ->
  exists s', iappend (Z.of_nat k + 1) p s = Ret tt s' /\ holds s' (<[k := (t, d ++ p)]> C).
Proof.
  intros (fl & B & <-) HC Hl Hd Hroom. change (map content) with (fmap (M := list) content) in *. pose proof (lookup_lt_Some _ _ _ HC).
  rewrite list_lookup_fmap in HC. destruct (fl !! k) as [f|] eqn:Hf; [|done]. cbn in HC. injection HC as <- <-.
  destruct (iappend_ok s fl k f p) as (f' & s' & Hr & B' & Hc); [done|done|lia|done|done|].
  exists s'. split; [done|]. exists (<[k := f']> fl). split; [done|]. change (map content) with (fmap (M := list) content). by rewrite list_fmap_insert, Hc.
Qed.

Lemma holds_ialloc s C type : holds s C -> (length C < 207)%nat -> type = T_DIR \/ type = T_FILE ->
  exists s', ialloc type s = Ret (Z.of_nat (length C) + 1) s' /\ holds s' (C ++ [(type, [])]).
Proof.
  intros (fl & B & <-) Hl Ht. rewrite length_map in *. destruct (ialloc_ok s fl type) as (s' & Hr & B'); [done|done|done|].
  exists s'. split; [done|]. eexists. split; [done|]. by rewrite map_app.
Qed.

Lemma blocks_of_mono t d p : blocks_of (t, d) <= blocks_of (t, d ++ p).
Proof. unfold blocks_of. cbn [snd]. apply with_indirect_mono, blks_mono. rewrite length_app. lia. Qed.

Lemma holds_append_all chunks : forall s C k t d, holds s C -> C !! k = Some (t, d) -> (length C <= 207)%nat ->
  (length d + length (concat chunks) <= 512 * 140)%nat -> 59 + total (<[k := (t, d ++ concat chunks)]> C) <= 1000 ->
  exists s', append_all (Z.of_nat k + 1) chunks s = Ret tt s' /\ holds s' (<[k := (t, d ++ concat chunks)]> C).
Proof.
  induction chunks as [|c cs IH]; intros s C k t d H HC Hl Hd Hroom; cbn [concat append_all] in *.
  - exists s. split; [done|]. by rewrite app_nil_r, list_insert_id.
  - rewrite length_app in Hd. pose proof (lookup_lt_Some _ _ _ HC) as Hk. rewrite app_assoc in Hroom |- *.
    destruct (holds_iappend s C k t d c) as (s1 & H1 & R1); [done|done|done|lia| |].
    { rewrite (total_insert _ _ (t, d)) in * by done. pose proof (blocks_of_mono t (d ++ c) (concat cs)). lia. }
    destruct (IH s1 _ k t (d ++ c) R1) as (s2 & H2 & R2).
    + by apply list_lookup_insert_eq.
    + by rewrite length_insert.
    + rewrite length_app. lia.
    + by rewrite list_insert_insert_eq.
    + exists s2. rewrite (bind_Ret _ _ _ _ _ H1). rewrite list_insert_insert_eq in R2. done.
Qed.

(** * The files of the arguments *)

Lemma length_dirent inum name : length (dirent inum name) = 16%nat.
Proof. unfold dirent. rewrite length_app, length_take, length_app, length_replicate. change (Z.to_nat DIRSIZ) with 14%nat. change (length [u8 (xshort inum); u8 (xshort inum / 256)]) with 2%nat. lia. Qed.

(** The entries of the files, of which the first has inode [n]. *)
Fixpoint entries (n : Z) (fs : list (list Z * list (list Z))) : list Z :=
  match fs with [] => [] | f :: fs' => dirent n (file_name f.1) ++ entries (n + 1) fs' end.

Definition files (fs : list (list Z * list (list Z))) : list (Z * list Z) := map (fun f => (T_FILE, concat f.2)) fs.

Lemma length_entries fs : forall n, length (entries n fs) = (16 * length fs)%nat.
Proof. induction fs as [|f fs IH]; intros n; [done|]. cbn [entries length]. rewrite length_app, length_dirent, IH. lia. Qed.

Lemma blocks_of_nonneg c : 0 <= blocks_of c.
Proof. unfold blocks_of, with_indirect. destruct (12 <? _)%nat; lia. Qed.

Lemma total_nonneg C : 0 <= total C.
Proof. induction C as [|c C IH]; [done|]. change (total (c :: C)) with (blocks_of c + total C). pose proof (blocks_of_nonneg c). lia. Qed.

Lemma total_cons c C : total (c :: C) = blocks_of c + total C.
Proof. done. Qed.

(** What the program is given: names without a slash, of files that fit. *)
Definition fine (f : list Z * list (list Z)) : Prop := 47 ∉ f.1 /\ (length (concat f.2) <= 512 * 140)%nat.

Lemma holds_add_file s dd R f : holds s ((T_DIR, dd) :: R) -> fine f -> (length R < 206)%nat -> (length dd + 16 <= 512 * 140)%nat ->
  let n := Z.of_nat (length R) + 2 in
  let C' := (T_DIR, dd ++ dirent n (file_name f.1)) :: R ++ [(T_FILE, concat f.2)] in
  59 + total C' <= 1000 -> exists s', add_file 1 f s = Ret tt s' /\ holds s' C'.
Proof.
  intros H [Hn Hc] HR Hdd n C' Hroom. unfold add_file. rewrite bool_decide_eq_false_2 by done.
  destruct (holds_ialloc _ _ T_FILE H) as (s1 & H1 & R1); [cbn; lia|by right|].
  rewrite (bind_Ret _ _ _ _ _ H1). replace (Z.of_nat (length ((T_DIR, dd) :: R)) + 1) with n by (cbn [length]; lia).
  unfold C' in *. rewrite total_cons, total_app, total_cons in Hroom. change (total []) with 0 in Hroom. cbn [app] in R1.
  destruct (holds_iappend _ _ 0 T_DIR dd (dirent n (file_name f.1)) R1) as (s2 & H2 & R2).
  { done. } { cbn [length]. rewrite length_app. cbn. lia. } { rewrite length_dirent. lia. }
  { change (<[0%nat := ?x]> (?y :: ?l)) with (x :: l). rewrite total_cons, total_app. change (total [(T_FILE, [])]) with 0. pose proof (blocks_of_nonneg (T_FILE, concat f.2)). lia. }
  change (Z.of_nat 0 + 1) with 1 in H2. rewrite (bind_Ret _ _ _ _ _ H2). change (<[0%nat := ?x]> (?y :: ?l)) with (x :: l) in R2.
  set (e := (T_DIR, dd ++ dirent n (file_name f.1))) in *.
  assert (<[S (length R) := (T_FILE, [] ++ concat f.2)]> (e :: R ++ [(T_FILE, [])]) = e :: R ++ [(T_FILE, concat f.2)]) as Hins.
  { change (<[S ?m := ?x]> (e :: ?l)) with (e :: <[m := x]> l). f_equal. rewrite insert_app_r_alt by done. by rewrite Nat.sub_diag. }
  destruct (holds_append_all f.2 s2 _ (S (length R)) T_FILE [] R2) as (s3 & H3 & R3).
  { change ((e :: ?l) !! S ?m) with (l !! m). by rewrite list_lookup_middle. } { cbn [length]. rewrite length_app. cbn. lia. } { exact Hc. }
  { rewrite Hins, total_cons, total_app, total_cons. change (total []) with 0. lia. }
  exists s3. rewrite Hins in R3. split; [|done]. replace n with (Z.of_nat (S (length R)) + 1) by lia. done.
Qed.

Lemma holds_add_files fs : forall s dd R, holds s ((T_DIR, dd) :: R) -> Forall fine fs -> (length R + length fs <= 206)%nat ->
  (length dd + 16 * length fs <= 512 * 140)%nat ->
  let C' := (T_DIR, dd ++ entries (Z.of_nat (length R) + 2) fs) :: R ++ files fs in
  59 + total C' <= 1000 -> exists s', add_files 1 fs s = Ret tt s' /\ holds s' C'.
Proof.
  induction fs as [|f fs IH]; intros s dd R H Hf HR Hdd C' Hroom; cbn [add_files].
  { exists s. split; [done|]. unfold C', files. cbn. by rewrite !app_nil_r. }
  apply Forall_cons in Hf as [Hf Hfs]. cbn [length] in HR, Hdd. unfold C' in *. cbn [entries files map] in *.
  rewrite app_assoc in Hroom |- *. set (dd' := dd ++ dirent (Z.of_nat (length R) + 2) (file_name f.1)) in *.
  set (R' := R ++ [(T_FILE, concat f.2)]). assert (R ++ (T_FILE, concat f.2) :: map (fun f => (T_FILE, concat f.2)) fs = R' ++ files fs) as HR' by (unfold R'; by rewrite <- app_assoc).
  rewrite HR' in *. destruct (holds_add_file s dd R f) as (s1 & H1 & R1); [done|done|lia|lia| |].
  { fold R' dd'. rewrite total_cons, total_app in Hroom. rewrite total_cons. pose proof (total_nonneg (files fs)).
    pose proof (blocks_of_mono T_DIR dd' (entries (Z.of_nat (length R) + 2 + 1) fs)). lia. }
  fold R' dd' in R1. rewrite (bind_Ret _ _ _ _ _ H1).
  replace (Z.of_nat (length R) + 2 + 1) with (Z.of_nat (length R') + 2) in * by (unfold R'; rewrite length_app; cbn [length]; lia).
  apply IH; [done|done| | |done].
  - unfold R'. rewrite length_app. cbn. lia.
  - unfold dd'. rewrite length_app, length_dirent. lia.
Qed.
