(* ===== verification/MkfsMain.v ===== *)
(** main of mkfs.c: the image it leaves is a file system with the files of the
    arguments, as the routines of fs.c read it. *)
From S2P Require Import Prelude CString Bytes Bio BioSpec Log LogSpec Fs FsSpec FsBlocks FsInode FsFile Mkfs MkfsSpec MkfsImage.

(** * A file as fs.c reads it *)

Lemma blks_lt bn n : (bn < blks n)%nat <-> (512 * bn < n)%nat.
Proof.
  unfold blks. split; intros H; [|apply Nat.div_le_lower_bound; lia].
  assert (512 * S bn <= 512 * ((n + 511) / 512))%nat by lia. pose proof (Nat.Div0.mul_div_le (n + 511) 512). lia.
Qed.

Section view.
Context (s : mk) (i : inode) (bs : list Z) (ind : Z) (data : list Z).
Hypothesis A : appending s (i_addrs i) bs ind data.
Notation v := (boot_view (img s)).

Lemma addr_of_file bn : (bn < 140)%nat -> addr_of v i (Z.of_nat bn) = Some (default 0 (bs !! bn)).
Proof.
  intros Hbn. pose proof (h_stored _ _ _ _ _ _ (ap_held _ _ _ _ _ A)) as Hs. unfold addr_of.
  destruct (Z.ltb_spec (Z.of_nat bn) NDIRECT) as [Hlt|Hge]; change NDIRECT with 12 in *.
  - apply (stored_direct _ _ _ _ _ _ Hs). lia.
  - change 12 with NDIRECT. rewrite (stored_indirect _ _ _ _ _ Hs). cbn [mbind option_bind]. change NDIRECT with 12.
    destruct (Z.eqb_spec ind 0) as [E|E].
    + apply (ap_tight _ _ _ _ _ A) in E. by rewrite lookup_ge_None_2 by lia.
    + destruct (st_ind _ _ _ _ _ Hs E) as (D & HD & _ & Hk). cbn [v_view boot_view]. rewrite HD. cbn [mbind option_bind].
      replace (Z.to_nat (Z.of_nat bn - 12)) with (bn - 12)%nat by lia. rewrite Hk by lia. by replace (12 + (bn - 12))%nat with bn by lia.
Qed.

Lemma maps_file bn a : maps v i bn a -> bs !! Z.to_nat bn = Some a.
Proof.
  intros (Hr & Ha & H0). change MAXFILE with 140 in Hr. rewrite <- (Z2Nat.id bn) in Ha by lia. rewrite addr_of_file in Ha by lia.
  injection Ha as Ha. destruct (bs !! Z.to_nat bn); cbn in Ha; congruence.
Qed.

(** It has the blocks its bytes need, and no more. *)
Lemma maps_built bn : (bn < 140)%nat -> (exists a, maps v i (Z.of_nat bn) a) <-> (512 * bn < length data)%nat.
Proof.
  intros Hbn. rewrite <- blks_lt, <- (ap_blks _ _ _ _ _ A). split.
  - intros [a Ha]. apply maps_file, lookup_lt_Some in Ha. lia.
  - intros Hlt. destruct (lookup_lt_is_Some_2 bs bn Hlt) as [a Ha]. exists a. split; [change MAXFILE with 140; lia|]. rewrite addr_of_file, Ha by done. split; [done|].
    pose proof (stored_pos _ _ _ _ _ a (h_stored _ _ _ _ _ _ (ap_held _ _ _ _ _ A)) (list_elem_of_lookup_2 _ _ _ Ha)). lia.
Qed.

Lemma wf_built : wf_file v i.
Proof.
  pose proof (h_stored _ _ _ _ _ _ (ap_held _ _ _ _ _ A)) as Hs. pose proof (h_nodup _ _ _ _ _ _ (ap_held _ _ _ _ _ A)) as Hn. apply NoDup_app in Hn as (Hn & Hd & _). constructor.
  - intros b1 b2 a H1 H2. pose proof (maps_file _ _ H1) as E1. pose proof (maps_file _ _ H2) as E2. destruct H1 as [R1 _], H2 as [R2 _].
    pose proof (NoDup_lookup _ _ _ _ Hn E1 E2). lia.
  - intros bn a H. rewrite (stored_indirect _ _ _ _ _ Hs). intros [= Hia]. pose proof (maps_file _ _ H) as E. destruct H as (_ & _ & H0).
    apply (Hd a); [by eapply list_elem_of_lookup_2|]. rewrite Hia. destruct (Z.eqb_spec a 0); [done|left].
  - intros bn a H. destruct (st_data _ _ _ _ _ Hs _ _ (maps_file _ _ H)) as (D & HD & Hl & _). by exists D.
Qed.

Lemma fbyte_built off : (off < 512 * length bs)%nat -> fbyte v i (Z.of_nat off) = default 0 (data !! off).
Proof.
  intros Ho. pose proof (h_stored _ _ _ _ _ _ (ap_held _ _ _ _ _ A)) as Hs. pose proof (st_max _ _ _ _ _ Hs).
  pose proof (Nat.div_mod_eq off 512) as Hdm. assert (off mod 512 < 512)%nat by (apply Nat.mod_upper_bound; lia).
  assert (off / 512 < length bs)%nat as Hlt by (apply Nat.Div0.div_lt_upper_bound; lia).
  unfold fbyte. replace (Z.of_nat off / BSIZE) with (Z.of_nat (off / 512)) by (rewrite Nat2Z.inj_div; done).
  replace (Z.of_nat off mod BSIZE) with (Z.of_nat (off mod 512)) by (rewrite Nat2Z.inj_mod; done).
  rewrite addr_of_file by lia. destruct (lookup_lt_is_Some_2 bs (off / 512)) as [a Ha]; [done|]. rewrite Ha.
  destruct (st_data _ _ _ _ _ Hs _ _ Ha) as (D & HD & Hl & Hj). cbn [default mbind option_bind v_view boot_view from_option id]. rewrite HD.
  cbn [mbind option_bind]. rewrite arr_get_nat, Hj by done. by rewrite <- Hdm.
Qed.

(** The contents, and the rest of the last block. *)
Lemma fbytes_padded n : (n <= 512 * length bs)%nat -> fbytes v i 0 n = take n (data ++ replicate (512 * length bs - length data) 0).
Proof.
  intros Hn. pose proof (st_len _ _ _ _ _ (h_stored _ _ _ _ _ _ (ap_held _ _ _ _ _ A))) as Hl.
  apply list_eq. intros x. unfold fbytes. change (map ?f ?l) with (f <$> l). rewrite list_lookup_fmap. destruct (decide (x < n)%nat) as [Hx|Hx].
  - rewrite lookup_seq_lt by done. cbn [fmap option_fmap option_map]. rewrite lookup_take_lt by done. rewrite Z.add_0_l, Nat.add_0_l.
    rewrite fbyte_built by lia. destruct (data !! x) as [y|] eqn:E; [by rewrite (lookup_app_l_Some _ _ _ _ E)|].
    apply lookup_ge_None in E. rewrite lookup_app_r by done. rewrite lookup_replicate_2 by lia. done.
  - rewrite lookup_take_ge by lia. rewrite (proj2 (lookup_ge_None (seq 0 n) x)); [done|]. rewrite length_seq. lia.
Qed.

Lemma fbytes_built : fbytes v i 0 (length data) = data.
Proof.
  pose proof (st_len _ _ _ _ _ (h_stored _ _ _ _ _ _ (ap_held _ _ _ _ _ A))) as Hl. rewrite fbytes_padded by done. by rewrite take_app_length.
Qed.
End view.

(** * The start *)

Lemma wzero_ok n : forall s i, img s = replicate i zeroes -> wzero n (Z.of_nat i) s = Ret tt (set_img (replicate (i + n) zeroes) s).
Proof.
  induction n as [|n IH]; intros s i H; cbn [wzero].
  - rewrite Nat.add_0_r, <- H. by destruct s.
  - rewrite (bind_Ret _ _ s tt (set_img (replicate (S i) zeroes) s)).
    2: { unfold wsect, modify. rewrite H, length_replicate, Z.ltb_irrefl, Nat2Z.id, Nat.sub_diag. by rewrite replicate_S_end. }
    replace (Z.of_nat i + 1) with (Z.of_nat (S i)) by lia. rewrite IH by done. by replace (i + S n)%nat with (S i + n)%nat by lia.
Qed.

Lemma zeroes_lookup o : (o < 512)%nat -> zeroes !! o = Some 0.
Proof. intros H. by apply lookup_replicate_2. Qed.

Lemma le_get_zeroes k : forall o, (o + k <= 512)%nat -> le_get k zeroes o = Some 0.
Proof.
  induction k as [|k IH]; intros o H; [done|]. change (le_get (S k) zeroes o) with (b ← zeroes !! o; r ← le_get k zeroes (S o); Some (b + 256 * r)).
  rewrite zeroes_lookup by lia. cbn [mbind option_bind]. by rewrite IH by lia.
Qed.

Lemma get_uints_zeroes k : forall o, (o + 4 * k <= 512)%nat -> get_uints k zeroes o = Some (replicate k 0).
Proof.
  induction k as [|k IH]; intros o H; [done|]. cbn [get_uints replicate]. unfold get_uint. rewrite le_get_zeroes by lia. cbn [mbind option_bind]. by rewrite IH by lia.
Qed.

Lemma get_dinode_zeroes o i : (o + 64 <= 512)%nat -> get_dinode zeroes o i = Some (with_disk zero_din i).
Proof.
  intros H. unfold get_dinode, get_short, get_uint. rewrite !le_get_zeroes by lia. cbn [fmap option_fmap option_map mbind option_bind].
  by rewrite get_uints_zeroes by lia.
Qed.

(** The image before the root directory is made. *)
Definition start : mk := Mk (<[1%nat := sb_block mksb]> (replicate 1000 zeroes)) 1 59 mksb.

Lemma start_get b : 0 <= b < 1000 -> arr_get (img start) b = Some (if b =? 1 then sb_block mksb else zeroes).
Proof.
  intros Hb. change (img start) with (<[Z.to_nat 1 := sb_block mksb]> (replicate 1000 zeroes)).
  rewrite arr_get_set by (rewrite length_replicate; lia). destruct (decide (b = 1)) as [->|Hne]; [done|].
  destruct (Z.eqb_spec b 1); [done|]. rewrite <- (Z2Nat.id b) by lia. rewrite arr_get_nat. apply lookup_replicate_2. lia.
Qed.

Lemma built_start : built start [].
Proof.
  constructor; try done.
  - constructor; [unfold start; cbn [img]; by rewrite length_insert, length_replicate| |cbn; lia|].
    + unfold start. cbn [img]. apply Forall_insert; [by apply Forall_replicate|done].
    + intros b Hb. cbn [start freeblock] in Hb. rewrite start_get by lia. destruct (Z.eqb_spec b 1); [lia|done].
  - intros b Hb _. apply start_get. lia.
  - intros n Hn. destruct (IBLOCK_mk n) as [_ Hr]; [lia|]. exists zeroes. cbn [v_view boot_view]. rewrite start_get by lia.
    destruct (Z.eqb_spec (IBLOCK n mksb) 1); [lia|]. split_and!; [done|done|]. intros i'. apply get_dinode_zeroes, off_dinode_fits.
Qed.

(** * The bitmap *)

Lemma balloc_loop_ok n : forall i buf, length buf = 512%nat -> 0 <= i -> i + Z.of_nat n <= 4096 ->
  exists buf', balloc_loop n i buf = Some buf' /\ length buf' = 512%nat
    /\ forall j, 0 <= j -> bit_at buf' j = if decide (i <= j < i + Z.of_nat n) then Some true else bit_at buf j.
Proof.
  induction n as [|n IH]; intros i buf Hl Hi Hn; cbn [balloc_loop].
  - exists buf. split_and!; [done|done|]. intros j Hj. rewrite decide_False by lia. done.
  - assert (0 <= i / 8 < 512) by (split; [apply Z.div_pos; lia|apply Z.div_lt_upper_bound; lia]).
    destruct (arr_get_Some buf (i / 8)) as [x Hx]; [lia|]. destruct (bit_set_ok buf i x Hi Hx) as (b1 & H1 & Hl1 & Hb1).
    unfold bit_set in H1. rewrite Hx in H1 |- *. cbn [mbind option_bind] in H1 |- *. unfold bit_mask in H1. rewrite H1. cbn [mbind option_bind].
    destruct (IH (i + 1) b1) as (b2 & H2 & Hl2 & Hb2); [lia|lia|lia|]. exists b2. split_and!; [done|done|].
    intros j Hj. rewrite Hb2, Hb1 by done. repeat destruct decide; done || lia.
Qed.

Lemma bit_at_zeroes j : 0 <= j < 4096 -> bit_at zeroes j = Some false.
Proof.
  intros Hj. unfold bit_at. assert (0 <= j / 8 < 512) by (split; [apply Z.div_pos; lia|apply Z.div_lt_upper_bound; lia]).
  rewrite <- (Z2Nat.id (j / 8)) by lia. rewrite arr_get_nat. rewrite zeroes_lookup by lia.
  cbn [mbind option_bind]. by rewrite Z.testbit_0_l.
Qed.

Lemma bitmap_written s : image_ok (img s) (freeblock s) -> sb_ s = mksb ->
  exists buf, balloc (freeblock s) s = Ret tt (set_img (<[58%nat := buf]> (img s)) s) /\ length buf = 512%nat
    /\ forall b, 0 <= b < 1000 -> used (boot_view (<[58%nat := buf]> (img s))) mksb b (b <? freeblock s).
Proof.
  intros Hi Hsb. pose proof (im_first _ _ Hi). pose proof (im_len _ _ Hi) as Hlen.
  destruct (balloc_loop_ok (Z.to_nat (freeblock s)) 0 zeroes) as (buf & Hb & Hl & Hbits); [done|lia|lia|].
  exists buf. split; [|split; [done|]].
  - unfold balloc. destruct (Z.ltb_spec (freeblock s) (BSIZE * 8)) as [_|Hc]; [|change (BSIZE * 8) with 4096 in Hc; lia]. cbn [negb].
    rewrite Hb. unfold get_opt. rewrite ret_bind, gets_bind, Hsb. apply (wsect_ok s 58). lia.
  - intros b Hb'. exists buf. cbn [v_view boot_view]. change 58%nat with (Z.to_nat 58). rewrite arr_get_set by lia.
    assert (b / BPB = 0 /\ b mod BPB = b) as [E1 E2] by (rewrite BPB_val; split; [apply Z.div_small|apply Z.mod_small]; lia).
    unfold BBLOCK. rewrite E1, E2. rewrite decide_True by done. split; [done|]. rewrite bit_free_at by lia. rewrite Hbits by lia.
    rewrite bit_at_zeroes by lia. destruct (Z.ltb_spec b (freeblock s)), (decide (0 <= b < 0 + Z.of_nat (Z.to_nat (freeblock s)))); done || lia.
Qed.

(** * The end *)

(** The size of the root directory at the end, in bytes. *)
Definition rounded (n : Z) : Z := (n / 512 + 1) * 512.

Lemma fix_root_ok s fl f0 : built s fl -> fl !! 0%nat = Some f0 ->
  exists s', fix_root 1 s = Ret tt s' /\ image_ok (img s') (freeblock s)
    /\ freeblock s' = freeblock s /\ sb_ s' = mksb
    /\ (forall b, ~ inode_block b -> arr_get (img s') b = arr_get (img s) b)
    /\ disk_inode (boot_view (img s')) mksb 1 (set_i_size (rounded (i_size (inode_of f0))) (inode_of f0))
    /\ forall m i0, 1 < m < 208 -> disk_inode (boot_view (img s)) mksb m i0 -> disk_inode (boot_view (img s')) mksb m i0.
Proof.
  intros B Hf. pose proof (k_inode _ _ B 1 ltac:(lia)) as Hdi. change (Z.to_nat (1 - 1)) with 0%nat in Hdi. rewrite Hf in Hdi. cbn in Hdi.
  pose proof (inode_of_fits _ _ (k_file _ _ B _ _ Hf) (k_type _ _ B _ _ Hf)) as Hfit.
  pose proof (h_stored _ _ _ _ _ _ (ap_held _ _ _ _ _ (k_file _ _ B _ _ Hf))) as Hs. pose proof (st_max _ _ _ _ _ Hs). pose proof (st_len _ _ _ _ _ Hs).
  set (z := i_size (inode_of f0)) in *. assert (0 <= z <= 71680) as Hz by (unfold z; cbn [inode_of i_size]; lia).
  assert (0 <= z / 512 <= 140) by (split; [apply Z.div_pos; lia|apply Z.div_le_upper_bound; lia]).
  destruct (winode_ok s 1 (set_i_size (rounded z) (inode_of f0))) as (s' & Hw & W1 & W2 & _ & W4 & W5 & W6 & W7).
  { apply B. } { apply B. } { lia. } { destruct Hfit. constructor; try done. change (0 <= rounded z < 4294967296). unfold rounded. lia. }
  exists s'. split_and!; try done.
  - unfold fix_root. rewrite (bind_Ret _ _ _ _ _ (rinode_ok _ _ _ Hdi (k_sb _ _ B))). rewrite inode_of_disk. fold z. cbv zeta.
    change BSIZE with 512. rewrite (xint_id z) by lia. fold (rounded z). rewrite u32_id, xint_id by (unfold rounded; lia). done.
  - intros b Hb. apply W5. destruct (IBLOCK_mk 1) as [_ Hr]; [lia|]. unfold inode_block in Hb. lia.
  - intros m i0 Hm. apply W7; lia.
Qed.

(** A file of type [type] and [size] with the bytes [data], and the blocks they
    need, at inode [n]. *)
Definition file_at (v : vdisk) (n type size : Z) (data : list Z) : Prop :=
  exists i, disk_inode v mksb n i /\ i_type i = type /\ i_nlink i = 1 /\ i_size i = size
    /\ wf_file v i /\ fbytes v i 0 (length data) = data
    /\ forall bn, (bn < 140)%nat -> (exists a, maps v i (Z.of_nat bn) a) <-> (512 * bn < length data)%nat.

(** A file system with the root directory [root] and the contents [R] in the
    inodes behind it, on the blocks below [fb]. *)
Record file_system (d : list block) (fb : Z) (root : list Z) (R : list (Z * list Z)) : Prop := {
  fsys_len : length d = 1000%nat;
  fsys_sb : exists b, arr_get d 1 = Some b /\ decode_sb b = Some mksb;
  fsys_log : arr_get d (sb_logstart mksb) = Some zeroes;
  fsys_root : file_at (boot_view d) ROOTINO T_DIR (rounded (Z.of_nat (length root))) root;
  fsys_file k c : R !! k = Some c -> file_at (boot_view d) (Z.of_nat k + 2) c.1 (Z.of_nat (length c.2)) c.2;
  fsys_free n : Z.of_nat (length R) + 1 < n < 208 -> disk_inode (boot_view d) mksb n zero_din;
  fsys_used b : 0 <= b < 1000 -> used (boot_view d) mksb b (b <? fb);
  fsys_own n i bn a : 0 < n <= Z.of_nat (length R) + 1 -> disk_inode (boot_view d) mksb n i -> maps (boot_view d) i bn a ->
    59 <= a < fb /\ forall n' i' bn', 0 < n' <= Z.of_nat (length R) + 1 -> disk_inode (boot_view d) mksb n' i' -> maps (boot_view d) i' bn' a -> n' = n
}.

Lemma disk_inode_addrs v n i j : disk_inode v mksb n i -> disk_inode v mksb n j -> i_addrs i = i_addrs j.
Proof.
  intros (D & HD & _ & H) (D' & HD' & _ & H'). rewrite HD in HD'. injection HD' as <-. specialize (H zero_din). rewrite H' in H. by injection H.
Qed.

Lemma maps_addrs v i j bn a : i_addrs i = i_addrs j -> maps v i bn a -> maps v j bn a.
Proof. intros E. unfold maps, addr_of. by rewrite E. Qed.

(** What holds of an image [d] that keeps the blocks of [s] and has its
    inodes, but for the size of the first. *)
Lemma file_system_built s s' f0 fl : built s (f0 :: fl) -> m_type f0 = T_DIR -> length (img s') = 1000%nat -> freeblock s' = freeblock s ->
  (forall b, ~ inode_block b -> b <> 58 -> arr_get (img s') b = arr_get (img s) b) ->
  disk_inode (boot_view (img s')) mksb 1 (set_i_size (rounded (i_size (inode_of f0))) (inode_of f0)) ->
  (forall m i0, 1 < m < 208 -> disk_inode (boot_view (img s)) mksb m i0 -> disk_inode (boot_view (img s')) mksb m i0) ->
  (forall b, 0 <= b < 1000 -> used (boot_view (img s')) mksb b (b <? freeblock s)) -> (length fl < 207)%nat ->
  file_system (img s') (freeblock s) (m_data f0) (map content fl).
Proof.
  intros B Ht Hlen Hfb Hfr H1 Hm Hu Hfl.
  assert (forall k f, (f0 :: fl) !! k = Some f -> appending s' (m_addrs f) (m_bs f) (m_ind f) (m_data f)) as Happ.
  { intros k f Hf. apply (appending_frame s); [by eapply B|lia|]. intros a Ha. pose proof (own_range _ _ _ _ _ B Hf Ha). apply Hfr; [unfold inode_block|]; lia. }
  assert (forall k f, fl !! k = Some f -> disk_inode (boot_view (img s')) mksb (Z.of_nat k + 2) (inode_of f)) as Hdi.
  { intros k f Hf. pose proof (lookup_lt_Some _ _ _ Hf). apply Hm; [lia|]. pose proof (k_inode _ _ B (Z.of_nat k + 2) ltac:(lia)) as Hk.
    replace (Z.to_nat (Z.of_nat k + 2 - 1)) with (S k) in Hk by lia. change ((f0 :: fl) !! S k) with (fl !! k) in Hk. by rewrite Hf in Hk. }
  assert (forall n i, 0 < n <= Z.of_nat (length fl) + 1 -> disk_inode (boot_view (img s')) mksb n i ->
    exists f, (f0 :: fl) !! Z.to_nat (n - 1) = Some f /\ i_addrs i = m_addrs f) as Hwhich.
  { intros n i Hn Hi. destruct (decide (n = 1)) as [->|Hne].
    - exists f0. split; [done|]. rewrite (disk_inode_addrs _ _ _ _ Hi H1). done.
    - destruct (lookup_lt_is_Some_2 fl (Z.to_nat (n - 2))) as [f Hf]; [lia|]. exists f. replace (Z.to_nat (n - 1)) with (S (Z.to_nat (n - 2))) by lia. split; [done|].
      pose proof (Hdi _ _ Hf) as Hi'. rewrite Z2Nat.id in Hi' by lia. replace (n - 2 + 2) with n in Hi' by lia. by rewrite (disk_inode_addrs _ _ _ _ Hi Hi'). }
  assert (forall n i bn a, 0 < n <= Z.of_nat (length fl) + 1 -> disk_inode (boot_view (img s')) mksb n i -> maps (boot_view (img s')) i bn a ->
    exists f, (f0 :: fl) !! Z.to_nat (n - 1) = Some f /\ a ∈ own f) as Hown.
  { intros n i bn a Hn Hi Ha. destruct (Hwhich n i Hn Hi) as (f & Hf & E). exists f. split; [done|]. pose proof (Happ _ _ Hf) as A. rewrite <- E in A.
    apply owned_bs. eapply list_elem_of_lookup_2. by eapply maps_file. }
  constructor; rewrite ?length_map.
  - done.
  - exists (sb_block mksb). split; [|vm_compute; done]. rewrite Hfr by (unfold inode_block; lia). apply (k_meta _ _ B 1); unfold inode_block; lia.
  - change (sb_logstart mksb) with 2. rewrite Hfr by (unfold inode_block; lia). apply (k_meta _ _ B 2); unfold inode_block; lia.
  - eexists. split; [exact H1|]. pose proof (Happ 0%nat f0 eq_refl) as A. split_and!; [done|done|done|by eapply wf_built|by eapply fbytes_built|]. intros bn. by eapply maps_built.
  - intros k c Hc. change (map content) with (fmap (M := list) content) in Hc. rewrite list_lookup_fmap in Hc. destruct (fl !! k) as [f|] eqn:Hf; [|done]. injection Hc as <-.
    eexists. split; [by apply Hdi|]. pose proof (Happ (S k) f Hf) as A. split_and!; [done|done|done|by eapply wf_built|by eapply fbytes_built|]. intros bn. by eapply maps_built.
  - intros n Hn. apply Hm; [lia|]. pose proof (k_inode _ _ B n ltac:(lia)) as Hk. rewrite lookup_ge_None_2 in Hk; [done|]. cbn. lia.
  - done.
  - intros n i bn a Hn Hi Ha. destruct (Hown n i bn a Hn Hi Ha) as (f & Hf & Hin). split; [by eapply own_range|].
    intros n' i' bn' Hn' Hi' Ha'. destruct (Hown n' i' bn' a Hn' Hi' Ha') as (f' & Hf' & Hin'). pose proof (k_disj _ _ B _ _ _ _ _ Hf Hf' Hin Hin'). lia.
Qed.

(** The directory main writes. *)
Definition root_dir (fs : list (list Z * list (list Z))) : list Z := dirent 1 [46] ++ dirent 1 [46; 46] ++ entries 2 fs.

(** The root directory with its first two entries. *)
Lemma holds_root : exists s1 s2 s3, ialloc T_DIR start = Ret 1 s1 /\ iappend 1 (dirent 1 [46]) s1 = Ret tt s2
  /\ iappend 1 (dirent 1 [46; 46]) s2 = Ret tt s3 /\ holds s3 [(T_DIR, dirent 1 [46] ++ dirent 1 [46; 46])].
Proof.
  destruct (holds_ialloc start [] T_DIR) as (s1 & E1 & R1); [by exists []; split; [apply built_start|]|cbn; lia|by left|].
  assert (forall d : list Z, (length d <= 512)%nat -> 59 + total [(T_DIR, d)] <= 1000) as Hone.
  { intros d Hle. assert (blks (length d) <= 1)%nat by (apply blks_bound; lia). rewrite total_cons. change (total []) with 0. unfold blocks_of, with_indirect. cbn [snd].
    destruct (Nat.ltb_spec 12 (blks (length d))); lia. }
  destruct (holds_iappend s1 _ 0 T_DIR [] (dirent 1 [46]) R1) as (s2 & E2 & R2).
  { done. } { cbn; lia. } { rewrite length_dirent. cbn [length]. lia. } { apply Hone. rewrite length_app, length_dirent. cbn [length]. lia. }
  destruct (holds_iappend s2 _ 0 T_DIR (dirent 1 [46]) (dirent 1 [46; 46]) R2) as (s3 & E3 & R3).
  { done. } { cbn; lia. } { rewrite !length_dirent. lia. } { apply Hone. rewrite length_app, !length_dirent. lia. }
  by exists s1, s2, s3.
Qed.

(** The last steps of main. *)
Lemma finish_ok s f0 fl : built s (f0 :: fl) -> m_type f0 = T_DIR -> (length fl < 207)%nat ->
  exists s', (fix_root 1 ;; s <- gets (fun s => s) ;; balloc (freeblock s)) s = Ret tt s'
    /\ freeblock s' = freeblock s /\ file_system (img s') (freeblock s) (m_data f0) (map content fl).
Proof.
  intros B HT Hfl. destruct (fix_root_ok s _ f0 B eq_refl) as (s5 & E5 & W1 & W2 & W3 & W4 & W5 & W6). rewrite (bind_Ret _ _ _ _ _ E5), gets_bind.
  rewrite <- W2 in W1. destruct (bitmap_written s5 W1 W3) as (buf & E6 & Hbl & Hu). exists (set_img (<[58%nat := buf]> (img s5)) s5).
  split; [done|]. split; [done|]. pose proof (im_len _ _ W1) as Hlen.
  assert (forall b, b <> 58 -> arr_get (<[58%nat := buf]> (img s5)) b = arr_get (img s5) b) as H58.
  { intros b Hb. change 58%nat with (Z.to_nat 58). rewrite arr_get_set by lia. by rewrite decide_False. }
  assert (forall m i0, 0 <= m < 208 -> disk_inode (boot_view (img s5)) mksb m i0 -> disk_inode (boot_view (<[58%nat := buf]> (img s5))) mksb m i0) as Hd58.
  { intros m i0 Hm Hi. eapply disk_inode_ext; [done|]. apply H58. destruct (IBLOCK_mk m Hm) as [_ ?]. lia. }
  apply (file_system_built s (set_img (<[58%nat := buf]> (img s5)) s5)); try done; cbn [img set_img freeblock].
  - by rewrite length_insert.
  - intros b Hb H. rewrite H58 by done. by apply W4.
  - apply Hd58; [lia|done].
  - intros m i0 Hm Hi. apply Hd58; [lia|]. by apply W6.
  - rewrite <- W2. exact Hu.
Qed.

(** C5: mkfs, given names without a slash and files that fit in the inodes and
    the blocks there are, ends with an image that fs.c reads as a file system:
    the superblock decodes to the layout, the log is empty, inode k + 2 is the
    k-th file with one link and its bytes in order, inode 1 is the root
    directory with the entries of the files, the inodes behind are free, the
    blocks of the files are different from each other and from the metadata,
    and the bitmap marks exactly the blocks in use. *)
Theorem mkfs_builds_file_system fs :
  Forall fine fs -> (length fs <= 198)%nat -> 59 + total ((T_DIR, root_dir fs) :: files fs) <= 1000 ->
  exists s, main fs mk0 = Ret tt s /\ freeblock s = 59 + total ((T_DIR, root_dir fs) :: files fs)
    /\ file_system (img s) (freeblock s) (root_dir fs) (files fs).
Proof.
  intros Hf Hn Hroom. unfold main. rewrite !modify_bind. rewrite (bind_Ret _ _ _ tt (set_img (replicate 1000 zeroes) (set_freeblock nmeta (set_sb mksb mk0)))).
  2: { apply (wzero_ok 1000 _ 0). done. }
  rewrite (bind_Ret _ _ _ tt start) by (apply wsect_ok; cbn [img set_img]; rewrite length_replicate; lia).
  destruct holds_root as (s1 & s2 & s3 & E1 & E2 & E3 & R3). rewrite (bind_Ret _ _ _ _ _ E1). change (negb (1 =? ROOTINO)) with false. cbv iota.
  rewrite (bind_Ret _ _ _ _ _ E2), (bind_Ret _ _ _ _ _ E3).
  destruct (holds_add_files fs s3 _ [] R3) as (s4 & E4 & R4); [done|cbn; lia|rewrite length_app, !length_dirent; lia| |].
  { cbn [length app]. change (Z.of_nat 0 + 2) with 2. rewrite <- app_assoc. exact Hroom. }
  rewrite (bind_Ret _ _ _ _ _ E4). cbn [length app] in R4. change (Z.of_nat 0 + 2) with 2 in R4. rewrite <- app_assoc in R4. fold (root_dir fs) in R4.
  destruct R4 as ([|f0 fl] & B & HC); [done|]. injection HC as HT HD HR. change (map content fl = files fs) in HR.
  assert (length fl = length fs) as Hl by (apply (f_equal length) in HR; unfold files in HR; by rewrite !length_map in HR).
  destruct (finish_ok s4 f0 fl B HT) as (s5 & E5 & Hfb & Hsys); [lia|]. exists s5. split; [exact E5|].
  rewrite <- HR, <- HD, Hfb. split; [|done]. rewrite (k_count _ _ B). cbn [map]. unfold content at 1. by rewrite HT.
Qed.

Lemma mkfs_builds_file_system_witness :
  let fs := [(bytes "README", [[104; 105]]); (bytes "_cat", [replicate 512 7; [1]])] in
  exists s, main fs mk0 = Ret tt s /\ freeblock s = 63 /\ file_system (img s) (freeblock s) (root_dir fs) (files fs).
Proof.
  intros fs. destruct (mkfs_builds_file_system fs) as (s & Hr & Hfb & Hsys).
  - repeat (apply Forall_cons; split; [split; [apply (bool_decide_unpack _); vm_compute; done|apply Nat.leb_le; vm_compute; done]|]). by apply Forall_nil.
  - vm_compute. lia.
  - vm_compute. done.
  - exists s. split; [done|]. split; [|done]. rewrite Hfb. vm_compute. done.
Defined.

(** The root directory's size is rounded up even when its entries fill its
    blocks: the size then counts a block that the directory does not have. *)
Theorem full_root_has_no_last_block d fb root R :
  file_system d fb root R -> (length root < 512 * 139)%nat -> length root = (512 * (length root / 512))%nat ->
  exists i, disk_inode (boot_view d) mksb ROOTINO i /\ i_size i = Z.of_nat (length root) + 512
    /\ ~ exists a, maps (boot_view d) i (i_size i / 512 - 1) a.
Proof.
  intros H Hl Hm. destruct (fsys_root _ _ _ _ H) as (i & Hi & _ & _ & Hs & _ & _ & Hb). exists i. split; [done|].
  set (k := (length root / 512)%nat) in *. assert (i_size i = Z.of_nat (S k) * 512) as E.
  { rewrite Hs. unfold rounded. replace (Z.of_nat (length root) / 512) with (Z.of_nat k) by (unfold k; rewrite Nat2Z.inj_div; done). lia. }
  split; [lia|]. rewrite E, Z.div_mul by lia. replace (Z.of_nat (S k) - 1) with (Z.of_nat k) by lia. rewrite Hb by lia. lia.
Qed.
