(* ===== verification/FsDir.v ===== *)
(** Directories of fs.c: dirlookup and dirlink.

    A directory is the list of its entries of 16 bytes; a free entry has inode
    number 0.  dirlookup finds the first entry in use with the name; dirlink
    puts a new one in the first free place. *)
From S2P Require Import Prelude CString Bytes Bio BioSpec Log LogSpec LogCrash LogWrite Fs FsSpec FsInode FsFile FsPath FsExample.

(** * Names *)

Lemma cstr_shift n : forall m m' p q, (forall i, (i < n)%nat -> m (p + Z.of_nat i) = m' (q + Z.of_nat i)) -> cstr m p n = cstr m' q n.
Proof.
  induction n as [|n IH]; intros m m' p q H; [done|]. cbn [cstr]. pose proof (H 0%nat ltac:(lia)) as H0. rewrite !Z.add_0_r in H0. rewrite H0.
  destruct (m' q =? 0); [done|]. f_equal. apply IH. intros i Hi. specialize (H (S i) ltac:(lia)). rewrite <- !Z.add_assoc.
  by replace (1 + Z.of_nat i) with (Z.of_nat (S i)) by lia.
Qed.

Lemma place_out l a m x : ~ (a <= x < a + Z.of_nat (length l)) -> place l a m x = m x.
Proof. intros H. unfold place. destruct (Z.leb_spec a x), (Z.ltb_spec x (a + Z.of_nat (length l))); cbn; done || lia. Qed.

Lemma place_shift l a b x : place l (a + b) mem0 (x + b) = place l a mem0 x.
Proof.
  unfold place. replace (x + b - (a + b)) with (x - a) by lia.
  destruct (Z.leb_spec (a + b) (x + b)), (Z.leb_spec a x), (Z.ltb_spec (x + b) (a + b + Z.of_nat (length l))), (Z.ltb_spec x (a + Z.of_nat (length l))); cbn; done || lia.
Qed.

(** namecmp compares the strings in the first DIRSIZ bytes. *)
Lemma namecmp_zero s t : (length s <= 256)%nat -> namecmp s t = 0 <-> name_str s = name_str t.
Proof.
  intros Hs. unfold namecmp. rewrite strncmp_zero_iff. unfold name_str. change (Z.to_nat DIRSIZ) with 14%nat.
  rewrite (cstr_shift 14 (place s 0 (place t 256 mem0)) (place s 0 mem0) 0 0), (cstr_shift 14 (place s 0 (place t 256 mem0)) (place t 0 mem0) 256 0); [done| |].
  - intros i Hi. rewrite place_out by lia. replace (256 + Z.of_nat i) with (0 + Z.of_nat i + 256) by lia. apply (place_shift t 0 256).
  - intros i Hi. unfold place at 1 3. destruct ((0 <=? 0 + Z.of_nat i) && _); [done|]. by rewrite place_out by lia.
Qed.

Lemma length_make_dirent inum name : length (make_dirent inum name) = 16%nat.
Proof. unfold make_dirent, region. by rewrite length_app, length_le_put, length_map, length_seq. Qed.

Lemma make_dirent_name inum name : name_str (de_name (make_dirent inum name)) = name_str name.
Proof.
  unfold de_name, make_dirent. rewrite drop_app_length' by (by rewrite length_le_put). change (Z.to_nat DIRSIZ) with 14%nat.
  unfold name_str at 1. change (Z.to_nat DIRSIZ) with 14%nat.
  assert (cstr (place name 256 mem0) 256 14 = name_str name) as Hn.
  { apply cstr_shift. intros i Hi. replace (256 + Z.of_nat i) with (0 + Z.of_nat i + 256) by lia. apply (place_shift name 0 256). }
  rewrite <- Hn. apply cstr_of_nth; [apply length_cstr|apply cstr_nonzero|]. intros i Hi. unfold place at 1, region. rewrite length_map, length_seq.
  destruct (Z.leb_spec 0 (0 + Z.of_nat i)), (Z.ltb_spec (0 + Z.of_nat i) (0 + Z.of_nat 14)); try lia. cbn [andb].
  replace (Z.to_nat (0 + Z.of_nat i - 0)) with i by lia. rewrite nth_lookup. change (map ?f ?l) with (f <$> l). rewrite list_lookup_fmap, lookup_seq_lt by lia. cbn [fmap option_fmap option_map default from_option id].
  rewrite strncpy_spec by (unfold apart; lia). destruct (Z.leb_spec 0 (0 + Z.of_nat (0 + i))), (Z.ltb_spec (0 + Z.of_nat (0 + i)) (0 + Z.of_nat 14)); try lia.
  cbn [andb]. by replace (Z.to_nat (0 + Z.of_nat (0 + i) - 0)) with i by lia.
Qed.

Lemma make_dirent_inum inum name : 0 <= inum < 65536 -> de_inum (make_dirent inum name) = Some inum.
Proof.
  intros H. unfold de_inum, get_ushort, make_dirent. rewrite (le_get_ext 2 (le_put 2 [0; 0] 0 inum)).
  - rewrite le_get_put by (cbn; lia). f_equal. by apply Z.mod_small.
  - intros j Hj. apply lookup_app_l. rewrite length_le_put. cbn. lia.
Qed.

(** * Entries *)

Definition dent (v : vdisk) (i : inode) (k : nat) : list Z := fbytes v i (Z.of_nat k * 16) 16.
Definition dir (v : vdisk) (i : inode) (n : nat) : list (list Z) := dent v i <$> seq 0 n.

Definition d_inum (e : list Z) : Z := default 0 (de_inum e).
(** An entry in use with this name, and a free one. *)
Definition named (name e : list Z) : Prop := d_inum e <> 0 /\ name_str name = name_str (de_name e).
Definition free_entry (e : list Z) : Prop := d_inum e = 0.

#[global] Instance named_dec name e : Decision (named name e).
Proof. unfold named. apply _. Defined.
#[global] Instance free_entry_dec e : Decision (free_entry e).
Proof. unfold free_entry. apply _. Defined.

Lemma dent_inum v i k : de_inum (dent v i k) = Some (d_inum (dent v i k)).
Proof.
  unfold d_inum, de_inum, get_ushort. destruct (le_get_Some 2 (dent v i k) 0) as [x ->]; [|done]. unfold dent. rewrite length_fbytes. lia.
Qed.

(** A loop that looks for an index, through states that are the same for it. *)
Lemma for_loop_search {S A} (body : Z -> M S (option A)) (Inv : S -> Prop) (g : nat -> option A) n : forall i s,
  Inv s -> (forall j t, (i <= j < i + n)%nat -> Inv t -> exists t', body (Z.of_nat j) t = Ret (g j) t' /\ Inv t') ->
  exists s', for_loop n (Z.of_nat i) body s = Ret (foldr (fun j r => match g j with Some a => Some a | None => r end) None (seq i n)) s' /\ Inv s'.
Proof.
  induction n as [|n IH]; intros i s Hs Hb; cbn [for_loop seq foldr]; [by exists s|].
  destruct (Hb i s) as (t & E & Ht); [lia|done|]. rewrite (bind_Ret _ _ _ _ _ E). destruct (g i) as [a|]; [by exists t|].
  replace (Z.of_nat i + 1) with (Z.of_nat (Datatypes.S i)) by lia. apply IH; [done|]. intros j u Hj. apply Hb. lia.
Qed.

Lemma foldr_find {A} (P : list Z -> Prop) `{forall e, Decision (P e)} (h : nat -> list Z -> A) (f : nat -> list Z) n : forall i,
  foldr (fun j r => match (if decide (P (f j)) then Some (h j (f j)) else None) with Some a => Some a | None => r end) None (seq i n)
  = (fun x : nat * list Z => h (i + x.1)%nat x.2) <$> list_find P (f <$> seq i n).
Proof.
  induction n as [|n IH]; intros i; [done|]. cbn [seq foldr fmap list_fmap list_find]. destruct (decide (P (f i))).
  - cbn. by rewrite Nat.add_0_r.
  - rewrite IH. change (list_fmap _ _ f (seq (S i) n)) with (f <$> seq (S i) n). destruct (list_find P (f <$> seq (S i) n)) as [[k e]|]; [|done]. cbn. by rewrite Nat.add_succ_r.
Qed.

(** * Looking up *)

(** A directory of [n] entries with all its blocks, in a transaction. *)
Record directory (s : fss) (v : vdisk) (hs : list Z) (dp : nat) (i : inode) (n j k : nat) : Prop := {
  di_tx : ftx s v hs (S j) k;
  di_held : v_held v = ∅;
  di_at : f_inodes s !! dp = Some i;
  di_dev : i_dev i = 1;
  di_type : i_type i = T_DIR;
  di_size : i_size i = 16 * Z.of_nat n;
  di_max : (n <= 4480)%nat;
  di_wf : wf_file v i;
  di_maps x : 0 <= x < i_size i -> exists a, maps v i (x / BSIZE) a
}.

Lemma directory_same s s' v hs dp i n j k : directory s v hs dp i n j k -> ftx s' v hs (S j) k -> same_top s s' -> directory s' v hs dp i n j k.
Proof. intros [D1 D2 D3 D4 D5 D6 D7 D8 D9] T (E1 & E2 & E3). constructor; try done. by rewrite E2. Qed.

Section dirs.
Context `{DEV : Devsw}.

Lemma read_entry s v hs dp i n j k x : directory s v hs dp i n j k -> (x < n)%nat ->
  exists s', readi dp (Z.of_nat x * sizeof_dirent) sizeof_dirent s = Ret (16, dent v i x) s' /\ directory s' v hs dp i n j k /\ same_top s s'.
Proof.
  intros D Hx. pose proof (di_size _ _ _ _ _ _ _ _ D) as Hs. pose proof (di_max _ _ _ _ _ _ _ _ D) as Hm. change sizeof_dirent with 16.
  destruct (readi_ok s v hs dp i (Z.of_nat x * 16) 16 j k) as (s' & H1 & T & E); try (apply D || lia).
  - by rewrite (di_type _ _ _ _ _ _ _ _ D).
  - unfold INT_MAX. lia.
  - intros y Hy. apply (di_maps _ _ _ _ _ _ _ _ D). lia.
  - exists s'. split; [done|]. split; [by eapply directory_same|done].
Qed.

Definition slot (p : nat * list Z) : Z * Z := (d_inum p.2, Z.of_nat p.1 * 16).

Lemma dirlookup_body_ok s v hs dp i n j k name x : directory s v hs dp i n j k -> (length name <= 256)%nat -> (x < n)%nat ->
  exists s', dirlookup_body dp name (Z.of_nat x) s = Ret (if decide (named name (dent v i x)) then Some (slot (x, dent v i x)) else None) s'
    /\ directory s' v hs dp i n j k /\ same_top s s'.
Proof.
  intros D Hn Hx. destruct (read_entry s v hs dp i n j k x D Hx) as (s' & H1 & D' & E). exists s'. split; [|done].
  unfold dirlookup_body. cbv zeta. rewrite (bind_Ret _ _ _ _ _ H1). cbn [fst snd]. change (negb (16 =? sizeof_dirent)) with false. cbv iota.
  rewrite dent_inum. unfold get_opt. rewrite ret_bind. destruct (Z.eqb_spec (d_inum (dent v i x)) 0) as [E0|E0].
  { rewrite decide_False; [done|]. by intros [? _]. }
  destruct (Z.eqb_spec (namecmp name (de_name (dent v i x))) 0) as [Ec|Ec]; rewrite namecmp_zero in Ec by done.
  - by rewrite decide_True.
  - rewrite decide_False; [done|]. by intros [_ ?].
Qed.

Lemma dirlink_body_ok s v hs dp i n j k x : directory s v hs dp i n j k -> (x < n)%nat ->
  exists s', dirlink_body dp (Z.of_nat x) s = Ret (if decide (free_entry (dent v i x)) then Some (Z.of_nat x * 16) else None) s'
    /\ directory s' v hs dp i n j k /\ same_top s s'.
Proof.
  intros D Hx. destruct (read_entry s v hs dp i n j k x D Hx) as (s' & H1 & D' & E). exists s'. split; [|done].
  unfold dirlink_body. cbv zeta. rewrite (bind_Ret _ _ _ _ _ H1). cbn [fst snd]. change (negb (16 =? sizeof_dirent)) with false. cbv iota.
  rewrite dent_inum. unfold get_opt. rewrite ret_bind. unfold free_entry. destruct (Z.eqb_spec (d_inum (dent v i x)) 0); by case_decide.
Qed.

(** The loop over the entries, for any test of them. *)
Lemma dir_scan {A} (P : list Z -> Prop) `{forall e, Decision (P e)} (h : nat -> list Z -> A) (body : Z -> F (option A)) s v hs dp i n j k :
  directory s v hs dp i n j k ->
  (forall x t, (x < n)%nat -> directory t v hs dp i n j k -> exists t',
     body (Z.of_nat x) t = Ret (if decide (P (dent v i x)) then Some (h x (dent v i x)) else None) t' /\ directory t' v hs dp i n j k /\ same_top t t') ->
  exists s', for_range 0 ((i_size i + sizeof_dirent - 1) / sizeof_dirent) body s
      = Ret ((fun x : nat * list Z => h x.1 x.2) <$> list_find P (dir v i n)) s' /\ directory s' v hs dp i n j k /\ same_top s s'.
Proof.
  intros D Hb. rewrite (di_size _ _ _ _ _ _ _ _ D). change sizeof_dirent with 16.
  replace ((16 * Z.of_nat n + 16 - 1) / 16) with (Z.of_nat n) by (rewrite <- Z.add_sub_assoc, Z.mul_comm, Z.div_add_l by lia; rewrite Z.div_small by lia; lia).
  unfold for_range. rewrite Z.sub_0_r, Nat2Z.id.
  destruct (for_loop_search body (fun t => directory t v hs dp i n j k /\ same_top s t) (fun x => if decide (P (dent v i x)) then Some (h x (dent v i x)) else None) n 0 s)
    as (s' & H1 & D' & E).
  - split; [done|apply same_top_refl].
  - intros x t Hx [Dt Et]. destruct (Hb x t) as (t' & Hr & Dt' & Et'); [lia|done|]. exists t'. split; [done|]. split; [done|by eapply same_top_trans].
  - exists s'. split; [|done]. rewrite (foldr_find P h (dent v i) n 0) in H1. exact H1.
Qed.

Lemma dirlookup_scan s v hs dp i n j k name : directory s v hs dp i n j k -> (length name <= 256)%nat ->
  exists s', directory s' v hs dp i n j k /\ same_top s s' /\
    dirlookup dp name s = match list_find (named name) (dir v i n) with
                          | Some (x, e) => (ip <- iget 1 (d_inum e) ;; ret (Some (ip, Z.of_nat x * 16))) s'
                          | None => Ret None s'
                          end.
Proof.
  intros D Hn. destruct (dir_scan (named name) (fun x e => slot (x, e)) (dirlookup_body dp name) s v hs dp i n j k D) as (s' & H1 & D' & E).
  { intros x t Hx Dt. by apply dirlookup_body_ok. }
  exists s'. split; [done|]. split; [done|]. unfold dirlookup. rewrite (bind_Ret _ _ _ _ _ (inode_at_eq _ _ _ (di_at _ _ _ _ _ _ _ _ D))).
  rewrite (di_type _ _ _ _ _ _ _ _ D). change (negb (T_DIR =? T_DIR)) with false. cbv iota. rewrite (bind_Ret _ _ _ _ _ H1).
  rewrite (di_dev _ _ _ _ _ _ _ _ D). by destruct (list_find _ _) as [[x e]|].
Qed.
End dirs.

(** * The inode cache *)

(** Inode [inum] is cached or there is a place for it. *)
Definition cacheable (dev inum : Z) (l : list inode) : Prop := Exists (fun i => matches dev inum i = true \/ i_ref i = 0) l.

Lemma iget_scan_hit dev inum l : forall ip e, Exists (fun i => matches dev inum i = true) l ->
  exists y i e', iget_scan dev inum l ip e = (Some (ip + y)%nat, e') /\ l !! y = Some i /\ matches dev inum i = true.
Proof.
  induction l as [|i l IH]; intros ip e H; [by apply Exists_nil in H|]. cbn [iget_scan]. destruct (matches dev inum i) eqn:E.
  - exists 0%nat, i, e. unfold matches in E. rewrite E, Nat.add_0_r. by unfold matches.
  - apply Exists_cons in H as [H|H]; [congruence|]. unfold matches in E. rewrite E.
    destruct (IH (S ip) (match e with None => if i_ref i =? 0 then Some ip else None | _ => e end) H) as (y & i' & e' & H1 & H2 & H3). exists (S y), i', e'. rewrite Nat.add_succ_r. cbn in H1.
    split; [|done]. by destruct e.
Qed.

Lemma iget_gives s dev inum : cacheable dev inum (f_inodes s) ->
  exists ip i, iget dev inum s = Ret ip (put_inode ip i s) /\ (ip < length (f_inodes s))%nat /\ i_dev i = dev /\ i_inum i = inum /\ 0 < i_ref i.
Proof.
  intros H. destruct (decide (Exists (fun i => matches dev inum i = true) (f_inodes s))) as [Hx|Hx].
  - destruct (iget_scan_hit dev inum (f_inodes s) 0 None Hx) as (y & i & e' & H1 & H2 & H3). exists y. eexists. unfold iget. rewrite gets_bind, H1.
    rewrite (bind_Ret _ _ _ _ _ (upd_inode_eq _ _ _ _ H2)). split; [done|]. split; [by eapply lookup_lt_Some|].
    unfold matches in H3. apply andb_true_iff in H3 as [[H3%Z.ltb_lt H4%Z.eqb_eq]%andb_true_iff H5%Z.eqb_eq]. cbn. split_and!; [done|done|lia].
  - apply Exists_exists in H as (i0 & Hin & Hor). apply list_elem_of_lookup in Hin as [x Hi0].
    assert (Forall (fun i => matches dev inum i = false) (f_inodes s)) as Hno.
    { apply Forall_forall. intros i Hi. apply not_true_is_false. intros Hm. apply Hx, Exists_exists. by exists i. }
    destruct Hor as [Hm|Hr]; [rewrite (Forall_lookup_1 _ _ _ _ Hno Hi0) in Hm; done|].
    destruct (iget_miss s dev inum x i0 Hno Hi0 Hr) as (e & i1 & He & _ & H1). exists e. eexists. split; [exact H1|]. split; [by eapply lookup_lt_Some|done].
Qed.

(** * Linking *)

(** Where a new entry goes: the first free place, or the end. *)
Definition place_of (D : list (list Z)) : nat := match list_find free_entry D with Some (x, _) => x | None => length D end.

Lemma place_of_le D : (place_of D <= length D)%nat.
Proof. unfold place_of. destruct (list_find free_entry D) as [[x e]|] eqn:E; [|done]. apply list_find_Some in E as (E & _). apply lookup_lt_Some in E. lia. Qed.

Lemma nblocks_entry x : nblocks (Z.of_nat x * 16) 16 = 1.
Proof.
  unfold nblocks. change (16 <=? 0) with false. cbv iota. rewrite BSIZE_val.
  assert (Z.of_nat x * 16 mod 512 = 16 * (Z.of_nat x mod 32)) as -> by (change 512 with (32 * 16); rewrite Z.mul_mod_distr_r by lia; lia).
  pose proof (Z.mod_pos_bound (Z.of_nat x) 32 ltac:(lia)). symmetry. apply (Z.div_unique _ _ _ (16 * (Z.of_nat x mod 32) + 15)); lia.
Qed.

(** The entries after 16 bytes have been written at entry [x]. *)
Lemma dir_written v v' i i' n x src : length src = 16%nat -> i_addrs i' = i_addrs i -> (x <= n)%nat ->
  (forall y, 0 <= y < 16 * Z.of_nat (Nat.max n (S x)) -> exists c, maps v i (y / BSIZE) c) ->
  (forall y, 0 <= y -> (exists c, maps v i (y / BSIZE) c) -> fbyte v' i y =
     if decide (Z.of_nat x * 16 <= y < Z.of_nat x * 16 + 16) then default 0 (src !! Z.to_nat (y - Z.of_nat x * 16)) else fbyte v i y) ->
  dir v' i' (Nat.max n (S x)) = take x (dir v i n) ++ src :: drop (S x) (dir v i n).
Proof.
  intros Hl Ha Hx Hm Hb.
  assert (forall y, (y < Nat.max n (S x))%nat -> dent v' i' y = if decide (y = x) then src else dent v i y) as Hd.
  { intros y Hy. apply list_eq. intros z. unfold dent. destruct (decide (z < 16)%nat) as [Hz|Hz].
    2: { rewrite lookup_ge_None_2 by (rewrite length_fbytes; lia). destruct (decide (y = x)); [by rewrite lookup_ge_None_2 by lia|]. by rewrite lookup_ge_None_2 by (rewrite length_fbytes; lia). }
    unfold fbytes. change (map ?f ?l) with (f <$> l). rewrite !list_lookup_fmap, lookup_seq_lt by done. cbn [fmap option_fmap option_map]. rewrite Nat.add_0_l.
    assert (fbyte v' i' = fbyte v' i) as -> by (unfold fbyte, addr_of; by rewrite Ha). rewrite Hb by (lia || apply Hm; lia).
    destruct (decide (y = x)) as [->|Hne].
    - rewrite decide_True by lia. replace (Z.to_nat (Z.of_nat x * 16 + Z.of_nat z - Z.of_nat x * 16)) with z by lia.
      by destruct (lookup_lt_is_Some_2 src z) as [c ->]; [lia|].
    - rewrite decide_False by lia. rewrite list_lookup_fmap, lookup_seq_lt by done. cbn [fmap option_fmap option_map]. by rewrite Nat.add_0_l. }
  assert (length (take x (dir v i n)) = x) as Htk by (rewrite length_take; unfold dir; rewrite length_fmap, length_seq; lia).
  apply list_eq. intros y. unfold dir at 1. rewrite list_lookup_fmap. destruct (decide (y < Nat.max n (S x))%nat) as [Hy|Hy].
  - rewrite lookup_seq_lt by done. cbn [fmap option_fmap option_map]. rewrite Nat.add_0_l, Hd by done.
    assert (forall y, (y < n)%nat -> dir v i n !! y = Some (dent v i y)) as Hold by (intros z Hz; unfold dir; by rewrite list_lookup_fmap, lookup_seq_lt).
    destruct (decide (y = x)) as [->|Hne]; [by rewrite list_lookup_middle|]. destruct (decide (y < x)%nat).
    + rewrite lookup_app_l by lia. rewrite lookup_take_lt by done. symmetry. apply Hold. lia.
    + rewrite lookup_app_r by lia. rewrite Htk. replace (y - x)%nat with (S (y - S x)) by lia. change ((src :: ?l) !! S ?m) with (l !! m). rewrite lookup_drop.
      replace (S x + (y - S x))%nat with y by lia. symmetry. apply Hold. lia.
  - rewrite (lookup_ge_None_2 (seq _ _)) by (rewrite length_seq; lia). symmetry. apply lookup_ge_None_2.
    rewrite length_app. cbn [length]. rewrite Htk, length_drop. unfold dir. rewrite length_fmap, length_seq. lia.
Qed.

Section link.
Context `{DEV : Devsw}.

(** Entry [x] of the directory can be written. *)
Record writable (s : fss) (v : vdisk) (i : inode) (x k : nat) : Prop := {
  wb_fits : fits i;
  wb_room : (x < 4480)%nat;
  wb_maps : exists a, maps v i (Z.of_nat x * 16 / BSIZE) a;
  wb_log : (2 <= k)%nat;
  wb_apart b : ~ maps v i b (IBLOCK (i_inum i) (f_sb s));
  wb_ind : arr_get (i_addrs i) NDIRECT <> Some (IBLOCK (i_inum i) (f_sb s));
  wb_inode : exists d, arr_get (v_view v) (IBLOCK (i_inum i) (f_sb s)) = Some d /\ length d = Z.to_nat BSIZE
}.

Lemma same_block x y : Z.of_nat x * 16 <= y < Z.of_nat x * 16 + 16 -> y / BSIZE = Z.of_nat x * 16 / BSIZE.
Proof.
  rewrite BSIZE_val. intros H. pose proof (Z.div_mod (Z.of_nat x * 16) 512 ltac:(lia)) as Hdm.
  assert (Z.of_nat x * 16 mod 512 = 16 * (Z.of_nat x mod 32)) as E by (change 512 with (32 * 16); rewrite Z.mul_mod_distr_r by lia; lia).
  pose proof (Z.mod_pos_bound (Z.of_nat x) 32 ltac:(lia)). symmetry. apply (Z.div_unique _ _ _ (y - 512 * (Z.of_nat x * 16 / 512))); lia.
Qed.

Lemma dirlink_ok s v hs dp i n j k name inum : let D := dir v i n in let x := place_of D in
  directory s v hs dp i n j k -> (length name <= 256)%nat -> writable s v i x k -> list_find (named name) D = None ->
  exists s' v' hs' i' k', dirlink dp name inum s = Ret 0 s' /\ directory s' v' hs' dp i' (Nat.max n (S x)) j k'
    /\ f_inodes s' = <[dp := i']> (f_inodes s) /\ i' = set_i_size (16 * Z.of_nat (Nat.max n (S x))) i
    /\ dir v' i' (Nat.max n (S x)) = take x D ++ make_dirent inum name :: drop (S x) D.
Proof.
  intros D x Dir Hn W Hno. pose proof (place_of_le D) as Hxle. fold x in Hxle. assert (length D = n) as HD by (unfold D, dir; by rewrite length_fmap, length_seq).
  destruct (dirlookup_scan s v hs dp i n j k name Dir Hn) as (s1 & Dir1 & E1 & H1). fold D in H1. rewrite Hno in H1.
  unfold dirlink. rewrite (bind_Ret _ _ _ _ _ H1). rewrite (bind_Ret _ _ _ _ _ (inode_at_eq _ _ _ (di_at _ _ _ _ _ _ _ _ Dir1))). cbv zeta.
  destruct (dir_scan free_entry (fun x _ => Z.of_nat x * 16) (dirlink_body dp) s1 v hs dp i n j k Dir1) as (s2 & H2 & Dir2 & E2).
  { intros y t Hy Dt. by apply dirlink_body_ok. }
  rewrite (bind_Ret _ _ _ _ _ H2). fold D. pose proof (di_size _ _ _ _ _ _ _ _ Dir) as Hsz. pose proof (di_max _ _ _ _ _ _ _ _ Dir) as Hmax.
  assert (match (fun x : nat * list Z => Z.of_nat x.1 * 16) <$> list_find free_entry D with Some off => off
          | None => (i_size i + sizeof_dirent - 1) / sizeof_dirent * sizeof_dirent end = Z.of_nat x * 16) as ->.
  { unfold x, place_of. destruct (list_find free_entry D) as [[y e]|]; [done|]. cbn [fmap option_fmap option_map]. rewrite Hsz, HD. change sizeof_dirent with 16.
    f_equal. rewrite <- Z.add_sub_assoc, Z.mul_comm, Z.div_add_l by lia. rewrite Z.div_small by lia. lia. }
  assert (f_sb s2 = f_sb s) as Esb by (rewrite (proj1 E2); apply E1). destruct (wb_inode _ _ _ _ _ W) as (d & Hd & Hdl). destruct (wb_maps _ _ _ _ _ W) as [a Ha].
  pose proof (wb_room _ _ _ _ _ W) as Hroom. pose proof (wb_log _ _ _ _ _ W) as Hk.
  destruct (writei_ok s2 v hs dp i (make_dirent inum name) (Z.of_nat x * 16) d j k) as (s3 & v3 & hs3 & k3 & H3 & T3 & He3 & Ei3 & Es3 & W3 & M3 & F3);
    rewrite ?length_make_dirent, ?Esb; change (Z.of_nat 16) with 16 in *; try (apply Dir2 || apply W || done).
  { by rewrite (di_type _ _ _ _ _ _ _ _ Dir). } { lia. } { change (MAXFILE * BSIZE) with 71680. lia. }
  { intros y Hy. exists a. by rewrite (same_block x y Hy). } { rewrite nblocks_entry. lia. }
  rewrite length_make_dirent in *. change (Z.of_nat 16) with 16 in *. change sizeof_dirent with 16. rewrite (bind_Ret _ _ _ _ _ H3). change (negb (16 =? 16)) with false. cbv iota.
  replace (Z.max (i_size i) (Z.of_nat x * 16 + 16)) with (16 * Z.of_nat (Nat.max n (S x))) in Ei3 by lia. set (i' := set_i_size _ i) in *.
  assert (forall y, 0 <= y < 16 * Z.of_nat (Nat.max n (S x)) -> exists c, maps v i (y / BSIZE) c) as Hm.
  { intros y Hy. destruct (decide (y < i_size i)); [apply (di_maps _ _ _ _ _ _ _ _ Dir); lia|]. exists a. rewrite (same_block x y); [done|lia]. }
  exists s3, v3, hs3, i', k3. split; [done|]. rewrite (proj1 (proj2 E2)), (proj1 (proj2 E1)) in Ei3. split; [|split; [done|split; [done|]]].
  - constructor; try done; [|apply Dir|apply Dir|lia|by destruct W3|].
    + rewrite Ei3. apply list_lookup_insert_eq. eapply lookup_lt_Some, Dir.
    + intros y Hy. destruct (Hm y Hy) as [c Hc]. exists c. by apply (M3 _ c).
  - apply dir_written; [apply length_make_dirent|done|lia|done|done].
Qed.
End link.

(** What dirlookup finds after the entry of [name] has been put at [x]. *)
Lemma find_linked D x name inum : (x <= length D)%nat -> 0 < inum < 65536 -> list_find (named name) D = None ->
  list_find (named name) (take x D ++ make_dirent inum name :: drop (S x) D) = Some (x, make_dirent inum name).
Proof.
  intros Hx Hi Hno. apply list_find_None in Hno. rewrite Forall_forall in Hno. assert (length (take x D) = x) as Hl by (rewrite length_take; lia).
  apply list_find_Some. split; [by rewrite list_lookup_middle|]. split.
  - split; [|by rewrite make_dirent_name]. unfold d_inum. rewrite make_dirent_inum by lia. cbn. lia.
  - intros y e He Hy. rewrite lookup_app_l in He by lia. apply Hno. rewrite lookup_take_lt in He by lia. by eapply list_elem_of_lookup_2.
Qed.

(** C12: dirlink of a name that a directory does not have, with a block for the
    entry, returns 0 and puts the entry in the first free place or at the end,
    changing no other entry; dirlookup then finds it there and returns the
    cached inode with the number linked. *)
Theorem dirlink_then_dirlookup `{DEV : Devsw} s v hs dp i n j k name inum :
  let D := dir v i n in let x := place_of D in
  directory s v hs dp i n j k -> (length name <= 256)%nat -> 0 < inum < 65536 -> writable s v i x k ->
  list_find (named name) D = None -> cacheable 1 inum (f_inodes s) ->
  exists s' v' hs' k' i' ip ic,
    (r <- dirlink dp name inum ;; e <- dirlookup dp name ;; ret (r, e)) s = Ret (0, Some (ip, Z.of_nat x * 16)) s' /\
    f_inodes s' !! ip = Some ic /\ i_dev ic = 1 /\ i_inum ic = inum /\ 0 < i_ref ic /\
    ftx s' v' hs' (S j) k' /\ i' = set_i_size (16 * Z.of_nat (Nat.max n (S x))) i /\
    dir v' i' (Nat.max n (S x)) = take x D ++ make_dirent inum name :: drop (S x) D.
Proof.
  intros D x Dir Hn Hi W Hno Hc. destruct (dirlink_ok s v hs dp i n j k name inum Dir Hn W Hno) as (s1 & v1 & hs1 & i1 & k1 & H1 & Dir1 & Ei & Ei1 & HD1).
  fold D x in Dir1, HD1, Ei1. destruct (dirlookup_scan s1 v1 hs1 dp i1 _ j k1 name Dir1 Hn) as (s2 & Dir2 & E2 & H2).
  assert (x <= length D)%nat as Hx by apply place_of_le. rewrite HD1, find_linked in H2 by done.
  assert (d_inum (make_dirent inum name) = inum) as Hd by (unfold d_inum; by rewrite make_dirent_inum by lia). rewrite Hd in H2.
  assert (cacheable 1 inum (f_inodes s2)) as Hc2.
  { rewrite (proj1 (proj2 E2)), Ei. unfold cacheable in *. apply Exists_exists in Hc as (c & Hin & Hor). apply Exists_exists.
    apply list_elem_of_lookup in Hin as [y Hy]. destruct (decide (y = dp)) as [->|Hne].
    - exists i1. split; [eapply list_elem_of_lookup_2; apply list_lookup_insert_eq; by eapply lookup_lt_Some|].
      rewrite (di_at _ _ _ _ _ _ _ _ Dir) in Hy. injection Hy as <-. by rewrite Ei1.
    - exists c. split; [|done]. eapply list_elem_of_lookup_2. by rewrite list_lookup_insert_ne. }
  destruct (iget_gives s2 1 inum Hc2) as (ip & ic & H3 & Hip & Hdev & Hinum & Hr). exists (put_inode ip ic s2), v1, hs1, k1, i1, ip, ic.
  rewrite (bind_Ret _ _ _ _ _ H1). rewrite (bind_Ret _ _ _ (Some (ip, Z.of_nat x * 16)) (put_inode ip ic s2)) by (rewrite H2, (bind_Ret _ _ _ _ _ H3); done).
  split_and!; try done; [by apply inodes_put|]. apply put_inode_tx, Dir2.
Qed.

(** * Example *)

(** The file of [e_fs] as a directory with one entry, of the name "!". *)
Definition d_inode : inode := Inode 1 1 1 (Sleeplock 0 0) I_VALID T_DIR 0 0 1 16 (12 :: replicate 12 0).
Definition d_fs : fss := put_inode 0 d_inode e_fs.

#[local] Instance no_dev : Devsw := {| dev_read := fun _ => None; dev_write := fun _ => None |}.

Lemma d_directory : directory d_fs e_view [] 0 d_inode 1 6 7.
Proof.
  constructor; try done; [apply put_inode_tx, e_ftx|lia| |].
  - destruct e_wf as [W1 W2 W3]. by split.
  - intros x Hx. cbn in Hx. exists 12. rewrite BSIZE_val, Z.div_small by lia. vm_compute. intuition congruence.
Qed.

Lemma dirlink_then_dirlookup_witness :
  exists s' v' hs' k' i' ip ic,
    (r <- dirlink 0 (bytes "cat") 5 ;; e <- dirlookup 0 (bytes "cat") ;; ret (r, e)) d_fs = Ret (0, Some (ip, 16)) s' /\
    f_inodes s' !! ip = Some ic /\ i_dev ic = 1 /\ i_inum ic = 5 /\ 0 < i_ref ic /\
    ftx s' v' hs' 7 k' /\ i' = set_i_size 32 d_inode /\
    dir v' i' 2 = [[104; 105; 33] ++ replicate 13 0; [5; 0; 99; 97; 116] ++ replicate 11 0].
Proof.
  apply (dirlink_then_dirlookup d_fs e_view [] 0 d_inode 1 6 7 (bytes "cat") 5).
  - exact d_directory.
  - vm_compute. lia.
  - lia.
  - constructor.
    + destruct e_fits. by split.
    + apply Nat.ltb_lt. vm_compute. reflexivity.
    + exists 12. vm_compute. intuition congruence.
    + lia.
    + intros b [_ E]%e_maps. vm_compute in E. discriminate.
    + vm_compute. discriminate.
    + exists e_inodes. split; vm_compute; reflexivity.
  - vm_compute. reflexivity.
  - apply Exists_exists. exists free_inode. split; [|by right]. apply (list_elem_of_lookup_2 _ 1). reflexivity.
Defined.
