(* ===== verification/Mp.v ===== *)
(** The search for processors at boot (src/xv6-public/mp.c).

    The memory the BIOS left is a function from addresses to bytes, which this
    code only reads.  The default case of the switch in mpinit leaves the
    switch and not the loop around it, so that the loop is given a bound. *)
From S2P Require Import Prelude CString Bytes Kalloc.

Definition NCPU : Z := 8.
Definition MPPROC : Z := 0.
Definition MPBUS : Z := 1.
Definition MPIOAPIC : Z := 2.
Definition MPIOINTR : Z := 3.
Definition MPLINTR : Z := 4.

Definition sizeof_mp : Z := 16.
Definition sizeof_mpconf : Z := 44.
Definition sizeof_mpproc : Z := 20.
Definition sizeof_mpioapic : Z := 8.

(** The globals: the apicid of each cpu, and what is written to ports. *)
Record mps := Mps { cpus : list Z; ismp : Z; ncpu : Z; ioapicid : Z; lapic : Z; outs : list (Z * Z) }.
Definition set_cpus x s := Mps x (ismp s) (ncpu s) (ioapicid s) (lapic s) (outs s).
Definition set_ismp x s := Mps (cpus s) x (ncpu s) (ioapicid s) (lapic s) (outs s).
Definition set_ncpu x s := Mps (cpus s) (ismp s) x (ioapicid s) (lapic s) (outs s).
Definition set_ioapicid x s := Mps (cpus s) (ismp s) (ncpu s) x (lapic s) (outs s).
Definition set_lapic x s := Mps (cpus s) (ismp s) (ncpu s) (ioapicid s) x (outs s).
Definition outb port v s := Mps (cpus s) (ismp s) (ncpu s) (ioapicid s) (lapic s) (outs s ++ [(port, u8 v)]).

Notation K := (M mps).

Section mp.
(** The memory, and what the port of the IMCR returns. *)
Context (m : mem) (imcr : Z).

Fixpoint sum_loop (n : nat) (addr acc : Z) : Z :=
  match n with O => acc | S n' => sum_loop n' (addr + 1) (acc + m addr) end.
Definition sum (addr : Z) (len : Z) : Z := u8 (sum_loop (Z.to_nat len) addr 0).

(** memcmp with a string literal. *)
Fixpoint memcmp_lit (p : Z) (lit : list Z) : Z :=
  match lit with
  | [] => 0
  | c :: lit' => if m p =? c then memcmp_lit (p + 1) lit' else m p - c
  end.

Fixpoint mpsearch1_loop (n : nat) (p e : Z) : option Z :=
  match n with
  | O => None
  | S n' =>
      if p <? e then
        if (memcmp_lit p (bytes "_MP_") =? 0) && (sum p sizeof_mp =? 0) then Some p
        else mpsearch1_loop n' (p + sizeof_mp) e
      else None
  end.
Definition mpsearch1 (a len : Z) : option Z :=
  let addr := P2V a in
  mpsearch1_loop (Z.to_nat ((len + 15) / 16)) addr (addr + len).

Definition mpsearch : option Z :=
  let bda := P2V 0x400 in
  let p := Z.shiftl (Z.lor (Z.shiftl (m (bda + 0x0F)) 8) (m (bda + 0x0E))) 4 in
  let found :=
    if negb (p =? 0) then mpsearch1 p 1024
    else mpsearch1 (u32 (Z.lor (Z.shiftl (m (bda + 0x14)) 8) (m (bda + 0x13)) * 1024 - 1024)) 1024 in
  match found with Some mp => Some mp | None => mpsearch1 0xF0000 0x10000 end.

(** Fields of struct mp and struct mpconf. *)
Definition mp_physaddr (p : Z) : Z := load32 m (p + 4).
Definition mp_imcrp (p : Z) : Z := m (p + 12).
Definition conf_length (p : Z) : Z := m (p + 4) + 256 * m (p + 5).
Definition conf_version (p : Z) : Z := m (p + 6).
Definition conf_lapicaddr (p : Z) : Z := load32 m (p + 36).

Definition mpconfig : option (Z * Z) :=
  match mpsearch with
  | None => None
  | Some mp =>
      if mp_physaddr mp =? 0 then None else
      let conf := P2V (mp_physaddr mp) in
      if negb (memcmp_lit conf (bytes "PCMP") =? 0) then None
      else if negb (conf_version conf =? 1) && negb (conf_version conf =? 4) then None
      else if negb (sum conf (conf_length conf) =? 0) then None
      else Some (mp, conf)
  end.

(** cpus[ncpu].apicid = ..., if there is a place. *)
Definition add_cpu (apicid : Z) : K unit :=
  n <- gets ncpu ;;
  if n <? NCPU then
    c <- gets cpus ;;
    c <- get_opt "cpus" (arr_set c n apicid) ;;
    modify (set_cpus c) ;;
    modify (set_ncpu (n + 1))
  else ret tt.

(** The loop over the entries from [p] to [e]. *)
Fixpoint mpinit_loop (fuel : nat) (p e : Z) : K unit :=
  match fuel with
  | O => fun s => OutOfFuel s
  | S f =>
      if p <? e then
        if m p =? MPPROC then add_cpu (m (p + 1)) ;; mpinit_loop f (p + sizeof_mpproc) e
        else if m p =? MPIOAPIC then modify (set_ioapicid (m (p + 1))) ;; mpinit_loop f (p + sizeof_mpioapic) e
        else if (m p =? MPBUS) || (m p =? MPIOINTR) || (m p =? MPLINTR) then mpinit_loop f (p + 8) e
        else modify (set_ismp 0) ;; mpinit_loop f p e
      else ret tt
  end.

Definition mpinit (fuel : nat) : K unit :=
  match mpconfig with
  | None => ret tt
  | Some (mp, conf) =>
      modify (set_ismp 1) ;;
      modify (set_lapic (conf_lapicaddr conf)) ;;
      mpinit_loop fuel (conf + sizeof_mpconf) (conf + conf_length conf) ;;
      i <- gets ismp ;;
      if i =? 0 then
        modify (set_ncpu 1) ;;
        modify (set_lapic 0) ;;
        modify (set_ioapicid 0)
      else if negb (mp_imcrp mp =? 0) then
        modify (outb 0x22 0x70) ;;
        modify (outb 0x23 (Z.lor imcr 1))
      else ret tt
  end.
End mp.

(** The globals at boot. *)
Definition mps0 : mps := Mps (replicate 8 0) 0 0 0 0 [].

(** * The search *)

Lemma region_S m p n : region m p (S n) = m p :: region m (p + 1) n.
Proof.
  unfold region. cbn [seq map]. rewrite Z.add_0_r. f_equal. rewrite <- seq_shift, map_map. apply map_ext. intros i. f_equal. lia.
Qed.

Section search.
Context (m : mem).

Lemma memcmp_lit_zero lit : forall p, memcmp_lit m p lit = 0 <-> region m p (length lit) = lit.
Proof.
  induction lit as [|c lit IH]; intros p; [done|]. cbn [memcmp_lit length]. rewrite region_S. destruct (Z.eqb_spec (m p) c) as [->|Hne].
  - rewrite IH. split; [by intros ->|by intros [= ?]].
  - split; [lia|]. intros [= ? ?]. done.
Qed.

Lemma sum_loop_spec n : forall a acc, sum_loop m n a acc = acc + foldr Z.add 0 (region m a n).
Proof. induction n as [|n IH]; intros a acc; cbn [sum_loop]; [cbn; lia|]. rewrite IH, region_S. cbn. lia. Qed.

(** The bytes add up to 0 in a byte. *)
Definition sums_to_zero (a n : Z) : Prop := foldr Z.add 0 (region m a (Z.to_nat n)) mod 256 = 0.

Lemma sum_zero a n : sum m a n = 0 <-> sums_to_zero a n.
Proof. unfold sum, sums_to_zero, u8. by rewrite sum_loop_spec, Z.add_0_l. Qed.

(** A floating pointer structure at [p]. *)
Definition is_mp (p : Z) : Prop := region m p 4 = bytes "_MP_" /\ sums_to_zero p 16.

Lemma is_mp_test p : (memcmp_lit m p (bytes "_MP_") =? 0) && (sum m p sizeof_mp =? 0) = true <-> is_mp p.
Proof. rewrite andb_true_iff, !Z.eqb_eq, memcmp_lit_zero, sum_zero. done. Qed.

(** mpsearch1 returns the first structure in the places at distance 16. *)
Theorem mpsearch1_first a n : let p := P2V a in
  match mpsearch1 m a (16 * Z.of_nat n) with
  | Some q => exists k, (k < n)%nat /\ q = p + 16 * Z.of_nat k /\ is_mp q /\ forall j, (j < k)%nat -> ~ is_mp (p + 16 * Z.of_nat j)
  | None => forall j, (j < n)%nat -> ~ is_mp (p + 16 * Z.of_nat j)
  end.
Proof.
  cbv zeta. unfold mpsearch1. replace (Z.to_nat ((16 * Z.of_nat n + 15) / 16)) with n
    by (replace (16 * Z.of_nat n + 15) with (Z.of_nat n * 16 + 15) by lia; rewrite Z.div_add_l by lia; change (15 / 16) with 0; lia).
  generalize (P2V a) as p. intros p. cbv zeta. remember (p + 16 * Z.of_nat n) as e eqn:He. revert p He. induction n as [|n IH]; intros p He; [intros j Hj; lia|].
  cbn [mpsearch1_loop]. destruct (Z.ltb_spec p e); [|lia].
  destruct ((memcmp_lit m p (bytes "_MP_") =? 0) && (sum m p sizeof_mp =? 0)) eqn:E.
  - exists 0%nat. rewrite is_mp_test in E. split_and!; [lia|lia|done|lia].
  - assert (~ is_mp p) as Hno by (rewrite <- is_mp_test; congruence). specialize (IH (p + sizeof_mp)). change sizeof_mp with 16 in *.
    destruct (mpsearch1_loop m n (p + 16) e) as [q|].
    + destruct IH as (k & Hk & Hq & Hm & Hj); [lia|]. exists (S k). split_and!; [lia|lia|done|]. intros [|j] Hlt; [by replace (p + 16 * Z.of_nat 0) with p by lia|].
      replace (p + 16 * Z.of_nat (S j)) with (p + 16 + 16 * Z.of_nat j) by lia. apply Hj. lia.
    + intros [|j] Hlt; [by replace (p + 16 * Z.of_nat 0) with p by lia|]. replace (p + 16 * Z.of_nat (S j)) with (p + 16 + 16 * Z.of_nat j) by lia. apply IH; lia.
Qed.
End search.

(** * The configuration table *)

Inductive entry := Processor (apicid : Z) | Ioapic (id : Z) | Other (type : Z).

Definition esize (e : entry) : Z := match e with Processor _ => 20 | _ => 8 end.

Definition processor (e : entry) : list Z := match e with Processor a => [a] | _ => [] end.
Definition processors (es : list entry) : list Z := concat (map processor es).
Definition last_ioapic (i : Z) (es : list entry) : Z := foldl (fun i e => match e with Ioapic x => x | _ => i end) i es.

(** The first eight, in the array. *)
Definition first8 (l : list Z) : list Z := take 8 l ++ replicate (8 - length l) 0.

Section table.
Context (m : mem) (imcr : Z).

Definition entry_at (p : Z) (x : entry) : Prop :=
  match x with
  | Processor a => m p = MPPROC /\ m (p + 1) = a
  | Ioapic a => m p = MPIOAPIC /\ m (p + 1) = a
  | Other t => m p = t /\ (t = MPBUS \/ t = MPIOINTR \/ t = MPLINTR)
  end.

(** Entries from [p] to [q], the last of which begins before [e]. *)
Fixpoint entries_to (p : Z) (es : list entry) (q e : Z) : Prop :=
  match es with
  | [] => p = q
  | x :: es' => p < e /\ entry_at p x /\ entries_to (p + esize x) es' q e
  end.

Lemma entries_take n es : forall p q e, entries_to p es q e -> exists q', entries_to p (take n es) q' e.
Proof.
  revert n. induction es as [|x es IH]; intros n p q e H; [exists p; by rewrite take_nil|]. destruct n as [|n]; [by exists p|].
  destruct H as (Hp & He & Ht). destruct (IH n _ _ _ Ht) as [q' Hq]. by exists q'.
Qed.

(** The state when the processors [l] have been found. *)
Definition found (l : list Z) (i : Z) (s : mps) : mps :=
  Mps (first8 l) (ismp s) (Z.of_nat (Nat.min 8 (length l))) i (lapic s) (outs s).

Lemma first8_snoc l a : (length l < 8)%nat -> <[length l := a]> (first8 l) = first8 (l ++ [a]).
Proof.
  intros Hl. unfold first8. rewrite !take_ge by (rewrite ?length_app; cbn; lia). rewrite insert_app_r_alt by lia. rewrite Nat.sub_diag, length_app. cbn [length].
  destruct (8 - length l)%nat as [|r] eqn:E; [lia|]. replace (8 - (length l + 1))%nat with r by lia. cbn. by rewrite <- app_assoc.
Qed.

Lemma add_cpu_found l i s a : add_cpu a (found l i s) = Ret tt (found (l ++ [a]) i s).
Proof.
  unfold add_cpu. rewrite gets_bind. cbn [ncpu found]. unfold NCPU. destruct (Z.ltb_spec (Z.of_nat (Nat.min 8 (length l))) 8) as [Hlt|Hge].
  - rewrite gets_bind. cbn [cpus found]. replace (Nat.min 8 (length l)) with (length l) by lia.
    rewrite arr_set_nat by (unfold first8; rewrite length_app, length_take, length_replicate; lia). unfold get_opt. rewrite ret_bind, modify_bind, first8_snoc by lia.
    unfold found. rewrite length_app. cbn [length]. replace (Z.of_nat (Nat.min 8 (length l + 1))) with (Z.of_nat (length l) + 1) by lia. done.
  - assert (first8 (l ++ [a]) = first8 l) as E.
    { unfold first8. rewrite length_app. cbn [length]. rewrite take_app_le by lia. by replace (8 - (length l + 1))%nat with (8 - length l)%nat by lia. }
    unfold found. rewrite E, length_app. cbn [length]. by replace (Nat.min 8 (length l + 1)) with (Nat.min 8 (length l)) by lia.
Qed.

Lemma mpinit_loop_found q e es : forall fuel p l i s, entries_to p es q e -> (length es <= fuel)%nat ->
  mpinit_loop m fuel p e (found l i s) = mpinit_loop m (fuel - length es) q e (found (l ++ processors es) (last_ioapic i es) s).
Proof.
  induction es as [|x es IH]; intros fuel p l i s Ht Hf.
  { cbn in Ht. subst q. cbn. by rewrite Nat.sub_0_r, app_nil_r. }
  destruct Ht as (Hp & He & Ht). destruct fuel as [|f]; [cbn in Hf; lia|]. cbn [mpinit_loop length]. rewrite Nat.sub_succ.
  destruct (Z.ltb_spec p e); [|lia]. cbn [length] in Hf. assert (length es <= f)%nat as Hf' by lia.
  destruct x as [a|a|t]; cbn [entry_at esize] in *.
  - destruct He as [-> <-]. change (MPPROC =? MPPROC) with true. cbv iota. rewrite (bind_Ret _ _ _ _ _ (add_cpu_found l i s _)). change sizeof_mpproc with 20.
    rewrite (IH f (p + 20) (l ++ [m (p + 1)]) i s Ht Hf'). rewrite <- app_assoc. done.
  - destruct He as [-> <-]. change (MPIOAPIC =? MPPROC) with false. change (MPIOAPIC =? MPIOAPIC) with true. cbv iota. rewrite modify_bind. change sizeof_mpioapic with 8.
    apply (IH f (p + 8) l (m (p + 1)) s Ht Hf').
  - destruct He as [-> Ho]. assert ((t =? MPPROC) = false /\ (t =? MPIOAPIC) = false /\ (t =? MPBUS) || (t =? MPIOINTR) || (t =? MPLINTR) = true) as (-> & -> & ->)
      by (destruct Ho as [->|[-> | ->]]; done). apply (IH f (p + 8) l i s Ht Hf').
Qed.
End table.

(** * Tables in memory that is kept *)

(** The first place mpsearch looks at. *)
Definition ebda (m : mem) : Z :=
  let bda := P2V 0x400 in
  let p := Z.shiftl (Z.lor (Z.shiftl (m (bda + 0x0F)) 8) (m (bda + 0x0E))) 4 in
  P2V (if negb (p =? 0) then p else u32 (Z.lor (Z.shiftl (m (bda + 0x14)) 8) (m (bda + 0x13)) * 1024 - 1024)).

(** What mpinit reads with these tables is below [e]. *)
Record tables_below (e : Z) (m : mem) (conf q : Z) : Prop := {
  tb_bios : 0x80100000 <= e;
  tb_ebda : ebda m + 1024 <= e;
  tb_head : conf + sizeof_mpconf <= e;
  tb_conf : conf + conf_length m conf <= q;
  tb_entries : q <= e
}.

Section kept.
Context (e : Z) (m m' : mem) (Hsame : forall x, x < e -> m' x = m x).

Lemma memcmp_lit_kept lit : forall p, p + Z.of_nat (length lit) <= e -> memcmp_lit m' p lit = memcmp_lit m p lit.
Proof.
  induction lit as [|c lit IH]; intros p Hp; [done|]. cbn [memcmp_lit length] in *. rewrite Hsame by lia. by rewrite IH by lia.
Qed.

Lemma sum_kept a n : a + n <= e -> sum m' a n = sum m a n.
Proof.
  intros H. unfold sum. f_equal. destruct (decide (0 <= n)) as [Hn|]; [|by replace (Z.to_nat n) with 0%nat by lia]. assert (a + Z.of_nat (Z.to_nat n) <= e) as H' by lia. revert H'. clear H.
  generalize (Z.to_nat n) as k, 0 as acc. intros k. revert a. induction k as [|k IH]; intros a acc H; [done|]. cbn [sum_loop]. rewrite Hsame by lia. apply IH. lia.
Qed.

Lemma mpsearch1_kept a n : P2V a + 16 * Z.of_nat n <= e ->
  mpsearch1 m' a (16 * Z.of_nat n) = mpsearch1 m a (16 * Z.of_nat n) /\
  forall p, mpsearch1 m a (16 * Z.of_nat n) = Some p -> p + 16 <= e.
Proof.
  unfold mpsearch1. replace (Z.to_nat ((16 * Z.of_nat n + 15) / 16)) with n
    by (replace (16 * Z.of_nat n + 15) with (Z.of_nat n * 16 + 15) by lia; rewrite Z.div_add_l by lia; change (15 / 16) with 0; lia).
  generalize (P2V a + 16 * Z.of_nat n) at 2 3 4 as z. generalize (P2V a) as p. intros p z. revert p. induction n as [|n IH]; intros p H; [done|]. cbn [mpsearch1_loop].
  rewrite memcmp_lit_kept by (change (Z.of_nat (length (bytes "_MP_"))) with 4; lia). rewrite sum_kept by (change sizeof_mp with 16; lia).
  destruct (p <? z); [|done]. destruct (_ && _); [split; [done|]; intros q [= <-]; lia|]. apply IH. change sizeof_mp with 16. lia.
Qed.

Lemma mpsearch_kept : 0x80100000 <= e -> ebda m + 1024 <= e ->
  mpsearch m' = mpsearch m /\ forall p, mpsearch m = Some p -> p + 16 <= e.
Proof.
  intros He Hb. unfold mpsearch, ebda in *. change (P2V 0x400) with 0x80000400 in *. rewrite !Hsame by lia.
  set (p := Z.shiftl _ 4) in *. set (p' := u32 _) in *.
  assert (forall a, P2V a + 1024 <= e -> mpsearch1 m' a 1024 = mpsearch1 m a 1024 /\ forall p, mpsearch1 m a 1024 = Some p -> p + 16 <= e) as H1
    by (intros a Ha; apply (mpsearch1_kept a 64); lia).
  destruct (mpsearch1_kept 0xF0000 4096) as [H2 H2']; [change (P2V 0xF0000) with 0x800F0000; lia|]. change (16 * Z.of_nat 4096) with 0x10000 in *.
  destruct (negb (p =? 0)); destruct (H1 _ Hb) as [E1 E1']; rewrite E1, H2.
  all: split; [done|]; intros q; destruct (mpsearch1 m _ 1024); naive_solver.
Qed.

Lemma load32_kept p : p + 4 <= e -> load32 m' p = load32 m p.
Proof. intros H. apply load32_ext. intros x Hx. apply Hsame. lia. Qed.

Lemma mpconfig_kept mp conf q : tables_below e m conf q -> mpconfig m = Some (mp, conf) ->
  mpconfig m' = Some (mp, conf) /\ conf_length m' conf = conf_length m conf /\ conf_lapicaddr m' conf = conf_lapicaddr m conf /\
  mp_imcrp m' mp = mp_imcrp m mp.
Proof.
  intros [B1 B2 B3 B4 B5] H. change sizeof_mpconf with 44 in *. destruct (mpsearch_kept B1 B2) as [Es Ep]. unfold mpconfig in *. rewrite Es.
  destruct (mpsearch m) as [p|]; [|done]. specialize (Ep p eq_refl).
  assert (mp_physaddr m' p = mp_physaddr m p) as -> by (apply load32_kept; lia). destruct (_ =? 0); [done|]. set (c := P2V _) in *. cbv zeta in *.
  assert (c = conf) as -> by (repeat case_match; try done; congruence).
  assert (conf_length m' conf = conf_length m conf) as Hl by (unfold conf_length; by rewrite !Hsame by lia).
  rewrite memcmp_lit_kept by (change (Z.of_nat (length (bytes "PCMP"))) with 4; lia). rewrite Hl, sum_kept by lia. unfold conf_version in *. rewrite (Hsame (conf + 6)) by lia.
  split_and!; [done|done|apply load32_kept; lia|]. assert (p = mp) as -> by (repeat case_match; try done; congruence). apply Hsame. lia.
Qed.

Lemma entries_kept es z : forall p q, entries_to m p es q z -> q <= e -> p <= q /\ entries_to m' p es q z.
Proof.
  induction es as [|x es IH]; intros p q H Hq; [cbn in *; split; [lia|done]|]. destruct H as (Hp & Hx & Ht). destruct (IH _ _ Ht Hq) as [Hle Ht'].
  assert (p + 8 <= p + esize x) by (destruct x; cbn; lia). split; [lia|]. split; [done|]. split; [|done].
  destruct x; cbn [entry_at] in *; by rewrite ?(Hsame p), ?(Hsame (p + 1)) by lia.
Qed.
End kept.

(** The state mpinit ends in. *)
Definition mp_result (m : mem) (imcr mp conf : Z) (es : list entry) : mps :=
  Mps (first8 (processors es)) 1 (Z.of_nat (Nat.min 8 (length (processors es)))) (last_ioapic 0 es)
    (conf_lapicaddr m conf) (if mp_imcrp m mp =? 0 then [] else [(0x22, 0x70); (0x23, u8 (Z.lor imcr 1))]).

(** When the search finds a configuration table whose entries are of the
    known types, mpinit ends with the machine marked as a multiprocessor, the
    APIC ids of its first eight processors in cpus in the order of the table,
    ncpu their number, the last I/O APIC's id and the address of the local
    APICs of the table, and the IMCR set if there is one. *)
Theorem mpinit_finds_processors m imcr mp conf es q fuel :
  mpconfig m = Some (mp, conf) ->
  entries_to m (conf + sizeof_mpconf) es q (conf + conf_length m conf) -> conf + conf_length m conf <= q ->
  (length es < fuel)%nat ->
  mpinit m imcr fuel mps0 = Ret tt (mp_result m imcr mp conf es).
Proof.
  intros Hc Ht Hq Hf. unfold mpinit. rewrite Hc. rewrite !modify_bind.
  change (set_lapic (conf_lapicaddr m conf) (set_ismp 1 mps0)) with (found [] 0 (set_lapic (conf_lapicaddr m conf) (set_ismp 1 mps0))).
  set (s1 := set_lapic _ _).
  assert (mpinit_loop m fuel (conf + sizeof_mpconf) (conf + conf_length m conf) (found [] 0 s1) = Ret tt (found (processors es) (last_ioapic 0 es) s1)) as Hl.
  { rewrite (mpinit_loop_found m q _ es fuel _ [] 0 s1 Ht) by lia. destruct (fuel - length es)%nat as [|f] eqn:E; [lia|]. cbn [mpinit_loop app].
    destruct (Z.ltb_spec q (conf + conf_length m conf)); [lia|done]. }
  rewrite (bind_Ret _ _ _ _ _ Hl), gets_bind. cbn [ismp found s1 set_lapic set_ismp]. change (1 =? 0) with false. cbv iota.
  unfold mp_result. destruct (mp_imcrp m mp =? 0); [done|]. cbn [negb]. rewrite modify_bind. done.
Qed.

(** An entry of any other type keeps mpinit in its loop: the break of the
    default case leaves the switch only, with the same entry up next. *)
Theorem unknown_entry_never_ends m imcr mp conf es q fuel :
  mpconfig m = Some (mp, conf) ->
  entries_to m (conf + sizeof_mpconf) es q (conf + conf_length m conf) -> q < conf + conf_length m conf -> MPLINTR < m q ->
  exists s, mpinit m imcr fuel mps0 = OutOfFuel s.
Proof.
  intros Hc Ht Hq Hu. unfold mpinit. rewrite Hc. rewrite !modify_bind.
  change (set_lapic (conf_lapicaddr m conf) (set_ismp 1 mps0)) with (found [] 0 (set_lapic (conf_lapicaddr m conf) (set_ismp 1 mps0))). set (s1 := set_lapic _ _).
  assert (forall f s, exists s', mpinit_loop m f q (conf + conf_length m conf) s = OutOfFuel s') as Hstay.
  { unfold MPLINTR in Hu. induction f as [|f IH]; intros s; cbn [mpinit_loop]; [by eexists|]. destruct (Z.ltb_spec q (conf + conf_length m conf)); [|lia].
    unfold MPPROC, MPIOAPIC, MPBUS, MPIOINTR, MPLINTR. destruct (Z.eqb_spec (m q) 0), (Z.eqb_spec (m q) 2), (Z.eqb_spec (m q) 1), (Z.eqb_spec (m q) 3), (Z.eqb_spec (m q) 4); try lia.
    cbn [orb]. rewrite modify_bind. apply IH. }
  assert (exists s', mpinit_loop m fuel (conf + sizeof_mpconf) (conf + conf_length m conf) (found [] 0 s1) = OutOfFuel s') as [s' Hl].
  { destruct (decide (length es <= fuel)%nat) as [Hle|Hgt]; [rewrite (mpinit_loop_found m q _ es fuel _ [] 0 s1 Ht Hle); apply Hstay|].
    destruct (entries_take m fuel es _ _ _ Ht) as [q' Ht']. assert (length (take fuel es) = fuel) as Hl by (rewrite length_take; lia).
    rewrite (mpinit_loop_found m q' _ (take fuel es) fuel _ [] 0 s1 Ht') by lia. rewrite Hl, Nat.sub_diag. by eexists. }
  exists s'. unfold bind at 1. by rewrite Hl.
Qed.

(** A table with two processors, a bus and an I/O APIC. *)
Definition ex_conf : list Z :=
  bytes "PCMP" ++ [100; 0; 4; 132] ++ replicate 28 0 ++ [0; 0; 0xE0; 0xFE] ++ replicate 4 0 ++
  ([0; 0] ++ replicate 18 0) ++ ([0; 1] ++ replicate 18 0) ++ ([1] ++ replicate 7 0) ++ ([2; 2] ++ replicate 6 0).
Definition ex_mp : list Z := bytes "_MP_" ++ [0; 1; 0xF; 0; 1; 4; 16; 0; 0x80; 0; 0; 0].
Definition ex_bios : mem := place ex_mp (P2V 0xF0020) (place ex_conf (P2V 0xF0100) mem0).

Example ex_bios_found : mpinit ex_bios 0 5 mps0 = Ret tt (Mps [0; 1; 0; 0; 0; 0; 0; 0] 1 2 2 0xFEE00000 [(0x22, 0x70); (0x23, 1)]).
Proof.
  apply (mpinit_finds_processors ex_bios 0 (P2V 0xF0020) (P2V 0xF0100) [Processor 0; Processor 1; Other 1; Ioapic 2] (P2V 0xF0100 + 100) 5).
  - vm_compute. reflexivity.
  - cbn [entries_to entry_at esize]. split_and!; try (vm_compute; reflexivity). by left.
  - vm_compute. discriminate.
  - cbn. lia.
Qed.
