(* ===== verification/Lapic.v ===== *)
(** The local APIC (src/xv6-public/lapic.c, but for the clock, see [Cmos]).

    The registers of the APIC of the processor that runs the code are a device
    that is read and written by index; what a read does is up to it.  The table
    of processors is the one [Mp] fills.

    The local APIC as the kernel uses it: what lapicinit programs, and that
    cpunum numbers the processors as mp.c found them. *)
From S2P Require Import Prelude CString Kalloc Mp.

Definition ID : Z := 0x0020 / 4.
Definition VER : Z := 0x0030 / 4.
Definition TPR : Z := 0x0080 / 4.
Definition EOI : Z := 0x00B0 / 4.
Definition SVR : Z := 0x00F0 / 4.
Definition ENABLE : Z := 0x00000100.
Definition ESR : Z := 0x0280 / 4.
Definition ICRLO : Z := 0x0300 / 4.
Definition INIT : Z := 0x00000500.
Definition STARTUP : Z := 0x00000600.
Definition DELIVS : Z := 0x00001000.
Definition ASSERT : Z := 0x00004000.
Definition LEVEL : Z := 0x00008000.
Definition BCAST : Z := 0x00080000.
Definition ICRHI : Z := 0x0310 / 4.
Definition TIMER : Z := 0x0320 / 4.
Definition X1 : Z := 0x0000000B.
Definition PERIODIC : Z := 0x00020000.
Definition PCINT : Z := 0x0340 / 4.
Definition LINT0 : Z := 0x0350 / 4.
Definition LINT1 : Z := 0x0360 / 4.
Definition ERROR : Z := 0x0370 / 4.
Definition MASKED : Z := 0x00010000.
Definition TICR : Z := 0x0380 / 4.
Definition TDCR : Z := 0x03E0 / 4.
Definition CMOS_PORT : Z := 0x70.

Definition T_IRQ0 : Z := 32.
Definition IRQ_TIMER : Z := 0.
Definition IRQ_ERROR : Z := 19.
Definition IRQ_SPURIOUS : Z := 31.
Definition FL_IF : Z := 0x200.

(** The registers of an APIC. *)
Class Apic (D : Type) := {
  rd : Z -> D -> Z * D;
  wr : Z -> Z -> D -> D
}.

Section lapic.
Context {D : Type} `{!Apic D}.

(** The globals of mp.c, the device, the memory, and the static counter and
    messages of cpunum. *)
Record lap := Lap { l_mp : mps; l_dev : D; l_mem : mem; l_n : Z; l_msgs : list Z }.
Definition set_l_mp x s := Lap x (l_dev s) (l_mem s) (l_n s) (l_msgs s).
Definition set_l_dev x s := Lap (l_mp s) x (l_mem s) (l_n s) (l_msgs s).
Definition set_l_mem x s := Lap (l_mp s) (l_dev s) x (l_n s) (l_msgs s).
Definition set_l_warn n x s := Lap (l_mp s) (l_dev s) (l_mem s) n x.

Notation K := (M lap).

(** lapic[index], read. *)
Definition lapicr (index : Z) : K Z :=
  s <- gets (fun s => s) ;;
  let '(v, d) := rd index (l_dev s) in
  modify (set_l_dev d) ;;
  ret v.

Definition lapicw (index value : Z) : K unit :=
  modify (fun s => set_l_dev (wr index (u32 value) (l_dev s)) s) ;;
  _ <- lapicr ID ;;
  ret tt.

Definition present : K bool := p <- gets (fun s => lapic (l_mp s)) ;; ret (negb (p =? 0)).

Definition lapicid : K Z :=
  b <- present ;;
  if negb b then ret 0 else
  v <- lapicr ID ;;
  ret (Z.shiftr v 24).

(** while(lapic[ICRLO] & DELIVS) *)
Fixpoint wait_delivery (fuel : nat) : K unit :=
  match fuel with
  | O => fun s => OutOfFuel s
  | S f => v <- lapicr ICRLO ;; if Z.land v DELIVS =? 0 then ret tt else wait_delivery f
  end.

Definition lapicinit (fuel : nat) : K unit :=
  b <- present ;;
  if negb b then ret tt else
  lapicw SVR (Z.lor ENABLE (T_IRQ0 + IRQ_SPURIOUS)) ;;
  lapicw TDCR X1 ;;
  lapicw TIMER (Z.lor PERIODIC (T_IRQ0 + IRQ_TIMER)) ;;
  lapicw TICR 10000000 ;;
  lapicw LINT0 MASKED ;;
  lapicw LINT1 MASKED ;;
  v <- lapicr VER ;;
  (if 4 <=? Z.land (Z.shiftr v 16) 0xFF then lapicw PCINT MASKED else ret tt) ;;
  lapicw ERROR (T_IRQ0 + IRQ_ERROR) ;;
  lapicw ESR 0 ;;
  lapicw ESR 0 ;;
  lapicw EOI 0 ;;
  lapicw ICRHI 0 ;;
  lapicw ICRLO (Z.lor BCAST (Z.lor INIT LEVEL)) ;;
  wait_delivery fuel ;;
  lapicw TPR 0.

(** The loop of cpunum. *)
Fixpoint find_apicid (n : nat) (i : Z) (apicid : Z) : K Z :=
  match n with
  | O => panic "unknown apicid"
  | S n' =>
      c <- gets (fun s => cpus (l_mp s)) ;;
      a <- get_opt "cpus" (arr_get c i) ;;
      if a =? apicid then ret i else find_apicid n' (i + 1) apicid
  end.

(** [eflags] is what readeflags returns, [ra] the return address. *)
Definition cpunum (eflags ra : Z) : K Z :=
  (if negb (Z.land eflags FL_IF =? 0) then
     modify (fun s => set_l_warn (s32 (l_n s + 1)) (if l_n s =? 0 then l_msgs s ++ [ra] else l_msgs s) s)
   else ret tt) ;;
  b <- present ;;
  if negb b then ret 0 else
  v <- lapicr ID ;;
  let apicid := Z.shiftr v 24 in
  n <- gets (fun s => ncpu (l_mp s)) ;;
  find_apicid (Z.to_nat n) 0 apicid.

Definition lapiceoi : K unit :=
  b <- present ;;
  if b then lapicw EOI 0 else ret tt.

Definition outb_ (port v : Z) : K unit := modify (fun s => set_l_mp (outb port v (l_mp s)) s).

(** A 16-bit store. *)
Definition store16 (m : mem) (a v : Z) : mem := store (store m a (u8 v)) (a + 1) (u8 (Z.shiftr v 8)).

Definition startup_ipi (apicid addr : Z) : K unit :=
  lapicw ICRHI (Z.shiftl apicid 24) ;;
  lapicw ICRLO (Z.lor STARTUP (Z.shiftr addr 12)).

Definition lapicstartap (apicid addr : Z) : K unit :=
  outb_ CMOS_PORT 0xF ;;
  outb_ (CMOS_PORT + 1) 0x0A ;;
  let wrv := P2V (Z.lor (Z.shiftl 0x40 4) 0x67) in
  modify (fun s => set_l_mem (store16 (l_mem s) wrv 0) s) ;;
  modify (fun s => set_l_mem (store16 (l_mem s) (wrv + 2) (Z.shiftr addr 4)) s) ;;
  lapicw ICRHI (Z.shiftl apicid 24) ;;
  lapicw ICRLO (Z.lor INIT (Z.lor LEVEL ASSERT)) ;;
  lapicw ICRLO (Z.lor INIT LEVEL) ;;
  startup_ipi apicid addr ;;
  startup_ipi apicid addr.
End lapic.
Arguments lap : clear implicits.

(** * What lapicinit programs, and the numbers of cpunum *)

(** The documented behaviour of the registers: a register keeps what is
    written to it, reading changes none, the ID register has the APIC id in its
    highest byte, and a command is delivered after at most [delay] polls. *)
Class ApicLaws (D : Type) `{!Apic D} := {
  reg : Z -> D -> Z;
  apic_id : D -> Z;
  busy : D -> nat;
  delay : nat;
  wr_reg i v d j : reg j (wr i v d) = if j =? i then v else reg j d;
  rd_reg i d j : reg j (snd (rd i d)) = reg j d;
  id_range d : 0 <= apic_id d < 256;
  id_read d : Z.shiftr (fst (rd ID d)) 24 = apic_id d;
  id_wr i v d : apic_id (wr i v d) = apic_id d;
  id_rd i d : apic_id (snd (rd i d)) = apic_id d;
  busy_read d : Z.land (fst (rd ICRLO d)) DELIVS = 0 <-> busy d = 0%nat;
  busy_rd d : busy (snd (rd ICRLO d)) = Nat.pred (busy d);
  busy_bound d : (busy d <= delay)%nat
}.

Section spec.
Context {D : Type} `{!Apic D, !ApicLaws D}.
Notation K := (M (lap D)).

Lemma lapicr_ok i s : lapicr i s = Ret (fst (rd i (l_dev s))) (set_l_dev (snd (rd i (l_dev s))) s).
Proof. unfold lapicr. rewrite gets_bind. destruct (rd i (l_dev s)) as [v d] eqn:E. by rewrite modify_bind. Qed.

Definition written (i v : Z) (s : lap D) : lap D := set_l_dev (snd (rd ID (wr i (u32 v) (l_dev s)))) s.

Lemma lapicw_ok i v s : lapicw i v s = Ret tt (written i v s).
Proof. unfold lapicw. rewrite modify_bind. rewrite (bind_Ret _ _ _ _ _ (lapicr_ok _ _)). done. Qed.

Lemma written_reg i v s j : reg j (l_dev (written i v s)) = if j =? i then u32 v else reg j (l_dev s).
Proof. unfold written. cbn. by rewrite rd_reg, wr_reg. Qed.

Lemma present_ok (s : lap D) : lapic (l_mp s) <> 0 -> present s = Ret true s.
Proof. intros H. unfold present. rewrite gets_bind. destruct (Z.eqb_spec (lapic (l_mp s)) 0); done. Qed.

(** Only registers of the APIC other than its id change. *)
Definition same_but_dev (s s' : lap D) : Prop := l_mp s' = l_mp s /\ l_mem s' = l_mem s /\ apic_id (l_dev s') = apic_id (l_dev s).

Ltac same_dev := split_and!; cbn; repeat (rewrite id_rd || rewrite id_wr); try done.

Lemma wait_delivery_ok n : forall fuel (s : lap D), (busy (l_dev s) <= n)%nat -> (n < fuel)%nat ->
  exists s', wait_delivery fuel s = Ret tt s' /\ same_but_dev s s' /\ forall j, reg j (l_dev s') = reg j (l_dev s).
Proof.
  induction n as [|n IH]; intros [|f] s Hb Hf; try lia; cbn [wait_delivery]; rewrite (bind_Ret _ _ _ _ _ (lapicr_ok _ _));
    destruct (Z.eqb_spec (Z.land (fst (rd ICRLO (l_dev s))) DELIVS) 0) as [E|E]; rewrite busy_read in E; try lia.
  - eexists. split; [done|]. split; [by same_dev|]. intros j. cbn. apply rd_reg.
  - eexists. split; [done|]. split; [by same_dev|]. intros j. cbn. apply rd_reg.
  - destruct (IH f (set_l_dev (snd (rd ICRLO (l_dev s))) s)) as (s' & H & (M1 & M2 & M3) & Hr); [cbn; rewrite busy_rd; lia|lia|].
    exists s'. split; [done|]. split; [split_and!; try done; rewrite M3; apply id_rd|]. intros j. rewrite Hr. cbn. apply rd_reg.
Qed.

(** What the registers hold after lapicinit. *)
Definition programmed (r : Z -> Z) : Prop :=
  r SVR = 0x13F /\ r TIMER = 0x20020 /\ r TDCR = 0xB /\ r TICR = 10000000 /\ r LINT0 = MASKED /\ r LINT1 = MASKED /\
  r ERROR = 51 /\ r TPR = 0.

(** lapicinit ends, and leaves the timer periodic on vector 32, the two lines
    masked and all interrupts let through. *)
Theorem lapicinit_programs (s : lap D) fuel : lapic (l_mp s) <> 0 -> (delay < fuel)%nat ->
  exists s', lapicinit fuel s = Ret tt s' /\ same_but_dev s s' /\ programmed (fun i => reg i (l_dev s')).
Proof.
  intros Hp Hf. unfold lapicinit. rewrite (bind_Ret _ _ _ _ _ (present_ok _ Hp)). cbn [negb].
  do 6 rewrite (bind_Ret _ _ _ _ _ (lapicw_ok _ _ _)). rewrite (bind_Ret _ _ _ _ _ (lapicr_ok _ _)).
  set (s1 := written LINT1 _ _). set (s2 := set_l_dev _ s1).
  assert (exists s3, (if 4 <=? Z.land (Z.shiftr (fst (rd VER (l_dev s1))) 16) 0xFF then lapicw PCINT MASKED else ret tt) s2 = Ret tt s3
    /\ same_but_dev s s3 /\ forall j, j <> PCINT -> reg j (l_dev s3) = reg j (l_dev s1)) as (s3 & H3 & Hm3 & Hr3).
  { destruct (4 <=? _).
    - exists (written PCINT MASKED s2). split; [apply lapicw_ok|]. split; [by same_dev|]. intros j Hj. rewrite written_reg. destruct (Z.eqb_spec j PCINT); [done|]. apply rd_reg.
    - exists s2. split; [done|]. split; [by same_dev|]. intros j _. apply rd_reg. }
  rewrite (bind_Ret _ _ _ _ _ H3). do 6 rewrite (bind_Ret _ _ _ _ _ (lapicw_ok _ _ _)).
  match goal with |- context [bind (wait_delivery fuel) _ ?t] => destruct (wait_delivery_ok delay fuel t) as (s4 & H4 & Hm4 & Hr4); [apply busy_bound|done|] end.
  rewrite (bind_Ret _ _ _ _ _ H4). rewrite lapicw_ok. eexists. split; [done|]. split.
  { destruct Hm3 as (A1 & A2 & A3), Hm4 as (B1 & B2 & B3). cbn in *. rewrite id_rd, id_wr in *. same_dev; rewrite ?B1, ?B2, ?B3; repeat (rewrite id_rd || rewrite id_wr); done. }
  unfold programmed. rewrite !written_reg, !Hr4, !written_reg, !Hr3 by done. unfold s1. rewrite !written_reg. vm_compute. tauto.
Qed.

Lemma find_apicid_ok (s : lap D) a c : cpus (l_mp s) = c -> forall n i k, c !! (i + k)%nat = Some a -> (forall j, (i <= j < i + k)%nat -> c !! j <> Some a) -> (k < n)%nat ->
  (i + k < length c)%nat -> find_apicid n (Z.of_nat i) a s = Ret (Z.of_nat (i + k)) s.
Proof.
  intros Hc. induction n as [|n IH]; intros i k Hk Hno Hn Hlen; [lia|]. cbn [find_apicid]. rewrite gets_bind, Hc, arr_get_nat.
  destruct (lookup_lt_is_Some_2 c i) as [x Hx]; [lia|]. rewrite Hx. unfold get_opt. rewrite ret_bind. destruct (Z.eqb_spec x a) as [->|Hne].
  - destruct k as [|k]; [by rewrite Nat.add_0_r|]. exfalso. apply (Hno i); [lia|done].
  - destruct k as [|k]; [rewrite Nat.add_0_r in Hk; congruence|]. replace (Z.of_nat i + 1) with (Z.of_nat (S i)) by lia. replace (i + S k)%nat with (S i + k)%nat in * by lia.
    apply IH; [done| |lia|lia]. intros j Hj. apply Hno. lia.
Qed.
End spec.

(** After mpinit found at most eight processors with different APIC ids,
    cpunum on the processor whose APIC has the id of the i-th returns i: the
    processors are numbered from 0 in the order of the table, each with a number
    of its own. *)
Theorem cpunum_numbers_processors `{!Apic D, !ApicLaws D} m imcr fuel mp conf es q (s : lap D) i ra :
  mpconfig m = Some (mp, conf) -> entries_to m (conf + sizeof_mpconf) es q (conf + conf_length m conf) -> conf + conf_length m conf <= q ->
  (length es < fuel)%nat -> conf_lapicaddr m conf <> 0 ->
  NoDup (processors es) -> (length (processors es) <= 8)%nat ->
  processors es !! i = Some (apic_id (l_dev s)) -> mpinit m imcr fuel mps0 = Ret tt (l_mp s) ->
  exists s', cpunum 0 ra s = Ret (Z.of_nat i) s' /\ l_mp s' = l_mp s /\ l_msgs s' = l_msgs s.
Proof.
  intros Hc Ht Hq Hf Hla Hnd H8 Hi Hmp. rewrite (mpinit_finds_processors m imcr mp conf es q fuel Hc Ht Hq Hf) in Hmp. injection Hmp as Hmp.
  pose proof (lookup_lt_Some _ _ _ Hi) as Hlt. unfold cpunum. change (negb (Z.land 0 FL_IF =? 0)) with false. cbv iota. rewrite ret_bind.
  rewrite (bind_Ret _ _ _ _ _ (present_ok s ltac:(by rewrite <- Hmp))). cbn [negb]. rewrite (bind_Ret _ _ _ _ _ (lapicr_ok _ _)). cbv zeta.
  rewrite id_read, gets_bind. set (s1 := set_l_dev _ s). exists s1. split; [|done]. cbn [l_mp s1 set_l_dev]. rewrite <- Hmp. unfold mp_result. cbn [ncpu].
  apply (find_apicid_ok s1 (apic_id (l_dev s)) (first8 (processors es)) ltac:(cbn; by rewrite <- Hmp) _ 0 i).
  - unfold first8. rewrite take_ge by done. by apply lookup_app_l_Some.
  - intros j Hj. unfold first8. rewrite take_ge by done. rewrite lookup_app_l by lia. intros E. pose proof (NoDup_lookup _ _ _ _ Hnd Hi E). lia.
  - lia.
  - unfold first8. rewrite length_app, length_take, length_replicate. lia.
Qed.

(** An APIC with its id and its registers, which delivers at once. *)
#[local] Instance simple_apic : Apic (Z * (Z -> Z)) := {|
  rd := fun i d => (if i =? ID then Z.shiftl (u8 d.1) 24 else if i =? ICRLO then 0 else d.2 i, d);
  wr := fun i v d => (d.1, fun j => if j =? i then v else d.2 j)
|}.

#[local] Program Instance simple_apic_laws : ApicLaws (Z * (Z -> Z)) := {|
  reg := fun j d => d.2 j; apic_id := fun d => u8 d.1; busy := fun _ => 0%nat; delay := 0%nat
|}.
Next Obligation. done. Qed.
Next Obligation. done. Qed.
Next Obligation. intros d. unfold u8. apply Z.mod_pos_bound. lia. Qed.
Next Obligation. intros d. change (Z.shiftr (Z.shiftl (u8 d.1) 24) 24 = u8 d.1). rewrite Z.shiftr_shiftl_l by lia. apply Z.shiftl_0_r. Qed.
Next Obligation. done. Qed.
Next Obligation. done. Qed.
Next Obligation. done. Qed.
Next Obligation. done. Qed.
Next Obligation. done. Qed.

(** The second processor of the table of [Mp]. *)
Lemma cpunum_numbers_processors_witness :
  let s := Lap (Mps [0; 1; 0; 0; 0; 0; 0; 0] 1 2 2 0xFEE00000 [(0x22, 0x70); (0x23, 1)]) (1, fun _ => 0) mem0 0 [] in
  exists s', cpunum 0 0 s = Ret 1 s' /\ l_mp s' = l_mp s /\ l_msgs s' = l_msgs s.
Proof.
  intros s. apply (cpunum_numbers_processors ex_bios 0 5 (P2V 0xF0020) (P2V 0xF0100) [Processor 0; Processor 1; Other 1; Ioapic 2] (P2V 0xF0100 + 100) s 1 0).
  - vm_compute. reflexivity.
  - cbn [entries_to entry_at esize]. split_and!; try (vm_compute; reflexivity). by left.
  - vm_compute. discriminate.
  - cbn. lia.
  - vm_compute. discriminate.
  - cbn. apply NoDup_cons. split; [|apply NoDup_singleton]. by intros ?%list_elem_of_singleton.
  - cbn. lia.
  - vm_compute. reflexivity.
  - vm_compute. reflexivity.
Defined.
