(* ===== verification/Cmos.v ===== *)
(** The clock (src/xv6-public/lapic.c, cmostime, and date.h).

    The clock chip runs while the code reads it: [tick i] says whether a second
    passes before access [i] of the program, [date t] is what the clock shows
    after [t] seconds, and while it is updated, [busy i], its registers hold
    anything.  The code reads all fields, sees that no update is in progress,
    and reads them again, until two readings agree; it returns a date the
    clock really showed. *)
From S2P Require Import Prelude CString.

Definition CMOS_STATA : Z := 0x0a.
Definition CMOS_STATB : Z := 0x0b.
Definition CMOS_UIP : Z := Z.shiftl 1 7.
Definition SECS : Z := 0x00.
Definition MINS : Z := 0x02.
Definition HOURS : Z := 0x04.
Definition DAY : Z := 0x07.
Definition MONTH : Z := 0x08.
Definition YEAR : Z := 0x09.

Record rtcdate := Rtcdate { second : Z; minute : Z; hour : Z; day : Z; month : Z; year : Z }.

#[global] Instance rtcdate_eq_dec : EqDecision rtcdate.
Proof. solve_decision. Defined.

Section cmos.
(** The value of register [reg] at access [i]. *)
Context (value : nat -> Z -> Z).

(** The state is the number of accesses so far. *)
Notation K := (M nat).

(** outb(CMOS_PORT, reg), then inb(CMOS_RETURN). *)
Definition cmos_read (reg : Z) : K Z :=
  i <- gets (fun i => i) ;;
  modify S ;;
  ret (u8 (value i reg)).

Definition fill_rtcdate : K rtcdate :=
  s <- cmos_read SECS ;;
  mi <- cmos_read MINS ;;
  h <- cmos_read HOURS ;;
  d <- cmos_read DAY ;;
  mo <- cmos_read MONTH ;;
  y <- cmos_read YEAR ;;
  ret (Rtcdate s mi h d mo y).

(** The loop: two readings that agree. *)
Fixpoint cmos_loop (fuel : nat) : K rtcdate :=
  match fuel with
  | O => fun s => OutOfFuel s
  | S f =>
      t1 <- fill_rtcdate ;;
      a <- cmos_read CMOS_STATA ;;
      if negb (Z.land a CMOS_UIP =? 0) then cmos_loop f
      else
        t2 <- fill_rtcdate ;;
        if bool_decide (t1 = t2) then ret t1 else cmos_loop f
  end.

Definition conv (x : Z) : Z := u32 (Z.shiftr x 4 * 10 + Z.land x 0xf).

Definition cmostime (fuel : nat) : K rtcdate :=
  sb <- cmos_read CMOS_STATB ;;
  let bcd := Z.land sb (Z.shiftl 1 2) =? 0 in
  t1 <- cmos_loop fuel ;;
  let t1 := if bcd then Rtcdate (conv (second t1)) (conv (minute t1)) (conv (hour t1)) (conv (day t1)) (conv (month t1)) (conv (year t1)) else t1 in
  ret (Rtcdate (second t1) (minute t1) (hour t1) (day t1) (month t1) (u32 (year t1 + 2000))).
End cmos.

(** * The chip *)

(** A field of two digits as the chip gives it. *)
Definition code (bcd : bool) (x : Z) : Z := if bcd then 16 * (x / 10) + x mod 10 else x.

Lemma code_range bcd x : 0 <= x < 100 -> 0 <= code bcd x < 256.
Proof.
  intros H. unfold code. destruct bcd; [|lia]. assert (0 <= x / 10 < 10) by (split; [apply Z.div_pos; lia|apply Z.div_lt_upper_bound; lia]).
  pose proof (Z.mod_pos_bound x 10 ltac:(lia)). lia.
Qed.

Lemma conv_code x : 0 <= x < 100 -> conv (code true x) = x.
Proof.
  intros H. unfold conv, code. pose proof (Z.mod_pos_bound x 10 ltac:(lia)). rewrite Z.shiftr_div_pow2 by lia. change (2 ^ 4) with 16.
  replace ((16 * (x / 10) + x mod 10) / 16) with (x / 10) by (apply (Z.div_unique _ _ _ (x mod 10)); lia).
  change 0xf with (Z.ones 4). rewrite Z.land_ones by lia. change (2 ^ 4) with 16.
  replace ((16 * (x / 10) + x mod 10) mod 16) with (x mod 10) by (apply (Z.mod_unique _ _ (x / 10)); lia).
  rewrite u32_small by (pose proof (Z.div_mod x 10 ltac:(lia)); lia). pose proof (Z.div_mod x 10 ltac:(lia)). lia.
Qed.

Lemma code_inj bcd x y : 0 <= x < 100 -> 0 <= y < 100 -> code bcd x = code bcd y -> x = y.
Proof. intros Hx Hy. destruct bcd; [|done]. intros E. apply (f_equal conv) in E. by rewrite !conv_code in E. Qed.

Section clock.
(** Whether a second passes before access [i], whether the clock is being
    updated then, what its registers hold while it is, and the status. *)
Context (tick busy : nat -> bool) (junk : nat -> Z -> Z) (stata : nat -> Z) (bcd : bool) (date : nat -> rtcdate).

(** The seconds that have passed at access [i]. *)
Fixpoint now (i : nat) : nat :=
  let t := match i with O => O | S j => now j end in if tick i then S t else t.

Definition in_range (d : rtcdate) : Prop :=
  Forall (fun x => 0 <= x < 100) [second d; minute d; hour d; day d; month d; year d].

Definition field (d : rtcdate) (reg : Z) : Z :=
  if reg =? SECS then second d else if reg =? MINS then minute d else if reg =? HOURS then hour d
  else if reg =? DAY then day d else if reg =? MONTH then month d else year d.

Definition chip (i : nat) (reg : Z) : Z :=
  if reg =? CMOS_STATA then stata i
  else if reg =? CMOS_STATB then (if bcd then 2 else 6)
  else if busy i then junk i reg
  else code bcd (field (date (now i)) reg).

Definition uip (i : nat) : Prop := Z.land (u8 (stata i)) CMOS_UIP <> 0.
Definition disturbed (i : nat) : bool := busy i || tick i.

(** The promises of the chip: its fields have two digits; and since updates are
    a second apart, what disturbs two accesses less than two readings apart is
    one update, during which it reports that an update is in progress. *)
Record clock_laws : Prop := {
  dates t : in_range (date t);
  one_update a b c : (a < b < c)%nat -> (c < a + 13)%nat -> disturbed a = true -> disturbed c = true -> uip b
}.

(** A reading that begins at access [i], and one the clock left alone. *)
Definition reading (i : nat) : rtcdate :=
  Rtcdate (u8 (chip i SECS)) (u8 (chip (i + 1) MINS)) (u8 (chip (i + 2) HOURS))
    (u8 (chip (i + 3) DAY)) (u8 (chip (i + 4) MONTH)) (u8 (chip (i + 5) YEAR)).
Definition clean (i : nat) : Prop := forall k, (i <= k < i + 6)%nat -> disturbed k = false.

Lemma clean_or_not i : clean i \/ exists k, (i <= k < i + 6)%nat /\ disturbed k = true.
Proof.
  destruct (existsb disturbed (seq i 6)) eqn:E.
  - right. apply existsb_exists in E as (k & Hk%in_seq & Hd). exists k. split; [lia|done].
  - left. intros k Hk. destruct (disturbed k) eqn:D; [|done]. rewrite <- E. symmetry. apply existsb_exists. exists k. split; [apply in_seq; lia|done].
Qed.

Lemma fill_rtcdate_ok i : fill_rtcdate chip i = Ret (reading i) (i + 6)%nat.
Proof. unfold reading. rewrite !(Nat.add_comm i). reflexivity. Qed.

(** The date in the code of the chip. *)
Definition coded (d : rtcdate) : rtcdate :=
  Rtcdate (code bcd (second d)) (code bcd (minute d)) (code bcd (hour d)) (code bcd (day d)) (code bcd (month d)) (code bcd (year d)).

Lemma now_still i k : (forall j, (i < j <= i + k)%nat -> tick j = false) -> now (i + k) = now i.
Proof.
  induction k as [|k IH]; intros H; [by rewrite Nat.add_0_r|]. rewrite Nat.add_succ_r. cbn [now]. rewrite (H (S (i + k))) by lia.
  apply IH. intros j Hj. apply H. lia.
Qed.

Lemma reading_clean i : clock_laws -> clean i -> reading i = coded (date (now i)).
Proof.
  intros HL Hc. assert (forall k reg, (k < 6)%nat -> reg <> CMOS_STATA -> reg <> CMOS_STATB -> u8 (chip (i + k) reg) = code bcd (field (date (now i)) reg)) as H.
  { intros k reg Hk HA HB. pose proof (Hc (i + k)%nat ltac:(lia)) as Hd. unfold disturbed in Hd. apply orb_false_iff in Hd as [Hb _].
    unfold chip. rewrite (proj2 (Z.eqb_neq _ _) HA), (proj2 (Z.eqb_neq _ _) HB), Hb, now_still.
    2:{ intros j Hj. pose proof (Hc j ltac:(lia)) as Hd. by apply orb_false_iff in Hd as [_ ?]. }
    unfold u8. apply Z.mod_small, code_range. pose proof (dates HL (now i)) as Hd. unfold in_range in Hd. rewrite !Forall_cons in Hd.
    destruct Hd as (? & ? & ? & ? & ? & ? & _). unfold field. repeat destruct (_ =? _); done. }
  unfold reading, coded. rewrite <- (Nat.add_0_r i) at 1. by rewrite !H by (done || lia).
Qed.

(** Two readings that agree, with no update in progress between them, are a
    date the clock showed: an update disturbs one of them at most. *)
Lemma agree_shown i : clock_laws -> ~ uip (i + 6) -> reading i = reading (i + 7) -> exists j, (i <= j <= i + 7)%nat /\ reading i = coded (date (now j)).
Proof.
  intros HL Hu E. destruct (clean_or_not i) as [Hc|(a & Ha & Da)]; [exists i; split; [lia|by apply reading_clean]|].
  destruct (clean_or_not (i + 7)) as [Hc|(c & Hc & Dc)]; [exists (i + 7)%nat; split; [lia|rewrite E; by apply reading_clean]|].
  destruct Hu. apply (one_update HL a (i + 6) c); done || lia.
Qed.

(** From access [n] on the clock is left alone for two readings. *)
Definition quiet (n : nat) : Prop := forall i, (n <= i < n + 26)%nat -> disturbed i = false /\ ~ uip i.

Lemma quiet_reading n i : clock_laws -> quiet n -> (n <= i < n + 20)%nat -> reading i = coded (date (now n)).
Proof.
  intros HL Hq Hi. rewrite reading_clean; [|done|intros k Hk; apply Hq; lia]. do 2 f_equal. replace i with (n + (i - n))%nat by lia. apply now_still.
  intros j Hj. destruct (Hq j ltac:(lia)) as [Hd _]. by apply orb_false_iff in Hd as [_ ?].
Qed.

Lemma cmos_loop_ok n : clock_laws -> quiet n -> forall fuel i, (i < n + 13)%nat -> (n + 13 < i + fuel)%nat ->
  exists j k, cmos_loop chip fuel i = Ret (coded (date (now j))) k /\ (i <= j < k)%nat.
Proof.
  intros HL Hq. induction fuel as [|f IH]; intros i Hi Hf; [lia|]. cbn [cmos_loop].
  rewrite (bind_Ret _ _ _ _ _ (fill_rtcdate_ok i)). unfold cmos_read at 1. rewrite (bind_Ret _ _ (i + 6)%nat (u8 (stata (i + 6))) (S (i + 6))) by done.
  replace (S (i + 6)) with (i + 7)%nat by lia. destruct (Z.eqb_spec (Z.land (u8 (stata (i + 6))) CMOS_UIP) 0) as [Hu|Hu]; cbn [negb].
  - rewrite (bind_Ret _ _ _ _ _ (fill_rtcdate_ok (i + 7))). case_bool_decide as E.
    + destruct (agree_shown i HL) as (j & Hj & Hr); [by intros ?|done|]. exists j, (i + 7 + 6)%nat. rewrite Hr. split; [done|lia].
    + destruct (decide (n <= i)%nat); [destruct E; rewrite !(quiet_reading n) by (done || lia); done|].
      destruct (IH (i + 7 + 6)%nat) as (j & k & H & Hj); [lia|lia|]. exists j, k. split; [done|lia].
  - destruct (decide (n <= i)%nat); [destruct (Hq (i + 6)%nat ltac:(lia)) as [_ []]; exact Hu|].
    destruct (IH (i + 7)%nat) as (j & k & H & Hj); [lia|lia|]. exists j, k. split; [done|lia].
Qed.

Lemma conv_coded d : in_range d -> (if bcd then Rtcdate (conv (second (coded d))) (conv (minute (coded d))) (conv (hour (coded d))) (conv (day (coded d)))
  (conv (month (coded d))) (conv (year (coded d))) else coded d) = d.
Proof.
  unfold in_range. rewrite !Forall_cons. intros (? & ? & ? & ? & ? & ? & _). unfold coded. cbn [second minute hour day month year].
  destruct bcd; [|by destruct d]. rewrite !conv_code by done. by destruct d.
Qed.
End clock.

(** C30: cmostime, reading a clock that runs meanwhile and whose registers hold
    anything while it is updated, returns as soon as the clock is left alone
    for long enough, and then returns a date, with 2000 added to the year, that
    the clock showed between the call and the return, not what the registers
    held during an update nor a mixture of two dates; the clock may count in
    decimal or binary code. *)
Theorem cmostime_shows_clock tick busy junk stata bcd date n fuel :
  clock_laws tick busy stata date -> quiet tick busy stata n -> (n + 14 <= fuel)%nat ->
  exists j k, let d := date (now tick j) in
    cmostime (chip tick busy junk stata bcd date) fuel 0%nat
    = Ret (Rtcdate (second d) (minute d) (hour d) (day d) (month d) (year d + 2000)) k /\ (j < k)%nat.
Proof.
  intros HL Hq Hf. destruct (cmos_loop_ok tick busy junk stata bcd date n HL Hq fuel 1) as (j & k & H & Hj); [lia|lia|]. exists j, k. cbv zeta.
  split; [|lia]. unfold cmostime. rewrite (bind_Ret _ _ 0%nat (if bcd then 2 else 6) 1%nat) by (by destruct bcd). cbv zeta. rewrite (bind_Ret _ _ _ _ _ H).
  replace (Z.land (if bcd then 2 else 6) (Z.shiftl 1 2) =? 0) with bcd by (by destruct bcd). pose proof (dates _ _ _ _ HL (now tick j)) as Hr. rewrite conv_coded by done.
  unfold in_range in Hr. rewrite !Forall_cons in Hr. destruct Hr as (_ & _ & _ & _ & _ & ? & _). by rewrite u32_small by lia.
Qed.

(** A clock that is updated from access 3 to access 30, when all its registers
    hold 0x77, and shows the next second after that: readings meanwhile agree,
    and are not the date. *)
Definition ex_tick : nat -> bool := Nat.eqb 31.
Definition ex_busy (i : nat) : bool := ((3 <=? i) && (i <=? 30))%nat.
Definition ex_stata (i : nat) : Z := if ex_busy i then 0xA6 else 0x26.
Definition ex_date (t : nat) : rtcdate := Rtcdate (Z.of_nat t mod 60) 59 23 31 12 16.

Lemma ex_clock : clock_laws ex_tick ex_busy ex_stata ex_date.
Proof.
  constructor.
  - intros t. unfold in_range, ex_date. cbn [second minute hour day month year]. rewrite !Forall_cons, Forall_nil. pose proof (Z.mod_pos_bound (Z.of_nat t) 60). split_and!; lia || done.
  - intros a b c Hb _ Da Dc. unfold uip, ex_stata. assert (ex_busy b = true) as ->; [|done]. unfold disturbed, ex_tick, ex_busy in *.
    apply orb_true_iff in Da, Dc. rewrite andb_true_iff, !Nat.leb_le, Nat.eqb_eq in *. lia.
Qed.

Lemma cmostime_shows_clock_witness :
  exists j k, let d := ex_date (now ex_tick j) in
    cmostime (chip ex_tick ex_busy (fun _ _ => 0x77) ex_stata true ex_date) 60 0%nat
    = Ret (Rtcdate (second d) (minute d) (hour d) (day d) (month d) (year d + 2000)) k /\ (j < k)%nat.
Proof.
  apply (cmostime_shows_clock ex_tick ex_busy (fun _ _ => 0x77) ex_stata true ex_date 32 60).
  - exact ex_clock.
  - intros i Hi. assert (ex_busy i = false) as E by (unfold ex_busy; apply andb_false_iff; right; apply Nat.leb_gt; lia).
    split; [unfold disturbed, ex_tick; rewrite E; apply Nat.eqb_neq; lia|]. unfold uip, ex_stata. rewrite E. by intros [].
  - lia.
Defined.
