(* ===== verification/Boot.v ===== *)
(** The boot loader (src/xv6-public/bootmain.c): reads the kernel from the disk
    and gives its entry point.

    The disk is behind its ports; the kernel's image begins at sector 1.  The
    call of the entry point is the result.

    The boot loader loads the segments of the kernel where their headers say. *)
From S2P Require Import Prelude CString.

Definition SECTSIZE : Z := 512.
Definition ELF_MAGIC : Z := 0x464C457F.

(** The ports of the disk. *)
Class BootDisk (D : Type) := {
  inb : Z -> D -> Z * D;
  outb : Z -> Z -> D -> D;
  insl : Z -> nat -> D -> list Z * D
}.

Record boot (D : Type) := Boot { b_dev : D; b_mem : mem }.
Arguments Boot {D}.
Arguments b_dev {D}.
Arguments b_mem {D}.

Section boot.
Context {D : Type} `{!BootDisk D}.
Definition set_b_dev (x : D) (s : boot D) : boot D := Boot x (b_mem s).
Definition set_b_mem (x : mem) (s : boot D) : boot D := Boot (b_dev s) x.
Notation K := (M (boot D)).

Definition out (port v : Z) : K unit := modify (fun s => set_b_dev (outb port (u8 v) (b_dev s)) s).

(** while((inb(0x1F7) & 0xC0) != 0x40) *)
Fixpoint waitdisk (fuel : nat) : K unit :=
  match fuel with
  | O => fun s => OutOfFuel s
  | S f =>
      s <- gets (fun s => s) ;;
      let '(v, d) := inb 0x1F7 (b_dev s) in
      modify (set_b_dev d) ;;
      if negb (Z.land v 0xC0 =? 0x40) then waitdisk f else ret tt
  end.

Definition readsect (w : nat) (dst offset : Z) : K unit :=
  waitdisk w ;;
  out 0x1F2 1 ;;
  out 0x1F3 offset ;;
  out 0x1F4 (Z.shiftr offset 8) ;;
  out 0x1F5 (Z.shiftr offset 16) ;;
  out 0x1F6 (Z.lor (Z.shiftr offset 24) 0xE0) ;;
  out 0x1F7 0x20 ;;
  waitdisk w ;;
  s <- gets (fun s => s) ;;
  let '(l, d) := insl 0x1F0 (Z.to_nat (SECTSIZE / 4)) (b_dev s) in
  modify (fun _ => Boot d (place l dst (b_mem s))).

Fixpoint readseg_loop (w fuel : nat) (pa epa offset : Z) : K unit :=
  match fuel with
  | O => fun s => OutOfFuel s
  | S f =>
      if pa <? epa then readsect w pa offset ;; readseg_loop w f (u32 (pa + SECTSIZE)) epa (u32 (offset + 1))
      else ret tt
  end.

Definition readseg (w : nat) (pa count offset : Z) : K unit :=
  let epa := u32 (pa + count) in
  let pa := u32 (pa - offset mod SECTSIZE) in
  let offset := offset / SECTSIZE + 1 in
  readseg_loop w (Z.to_nat (count / SECTSIZE) + 3) pa epa offset.

(** Fields of the headers in memory. *)
Definition load16 (m : mem) (a : Z) : Z := m a + 256 * m (a + 1).
Definition e_magic (m : mem) (a : Z) : Z := load32 m a.
Definition e_entry (m : mem) (a : Z) : Z := load32 m (a + 24).
Definition e_phoff (m : mem) (a : Z) : Z := load32 m (a + 28).
Definition e_phnum (m : mem) (a : Z) : Z := load16 m (a + 44).
Definition ph_off (m : mem) (a : Z) : Z := load32 m (a + 4).
Definition ph_paddr (m : mem) (a : Z) : Z := load32 m (a + 12).
Definition ph_filesz (m : mem) (a : Z) : Z := load32 m (a + 16).
Definition ph_memsz (m : mem) (a : Z) : Z := load32 m (a + 20).

(** The body of the loop, for the header at [ph]. *)
Definition load_segment (w : nat) (ph : Z) : K unit :=
  s <- gets (fun s => s) ;;
  let pa := ph_paddr (b_mem s) ph in
  readseg w pa (ph_filesz (b_mem s) ph) (ph_off (b_mem s) ph) ;;
  s <- gets (fun s => s) ;;
  let filesz := ph_filesz (b_mem s) ph in
  let memsz := ph_memsz (b_mem s) ph in
  if filesz <? memsz then modify (set_b_mem (stosb (b_mem s) (u32 (pa + filesz)) 0 (Z.to_nat (memsz - filesz))))
  else ret tt.

Fixpoint load_segments (w n : nat) (ph : Z) : K unit :=
  match n with O => ret tt | S n' => load_segment w ph ;; load_segments w n' (ph + 32) end.

(** The entry point, or nothing if there is no kernel. *)
Definition bootmain (w : nat) : K (option Z) :=
  let elf := 0x10000 in
  readseg w elf 4096 0 ;;
  s <- gets (fun s => s) ;;
  if negb (e_magic (b_mem s) elf =? ELF_MAGIC) then ret None else
  let ph := u32 (elf + e_phoff (b_mem s) elf) in
  load_segments w (Z.to_nat (e_phnum (b_mem s) elf)) ph ;;
  s <- gets (fun s => s) ;;
  ret (Some (e_entry (b_mem s) elf)).
End boot.

(** * What the boot loader does *)

Inductive command := Idle | Reading (n : Z).

(** The documented behaviour of the disk: it becomes ready after at most
    [delay] polls; a read command for one sector, with the sector's number in
    four bytes, makes the bytes of that sector available. *)
Class BootDiskLaws (D : Type) `{!BootDisk D} := {
  sector : Z -> list Z;
  state : D -> command -> Prop;
  ready : D -> Prop;
  busy : D -> nat;
  delay : nat;
  sector_length n : length (sector n) = 512%nat;
  busy_le d : (busy d <= delay)%nat;
  poll d c v d' : state d c -> inb 0x1F7 d = (v, d') ->
    state d' c /\ (Z.land v 0xC0 = 0x40 /\ ready d' \/ Z.land v 0xC0 <> 0x40 /\ (busy d' < busy d)%nat);
  read_command d n : state d Idle -> ready d -> 0 <= n < 268435456 ->
    state (outb 0x1F7 0x20 (outb 0x1F6 (u8 (Z.lor (Z.shiftr n 24) 0xE0)) (outb 0x1F5 (u8 (Z.shiftr n 16))
      (outb 0x1F4 (u8 (Z.shiftr n 8)) (outb 0x1F3 (u8 n) (outb 0x1F2 1 d)))))) (Reading n);
  read_data d n : state d (Reading n) -> ready d -> exists d', insl 0x1F0 128 d = (sector n, d') /\ state d' Idle
}.

Section spec.
Context {D : Type} `{!BootDisk D, !BootDiskLaws D}.

Lemma waitdisk_ok w c s : (delay < w)%nat -> state (b_dev s) c -> exists d, waitdisk w s = Ret tt (set_b_dev d s) /\ state d c /\ ready d.
Proof.
  intros Hw Hs. assert (busy (b_dev s) < w)%nat as Hb by (pose proof (busy_le (b_dev s)); lia). clear Hw. revert s Hs Hb.
  induction w as [|f IH]; intros s Hs Hb; [lia|]. cbn [waitdisk]. rewrite gets_bind. destruct (inb 0x1F7 (b_dev s)) as [v d] eqn:E. rewrite modify_bind.
  destruct (poll _ _ _ _ Hs E) as (Hd & [[Hv Hr]|[Hv Hlt]]).
  - rewrite Hv. cbn. by exists d.
  - destruct (Z.eqb_spec (Z.land v 0xC0) 0x40); [done|]. cbn [negb]. destruct (IH (set_b_dev d s)) as (d' & H & Hd' & Hr'); [done|cbn; lia|]. by exists d'.
Qed.

Lemma readsect_ok w dst n s : (delay < w)%nat -> state (b_dev s) Idle -> 0 <= n < 268435456 ->
  exists d, readsect w dst n s = Ret tt (Boot d (place (sector n) dst (b_mem s))) /\ state d Idle.
Proof.
  intros Hw Hs Hn. destruct (waitdisk_ok w _ _ Hw Hs) as (d1 & H1 & S1 & R1). unfold readsect. rewrite (bind_Ret _ _ _ _ _ H1). unfold out. rewrite !modify_bind.
  set (s2 := set_b_dev _ _). assert (state (b_dev s2) (Reading n)) as S2 by (by apply read_command).
  destruct (waitdisk_ok w _ _ Hw S2) as (d3 & H3 & S3 & R3). rewrite (bind_Ret _ _ _ _ _ H3), gets_bind. destruct (read_data _ _ S3 R3) as (d4 & E4 & S4).
  change (Z.to_nat (SECTSIZE / 4)) with 128%nat. cbn [b_dev set_b_dev]. rewrite E4. by exists d4.
Qed.

(** Byte [j] of the kernel's image. *)
Definition image (j : Z) : Z := nth (Z.to_nat (j mod 512)) (sector (1 + j / 512)) 0.

Lemma readseg_loop_ok w (Hw : (delay < w)%nat) k : forall fuel pa epa n s, state (b_dev s) Idle -> 0 <= pa -> epa <= pa + 512 * Z.of_nat k -> (k = 0%nat \/ pa + 512 * Z.of_nat k < epa + 512) ->
  (k < fuel)%nat -> pa + 512 * Z.of_nat k < 4294967296 -> 0 <= n -> n + Z.of_nat k < 268435456 ->
  exists s', readseg_loop w fuel pa epa n s = Ret tt s' /\ state (b_dev s') Idle
    /\ forall x, b_mem s' x = if decide (pa <= x < pa + 512 * Z.of_nat k) then nth (Z.to_nat ((x - pa) mod 512)) (sector (n + (x - pa) / 512)) 0 else b_mem s x.
Proof.
  induction k as [|k IH]; intros [|f] pa epa n s Hs Hpa He Hk Hf Hb Hn Hnb; try lia; cbn [readseg_loop].
  - destruct (Z.ltb_spec pa epa); [lia|]. exists s. split; [done|]. split; [done|]. intros x. rewrite decide_False by lia. done.
  - destruct (Z.ltb_spec pa epa); [|lia]. destruct (readsect_ok w pa n s Hw Hs) as (d & H1 & S1); [lia|]. rewrite (bind_Ret _ _ _ _ _ H1).
    change SECTSIZE with 512. rewrite !u32_small by lia.
    destruct (IH f (pa + 512) epa (n + 1) (Boot d (place (sector n) pa (b_mem s)))) as (s' & HR & S' & Hm); [done|lia|lia|lia|lia|lia|lia|lia|].
    exists s'. split; [done|]. split; [done|]. intros x. rewrite Hm. cbn [b_mem]. destruct (decide (pa + 512 <= x < pa + 512 + 512 * Z.of_nat k)) as [Hx|Hx].
    + rewrite decide_True by lia. replace (x - pa) with (x - (pa + 512) + 1 * 512) by lia. rewrite Z.mod_add, Z.div_add by lia. do 2 f_equal. lia.
    + unfold place. rewrite sector_length. change (Z.of_nat 512) with 512. destruct (decide (pa <= x < pa + 512 * Z.of_nat (S k))) as [Hy|Hy].
      * destruct (Z.leb_spec pa x), (Z.ltb_spec x (pa + 512)); try lia. cbn [andb]. rewrite Z.mod_small, Z.div_small, Z.add_0_r by lia. done.
      * destruct (Z.leb_spec pa x), (Z.ltb_spec x (pa + 512)); cbn [andb]; done || lia.
Qed.

(** What readseg overwrites: the sectors with the bytes asked for. *)
Definition lo (pa offset : Z) : Z := pa - offset mod 512.
Definition hi (pa count offset : Z) : Z := lo pa offset + 512 * ((count + offset mod 512 + 511) / 512).

Lemma hi_bounds pa count offset : 0 <= count -> pa + count <= hi pa count offset < pa + count + 512.
Proof.
  intros Hc. unfold hi, lo. pose proof (Z.mod_pos_bound offset 512 ltac:(lia)). pose proof (Z.div_mod (count + offset mod 512 + 511) 512 ltac:(lia)).
  pose proof (Z.mod_pos_bound (count + offset mod 512 + 511) 512 ltac:(lia)). lia.
Qed.

Lemma readseg_ok w (Hw : (delay < w)%nat) pa count offset s : state (b_dev s) Idle -> 0 <= count -> 0 <= offset -> 512 <= pa -> pa + count + 512 < 4294967296 ->
  offset + count < 4294967296 ->
  exists s', readseg w pa count offset s = Ret tt s' /\ state (b_dev s') Idle
    /\ forall x, b_mem s' x = if decide (lo pa offset <= x < hi pa count offset) then image (offset + (x - pa)) else b_mem s x.
Proof.
  intros Hs Hc Ho Hp Hb Hob. pose proof (Z.mod_pos_bound offset 512 ltac:(lia)) as Hm. pose proof (hi_bounds pa count offset Hc) as Hh. unfold hi in *. fold (lo pa offset).
  set (q := (count + offset mod 512 + 511) / 512) in *. assert (0 <= q) by (apply Z.div_pos; lia). pose proof (Z.div_mod count 512 ltac:(lia)). pose proof (Z.mod_pos_bound count 512 ltac:(lia)).
  assert (q < count / 512 + 3) by (apply Z.div_lt_upper_bound; lia). assert (0 <= offset / 512 < 8388608) by (split; [apply Z.div_pos; lia|apply Z.div_lt_upper_bound; lia]).
  assert (count / 512 < 8388608) by (apply Z.div_lt_upper_bound; lia). pose proof (Z.div_mod offset 512 ltac:(lia)).
  unfold readseg. change SECTSIZE with 512. fold (lo pa offset). unfold lo in *. rewrite !u32_small by lia.
  destruct (readseg_loop_ok w Hw (Z.to_nat q) (Z.to_nat (count / 512) + 3) (pa - offset mod 512) (pa + count) (offset / 512 + 1) s) as (s' & H' & S' & Hx);
    rewrite ?Z2Nat.id by lia; try lia; [done|].
  exists s'. split; [done|]. split; [done|]. intros x. rewrite Hx, Z2Nat.id by lia. destruct (decide _) as [Hd|Hd]; [|done]. unfold image.
  replace (offset + (x - pa)) with (x - (pa - offset mod 512) + (offset / 512) * 512) by lia. rewrite Z.mod_add, Z.div_add by lia. do 2 f_equal. lia.
Qed.

(** * Segments *)

Record seg := Seg { sg_pa : Z; sg_filesz : Z; sg_memsz : Z; sg_off : Z }.

Definition seg_at (m : mem) (ph : Z) : seg := Seg (ph_paddr m ph) (ph_filesz m ph) (ph_memsz m ph) (ph_off m ph).

(** The first address of the segment's sectors in memory, the end of the
    segment, and the end of what loading it overwrites. *)
Definition sg_lo (g : seg) : Z := lo (sg_pa g) (sg_off g).
Definition sg_end (g : seg) : Z := sg_pa g + Z.max (sg_filesz g) (sg_memsz g).
Definition sg_top (g : seg) : Z := Z.max (sg_end g) (hi (sg_pa g) (sg_filesz g) (sg_off g)).

(** A segment that is in memory and not on the page of the headers. *)
Record seg_ok (g : seg) : Prop := {
  so_sizes : 0 <= sg_filesz g /\ 0 <= sg_memsz g /\ 0 <= sg_off g /\ sg_off g + sg_filesz g < 4294967296;
  so_low : 512 <= sg_pa g;
  so_high : sg_end g + 512 < 4294967296;
  so_apart : sg_top g <= 0x10000 \/ 0x11000 <= sg_lo g
}.

Definition loaded (g : seg) (m : mem) : mem := fun x =>
  if decide (sg_pa g + sg_filesz g <= x < sg_pa g + sg_memsz g) then 0
  else if decide (sg_lo g <= x < hi (sg_pa g) (sg_filesz g) (sg_off g)) then image (sg_off g + (x - sg_pa g))
  else m x.

Lemma sg_lo_le g : sg_lo g <= sg_pa g.
Proof. unfold sg_lo, lo. pose proof (Z.mod_pos_bound (sg_off g) 512 ltac:(lia)). lia. Qed.

Lemma loaded_outside g m x : x < sg_lo g \/ sg_top g <= x -> 0 <= sg_filesz g -> loaded g m x = m x.
Proof.
  intros H Hf. pose proof (sg_lo_le g). unfold loaded. rewrite !decide_False; [done| |]; unfold sg_top, sg_end in H; lia.
Qed.

(** The page of headers is as on disk. *)
Definition imgmem : mem := fun x => image (x - 0x10000).
Definition headers (m : mem) : Prop := forall x, 0x10000 <= x < 0x11000 -> m x = imgmem x.

Lemma headers_load32 m a : headers m -> 0x10000 <= a -> a + 4 <= 0x11000 -> load32 m a = load32 imgmem a.
Proof. intros H Ha Hb. apply load32_ext. intros x Hx. apply H. lia. Qed.

Lemma headers_seg m ph : headers m -> 0x10000 <= ph -> ph + 32 <= 0x11000 -> seg_at m ph = seg_at imgmem ph.
Proof. intros H Ha Hb. unfold seg_at, ph_paddr, ph_filesz, ph_memsz, ph_off. rewrite !(headers_load32 m) by (done || lia). done. Qed.

Lemma load_segment_ok w (Hw : (delay < w)%nat) ph s : state (b_dev s) Idle -> headers (b_mem s) -> 0x10000 <= ph -> ph + 32 <= 0x11000 -> let g := seg_at imgmem ph in seg_ok g ->
  exists s', load_segment w ph s = Ret tt s' /\ state (b_dev s') Idle /\ headers (b_mem s') /\ forall x, b_mem s' x = loaded g (b_mem s) x.
Proof.
  intros Hs Hh Hp1 Hp2 g [(Hf & Hm & Ho & Hob) Hlow Hhigh Hap]. pose proof (headers_seg _ _ Hh Hp1 Hp2) as Eg. fold g in Eg.
  assert (forall m, (forall x, m x = loaded g (b_mem s) x) -> headers m) as Hhead.
  { intros m E x Hx. rewrite E, loaded_outside; [by apply Hh|lia|done]. }
  unfold load_segment. rewrite gets_bind. cbv zeta. change (ph_paddr (b_mem s) ph) with (sg_pa (seg_at (b_mem s) ph)). change (ph_filesz (b_mem s) ph) with (sg_filesz (seg_at (b_mem s) ph)).
  change (ph_off (b_mem s) ph) with (sg_off (seg_at (b_mem s) ph)). rewrite Eg. unfold sg_end in Hhigh.
  destruct (readseg_ok w Hw (sg_pa g) (sg_filesz g) (sg_off g) s) as (s1 & H1 & S1 & M1); [done|done|done|done|lia|lia|]. rewrite (bind_Ret _ _ _ _ _ H1), gets_bind.
  assert (headers (b_mem s1)) as Hh1.
  { intros x Hx. rewrite M1. rewrite decide_False; [by apply Hh|]. unfold sg_top, sg_lo in Hap. lia. }
  pose proof (headers_seg _ _ Hh1 Hp1 Hp2) as Eg1. fold g in Eg1. change (ph_filesz (b_mem s1) ph) with (sg_filesz (seg_at (b_mem s1) ph)). change (ph_memsz (b_mem s1) ph) with (sg_memsz (seg_at (b_mem s1) ph)).
  rewrite Eg1. destruct (Z.ltb_spec (sg_filesz g) (sg_memsz g)) as [Hlt|Hge].
  - eexists. split; [done|]. split; [done|]. assert (forall x, stosb (b_mem s1) (u32 (sg_pa g + sg_filesz g)) 0 (Z.to_nat (sg_memsz g - sg_filesz g)) x = loaded g (b_mem s) x) as E.
    { intros x. rewrite stosb_spec, u32_small, Z2Nat.id, M1 by lia. unfold loaded, sg_lo. replace (sg_pa g + sg_filesz g + (sg_memsz g - sg_filesz g)) with (sg_pa g + sg_memsz g) by lia.
      destruct (decide (sg_pa g + sg_filesz g <= x < sg_pa g + sg_memsz g)) as [Hd|Hd];
        destruct (Z.leb_spec (sg_pa g + sg_filesz g) x), (Z.ltb_spec x (sg_pa g + sg_memsz g)); cbn [andb]; done || lia. }
    split; [by apply Hhead|done].
  - exists s1. assert (forall x, b_mem s1 x = loaded g (b_mem s) x) as E.
    { intros x. rewrite M1. unfold loaded, sg_lo. by rewrite (decide_False (P := sg_pa g + sg_filesz g <= x < sg_pa g + sg_memsz g)) by lia. }
    done.
Qed.

Definition segs (n : nat) (ph : Z) : list seg := (fun i => seg_at imgmem (ph + 32 * Z.of_nat i)) <$> seq 0 n.

Lemma segs_S n ph : segs (S n) ph = seg_at imgmem ph :: segs n (ph + 32).
Proof.
  unfold segs. cbn [seq fmap list_fmap]. rewrite Z.add_0_r. f_equal. rewrite <- (fmap_S_seq 0 n), <- list_fmap_compose. apply list_fmap_ext. intros i x _. cbn [compose]. f_equal. lia.
Qed.

Lemma loaded_ext g m m' x : m x = m' x -> loaded g m x = loaded g m' x.
Proof. intros E. unfold loaded. by rewrite E. Qed.

Definition load_all (gs : list seg) (m : mem) : mem := foldl (fun m g => loaded g m) m gs.

Lemma load_all_ext gs : forall m m' x, m x = m' x -> load_all gs m x = load_all gs m' x.
Proof. induction gs as [|g gs IH]; intros m m' x E; [done|]. apply (IH (loaded g m)), loaded_ext, E. Qed.

Lemma load_segments_ok w (Hw : (delay < w)%nat) n : forall ph s, state (b_dev s) Idle -> headers (b_mem s) -> 0x10000 <= ph -> ph + 32 * Z.of_nat n <= 0x11000 -> Forall seg_ok (segs n ph) ->
  exists s', load_segments w n ph s = Ret tt s' /\ headers (b_mem s') /\ forall x, b_mem s' x = load_all (segs n ph) (b_mem s) x.
Proof.
  induction n as [|n IH]; intros ph s Hs Hh Hp1 Hp2 Hok; cbn [load_segments]; [by exists s|]. rewrite segs_S in *. apply Forall_cons in Hok as [Hg Hok].
  destruct (load_segment_ok w Hw ph s Hs Hh Hp1 ltac:(lia) Hg) as (s1 & H1 & S1 & Hh1 & M1). rewrite (bind_Ret _ _ _ _ _ H1).
  destruct (IH (ph + 32) s1) as (s2 & H2 & Hh2 & M2); [done|done|lia|lia|done|]. exists s2. split; [done|]. split; [done|]. intros x. rewrite M2.
  apply (load_all_ext _ _ (loaded (seg_at imgmem ph) (b_mem s))), M1.
Qed.

(** Each segment ends before the sectors of the later ones. *)
Definition increasing (gs : list seg) : Prop :=
  forall i j g g', (i < j)%nat -> gs !! i = Some g -> gs !! j = Some g' -> sg_end g <= sg_lo g'.

Lemma load_all_outside gs : forall m x, (forall g, g ∈ gs -> x < sg_lo g /\ 0 <= sg_filesz g) -> load_all gs m x = m x.
Proof.
  induction gs as [|g gs IH]; intros m x H; [done|]. cbn. change (load_all gs (loaded g m) x = m x). rewrite IH by (intros g' Hg'; apply H; by right).
  destruct (H g) as [H1 H2]; [by left|]. apply loaded_outside; [by left|done].
Qed.

Lemma load_all_segment gs m i g x : increasing gs -> Forall seg_ok gs -> gs !! i = Some g -> sg_pa g <= x < sg_end g ->
  load_all gs m x = if decide (x < sg_pa g + sg_filesz g) then image (sg_off g + (x - sg_pa g)) else 0.
Proof.
  intros Hinc Hok Hg Hx. rewrite <- (take_drop_middle gs i g Hg). unfold load_all. rewrite foldl_app. cbn [foldl]. fold (load_all (take i gs) m).
  change (load_all (drop (S i) gs) (loaded g (load_all (take i gs) m)) x = if decide (x < sg_pa g + sg_filesz g) then image (sg_off g + (x - sg_pa g)) else 0).
  rewrite load_all_outside.
  - pose proof (sg_lo_le g). pose proof (Forall_lookup_1 _ _ _ _ Hok Hg) as [(Hf & _) _ _ _]. pose proof (hi_bounds (sg_pa g) (sg_filesz g) (sg_off g) Hf).
    unfold loaded, sg_end in *. destruct (decide (x < sg_pa g + sg_filesz g)).
    + rewrite decide_False by lia. by rewrite decide_True by lia.
    + by rewrite decide_True by lia.
  - intros g' Hin. apply list_elem_of_lookup in Hin as [j Hj]. rewrite lookup_drop in Hj. pose proof (Hinc i (S i + j)%nat g g' ltac:(lia) Hg Hj).
    pose proof (Forall_lookup_1 _ _ _ _ Hok Hj) as [(Hf & _) _ _ _]. split; [lia|done].
Qed.
End spec.

(** C17: the boot loader, on a disk whose image has an ELF header and, on its
    first page, program headers of segments in increasing order that do not
    reach the page the headers are read to, ends by calling the entry point of
    the header, with the bytes of every segment from the image at its physical
    address and zeros up to its size in memory, although whole sectors are
    read. *)
Theorem bootmain_loads_kernel `{!BootDisk D, !BootDiskLaws D} (s : boot D) w :
  let n := Z.to_nat (e_phnum imgmem 0x10000) in let ph := 0x10000 + e_phoff imgmem 0x10000 in
  (delay < w)%nat -> state (b_dev s) Idle -> e_magic imgmem 0x10000 = ELF_MAGIC ->
  0 <= e_phoff imgmem 0x10000 -> ph + 32 * Z.of_nat n <= 0x11000 -> Forall seg_ok (segs n ph) -> increasing (segs n ph) ->
  exists s', bootmain w s = Ret (Some (e_entry imgmem 0x10000)) s' /\
    forall g x, g ∈ segs n ph -> sg_pa g <= x < sg_end g ->
      b_mem s' x = if decide (x < sg_pa g + sg_filesz g) then image (sg_off g + (x - sg_pa g)) else 0.
Proof.
  intros n ph Hw Hs Hmag Hph Hn Hok Hinc. unfold bootmain. cbv zeta.
  destruct (readseg_ok w Hw 0x10000 4096 0 s) as (s1 & H1 & S1 & M1); [done|lia|lia|lia|lia|lia|]. rewrite (bind_Ret _ _ _ _ _ H1), gets_bind.
  assert (headers (b_mem s1)) as Hh.
  { intros x Hx. rewrite M1. rewrite decide_True; [done|]. change (lo 0x10000 0) with 0x10000. change (hi 0x10000 4096 0) with 0x11000. lia. }
  assert (e_magic (b_mem s1) 0x10000 = e_magic imgmem 0x10000 /\ e_phoff (b_mem s1) 0x10000 = e_phoff imgmem 0x10000) as [-> ->].
  { unfold e_magic, e_phoff. by rewrite !(headers_load32 (b_mem s1)) by (done || lia). }
  assert (e_phnum (b_mem s1) 0x10000 = e_phnum imgmem 0x10000) as -> by (unfold e_phnum, load16; by rewrite !(Hh (_)) by lia).
  rewrite Hmag. change (negb (ELF_MAGIC =? ELF_MAGIC)) with false. cbv iota. fold ph n. rewrite u32_small by lia.
  destruct (load_segments_ok w Hw n ph s1) as (s2 & H2 & Hh2 & M2); [done|done|lia|done|done|]. rewrite (bind_Ret _ _ _ _ _ H2), gets_bind.
  exists s2. split; [unfold ret, e_entry; by rewrite (headers_load32 (b_mem s2)) by (done || lia)|]. intros g x Hg Hx. rewrite M2.
  apply list_elem_of_lookup in Hg as [i Hi]. by eapply load_all_segment.
Qed.

(** * Example *)

(** A header, a program header at 52, and a segment of three bytes in sector 2. *)
Definition le4 (x : Z) : list Z := [u8 x; u8 (x / 256); u8 (x / 65536); u8 (x / 16777216)].
Definition ex_header : list Z :=
  le4 ELF_MAGIC ++ replicate 20 0 ++ le4 0x10000C ++ le4 52 ++ replicate 12 0 ++ [1; 0] ++ replicate 6 0 ++
  (le4 1 ++ le4 512 ++ le4 0x80100000 ++ le4 0x100000 ++ le4 3 ++ le4 5 ++ le4 5 ++ le4 4096).
Definition pad (l : list Z) : list Z := take 512 (l ++ replicate 512 0).
Definition ex_sector (n : Z) : list Z := pad (if n =? 1 then ex_header else if n =? 2 then [7; 8; 9] else []).

(** The four registers of the sector number. *)
Record regs := Regs { r3 : Z; r4 : Z; r5 : Z; r6 : Z }.
Definition lba (d : regs) : Z := r3 d + 256 * r4 d + 65536 * r5 d + 16777216 * (r6 d mod 16).

#[local] Instance ex_disk : BootDisk regs := {|
  inb := fun _ d => (0x40, d);
  outb := fun p v d => if p =? 0x1F3 then Regs v (r4 d) (r5 d) (r6 d) else if p =? 0x1F4 then Regs (r3 d) v (r5 d) (r6 d)
    else if p =? 0x1F5 then Regs (r3 d) (r4 d) v (r6 d) else if p =? 0x1F6 then Regs (r3 d) (r4 d) (r5 d) v else d;
  insl := fun _ _ d => (ex_sector (lba d), d)
|}.

Lemma lba_bytes n : 0 <= n < 268435456 -> u8 n + 256 * u8 (Z.shiftr n 8) + 65536 * u8 (Z.shiftr n 16) + 16777216 * (u8 (Z.lor (Z.shiftr n 24) 0xE0) mod 16) = n.
Proof.
  intros Hn. rewrite !Z.shiftr_div_pow2 by lia. change (2 ^ 8) with 256. change (2 ^ 16) with (256 * 256). change (2 ^ 24) with (256 * 256 * 256). rewrite <- !Z.div_div by lia.
  set (h := n / 256 / 256 / 256). assert (0 <= h < 16) as Hh by (unfold h; split; [repeat (apply Z.div_pos; [|lia])|repeat (apply Z.div_lt_upper_bound; [lia|])]; lia).
  assert (Forall (fun h => u8 (Z.lor h 0xE0) mod 16 = h) (seqZ 0 16)) as HF by (apply (bool_decide_unpack _); vm_compute; done).
  rewrite Forall_forall in HF. rewrite (HF h) by (apply elem_of_seqZ; lia).
  unfold u8, h. pose proof (Z.div_mod n 256). pose proof (Z.div_mod (n / 256) 256). pose proof (Z.div_mod (n / 256 / 256) 256). lia.
Qed.

#[local] Program Instance ex_disk_laws : BootDiskLaws regs := {|
  sector := ex_sector; state := fun d c => match c with Idle => True | Reading n => lba d = n end;
  ready := fun _ => True; busy := fun _ => 0%nat; delay := 0%nat
|}.
Next Obligation. intros n. unfold ex_sector, pad. rewrite length_take, length_app, length_replicate. lia. Qed.
Next Obligation. done. Qed.
Next Obligation. intros d c v d' Hs [= <- <-]. split; [done|]. by left. Qed.
Next Obligation. intros d n _ _ Hn. apply (lba_bytes n Hn). Qed.
Next Obligation. intros d n Hs _. cbn in Hs. subst n. by exists d. Qed.

Lemma bootmain_loads_kernel_witness :
  exists s', bootmain 1 (Boot (Regs 0 0 0 0) mem0) = Ret (Some 0x10000C) s' /\
    forall g x, g ∈ [Seg 0x100000 3 5 512] -> sg_pa g <= x < sg_end g ->
      b_mem s' x = if decide (x < sg_pa g + sg_filesz g) then image (sg_off g + (x - sg_pa g)) else 0.
Proof.
  assert (segs (Z.to_nat (e_phnum imgmem 0x10000)) (0x10000 + e_phoff imgmem 0x10000) = [Seg 0x100000 3 5 512]) as Hsegs by (vm_compute; reflexivity).
  assert (e_entry imgmem 0x10000 = 0x10000C) as Hentry by (vm_compute; reflexivity). rewrite <- Hentry, <- Hsegs.
  apply (bootmain_loads_kernel (Boot (Regs 0 0 0 0) mem0) 1).
  - cbn. lia.
  - exact I.
  - vm_compute. reflexivity.
  - vm_compute. discriminate.
  - vm_compute. discriminate.
  - rewrite Hsegs. apply Forall_singleton. constructor; vm_compute; intuition (discriminate || congruence).
  - rewrite Hsegs. intros i j g g' Hij Hi Hj. apply lookup_lt_Some in Hj. cbn in Hj. lia.
Defined.
