(* ===== verification/Irqchips.v ===== *)
(** The interrupt controllers and the timer (src/xv6-public/picirq.c, ioapic.c
    and timer.c).

    The ports are a list of what has been written to them.  The I/O APIC is its
    registers, of which one is selected. *)
From S2P Require Import Prelude CString.

Definition IO_PIC1 : Z := 0x20.
Definition IO_PIC2 : Z := 0xA0.
Definition IRQ_SLAVE : Z := 2.
Definition T_IRQ0 : Z := 32.
Definition IRQ_TIMER : Z := 0.

Definition REG_ID : Z := 0x00.
Definition REG_VER : Z := 0x01.
Definition REG_TABLE : Z := 0x10.
Definition INT_DISABLED : Z := 0x00010000.

Definition IO_TIMER1 : Z := 0x040.
Definition TIMER_FREQ : Z := 1193182.
Definition TIMER_DIV (x : Z) : Z := (TIMER_FREQ + x / 2) / x.
Definition TIMER_MODE : Z := IO_TIMER1 + 3.
Definition TIMER_SEL0 : Z := 0x00.
Definition TIMER_RATEGEN : Z := 0x04.
Definition TIMER_16BIT : Z := 0x30.

(** irqmask of picirq.c, the writes to ports, the I/O APIC, ismp and ioapicid
    of mp.c, and the messages printed. *)
Record chips := Chips { irqmask : Z; ports : list (Z * Z); io_sel : Z; io_reg : Z -> Z; ismp : Z; ioapicid : Z; msgs : list string }.
Definition set_irqmask v s := Chips v (ports s) (io_sel s) (io_reg s) (ismp s) (ioapicid s) (msgs s).
Definition set_ports v s := Chips (irqmask s) v (io_sel s) (io_reg s) (ismp s) (ioapicid s) (msgs s).
Definition set_io_sel v s := Chips (irqmask s) (ports s) v (io_reg s) (ismp s) (ioapicid s) (msgs s).
Definition set_io_reg v s := Chips (irqmask s) (ports s) (io_sel s) v (ismp s) (ioapicid s) (msgs s).
Definition set_msgs v s := Chips (irqmask s) (ports s) (io_sel s) (io_reg s) (ismp s) (ioapicid s) v.

Notation K := (M chips).

Definition outb (port v : Z) : K unit := modify (fun s => set_ports (ports s ++ [(port, u8 v)]) s).

(** * picirq.c *)

(** Initial IRQ mask has interrupt 2 enabled. *)
Definition irqmask0 : Z := Z.land 0xFFFF (Z.lnot (Z.shiftl 1 IRQ_SLAVE)).

Definition picsetmask (mask : Z) : K unit :=
  modify (set_irqmask mask) ;;
  outb (IO_PIC1 + 1) mask ;;
  outb (IO_PIC2 + 1) (Z.shiftr mask 8).

Definition picenable (irq : Z) : K unit :=
  m <- gets irqmask ;;
  picsetmask (Z.land m (Z.lnot (Z.shiftl 1 irq)) mod 65536).

Definition picinit : K unit :=
  outb (IO_PIC1 + 1) 0xFF ;;
  outb (IO_PIC2 + 1) 0xFF ;;
  outb IO_PIC1 0x11 ;;
  outb (IO_PIC1 + 1) T_IRQ0 ;;
  outb (IO_PIC1 + 1) (Z.shiftl 1 IRQ_SLAVE) ;;
  outb (IO_PIC1 + 1) 0x3 ;;
  outb IO_PIC2 0x11 ;;
  outb (IO_PIC2 + 1) (T_IRQ0 + 8) ;;
  outb (IO_PIC2 + 1) IRQ_SLAVE ;;
  outb (IO_PIC2 + 1) 0x3 ;;
  outb IO_PIC1 0x68 ;;
  outb IO_PIC1 0x0a ;;
  outb IO_PIC2 0x68 ;;
  outb IO_PIC2 0x0a ;;
  m <- gets irqmask ;;
  if negb (m =? 0xFFFF) then picsetmask m else ret tt.

(** * timer.c *)

Definition timerinit : K unit :=
  outb TIMER_MODE (Z.lor TIMER_SEL0 (Z.lor TIMER_RATEGEN TIMER_16BIT)) ;;
  outb IO_TIMER1 (TIMER_DIV 100 mod 256) ;;
  outb IO_TIMER1 (TIMER_DIV 100 / 256) ;;
  picenable IRQ_TIMER.

(** * ioapic.c *)

Definition ioapicread (reg : Z) : K Z :=
  modify (set_io_sel reg) ;;
  s <- gets (fun s => s) ;;
  ret (io_reg s (io_sel s)).

Definition ioapicwrite (reg data : Z) : K unit :=
  modify (set_io_sel reg) ;;
  modify (fun s => set_io_reg (fun r => if r =? io_sel s then u32 data else io_reg s r) s).

(** The loop of ioapicinit, from interrupt [i] on. *)
Fixpoint disable_from (n : nat) (i : Z) : K unit :=
  match n with
  | O => ret tt
  | S n' =>
      ioapicwrite (REG_TABLE + 2 * i) (Z.lor INT_DISABLED (T_IRQ0 + i)) ;;
      ioapicwrite (REG_TABLE + 2 * i + 1) 0 ;;
      disable_from n' (i + 1)
  end.

Definition ioapicinit : K unit :=
  m <- gets ismp ;;
  if m =? 0 then ret tt else
  v <- ioapicread REG_VER ;;
  let maxintr := Z.land (Z.shiftr v 16) 0xFF in
  v <- ioapicread REG_ID ;;
  let id := Z.shiftr v 24 in
  k <- gets ioapicid ;;
  (if negb (id =? k) then modify (fun s => set_msgs (msgs s ++ ["ioapicinit: id isn't equal to ioapicid; not a MP"%string]) s) else ret tt) ;;
  disable_from (Z.to_nat (maxintr + 1)) 0.

Definition ioapicenable (irq cpunum : Z) : K unit :=
  m <- gets ismp ;;
  if m =? 0 then ret tt else
  ioapicwrite (REG_TABLE + 2 * irq) (T_IRQ0 + irq) ;;
  ioapicwrite (REG_TABLE + 2 * irq + 1) (Z.shiftl cpunum 24).

(** * The masks of the two PICs *)

Fixpoint picenable_all (irqs : list Z) : K unit :=
  match irqs with [] => ret tt | i :: irqs' => picenable i ;; picenable_all irqs' end.

(** The last byte written to a port. *)
Definition last_out (port : Z) (l : list (Z * Z)) : option Z :=
  foldl (fun r w => if w.1 =? port then Some w.2 else r) None l.

(** The mask the chips have is the variable's. *)
Definition masks (s : chips) : Prop :=
  last_out 0x21 (ports s) = Some (u8 (irqmask s)) /\ last_out 0xA1 (ports s) = Some (u8 (Z.shiftr (irqmask s) 8)).

Lemma last_out_snoc port l w : last_out port (l ++ [w]) = if w.1 =? port then Some w.2 else last_out port l.
Proof. unfold last_out. rewrite foldl_app. done. Qed.

Lemma picsetmask_ok mask s : exists s', picsetmask mask s = Ret tt s' /\ irqmask s' = mask /\ masks s' /\ io_reg s' = io_reg s.
Proof.
  unfold picsetmask, outb. rewrite !modify_bind. eexists. split; [done|]. split; [done|]. split; [|done]. unfold masks. cbn [ports set_ports irqmask set_irqmask].
  rewrite !last_out_snoc. done.
Qed.

Lemma picenable_ok i s : 0 <= i < 16 ->
  exists s', picenable i s = Ret tt s' /\ masks s' /\ io_reg s' = io_reg s /\ forall b, 0 <= b < 16 -> Z.testbit (irqmask s') b = Z.testbit (irqmask s) b && negb (i =? b).
Proof.
  intros Hi. unfold picenable. rewrite gets_bind. destruct (picsetmask_ok (Z.land (irqmask s) (Z.lnot (Z.shiftl 1 i)) mod 65536) s) as (s1 & H1 & E1 & M1 & R1).
  exists s1. split; [done|]. split; [done|]. split; [done|]. intros b Hb. rewrite E1. change 65536 with (2 ^ 16). rewrite Z.mod_pow2_bits_low by lia.
  rewrite Z.land_spec, Z.lnot_spec by lia. rewrite Z.shiftl_mul_pow2, Z.mul_1_l, Z.pow2_bits_eqb by lia. done.
Qed.

Lemma picenable_all_ok irqs : forall s, masks s -> Forall (fun i => 0 <= i < 16) irqs ->
  exists s', picenable_all irqs s = Ret tt s' /\ masks s' /\
    forall b, 0 <= b < 16 -> Z.testbit (irqmask s') b = Z.testbit (irqmask s) b && negb (bool_decide (b ∈ irqs)).
Proof.
  induction irqs as [|i irqs IH]; intros s Hm Hi; cbn [picenable_all].
  { exists s. split; [done|]. split; [done|]. intros b _. rewrite bool_decide_false by set_solver. by rewrite andb_true_r. }
  apply Forall_cons in Hi as [Hi Hirqs]. destruct (picenable_ok i s Hi) as (s1 & H1 & M1 & _ & B1). rewrite (bind_Ret _ _ _ _ _ H1).
  destruct (IH s1 M1 Hirqs) as (s2 & H2 & M2 & Hb). exists s2. split; [done|]. split; [done|]. intros b Hb'. rewrite Hb, B1, <- andb_assoc by done. f_equal.
  rewrite (bool_decide_ext (b ∈ i :: irqs) (b = i \/ b ∈ irqs)) by (rewrite elem_of_cons; done).
  destruct (Z.eqb_spec i b), (decide (b ∈ irqs)); repeat (rewrite bool_decide_true by tauto) || rewrite bool_decide_false by (intros [?|?]; done); try done; cbn; repeat case_bool_decide; tauto || naive_solver.
Qed.

Lemma picinit_ok s : irqmask s <> 0xFFFF -> exists s', picinit s = Ret tt s' /\ irqmask s' = irqmask s /\ masks s' /\ io_reg s' = io_reg s.
Proof.
  intros Hm. unfold picinit. unfold outb at 1 2 3 4 5 6 7 8 9 10 11 12 13 14. rewrite !modify_bind, gets_bind. set (s1 := set_ports _ _).
  change (irqmask s1) with (irqmask s). destruct (Z.eqb_spec (irqmask s) 0xFFFF); [done|]. destruct (picsetmask_ok (irqmask s) s1) as (s' & ? & ? & ? & ?). by exists s'.
Qed.

Lemma two_bytes m b : 0 <= b < 16 -> Z.testbit (u8 m + 256 * u8 (Z.shiftr m 8)) b = Z.testbit m b.
Proof.
  intros Hb. unfold u8. rewrite Z.shiftr_div_pow2 by lia. change (2 ^ 8) with 256. rewrite <- Z.rem_mul_r by lia. change (256 * 256) with (2 ^ 16). apply Z.mod_pow2_bits_low. lia.
Qed.

Lemma irqmask0_bits b : 0 <= b < 16 -> Z.testbit irqmask0 b = negb (b =? 2).
Proof.
  intros Hb. unfold irqmask0. change 0xFFFF with (Z.ones 16). rewrite Z.land_spec, Z.lnot_spec, Z.ones_spec_low by lia. unfold IRQ_SLAVE.
  rewrite Z.shiftl_mul_pow2, Z.mul_1_l, Z.pow2_bits_eqb, Z.eqb_sym by lia. done.
Qed.

(** After picinit and enabling the interrupts of a list, the two PICs let
    through exactly these and the line of the slave. *)
Theorem pics_let_through s irqs : irqmask s = irqmask0 -> Forall (fun i => 0 <= i < 16) irqs ->
  exists s' m1 m2, (picinit ;; picenable_all irqs) s = Ret tt s' /\
    last_out 0x21 (ports s') = Some m1 /\ last_out 0xA1 (ports s') = Some m2 /\
    forall b, 0 <= b < 16 -> Z.testbit (m1 + 256 * m2) b = false <-> b = IRQ_SLAVE \/ b ∈ irqs.
Proof.
  intros Hm Hi. destruct (picinit_ok s) as (s1 & H1 & E1 & M1 & _); [by rewrite Hm|]. rewrite (bind_Ret _ _ _ _ _ H1).
  destruct (picenable_all_ok irqs s1 M1 Hi) as (s2 & H2 & [M2 M2'] & Hb). eexists s2, _, _. split; [done|]. split; [done|]. split; [done|].
  intros b Hb'. rewrite two_bytes, Hb, E1, Hm by done.
  rewrite irqmask0_bits by done.
  unfold IRQ_SLAVE. destruct (Z.eqb_spec b 2); cbn [negb andb]; [split; [by left|done]|]. case_bool_decide; cbn; split; naive_solver.
Qed.

(** * The table of the I/O APIC *)

Lemma ioapicwrite_ok reg data s : ioapicwrite reg data s = Ret tt (set_io_reg (fun r => if r =? reg then u32 data else io_reg s r) (set_io_sel reg s)).
Proof. unfold ioapicwrite. by rewrite modify_bind. Qed.

(** The PICs and ismp are as they were. *)
Definition pic_same (s s' : chips) : Prop := irqmask s' = irqmask s /\ ports s' = ports s /\ ismp s' = ismp s.

Lemma pic_same_trans s1 s2 s3 : pic_same s1 s2 -> pic_same s2 s3 -> pic_same s1 s3.
Proof. intros (? & ? & ?) (? & ? & ?). split_and!; congruence. Qed.

Lemma disable_from_ok n : forall i s, 0 <= i -> i + Z.of_nat n <= 256 ->
  exists s', disable_from n i s = Ret tt s' /\ pic_same s s' /\
    forall k, 0 <= k -> io_reg s' (REG_TABLE + 2 * k) = (if decide (i <= k < i + Z.of_nat n) then Z.lor INT_DISABLED (T_IRQ0 + k) else io_reg s (REG_TABLE + 2 * k)).
Proof.
  induction n as [|n IH]; intros i s Hi Hn; cbn [disable_from].
  { exists s. split; [done|]. split; [done|]. intros k _. by rewrite decide_False by lia. }
  rewrite (bind_Ret _ _ _ _ _ (ioapicwrite_ok _ _ _)), (bind_Ret _ _ _ _ _ (ioapicwrite_ok _ _ _)). match goal with |- context [disable_from n (i + 1) ?t] => destruct (IH (i + 1) t) as (s' & H & Hs & Hr); [lia|lia|] end.
  exists s'. split; [done|]. split; [done|]. intros k Hk. rewrite Hr by done. cbn [io_reg set_io_reg set_io_sel]. destruct (Z.eqb_spec (REG_TABLE + 2 * k) (REG_TABLE + 2 * i + 1)); [lia|].
  destruct (decide (i + 1 <= k < i + 1 + Z.of_nat n)); [by rewrite decide_True by lia|]. destruct (Z.eqb_spec (REG_TABLE + 2 * k) (REG_TABLE + 2 * i)) as [E|E].
  - assert (k = i) as -> by lia. rewrite decide_True by lia. apply u32_small. unfold INT_DISABLED, T_IRQ0. assert (0 <= Z.lor 65536 (32 + i)) by (apply Z.lor_nonneg; lia).
    assert (Z.log2 (Z.lor 65536 (32 + i)) < 32) by (rewrite Z.log2_lor by lia; assert (Z.log2 (32 + i) < 32) by (apply Z.log2_lt_pow2; lia); change (Z.log2 65536) with 16; lia).
    split; [done|]. destruct (decide (Z.lor 65536 (32 + i) = 0)) as [->|]; [lia|]. apply (Z.log2_lt_pow2 _ 32); lia.
  - rewrite decide_False by lia. done.
Qed.

(** The number of the last interrupt of the I/O APIC. *)
Definition maxintr (s : chips) : Z := Z.land (Z.shiftr (io_reg s REG_VER) 16) 0xFF.

Lemma maxintr_range s : 0 <= maxintr s < 256.
Proof. unfold maxintr. change 0xFF with (Z.ones 8). rewrite Z.land_ones by lia. apply Z.mod_pos_bound. lia. Qed.

Lemma ioapicinit_ok s : ismp s <> 0 ->
  exists s', ioapicinit s = Ret tt s' /\ pic_same s s' /\ forall k, 0 <= k <= maxintr s -> io_reg s' (REG_TABLE + 2 * k) = Z.lor INT_DISABLED (T_IRQ0 + k).
Proof.
  intros Hm. pose proof (maxintr_range s). unfold ioapicinit. rewrite gets_bind. destruct (Z.eqb_spec (ismp s) 0); [done|]. unfold ioapicread.
  rewrite (bind_Ret _ _ s (io_reg s REG_VER) (set_io_sel REG_VER s)) by done. cbv zeta. fold (maxintr s).
  rewrite (bind_Ret _ _ (set_io_sel REG_VER s) (io_reg s REG_ID) (set_io_sel REG_ID s)) by done. rewrite gets_bind.
  match goal with |- context [bind ?c _ ?t] => assert (exists s2, c t = Ret tt s2 /\ pic_same s s2) as (s2 & H2 & E2) by (by destruct (negb _); eexists) end.
  rewrite (bind_Ret _ _ _ _ _ H2). destruct (disable_from_ok (Z.to_nat (maxintr s + 1)) 0 s2) as (s3 & H3 & E3 & R3); [lia|lia|]. exists s3. split; [done|].
  split; [by apply (pic_same_trans s s2)|]. intros k Hk. rewrite R3 by lia. by rewrite decide_True by lia.
Qed.

Lemma ioapicenable_ok s irq cpunum : ismp s <> 0 -> 0 <= irq < 256 -> 0 <= cpunum < 256 ->
  exists s', ioapicenable irq cpunum s = Ret tt s' /\ pic_same s s' /\ io_reg s' (REG_TABLE + 2 * irq + 1) = Z.shiftl cpunum 24 /\
    forall k, 0 <= k -> io_reg s' (REG_TABLE + 2 * k) = if decide (k = irq) then T_IRQ0 + irq else io_reg s (REG_TABLE + 2 * k).
Proof.
  intros Hm Hi Hc. unfold ioapicenable. rewrite gets_bind. destruct (Z.eqb_spec (ismp s) 0); [done|].
  rewrite (bind_Ret _ _ _ _ _ (ioapicwrite_ok _ _ _)), ioapicwrite_ok. eexists. split; [done|]. split; [done|]. cbn [io_reg set_io_reg set_io_sel]. split.
  - rewrite Z.eqb_refl. apply u32_small. rewrite Z.shiftl_mul_pow2 by lia. lia.
  - intros k Hk. destruct (Z.eqb_spec (REG_TABLE + 2 * k) (REG_TABLE + 2 * irq + 1)); [lia|]. destruct (decide (k = irq)) as [->|Hne].
    + rewrite Z.eqb_refl. unfold T_IRQ0. apply u32_small. lia.
    + destruct (Z.eqb_spec (REG_TABLE + 2 * k) (REG_TABLE + 2 * irq)); [lia|done].
Qed.

(** ioapicinit disables every interrupt; ioapicenable enables one, with the
    vector trap expects, for one processor. *)
Theorem ioapic_routes_one s irq cpunum : ismp s <> 0 -> 0 <= irq <= maxintr s -> 0 <= cpunum < 256 ->
  exists s', (ioapicinit ;; ioapicenable irq cpunum) s = Ret tt s' /\
    io_reg s' (REG_TABLE + 2 * irq + 1) = Z.shiftl cpunum 24 /\
    forall k, 0 <= k <= maxintr s -> io_reg s' (REG_TABLE + 2 * k) = if decide (k = irq) then T_IRQ0 + irq else Z.lor INT_DISABLED (T_IRQ0 + k).
Proof.
  intros Hm Hi Hc. pose proof (maxintr_range s). destruct (ioapicinit_ok s Hm) as (s1 & H1 & (_ & _ & E1) & R1). rewrite (bind_Ret _ _ _ _ _ H1).
  destruct (ioapicenable_ok s1 irq cpunum) as (s2 & H2 & _ & D2 & R2); [congruence|lia|done|]. exists s2. split_and!; try done.
  intros k Hk. rewrite R2 by lia. case_decide; [done|]. by apply R1.
Qed.
