(* ===== verification/Ls.v ===== *)
(** The program ls (src/xv6-public/ls.c).

    Strings are lists of bytes without their NUL.  The state is the list of the
    calls made and of the texts printed, and the kernel a function from it to
    the result of the last call.  stat of ulib.c is here because it is made of
    three of the calls.  The static buffer of fmtname has all its
    bytes but the last, which stays 0, written before it is returned. *)
From stdpp Require Import gmultiset.
From S2P Require Import Prelude CString Ulib.

Definition DIRSIZ : Z := 14.
Definition T_DIR : Z := 1.
Definition T_FILE : Z := 2.

(** for(p=path+strlen(path); p >= path && *p != '/'; p--), from [p] on. *)
Fixpoint last_slash (n : nat) (path : list Z) (p : Z) : Z :=
  match n with
  | O => p
  | S n' => if (0 <=? p) && negb (nth (Z.to_nat p) path 0 =? 47) then last_slash n' path (p - 1) else p
  end.

Definition fmtname (path : list Z) : list Z :=
  let p := last_slash (S (length path)) path (Z.of_nat (length path)) + 1 in
  let s := drop (Z.to_nat p) path in
  if DIRSIZ <=? Z.of_nat (length s) then s
  else s ++ replicate (Z.to_nat DIRSIZ - length s) 32.

Inductive lcall :=
| LOpen (path : list Z)
| LFstat (fd : Z)
| LRead (fd : Z)
| LClose (fd : Z)
| LPrint (fd : Z) (text : list Z).

(** A result: the value returned, the struct stat, the bytes read. *)
Record lres := Lres { l_val : Z; l_type : Z; l_ino : Z; l_size : Z; l_bytes : list Z }.

Section ls.
Variable sys : list lcall -> lres.
Notation P := (M (list lcall)).

Definition lsys (c : lcall) : P lres := fun h => Ret (sys (h ++ [c])) (h ++ [c]).
Definition lprint (fd : Z) (text : list Z) : P unit := modify (fun h => h ++ [LPrint fd text]).

(** stat of ulib.c. *)
Definition stat (n : list Z) : P lres :=
  r <- lsys (LOpen n) ;;
  let fd := l_val r in
  if fd <? 0 then ret (Lres (-1) 0 0 0 []) else
  r <- lsys (LFstat fd) ;;
  _ <- lsys (LClose fd) ;;
  ret r.

(** printf(1, "%s %d %d %d\n", fmtname(path), st.type, st.ino, st.size) *)
Definition ls_line (path : list Z) (st : lres) : P unit :=
  let name := fmtname path in
  o <- get_opt "printf" (printf (S (length name)) (place name 1 mem0) (bytes "%s %d %d %d" ++ [10])
         (fun i => nth i [1; l_type st; l_ino st; l_size st] 0)) ;;
  lprint 1 o.

Fixpoint until_nul (l : list Z) : list Z :=
  match l with [] => [] | c :: l' => if c =? 0 then [] else c :: until_nul l' end.

(** The body of the loop for an entry of a directory. *)
Definition ls_entry (path de : list Z) : P unit :=
  if nth 0 de 0 + 256 * nth 1 de 0 =? 0 then ret tt else
  let buf := path ++ [47] ++ until_nul (take 14 (drop 2 de)) in
  r <- stat buf ;;
  if l_val r <? 0 then lprint 1 (bytes "ls: cannot stat " ++ buf ++ [10])
  else ls_line buf r.

Fixpoint ls_entries (n : nat) (fd : Z) (path : list Z) : P unit :=
  match n with
  | O => fun h => OutOfFuel h
  | S n' =>
      r <- lsys (LRead fd) ;;
      if l_val r =? 16 then ls_entry path (l_bytes r) ;; ls_entries n' fd path else ret tt
  end.

(** ls after the path has been opened as [fd]. *)
Definition ls_opened (n : nat) (path : list Z) (fd : Z) : P unit :=
  st <- lsys (LFstat fd) ;;
  if l_val st <? 0 then
    lprint 2 (bytes "ls: cannot stat " ++ path ++ [10]) ;;
    _ <- lsys (LClose fd) ;; ret tt
  else
    (if l_type st =? T_FILE then ls_line path st
     else if l_type st =? T_DIR then
       if 512 <? Z.of_nat (length path) + 1 + DIRSIZ + 1 then lprint 1 (bytes "ls: path too long" ++ [10])
       else ls_entries n fd path
     else ret tt) ;;
    _ <- lsys (LClose fd) ;; ret tt.

Definition ls (n : nat) (path : list Z) : P unit :=
  r <- lsys (LOpen path) ;;
  if l_val r <? 0 then lprint 2 (bytes "ls: cannot open " ++ path ++ [10]) else ls_opened n path (l_val r).

Fixpoint ls_all (n : nat) (paths : list (list Z)) : P unit :=
  match paths with [] => ret tt | p :: ps => ls n p ;; ls_all n ps end.

(** [args] are the arguments behind the program's name. *)
Definition ls_main (n : nat) (args : list (list Z)) : P unit :=
  match args with
  | [] => ls n [46] ;; panic "exit"
  | _ => ls_all n args ;; panic "exit"
  end.
End ls.

(** * fmtname *)

(** The part of a path behind its last slash. *)
Fixpoint base_name (path : list Z) : list Z :=
  match path with
  | [] => []
  | c :: p => if bool_decide (47 ∈ p) then base_name p else if c =? 47 then p else path
  end.

Lemma last_slash_ok path : forall n p, (Z.to_nat (p + 1) <= n)%nat -> -1 <= p <= Z.of_nat (length path) ->
  (forall i, p < Z.of_nat i -> path !! i <> Some 47) ->
  let q := last_slash n path p in -1 <= q <= p /\ (forall i, q < Z.of_nat i -> path !! i <> Some 47) /\ (0 <= q -> path !! Z.to_nat q = Some 47).
Proof.
  induction n as [|n IH]; intros p Hn Hp Hs; cbn [last_slash]; [cbn; split_and!; lia || done|].
  destruct (Z.leb_spec 0 p) as [H0|H0]; [|cbn; split_and!; lia || done]. cbn [andb]. destruct (Z.eqb_spec (nth (Z.to_nat p) path 0) 47) as [E|E]; cbn [negb].
  - split_and!; [lia|lia|done|]. intros _. destruct (path !! Z.to_nat p) as [c|] eqn:Ec; [apply nth_lookup_Some with (d := 0) in Ec; congruence|].
    apply lookup_ge_None in Ec. rewrite nth_overflow in E by done. done.
  - destruct (IH (p - 1)) as (H1 & H2 & H3); [lia|lia| |split_and!; [lia|lia|done|done]]. intros i Hi. destruct (decide (Z.of_nat i = p)) as [Ei|Ei]; [|apply Hs; lia].
    intros Ec. apply nth_lookup_Some with (d := 0) in Ec. apply E. by replace (Z.to_nat p) with i by lia.
Qed.

Lemma base_name_split pre s : 47 ∉ s -> base_name (pre ++ 47 :: s) = s.
Proof.
  intros Hs. induction pre as [|c pre IH]; cbn [base_name app].
  - by rewrite bool_decide_false.
  - rewrite bool_decide_true by set_solver. exact IH.
Qed.

Lemma base_name_whole s : 47 ∉ s -> base_name s = s.
Proof.
  destruct s as [|c s]; intros H; [done|]. cbn [base_name]. rewrite bool_decide_false by set_solver. destruct (Z.eqb_spec c 47); [set_solver|done].
Qed.

(** fmtname gives the last component of a path, padded to 14 bytes. *)
Theorem fmtname_pads_base_name path : fmtname path = base_name path ++ replicate (14 - length (base_name path)) 32.
Proof.
  unfold fmtname. destruct (last_slash_ok path (S (length path)) (Z.of_nat (length path))) as (H1 & H2 & H3); [lia|lia| |].
  { intros i Hi. rewrite lookup_ge_None_2 by lia. done. }
  cbv zeta in *. set (q := last_slash _ _ _) in *. set (s := drop (Z.to_nat (q + 1)) path).
  assert (base_name path = s) as ->.
  { assert (47 ∉ s) as Hns.
    { intros Hin. apply list_elem_of_lookup in Hin as [i Hi]. unfold s in Hi. rewrite lookup_drop in Hi. by eapply (H2 (Z.to_nat (q + 1) + i)%nat); [lia|]. }
    destruct (decide (0 <= q)) as [Hq|Hq].
    - assert (s = drop (S (Z.to_nat q)) path) as -> by (unfold s; f_equal; lia). rewrite <- (take_drop_middle path (Z.to_nat q) 47) at 1 by (by apply H3). by apply base_name_split.
    - unfold s in *. replace (Z.to_nat (q + 1)) with 0%nat in * by lia. rewrite drop_0 in *. by apply base_name_whole. }
  change DIRSIZ with 14. change (Z.to_nat 14) with 14%nat. destruct (Z.leb_spec 14 (Z.of_nat (length s))); [|done].
  replace (14 - length s)%nat with 0%nat by lia. cbn. by rewrite app_nil_r.
Qed.

(** * Descriptors *)

Section descriptors.
Variable sys : list lcall -> lres.
Notation P := (M (list lcall)).

(** The descriptors that are open after the calls [h]: those that open
    returned, as often as it did, less those given to close. *)
Definition after_call (h : list lcall) (c : lcall) (D : gmultiset Z) : gmultiset Z :=
  match c with
  | LOpen _ => let fd := l_val (sys (h ++ [c])) in if fd <? 0 then D else {[+ fd +]} ⊎ D
  | LClose fd => D ∖ {[+ fd +]}
  | _ => D
  end.

Fixpoint opened_from (h l : list lcall) (D : gmultiset Z) : gmultiset Z :=
  match l with [] => D | c :: l' => opened_from (h ++ [c]) l' (after_call h c D) end.

Definition opened (h : list lcall) : gmultiset Z := opened_from [] h ∅.

Lemma opened_from_app l c : forall h D, opened_from h (l ++ [c]) D = after_call (h ++ l) c (opened_from h l D).
Proof.
  induction l as [|a l IH]; intros h D; cbn [app opened_from]; [by rewrite app_nil_r|]. by rewrite IH, <- app_assoc.
Qed.

Lemma opened_app h c : opened (h ++ [c]) = after_call h c (opened h).
Proof. unfold opened. by rewrite opened_from_app. Qed.

Definition is_read (c : lcall) : bool := match c with LRead _ => true | _ => false end.
Definition reads (h : list lcall) : nat := length (filter (fun c => is_read c = true) h).

Lemma reads_app h c : reads (h ++ [c]) = (reads h + if is_read c then 1 else 0)%nat.
Proof.
  unfold reads. rewrite filter_app, length_app. f_equal. destruct (is_read c) eqn:E.
  - by rewrite filter_cons_True by done.
  - by rewrite filter_cons_False by (by rewrite E).
Qed.

(** [c] returns, and then the descriptors [f] of those before are open. *)
Definition leaves {A} (f : gmultiset Z -> gmultiset Z) (c : P A) : Prop :=
  forall h, exists a h', c h = Ret a h' /\ opened h' = f (opened h) /\ (reads h <= reads h')%nat.
Notation keeps := (leaves id).

Lemma leaves_bind {A B} f g (c : P A) (k : A -> P B) : leaves f c -> (forall a, leaves g (k a)) -> leaves (g ∘ f) (x <- c ;; k x).
Proof.
  intros Hc Hk h. destruct (Hc h) as (a & h1 & E1 & O1 & R1). destruct (Hk a h1) as (b & h2 & E2 & O2 & R2).
  exists b, h2. rewrite (bind_Ret _ _ _ _ _ E1). split_and!; [done|by rewrite O2, O1|lia].
Qed.

Lemma keeps_ret {A} (a : A) : keeps (ret a).
Proof. intros h. by exists a, h. Qed.

Lemma leaves_call c : (forall p, c <> LOpen p) -> leaves (after_call [] c) (lsys sys c).
Proof.
  intros Hc h. eexists _, _. split; [done|]. rewrite opened_app, reads_app. split; [|lia]. destruct c; try done. by destruct (Hc path).
Qed.

Lemma keeps_print fd t : keeps (lprint fd t).
Proof. intros h. eexists _, _. split; [done|]. rewrite opened_app, reads_app. split; [done|lia]. Qed.

(** A file is opened, used, and its descriptor closed. *)
Lemma keeps_open {A} p (no : P A) (use : Z -> P A) : keeps no -> (forall fd, leaves (fun D => D ∖ {[+ fd +]}) (use fd)) ->
  keeps (r <- lsys sys (LOpen p) ;; if l_val r <? 0 then no else use (l_val r)).
Proof.
  intros Hno Huse h. unfold lsys at 1. set (h1 := h ++ [LOpen p]).
  assert (reads h <= reads h1)%nat by (unfold h1; rewrite reads_app; lia).
  pose proof (opened_app h (LOpen p)) as E. cbn [after_call] in E. fold h1 in E. rewrite (bind_Ret _ _ h (sys h1) h1) by done. destruct (l_val (sys h1) <? 0).
  - destruct (Hno h1) as (a & h2 & E2 & O2 & R2). exists a, h2. split_and!; [done|by rewrite O2, E|lia].
  - destruct (Huse (l_val (sys h1)) h1) as (a & h2 & E2 & O2 & R2). exists a, h2. split_and!; [done|rewrite O2, E; unfold id; multiset_solver|lia].
Qed.

Lemma closing {A} fd (a : A) : leaves (fun D => D ∖ {[+ fd +]}) (_ <- lsys sys (LClose fd) ;; ret a).
Proof. exact (leaves_bind _ id _ _ (leaves_call (LClose fd) ltac:(done)) (fun _ => keeps_ret a)). Qed.

Lemma keeps_stat n : keeps (stat sys n).
Proof.
  apply (keeps_open n _ (fun fd => r <- lsys sys (LFstat fd) ;; _ <- lsys sys (LClose fd) ;; ret r)); [apply keeps_ret|]. intros fd.
  exact (leaves_bind id _ _ _ (leaves_call (LFstat fd) ltac:(done)) (fun r => closing fd r)).
Qed.

Lemma place_string s a : Forall (fun b => b <> 0) s -> string_at (place s a mem0) a s.
Proof.
  intros Hs. split_and!; [done| |].
  - intros i b Hi. pose proof (lookup_lt_Some _ _ _ Hi). unfold place. destruct (Z.leb_spec a (a + Z.of_nat i)); [|lia].
    destruct (Z.ltb_spec (a + Z.of_nat i) (a + Z.of_nat (length s))); [|lia]. cbn. replace (a + Z.of_nat i - a) with (Z.of_nat i) by lia.
    rewrite Nat2Z.id. by apply nth_lookup_Some.
  - unfold place. rewrite (proj2 (Z.ltb_ge _ _)) by lia. by rewrite andb_false_r.
Qed.

Lemma keeps_line path st : Forall (fun b => b <> 0) path -> keeps (ls_line path st).
Proof.
  intros Hz. unfold ls_line. set (name := fmtname path).
  assert (Forall (fun b => b <> 0) name) as Hn.
  { unfold name, fmtname. case_match; [by apply Forall_drop|]. apply Forall_app. split; [by apply Forall_drop|by apply Forall_replicate]. }
  destruct (printf_prints_pieces (S (length name)) (place name 1 mem0)
    [Str 1 name; Lit 32; Dec (l_type st); Lit 32; Dec (l_ino st); Lit 32; Dec (l_size st); Lit 10]
    (fun i => nth i [1; l_type st; l_ino st; l_size st] 0)) as (os & _ & E).
  - apply Forall_cons. split; [intros _; by apply place_string|]. by repeat constructor.
  - rewrite !Forall_cons. split_and!; try (cbn [piece_len]; lia). constructor.
  - by intros [|[|[|[|j]]]] a [= <-].
  - change (concat (map piece_fmt _)) with (bytes "%s %d %d %d" ++ [10]) in E. rewrite E. apply (leaves_bind id id); [apply keeps_ret|]. intros o. apply keeps_print.
Qed.

Lemma until_nul_ok l : Forall (fun b => b <> 0) (until_nul l).
Proof. induction l as [|c l IH]; cbn; [constructor|]. destruct (Z.eqb_spec c 0); by constructor. Qed.

Lemma keeps_entry path de : Forall (fun b => b <> 0) path -> keeps (ls_entry sys path de).
Proof.
  intros Hz. unfold ls_entry. case_match; [apply keeps_ret|]. apply (leaves_bind id id); [apply keeps_stat|]. intros r. case_match; [apply keeps_print|].
  apply keeps_line. rewrite !Forall_app. split_and!; [done|by repeat constructor|apply until_nul_ok].
Qed.

(** Reads of directory entries come to an end. *)
Variable N : nat.
Hypothesis directories_end : forall h fd, (N <= reads h)%nat -> l_val (sys (h ++ [LRead fd])) <> 16.

Lemma keeps_entries fd path : Forall (fun b => b <> 0) path -> forall n h, (N <= reads h + n)%nat ->
  exists h', ls_entries sys (S n) fd path h = Ret tt h' /\ opened h' = opened h /\ (reads h <= reads h')%nat.
Proof.
  intros Hz n. induction n as [|n IH]; intros h Hn; cbn [ls_entries]; set (h1 := h ++ [LRead fd]);
    assert (opened h1 = opened h) as O1 by apply opened_app; assert (reads h1 = (reads h + 1)%nat) as R1 by apply reads_app;
    rewrite (bind_Ret (lsys sys (LRead fd)) _ h (sys h1) h1 eq_refl); destruct (Z.eqb_spec (l_val (sys h1)) 16) as [E|E].
  - by destruct (directories_end h fd ltac:(lia)).
  - exists h1. split_and!; [done|done|lia].
  - destruct (keeps_entry path (l_bytes (sys h1)) Hz h1) as ([] & h2 & E2 & O2 & R2). destruct (IH h2) as (h3 & E3 & O3 & R3); [lia|].
    exists h3. rewrite (bind_Ret _ _ _ _ _ E2). split_and!; [exact E3|by rewrite O3, O2|lia].
  - exists h1. split_and!; [done|done|lia].
Qed.

(** ls returns, whatever the calls return, and has closed every descriptor it
    opened, its own and those of stat. *)
Theorem ls_closes_what_it_opens path h : Forall (fun b => b <> 0) path ->
  exists h', ls sys (S N) path h = Ret tt h' /\ opened h' = opened h.
Proof.
  intros Hz. assert (keeps (ls sys (S N) path)) as H; [|destruct (H h) as ([] & h' & E & O & _); by exists h'].
  apply (keeps_open path _ (ls_opened sys (S N) path)); [apply keeps_print|]. intros fd.
  set (g := fun D : gmultiset Z => D ∖ {[+ fd +]}).
  refine (leaves_bind id g _ _ (leaves_call (LFstat fd) ltac:(done)) _). intros st. case_match.
  - exact (leaves_bind id g _ _ (keeps_print _ _) (fun _ => closing fd tt)).
  - refine (leaves_bind id g _ _ _ (fun _ => closing fd tt)). repeat case_match; try (apply keeps_ret || apply keeps_print || by apply keeps_line).
    intros h0. destruct (keeps_entries fd path Hz N h0) as (h1 & ?); [lia|]. by exists tt, h1.
Qed.
End descriptors.

(** A directory of two entries, one of which is in use. *)
Lemma ls_closes_what_it_opens_witness :
  let sys h := match last h with
    | Some (LOpen _) => Lres 3 0 0 0 []
    | Some (LFstat _) => Lres 0 (if (length h =? 2)%nat then 1 else 2) 1 32 []
    | Some (LRead _) => Lres (if (reads h <=? 2)%nat then 16 else 0) 0 0 0 ([if (reads h =? 1)%nat then 1 else 0; 0; 97] ++ replicate 13 0)
    | _ => Lres 0 0 0 0 []
    end in
  exists h', ls sys 3 [46] [] = Ret tt h' /\ opened sys h' = opened sys [].
Proof.
  intros sys. apply (ls_closes_what_it_opens sys 2); [|by repeat constructor].
  intros h fd Hn. unfold sys. rewrite last_snoc. cbn [l_val]. rewrite reads_app. cbn [is_read]. destruct (Nat.leb_spec (reads h + 1) 2); [lia|done].
Defined.
