(* ===== verification/Startup.v ===== *)
(** Starting the other processors (startothers of src/xv6-public/main.c).

    The boot processor puts the code of entryother.S at 0x7000 and, for each
    processor in turn, three words below it, wakes the processor through the
    local APIC and waits until it says that it has started.  A processor that
    has been woken reads the three words at times of its own: [who i] is the
    one that makes a step at poll [i] of the boot processor. *)
From S2P Require Import Prelude CString Spinlock ProcState Queue Proc Kalloc Mp Lapic.

(** Addresses of kernel.sym, and the size of the code. *)
Definition mpenter : Z := 0x80102e50.
Definition entrypgdir : Z := 0x80109000.
Definition binary_entryother_start : Z := 0x8010a48c.
Definition binary_entryother_size : Z := 0x8a.

Definition code : Z := P2V 0x7000.

(** A processor that has been woken: where it started, how far it is in
    entryother.S and mpmain, and what it has read from memory: its page
    directory, its stack and where to go. *)
Record ap := Ap { a_id : Z; a_start : Z; a_stage : nat; a_cr3 : Z; a_esp : Z; a_eip : Z }.

Definition ap_step (m : mem) (a : ap) : ap :=
  let start := P2V (a_start a) in
  match a_stage a with
  | 0%nat => Ap (a_id a) (a_start a) 1 (load32 m (start - 12)) (a_esp a) (a_eip a)
  | 1%nat => Ap (a_id a) (a_start a) 2 (a_cr3 a) (load32 m (start - 4)) (a_eip a)
  | 2%nat => Ap (a_id a) (a_start a) 3 (a_cr3 a) (a_esp a) (load32 m (start - 8))
  | _ => Ap (a_id a) (a_start a) 4 (a_cr3 a) (a_esp a) (a_eip a)
  end.

Section startothers.
Context {D : Type} `{!Apic D, !ApicLaws D}.
Variable who : nat -> nat.

(** [b_lap] has the memory of [b_km]; [b_started] are the flags of cpus[], and
    [b_now] counts the polls. *)
Record boot := Boot { b_km : kmem; b_lap : lap D; b_aps : list ap; b_started : list Z; b_now : nat }.

Notation B := (M boot).

Definition get_lap (s : boot) : lap D := set_l_mem (ram (b_km s)) (b_lap s).
Definition set_lap (l : lap D) (s : boot) : boot := Boot (set_ram (l_mem l) (b_km s)) l (b_aps s) (b_started s) (b_now s).
Definition set_b_km k s := Boot k (b_lap s) (b_aps s) (b_started s) (b_now s).
Definition set_b_aps a s := Boot (b_km s) (b_lap s) a (b_started s) (b_now s).

Definition lapM {A} (c : M (lap D) A) : B A := zoom get_lap set_lap c.
Definition kmM {A} (c : M kmem A) : B A := zoom b_km set_b_km c.
Definition put32 (a v : Z) : B unit := modify (fun s => set_b_km (set_ram (store32 (ram (b_km s)) a v) (b_km s)) s).

(** The number cpunum gives the processor with this APIC id. *)
Definition number (s : boot) (id : Z) : option nat :=
  let mp := l_mp (b_lap s) in fst <$> list_find (fun a => a = id) (take (Z.to_nat (ncpu mp)) (cpus mp)).

(** One step of processor [who]; the fourth is the xchg of mpmain. *)
Definition others_step (s : boot) : boot :=
  let k := who (b_now s) in
  match b_aps s !! k with
  | None => Boot (b_km s) (b_lap s) (b_aps s) (b_started s) (S (b_now s))
  | Some a =>
      let started := if (3 <=? a_stage a)%nat then match number s (a_id a) with Some i => <[i := 1]> (b_started s) | None => b_started s end else b_started s in
      Boot (b_km s) (b_lap s) (<[k := ap_step (ram (b_km s)) a]> (b_aps s)) started (S (b_now s))
  end.

(** while(c->started == 0) *)
Fixpoint wait_started (fuel : nat) (c : Z) : B unit :=
  match fuel with
  | O => fun s => OutOfFuel s
  | S fuel' =>
      st <- gets b_started ;;
      v <- get_opt "cpus" (arr_get st c) ;;
      if v =? 0 then modify others_step ;; wait_started fuel' c else ret tt
  end.

(** What a startup message does to the processor it is for: the command
    register has its APIC id and the page its code is in. *)
Definition wake : B unit := modify (fun s =>
  let hi := reg ICRHI (l_dev (b_lap s)) in
  let lo := reg ICRLO (l_dev (b_lap s)) in
  if Z.land lo 0x700 =? STARTUP
  then set_b_aps (b_aps s ++ [Ap (Z.shiftr hi 24) (Z.shiftl (Z.land lo 0xFF) 12) 0 0 0 0]) s else s).

(** The body of the loop, for another processor. *)
Definition startother (fuel : nat) (c : Z) : B unit :=
  stack <- kmM kalloc ;;
  put32 (code - 4) (stack + KSTACKSIZE) ;;
  put32 (code - 8) mpenter ;;
  put32 (code - 12) (V2P entrypgdir) ;;
  cs <- gets (fun s => cpus (l_mp (b_lap s))) ;;
  apicid <- get_opt "cpus" (arr_get cs c) ;;
  lapM (lapicstartap apicid (V2P code)) ;;
  wake ;;
  wait_started fuel c.

Definition startothers (fuel : nat) (eflags ra : Z) : B unit :=
  modify (fun s => set_b_km (set_ram (memmove (ram (b_km s)) code binary_entryother_start binary_entryother_size) (b_km s)) s) ;;
  n <- gets (fun s => ncpu (l_mp (b_lap s))) ;;
  for_each 0 n (fun c =>
    me <- lapM (cpunum eflags ra) ;;
    if c =? me then ret tt else startother fuel c).

(** * Calls *)

Lemma lapM_Ret {A} (c : M (lap D) A) s a l : c (get_lap s) = Ret a l -> lapM c s = Ret a (set_lap l s).
Proof. intros H. unfold lapM, zoom. by rewrite H. Qed.

(** The parts of the table of mp.c that startothers uses. *)
Definition same_table (m m' : mps) : Prop := cpus m' = cpus m /\ ncpu m' = ncpu m /\ lapic m' = lapic m.

Lemma startup_ipi_ok id addr (l : lap D) :
  startup_ipi id addr l = Ret tt (written ICRLO (Z.lor STARTUP (Z.shiftr addr 12)) (written ICRHI (Z.shiftl id 24) l)).
Proof. unfold startup_ipi. by rewrite (bind_Ret _ _ _ _ _ (lapicw_ok _ _ _)), lapicw_ok. Qed.

Lemma written_id i v (l : lap D) : apic_id (l_dev (written i v l)) = apic_id (l_dev l).
Proof. unfold written. cbn. by rewrite id_rd, id_wr. Qed.

Lemma store16_ne m a v x : x < a \/ a + 2 <= x -> store16 m a v x = m x.
Proof. intros H. unfold store16. rewrite !store_ne; lia || done. Qed.

Lemma lapicstartap_ok id addr (l : lap D) : exists l', lapicstartap id addr l = Ret tt l' /\ same_table (l_mp l) (l_mp l') /\
  apic_id (l_dev l') = apic_id (l_dev l) /\ reg ICRHI (l_dev l') = u32 (Z.shiftl id 24) /\
  reg ICRLO (l_dev l') = u32 (Z.lor STARTUP (Z.shiftr addr 12)) /\
  forall x, x < 0x80000467 \/ 0x8000046b <= x -> l_mem l' x = l_mem l x.
Proof.
  unfold lapicstartap, outb_. cbv zeta. do 4 rewrite modify_bind. do 3 rewrite (bind_Ret _ _ _ _ _ (lapicw_ok _ _ _)).
  rewrite (bind_Ret _ _ _ _ _ (startup_ipi_ok _ _ _)), startup_ipi_ok. eexists. split; [done|]. split; [done|].
  rewrite !written_id, !written_reg. split_and!; [done|done|done|]. intros x Hx.
  change (P2V (Z.lor (Z.shiftl 64 4) 103)) with 0x80000467. cbn [l_mem written set_l_dev set_l_mem set_l_mp].
  rewrite !store16_ne by lia. done.
Qed.

Lemma cpunum_ok eflags ra (l : lap D) ids rest me : cpus (l_mp l) = ids ++ rest -> ncpu (l_mp l) = Z.of_nat (length ids) -> lapic (l_mp l) <> 0 ->
  NoDup ids -> ids !! me = Some (apic_id (l_dev l)) ->
  exists l', cpunum eflags ra l = Ret (Z.of_nat me) l' /\ l_mp l' = l_mp l /\ l_mem l' = l_mem l /\ apic_id (l_dev l') = apic_id (l_dev l) /\
    forall j, reg j (l_dev l') = reg j (l_dev l).
Proof.
  intros Hc Hn Hl Hnd Hme. pose proof (lookup_lt_Some _ _ _ Hme). unfold cpunum.
  assert (exists l1, (if negb (Z.land eflags FL_IF =? 0) then
     modify (fun s => set_l_warn (s32 (l_n s + 1)) (if l_n s =? 0 then l_msgs s ++ [ra] else l_msgs s) s) else ret tt) l = Ret tt l1
     /\ l_mp l1 = l_mp l /\ l_mem l1 = l_mem l /\ l_dev l1 = l_dev l) as (l1 & E1 & M1 & R1 & D1) by (case_match; by eexists).
  rewrite (bind_Ret _ _ _ _ _ E1), (bind_Ret _ _ _ _ _ (present_ok l1 ltac:(by rewrite M1))). cbn [negb].
  rewrite (bind_Ret _ _ _ _ _ (lapicr_ok _ _)), gets_bind. cbv zeta. rewrite id_read, D1. cbn [l_mp set_l_dev]. rewrite M1, Hn, Nat2Z.id.
  set (l2 := set_l_dev _ l1). exists l2. change 0 with (Z.of_nat 0).
  rewrite (find_apicid_ok l2 (apic_id (l_dev l)) (ids ++ rest) ltac:(cbn; by rewrite M1) (length ids) 0 me).
  - split; [done|]. cbn. rewrite id_rd. split_and!; try done. intros j. apply rd_reg.
  - by apply lookup_app_l_Some.
  - intros j Hj E. rewrite lookup_app_l in E by lia. pose proof (NoDup_lookup _ _ _ _ Hnd Hme E). lia.
  - lia.
  - rewrite length_app. lia.
Qed.

(** Memory below the pages of the allocator. *)
Lemma kmem_low k free m : kmem_ok k free -> (forall x, end_ <= x -> m x = ram k x) -> kmem_ok (set_ram m k) free.
Proof.
  intros [Hc Hp Hn] Hm. constructor; [|done|done]. cbn. eapply chain_ext; [done|]. intros a x Ha Hx. apply Hm.
  rewrite Forall_forall in Hp. destruct (Hp a Ha). lia.
Qed.

(** * The waiting loop *)

(** The three words of the processor whose stack is the page [stack]. *)
Definition words (m : mem) (stack : Z) : Prop :=
  load32 m (code - 12) = V2P entrypgdir /\ load32 m (code - 4) = stack + KSTACKSIZE /\ load32 m (code - 8) = mpenter.

(** A processor that has done [j] of its steps with these words. *)
Definition progress (j : nat) (id stack : Z) : ap :=
  Ap id 0x7000 j (if (1 <=? j)%nat then V2P entrypgdir else 0) (if (2 <=? j)%nat then stack + KSTACKSIZE else 0)
    (if (3 <=? j)%nat then mpenter else 0).

Lemma ap_step_progress m j id stack : words m stack -> (j < 4)%nat -> ap_step m (progress j id stack) = progress (S j) id stack.
Proof.
  intros (H1 & H2 & H3) Hj. change (P2V 0x7000) with code in *. unfold ap_step. cbn [a_start progress]. change (P2V 0x7000) with code.
  destruct j as [|[|[|[|j]]]]; [..|lia]; cbn; by rewrite ?H1, ?H2, ?H3.
Qed.

Lemma ap_step_up m a : a_stage a = 4%nat -> ap_step m a = a.
Proof. destruct a as [id st j x y z]. cbn. intros ->. done. Qed.

(** The steps processor [k] makes in [n] polls from poll [i] on. *)
Fixpoint moves (k i n : nat) : nat :=
  match n with O => 0 | S n' => (if (who i =? k)%nat then 1 else 0) + moves k (S i) n' end.

(** [ids] are the APIC ids of the processors. *)
Definition table (ids : list Z) (s : boot) : Prop :=
  (exists rest, cpus (l_mp (b_lap s)) = ids ++ rest) /\ ncpu (l_mp (b_lap s)) = Z.of_nat (length ids) /\
  lapic (l_mp (b_lap s)) <> 0 /\ NoDup ids.

Lemma number_ok ids s i id : table ids s -> ids !! i = Some id -> number s id = Some i.
Proof.
  intros ((rest & Hc) & Hn & _ & Hnd) Hi. unfold number. rewrite Hc, Hn, Nat2Z.id, take_app_length.
  assert (list_find (fun a => a = id) ids = Some (i, id)) as ->; [|done]. apply list_find_Some. split_and!; [done|done|].
  intros j y Hj Hlt ->. pose proof (NoDup_lookup _ _ _ _ Hnd Hi Hj). lia.
Qed.

(** Waiting for processor [c]: those before it are up, it has done [j] steps. *)
Record waiting (ids : list Z) (c : nat) (id stack : Z) (ups : list ap) (j : nat) (s : boot) : Prop := {
  w_table : table ids s;
  w_words : words (ram (b_km s)) stack;
  w_aps : b_aps s = ups ++ [progress j id stack];
  w_ups : Forall (fun a => a_stage a = 4%nat /\ exists i, (i < c)%nat /\ ids !! i = Some (a_id a)) ups;
  w_id : ids !! c = Some id;
  w_stage : (j <= 4)%nat;
  w_mine : b_started s !! c = Some (if (j =? 4)%nat then 1 else 0);
  w_after : forall i, (c < i < length ids)%nat -> b_started s !! i = Some 0
}.

Lemma started_set (l : list Z) i c v : (i < c)%nat -> l !! c = v -> <[i := 1]> l !! c = v.
Proof. intros H <-. apply list_lookup_insert_ne. lia. Qed.

(** A step of another processor, or of none. *)
Lemma step_other ids c id stack ups j s : waiting ids c id stack ups j s -> who (b_now s) <> length ups -> waiting ids c id stack ups j (others_step s).
Proof.
  intros [Ht Hw Ha Hu Hi Hj Hm Hz] Hk. unfold others_step. rewrite Ha. destruct ((ups ++ [progress j id stack]) !! who (b_now s)) as [a|] eqn:E; [|by constructor].
  apply lookup_app_Some in E as [E|[Hge E]]; [|apply list_lookup_singleton_Some in E; lia].
  pose proof (proj1 (Forall_lookup _ _) Hu _ _ E) as (Hs & i & Hic & Hid). rewrite Hs. cbn [Nat.leb]. rewrite (number_ok ids s i _ Ht Hid).
  constructor; try done; cbn [b_aps b_started].
  - by rewrite ap_step_up, list_insert_id by (done || by apply lookup_app_l_Some).
  - by apply started_set.
  - intros i' Hi'. apply started_set; [lia|by apply Hz].
Qed.

(** A step of the processor that is waited for. *)
Lemma step_mine ids c id stack ups j s : waiting ids c id stack ups j s -> who (b_now s) = length ups -> (j < 4)%nat -> waiting ids c id stack ups (S j) (others_step s).
Proof.
  intros [Ht Hw Ha Hu Hi Hj Hm Hz] Hk Hj4. unfold others_step. rewrite Ha, Hk, list_lookup_middle by done.
  rewrite ap_step_progress by done. change (a_stage (progress j id stack)) with j. change (a_id (progress j id stack)) with id. rewrite (number_ok ids s c _ Ht Hi).
  pose proof (lookup_lt_Some _ _ _ Hm). constructor; try done; cbn [b_aps b_started].
  - by rewrite insert_app_r_alt, Nat.sub_diag by lia.
  - destruct j as [|[|[|[|j]]]]; [..|lia]; cbn; try done. by apply list_lookup_insert_eq.
  - intros i' Hi'. destruct (3 <=? j)%nat; [|by apply Hz]. rewrite list_lookup_insert_ne by lia. by apply Hz.
Qed.

Lemma wait_started_ok ids c id stack ups n : forall fuel j s, waiting ids c id stack ups j s -> (4 <= j + moves (length ups) (b_now s) n)%nat -> (n < fuel)%nat ->
  exists s', wait_started fuel (Z.of_nat c) s = Ret tt s' /\ waiting ids c id stack ups 4 s' /\ b_km s' = b_km s /\ b_lap s' = b_lap s.
Proof.
  induction n as [|n IH]; intros [|fuel] j s Hw Hm Hf; try lia; cbn [wait_started moves] in *; rewrite gets_bind, arr_get_nat, (w_mine _ _ _ _ _ _ _ Hw); unfold get_opt; rewrite ret_bind;
    destruct (Nat.eqb_spec j 4) as [->|Hj]; try by (exists s).
  - pose proof (w_stage _ _ _ _ _ _ _ Hw). lia.
  - cbn [Z.eqb]. rewrite modify_bind. pose proof (w_stage _ _ _ _ _ _ _ Hw).
    assert (b_now (others_step s) = S (b_now s) /\ b_km (others_step s) = b_km s /\ b_lap (others_step s) = b_lap s) as (En & Ek & El) by (unfold others_step; by destruct (b_aps s !! _)).
    destruct (Nat.eqb_spec (who (b_now s)) (length ups)) as [E|E].
    + destruct (IH fuel (S j) (others_step s)) as (s' & R & W & K & L); [by apply step_mine; try lia|rewrite En; lia|lia|].
      exists s'. by rewrite R, K, L.
    + destruct (IH fuel j (others_step s)) as (s' & R & W & K & L); [by apply step_other|rewrite En; lia|lia|].
      exists s'. by rewrite R, K, L.
Qed.

(** * startothers *)

(** The processors other than the one with the APIC id [my]. *)
Definition others (my : Z) (ids : list Z) : list Z := filter (fun id => id <> my) ids.

(** The code of entryother.S and the allocator's pages. *)
Definition lasting (x : Z) : Prop := code <= x < code + binary_entryother_size \/ end_ <= x.

(** The first [c] processors have been dealt with, from allocator state [k0]
    on; [img] is the memory with the code in place. *)
Record underway (k0 : kmem) (free ids : list Z) (my : Z) (img : mem) (c : nat) (stacks free' : list Z) (s : boot) : Prop := {
  u_free : free = stacks ++ free';
  u_km : kmem_ok (b_km s) free';
  u_ready : kmem_after k0 (b_km s);
  u_table : table ids s;
  u_my : apic_id (l_dev (b_lap s)) = my;
  u_aps : b_aps s = zip_with (progress 4) (others my (take c ids)) stacks;
  u_len : length stacks = length (others my (take c ids));
  u_started : forall i, (c <= i < length ids)%nat -> b_started s !! i = Some 0;
  u_code : forall x, lasting x -> ram (b_km s) x = img x
}.

Lemma others_snoc my ids c id : ids !! c = Some id -> others my (take (S c) ids) = others my (take c ids) ++ (if decide (id = my) then [] else [id]).
Proof.
  intros H. rewrite (take_S_r _ _ _ H). unfold others. rewrite filter_app. f_equal. destruct (decide (id = my)) as [->|Hne].
  - by rewrite filter_cons_False by tauto.
  - by rewrite filter_cons_True by done.
Qed.

(** The stores of one round, and what they leave alone. *)
Definition word_stores (m : mem) (stack : Z) : mem :=
  store32 (store32 (store32 m (code - 4) (stack + KSTACKSIZE)) (code - 8) mpenter) (code - 12) (V2P entrypgdir).

Lemma word_stores_ne m stack x : x < code - 12 \/ code <= x -> word_stores m stack x = m x.
Proof. intros H. unfold word_stores. rewrite !store32_ne by lia. done. Qed.

Lemma word_stores_ok m stack : page_ok stack -> words (word_stores m stack) stack.
Proof.
  intros [_ Hp]. unfold words, word_stores, end_, PHYSTOP, KERNBASE, KSTACKSIZE in *.
  assert (forall m a v b, b + 4 <= a \/ a + 4 <= b -> load32 (store32 m a v) b = load32 m b) as Hne by (intros; apply load32_ext; intros; apply store32_ne; lia).
  split_and!; [apply load32_store32, u32_range|..]; rewrite !Hne by lia; apply load32_store32; unfold mpenter; lia.
Qed.

Lemma ups_ok my ids c stacks :
  Forall (fun a => a_stage a = 4%nat /\ exists i, (i < c)%nat /\ ids !! i = Some (a_id a)) (zip_with (progress 4) (others my (take c ids)) stacks).
Proof.
  apply Forall_lookup. intros k a Ha. apply lookup_zip_with_Some in Ha as (id & st & -> & Hid & _). split; [done|].
  apply list_elem_of_lookup_2, list_elem_of_filter in Hid as [_ Hid]. apply list_elem_of_lookup in Hid as [i Hi].
  apply lookup_take_Some in Hi as [Hi ?]. by exists i.
Qed.

(** The state in which a processor has been given its words and been woken. *)
Lemma woken k0 free ids my img c id stacks a free' s :
  underway k0 free ids my img c stacks (a :: free') s -> ids !! c = Some id -> id <> my -> 0 <= id < 256 ->
  exists s1, (forall fuel, startother fuel (Z.of_nat c) s = wait_started fuel (Z.of_nat c) s1) /\
    waiting ids c id a (b_aps s) 0 s1 /\ kmem_ok (b_km s1) free' /\ kmem_after k0 (b_km s1) /\ apic_id (l_dev (b_lap s1)) = my /\
    forall x, lasting x -> ram (b_km s1) x = img x.
Proof.
  intros [Hf Hk Hr Ht Hmy Ha Hlen Hst Hcode] Hi Hne Hid. destruct (kalloc_ok _ _ Hk (proj2 (proj2 Hr))) as (k1 & E1 & K1 & A1 & R1). cbn [hd tl] in *.
  assert (page_ok a) as Hp by (pose proof (ko_pages _ _ Hk) as Hp; by apply Forall_cons in Hp as [? _]).
  pose proof Ht as ((rest & Hc) & Hn & Hl & Hnd).
  set (s1 := set_b_km (set_ram (word_stores (ram k1) a) k1) s).
  destruct (lapicstartap_ok id (V2P code) (get_lap s1)) as (l2 & E2 & (T2 & T2' & T2'') & I2 & H2 & L2 & M2).
  set (s2 := set_lap l2 s1). assert (forall x, 0x8000046b <= x -> ram (b_km s2) x = word_stores (ram (b_km s)) a x) as Hmem.
  { intros x Hx. cbn. rewrite M2 by lia. cbn. by rewrite R1. }
  set (s3 := set_b_aps (b_aps s ++ [progress 0 id a]) s2). exists s3. split.
  { intros fuel. unfold startother, kmM, zoom. unfold bind at 1. rewrite E1. cbn [ozoom obind]. unfold put32. rewrite !modify_bind.
    change (set_b_km _ _) with s1. rewrite gets_bind. cbn [b_lap s1 set_b_km]. rewrite Hc, arr_get_nat, (lookup_app_l_Some _ _ _ _ Hi).
    unfold get_opt. rewrite ret_bind. rewrite (bind_Ret _ _ _ _ _ (lapM_Ret _ _ _ _ E2)). unfold wake. rewrite modify_bind. cbn [b_lap set_lap]. rewrite H2, L2.
    change (u32 (Z.lor STARTUP (Z.shiftr (V2P code) 12))) with 0x607. change (Z.land 0x607 0x700 =? STARTUP) with true. cbv iota.
    change (Z.shiftl (Z.land 0x607 255) 12) with 0x7000. rewrite u32_small by (rewrite Z.shiftl_mul_pow2; lia). rewrite Z.shiftr_shiftl_l by lia.
    by rewrite Z.shiftl_0_r. }
  assert (code = 0x80007000) as Hcv by done.
  split_and!.
  - constructor; try done.
    + split_and!; [exists rest; cbn; by rewrite T2|cbn; by rewrite T2'|cbn; by rewrite T2''|done].
    + destruct (word_stores_ok (ram (b_km s)) a Hp) as (W1 & W2 & W3). split_and!; [rewrite <- W1|rewrite <- W2|rewrite <- W3]; apply load32_ext; intros x Hx; apply Hmem; lia.
    + rewrite Ha. apply ups_ok.
    + lia.
    + cbn. apply Hst. apply lookup_lt_Some in Hi. lia.
    + intros i Hi'. cbn. apply Hst. lia.
  - apply (kmem_low (set_ram (ram k1) k1)).
    + by destruct k1.
    + intros x Hx. cbn. rewrite M2 by (unfold end_ in Hx; lia). cbn. apply word_stores_ne. unfold end_ in Hx. lia.
  - by eapply kmem_after_trans; [|apply A1].
  - cbn. rewrite I2. done.
  - intros x Hx. rewrite <- Hcode by done. change (b_km s3) with (b_km s2). unfold lasting, end_ in Hx. rewrite Hmem by lia. apply word_stores_ne. lia.
Qed.

Lemma startother_ok k0 free ids my img c id stacks a free' s n fuel :
  underway k0 free ids my img c stacks (a :: free') s -> ids !! c = Some id -> id <> my -> 0 <= id < 256 ->
  (forall i, (4 <= moves (length stacks) i n)%nat) -> (n < fuel)%nat ->
  exists s', startother fuel (Z.of_nat c) s = Ret tt s' /\ underway k0 free ids my img (S c) (stacks ++ [a]) free' s'.
Proof.
  intros Hu Hi Hne Hid Hm Hf. destruct (woken _ _ _ _ _ _ _ _ _ _ _ Hu Hi Hne Hid) as (s1 & E & W & K & R & I & C).
  assert (length (b_aps s) = length stacks) as El by (rewrite (u_aps _ _ _ _ _ _ _ _ _ Hu), length_zip_with, (u_len _ _ _ _ _ _ _ _ _ Hu); lia).
  destruct (wait_started_ok ids c id a (b_aps s) n fuel 0 s1 W) as (s' & E' & W' & K' & L'); [rewrite El; apply (Hm (b_now s1))|done|].
  exists s'. split; [by rewrite E|]. pose proof (others_snoc my ids c id Hi) as Eo. rewrite decide_False in Eo by done.
  destruct Hu as [Uf _ _ _ _ Ua Ul _ _]. constructor.
  - by rewrite <- app_assoc.
  - by rewrite K'.
  - by rewrite K'.
  - apply W'.
  - by rewrite L'.
  - rewrite (w_aps _ _ _ _ _ _ _ W'), Eo, zip_with_app by done. by rewrite Ua.
  - rewrite Eo, !length_app, Ul. done.
  - intros i Hi'. apply (w_after _ _ _ _ _ _ _ W'). lia.
  - by rewrite K'.
Qed.

(** cpunum, and the round of the boot processor itself. *)
Lemma underway_cpunum k0 free ids my img c stacks free' s eflags ra me :
  underway k0 free ids my img c stacks free' s -> ids !! me = Some my ->
  exists s', lapM (cpunum eflags ra) s = Ret (Z.of_nat me) s' /\ underway k0 free ids my img c stacks free' s'.
Proof.
  intros [Hf Hk Hr Ht Hmy Ha Hlen Hst Hcode] Hme. pose proof Ht as ((rest & Hc) & Hn & Hl & Hnd).
  destruct (cpunum_ok eflags ra (get_lap s) ids rest me Hc Hn Hl Hnd) as (l & E & M & R & I & _); [by rewrite <- Hmy in Hme|].
  eexists. split; [by apply lapM_Ret|]. assert (b_km (set_lap l s) = b_km s) as Ek by (cbn; rewrite R; cbn; by destruct (b_km s)).
  constructor; rewrite ?Ek; try done.
  - split_and!; [exists rest|..]; cbn; by rewrite ?M.
  - cbn. by rewrite I.
Qed.
Lemma others_le my ids c : (length (others my (take c ids)) <= length (others my ids))%nat.
Proof. rewrite <- (take_drop c ids) at 2. unfold others. rewrite filter_app, length_app. lia. Qed.

(** One round of the loop. *)
Lemma round_ok k0 free ids my img c stacks free' s eflags ra me n fuel :
  underway k0 free ids my img c stacks free' s -> ids !! me = Some my -> (c < length ids)%nat -> (length (others my ids) <= length free)%nat -> Forall (fun id => 0 <= id < 256) ids ->
  (forall k i, (k < length (others my ids))%nat -> (4 <= moves k i n)%nat) -> (n < fuel)%nat ->
  exists s' stacks' free'', (me <- lapM (cpunum eflags ra) ;; if Z.of_nat c =? me then ret tt else startother fuel (Z.of_nat c)) s = Ret tt s' /\
    underway k0 free ids my img (S c) stacks' free'' s'.
Proof.
  intros U Hme Hc Hlen Hids Hm Hf. destruct (underway_cpunum _ _ _ _ _ _ _ _ _ eflags ra me U Hme) as (s1 & E1 & U1). rewrite (bind_Ret _ _ _ _ _ E1).
  destruct (lookup_lt_is_Some_2 ids c Hc) as [id Hid]. pose proof (others_snoc my ids c id Hid) as Eo.
  pose proof (u_table _ _ _ _ _ _ _ _ _ U) as (_ & _ & _ & Hnd). destruct (Z.eqb_spec (Z.of_nat c) (Z.of_nat me)) as [E|E].
  - exists s1, stacks, free'. split; [done|]. assert (c = me) as -> by lia. assert (id = my) as -> by congruence. rewrite decide_True, app_nil_r in Eo by done.
    destruct U1 as [U1 U2 U3 U4 U5 U6 U7 U8 U9]. constructor; rewrite ?Eo; try done. intros i Hi. apply U8. lia.
  - assert (id <> my) as Hne by (intros ->; pose proof (NoDup_lookup _ _ _ _ Hnd Hid Hme); lia). rewrite decide_False in Eo by done.
    pose proof (u_len _ _ _ _ _ _ _ _ _ U) as Hs. pose proof (others_le my ids (S c)) as Hle. rewrite Eo, length_app in Hle. cbn [length] in Hle.
    destruct free' as [|a free'].
    { pose proof (u_free _ _ _ _ _ _ _ _ _ U) as ->. rewrite app_nil_r in Hlen. lia. }
    destruct (startother_ok k0 free ids my img c id stacks a free' s1 n fuel U1 Hid Hne) as (s2 & E2 & U2);
      [exact (proj1 (Forall_lookup _ _) Hids _ _ Hid)|intros i; apply Hm; lia|done|]. by exists s2, (stacks ++ [a]), free'.
Qed.
Lemma startothers_ok s fuel n eflags ra free ids me my :
  kmem_ok (b_km s) free -> kmem_ready (b_km s) -> table ids s -> Forall (fun id => 0 <= id < 256) ids ->
  apic_id (l_dev (b_lap s)) = my -> ids !! me = Some my -> (length (others my ids) <= length free)%nat ->
  b_aps s = [] -> (forall i, (i < length ids)%nat -> b_started s !! i = Some 0) ->
  (forall k i, (k < length (others my ids))%nat -> (4 <= moves k i n)%nat) -> (n < fuel)%nat ->
  exists s' stacks free', startothers fuel eflags ra s = Ret tt s' /\
    underway (b_km s) free ids my (memmove (ram (b_km s)) code binary_entryother_start binary_entryother_size) (length ids) stacks free' s'.
Proof.
  intros Hk Hr Ht Hids Hmy Hme Hlen Ha Hst Hfair Hf. unfold startothers. rewrite modify_bind, gets_bind. cbn [b_lap set_b_km].
  pose proof Ht as (_ & Hn & _). rewrite Hn. set (img := memmove _ _ _ _). set (s0 := set_b_km _ s).
  set (Inv := fun (c : Z) s' => exists stacks free', underway (b_km s) free ids my img (Z.to_nat c) stacks free' s').
  destruct (for_each_inv (fun c => me <- lapM (cpunum eflags ra) ;; if c =? me then ret tt else startother fuel c) Inv 0 (Z.of_nat (length ids)) s0) as (s' & E & stacks & free' & U); [lia|..].
  - exists [], free. constructor; try done.
    + apply kmem_low; [done|]. intros x Hx. unfold img. rewrite memmove_spec by done. unfold end_ in Hx.
      rewrite (proj2 (Z.ltb_ge x (code + binary_entryother_size))) by (change (code + binary_entryother_size) with 0x8000708a; lia). by rewrite andb_false_r.
    + intros i Hi. apply Hst. lia.
  - intros j t Hj (stacks & free' & U). destruct (round_ok _ _ _ _ _ _ _ _ _ eflags ra me n fuel U Hme) as (t' & stacks' & free'' & E & U'); [lia|done|done|done|done|].
    rewrite Z2Nat.id in E by lia. exists t'. split; [exact E|]. exists stacks', free''. by replace (Z.to_nat (j + 1)) with (S (Z.to_nat j)) by lia.
  - rewrite Nat2Z.id in U. by exists s', stacks, free'.
Qed.
End startothers.

(** Every processor but the boot processor is woken in the order of the table,
    starts in the code of entryother.S, and finds the kernel's first page
    directory, mpenter and a stack of its own, the next free page, however its
    steps are interleaved with those of the others; startothers returns when
    all have started. *)
Theorem startothers_gives_each_its_stack `{!Apic D, !ApicLaws D} who (s : boot (D := D)) fuel n eflags ra free ids me my :
  kmem_ok (b_km s) free -> kmem_ready (b_km s) -> table ids s -> Forall (fun id => 0 <= id < 256) ids ->
  apic_id (l_dev (b_lap s)) = my -> ids !! me = Some my -> (length (others my ids) <= length free)%nat ->
  b_aps s = [] -> (forall i, (i < length ids)%nat -> b_started s !! i = Some 0) ->
  (forall k i, (k < length (others my ids))%nat -> (4 <= moves who k i n)%nat) -> (n < fuel)%nat ->
  exists s' stacks free', startothers who fuel eflags ra s = Ret tt s' /\ free = stacks ++ free' /\ kmem_ok (b_km s') free' /\
    length stacks = length (others my ids) /\
    b_aps s' = zip_with (fun id stack => Ap id 0x7000 4 (V2P entrypgdir) (stack + KSTACKSIZE) mpenter) (others my ids) stacks /\
    forall x, 0 <= x < binary_entryother_size -> ram (b_km s') (code + x) = ram (b_km s) (binary_entryother_start + x).
Proof.
  intros Hk Hr Ht Hids Hmy Hme Hlen Ha Hst Hfair Hf.
  destruct (startothers_ok who s fuel n eflags ra free ids me my Hk Hr Ht Hids Hmy Hme Hlen Ha Hst Hfair Hf) as (s' & stacks & free' & E & [U1 U2 _ _ _ U6 U7 _ U9]).
  rewrite take_ge in U6, U7 by lia. exists s', stacks, free'. split_and!; try done. intros x Hx. rewrite U9 by (left; lia). rewrite memmove_spec by done.
  rewrite (proj2 (Z.leb_le code (code + x))), (proj2 (Z.ltb_lt (code + x) _)) by lia. cbn. f_equal. lia.
Qed.

#[local] Existing Instance simple_apic.
#[local] Existing Instance simple_apic_laws.

(** Two processors, the second of which is started; one free page. *)
Lemma startothers_gives_each_its_stack_witness :
  let s := Boot (D := Z * (Z -> Z)) (Kmem mach0 0 page0 mem0) (Lap (Mps [0; 1; 0; 0; 0; 0; 0; 0] 1 2 2 0xFEE00000 []) (0, fun _ => 0) mem0 0 []) [] (replicate 8 0) 0 in
  exists s' stacks free', startothers (fun _ => 0%nat) 5 0 0 s = Ret tt s' /\ [page0] = stacks ++ free' /\ kmem_ok (b_km s') free' /\
    length stacks = 1%nat /\
    b_aps s' = zip_with (fun id stack => Ap id 0x7000 4 (V2P entrypgdir) (stack + KSTACKSIZE) mpenter) [1] stacks /\
    forall x, 0 <= x < binary_entryother_size -> ram (b_km s') (code + x) = mem0 (binary_entryother_start + x).
Proof.
  intros s. apply (startothers_gives_each_its_stack (fun _ => 0%nat) s 5 4 0 0 [page0] [0; 1] 0 0).
  - constructor; [done| |apply NoDup_singleton]. by repeat constructor; vm_compute.
  - by left.
  - split_and!; [by eexists [_; _; _; _; _; _]|done|done|]. apply NoDup_cons. split; [|apply NoDup_singleton]. by intros ?%list_elem_of_singleton.
  - repeat constructor; lia.
  - done.
  - done.
  - done.
  - done.
  - intros [|[|i]] Hi; [done|done|cbn in Hi; lia].
  - intros [|k] i Hk; [cbn; lia|change (S k < 1)%nat in Hk; lia].
  - lia.
Defined.
