(* ===== verification/Main.v ===== *)
(** The start of the kernel (main, mpenter and mpmain of src/xv6-public/main.c):
    the initialisers of the components in the order main calls them, on one
    state, up to the first process; and what a processor that startothers has
    woken does before it enters the scheduler.

    The page allocator, the page tables, the tables of mp.c and the code of
    the other processors share one memory.  cprintf's lines are kept as their
    format, without its new lines, and argument ([ConsolePrint] has cprintf).

    What main leaves to the first process: all of memory accounted for, the
    kernel's page table in use, the other processors running on stacks of their
    own, the locks free and the interrupts of the devices let through. *)
From S2P Require Import Prelude CString Spinlock ProcState Queue Proc Kalloc Vm VmSpec VmUser VmKernel Trap Cga Console Bio Ide IdeSpec Irqchips Mp Lapic Startup.

(** Addresses of kernel.sym. *)
Definition bcache_lock : Z := 0x8010b5e0.
Definition ftable_lock : Z := 0x8010ffe0.
Definition idt_addr : Z := 0x80115d20.

Definition COM1 : Z := 0x3f8.
Definition CONSOLE : Z := 1.

(** devsw of file.c: the functions of the devices that have some. *)
Inductive devfn := Consoleread | Consolewrite.
Record devsw_table := Devsw_table { dw_read : gmap Z devfn; dw_write : gmap Z devfn }.

Section main.
Context {D A : Type} `{!Apic D, !ApicLaws D, !Ata A}.
(** The steps of the other processors, the value of the IMCR, the status of
    the serial port, the entry points of vectors.S, the flags and the return
    address cpunum sees, and a bound on each wait. *)
Variables (who : nat -> nat) (imcr status : Z) (vectors : list Z) (eflags ra : Z) (fuel : nat).

Record sys := Sys {
  s_b : boot (D := D);
  s_kpgdir : Z;
  s_seg : cpuseg;
  s_vout : list string;
  s_chips : chips;
  s_idt : list gatedesc;
  s_idtr : Z * Z;
  s_cons : console;
  s_bio : bio;
  s_ide : ide A;
  s_out : list (string * Z);
  s_devsw : devsw_table;
  s_ins : list Z
}.
Definition set_s_b v s := Sys v (s_kpgdir s) (s_seg s) (s_vout s) (s_chips s) (s_idt s) (s_idtr s) (s_cons s) (s_bio s) (s_ide s) (s_out s) (s_devsw s) (s_ins s).
Definition set_s_chips v s := Sys (s_b s) (s_kpgdir s) (s_seg s) (s_vout s) v (s_idt s) (s_idtr s) (s_cons s) (s_bio s) (s_ide s) (s_out s) (s_devsw s) (s_ins s).
Definition set_s_idt v s := Sys (s_b s) (s_kpgdir s) (s_seg s) (s_vout s) (s_chips s) v (s_idtr s) (s_cons s) (s_bio s) (s_ide s) (s_out s) (s_devsw s) (s_ins s).
Definition set_s_idtr v s := Sys (s_b s) (s_kpgdir s) (s_seg s) (s_vout s) (s_chips s) (s_idt s) v (s_cons s) (s_bio s) (s_ide s) (s_out s) (s_devsw s) (s_ins s).
Definition set_s_cons v s := Sys (s_b s) (s_kpgdir s) (s_seg s) (s_vout s) (s_chips s) (s_idt s) (s_idtr s) v (s_bio s) (s_ide s) (s_out s) (s_devsw s) (s_ins s).
Definition set_s_bio v s := Sys (s_b s) (s_kpgdir s) (s_seg s) (s_vout s) (s_chips s) (s_idt s) (s_idtr s) (s_cons s) v (s_ide s) (s_out s) (s_devsw s) (s_ins s).
Definition set_s_ide v s := Sys (s_b s) (s_kpgdir s) (s_seg s) (s_vout s) (s_chips s) (s_idt s) (s_idtr s) (s_cons s) (s_bio s) v (s_out s) (s_devsw s) (s_ins s).
Definition set_s_out v s := Sys (s_b s) (s_kpgdir s) (s_seg s) (s_vout s) (s_chips s) (s_idt s) (s_idtr s) (s_cons s) (s_bio s) (s_ide s) v (s_devsw s) (s_ins s).

Definition set_s_devsw v s := Sys (s_b s) (s_kpgdir s) (s_seg s) (s_vout s) (s_chips s) (s_idt s) (s_idtr s) (s_cons s) (s_bio s) (s_ide s) (s_out s) v (s_ins s).
Definition set_s_ins v s := Sys (s_b s) (s_kpgdir s) (s_seg s) (s_vout s) (s_chips s) (s_idt s) (s_idtr s) (s_cons s) (s_bio s) (s_ide s) (s_out s) (s_devsw s) v.

Notation Y := (M sys).

(** The allocator's pages and the page tables. *)
Definition get_v (s : sys) : vst := Vst (b_km (s_b s)) (s_kpgdir s) (s_seg s) (s_vout s).
Definition set_v (v : vst) (s : sys) : sys :=
  Sys (set_b_km (v_km v) (s_b s)) (kpgdir v) (v_seg v) (v_out v) (s_chips s) (s_idt s) (s_idtr s) (s_cons s) (s_bio s) (s_ide s) (s_out s) (s_devsw s) (s_ins s).

(** ioapic.c and main read ismp and ioapicid of mp.c. *)
Definition get_chips (s : sys) : chips :=
  let c := s_chips s in let m := l_mp (b_lap (s_b s)) in
  Chips (irqmask c) (ports c) (io_sel c) (io_reg c) (Mp.ismp m) (Mp.ioapicid m) (msgs c).

(** mpinit writes the globals of mp.c. *)
Definition set_mps (m : mps) (s : sys) : sys :=
  let b := s_b s in set_s_b (Boot (b_km b) (set_l_mp m (b_lap b)) (b_aps b) (b_started b) (b_now b)) s.

Definition bootM {X} (c : M boot X) : Y X := zoom s_b set_s_b c.
Definition vM {X} (c : M vst X) : Y X := zoom get_v set_v c.
Definition lockM {X} (c : M machine X) : Y X := bootM (kmM (kmachM c)).
Definition chipsM {X} (c : M chips X) : Y X := zoom get_chips set_s_chips c.
Definition consM {X} (c : M console X) : Y X := zoom s_cons set_s_cons c.

(** cprintf(fmt, n) *)
Definition tell (fmt : string) (n : Z) : Y unit := modify (fun s => set_s_out (s_out s ++ [(fmt, n)]) s).

Definition mpinit_ : Y unit := fun s =>
  zoom (fun s => l_mp (b_lap (s_b s))) set_mps (mpinit (ram (b_km (s_b s))) imcr fuel) s.

(** * The initialisers with the interrupt controllers *)

Definition consoleinit : Y unit :=
  lockM (initlock cons_lock "console") ;;
  modify (fun s => set_s_devsw (Devsw_table (dw_read (s_devsw s)) (<[CONSOLE := Consolewrite]> (dw_write (s_devsw s)))) s) ;;
  modify (fun s => set_s_devsw (Devsw_table (<[CONSOLE := Consoleread]> (dw_read (s_devsw s))) (dw_write (s_devsw s))) s) ;;
  consM (modify (set_locking 1)) ;;
  chipsM (picenable IRQ_KBD) ;;
  chipsM (ioapicenable IRQ_KBD 0).

Fixpoint announce (l : list Z) : M console unit :=
  match l with [] => ret tt | c :: l' => uartputc c ;; announce l' end.

(** A byte read from a port, which is not looked at. *)
Definition in_port (port : Z) : Y unit := modify (fun s => set_s_ins (s_ins s ++ [port]) s).

Definition uartinit : Y unit :=
  chipsM (Irqchips.outb (COM1 + 2) 0) ;;
  chipsM (Irqchips.outb (COM1 + 3) 0x80) ;;
  chipsM (Irqchips.outb (COM1 + 0) (115200 / 9600)) ;;
  chipsM (Irqchips.outb (COM1 + 1) 0) ;;
  chipsM (Irqchips.outb (COM1 + 3) 0x03) ;;
  chipsM (Irqchips.outb (COM1 + 4) 0) ;;
  chipsM (Irqchips.outb (COM1 + 1) 0x01) ;;
  in_port (COM1 + 5) ;;
  if status =? 0xFF then ret tt else
  consM (modify (set_uart 1)) ;;
  in_port (COM1 + 2) ;;
  in_port (COM1 + 0) ;;
  chipsM (picenable IRQ_COM1) ;;
  chipsM (ioapicenable IRQ_COM1 0) ;;
  consM (announce (bytes "xv6..." ++ [10])).

Definition pinit : Y unit := lockM (initlock ptable_lock "ptable").

Definition tvinit_ : Y unit :=
  idt <- lockM (tvinit vectors) ;;
  modify (set_s_idt idt).

Definition binit_ : Y unit :=
  lockM (initlock bcache_lock "bcache") ;;
  zoom s_bio set_s_bio binit.

Definition fileinit : Y unit := lockM (initlock ftable_lock "ftable").

Definition ideinit : Y unit :=
  lockM (initlock ide_lock "ide") ;;
  chipsM (picenable IRQ_IDE) ;;
  n <- gets (fun s => ncpu (l_mp (b_lap (s_b s)))) ;;
  chipsM (ioapicenable IRQ_IDE (n - 1)) ;;
  zoom s_ide set_s_ide (ideprobe fuel).

(** * main *)

(** main, until everything is ready for userinit. *)
Definition main_init : Y unit :=
  bootM (kmM (kinit1 end_ (P2V (4 * 1024 * 1024)))) ;;
  vM kvmalloc ;;
  mpinit_ ;;
  bootM (lapM (lapicinit fuel)) ;;
  vM seginit ;;
  n <- bootM (lapM (cpunum eflags ra)) ;;
  tell "cpu%d: starting xv6" n ;;
  chipsM picinit ;;
  chipsM ioapicinit ;;
  consoleinit ;;
  uartinit ;;
  pinit ;;
  tvinit_ ;;
  binit_ ;;
  fileinit ;;
  ideinit ;;
  i <- gets (fun s => Mp.ismp (l_mp (b_lap (s_b s)))) ;;
  (if i =? 0 then chipsM timerinit else ret tt) ;;
  bootM (startothers who fuel eflags ra) ;;
  bootM (kmM (kinit2 (P2V (4 * 1024 * 1024)) (P2V PHYSTOP))).

(** mpmain, until the scheduler. *)
Definition mpmain_init : Y unit :=
  n <- bootM (lapM (cpunum eflags ra)) ;;
  tell "cpu%d: starting" n ;;
  modify (set_s_idtr (idtinit idt_addr)) ;;
  bootM (
    st <- gets b_started ;;
    st <- get_opt "cpus" (arr_set st n 1) ;;
    modify (fun b => Boot (b_km b) (b_lap b) (b_aps b) st (b_now b))).

(** mpenter on another processor, until the scheduler: the segments and the
    APIC are those of that processor. *)
Definition mpenter_init : Y unit :=
  vM switchkvm ;;
  vM seginit ;;
  bootM (lapM (lapicinit fuel)) ;;
  mpmain_init.
End main.

(** * What main leaves to the first process *)

(** * The memory *)

Definition mid : Z := P2V (4 * 1024 * 1024).

(** The pages kinit1 and kinit2 free. *)
Definition count (p e : Z) : nat := Z.to_nat ((e - p) / PGSIZE).
Definition pages1 : list Z := pages (PGROUNDUP end_) (count (PGROUNDUP end_) mid).
Definition pages2 : list Z := pages (PGROUNDUP mid) (count (PGROUNDUP mid) (P2V PHYSTOP)).

Lemma elem_of_pages_iff n : forall p a, p mod 4096 = 0 -> a ∈ pages p n <-> a mod 4096 = 0 /\ p <= a < p + 4096 * Z.of_nat n.
Proof.
  induction n as [|n IH]; intros p a Hp; simpl; [set_solver by lia|]. rewrite elem_of_cons. unfold PGSIZE in *.
  rewrite IH by (rewrite Z.add_mod, Hp by lia; done). split.
  - intros [->|(? & ?)]; split; try done; lia.
  - intros (Ha & Hr). destruct (decide (a = p)) as [->|Hne]; [by left|right]. split; [done|].
    pose proof (Z.div_mod a 4096). pose proof (Z.div_mod p 4096). lia.
Qed.

Lemma elem_of_rev (l : list Z) p : p ∈ rev l <-> p ∈ l.
Proof. by rewrite !list_elem_of_In, <- in_rev. Qed.

Lemma NoDup_pages n : forall p, NoDup (pages p n).
Proof.
  induction n as [|n IH]; intros p; simpl; [apply NoDup_nil_2|]. apply NoDup_cons. split; [|apply IH]. intros H%elem_of_pages. unfold PGSIZE in H. lia.
Qed.


Lemma NoDup_pages12 : NoDup pages1 /\ NoDup pages2.
Proof. split; apply NoDup_pages. Qed.

Lemma pages1_iff p : p ∈ pages1 <-> p mod 4096 = 0 /\ 0x80117000 <= p < 0x80400000.
Proof. unfold pages1, count. rewrite elem_of_pages_iff, Z2Nat.id by done. done. Qed.

Lemma pages1_length : length pages1 = 745%nat.
Proof. vm_compute. reflexivity. Qed.

Lemma pages2_iff p : p ∈ pages2 <-> p mod 4096 = 0 /\ 0x80400000 <= p < 0x8E000000.
Proof. unfold pages2, count. rewrite elem_of_pages_iff, Z2Nat.id by done. done. Qed.

Lemma page_ok_iff p : page_ok p <-> p ∈ pages1 \/ p ∈ pages2.
Proof.
  rewrite pages1_iff, pages2_iff. unfold page_ok, end_, KERNBASE, PHYSTOP, PGSIZE. split; [|lia]. intros [Hm Hr].
  pose proof (Z.div_mod p 4096). lia.
Qed.

Lemma kinit1_ok k : freelist k = 0 ->
  exists k', kinit1 end_ mid k = Ret tt k' /\ kmem_ok k' (rev pages1) /\ use_lock k' = 0 /\
    km_mach k' = set_locks (<[kmem_lock := Spinlock 0 "kmem" None]> (locks (km_mach k))) (km_mach k) /\
    forall x, x < 0x80117000 -> ram k' x = ram k x.
Proof.
  intros H0. set (k0 := Kmem (set_locks (<[kmem_lock := Spinlock 0 "kmem" None]> (locks (km_mach k))) (km_mach k)) 0 (freelist k) (ram k)).
  destruct (freerange_ok k0 [] end_ mid) as (k1 & Hrun & Hok & (Hu & [_ Hm] & _) & Hx).
  { constructor; simpl; [by rewrite H0|done|apply NoDup_nil_2]. }
  { by left. }
  { done. }
  { done. }
  { intros a _. apply not_elem_of_nil. }
  fold (count (PGROUNDUP end_) mid) pages1 in Hok.
  rewrite app_nil_r in Hok. exists k1. split_and!; [exact Hrun|exact Hok|done|by apply Hm|]. intros x Hlt. apply Hx. left. done.
Qed.

Lemma kinit2_ok k free : kmem_ok k free -> kmem_ready k -> (forall p, p ∈ free -> p ∈ pages1) ->
  exists k', kinit2 mid (P2V PHYSTOP) k = Ret tt k' /\ kmem_ok k' (rev pages2 ++ free) /\ use_lock k' = 1 /\
    locks (km_mach k') = locks (km_mach k) /\ forall x, x < mid -> ram k' x = ram k x.
Proof.
  intros Hk Hr Hf. destruct (freerange_ok k free mid (P2V PHYSTOP)) as (k1 & Hrun & Hok & (_ & [Hl _] & _) & Hx); [done|done|done|done|..].
  { intros a Ha Hin. apply Hf, pages1_iff in Hin. change (a ∈ pages2) in Ha. apply pages2_iff in Ha. lia. }
  fold (count (PGROUNDUP mid) (P2V PHYSTOP)) pages2 in Hok. exists (set_use_lock 1 k1). unfold kinit2. rewrite (bind_Ret _ _ _ _ _ Hrun). split_and!; [done|destruct Hok; by constructor|done|exact Hl|].
  - intros x Hlt. apply Hx. left. done.
Qed.

#[local] Opaque pages1 pages2.

Lemma kvmalloc_ok v free : kmem_ok (v_km v) free -> kmem_ready (v_km v) -> (65 < length free)%nat ->
  exists v' free' used T, kvmalloc v = Ret tt v' /\ kmem_after (v_km v) (v_km v') /\ kmem_ok (v_km v') free' /\ free = used ++ free' /\
    (length used <= 65)%nat /\ pgdir_ok (vmem v') (kpgdir v') T /\ (forall p, ptpage (kpgdir v') T p <-> p ∈ used) /\
    (forall n, 0 <= n < 1048576 -> pte (vmem v') T n = kpte n) /\ v_seg v' = set_cr3 (V2P (kpgdir v')) (v_seg v) /\
    forall x, pb x ∉ used -> vmem v' x = vmem v x.
Proof.
  intros Hk Hr Hlen. destruct (setupkvm_ok v free Hk Hr) as (d & v1 & free' & used & E & A & K & F & X & Hor).
  destruct Hor as [(-> & -> & ?)|(Hd & Hu & T & Hv & Hpt & Hp)]; [lia|].
  exists (set_v_seg (set_cr3 (V2P d) (v_seg v1)) (set_kpgdir d v1)), free', used, T. unfold kvmalloc. rewrite (bind_Ret _ _ _ _ _ E), modify_bind.
  split_and!; try done; [apply A|apply Hv|]. cbn. by rewrite (va_seg _ _ A).
Qed.

(** * The devices *)

(** The PICs let the interrupts [lp] and the slave's line through, the I/O APIC
    with the interrupts up to [M] those of [li], with the vectors of trap. *)
Record irqs_on (M : Z) (lp li : list Z) (c : chips) : Prop := {
  io_masks : masks c;
  io_pic : forall b, 0 <= b < 16 -> Z.testbit (irqmask c) b = false <-> b = IRQ_SLAVE \/ b ∈ lp;
  io_apic : forall k, 0 <= k <= M -> io_reg c (REG_TABLE + 2 * k) = if decide (k ∈ li) then T_IRQ0 + k else Z.lor INT_DISABLED (T_IRQ0 + k)
}.

Lemma announce_ok l : forall c, exists c', announce l c = Ret tt c'.
Proof.
  induction l as [|x l IH]; intros c; [by exists c|]. cbn [announce]. rewrite (bind_Ret _ _ _ _ _ (uartputc_ok c x)). apply IH.
Qed.

Lemma find_disk1_ok `{!Ata A} n : forall s : ide A, exists s', find_disk1 n s = Ret tt s'.
Proof.
  induction n as [|n IH]; intros s; cbn [find_disk1]; [by exists s|]. unfold in_. destruct (Ide.inb 0x1f7 (i_dev s)) as [r d] eqn:E.
  rewrite (bind_Ret _ _ s r (set_i_dev d s)) by (rewrite gets_bind; cbv beta; by rewrite E). destruct (r =? 0); [apply IH|by eexists].
Qed.

Lemma ideprobe_ok `{!Ata A, !AtaLaws A} fuel (s : ide A) m c : ata (i_dev s) m c -> (patience <= fuel)%nat -> exists s', ideprobe fuel s = Ret tt s'.
Proof.
  intros Hd Hf. destruct (idewait_ok fuel Hf m c false s Hd) as (d & E & _). unfold ideprobe. rewrite (bind_Ret _ _ _ _ _ E). unfold out_. rewrite modify_bind.
  match goal with |- context [bind (find_disk1 1000) _ ?t] => destruct (find_disk1_ok 1000 t) as [s' E'] end. rewrite (bind_Ret _ _ _ _ _ E'). by eexists.
Qed.

Section devices.
Context {D A : Type} `{!Apic D, !ApicLaws D, !Ata A, !AtaLaws A}.
Notation sys := (sys (D := D) (A := A)).

Definition relock (L : gmap Z spinlock) (b : boot (D := D)) : boot :=
  set_b_km (set_km_mach (set_locks L (km_mach (b_km b))) (b_km b)) b.

(** A lock that has been initialised. *)
Definition add_lock (a : Z) (name : string) (s : sys) : sys :=
  set_s_b (relock (<[a := Spinlock 0 name None]> (locks (km_mach (b_km (s_b s))))) (s_b s)) s.

Lemma lockM_initlock a name s : lockM (initlock a name) s = Ret tt (add_lock a name s).
Proof. done. Qed.

Definition mp_on (s : sys) : Prop := Mp.ismp (l_mp (b_lap (s_b s))) <> 0.

Lemma irqs_on_get M lp li (s : sys) : irqs_on M lp li (s_chips s) -> irqs_on M lp li (get_chips s).
Proof. intros []. by constructor. Qed.

Lemma pic_step M lp li i (s : sys) : irqs_on M lp li (s_chips s) -> 0 <= i < 16 ->
  exists c, chipsM (picenable i) s = Ret tt (set_s_chips c s) /\ irqs_on M (i :: lp) li c.
Proof.
  intros [Hm Hp Ha]%irqs_on_get Hi. destruct (picenable_ok i (get_chips s) Hi) as (c & E & M1 & R1 & B1). exists c. split; [by apply zoom_Ret|].
  constructor; [done| |by rewrite R1]. intros b Hb. rewrite B1 by done. rewrite elem_of_cons. specialize (Hp b Hb).
  destruct (Z.eqb_spec i b) as [->|Hne]; [rewrite andb_false_r; tauto|]. rewrite andb_true_r, Hp. naive_solver.
Qed.

Lemma io_step M lp li i n (s : sys) : irqs_on M lp li (s_chips s) -> mp_on s -> 0 <= i < 16 -> 0 <= n < 256 ->
  exists c, chipsM (ioapicenable i n) s = Ret tt (set_s_chips c s) /\ irqs_on M lp (i :: li) c.
Proof.
  intros [Hm Hp Ha]%irqs_on_get Hs Hi Hn. destruct (ioapicenable_ok (get_chips s) i n Hs) as (c & E & (S1 & S2 & _) & _ & R1); [lia|done|].
  exists c. split; [by apply zoom_Ret|]. constructor; [unfold masks; by rewrite S1, S2|by rewrite S1|].
  intros k Hk. rewrite R1 by lia. destruct (decide (k = i)) as [->|Hne]; [by rewrite decide_True by set_solver|]. rewrite Ha by done.
  by destruct (decide (k ∈ li)); [rewrite decide_True by set_solver|rewrite decide_False by set_solver].
Qed.

Lemma out_step M lp li port v (s : sys) : irqs_on M lp li (s_chips s) -> port <> 0x21 -> port <> 0xA1 ->
  exists c, chipsM (Irqchips.outb port v) s = Ret tt (set_s_chips c s) /\ irqs_on M lp li c.
Proof.
  intros [[M1 M2] Hp Ha]%irqs_on_get H1 H2. eexists. split; [by apply zoom_Ret|]. constructor; [|done|done].
  unfold masks in *. cbn [ports set_ports irqmask]. rewrite !last_out_snoc. cbn [fst snd].
  destruct (Z.eqb_spec port 0x21), (Z.eqb_spec port 0xA1); done.
Qed.

Lemma consM_modify f (s : sys) : consM (modify f) s = Ret tt (set_s_cons (f (s_cons s)) s).
Proof. done. Qed.

Lemma consoleinit_ok M lp li (s : sys) : irqs_on M lp li (s_chips s) -> mp_on s ->
  exists c k dw, consoleinit s = Ret tt (set_s_chips c (set_s_cons k (set_s_devsw dw (add_lock cons_lock "console" s)))) /\ irqs_on M (IRQ_KBD :: lp) (IRQ_KBD :: li) c /\
    dw_read dw !! CONSOLE = Some Consoleread /\ dw_write dw !! CONSOLE = Some Consolewrite.
Proof.
  intros Hi Hm. unfold consoleinit. rewrite (bind_Ret _ _ _ _ _ (lockM_initlock _ _ s)), !modify_bind. rewrite (bind_Ret _ _ _ _ _ (consM_modify _ _)).
  set (s1 := set_s_cons _ _). destruct (pic_step M lp li IRQ_KBD s1 Hi ltac:(done)) as (c1 & E1 & H1). rewrite (bind_Ret _ _ _ _ _ E1).
  destruct (io_step M (IRQ_KBD :: lp) li IRQ_KBD 0 (set_s_chips c1 s1) H1 Hm ltac:(done) ltac:(lia)) as (c2 & E2 & H2). exists c2. eexists _, _. split; [exact E2|]. split; [done|].
  split; apply lookup_insert_eq.
Qed.

(** uartinit enables its interrupt if there is a port. *)
Definition com1 (status : Z) : list Z := if status =? 0xFF then [] else [IRQ_COM1].

Lemma uartinit_ok status M lp li (s : sys) : irqs_on M lp li (s_chips s) -> mp_on s ->
  exists c k i, uartinit status s = Ret tt (set_s_chips c (set_s_cons k (set_s_ins i s))) /\ irqs_on M (com1 status ++ lp) (com1 status ++ li) c.
Proof.
  intros Hi Hm. unfold uartinit, com1.
  do 7 (match goal with |- context [bind (chipsM (Irqchips.outb ?p ?v)) _ ?t] =>
    let c := fresh "c" in let E := fresh "E" in let H := fresh "H" in
    destruct (out_step M lp li p v t) as (c & E & H); [done|done|done|rewrite (bind_Ret _ _ _ _ _ E)] end).
  unfold in_port. rewrite modify_bind. destruct (status =? 0xFF). { by eexists _, (s_cons s), _. }
  rewrite (bind_Ret _ _ _ _ _ (consM_modify _ _)), !modify_bind. set (s1 := set_s_ins _ _).
  destruct (pic_step M lp li IRQ_COM1 s1) as (c7 & E7 & H7); [done|done|]. rewrite (bind_Ret _ _ _ _ _ E7).
  destruct (io_step M (IRQ_COM1 :: lp) li IRQ_COM1 0 (set_s_chips c7 s1)) as (c8 & E8 & H8); [done|done|done|lia|]. rewrite (bind_Ret _ _ _ _ _ E8).
  destruct (announce_ok (bytes "xv6..." ++ [10]) (s_cons (set_s_chips c8 (set_s_chips c7 s1)))) as [k Ek]. exists c8, k, (((s_ins s ++ [COM1 + 5]) ++ [COM1 + 2]) ++ [COM1 + 0]). split; [|done].
  unfold consM. rewrite (zoom_Ret _ _ _ _ _ _ Ek). f_equal.
Qed.

Lemma ideinit_ok fuel M lp li (s : sys) m c : irqs_on M lp li (s_chips s) -> mp_on s -> ata (i_dev (s_ide s)) m c -> (patience <= fuel)%nat ->
  1 <= ncpu (l_mp (b_lap (s_b s))) <= 256 ->
  exists c' i, ideinit fuel s = Ret tt (set_s_ide i (set_s_chips c' (add_lock ide_lock "ide" s))) /\ irqs_on M (IRQ_IDE :: lp) (IRQ_IDE :: li) c'.
Proof.
  intros Hi Hm Hd Hf Hn. unfold ideinit. rewrite (bind_Ret _ _ _ _ _ (lockM_initlock _ _ s)). set (s1 := add_lock _ _ s).
  destruct (pic_step M lp li IRQ_IDE s1 Hi ltac:(done)) as (c1 & E1 & H1). rewrite (bind_Ret _ _ _ _ _ E1), gets_bind.
  destruct (io_step M (IRQ_IDE :: lp) li IRQ_IDE (ncpu (l_mp (b_lap (s_b s))) - 1) (set_s_chips c1 s1) H1 Hm ltac:(done) ltac:(lia)) as (c2 & E2 & H2).
  rewrite (bind_Ret _ _ _ _ _ E2). destruct (ideprobe_ok fuel (s_ide s) m c Hd Hf) as [i Ei]. exists c2, i. split; [|done].
  by rewrite (zoom_Ret s_ide set_s_ide (ideprobe fuel) (set_s_chips c2 (set_s_chips c1 s1)) tt i Ei).
Qed.

(** The locks of the components, on top of [L]. *)
Definition dev_locks (L : gmap Z spinlock) : gmap Z spinlock :=
  foldl (fun L '(a, name) => <[a := Spinlock 0 name None]> L) L
    [(cons_lock, "console"); (ptable_lock, "ptable"); (tickslock, "time"); (bcache_lock, "bcache"); (ftable_lock, "ftable"); (ide_lock, "ide")]%string.

Definition dev_irqs (status : Z) : list Z := IRQ_IDE :: com1 status ++ [IRQ_KBD].

Lemma controllers_ok (s : sys) : irqmask (s_chips s) = irqmask0 -> mp_on s ->
  exists c1 c2, chipsM picinit s = Ret tt (set_s_chips c1 s) /\ chipsM ioapicinit (set_s_chips c1 s) = Ret tt (set_s_chips c2 s) /\
    irqs_on (maxintr (s_chips s)) [] [] c2.
Proof.
  intros Hi Hm. destruct (picinit_ok (get_chips s)) as (c1 & E1 & I1 & M1 & R1); [by cbn; rewrite Hi|].
  destruct (ioapicinit_ok (get_chips (set_s_chips c1 s)) Hm) as (c2 & E2 & (S1 & S2 & _) & R2). exists c1, c2. split_and!.
  - by apply zoom_Ret.
  - unfold chipsM. by rewrite (zoom_Ret _ _ _ _ _ _ E2).
  - constructor; [unfold masks; by rewrite S1, S2| |].
    + intros b Hb. rewrite S1. cbn. rewrite I1. cbn. rewrite Hi, irqmask0_bits by done. unfold IRQ_SLAVE. destruct (Z.eqb_spec b 2); cbn; set_solver by lia.
    + intros k Hk. rewrite R2; [by rewrite decide_False by set_solver|]. unfold maxintr in *. cbn. by rewrite R1.
Qed.

(** The process table, the interrupt table, the buffers and the files. *)
Lemma tables_ok vectors (s : sys) :
  exists t, (forall k : M sys unit, (pinit ;; tvinit_ vectors ;; binit_ ;; fileinit ;; k) s = k t) /\
    s_b t = s_b (add_lock ftable_lock "ftable" (add_lock bcache_lock "bcache" (add_lock tickslock "time" (add_lock ptable_lock "ptable" s)))) /\
    s_kpgdir t = s_kpgdir s /\ s_seg t = s_seg s /\ s_chips t = s_chips s /\ s_ide t = s_ide s /\ s_devsw t = s_devsw s.
Proof. eexists. split; [intros k; reflexivity|done]. Qed.

Lemma devices_ok status vectors fuel fmt n (s : sys) m c : irqmask (s_chips s) = irqmask0 -> mp_on s -> ata (i_dev (s_ide s)) m c -> (patience <= fuel)%nat ->
  1 <= ncpu (l_mp (b_lap (s_b s))) <= 256 ->
  exists s', (forall k : M sys unit, (tell fmt n ;; chipsM picinit ;; chipsM ioapicinit ;; consoleinit ;; uartinit status ;; pinit ;; tvinit_ vectors ;; binit_ ;; fileinit ;;
      ideinit fuel ;; i <- gets (fun s => Mp.ismp (l_mp (b_lap (s_b s)))) ;; (if i =? 0 then chipsM timerinit else ret tt) ;; k) s = k s') /\
    s_b s' = relock (dev_locks (locks (km_mach (b_km (s_b s))))) (s_b s) /\ s_kpgdir s' = s_kpgdir s /\ s_seg s' = s_seg s /\
    irqs_on (maxintr (s_chips s)) (dev_irqs status) (dev_irqs status) (s_chips s') /\
    dw_read (s_devsw s') !! CONSOLE = Some Consoleread /\ dw_write (s_devsw s') !! CONSOLE = Some Consolewrite.
Proof.
  intros Hi Hm Hd Hf Hn. set (s1 := set_s_out (s_out s ++ [(fmt, n)]) s). destruct (controllers_ok s1 Hi Hm) as (c1 & c2 & E1 & E2 & H2).
  destruct (consoleinit_ok _ _ _ (set_s_chips c2 s1) H2 Hm) as (c3 & k3 & dw & E3 & H3 & Dr & Dw). set (s3 := set_s_chips c3 _) in *.
  destruct (uartinit_ok status _ _ _ s3 H3 Hm) as (c4 & k4 & i4 & E4 & H4). set (s4 := set_s_chips c4 _) in *.
  destruct (tables_ok vectors s4) as (t & Et & Bt & Kt & Gt & Ct & It & Wt). change c4 with (s_chips s4) in H4. rewrite <- Ct in H4.
  assert (mp_on t) as Hmt by (unfold mp_on; by rewrite Bt).
  destruct (ideinit_ok fuel _ _ _ t m c H4 Hmt) as (c5 & i5 & E5 & H5); [by rewrite It|done|by rewrite Bt|]. eexists. split.
  { intros k. unfold tell. rewrite modify_bind. rewrite (bind_Ret _ _ _ _ _ E1), (bind_Ret _ _ _ _ _ E2), (bind_Ret _ _ _ _ _ E3), (bind_Ret _ _ _ _ _ E4), Et.
    rewrite (bind_Ret _ _ _ _ _ E5), gets_bind. unfold mp_on in Hmt. cbn [s_b set_s_ide set_s_chips add_lock set_s_b relock b_lap set_b_km].
    rewrite (proj2 (Z.eqb_neq _ _) Hmt). apply ret_bind. }
  cbn [s_devsw set_s_ide set_s_chips add_lock set_s_b]. rewrite Wt.
  split_and!; [|exact Kt|exact Gt|done|exact Dr|exact Dw]. cbn [s_b set_s_ide set_s_chips add_lock set_s_b]. rewrite Bt. done.
Qed.
End devices.

(** * From the first page to the processor's number *)

Section boot.
Context {D A : Type} `{!Apic D, !ApicLaws D, !Ata A, !AtaLaws A}.
Notation sys := (sys (D := D) (A := A)).

(** The state entry.S leaves, with the tables of the firmware. *)
Record at_boot (s : sys) (mp conf q : Z) (es : list entry) (me : nat) : Prop := {
  ab_free : freelist (b_km (s_b s)) = 0;
  ab_cpu : is_Some (Spinlock.cpus (km_mach (b_km (s_b s))) !! this (km_mach (b_km (s_b s))));
  ab_mps : l_mp (b_lap (s_b s)) = mps0;
  ab_conf : mpconfig (ram (b_km (s_b s))) = Some (mp, conf);
  ab_entries : entries_to (ram (b_km (s_b s))) (conf + sizeof_mpconf) es q (conf + conf_length (ram (b_km (s_b s))) conf);
  ab_below : tables_below end_ (ram (b_km (s_b s))) conf q;
  ab_lapic : conf_lapicaddr (ram (b_km (s_b s))) conf <> 0;
  ab_few : (length (processors es) <= 8)%nat;
  ab_ids : NoDup (processors es) /\ Forall (fun id => 0 <= id < 256) (processors es);
  ab_me : processors es !! me = Some (apic_id (l_dev (b_lap (s_b s))));
  ab_aps : b_aps (s_b s) = [];
  ab_started : forall i, (i < length (processors es))%nat -> b_started (s_b s) !! i = Some 0;
  ab_irqmask : irqmask (s_chips s) = irqmask0;
  ab_disk : exists m, ata (i_dev (s_ide s)) m None
}.

(** The memory: page table [d], [T] made of [used], and [free]. *)
Record mapped_kernel (k : kmem) (d : Z) (T : gmap Z Z) (used free : list Z) : Prop := {
  mk_free : kmem_ok k free;
  mk_dir : pgdir_ok (ram k) d T;
  mk_used : forall p, ptpage d T p <-> p ∈ used;
  mk_pte : forall n, 0 <= n < 1048576 -> pte (ram k) T n = kpte n
}.

Lemma set_ram_same k : set_ram (ram k) k = k.
Proof. by destruct k. Qed.

Lemma seginit_ok v c : Spinlock.cpus (km_mach (v_km v)) !! this (km_mach (v_km v)) = Some c ->
  exists v', seginit v = Ret tt v' /\ kpgdir v' = kpgdir v /\ cr3 (v_seg v') = cr3 (v_seg v) /\
    v_km v' = set_km_mach (with_cpu (set_cpu_proc None c) (km_mach (v_km v))) (v_km v).
Proof.
  intros Hc. eexists. split.
  { unfold seginit, seg. rewrite !modify_bind. unfold km, kmachM. apply zoom_Ret, zoom_Ret, upd_cpu_eq. exact Hc. }
  done.
Qed.

(** kinit1 and kvmalloc *)
Lemma paging_ok (s : sys) : freelist (b_km (s_b s)) = 0 ->
  exists s1 d T used free, (forall k : M sys unit, (bootM (kmM (kinit1 end_ mid)) ;; vM kvmalloc ;; k) s = k s1) /\
    s1 = set_v (get_v s1) s /\ mapped_kernel (b_km (s_b s1)) d T used free /\ rev pages1 = used ++ free /\ (length used <= 65)%nat /\
    s_kpgdir s1 = d /\ cr3 (s_seg s1) = V2P d /\ use_lock (b_km (s_b s1)) = 0 /\
    km_mach (b_km (s_b s1)) = (let m := km_mach (b_km (s_b s)) in set_locks (<[kmem_lock := Spinlock 0 "kmem" None]> (locks m)) m) /\
    forall x, x < end_ -> ram (b_km (s_b s1)) x = ram (b_km (s_b s)) x.
Proof.
  intros H0. destruct (kinit1_ok _ H0) as (k1 & E1 & K1 & U1 & M1 & R1).
  set (t := set_s_b (set_b_km k1 (s_b s)) s). assert (bootM (kmM (kinit1 end_ mid)) s = Ret tt t) as Et by (by apply zoom_Ret, zoom_Ret).
  destruct (kvmalloc_ok (get_v t) (rev pages1) K1) as (v & free & used & T & E2 & (U2 & [_ M2] & _) & K2 & F2 & L2 & P2 & Q2 & Z2 & G2 & R2); [by left|rewrite length_rev, pages1_length; lia|].
  exists (set_v v t), (kpgdir v), T, used, free. split_and!; [|done|by constructor|exact F2|exact L2|done|..].
  - intros k. rewrite (bind_Ret _ _ _ _ _ Et). unfold vM. by rewrite (bind_Ret _ _ _ _ _ (zoom_Ret _ _ _ _ _ _ E2)).
  - cbn. by rewrite G2.
  - cbn. by rewrite U2.
  - cbn. by rewrite M2.
  - intros x Hx. cbn. change (ram (v_km v)) with (vmem v). rewrite R2; [apply R1; unfold end_ in Hx; lia|].
    intros Hin. assert (pb x ∈ rev pages1) as Hp by (rewrite F2; apply elem_of_app; by left). apply elem_of_rev, pages1_iff in Hp.
    unfold end_ in Hx. pose proof (Z.mul_div_le x 4096). unfold pb in Hp. lia.
Qed.
(** mpinit, lapicinit, seginit and cpunum *)
Lemma processor_ok (s : sys) imcr eflags ra fuel mp conf q es me c :
  let m := ram (b_km (s_b s)) in let ids := processors es in
  l_mp (b_lap (s_b s)) = mps0 -> mpconfig m = Some (mp, conf) -> entries_to m (conf + sizeof_mpconf) es q (conf + conf_length m conf) ->
  conf + conf_length m conf <= q -> conf_lapicaddr m conf <> 0 -> (length ids <= 8)%nat -> NoDup ids -> ids !! me = Some (apic_id (l_dev (b_lap (s_b s)))) ->
  Spinlock.cpus (km_mach (b_km (s_b s))) !! this (km_mach (b_km (s_b s))) = Some c -> (length es < fuel)%nat -> (delay < fuel)%nat ->
  exists s', (forall k : Z -> M sys unit, (mpinit_ imcr fuel ;; bootM (lapM (lapicinit fuel)) ;; vM seginit ;; n <- bootM (lapM (cpunum eflags ra)) ;; k n) s = k (Z.of_nat me) s') /\
    b_km (s_b s') = set_km_mach (with_cpu (set_cpu_proc None c) (km_mach (b_km (s_b s)))) (b_km (s_b s)) /\
    table ids (s_b s') /\ mp_on s' /\ apic_id (l_dev (b_lap (s_b s'))) = apic_id (l_dev (b_lap (s_b s))) /\
    b_aps (s_b s') = b_aps (s_b s) /\ b_started (s_b s') = b_started (s_b s) /\
    s_kpgdir s' = s_kpgdir s /\ cr3 (s_seg s') = cr3 (s_seg s) /\ s_chips s' = s_chips s /\ s_ide s' = s_ide s.
Proof.
  intros m ids H0 Hc Ht Hq Hl H8 Hnd Hme Hcpu Hf Hdel.
  set (r := mp_result m imcr mp conf es). set (s1 := set_mps r s). assert (mpinit_ imcr fuel s = Ret tt s1) as E1.
  { unfold mpinit_. apply zoom_Ret. cbv beta. rewrite H0. by apply (mpinit_finds_processors m imcr mp conf es q). }
  destruct (lapicinit_programs (get_lap (s_b s1)) fuel Hl Hdel) as (l2 & E2 & (M2 & R2 & I2) & _).
  set (s2 := set_s_b (set_lap l2 (s_b s1)) s1). assert (b_km (s_b s2) = b_km (s_b s)) as K2 by (cbn; rewrite R2; apply set_ram_same).
  assert (bootM (lapM (lapicinit fuel)) s1 = Ret tt s2) as E2' by (apply zoom_Ret, lapM_Ret, E2).
  destruct (seginit_ok (get_v s2) c) as (v & E3 & P3 & C3 & K3); [cbn [get_v v_km]; by rewrite K2|].
  set (s3 := set_v v s2). assert (vM seginit s2 = Ret tt s3) as E3' by (apply zoom_Ret, E3).
  assert (cpus r = ids ++ replicate (8 - length ids) 0 /\ ncpu r = Z.of_nat (length ids)) as [Rc Rn].
  { unfold r, mp_result, first8, ids in *. cbn [cpus ncpu]. rewrite take_ge by done. split; [done|lia]. }
  destruct (cpunum_ok eflags ra (get_lap (s_b s3)) ids (replicate (8 - length ids) 0) me) as (l4 & E4 & M4 & R4 & I4 & _); try (cbn; rewrite M2; done).
  { done. }
  { cbn. rewrite I2. done. }
  set (s4 := set_s_b (set_lap l4 (s_b s3)) s3). exists s4.
  assert (l_mp (b_lap (s_b s4)) = r) as Rf by (cbn; rewrite M4; cbn; by rewrite M2). split_and!.
  - intros k. rewrite (bind_Ret _ _ _ _ _ E1), (bind_Ret _ _ _ _ _ E2'), (bind_Ret _ _ _ _ _ E3'). unfold bootM. by rewrite (bind_Ret _ _ _ _ _ (zoom_Ret _ _ _ _ _ _ (lapM_Ret _ _ _ _ E4))).
  - change (b_km (s_b s4)) with (set_ram (l_mem l4) (v_km v)). rewrite R4. change (l_mem (get_lap (s_b s3))) with (ram (v_km v)). rewrite set_ram_same, K3. cbn [get_v v_km]. by rewrite K2.
  - split_and!; [eexists; by rewrite Rf|by rewrite Rf|by rewrite Rf|done].
  - unfold mp_on. by rewrite Rf.
  - cbn. rewrite I4. cbn. by rewrite I2.
  - done.
  - done.
  - cbn. by rewrite P3.
  - cbn. by rewrite C3.
  - done.
  - done.
Qed.
(** The page table is kept by what is written elsewhere. *)
Lemma mapped_kernel_kept k k' d T used free free' :
  mapped_kernel k d T used free -> kmem_ok k' free' -> (forall p, p ∈ used -> p ∈ pages1) -> (forall x, end_ <= x < mid -> ram k' x = ram k x) ->
  mapped_kernel k' d T used free'.
Proof.
  intros [_ Hd Hu Hp] Hk Hin Hx. destruct (pgdir_frame (ram k) (ram k') d T Hd) as [Hd' Hp'].
  { intros x Hpt. apply Hu, Hin, pages1_iff in Hpt. apply Hx. unfold end_, pb in *. change mid with 0x80400000. pose proof (Z.mul_div_le x 4096).
    pose proof (Z.mul_succ_div_gt x 4096). lia. }
  constructor; try done. intros n Hn. rewrite Hp' by done. by apply Hp.
Qed.

Lemma in_pages1 used free p : rev pages1 = used ++ free -> p ∈ used \/ p ∈ free <-> p ∈ pages1.
Proof. intros E. rewrite <- elem_of_app, <- E. apply elem_of_rev. Qed.

Lemma mapped_kernel_mach m k d T used free : mapped_kernel k d T used free -> mapped_kernel (set_km_mach m k) d T used free.
Proof. intros [[] ? ? ?]. by constructor. Qed.

(** startothers and kinit2 *)
Lemma others_ok (s : sys) who eflags ra fuel n d T used free ids me :
  let my := apic_id (l_dev (b_lap (s_b s))) in
  mapped_kernel (b_km (s_b s)) d T used free -> rev pages1 = used ++ free -> (length used <= 65)%nat -> use_lock (b_km (s_b s)) = 0 ->
  table ids (s_b s) -> Forall (fun id => 0 <= id < 256) ids -> (length ids <= 8)%nat -> ids !! me = Some my -> b_aps (s_b s) = [] ->
  (forall i, (i < length ids)%nat -> b_started (s_b s) !! i = Some 0) ->
  (forall k i, (k < length (others my ids))%nat -> (4 <= moves who k i n)%nat) -> (n < fuel)%nat ->
  exists s' stacks free', (bootM (startothers who fuel eflags ra) ;; bootM (kmM (kinit2 mid (P2V PHYSTOP)))) s = Ret tt s' /\
    mapped_kernel (b_km (s_b s')) d T used (rev pages2 ++ free') /\ free = stacks ++ free' /\ use_lock (b_km (s_b s')) = 1 /\
    b_aps (s_b s') = zip_with (progress 4) (others my ids) stacks /\ length stacks = length (others my ids) /\
    locks (km_mach (b_km (s_b s'))) = locks (km_mach (b_km (s_b s))) /\
    s_kpgdir s' = s_kpgdir s /\ s_seg s' = s_seg s /\ s_chips s' = s_chips s /\ s_devsw s' = s_devsw s.
Proof.
  intros my Hk Hr Hu H0 Ht Hids H8 Hme Ha Hst Hfair Hf.
  assert (length (others my ids) <= length free)%nat as Hlen.
  { assert (length (others my ids) <= length ids)%nat by apply length_filter. pose proof pages1_length as Hp. rewrite <- length_rev, Hr, length_app in Hp. lia. }
  destruct (startothers_ok who (s_b s) fuel n eflags ra free ids me my (mk_free _ _ _ _ _ Hk) (or_introl H0) Ht Hids eq_refl Hme Hlen Ha Hst Hfair Hf)
    as (b & stacks & free' & E & [U1 U2 (_ & [U3 _] & U3') _ _ U6 U7 _ U9]). rewrite take_ge in U6, U7 by lia.
  destruct (kinit2_ok (b_km b) free' U2 U3') as (k & E2 & K2 & L2 & M2 & R2).
  { intros p Hp. apply (in_pages1 _ _ _ Hr). right. rewrite U1. apply elem_of_app. by right. }
  eexists (set_s_b (set_b_km k b) (set_s_b b s)), stacks, free'. split_and!; try done.
  - unfold bootM. rewrite (bind_Ret _ _ _ _ _ (zoom_Ret _ _ _ _ _ _ E)). apply zoom_Ret, zoom_Ret, E2.
  - apply (mapped_kernel_kept (b_km (s_b s)) k d T used free); [done|done| |].
    + intros p Hp. apply (in_pages1 _ _ _ Hr). by left.
    + intros x Hx. rewrite R2 by lia. rewrite U9 by (right; lia). rewrite memmove_spec by done. unfold end_ in Hx.
      rewrite (proj2 (Z.ltb_ge x (code + binary_entryother_size))) by (change (code + binary_entryother_size) with 0x8000708a; lia). by rewrite andb_false_r.
  - cbn. by rewrite M2.
Qed.

(** Every page is in exactly one of the lists. *)
Lemma pages_split used stacks free : rev pages1 = used ++ stacks ++ free ->
  NoDup (used ++ stacks ++ rev pages2 ++ free) /\ forall p, page_ok p <-> p ∈ used \/ p ∈ stacks \/ p ∈ rev pages2 ++ free.
Proof.
  intros E. split.
  - assert (used ++ stacks ++ rev pages2 ++ free ≡ₚ rev pages2 ++ rev pages1) as ->
      by (rewrite E, (app_assoc used stacks), (app_assoc used stacks), Permutation_app_swap_app; done).
    apply NoDup_app. split_and!; [rewrite <- Permutation_rev; apply NoDup_pages12| |rewrite <- Permutation_rev; apply NoDup_pages12].
    intros p Hp Hp'. rewrite elem_of_rev, pages2_iff in Hp. rewrite elem_of_rev, pages1_iff in Hp'. lia.
  - intros p. rewrite page_ok_iff, <- (in_pages1 used (stacks ++ free) p E), !elem_of_app, elem_of_rev. tauto.
Qed.

Definition all_locks : list (Z * string) :=
  [(kmem_lock, "kmem"); (cons_lock, "console"); (ptable_lock, "ptable"); (tickslock, "time"); (bcache_lock, "bcache"); (ftable_lock, "ftable"); (ide_lock, "ide")]%string.

Lemma all_locks_ok L : Forall (fun '(a, name) => dev_locks (<[kmem_lock := Spinlock 0 "kmem" None]> L) !! a = Some (Spinlock 0 name None)) all_locks.
Proof. repeat constructor; cbn [dev_locks foldl]; repeat (rewrite lookup_insert_eq || rewrite lookup_insert_ne by done); done. Qed.
End boot.

(** C15: when main has initialised everything, all of the memory above the
    kernel is accounted for: every page is a page of the kernel's page table,
    the stack of one other processor or free, and only one of these.  The page
    table, at most 65 pages of the four megabytes kinit1 frees, has the
    kernel's mappings and is the one in use, undisturbed by what came after.
    Every other processor of the firmware's table runs at mpenter on its own
    stack, the locks are free, and exactly the interrupts of the disk, the
    serial port, if there is one, and the keyboard are let through.  Reads and
    writes of the console device go to the console's functions. *)
Theorem main_readies_kernel {D A : Type} `{!Apic D, !ApicLaws D, !Ata A, !AtaLaws A} who imcr status vectors eflags ra fuel n (s : sys (D := D) (A := A)) mp conf q es me :
  let my := apic_id (l_dev (b_lap (s_b s))) in let ids := processors es in
  at_boot s mp conf q es me -> (length es < fuel)%nat -> (delay < fuel)%nat -> (patience <= fuel)%nat -> (n < fuel)%nat ->
  (forall k i, (k < length (others my ids))%nat -> (4 <= moves who k i n)%nat) ->
  exists s' T used stacks free, main_init who imcr status vectors eflags ra fuel s = Ret tt s' /\
    mapped_kernel (b_km (s_b s')) (s_kpgdir s') T used free /\ cr3 (s_seg s') = V2P (s_kpgdir s') /\
    (length used <= 65)%nat /\ NoDup (used ++ stacks ++ free) /\ (forall p, page_ok p <-> p ∈ used \/ p ∈ stacks \/ p ∈ free) /\
    length stacks = length (others my ids) /\
    b_aps (s_b s') = zip_with (fun id stack => Ap id 0x7000 4 (V2P entrypgdir) (stack + KSTACKSIZE) mpenter) (others my ids) stacks /\
    use_lock (b_km (s_b s')) = 1 /\
    Forall (fun '(a, name) => locks (km_mach (b_km (s_b s'))) !! a = Some (Spinlock 0 name None)) all_locks /\
    irqs_on (maxintr (s_chips s)) (dev_irqs status) (dev_irqs status) (s_chips s') /\
    dw_read (s_devsw s') !! CONSOLE = Some Consoleread /\ dw_write (s_devsw s') !! CONSOLE = Some Consolewrite.
Proof.
  intros my ids [A1 [c A2] A3 A4 A5 A6 A7 A8 [A9 A9'] A10 A11 A12 A13 [m A14]] F1 F2 F3 F4 Hfair.
  destruct (paging_ok s A1) as (s1 & d & T & used & free & E1 & S1 & K1 & P1 & L1 & D1 & C1 & U1 & M1 & R1).
  destruct (mpconfig_kept end_ _ _ R1 mp conf q A6 A4) as (B1 & B2 & B3 & _).
  destruct (entries_kept end_ _ _ R1 es _ _ _ A5 (tb_entries _ _ _ _ A6)) as [_ B5]. rewrite <- B2 in B5.
  assert (b_lap (s_b s1) = b_lap (s_b s) /\ b_aps (s_b s1) = b_aps (s_b s) /\ b_started (s_b s1) = b_started (s_b s) /\ s_chips s1 = s_chips s /\ s_ide s1 = s_ide s)
    as (G1 & G2 & G3 & G4 & G5) by (by rewrite S1).
  destruct (processor_ok s1 imcr eflags ra fuel mp conf q es me c) as (s2 & E2 & K2 & T2 & O2 & I2 & Q2 & Q2' & D2 & C2 & H2 & H2');
    rewrite ?G1, ?M1; try done; [by rewrite B2; apply A6|congruence|]. rewrite ?G1, ?G2, ?G3, ?G4, ?G5, ?M1 in *.
  assert (1 <= ncpu (l_mp (b_lap (s_b s2))) <= 256) as Hn. { destruct T2 as (_ & -> & _). pose proof (lookup_lt_Some _ _ _ A10). unfold ids in *. lia. }
  destruct (devices_ok status vectors fuel "cpu%d: starting xv6" (Z.of_nat me) s2 m None) as (s3 & E3 & B3' & D3 & C3 & J3 & W3 & W3'); [by rewrite H2|done|by rewrite H2'|done|done|].
  assert (mapped_kernel (b_km (s_b s3)) d T used free) as K3 by (rewrite B3'; apply mapped_kernel_mach; rewrite K2; by apply mapped_kernel_mach).
  destruct (others_ok s3 who eflags ra fuel n d T used free ids me) as (s4 & stacks & free' & E4 & K4 & P4 & U4 & S4 & N4 & Y4 & D4 & C4 & J4 & W4);
    rewrite ?B3'; cbn [relock b_lap b_aps b_started set_b_km]; rewrite ?I2, ?Q2, ?Q2'; try done.
  { by rewrite <- B3'. }
  { cbn. by rewrite K2. }
  rewrite P4 in P1. destruct (pages_split used stacks free' P1) as [X1 X2]. exists s4, T, used, stacks, (rev pages2 ++ free').
  assert (s_kpgdir s4 = d) as Hd by congruence. rewrite Hd.
  assert (apic_id (l_dev (b_lap (s_b s3))) = my) as Hmy by (rewrite B3'; exact I2). rewrite Hmy in N4, S4.
  split_and!; [|exact K4|congruence|exact L1|exact X1|exact X2|exact N4|exact S4|exact U4| | |by rewrite W4|by rewrite W4].
  - unfold main_init. fold mid. rewrite E1, E2. cbv beta. rewrite E3. exact E4.
  - rewrite Y4, B3'. unfold relock. rewrite K2. apply all_locks_ok.
  - by rewrite J4, <- H2.
Qed.

(** mpenter and mpmain: a processor that has been started takes the kernel's
    page table, the segments and the interrupt table, programs its local APIC
    and sets its own flag, the only one, before it enters the scheduler. *)
Theorem mpenter_joins {D A : Type} `{!Apic D, !ApicLaws D} eflags ra fuel (s : sys (D := D) (A := A)) ids i c :
  table ids (s_b s) -> ids !! i = Some (apic_id (l_dev (b_lap (s_b s)))) -> (i < length (b_started (s_b s)))%nat ->
  Spinlock.cpus (km_mach (b_km (s_b s))) !! this (km_mach (b_km (s_b s))) = Some c -> (delay < fuel)%nat ->
  exists s', mpenter_init eflags ra fuel s = Ret tt s' /\ cr3 (s_seg s') = V2P (s_kpgdir s) /\ s_idtr s' = (2047, idt_addr) /\
    programmed (fun j => reg j (l_dev (b_lap (s_b s')))) /\ b_started (s_b s') = <[i := 1]> (b_started (s_b s)) /\
    s_out s' = s_out s ++ [("cpu%d: starting"%string, Z.of_nat i)] /\
    b_km (s_b s') = set_km_mach (with_cpu (set_cpu_proc None c) (km_mach (b_km (s_b s)))) (b_km (s_b s)).
Proof.
  intros ((rest & Hc) & Hn & Hl & Hnd) Hi Hst Hcpu Hf. unfold mpenter_init. set (s1 := set_v (set_v_seg (set_cr3 (V2P (s_kpgdir s)) (s_seg s)) (get_v s)) s).
  assert (vM switchkvm s = Ret tt s1) as E1 by done. rewrite (bind_Ret _ _ _ _ _ E1).
  destruct (seginit_ok (get_v s1) c Hcpu) as (v & E2 & P2 & C2 & K2). set (s2 := set_v v s1). assert (vM seginit s1 = Ret tt s2) as E2' by (apply zoom_Ret, E2).
  rewrite (bind_Ret _ _ _ _ _ E2'). destruct (lapicinit_programs (get_lap (s_b s2)) fuel Hl Hf) as (l3 & E3 & (M3 & R3 & I3) & Pr).
  set (s3 := set_s_b (set_lap l3 (s_b s2)) s2). assert (bootM (lapM (lapicinit fuel)) s2 = Ret tt s3) as E3' by (apply zoom_Ret, lapM_Ret, E3).
  rewrite (bind_Ret _ _ _ _ _ E3'). unfold mpmain_init.
  destruct (cpunum_ok eflags ra (get_lap (s_b s3)) ids rest i) as (l4 & E4 & M4 & R4 & I4 & G4); try (cbn; rewrite ?M3, ?I3; done).
  set (s4 := set_s_b (set_lap l4 (s_b s3)) s3). assert (bootM (lapM (cpunum eflags ra)) s3 = Ret (Z.of_nat i) s4) as E4' by (apply zoom_Ret, lapM_Ret, E4).
  rewrite (bind_Ret _ _ _ _ _ E4'). unfold tell. rewrite !modify_bind. eexists. split.
  { apply zoom_Ret. rewrite gets_bind. cbn [b_started s_b set_s_idtr set_s_out s4 set_s_b set_lap s3 s2 set_v set_b_km s1]. rewrite arr_set_nat by done. unfold get_opt. by rewrite ret_bind. }
  split_and!; try done.
  - cbn. unfold programmed in *. rewrite !G4. exact Pr.
  - match goal with |- ?k = _ => change k with (set_ram (l_mem l4) (set_ram (l_mem l3) (v_km v))) end. rewrite R4.
    change (l_mem (get_lap (s_b s3))) with (ram (set_ram (l_mem l3) (v_km v))). rewrite set_ram_same, R3.
    change (l_mem (get_lap (s_b s2))) with (ram (v_km v)). rewrite set_ram_same. exact K2.
Qed.

(** * Examples *)

#[local] Existing Instance simple_apic.
#[local] Existing Instance simple_apic_laws.

(** A machine with the tables of [Mp]: two processors, the first of which runs
    main, and a disk. *)
Definition ex_sys : sys (D := Z * (Z -> Z)) (A := ata_disk) :=
  Sys (Boot (Kmem mach0 0 0 ex_bios) (Lap mps0 (0, fun _ => 0) mem0 0 []) [] (replicate 8 0) 0) 0
    (Cpuseg 0 0 0 [] 0 0 0 (0, 0) 0 0 0) [] (Chips irqmask0 [] 0 (fun r => if r =? REG_VER then 0x170000 else 0) 0 0 []) [] (0, 0) blank
    (Bio [] [] [] [] 0) (Ide [] [] None 0 (Disk 0 0 0 0 0 (fun _ _ => []) Working)) [] (Devsw_table ∅ ∅) [].

Lemma ex_sys_at_boot : at_boot ex_sys (P2V 0xF0020) (P2V 0xF0100) (P2V 0xF0100 + 100) [Processor 0; Processor 1; Other 1; Ioapic 2] 0.
Proof.
  constructor; cbn [ex_sys s_b b_km b_lap b_aps b_started ram l_mp l_dev s_chips s_ide i_dev irqmask freelist km_mach].
  - done.
  - by eexists.
  - done.
  - vm_compute. reflexivity.
  - cbn [entries_to entry_at esize]. split_and!; try (vm_compute; reflexivity). by left.
  - constructor; vm_compute; discriminate.
  - vm_compute. discriminate.
  - cbn. lia.
  - split; [cbn; apply NoDup_cons; split; [by intros ?%list_elem_of_singleton|apply NoDup_singleton]|repeat constructor; lia].
  - done.
  - done.
  - intros [|[|i]] Hi; [done|done|cbn in Hi; lia].
  - done.
  - by exists (fun _ _ => []).
Qed.

Lemma main_readies_kernel_witness :
  exists s' T used stacks free, main_init (fun _ => 0%nat) 0 0 [] 0 0 5 ex_sys = Ret tt s' /\
    mapped_kernel (b_km (s_b s')) (s_kpgdir s') T used free /\ cr3 (s_seg s') = V2P (s_kpgdir s') /\
    (length used <= 65)%nat /\ NoDup (used ++ stacks ++ free) /\ (forall p, page_ok p <-> p ∈ used \/ p ∈ stacks \/ p ∈ free) /\
    length stacks = length (others 0 [0; 1]) /\
    b_aps (s_b s') = zip_with (fun id stack => Ap id 0x7000 4 (V2P entrypgdir) (stack + KSTACKSIZE) mpenter) (others 0 [0; 1]) stacks /\
    use_lock (b_km (s_b s')) = 1 /\
    Forall (fun '(a, name) => locks (km_mach (b_km (s_b s'))) !! a = Some (Spinlock 0 name None)) all_locks /\
    irqs_on 23 (dev_irqs 0) (dev_irqs 0) (s_chips s') /\
    dw_read (s_devsw s') !! CONSOLE = Some Consoleread /\ dw_write (s_devsw s') !! CONSOLE = Some Consolewrite.
Proof.
  destruct (main_readies_kernel (fun _ => 0%nat) 0 0 [] 0 0 5 4 ex_sys (P2V 0xF0020) (P2V 0xF0100) (P2V 0xF0100 + 100) [Processor 0; Processor 1; Other 1; Ioapic 2] 0)
    as (s' & T & used & stacks & free & H).
  - exact ex_sys_at_boot.
  - cbn. lia.
  - cbn. lia.
  - cbn. lia.
  - lia.
  - intros [|k] i Hk; [cbn; lia|change (S k < 1)%nat in Hk; lia].
  - exists s', T, used, stacks, free. exact H.
Defined.

(** The second processor of that machine. *)
Lemma mpenter_joins_witness :
  let s := set_s_b (Boot kmem0 (Lap (Mps [0; 1; 0; 0; 0; 0; 0; 0] 1 2 2 0xFEE00000 []) (1, fun _ => 0) mem0 0 []) [] (replicate 8 0) 0) ex_sys in
  exists s' c, mpenter_init 0 0 5 s = Ret tt s' /\ cr3 (s_seg s') = V2P (s_kpgdir s) /\ s_idtr s' = (2047, idt_addr) /\
    programmed (fun j => reg j (l_dev (b_lap (s_b s')))) /\ b_started (s_b s') = [0; 1; 0; 0; 0; 0; 0; 0] /\
    s_out s' = [("cpu%d: starting"%string, 1)] /\
    b_km (s_b s') = set_km_mach (with_cpu (set_cpu_proc None c) mach0) kmem0.
Proof.
  intros s. destruct (Spinlock.cpus mach0 !! this mach0) as [c|] eqn:E; [|done].
  destruct (mpenter_joins 0 0 5 s [0; 1] 1 c) as (s' & H).
  - split_and!; [by eexists [_; _; _; _; _; _]|done|done|]. apply NoDup_cons. split; [|apply NoDup_singleton]. by intros ?%list_elem_of_singleton.
  - done.
  - cbn. lia.
  - exact E.
  - cbn. lia.
  - exists s', c. exact H.
Defined.
