(* ===== verification/Uprog.v ===== *)
(** User programs as trees of the calls they make, for the test programs of
    src/xv6-public (usertests.c, forktest.c, stressfs.c, test*.c).

    A program ends, exits, or makes a call and goes on with what it returns:
    a number, and bytes that read puts into memory.  fork is a call that
    returns 0 in the child; since the rest of the program is a function, a
    kernel can run it twice.  What only the processor and the kernel together
    can answer (a load from an address that may not be mapped, an instruction
    that needs a privilege) is a call too.  The text of a printf is one call. *)
From S2P Require Import Prelude CString Ulib.

Inductive ucall :=
| UOpen (path : list Z) (mode : Z)
| UClose (fd : Z)
| URead (fd n : Z)
| UWrite (fd : Z) (data : list Z)
| ULink (old new : list Z)
| UUnlink (path : list Z)
| UMkdir (path : list Z)
| UChdir (path : list Z)
| UFork
| UWait
| UKill (pid : Z)
| UGetpid
| USleep (n : Z)
| UUptime
| UNice (pid value : Z)
| UPipe
| UExec (path : list Z) (argv : list (list Z))
| USbrk (n : Z)
| UMalloc (n : Z)
| UFree (a : Z)
| ULoad (a : Z)
| UStore (a v : Z)
| UReadAt (fd a n : Z)
| ULinkAt (old : list Z) (a : Z)
| USleepAt (esp : Z)
| UOutb (port v : Z)
| UInb (port : Z)
| UPrint (fd : Z) (text : list Z).

#[export] Instance ucall_eq_dec : EqDecision ucall.
Proof. solve_decision. Defined.

(** [Stuck]: a loop was given too small a bound. *)
Inductive prog (A : Type) :=
| Done (a : A)
| Exit
| Stuck
| Call (c : ucall) (k : Z * list Z -> prog A).
Arguments Done {A} a.
Arguments Exit {A}.
Arguments Stuck {A}.
Arguments Call {A} c k.

Fixpoint pbind {A B} (p : prog A) (f : A -> prog B) : prog B :=
  match p with
  | Done a => f a
  | Exit => Exit
  | Stuck => Stuck
  | Call c k => Call c (fun r => pbind (k r) f)
  end.

(** A program with its array [buf], which a child gets a copy of. *)
Definition U (A : Type) : Type := list Z -> prog (A * list Z).

Definition uret {A} (a : A) : U A := fun b => Done (a, b).
Definition ubind {A B} (c : U A) (f : A -> U B) : U B := fun b => pbind (c b) (fun r => f r.1 r.2).
Definition exit_ {A} : U A := fun _ => Exit.
Definition stuck {A} : U A := fun _ => Stuck.
Definition ucall_ (c : ucall) : U (Z * list Z) := fun b => Call c (fun r => Done (r, b)).

Declare Scope prog_scope.
Delimit Scope prog_scope with prog.
Notation "x <- c ;; k" := (ubind c (fun x => k))
  (at level 100, c at next level, right associativity) : prog_scope.
Notation "c ;; k" := (ubind c (fun _ => k))
  (at level 100, right associativity) : prog_scope.

Section calls.
#[local] Open Scope prog_scope.

(** The value of a call. *)
Definition usys (c : ucall) : U Z := r <- ucall_ c ;; uret r.1.

Definition getbuf : U (list Z) := fun b => Done (b, b).
(** memcpy of [l] to buf + i. *)
Definition putbuf (i : nat) (l : list Z) : U unit := fun b => Done (tt, take i b ++ l ++ drop (i + length l) b).

(** read(fd, buf, n) *)
Definition read_buf (fd n : Z) : U Z := r <- ucall_ (URead fd n) ;; putbuf 0 r.2 ;; uret r.1.
(** write(fd, buf, n) *)
Definition write_buf (fd n : Z) : U Z := b <- getbuf ;; usys (UWrite fd (take (Z.to_nat n) b)).

Definition line (s : string) : list Z := bytes s ++ [10].
Definition say (fd : Z) (text : list Z) : U unit := _ <- ucall_ (UPrint fd text) ;; uret tt.

(** printf with numbers, and with one string. *)
Definition sayf (fd : Z) (fmt : list Z) (args : list Z) : U unit :=
  match printf 1 mem0 fmt (fun i => nth i args 0) with Some o => say fd o | None => stuck end.
Definition says (fd : Z) (fmt : list Z) (s : list Z) : U unit :=
  match printf (S (length s)) (place s 1 mem0) fmt (fun _ => 1) with Some o => say fd o | None => stuck end.

(** [if(cond){ printf(1, msg); exit(); }] *)
Definition fails (cond : bool) (msg : list Z) : U unit := if cond then say 1 msg ;; exit_ else uret tt.

(** The same on the value of a call, which is returned. *)
Definition must (bad : Z -> bool) (c : U Z) (msg : list Z) : U Z := r <- c ;; fails (bad r) msg ;; uret r.

Definition negative (r : Z) : bool := r <? 0.
Definition nonneg (r : Z) : bool := r >=? 0.
Definition zero (r : Z) : bool := r =? 0.
Definition nonzero (r : Z) : bool := negb (r =? 0).
Definition not_ (n r : Z) : bool := negb (r =? n).

(** [for(; i < i + n; i++) body] *)
Fixpoint ufor (n : nat) (i : Z) (body : Z -> U unit) : U unit :=
  match n with O => uret tt | S n' => body i ;; ufor n' (i + 1) body end.

(** The same, left early when the body gives [false]; was it left? *)
Fixpoint ufor_while (n : nat) (i : Z) (body : Z -> U bool) : U bool :=
  match n with
  | O => uret true
  | S n' => b <- body i ;; if b : bool then ufor_while n' (i + 1) body else uret false
  end.
End calls.

(** * Kernels *)

(** A kernel answers the calls of one process. *)
Class Kernel (K : Type) := { answer : ucall -> K -> (Z * list Z) * K }.

Inductive ended (A : Type) := Returned (a : A) | Exited | Unbounded.
Arguments Returned {A} a.
Arguments Exited {A}.
Arguments Unbounded {A}.

Section play.
Context {K : Type} `{!Kernel K}.

Fixpoint play {A} (p : prog A) (k : K) : ended A * K :=
  match p with
  | Done a => (Returned a, k)
  | Exit => (Exited, k)
  | Stuck => (Unbounded, k)
  | Call c f => let (r, k') := answer c k in play (f r) k'
  end.

Lemma play_bind {A B} (p : prog A) (f : A -> prog B) k :
  play (pbind p f) k =
  match play p k with
  | (Returned a, k') => play (f a) k'
  | (Exited, k') => (Exited, k')
  | (Unbounded, k') => (Unbounded, k')
  end.
Proof.
  revert k. induction p as [a| | |c g IH]; intros k; cbn; try done. destruct (answer c k) as [r k']. apply IH.
Qed.

Lemma play_ubind {A B} (c : U A) (f : A -> U B) b k :
  play (ubind c f b) k =
  match play (c b) k with
  | (Returned (a, b'), k') => play (f a b') k'
  | (Exited, k') => (Exited, k')
  | (Unbounded, k') => (Unbounded, k')
  end.
Proof. unfold ubind. rewrite play_bind. by destruct (play (c b) k) as [[[a b']| |] k']. Qed.

Lemma play_ret {A B} (c : U A) (f : A -> U B) b k a b' k' :
  play (c b) k = (Returned (a, b'), k') -> play (ubind c f b) k = play (f a b') k'.
Proof. intros H. by rewrite play_ubind, H. Qed.

Lemma play_call c b k r k' : answer c k = (r, k') -> play (ucall_ c b) k = (Returned (r, b), k').
Proof. intros H. cbn. by rewrite H. Qed.

Lemma play_sys c b k r k' : answer c k = (r, k') -> play (usys c b) k = (Returned (r.1, b), k').
Proof. intros H. cbn. by rewrite H. Qed.
End play.

(** A kernel that remembers the calls, and answers as it likes. *)
Definition oracle (sys : list ucall -> Z * list Z) : Kernel (list ucall) :=
  {| answer := fun c h => (sys (h ++ [c]), h ++ [c]) |}.
