(* ===== verification/Usertests.v ===== *)
(** The tests of the system calls (src/xv6-public/usertests.c): what they call,
    what they expect, and what they print.

    The array buf is the memory of [U]; name and the other small arrays are
    values.  malloc is a call here; [Umalloc] has its code.  A loop that reads
    to the end of a file or allocates until there is no memory is given the
    bound [fuel]. *)
From S2P Require Import Prelude CString Ulib Uprog.
#[local] Open Scope prog_scope.

Definition O_RDONLY : Z := 0x000.
Definition O_WRONLY : Z := 0x001.
Definition O_RDWR : Z := 0x002.
Definition O_CREATE : Z := 0x200.
Definition MAXFILE : Z := 140.
Definition MAXARG : Z := 32.
Definition KERNBASE : Z := 0x80000000.
Definition stdout : Z := 1.
(** As usertests.sym has it. *)
Definition uninit : Z := 0x62a0.

Definition buf0 : list Z := replicate 8192 0.

(** [for(;;)] without a call. *)
Definition forever {A} : U A := stuck.

(** The calls, with paths that are literals. *)
Definition open (p : string) (mode : Z) : U Z := usys (UOpen (bytes p) mode).
Definition close (fd : Z) : U Z := usys (UClose fd).
Definition write (fd : Z) (s : string) : U Z := usys (UWrite fd (bytes s)).
Definition mkdir (p : string) : U Z := usys (UMkdir (bytes p)).
Definition chdir (p : string) : U Z := usys (UChdir (bytes p)).
Definition unlink (p : string) : U Z := usys (UUnlink (bytes p)).
Definition link (p q : string) : U Z := usys (ULink (bytes p) (bytes q)).

(** The byte of buf at [i], as a char. *)
Definition buf_char (b : list Z) (i : nat) : Z := let c := nth i b 0 in if c <? 128 then c else c - 256.

Section Usertests.
Variable fuel : nat.

Definition iputtest : U unit :=
  say stdout (line "iput test") ;;
  must negative (mkdir "iputdir") (line "mkdir failed") ;;
  must negative (chdir "iputdir") (line "chdir iputdir failed") ;;
  must negative (unlink "../iputdir") (line "unlink ../iputdir failed") ;;
  must negative (chdir "/") (line "chdir / failed") ;;
  say stdout (line "iput test ok").

Definition exitiputtest : U unit :=
  say stdout (line "exitiput test") ;;
  pid <- must negative (usys UFork) (line "fork failed") ;;
  if pid =? 0 then
    must negative (mkdir "iputdir") (line "mkdir failed") ;;
    must negative (chdir "iputdir") (line "child chdir failed") ;;
    must negative (unlink "../iputdir") (line "unlink ../iputdir failed") ;;
    exit_
  else
    usys UWait ;;
    say stdout (line "exitiput test ok").

Definition openiputtest : U unit :=
  say stdout (line "openiput test") ;;
  must negative (mkdir "oidir") (line "mkdir oidir failed") ;;
  pid <- must negative (usys UFork) (line "fork failed") ;;
  if pid =? 0 then
    must nonneg (open "oidir" O_RDWR) (line "open directory for write succeeded") ;;
    exit_
  else
    usys (USleep 1) ;;
    must nonzero (unlink "oidir") (line "unlink failed") ;;
    usys UWait ;;
    say stdout (line "openiput test ok").

Definition opentest : U unit :=
  say stdout (line "open test") ;;
  fd <- must negative (open "echo" 0) (line "open echo failed!") ;;
  close fd ;;
  must nonneg (open "doesnotexist" 0) (line "open doesnotexist succeeded!") ;;
  say stdout (line "open test ok").

Definition writetest : U unit :=
  say stdout (line "small file test") ;;
  fd <- must negative (open "small" (Z.lor O_CREATE O_RDWR)) (line "error: creat small failed!") ;;
  say stdout (line "creat small succeeded; ok") ;;
  ufor 100 0 (fun i =>
    r <- write fd "aaaaaaaaaa" ;;
    (if not_ 10 r then sayf stdout (line "error: write aa %d new file failed") [i] ;; exit_ else uret tt) ;;
    r <- write fd "bbbbbbbbbb" ;;
    (if not_ 10 r then sayf stdout (line "error: write bb %d new file failed") [i] ;; exit_ else uret tt)) ;;
  say stdout (line "writes ok") ;;
  close fd ;;
  fd <- must negative (open "small" O_RDONLY) (line "error: open small failed!") ;;
  say stdout (line "open small succeeded ok") ;;
  must (not_ 2000) (read_buf fd 2000) (line "read failed") ;;
  say stdout (line "read succeeded ok") ;;
  close fd ;;
  must negative (unlink "small") (line "unlink small failed") ;;
  say stdout (line "small file test ok").

(** The first int of buf. *)
Definition put_int0 (i : Z) : U unit := putbuf 0 [u8 i; u8 (Z.shiftr i 8); u8 (Z.shiftr i 16); u8 (Z.shiftr i 24)].
Definition get_int0 : U Z :=
  b <- getbuf ;; uret (s32 (nth 0 b 0 + 256 * nth 1 b 0 + 65536 * nth 2 b 0 + 16777216 * nth 3 b 0)).

(** The loop that reads the blocks back, [n] of them so far. *)
Fixpoint writetest1_read (f : nat) (fd n : Z) : U unit :=
  match f with
  | O => stuck
  | S f' =>
      i <- read_buf fd 512 ;;
      if i =? 0 then
        if n =? MAXFILE - 1 then sayf stdout (bytes "read only %d blocks from big") [n] ;; exit_ else uret tt
      else if negb (i =? 512) then sayf stdout (line "read failed %d") [i] ;; exit_
      else
        v <- get_int0 ;;
        if negb (v =? n) then sayf stdout (line "read content of block %d is %d") [n; v] ;; exit_
        else writetest1_read f' fd (n + 1)
  end.

Definition writetest1 : U unit :=
  say stdout (line "big files test") ;;
  fd <- must negative (open "big" (Z.lor O_CREATE O_RDWR)) (line "error: creat big failed!") ;;
  ufor (Z.to_nat MAXFILE) 0 (fun i =>
    put_int0 i ;;
    must (not_ 512) (write_buf fd 512) (line "error: write big file failed") ;;
    uret tt) ;;
  close fd ;;
  fd <- must negative (open "big" O_RDONLY) (line "error: open big failed!") ;;
  writetest1_read fuel fd 0 ;;
  close fd ;;
  must negative (unlink "big") (line "unlink big failed") ;;
  say stdout (line "big files ok").

Definition createtest : U unit :=
  say stdout (line "many creates, followed by unlink test") ;;
  ufor 52 0 (fun i =>
    fd <- usys (UOpen [97; 48 + i] (Z.lor O_CREATE O_RDWR)) ;;
    close fd ;;
    uret tt) ;;
  ufor 52 0 (fun i => usys (UUnlink [97; 48 + i]) ;; uret tt) ;;
  say stdout (line "many creates, followed by unlink; ok").

Definition dirtest : U unit :=
  say stdout (line "mkdir test") ;;
  must negative (mkdir "dir0") (line "mkdir failed") ;;
  must negative (chdir "dir0") (line "chdir dir0 failed") ;;
  must negative (chdir "..") (line "chdir .. failed") ;;
  must negative (unlink "dir0") (line "unlink dir0 failed") ;;
  say stdout (line "mkdir test ok").

Definition echoargv : list (list Z) := [bytes "echo"; bytes "ALL"; bytes "TESTS"; bytes "PASSED"].

Definition exectest : U unit :=
  say stdout (line "exec test") ;;
  must negative (usys (UExec (bytes "echo") echoargv)) (line "exec echo failed") ;;
  uret tt.

(** * Processes and pipes *)

(** The write end: five times 1033 bytes that count on. *)
Definition pipe1_child (wr : Z) : U unit :=
  ufor 5 0 (fun n =>
    putbuf 0 (map (fun i => u8 (n * 1033 + Z.of_nat i)) (seq 0 1033)) ;;
    must (not_ 1033) (write_buf wr 1033) (line "pipe1 oops 1") ;;
    uret tt) ;;
  exit_.

(** Do the bytes count on from [sq]?  [None] if seq, an int, overflows. *)
Fixpoint counts_on (sq : Z) (l : list Z) : option bool :=
  match l with
  | [] => Some true
  | c :: l' =>
      if negb (int_ok (sq + 1)) then None
      else if negb (Z.land c 0xff =? Z.land sq 0xff) then Some false
      else counts_on (sq + 1) l'
  end.

(** The read end: how many bytes came, [None] if a wrong one; without a result
    when seq or total, which are ints, overflow. *)
Fixpoint pipe1_read (f : nat) (rd cc sq total : Z) : U (option Z) :=
  match f with
  | O => stuck
  | S f' =>
      n <- read_buf rd cc ;;
      if n >? 0 then
        b <- getbuf ;;
        match counts_on sq (take (Z.to_nat n) b) with
        | None => stuck
        | Some false => say 1 (line "pipe1 oops 2") ;; uret None
        | Some true =>
            if negb (int_ok (total + n)) then stuck else
            let cc := cc * 2 in
            pipe1_read f' rd (if cc >? 8192 then 8192 else cc) (sq + n) (total + n)
        end
      else uret (Some total)
  end.

Definition pipe1_parent (rd wr : Z) : U unit :=
  close wr ;;
  t <- pipe1_read fuel rd 1 0 0 ;;
  match t with
  | None => uret tt
  | Some total =>
      (if negb (total =? 5 * 1033) then sayf 1 (line "pipe1 oops 3 total %d") [total] ;; exit_ else uret tt) ;;
      close rd ;;
      usys UWait ;;
      say 1 (line "pipe1 ok")
  end.

Definition pipe1 : U unit :=
  r <- ucall_ UPipe ;;
  fails (nonzero r.1) (line "pipe() failed") ;;
  let rd := nth 0 r.2 0 in
  let wr := nth 1 r.2 0 in
  pid <- usys UFork ;;
  if pid =? 0 then close rd ;; pipe1_child wr
  else if pid >? 0 then pipe1_parent rd wr
  else say 1 (line "fork() failed") ;; exit_.

Definition preempt_children : U (Z * Z * Z * Z) :=
  pid1 <- usys UFork ;;
  if pid1 =? 0 then forever else
  pid2 <- usys UFork ;;
  if pid2 =? 0 then forever else
  r <- ucall_ UPipe ;;
  let rd := nth 0 r.2 0 in
  let wr := nth 1 r.2 0 in
  pid3 <- usys UFork ;;
  if pid3 =? 0 then
    close rd ;;
    n <- write wr "x" ;;
    (if not_ 1 n then say 1 (bytes "preempt write error") else uret tt) ;;
    close wr ;;
    forever
  else
    close wr ;;
    uret (pid1, pid2, pid3, rd).

Definition preempt : U unit :=
  say 1 (bytes "preempt: ") ;;
  c <- preempt_children ;;
  let '(pid1, pid2, pid3, rd) := c in
  n <- read_buf rd 8192 ;;
  if not_ 1 n then say 1 (bytes "preempt read error") else
  close rd ;;
  say 1 (bytes "kill... ") ;;
  usys (UKill pid1) ;;
  usys (UKill pid2) ;;
  usys (UKill pid3) ;;
  say 1 (bytes "wait... ") ;;
  usys UWait ;;
  usys UWait ;;
  usys UWait ;;
  say 1 (line "preempt ok").

Definition exitwait : U unit :=
  b <- ufor_while 100 0 (fun _ =>
    pid <- usys UFork ;;
    if pid <? 0 then say 1 (line "fork failed") ;; uret false
    else if negb (pid =? 0) then
      w <- usys UWait ;;
      if negb (w =? pid) then say 1 (line "wait wrong pid") ;; uret false else uret true
    else exit_) ;;
  if b : bool then say 1 (line "exitwait ok") else uret tt.

(** The loop that allocates all there is, linking the blocks; the last one. *)
Fixpoint mem_fill (f : nat) (m1 : Z) : U Z :=
  match f with
  | O => stuck
  | S f' =>
      m2 <- usys (UMalloc 10001) ;;
      if m2 =? 0 then uret m1 else usys (UStore m2 m1) ;; mem_fill f' m2
  end.

Fixpoint mem_free (f : nat) (m1 : Z) : U unit :=
  match f with
  | O => stuck
  | S f' =>
      if m1 =? 0 then uret tt else
      m2 <- usys (ULoad m1) ;;
      usys (UFree m1) ;;
      mem_free f' m2
  end.

Definition mem : U unit :=
  say 1 (line "mem test") ;;
  ppid <- usys UGetpid ;;
  pid <- usys UFork ;;
  if pid =? 0 then
    m1 <- mem_fill fuel 0 ;;
    mem_free fuel m1 ;;
    m1 <- usys (UMalloc (1024 * 20)) ;;
    (if m1 =? 0 then
       say 1 (line "couldn't allocate mem?!!") ;;
       usys (UKill ppid) ;;
       exit_
     else uret tt) ;;
    usys (UFree m1) ;;
    say 1 (line "mem ok") ;;
    exit_
  else usys UWait ;; uret tt.

(** * Files and processes *)

Definition count_byte (c : Z) (l : list Z) : Z := Z.of_nat (length (filter (fun b => b = c) l)).

(** The loop that counts; all the ten bytes of the array count, whatever the
    number read. *)
Fixpoint sharedfd_count (f : nat) (fd : Z) (arr : list Z) (nc np : Z) : U (Z * Z) :=
  match f with
  | O => stuck
  | S f' =>
      r <- ucall_ (URead fd 10) ;;
      if r.1 >? 0 then
        let arr := r.2 ++ drop (length r.2) arr in
        sharedfd_count f' fd arr (nc + count_byte 99 arr) (np + count_byte 112 arr)
      else uret (nc, np)
  end.

Definition sharedfd : U unit :=
  say 1 (line "sharedfd test") ;;
  unlink "sharedfd" ;;
  fd <- open "sharedfd" (Z.lor O_CREATE O_RDWR) ;;
  if fd <? 0 then say 1 (bytes "fstests: cannot open sharedfd for writing") else
  pid <- usys UFork ;;
  let arr := replicate 10 (if pid =? 0 then 99 else 112) in
  ufor_while 1000 0 (fun _ =>
    n <- usys (UWrite fd arr) ;;
    if negb (n =? 10) then say 1 (line "fstests: write sharedfd failed") ;; uret false else uret true) ;;
  (if pid =? 0 then exit_ else usys UWait) ;;
  close fd ;;
  fd <- open "sharedfd" 0 ;;
  if fd <? 0 then say 1 (line "fstests: cannot open sharedfd for reading") else
  r <- sharedfd_count fuel fd arr 0 0 ;;
  let '(nc, np) := r in
  close fd ;;
  unlink "sharedfd" ;;
  if (nc =? 10000) && (np =? 10000) then say 1 (line "sharedfd ok")
  else sayf 1 (line "sharedfd oops %d %d") [nc; np] ;; exit_.

(** names[pi] *)
Definition four_name (pi : Z) : list Z := [102; 48 + pi].

Definition fourfiles_child (pi : Z) : U unit :=
  fd <- must negative (usys (UOpen (four_name pi) (Z.lor O_CREATE O_RDWR))) (line "create failed") ;;
  putbuf 0 (replicate 512 (48 + pi)) ;;
  ufor 12 0 (fun _ =>
    n <- write_buf fd 500 ;;
    if negb (n =? 500) then sayf 1 (line "write failed %d") [n] ;; exit_ else uret tt) ;;
  exit_.

Fixpoint fourfiles_read (f : nat) (fd i total : Z) : U Z :=
  match f with
  | O => stuck
  | S f' =>
      n <- read_buf fd 8192 ;;
      if n >? 0 then
        b <- getbuf ;;
        fails (negb (forallb (fun c => c =? 48 + i) (take (Z.to_nat n) b))) (line "wrong char") ;;
        fourfiles_read f' fd i (total + n)
      else uret total
  end.

Definition fourfiles : U unit :=
  say 1 (line "fourfiles test") ;;
  ufor 4 0 (fun pi =>
    usys (UUnlink (four_name pi)) ;;
    pid <- must negative (usys UFork) (line "fork failed") ;;
    if pid =? 0 then fourfiles_child pi else uret tt) ;;
  ufor 4 0 (fun _ => usys UWait ;; uret tt) ;;
  ufor 2 0 (fun i =>
    fd <- usys (UOpen (four_name i) 0) ;;
    total <- fourfiles_read fuel fd i 0 ;;
    close fd ;;
    (if negb (total =? 12 * 500) then sayf 1 (line "wrong length %d") [total] ;; exit_ else uret tt) ;;
    usys (UUnlink (four_name i)) ;;
    uret tt) ;;
  say 1 (line "fourfiles ok").

Definition cd_name (pi i : Z) : list Z := [112 + pi; 48 + i].

Definition createdelete_child (pi : Z) : U unit :=
  ufor 20 0 (fun i =>
    fd <- must negative (usys (UOpen (cd_name pi i) (Z.lor O_CREATE O_RDWR))) (line "create failed") ;;
    close fd ;;
    if (i >? 0) && (i mod 2 =? 0) then
      must negative (usys (UUnlink (cd_name pi (i / 2)))) (line "unlink failed") ;; uret tt
    else uret tt) ;;
  exit_.

Definition createdelete_check (i pi : Z) : U unit :=
  fd <- usys (UOpen (cd_name pi i) 0) ;;
  (if ((i =? 0) || (i >=? 20 / 2)) && (fd <? 0) then
     says 1 (line "oops createdelete %s didn't exist") (cd_name pi i) ;; exit_
   else if ((i >=? 1) && (i <? 20 / 2)) && (fd >=? 0) then
     says 1 (line "oops createdelete %s did exist") (cd_name pi i) ;; exit_
   else uret tt) ;;
  if fd >=? 0 then close fd ;; uret tt else uret tt.

(** The last loop, with the name it uses. *)
Definition createdelete_cleanup : U unit :=
  ufor 20 0 (fun i => ufor 4 0 (fun pi => usys (UUnlink (cd_name i i)) ;; uret tt)).

Definition createdelete : U unit :=
  say 1 (line "createdelete test") ;;
  ufor 4 0 (fun pi =>
    pid <- must negative (usys UFork) (line "fork failed") ;;
    if pid =? 0 then createdelete_child pi else uret tt) ;;
  ufor 4 0 (fun _ => usys UWait ;; uret tt) ;;
  ufor 20 0 (fun i => ufor 4 0 (fun pi => createdelete_check i pi)) ;;
  createdelete_cleanup ;;
  say 1 (line "createdelete ok").
End Usertests.

(** * Links, directories, memory, and main *)

Definition BIG : Z := 100 * 1024 * 1024.
Definition O_CREATE_RDWR : Z := Z.lor O_CREATE O_RDWR.

Section Usertests.
Variable fuel : nat.

(** * Links *)

Definition unlinkread : U unit :=
  say 1 (line "unlinkread test") ;;
  fd <- must negative (open "unlinkread" O_CREATE_RDWR) (line "create unlinkread failed") ;;
  write fd "hello" ;;
  close fd ;;
  fd <- must negative (open "unlinkread" O_RDWR) (line "open unlinkread failed") ;;
  must nonzero (unlink "unlinkread") (line "unlink unlinkread failed") ;;
  fd1 <- open "unlinkread" O_CREATE_RDWR ;;
  write fd1 "yyy" ;;
  close fd1 ;;
  must (not_ 5) (read_buf fd 8192) (bytes "unlinkread read failed") ;;
  b <- getbuf ;;
  fails (negb (buf_char b 0 =? 104)) (line "unlinkread wrong data") ;;
  must (not_ 10) (write_buf fd 10) (line "unlinkread write failed") ;;
  close fd ;;
  unlink "unlinkread" ;;
  say 1 (line "unlinkread ok").

Definition linktest : U unit :=
  say 1 (line "linktest") ;;
  unlink "lf1" ;;
  unlink "lf2" ;;
  fd <- must negative (open "lf1" O_CREATE_RDWR) (line "create lf1 failed") ;;
  must (not_ 5) (write fd "hello") (line "write lf1 failed") ;;
  close fd ;;
  must negative (link "lf1" "lf2") (line "link lf1 lf2 failed") ;;
  unlink "lf1" ;;
  must nonneg (open "lf1" 0) (line "unlinked lf1 but it is still there!") ;;
  fd <- must negative (open "lf2" 0) (line "open lf2 failed") ;;
  must (not_ 5) (read_buf fd 8192) (line "read lf2 failed") ;;
  close fd ;;
  must nonneg (link "lf2" "lf2") (line "link lf2 lf2 succeeded! oops") ;;
  unlink "lf2" ;;
  must nonneg (link "lf2" "lf1") (line "link non-existant succeeded! oops") ;;
  must nonneg (link "." "lf1") (line "link . lf1 succeeded! oops") ;;
  say 1 (line "linktest ok").

(** The file of round [i]. *)
Definition con_name (i : Z) : list Z := [67; 48 + i].

(** exit() in the child, wait() in the parent. *)
Definition exit_or_wait (pid : Z) : U unit := if pid =? 0 then exit_ else usys UWait ;; uret tt.

Definition concreate_make (i : Z) : U unit :=
  let file := con_name i in
  usys (UUnlink file) ;;
  pid <- usys UFork ;;
  (if negb (pid =? 0) && (i mod 3 =? 1) then usys (ULink (bytes "C0") file) ;; uret tt
   else if (pid =? 0) && (i mod 5 =? 1) then usys (ULink (bytes "C0") file) ;; uret tt
   else
     fd <- usys (UOpen file O_CREATE_RDWR) ;;
     if fd <? 0 then says 1 (line "concreate create %s failed") file ;; exit_
     else close fd ;; uret tt) ;;
  exit_or_wait pid.

(** The names in a directory that are of the form C?, counted in [n] and marked
    in [fa]; [de] is the struct the entries are read into. *)
Fixpoint concreate_list (f : nat) (fd : Z) (de fa : list Z) (n : Z) : U Z :=
  match f with
  | O => stuck
  | S f' =>
      r <- ucall_ (URead fd 16) ;;
      if r.1 >? 0 then
        let de := r.2 ++ drop (length r.2) de in
        let name := drop 2 de in
        if nth 0 de 0 + 256 * nth 1 de 0 =? 0 then concreate_list f' fd de fa n
        else if (nth 0 name 0 =? 67) && (nth 2 name 0 =? 0) then
          let i := buf_char name 1 - 48 in
          (if (i <? 0) || (i >=? 40) then says 1 (line "concreate weird file %s") name ;; exit_ else uret tt) ;;
          (if negb (nth (Z.to_nat i) fa 0 =? 0) then says 1 (line "concreate duplicate file %s") name ;; exit_ else uret tt) ;;
          concreate_list f' fd de (<[Z.to_nat i := 1]> fa) (n + 1)
        else concreate_list f' fd de fa n
      else uret n
  end.

Definition close_open (file : list Z) : U unit := fd <- usys (UOpen file 0) ;; close fd ;; uret tt.

Definition concreate_use (i : Z) : U unit :=
  let file := con_name i in
  pid <- must negative (usys UFork) (line "fork failed") ;;
  ufor 4 0 (fun _ =>
    if ((i mod 3 =? 0) && (pid =? 0)) || ((i mod 3 =? 1) && negb (pid =? 0)) then close_open file
    else usys (UUnlink file) ;; uret tt) ;;
  exit_or_wait pid.

Definition concreate : U unit :=
  say 1 (line "concreate test") ;;
  ufor 40 0 concreate_make ;;
  fd <- open "." 0 ;;
  n <- concreate_list fuel fd (replicate 16 0) (replicate 40 0) 0 ;;
  close fd ;;
  fails (negb (n =? 40)) (line "concreate not enough files in directory listing") ;;
  ufor 40 0 concreate_use ;;
  say 1 (line "concreate ok").

Fixpoint linkunlink_loop (n : nat) (x : Z) : U unit :=
  match n with
  | O => uret tt
  | S n' =>
      let x := u32 (x * 1103515245 + 12345) in
      (if x mod 3 =? 0 then fd <- open "x" (Z.lor O_RDWR O_CREATE) ;; close fd
       else if x mod 3 =? 1 then link "cat" "x"
       else unlink "x") ;;
      linkunlink_loop n' x
  end.

Definition linkunlink : U unit :=
  say 1 (line "linkunlink test") ;;
  unlink "x" ;;
  pid <- must negative (usys UFork) (line "fork failed") ;;
  linkunlink_loop 100 (if pid =? 0 then 97 else 1) ;;
  (if pid =? 0 then exit_ else usys UWait) ;;
  say 1 (line "linkunlink ok").

(** * Directories *)

Definition bd_name (i : Z) : list Z := [120; 48 + i / 64; 48 + i mod 64].

Definition bigdir : U unit :=
  say 1 (line "bigdir test") ;;
  unlink "bd" ;;
  fd <- must negative (open "bd" O_CREATE) (line "bigdir create failed") ;;
  close fd ;;
  ufor 500 0 (fun i => must nonzero (usys (ULink (bytes "bd") (bd_name i))) (line "bigdir link failed") ;; uret tt) ;;
  unlink "bd" ;;
  ufor 500 0 (fun i => must nonzero (usys (UUnlink (bd_name i))) (bytes "bigdir unlink failed") ;; uret tt) ;;
  say 1 (line "bigdir ok").

(** subdir makes its files and directories, *)
Definition subdir_make : U unit :=
  unlink "ff" ;;
  must nonzero (mkdir "dd") (line "subdir mkdir dd failed") ;;
  fd <- must negative (open "dd/ff" O_CREATE_RDWR) (line "create dd/ff failed") ;;
  write fd "ff" ;;
  close fd ;;
  must nonneg (unlink "dd") (line "unlink dd (non-empty dir) succeeded!") ;;
  must nonzero (mkdir "/dd/dd") (line "subdir mkdir dd/dd failed") ;;
  fd <- must negative (open "dd/dd/ff" O_CREATE_RDWR) (line "create dd/dd/ff failed") ;;
  write fd "FF" ;;
  close fd ;;
  fd <- must negative (open "dd/dd/../ff" 0) (line "open dd/dd/../ff failed") ;;
  cc <- read_buf fd 8192 ;;
  b <- getbuf ;;
  fails (negb (cc =? 2) || negb (buf_char b 0 =? 102)) (line "dd/dd/../ff wrong content") ;;
  close fd ;;
  uret tt.

(** walks through them, *)
Definition subdir_walk : U unit :=
  must nonzero (link "dd/dd/ff" "dd/dd/ffff") (line "link dd/dd/ff dd/dd/ffff failed") ;;
  must nonzero (unlink "dd/dd/ff") (line "unlink dd/dd/ff failed") ;;
  must nonneg (open "dd/dd/ff" O_RDONLY) (line "open (unlinked) dd/dd/ff succeeded") ;;
  must nonzero (chdir "dd") (line "chdir dd failed") ;;
  must nonzero (chdir "dd/../../dd") (line "chdir dd/../../dd failed") ;;
  must nonzero (chdir "dd/../../../dd") (line "chdir dd/../../dd failed") ;;
  must nonzero (chdir "./..") (line "chdir ./.. failed") ;;
  fd <- must negative (open "dd/dd/ffff" 0) (line "open dd/dd/ffff failed") ;;
  must (not_ 2) (read_buf fd 8192) (line "read dd/dd/ffff wrong len") ;;
  close fd ;;
  must nonneg (open "dd/dd/ff" O_RDONLY) (line "open (unlinked) dd/dd/ff succeeded!") ;;
  uret tt.

(** tries what has to fail, *)
Definition subdir_errors : U unit :=
  must nonneg (open "dd/ff/ff" O_CREATE_RDWR) (line "create dd/ff/ff succeeded!") ;;
  must nonneg (open "dd/xx/ff" O_CREATE_RDWR) (line "create dd/xx/ff succeeded!") ;;
  must nonneg (open "dd" O_CREATE) (line "create dd succeeded!") ;;
  must nonneg (open "dd" O_RDWR) (line "open dd rdwr succeeded!") ;;
  must nonneg (open "dd" O_WRONLY) (line "open dd wronly succeeded!") ;;
  must zero (link "dd/ff/ff" "dd/dd/xx") (line "link dd/ff/ff dd/dd/xx succeeded!") ;;
  must zero (link "dd/xx/ff" "dd/dd/xx") (line "link dd/xx/ff dd/dd/xx succeeded!") ;;
  must zero (link "dd/ff" "dd/dd/ffff") (line "link dd/ff dd/dd/ffff succeeded!") ;;
  must zero (mkdir "dd/ff/ff") (line "mkdir dd/ff/ff succeeded!") ;;
  must zero (mkdir "dd/xx/ff") (line "mkdir dd/xx/ff succeeded!") ;;
  must zero (mkdir "dd/dd/ffff") (line "mkdir dd/dd/ffff succeeded!") ;;
  must zero (unlink "dd/xx/ff") (line "unlink dd/xx/ff succeeded!") ;;
  must zero (unlink "dd/ff/ff") (line "unlink dd/ff/ff succeeded!") ;;
  must zero (chdir "dd/ff") (line "chdir dd/ff succeeded!") ;;
  must zero (chdir "dd/xx") (line "chdir dd/xx succeeded!") ;;
  uret tt.

(** and cleans up. *)
Definition subdir_clean : U unit :=
  must nonzero (unlink "dd/dd/ffff") (line "unlink dd/dd/ff failed") ;;
  must nonzero (unlink "dd/ff") (line "unlink dd/ff failed") ;;
  must zero (unlink "dd") (line "unlink non-empty dd succeeded!") ;;
  must negative (unlink "dd/dd") (line "unlink dd/dd failed") ;;
  must negative (unlink "dd") (line "unlink dd failed") ;;
  uret tt.

Definition subdir : U unit :=
  say 1 (line "subdir test") ;;
  subdir_make ;;
  subdir_walk ;;
  subdir_errors ;;
  subdir_clean ;;
  say 1 (line "subdir ok").

(** sz = 499, 970, ... below 12*512 *)
Definition bigwrite : U unit :=
  say 1 (line "bigwrite test") ;;
  unlink "bigwrite" ;;
  ufor (Z.to_nat ((12 * 512 - 499 + 470) / 471)) 0 (fun k =>
    let sz := 499 + 471 * k in
    fd <- must negative (open "bigwrite" O_CREATE_RDWR) (line "cannot create bigwrite") ;;
    ufor 2 0 (fun _ =>
      cc <- write_buf fd sz ;;
      if negb (cc =? sz) then sayf 1 (line "write(%d) ret %d") [sz; cc] ;; exit_ else uret tt) ;;
    close fd ;;
    unlink "bigwrite" ;;
    uret tt) ;;
  say 1 (line "bigwrite ok").

Fixpoint bigfile_read (f : nat) (fd i total : Z) : U Z :=
  match f with
  | O => stuck
  | S f' =>
      cc <- must negative (read_buf fd 300) (line "read bigfile failed") ;;
      if cc =? 0 then uret total else
      fails (negb (cc =? 300)) (line "short read bigfile") ;;
      b <- getbuf ;;
      fails (negb (buf_char b 0 =? i / 2) || negb (buf_char b 299 =? i / 2)) (line "read bigfile wrong data") ;;
      bigfile_read f' fd (i + 1) (total + cc)
  end.

Definition bigfile : U unit :=
  say 1 (line "bigfile test") ;;
  unlink "bigfile" ;;
  fd <- must negative (open "bigfile" O_CREATE_RDWR) (bytes "cannot create bigfile") ;;
  ufor 20 0 (fun i =>
    putbuf 0 (replicate 600 i) ;;
    must (not_ 600) (write_buf fd 600) (line "write bigfile failed") ;;
    uret tt) ;;
  close fd ;;
  fd <- must negative (open "bigfile" 0) (line "cannot open bigfile") ;;
  total <- bigfile_read fuel fd 0 0 ;;
  close fd ;;
  fails (negb (total =? 20 * 600)) (line "read bigfile wrong total") ;;
  unlink "bigfile" ;;
  say 1 (line "bigfile test ok").

Definition fourteen : U unit :=
  say 1 (line "fourteen test") ;;
  must nonzero (mkdir "12345678901234") (line "mkdir 12345678901234 failed") ;;
  must nonzero (mkdir "12345678901234/123456789012345") (line "mkdir 12345678901234/123456789012345 failed") ;;
  fd <- must negative (open "123456789012345/123456789012345/123456789012345" O_CREATE)
          (line "create 123456789012345/123456789012345/123456789012345 failed") ;;
  close fd ;;
  fd <- must negative (open "12345678901234/12345678901234/12345678901234" 0)
          (line "open 12345678901234/12345678901234/12345678901234 failed") ;;
  close fd ;;
  must zero (mkdir "12345678901234/12345678901234") (line "mkdir 12345678901234/12345678901234 succeeded!") ;;
  must zero (mkdir "123456789012345/12345678901234") (line "mkdir 12345678901234/123456789012345 succeeded!") ;;
  say 1 (line "fourteen ok").

Definition rmdot : U unit :=
  say 1 (line "rmdot test") ;;
  must nonzero (mkdir "dots") (line "mkdir dots failed") ;;
  must nonzero (chdir "dots") (line "chdir dots failed") ;;
  must zero (unlink ".") (line "rm . worked!") ;;
  must zero (unlink "..") (line "rm .. worked!") ;;
  must nonzero (chdir "/") (line "chdir / failed") ;;
  must zero (unlink "dots/.") (line "unlink dots/. worked!") ;;
  must zero (unlink "dots/..") (line "unlink dots/.. worked!") ;;
  must nonzero (unlink "dots") (line "unlink dots failed!") ;;
  say 1 (line "rmdot ok").

Definition dirfile : U unit :=
  say 1 (line "dir vs file") ;;
  fd <- must negative (open "dirfile" O_CREATE) (line "create dirfile failed") ;;
  close fd ;;
  must zero (chdir "dirfile") (line "chdir dirfile succeeded!") ;;
  must nonneg (open "dirfile/xx" 0) (line "create dirfile/xx succeeded!") ;;
  must nonneg (open "dirfile/xx" O_CREATE) (line "create dirfile/xx succeeded!") ;;
  must zero (mkdir "dirfile/xx") (line "mkdir dirfile/xx succeeded!") ;;
  must zero (unlink "dirfile/xx") (line "unlink dirfile/xx succeeded!") ;;
  must zero (link "README" "dirfile/xx") (line "link to dirfile/xx succeeded!") ;;
  must nonzero (unlink "dirfile") (line "unlink dirfile failed!") ;;
  must nonneg (open "." O_RDWR) (line "open . for writing succeeded!") ;;
  fd <- open "." 0 ;;
  must (fun r => r >? 0) (write fd "x") (line "write . succeeded!") ;;
  close fd ;;
  say 1 (line "dir vs file OK").

(** open with O_CREATE, and close if that gave a descriptor *)
Definition create_close (p : string) : U unit :=
  fd <- open p O_CREATE ;; if fd >=? 0 then close fd ;; uret tt else uret tt.

Definition iref_round (_ : Z) : U unit :=
  must nonzero (mkdir "irefd") (line "mkdir irefd failed") ;;
  must nonzero (chdir "irefd") (line "chdir irefd failed") ;;
  mkdir "" ;;
  link "README" "" ;;
  create_close "" ;;
  create_close "xx" ;;
  unlink "xx" ;;
  uret tt.

Definition iref : U unit :=
  say 1 (line "empty file name") ;;
  ufor (50 + 1) 0 iref_round ;;
  chdir "/" ;;
  say 1 (line "empty file name OK").

(** * Processes and memory *)

(** fork until it fails, at most [left] more times: how often it worked. *)
Fixpoint fork_all (left : nat) (n : Z) : U Z :=
  match left with
  | O => uret n
  | S left' =>
      pid <- usys UFork ;;
      if pid <? 0 then uret n else if pid =? 0 then exit_ else fork_all left' (n + 1)
  end.

Fixpoint wait_all (n : nat) : U unit :=
  match n with O => uret tt | S n' => must negative (usys UWait) (line "wait stopped early") ;; wait_all n' end.

Definition forktest : U unit :=
  say 1 (line "fork test") ;;
  n <- fork_all 1000 0 ;;
  fails (n =? 1000) (line "fork claimed to work 1000 times!") ;;
  wait_all (Z.to_nat n) ;;
  must (not_ (-1)) (usys UWait) (line "wait got too many") ;;
  say 1 (line "fork test OK").

(** The address sbrk returns. *)
Definition sbrk (n : Z) : U Z := r <- usys (USbrk n) ;; uret (u32 r).

(** A byte at a time, [n] times; the end of memory then. *)
Fixpoint sbrk_bytes (n : nat) (i a : Z) : U Z :=
  match n with
  | O => uret a
  | S n' =>
      b <- sbrk 1 ;;
      (if negb (b =? a) then sayf stdout (line "sbrk test failed %d %x %x") [i; a; b] ;; exit_ else uret tt) ;;
      usys (UStore b 1) ;;
      sbrk_bytes n' (i + 1) (u32 (b + 1))
  end.

Definition sbrk_small : U unit :=
  a <- sbrk 0 ;;
  a <- sbrk_bytes 5000 0 a ;;
  pid <- must negative (usys UFork) (line "sbrk test fork failed") ;;
  sbrk 1 ;;
  c <- sbrk 1 ;;
  fails (negb (c =? u32 (a + 1))) (line "sbrk test failed post-fork") ;;
  exit_or_wait pid.

Definition sbrk_big (oldbrk : Z) : U unit :=
  a <- sbrk 0 ;;
  p <- sbrk (s32 (BIG - a)) ;;
  fails (negb (p =? a)) (line "sbrk test failed to grow big address space; enough phys mem?") ;;
  let lastaddr := BIG - 1 in
  usys (UStore lastaddr 99) ;;
  a <- sbrk 0 ;;
  c <- sbrk (-4096) ;;
  fails (c =? 0xffffffff) (line "sbrk could not deallocate") ;;
  c <- sbrk 0 ;;
  (if negb (c =? u32 (a - 4096)) then sayf stdout (line "sbrk deallocation produced wrong address, a %x c %x") [a; c] ;; exit_ else uret tt) ;;
  a <- sbrk 0 ;;
  c <- sbrk 4096 ;;
  bad <- (if negb (c =? a) then uret true else t <- sbrk 0 ;; uret (negb (t =? u32 (a + 4096)))) ;;
  (if bad : bool then sayf stdout (line "sbrk re-allocation failed, a %x c %x") [a; c] ;; exit_ else uret tt) ;;
  v <- usys (ULoad lastaddr) ;;
  fails (v =? 99) (line "sbrk de-allocation didn't really deallocate") ;;
  a <- sbrk 0 ;;
  t <- sbrk 0 ;;
  c <- sbrk (s32 (- (t - oldbrk))) ;;
  if negb (c =? a) then sayf stdout (line "sbrk downsize failed, a %x c %x") [a; c] ;; exit_ else uret tt.

(** Round [k] of the loop that tries to read the kernel's memory. *)
Definition sbrk_kernel (k : Z) : U unit :=
  let a := KERNBASE + 50000 * k in
  ppid <- usys UGetpid ;;
  pid <- must negative (usys UFork) (line "fork failed") ;;
  if pid =? 0 then
    v <- usys (ULoad a) ;;
    sayf stdout (line "oops could read %x = %x") [a; v] ;;
    usys (UKill ppid) ;;
    exit_
  else usys UWait ;; uret tt.

(** [for(;;) sleep(1000);] *)
Fixpoint sit_around (f : nat) : U unit :=
  match f with O => stuck | S f' => usys (USleep 1000) ;; sit_around f' end.

(** Processes that want all the memory: their pids. *)
Fixpoint sbrk_hogs (n : nat) (rd wr : Z) : U (list Z) :=
  match n with
  | O => uret []
  | S n' =>
      pid <- usys UFork ;;
      if pid =? 0 then
        t <- sbrk 0 ;;
        sbrk (s32 (BIG - t)) ;;
        write wr "x" ;;
        sit_around fuel ;;
        uret []
      else
        (if negb (pid =? -1) then usys (URead rd 1) ;; uret tt else uret tt) ;;
        l <- sbrk_hogs n' rd wr ;;
        uret (pid :: l)
  end.

Fixpoint kill_hogs (pids : list Z) : U unit :=
  match pids with
  | [] => uret tt
  | p :: ps => (if p =? -1 then uret tt else usys (UKill p) ;; usys UWait ;; uret tt) ;; kill_hogs ps
  end.

Definition sbrk_leak (oldbrk : Z) : U unit :=
  r <- ucall_ UPipe ;;
  fails (nonzero r.1) (line "pipe() failed") ;;
  pids <- sbrk_hogs 10 (nth 0 r.2 0) (nth 1 r.2 0) ;;
  c <- sbrk 4096 ;;
  kill_hogs pids ;;
  fails (c =? 0xffffffff) (line "failed sbrk leaked memory") ;;
  t <- sbrk 0 ;;
  if t >? oldbrk then t <- sbrk 0 ;; sbrk (s32 (- (t - oldbrk))) ;; uret tt else uret tt.

Definition sbrktest : U unit :=
  say stdout (line "sbrk test") ;;
  oldbrk <- sbrk 0 ;;
  sbrk_small ;;
  sbrk_big oldbrk ;;
  ufor 40 0 sbrk_kernel ;;
  sbrk_leak oldbrk ;;
  say stdout (line "sbrk test OK").

(** Round [k]: a stack, and a string, at address 4096 k. *)
Definition validate_round (k : Z) : U unit :=
  let p := 4096 * k in
  pid <- usys UFork ;;
  if pid =? 0 then usys (USleepAt p) ;; exit_ else
  usys (USleep 0) ;;
  usys (USleep 0) ;;
  usys (UKill pid) ;;
  usys UWait ;;
  must (not_ (-1)) (usys (ULinkAt (bytes "nosuchfile") p)) (line "link should not succeed") ;;
  uret tt.

Definition validatetest : U unit :=
  say stdout (line "validate test") ;;
  let hi := 1100 * 1024 in
  ufor (Z.to_nat (hi / 4096 + 1)) 0 validate_round ;;
  say stdout (line "validate ok").

Definition bsstest : U unit :=
  say stdout (line "bss test") ;;
  ufor 10000 0 (fun i => v <- usys (ULoad (uninit + i)) ;; fails (negb (v =? 0)) (line "bss test failed")) ;;
  say stdout (line "bss test ok").

Definition bigarg : list Z := line "bigargs test: failed" ++ replicate 199 32.

Definition bigargtest : U unit :=
  unlink "bigarg-ok" ;;
  pid <- usys UFork ;;
  (if pid =? 0 then
     say stdout (line "bigarg test") ;;
     usys (UExec (bytes "echo") (replicate (Z.to_nat (MAXARG - 1)) bigarg)) ;;
     say stdout (line "bigarg test ok") ;;
     fd <- open "bigarg-ok" O_CREATE ;;
     close fd ;;
     exit_
   else fails (pid <? 0) (line "bigargtest: fork failed")) ;;
  usys UWait ;;
  fd <- must negative (open "bigarg-ok" 0) (line "bigarg test failed!") ;;
  close fd ;;
  unlink "bigarg-ok" ;;
  uret tt.

Definition full_name (n : Z) : list Z :=
  [102; 48 + n / 1000; 48 + n mod 1000 / 100; 48 + n mod 100 / 10; 48 + n mod 10].

(** Blocks are written until that fails; the number of bytes. *)
Fixpoint fsfull_file (f : nat) (fd total : Z) : U Z :=
  match f with
  | O => stuck
  | S f' => cc <- write_buf fd 512 ;; if cc <? 512 then uret total else fsfull_file f' fd (total + cc)
  end.

(** The files, until one cannot be written; the number of the last one. *)
Fixpoint fsfull_files (f : nat) (n : Z) : U Z :=
  match f with
  | O => stuck
  | S f' =>
      says 1 (line "writing %s") (full_name n) ;;
      fd <- usys (UOpen (full_name n) O_CREATE_RDWR) ;;
      if fd <? 0 then says 1 (line "open %s failed") (full_name n) ;; uret n else
      total <- fsfull_file fuel fd 0 ;;
      sayf 1 (line "wrote %d bytes") [total] ;;
      close fd ;;
      if total =? 0 then uret n else fsfull_files f' (n + 1)
  end.

Fixpoint fsfull_clean (k : nat) (n : Z) : U unit :=
  match k with O => uret tt | S k' => usys (UUnlink (full_name n)) ;; fsfull_clean k' (n - 1) end.

Definition fsfull : U unit :=
  say 1 (line "fsfull test") ;;
  n <- fsfull_files fuel 0 ;;
  fsfull_clean (Z.to_nat (n + 1)) n ;;
  say 1 (line "fsfull test finished").

Definition uio : U unit :=
  say 1 (line "uio test") ;;
  pid <- usys UFork ;;
  (if pid =? 0 then
     usys (UOutb 0x70 0x09) ;;
     usys (UInb 0x71) ;;
     say 1 (line "uio: uio succeeded; test FAILED") ;;
     exit_
   else fails (pid <? 0) (line "fork failed")) ;;
  usys UWait ;;
  say 1 (line "uio test done").

Definition argptest : U unit :=
  fd <- open "init" O_RDONLY ;;
  (if fd <? 0 then say 2 (line "open failed") ;; exit_ else uret tt) ;;
  a <- sbrk 0 ;;
  usys (UReadAt fd (u32 (a - 1)) (-1)) ;;
  close fd ;;
  say 1 (line "arg test passed").

(** randstate, an unsigned long of 32 bits, before and after. *)
Definition rand (randstate : Z) : Z := u32 (randstate * 1664525 + 1013904223).

Definition usertests_main : U unit :=
  say 1 (line "usertests starting") ;;
  must nonneg (open "usertests.ran" 0) (line "already ran user tests -- rebuild fs.img") ;;
  fd <- open "usertests.ran" O_CREATE ;;
  close fd ;;
  argptest ;;
  createdelete ;;
  linkunlink ;;
  concreate ;;
  fourfiles fuel ;;
  sharedfd fuel ;;
  bigargtest ;;
  bigwrite ;;
  bigargtest ;;
  bsstest ;;
  sbrktest ;;
  validatetest ;;
  opentest ;;
  writetest ;;
  writetest1 fuel ;;
  createtest ;;
  openiputtest ;;
  exitiputtest ;;
  iputtest ;;
  mem fuel ;;
  pipe1 fuel ;;
  preempt ;;
  exitwait ;;
  rmdot ;;
  fourteen ;;
  bigfile ;;
  subdir ;;
  linktest ;;
  unlinkread ;;
  dirfile ;;
  iref ;;
  forktest ;;
  bigdir ;;
  uio ;;
  exectest ;;
  exit_.
End Usertests.
