(* ===== verification/UsertestsSpec.v ===== *)
(** What the tests of usertests.c establish about the kernel they run on: pipe1
    and forktest accept what they should and nothing else; three tests accept
    kernels they mean to reject. *)
From S2P Require Import Prelude CString Ulib Uprog Usertests.

(** * Kernels that print *)

(** Printing is remembered and no other call prints. *)
Class PrintLaws (K : Type) `{!Kernel K} := {
  printed : K -> list (list Z);
  print_adds fd text k : printed (answer (UPrint fd text) k).2 = printed k ++ [text];
  call_prints_not c k : (forall fd t, c <> UPrint fd t) -> printed (answer c k).2 = printed k
}.

Section print.
Context {K : Type} `{!Kernel K, !PrintLaws K}.

Lemma play_say fd text b k : exists k', play (say fd text b) k = (Returned (tt, b), k') /\ k' = (answer (UPrint fd text) k).2 /\ printed k' = printed k ++ [text].
Proof.
  exists (answer (UPrint fd text) k).2. split_and!; [|done|apply print_adds].
  unfold say. rewrite play_ubind. cbn. by destruct (answer (UPrint fd text) k).
Qed.

Lemma play_usys c b k : play (usys c b) k = (Returned ((answer c k).1.1, b), (answer c k).2).
Proof. cbn. by destruct (answer c k) as [r k']. Qed.

(** A call that passes its test, and one that does not. *)
Lemma play_must_ok bad c msg b k : bad (answer c k).1.1 = false -> play (must bad (usys c) msg b) k = (Returned ((answer c k).1.1, b), (answer c k).2).
Proof.
  intros H. unfold must. rewrite play_ubind, play_usys. cbn beta iota. rewrite H. unfold fails. by rewrite play_ubind.
Qed.

Lemma play_fails msg b k : exists k', play (fails true msg b) k = (Exited, k') /\ printed k' = printed k ++ [msg].
Proof.
  unfold fails. destruct (play_say 1 msg b k) as (k' & E & _ & P). exists k'. by rewrite play_ubind, E.
Qed.
End print.

(** * pipe1 *)

(** The bytes [pending] come from the descriptor [rd], in pieces as the kernel
    likes, none of them empty before the end. *)
Class PipeLaws (K : Type) `{!Kernel K} (rd : Z) := {
  pending : K -> list Z;
  read_takes n k : 0 < n -> exists got, (answer (URead rd n) k).1 = (Z.of_nat (length got), got) /\
    pending k = got ++ pending (answer (URead rd n) k).2 /\ Z.of_nat (length got) <= n /\ (pending k <> [] -> got <> []);
  call_reads_not c k : (forall n, c <> URead rd n) -> pending (answer c k).2 = pending k
}.

(** [n] bytes that count on from [sq]. *)
Definition count_from (sq : Z) (n : nat) : list Z := map (fun i => u8 (sq + Z.of_nat i)) (seq 0 n).

Lemma count_from_S sq n : count_from sq (S n) = u8 sq :: count_from (sq + 1) n.
Proof.
  unfold count_from. cbn [seq map]. rewrite Z.add_0_r. f_equal. rewrite <- seq_shift, map_map. apply map_ext. intros i. f_equal. lia.
Qed.

(** Bytes that count on, without the width of the counter. *)
Fixpoint counting (sq : Z) (l : list Z) : bool :=
  match l with [] => true | c :: l' => (Z.land c 0xff =? Z.land sq 0xff) && counting (sq + 1) l' end.

Lemma counts_on_counting l : forall sq, 0 <= sq -> sq + Z.of_nat (length l) <= INT_MAX -> counts_on sq l = Some (counting sq l).
Proof.
  induction l as [|c l IH]; intros sq Hs Hl; [done|]. cbn [counts_on counting length] in *. rewrite (proj2 (int_ok_iff (sq + 1))) by (unfold INT_MIN; lia). cbn [negb].
  destruct (Z.land c 0xff =? Z.land sq 0xff); [|done]. apply IH; lia.
Qed.

Lemma counting_iff l : forall sq, Forall (fun c => 0 <= c < 256) l -> counting sq l = true <-> l = count_from sq (length l).
Proof.
  induction l as [|c l IH]; intros sq Hl; [done|]. apply Forall_cons in Hl as [Hc Hl]. cbn [counting length]. rewrite count_from_S, andb_true_iff, IH by done.
  change 0xff with (Z.ones 8). rewrite !Z.land_ones by lia. change (2 ^ 8) with 256. rewrite (Z.mod_small c) by done. rewrite Z.eqb_eq. unfold u8.
  split; [intros [-> <-]; done|]. intros [= E1 E2]. by rewrite <- E2.
Qed.

Lemma counting_app l : forall sq m, counting sq (l ++ m) = counting sq l && counting (sq + Z.of_nat (length l)) m.
Proof.
  induction l as [|c l IH]; intros sq m; cbn [counting app length]; [by rewrite Z.add_0_r|]. rewrite IH, andb_assoc. do 2 f_equal. lia.
Qed.

(** printf prints what is not a percent sign as it is. *)
Lemma printf_literal l fuel m fmt ap i : Forall (fun c => c <> 37) l ->
  printf_loop fuel m (l ++ fmt) ap i false = app l <$> printf_loop fuel m fmt ap i false.
Proof.
  induction l as [|c l IH]; intros Hl; [by destruct (printf_loop _ _ _ _ _ _)|]. apply Forall_cons in Hl as [Hc Hl].
  cbn [app printf_loop]. unfold printf_char. cbn [negb]. destruct (Z.eqb_spec c 37); [done|]. simpl. rewrite IH by done.
  by destruct (printf_loop fuel m fmt ap i false).
Qed.

(** A text, a number and the end of the line. *)
Lemma printf_number l m n : Forall (fun c => c <> 37) l ->
  exists o, decimal (s32 n) o /\ printf 1 m (l ++ bytes "%d" ++ [10]) (fun i => nth i [n] 0) = Some (l ++ o ++ [10]).
Proof.
  intros Hl. destruct (printint_decimal (s32 n) (s32_range n)) as (o & Ho & Hd). exists o. split; [done|].
  unfold printf. rewrite printf_literal by done. change (bytes "%d" ++ [10]) with [37; 100; 10].
  cbn [printf_loop printf_char negb Z.eqb Pos.eqb mbind option_bind nth orb]. by rewrite Ho.
Qed.

Section pipe1.
Context {K : Type} `{!Kernel K, !PrintLaws K} {rd : Z} `{!PipeLaws K rd}.

Lemma play_read n b k got : (answer (URead rd n) k).1 = (Z.of_nat (length got), got) ->
  play (read_buf rd n b) k = (Returned (Z.of_nat (length got), got ++ drop (length got) b), (answer (URead rd n) k).2).
Proof. intros H. cbn. destruct (answer (URead rd n) k) as [r k']. cbn in *. by subst r. Qed.

(** The loop reads everything, and tells whether it counts on. *)
Lemma pipe1_read_ok f : forall cc sq total b k, 0 < cc -> (length (pending (rd := rd) k) < f)%nat ->
  0 <= sq -> sq + Z.of_nat (length (pending (rd := rd) k)) <= INT_MAX -> 0 <= total -> total + Z.of_nat (length (pending (rd := rd) k)) <= INT_MAX ->
  exists b' k', play (pipe1_read f rd cc sq total b) k =
    (Returned (if counting sq (pending (rd := rd) k) then Some (total + Z.of_nat (length (pending (rd := rd) k))) else None, b'), k') /\
    printed k' = printed k ++ (if counting sq (pending (rd := rd) k) then [] else [line "pipe1 oops 2"]).
Proof.
  induction f as [|f IH]; intros cc sq total b k Hcc Hf Hs0 Hs Ht0 Ht; [lia|]. cbn [pipe1_read].
  destruct (read_takes (rd := rd) cc k Hcc) as (got & Eg & Ep & Hle & Hne). rewrite play_ubind, (play_read cc b k got Eg). cbn beta iota.
  set (k1 := (answer (URead rd cc) k).2) in *. assert (printed k1 = printed k) as P1 by (apply call_prints_not; intros ?? [=]).
  destruct got as [|c got].
  - change (Z.of_nat (length (@nil Z)) >? 0) with false. destruct (pending k) as [|x l] eqn:E; [|by destruct Hne].
    exists b, k1. cbn [counting length app]. rewrite drop_0, Z.add_0_r. split; [done|]. by rewrite P1, app_nil_r.
  - set (g := c :: got) in *. assert (Z.of_nat (length g) >? 0 = true) as -> by (apply Z.gtb_lt; cbn [g length]; lia).
    rewrite play_ubind. cbn [getbuf play]. rewrite Nat2Z.id, take_app_length. rewrite Ep, length_app, Nat2Z.inj_add in Hs, Ht. rewrite counts_on_counting by lia.
    rewrite Ep, counting_app. destruct (counting sq g) eqn:Ec; cbn [andb].
    + rewrite (proj2 (int_ok_iff (total + Z.of_nat (length g)))) by (unfold INT_MIN; lia). cbn [negb]. cbv zeta. destruct (IH (if cc * 2 >? 8192 then 8192 else cc * 2) (sq + Z.of_nat (length g)) (total + Z.of_nat (length g)) (g ++ drop (length g) b) k1) as (b' & k' & E' & P').
      * destruct (cc * 2 >? 8192); lia.
      * rewrite Ep, length_app in Hf. cbn [g length] in Hf. lia.
      * lia.
      * lia.
      * lia.
      * lia.
      * exists b', k'. rewrite E', P', P1. split; [|done]. rewrite length_app, Nat2Z.inj_add, Z.add_assoc. done.
    + destruct (play_say 1 (line "pipe1 oops 2") (g ++ drop (length g) b) k1) as (k' & E' & _ & P'). exists (g ++ drop (length g) b), k'.
      rewrite play_ubind, E'. split; [done|]. by rewrite P', P1.
Qed.

Definition complaint (t : list Z) : Prop := take 10 t = bytes "pipe1 oops".

(** The complaint about the number of bytes. *)
Lemma oops3 total b k : exists k' t, play ((sayf 1 (line "pipe1 oops 3 total %d") [total] ;; exit_ : U unit)%prog b) k = (Exited, k') /\
  printed k' = printed k ++ [t] /\ complaint t.
Proof.
  destruct (printf_number (bytes "pipe1 oops 3 total ") mem0 total) as (o & _ & E); [by repeat constructor|].
  rewrite (app_assoc _ (bytes "%d")) in E. change (bytes "pipe1 oops 3 total " ++ bytes "%d") with (bytes "pipe1 oops 3 total %d") in E.
  set (t := bytes "pipe1 oops 3 total " ++ o ++ [10]) in *. fold (line "pipe1 oops 3 total %d") in E.
  unfold sayf. rewrite E, play_ubind. destruct (play_say 1 t b k) as (k' & E' & _ & P'). rewrite E'. by exists k', t.
Qed.
End pipe1.

(** C27: however the kernel cuts the bytes of the pipe into pieces, the parent of
    pipe1 prints that it is ok when they are the 5165 bytes that its child
    counts up, and a complaint when they are anything else, up to the bytes
    its ints can count. *)
Theorem pipe1_accepts_only_the_stream `{!Kernel K, !PrintLaws K} rd `{!PipeLaws K rd} fuel wr b (k : K) :
  Forall (fun c => 0 <= c < 256) (pending (rd := rd) k) -> (length (pending (rd := rd) k) < fuel)%nat -> Z.of_nat (length (pending (rd := rd) k)) <= INT_MAX ->
  exists e k' t, play (pipe1_parent fuel rd wr b) k = (e, k') /\ printed k' = printed k ++ [t] /\
    if decide (pending (rd := rd) k = count_from 0 (Z.to_nat (5 * 1033))) then (exists b', e = Returned (tt, b')) /\ t = line "pipe1 ok" else complaint t.
Proof.
  intros Hb Hf Hi. unfold pipe1_parent, close. rewrite play_ubind, play_usys. cbn beta iota. set (k1 := (answer (UClose wr) k).2).
  assert (printed k1 = printed k) as P1 by (apply call_prints_not; intros ?? [=]).
  assert (pending (rd := rd) k1 = pending (rd := rd) k) as Q1 by (apply call_reads_not; intros ? [=]).
  destruct (pipe1_read_ok (rd := rd) fuel 1 0 0 b k1 ltac:(lia) ltac:(by rewrite Q1) ltac:(lia) ltac:(rewrite Q1; lia) ltac:(lia) ltac:(rewrite Q1; lia)) as (b2 & k2 & E2 & P2).
  rewrite play_ubind, E2. cbn beta iota. rewrite Q1 in *. pose proof (counting_iff (pending k) 0 Hb) as Hc.
  destruct (counting 0 (pending k)).
  - assert (pending k = count_from 0 (length (pending k))) as Hp by (by apply Hc). rewrite Z.add_0_l. rewrite app_nil_r in P2.
    rewrite play_ubind. destruct (Z.eqb_spec (Z.of_nat (length (pending k))) (5 * 1033)) as [El|El]; cbn [negb].
    + destruct (decide _) as [_|Hn]; [|destruct Hn; rewrite Hp; f_equal; lia]. cbn [play uret]. unfold close. rewrite !play_ubind, !play_usys. cbn beta iota.
      rewrite play_ubind, play_usys. cbn beta iota. set (k4 := (answer UWait _).2).
      destruct (play_say 1 (line "pipe1 ok") b2 k4) as (k5 & E5 & _ & P5). eexists _, k5, _. split_and!; [exact E5| |by eexists|done].
      rewrite P5. f_equal. unfold k4. rewrite !call_prints_not by (intros ?? [=]). by rewrite P2, P1.
    + destruct (decide _) as [Hn|_]; [rewrite Hn in El; by vm_compute in El|].
      destruct (oops3 (Z.of_nat (length (pending k))) b2 k2) as (k3 & t & E3 & P3 & C3). rewrite E3. eexists _, k3, t. by rewrite P3, P2, P1.
  - destruct (decide _) as [Hn|_]; [assert (false = true) as [=]; apply Hc; by rewrite Hn|]. eexists _, k2, _. split; [done|].
    split; [by rewrite P2, P1|]. done.
Qed.

(** A kernel whose pipe holds [bytes] and gives at most three at a time. *)
#[local] Instance three_bytes : Kernel (list Z * list (list Z)) := {|
  answer := fun c k =>
    match c with
    | URead fd n =>
        if fd =? 5 then let m := Nat.min 3 (Z.to_nat n) in ((Z.of_nat (length (take m k.1)), take m k.1), (drop m k.1, k.2))
        else ((0, []), k)
    | UPrint _ t => ((0, []), (k.1, k.2 ++ [t]))
    | _ => ((0, []), k)
    end
|}.
#[local] Program Instance three_bytes_print : PrintLaws (list Z * list (list Z)) := {| printed := snd |}.
Next Obligation. done. Qed.
Next Obligation. intros c [l o] H. destruct c; try done; cbn; [by destruct (fd =? 5)|by destruct (H fd text)]. Qed.
#[local] Program Instance three_bytes_pipe : PipeLaws (list Z * list (list Z)) 5 := {| pending := fst |}.
Next Obligation.
  intros n [l o] Hn. set (m := Nat.min 3 (Z.to_nat n)). exists (take m l). split_and!; [done|cbn; by rewrite take_drop| |].
  - rewrite length_take. lia.
  - cbn [pending fst]. intros Hl E. destruct l; [done|]. assert (0 < m)%nat by lia. by destruct m; [lia|].
Qed.
Next Obligation. intros c [l o] H. destruct c; try done. cbn. destruct (Z.eqb_spec fd 5) as [->|]; [by destruct (H n)|done]. Qed.

(** A pipe with the stream in it. *)
Definition full_pipe : list Z * list (list Z) := (count_from 0 (Z.to_nat (5 * 1033)), []).

Lemma pipe1_accepts_only_the_stream_witness :
  exists e k' t, play (pipe1_parent (Z.to_nat 6000) 5 6 buf0) full_pipe = (e, k') /\ printed k' = printed full_pipe ++ [t] /\
    if decide (pending (rd := 5) full_pipe = count_from 0 (Z.to_nat (5 * 1033))) then (exists b', e = Returned (tt, b')) /\ t = line "pipe1 ok" else complaint t.
Proof.
  apply (@pipe1_accepts_only_the_stream _ three_bytes three_bytes_print 5 three_bytes_pipe (Z.to_nat 6000) 6 buf0 full_pipe).
  - apply Forall_forall. intros c Hc. apply list_elem_of_In, in_map_iff in Hc as (i & <- & _). apply Z.mod_pos_bound. lia.
  - apply Nat.ltb_lt. vm_compute. reflexivity.
  - vm_compute. discriminate.
Defined.

(** * forktest *)

(** A process that can have [slots] more children, and has [kids] to wait for. *)
Class ForkLaws (K : Type) `{!Kernel K} := {
  slots : K -> nat;
  kids : K -> nat;
  fork_full k : slots k = 0%nat -> (answer UFork k).1.1 < 0 /\ kids (answer UFork k).2 = kids k;
  fork_works k : slots k <> 0%nat -> 0 < (answer UFork k).1.1 /\
    slots (answer UFork k).2 = Nat.pred (slots k) /\ kids (answer UFork k).2 = S (kids k);
  wait_none k : kids k = 0%nat -> (answer UWait k).1.1 = -1 /\ kids (answer UWait k).2 = 0%nat;
  wait_one k : kids k <> 0%nat -> 0 < (answer UWait k).1.1 /\ kids (answer UWait k).2 = Nat.pred (kids k);
  print_forks_not fd t k : slots (answer (UPrint fd t) k).2 = slots k /\ kids (answer (UPrint fd t) k).2 = kids k
}.

Section forktest.
Context {K : Type} `{!Kernel K, !PrintLaws K, !ForkLaws K}.

Lemma fork_all_ok left : forall n b k, exists k', play (fork_all left n b) k = (Returned (n + Z.of_nat (Nat.min left (slots k)), b), k') /\
  kids k' = (kids k + Nat.min left (slots k))%nat /\ printed k' = printed k.
Proof.
  induction left as [|left IH]; intros n b k; cbn [fork_all].
  - exists k. cbn. by rewrite Z.add_0_r, Nat.add_0_r.
  - rewrite play_ubind, play_usys. cbn beta iota. set (k1 := (answer UFork k).2).
    assert (printed k1 = printed k) as P1 by (apply call_prints_not; intros ?? [=]).
    destruct (decide (slots k = 0%nat)) as [E|E].
    + destruct (fork_full k E) as [Hr Hk]. rewrite (proj2 (Z.ltb_lt _ _)) by done. exists k1. rewrite E, Nat.min_0_r, Z.add_0_r, Nat.add_0_r. done.
    + destruct (fork_works k E) as (Hr & Hs & Hk). rewrite (proj2 (Z.ltb_ge _ _)), (proj2 (Z.eqb_neq _ _)) by lia.
      destruct (IH (n + 1) b k1) as (k' & E' & K' & P'). exists k'. rewrite E', K', P', P1. fold k1 in Hs, Hk. rewrite Hs, Hk.
      split_and!; [|lia|done]. do 3 f_equal. lia.
Qed.

Lemma wait_all_ok n : forall b k, (n <= kids k)%nat -> exists k', play (wait_all n b) k = (Returned (tt, b), k') /\ kids k' = (kids k - n)%nat /\ printed k' = printed k.
Proof.
  induction n as [|n IH]; intros b k Hn; cbn [wait_all].
  - exists k. split_and!; [done|lia|done].
  - destruct (wait_one k ltac:(lia)) as [Hr Hk]. rewrite play_ubind, play_must_ok by (apply Z.ltb_ge; lia). cbn beta iota.
    destruct (IH b (answer UWait k).2) as (k' & E & K' & P'); [lia|]. exists k'. rewrite E, K', Hk, P'. split_and!; [done|lia|].
    apply call_prints_not. intros ?? [=].
Qed.
End forktest.

(** forktest ends well when fewer than 1000 children can be had, after it has
    waited for all of them, and complains when fork works 1000 times. *)
Theorem forktest_counts_children `{!Kernel K, !PrintLaws K, !ForkLaws K} b (k : K) :
  kids k = 0%nat ->
  exists e k' t, play (forktest b) k = (e, k') /\ printed k' = printed k ++ [line "fork test"; t] /\
    if decide (slots k < 1000)%nat then e = Returned (tt, b) /\ kids k' = 0%nat /\ t = line "fork test OK"
    else e = Exited /\ t = line "fork claimed to work 1000 times!".
Proof.
  intros Hk. unfold forktest. destruct (play_say 1 (line "fork test") b k) as (k1 & E1 & Ek1 & P1). rewrite play_ubind, E1. cbn beta iota.
  destruct (print_forks_not 1 (line "fork test") k) as [S1 C1]. rewrite <- Ek1 in S1, C1.
  destruct (fork_all_ok 1000 0 b k1) as (k2 & E2 & C2 & P2). rewrite play_ubind, E2. cbn beta iota. rewrite S1, C1, Hk, Z.add_0_l in *. rewrite play_ubind.
  destruct (decide (slots k < 1000)%nat) as [Hs|Hs].
  - rewrite Nat.min_r in * by lia. rewrite (proj2 (Z.eqb_neq _ _)) by lia. cbn [fails]. cbn [play uret]. rewrite play_ubind, Nat2Z.id.
    destruct (wait_all_ok (slots k) b k2 ltac:(lia)) as (k3 & E3 & C3 & P3). rewrite E3. cbn beta iota.
    destruct (wait_none k3 ltac:(lia)) as [Hw Hk3]. rewrite play_ubind, play_must_ok by (by rewrite Hw). cbn beta iota.
    destruct (play_say 1 (line "fork test OK") b (answer UWait k3).2) as (k4 & E4 & Ek4 & P4). eexists _, k4, _. split_and!; [exact E4| |done| |done].
    + rewrite P4, call_prints_not by (intros ?? [=]). by rewrite P3, P2, P1, <- app_assoc.
    + rewrite Ek4. destruct (print_forks_not 1 (line "fork test OK") (answer UWait k3).2) as [_ ->]. exact Hk3.
  - rewrite Nat.min_l in * by lia. change (Z.of_nat 1000 =? 1000) with true.
    destruct (play_fails (line "fork claimed to work 1000 times!") b k2) as (k3 & E3 & P3). rewrite E3. eexists _, k3, _.
    split_and!; [done| |done|done]. by rewrite P3, P2, P1, <- app_assoc.
Qed.

(** A process table with room for [k.1.1] processes. *)
#[local] Instance proc_table : Kernel (nat * nat * list (list Z)) := {|
  answer := fun c k =>
    match c with
    | UFork => if (k.1.1 =? 0)%nat then ((-1, []), k) else ((7, []), (Nat.pred k.1.1, S k.1.2, k.2))
    | UWait => if (k.1.2 =? 0)%nat then ((-1, []), k) else ((7, []), (S k.1.1, Nat.pred k.1.2, k.2))
    | UPrint _ t => ((0, []), (k.1, k.2 ++ [t]))
    | _ => ((0, []), k)
    end
|}.
#[local] Program Instance proc_table_print : PrintLaws (nat * nat * list (list Z)) := {| printed := snd |}.
Next Obligation. done. Qed.
Next Obligation. intros c [[n m] o] H. destruct c; try done; cbn; [by destruct n|by destruct m|by destruct (H fd text)]. Qed.
#[local] Program Instance proc_table_fork : ForkLaws (nat * nat * list (list Z)) := {| slots := fun k => k.1.1; kids := fun k => k.1.2 |}.
Next Obligation. by intros [[n m] o] [= ->]. Qed.
Next Obligation. by intros [[[|n] m] o] H; [destruct H|]. Qed.
Next Obligation. by intros [[n m] o] [= ->]. Qed.
Next Obligation. by intros [[n [|m]] o] H; [destruct H|]. Qed.
Next Obligation. done. Qed.

(** The table of proc.c has room for 61 more. *)
Lemma forktest_counts_children_witness :
  let k := (61%nat, 0%nat, []) in
  exists e k' t, play (forktest buf0) k = (e, k') /\ printed k' = printed k ++ [line "fork test"; t] /\
    if decide (slots k < 1000)%nat then e = Returned (tt, buf0) /\ kids k' = 0%nat /\ t = line "fork test OK"
    else e = Exited /\ t = line "fork claimed to work 1000 times!".
Proof. intros k. apply (@forktest_counts_children _ proc_table proc_table_print proc_table_fork buf0 k). done. Defined.

(** * What the tests do not notice *)

(** A disk that forgets: files can be created and written, and are empty. *)
#[local] Instance forgetful : Kernel (list (list Z)) := {|
  answer := fun c k =>
    match c with
    | UOpen _ _ => ((3, []), k)
    | UWrite _ l => ((Z.of_nat (length l), []), k)
    | UPrint _ t => ((0, []), k ++ [t])
    | _ => ((0, []), k)
    end
|}.

(** writetest1 is content with a file that has lost all its blocks: it only
    compares the number of blocks with MAXFILE - 1. *)
Theorem writetest1_accepts_lost_file : exists b,
  play (K := list (list Z)) (writetest1 10 buf0) [] = (Returned (tt, b), [line "big files test"; line "big files ok"]).
Proof. eexists. vm_compute. reflexivity. Qed.

(** A parent whose children wrote f0 and f1 only; the descriptors read so far. *)
#[local] Instance two_files : Kernel (list Z * list (list Z)) := {|
  answer := fun c k =>
    match c with
    | UFork | UWait => ((7, []), k)
    | UOpen p _ => ((if decide (p = four_name 0) then 3 else if decide (p = four_name 1) then 4 else -1, []), k)
    | URead fd _ =>
        if decide (fd ∈ k.1) then ((0, []), k)
        else ((6000, replicate (Z.to_nat 6000) (if fd =? 3 then 48 else 49)), (fd :: k.1, k.2))
    | UPrint _ t => ((0, []), (k.1, k.2 ++ [t]))
    | _ => ((0, []), k)
    end
|}.

(** fourfiles is content when two of the four files do not exist. *)
Theorem fourfiles_accepts_two_files : exists b fds,
  play (K := list Z * list (list Z)) (fourfiles 10 buf0) ([], []) = (Returned (tt, b), (fds, [line "fourfiles test"; line "fourfiles ok"])).
Proof. eexists _, _. vm_compute. reflexivity. Qed.

(** The calls of a loop whose rounds make the calls [f i], on any kernel. *)
Lemma ufor_calls sys (body : Z -> U unit) f :
  (forall i b h, play (Kernel0 := oracle sys) (body i b) h = (Returned (tt, b), h ++ f i)) ->
  forall n i b h, play (Kernel0 := oracle sys) (ufor n i body b) h = (Returned (tt, b), h ++ concat (map f (seqZ i (Z.of_nat n)))).
Proof.
  intros Hb n. induction n as [|n IH]; intros i b h; cbn [ufor]; [by rewrite app_nil_r|].
  rewrite play_ubind, Hb, IH. rewrite (seqZ_cons i (Z.of_nat (S n))) by lia. cbn [map concat].
  replace (Z.pred (Z.of_nat (S n))) with (Z.of_nat n) by lia. replace (Z.succ i) with (i + 1) by lia. by rewrite <- app_assoc.
Qed.

(** createdelete, which has made sure that q0 exists, does not remove it: of
    the files p0, p1, ... q0, ..., its last loop removes p0, q1, r2 and so on,
    four times each, whatever the kernel answers. *)
Theorem createdelete_leaves_files sys b h :
  exists h', play (Kernel0 := oracle sys) (createdelete_cleanup b) h = (Returned (tt, b), h ++ h') /\
    h' = concat (map (fun i => replicate 4 (UUnlink (cd_name i i))) (seqZ 0 20)) /\ UUnlink (cd_name 1 0) ∉ h'.
Proof.
  eexists. split; [|split; [reflexivity|]].
  - apply (ufor_calls sys _ (fun i => replicate 4 (UUnlink (cd_name i i)))). intros i b' h'.
    apply (ufor_calls sys (fun _ => usys (UUnlink (cd_name i i)) ;; uret tt)%prog (fun _ => [UUnlink (cd_name i i)])). done.
  - apply (bool_decide_unpack _). vm_compute. exact I.
Qed.
