(* ===== verification/Tests.v ===== *)
(** The other test programs (src/xv6-public: forktest.c, stressfs.c, test1.c,
    test2.c, test3.c, test1_nice.c, test2_nice.c, test3_nice.c), and the trial
    division they keep the processor busy with. *)
From Stdlib Require Import Zdivisibility.
From S2P Require Import Prelude CString Ulib Uprog Usertests UsertestsSpec.
#[local] Open Scope prog_scope.

Definition MOD : Z := 65.

(** * Trial division *)

(** [for (j = 2; j * j <= i; j++) if (i % j == 0) ...]: is no divisor found?
    [None]: the product overflows, or the bound is too small. *)
Fixpoint trial (f : nat) (i j : Z) : option bool :=
  match f with
  | O => None
  | S f' =>
      if negb (int_ok (j * j)) then None
      else if j * j <=? i then if Z.rem i j =? 0 then Some false else trial f' i (j + 1)
      else Some true
  end.

Definition is_prime (i : Z) : option bool := trial (Z.to_nat i) i 2.

(** The loop of test3.c from [i] on, [n] rounds: the primes counted. *)
Fixpoint count_primes (n : nat) (i prime_count : Z) : option Z :=
  match n with
  | O => Some prime_count
  | S n' => b ← is_prime i; count_primes n' (i + 1) (if b : bool then prime_count + 1 else prime_count)
  end.

(** A value that a loop computes. *)
Definition uopt {A} (o : option A) : U A := match o with Some a => uret a | None => stuck end.

(** * test1.c *)

Definition test1_prime : U unit :=
  ufor 5 2 (fun num =>
    prime <- uopt (is_prime num) ;;
    if prime : bool then pid <- usys UGetpid ;; sayf 1 (line "Pid: %d, Prime: %d") [pid; num] else uret tt).

Definition test1_main : U unit :=
  say 1 (line "-------------- Test Case 1 with Custom Scheduler ---------") ;;
  say 1 (line "Lowering the Parent's Priority Below the Child's Priority") ;;
  pid <- usys UFork ;;
  usys (USleep 200) ;;
  (if pid <? 0 then me <- usys UGetpid ;; sayf 2 (line "Fork fail in pid: %d") [me] ;; exit_ else uret tt) ;;
  (if pid >? 0 then
     me <- usys UGetpid ;;
     sayf 1 (line "Change Parents priority to 1 with pid=%d") [me] ;;
     me <- usys UGetpid ;;
     usys (UNice me 1) ;;
     uret tt
   else uret tt) ;;
  if pid =? 0 then
    me <- usys UGetpid ;;
    sayf 1 (line "Child process with pid=%d") [me] ;;
    test1_prime ;;
    exit_
  else
    me <- usys UGetpid ;;
    sayf 1 (line "Parent process with pid=%d") [me] ;;
    test1_prime ;;
    usys UWait ;;
    exit_.

(** * test2.c *)

(** The endless loop, left after [t] ticks. *)
Fixpoint find_primes_loop (f : nat) (pid priority t start_time i : Z) : U unit :=
  match f with
  | O => stuck
  | S f' =>
      uopt (is_prime i) ;;
      current_time <- usys UUptime ;;
      if current_time - start_time >=? t then
        end_time <- usys UUptime ;;
        sayf 1 (line "Finished Current PID: %d, Priority: %d, Execution Time: %d") [pid; priority; end_time - start_time] ;;
        exit_
      else find_primes_loop f' pid priority t start_time (i + 1)
  end.

Definition find_primes (f : nat) (priority t : Z) : U unit :=
  pid <- usys UGetpid ;;
  usys (UNice pid priority) ;;
  start_time <- usys UUptime ;;
  sayf 1 (line "Started Current PID: %d, Priority: %d") [pid; priority] ;;
  find_primes_loop f pid priority t start_time 1.

(** [while(wait()!=-1);] *)
Fixpoint wait_for_all (f : nat) : U unit :=
  match f with O => stuck | S f' => r <- usys UWait ;; if r =? -1 then uret tt else wait_for_all f' end.

Definition test2_main (f : nat) : U unit :=
  ufor 3 0 (fun _ =>
    p <- usys UFork ;;
    if p =? 0 then find_primes f 2 1000 ;; exit_ else uret tt) ;;
  wait_for_all f ;;
  exit_.

(** * test3.c *)

Definition calculate_primes (priority : Z) : U unit :=
  pid <- usys UGetpid ;;
  usys (UNice pid priority) ;;
  start_time <- usys UUptime ;;
  sayf 1 (line "Started Current PID: %d, Priority: %d") [pid; priority] ;;
  prime_count <- uopt (count_primes (Z.to_nat (1000000 - 1)) 2 0) ;;
  end_time <- usys UUptime ;;
  sayf 1 (line "Finished Current PID: %d, Priority: %d, Execution Time: %d ticks, Total Primes Found: %d")
    [pid; priority; end_time - start_time; prime_count] ;;
  exit_.

Definition test3_main : U unit :=
  ufor 4 0 (fun i =>
    pid <- usys UFork ;;
    if pid =? 0 then calculate_primes (nth (Z.to_nat i) [2; 2; 4; 4] 0) else uret tt) ;;
  ufor 4 0 (fun _ => usys UWait ;; uret tt) ;;
  exit_.

(** * The tests of nice *)

(** One round: the value is asked for and the result taken apart. *)
Definition nice_round (value : Z) : U unit :=
  me <- usys UGetpid ;;
  res <- usys (UNice me value) ;;
  if res <? 0 then say 1 (line "Failed: Unable to Change Value")
  else sayf 1 (line "Current PID: %d, Old_Value: %d, New Value: %d") [Z.quot res MOD; Z.rem res MOD; value].

Definition test1_nice : U unit :=
  say 1 (line "Test 1: Nice Value") ;;
  nice_round 4 ;;
  nice_round 2 ;;
  exit_.

Definition test2_nice : U unit :=
  say 1 (line "Test 2: Passing value as 8 in nice which is out of bounds.") ;;
  usys (UNice 2 8) ;;
  exit_.

Definition test3_nice : U unit :=
  say 1 (line "Test 3: Changing the value of a process that does not exist.") ;;
  usys (UNice 70 3) ;;
  exit_.

(** * stressfs.c *)

(** The loop with fork: the value of [i] when it is left. *)
Fixpoint stressfs_fork (n : nat) (i : Z) : U Z :=
  match n with
  | O => uret i
  | S n' => pid <- usys UFork ;; if pid >? 0 then uret i else stressfs_fork n' (i + 1)
  end.

Definition stressfs_main : U unit :=
  say 1 (line "stressfs starting") ;;
  i <- stressfs_fork 4 0 ;;
  sayf 1 (line "write %d") [i] ;;
  let path := bytes "stressfs" ++ [48 + i] in
  fd <- usys (UOpen path (Z.lor O_CREATE O_RDWR)) ;;
  ufor 20 0 (fun _ => usys (UWrite fd (replicate 512 97)) ;; uret tt) ;;
  close fd ;;
  say 1 (line "read") ;;
  fd <- usys (UOpen path O_RDONLY) ;;
  ufor 20 0 (fun _ => usys (URead fd 512) ;; uret tt) ;;
  close fd ;;
  usys UWait ;;
  exit_.

(** * forktest.c *)

(** Its printf writes the format as it is. *)
Definition forktest_program : U unit :=
  say 1 (line "fork test") ;;
  n <- fork_all 1000 0 ;;
  fails (n =? 1000) (line "fork claimed to work N times!") ;;
  wait_all (Z.to_nat n) ;;
  must (not_ (-1)) (usys UWait) (line "wait got too many") ;;
  say 1 (line "fork test OK").

Definition forktest_main : U unit := forktest_program ;; exit_.

(** * Trial division decides primality *)

Lemma prime_no_small i : 2 <= i -> Z.prime i <-> forall d, 2 <= d -> d * d <= i -> ~ (d | i).
Proof.
  intros Hi. split.
  - intros [_ Hp] d Hd Hs. apply Hp. nia.
  - intros H. split; [lia|]. intros d Hd Hdiv. destruct (Z.le_gt_cases (d * d) i) as [Hle|Hgt]; [apply (H d); lia || done|].
    destruct Hdiv as [q ->]. apply (H q); [nia|nia|]. exists d. lia.
Qed.

Lemma trial_ok i : 2 <= i < 46340 * 46340 -> forall f j, 2 <= j -> (forall d, 2 <= d < j -> ~ (d | i)) -> (j - 1) * (j - 1) <= i -> i < j + Z.of_nat f ->
  exists b, trial f i j = Some b /\ (b = true <-> Z.prime i).
Proof.
  intros Hi f. induction f as [|f IH]; intros j Hj Hno Hsq Hf; cbn [trial].
  - nia.
  - assert (j <= 46340) by nia. assert (int_ok (j * j) = true) as -> by (apply int_ok_iff; unfold INT_MIN, INT_MAX; nia). cbn [negb].
    destruct (Z.leb_spec (j * j) i) as [Hle|Hgt].
    + destruct (Z.eqb_spec (Z.rem i j) 0) as [E|E].
      * exists false. split; [done|]. split; [done|]. intros Hp. exfalso. apply (proj1 (prime_no_small i ltac:(lia)) Hp j); [lia|lia|].
        apply Z.rem_divide; lia.
      * apply IH; [lia| |replace (j + 1 - 1) with j by lia; done|lia]. intros d Hd Hdiv. destruct (Z.eq_dec d j) as [->|]; [|apply (Hno d); lia || done].
        apply E, Z.rem_divide; lia || done.
    + exists true. split; [done|]. split; [|done]. intros _. apply prime_no_small; [lia|]. intros d Hd Hs. apply Hno. nia.
Qed.

(** Primes are decidable, by the loop itself. *)
Definition primeb (i : Z) : bool := default false (is_prime i).

Lemma is_prime_ok i : 2 <= i < 46340 * 46340 -> is_prime i = Some (primeb i) /\ (primeb i = true <-> Z.prime i).
Proof.
  intros Hi. destruct (trial_ok i Hi (Z.to_nat i) 2) as (b & E & Hb); [lia|lia|lia|lia|]. unfold primeb, is_prime. by rewrite E.
Qed.

Lemma count_primes_ok n : forall i c, 2 <= i -> i + Z.of_nat n <= 46340 * 46340 ->
  count_primes n i c = Some (c + Z.of_nat (length (filter (fun p => primeb p = true) (seqZ i (Z.of_nat n))))).
Proof.
  induction n as [|n IH]; intros i c Hi Hn; cbn [count_primes]; [cbn; by rewrite Z.add_0_r|].
  destruct (is_prime_ok i) as [E _]; [lia|]. rewrite E. cbn [mbind option_bind]. rewrite IH by lia.
  rewrite (seqZ_cons i (Z.of_nat (S n))) by lia. replace (Z.pred (Z.of_nat (S n))) with (Z.of_nat n) by lia. rewrite <- Z.add_1_r.
  f_equal. destruct (primeb i) eqn:Eb.
  - rewrite filter_cons_True by done. cbn [length]. lia.
  - rewrite filter_cons_False by (by rewrite Eb). done.
Qed.

(** C28: the loop of test3.c counts the primes: up to any limit below 46340 * 46340,
    where its products would overflow, the number it finds is that of the primes
    up to the limit. *)
Theorem test3_counts_primes N : 2 <= N < 46340 * 46340 ->
  exists l, NoDup l /\ (forall p, p ∈ l <-> Z.prime p /\ p <= N) /\ count_primes (Z.to_nat (N - 1)) 2 0 = Some (Z.of_nat (length l)).
Proof.
  intros HN. exists (filter (fun p => primeb p = true) (seqZ 2 (Z.of_nat (Z.to_nat (N - 1))))). split_and!.
  - apply NoDup_filter, NoDup_seqZ.
  - intros p. rewrite list_elem_of_filter, elem_of_seqZ. split.
    + intros [Hp Hr]. split; [|lia]. apply (is_prime_ok p); [lia|done].
    + intros [Hp Hr]. pose proof Hp as [H1 _]. split; [|lia]. apply (is_prime_ok p); [lia|done].
  - rewrite count_primes_ok by lia. by rewrite Z.add_0_l.
Qed.

(** The limit of the program. *)
Lemma test3_counts_primes_witness :
  exists l, NoDup l /\ (forall p, p ∈ l <-> Z.prime p /\ p <= 1000000) /\ count_primes (Z.to_nat (1000000 - 1)) 2 0 = Some (Z.of_nat (length l)).
Proof. apply (test3_counts_primes 1000000). lia. Defined.

(** * The tests of nice on a kernel with priorities *)

(** getpid and nice as [NiceKill] has them: nice returns the pid and the old
    priority in one number. *)
Class NiceLaws (K : Type) `{!Kernel K} := {
  me : K -> Z;
  prio : K -> Z;
  getpid_me k : (answer UGetpid k).1.1 = me k /\ me (answer UGetpid k).2 = me k /\ prio (answer UGetpid k).2 = prio k;
  nice_me v k : (answer (UNice (me k) v) k).1.1 = me k * MOD + prio k /\
    me (answer (UNice (me k) v) k).2 = me k /\ prio (answer (UNice (me k) v) k).2 = v;
  print_nices_not fd t k : me (answer (UPrint fd t) k).2 = me k /\ prio (answer (UPrint fd t) k).2 = prio k
}.

(** Texts, each followed by a number. *)
Lemma printf_numbers xs m ap : forall i tail, Forall (fun x => Forall (fun c => c <> 37) x.1) xs -> Forall (fun c => c <> 37) tail ->
  (forall j x, xs !! j = Some x -> ap (i + j)%nat = x.2) ->
  exists os, Forall2 (fun x o => decimal (s32 x.2) o) xs os /\
    printf_loop 1 m (concat (map (fun x => x.1 ++ [37; 100]) xs) ++ tail) ap i false = Some (concat (zip_with (fun x o => x.1 ++ o) xs os) ++ tail).
Proof.
  induction xs as [|[l n] xs IH]; intros i tail Hl Ht Hap.
  - exists []. split; [done|]. cbn. rewrite <- (app_nil_r tail) at 1. rewrite printf_literal by done. simpl. by rewrite app_nil_r.
  - apply Forall_cons in Hl as [Hl Hxs]. cbn [map concat fst]. rewrite <- !app_assoc, printf_literal by done.
    destruct (printf_piece 1 m (Dec n) ap i (concat (map (fun x => x.1 ++ [37; 100]) xs) ++ tail)) as (o & Ho & E); [done|cbn; lia| |].
    { intros [|j] a; [|done]. intros [= <-]. apply (Hap 0%nat (l, n)). done. }
    destruct (IH (i + 1)%nat tail Hxs Ht) as (os & Hos & E2).
    { intros j x Hx. rewrite <- Nat.add_assoc. by apply (Hap (S j)). }
    exists (o :: os). split; [by constructor|]. cbn [piece_fmt app piece_args length] in E. cbn [app]. rewrite E, E2. cbn [zip_with concat fst]. simpl. by rewrite <- !app_assoc.
Qed.

(** "Current PID: p, Old_Value: o, New Value: v" *)
Definition reports (t : list Z) (p o v : Z) : Prop := exists dp d_o dv, decimal p dp /\ decimal o d_o /\ decimal v dv /\
  t = bytes "Current PID: " ++ dp ++ bytes ", Old_Value: " ++ d_o ++ bytes ", New Value: " ++ dv ++ [10].

Lemma report_printed p o v : INT_MIN <= p <= INT_MAX -> INT_MIN <= o <= INT_MAX -> INT_MIN <= v <= INT_MAX ->
  exists t, printf 1 mem0 (line "Current PID: %d, Old_Value: %d, New Value: %d") (fun i => nth i [p; o; v] 0) = Some t /\ reports t p o v.
Proof.
  intros Hp Ho Hv.
  destruct (printf_numbers [(bytes "Current PID: ", p); (bytes ", Old_Value: ", o); (bytes ", New Value: ", v)] mem0 (fun i => nth i [p; o; v] 0) 0 [10])
    as (os & Hos & E); [by repeat constructor|by repeat constructor|by intros [|[|[|j]]] x [= <-]|].
  apply Forall2_cons_inv_l in Hos as (dp & os1 & Hdp & Hos & ->). apply Forall2_cons_inv_l in Hos as (d_o & os2 & Hdo & Hos & ->).
  apply Forall2_cons_inv_l in Hos as (dv & os3 & Hdv & Hos & ->). apply Forall2_nil_inv_l in Hos as ->. cbn [snd] in *. rewrite s32_id in Hdp, Hdo, Hdv by done.
  eexists. split; [exact E|]. exists dp, d_o, dv. split_and!; try done. cbn [zip_with concat fst]. by rewrite app_nil_r, <- !app_assoc.
Qed.

Section nice.
Context {K : Type} `{!Kernel K, !PrintLaws K, !NiceLaws K}.

Lemma nice_round_ok v b k : 0 < me k -> 0 <= prio k < MOD -> me k * MOD + prio k <= INT_MAX -> INT_MIN <= v <= INT_MAX ->
  exists k' t, play (nice_round v b) k = (Returned (tt, b), k') /\ printed k' = printed k ++ [t] /\ reports t (me k) (prio k) v /\
    me k' = me k /\ prio k' = v.
Proof.
  intros Hm Hp Hmax Hv. unfold nice_round. rewrite play_ubind, play_usys. cbn beta iota. set (k1 := (answer UGetpid k).2).
  destruct (getpid_me k) as (-> & M1 & R1). fold k1 in M1, R1. rewrite <- M1. rewrite play_ubind, play_usys. cbn beta iota. set (k2 := (answer (UNice (me k1) v) k1).2).
  destruct (nice_me v k1) as (-> & M2 & R2). fold k2 in M2, R2. rewrite M1, R1 in *. unfold MOD in *. rewrite (proj2 (Z.ltb_ge _ _)) by nia.
  assert (Z.quot (me k * 65 + prio k) 65 = me k) as -> by (rewrite Z.quot_div_nonneg by nia; rewrite Z.div_add_l by lia; rewrite Z.div_small; lia).
  assert (Z.rem (me k * 65 + prio k) 65 = prio k) as -> by (rewrite Z.rem_mod_nonneg by nia; rewrite Z.add_comm, Z.mod_add by lia; apply Z.mod_small; lia).
  destruct (report_printed (me k) (prio k) v) as (t & E & Ht); [unfold INT_MIN, INT_MAX in *; nia..|]. unfold sayf. rewrite E.
  destruct (play_say 1 t b k2) as (k3 & E3 & Ek3 & P3). exists k3, t. destruct (print_nices_not 1 t k2) as [M3 R3]. rewrite <- Ek3 in M3, R3.
  split_and!; [done| |done|by rewrite M3|by rewrite R3]. rewrite P3. unfold k2, k1. by rewrite !call_prints_not by (intros ?? [=]).
Qed.
End nice.

(** test1_nice.c, on a kernel whose nice gives the pid and the old priority,
    reports its own pid with the priority it had and 4, and then with 4 and 2. *)
Theorem test1_nice_reports `{!Kernel K, !PrintLaws K, !NiceLaws K} b (k : K) :
  0 < me k -> 0 <= prio k < MOD -> me k * MOD + MOD <= INT_MAX ->
  exists k' t1 t2, play (test1_nice b) k = (Exited, k') /\ printed k' = printed k ++ [line "Test 1: Nice Value"; t1; t2] /\
    reports t1 (me k) (prio k) 4 /\ reports t2 (me k) 4 2 /\ prio k' = 2.
Proof.
  intros Hm Hp Hmax. unfold test1_nice. destruct (play_say 1 (line "Test 1: Nice Value") b k) as (k1 & E1 & Ek1 & P1). rewrite play_ubind, E1. cbn beta iota.
  destruct (print_nices_not 1 (line "Test 1: Nice Value") k) as [M1 R1]. rewrite <- Ek1 in M1, R1.
  destruct (nice_round_ok 4 b k1) as (k2 & t1 & E2 & P2 & T1 & M2 & R2); [by rewrite M1|by rewrite R1|rewrite M1, R1; lia|unfold INT_MIN, INT_MAX; lia|].
  rewrite play_ubind, E2. cbn beta iota. rewrite M1, R1 in *.
  destruct (nice_round_ok 2 b k2) as (k3 & t2 & E3 & P3 & T2 & M3 & R3); [by rewrite M2|rewrite R2; unfold MOD; lia|rewrite M2, R2; unfold MOD in *; lia|unfold INT_MIN, INT_MAX; lia|].
  rewrite play_ubind, E3. cbn [play exit_]. rewrite M2, R2 in T2. exists k3, t1, t2. split_and!; try done. rewrite P3, P2, P1. by rewrite <- !app_assoc.
Qed.

(** A process with pid 7 and a priority. *)
#[local] Instance one_process : Kernel (Z * list (list Z)) := {|
  answer := fun c k =>
    match c with
    | UGetpid => ((7, []), k)
    | UNice p v => if p =? 7 then ((7 * MOD + k.1, []), (v, k.2)) else ((-1, []), k)
    | UPrint _ t => ((0, []), (k.1, k.2 ++ [t]))
    | _ => ((0, []), k)
    end
|}.
#[local] Program Instance one_process_print : PrintLaws (Z * list (list Z)) := {| printed := snd |}.
Next Obligation. done. Qed.
Next Obligation. intros c [p o] H. destruct c; try done; cbn; [by destruct (pid =? 7)|by destruct (H fd text)]. Qed.
#[local] Program Instance one_process_nice : NiceLaws (Z * list (list Z)) := {| me := fun _ => 7; prio := fst |}.
Next Obligation. done. Qed.
Next Obligation. done. Qed.
Next Obligation. done. Qed.

Lemma test1_nice_reports_witness :
  exists k' t1 t2, play (test1_nice []) (5, []) = (Exited, k') /\ printed k' = printed (5, []) ++ [line "Test 1: Nice Value"; t1; t2] /\
    reports t1 7 5 4 /\ reports t2 7 4 2 /\ prio k' = 2.
Proof.
  apply (@test1_nice_reports _ one_process one_process_print one_process_nice [] (5, [])); cbn; unfold MOD, INT_MAX; lia.
Defined.
